(* ===== verification/_CoqProject ===== *)
-Q . S2P
Prelude.v
Bytes.v
Crypto.v
Types.v
TypesFacts.v
Journal.v
Store.v
Smt.v
SmtFacts.v
Poseidon.v
Shielded.v
State.v
StateFacts.v
Fees.v
Staking.v
StakingFacts.v
Tokens.v
TokensFacts.v
Slashing.v
SlashingFacts.v
Votes.v
VotesFacts.v
Mempool.v
MempoolFacts.v
Contracts.v
ContractsFacts.v
SignGuard.v
Circuit.v
CircuitFacts.v
Gadget.v
Exec.v
ExecFacts.v
Chain.v
ChainFacts.v
Mirror.v
Snapshot.v
SnapshotFacts.v
Simulate.v
Limits.v
Events.v
P2p.v
P2pFacts.v
Transport.v
Access.v
Ws.v
WsFacts.v
Rpc.v
RpcFacts.v
Wire.v
Text.v
Log.v
Ui.v
Metrics.v
Http.v
HttpFacts.v
Publish.v
Byzantine.v
Cli.v
CliFacts.v
Client.v
Console.v
ClientFacts.v
Daemon.v
Screen.v
DaemonFacts.v
Threads.v
ConsoleFacts.v
ShieldFacts.v
NoteTree.v
History.v
Lifetime.v
Roots.v
Spender.v
SpenderFacts.v
Gaps.v
