(* ===== verification/Prelude.v ===== *)
(** * Inazuma Core: a verification library

    Inazuma Core (Rust, src/src/) is a proof-of-stake layer-1 node: 400 ms
    blocks with stake-weighted leader election, precommit finality, native coin
    and tokens, WASM contracts and a shielded pool.  This library models its
    consensus-relevant code and proves what makes it correct.

    ** Conventions

    - A model definition carries the name of the code it translates and, above
      it, a comment with the source file, the lines and the symbol.
    - Unsigned machine integers are [N]; the release profile wraps, so the plain
      operators are [+!], [-!], [*!] (128 bits) and [+!!], [-!!] (64 bits), and
      [saturating_*]/[checked_*] have functions of their own (this file).
    - Strings and byte vectors are [string]; [Result<T, String>] is [result].
    - Third-party code is a type class: [Crypto] (SHA-256, Ed25519, Base58, hex),
      [Fr] (the BN254 scalar field), [Compression] (Poseidon as the tree sees
      it), [Groth16] and [Prover], [Wasm] (the interpreter), [Suite] (X25519, HKDF, the AEAD),
      and the codecs of serde: [EvidenceJson], [Json], [Serde], [JsonText],
      [TxJson], [GenesisJson], [SnapshotJson].
      Their documented laws are the classes ending in [Laws], each with a
      computable instance on which the witnesses run.
    - Hash soundness theorems end in a [clash]: a collision between two strings
      that the two computations compared really hash.
    - Fuel: every fuelled fixpoint ([fold_levels], [selection], the tree walks)
      has a lemma that the fuel the definition passes is enough.

    ** The files, in dependency order

    - Prelude: errors, wrapping integers, sums over lists and maps, stable sort,
      collisions.  Bytes: Rust's text routines.  Crypto: crypto.rs.
    - Types: types.rs.  TypesFacts: signing preimages are injective, amounts
      survive printing, the transaction root binds the list.
    - Journal: journal.rs, and its refinement of a stack of snapshots.  Store:
      the store monad [M] and three classes of operations: [Journaled] (touches
      the trees only through the undo log), [Steps R] (every write is an
      [R]-step), [Total] (cannot fail).
    - Smt, SmtFacts: smt.rs; the incremental tree is the perfect Merkle tree of
      its leaves, proofs are complete and sound.
    - Poseidon, Shielded, Circuit, CircuitFacts: poseidon.rs, shielded.rs,
      shielded_circuit.rs; paths, and exactness of the spend circuit.
    - State, StateFacts: state.rs, the typed tables and their frame lemmas.
    - Fees: fees.rs.  Staking, StakingFacts: staking.rs.  Tokens, TokensFacts:
      tokens.rs.  Slashing, SlashingFacts: slashing.rs.  Votes, VotesFacts:
      consensus.rs.  Mempool, MempoolFacts: mempool.rs.  Contracts,
      ContractsFacts: contracts.rs.  SignGuard: signguard.rs.
    - Exec, ExecFacts: chain.rs from a transaction to a closed block: coins are
      conserved, nonces advance once, tombstones persist.
    - Chain, ChainFacts: chain.rs, the node around it: production, import,
      admission, genesis, reset, halt.
    - Mirror: every operation keeps the Merkle tree the commitment of the five
      consensus tables: a history of leaf updates behind a state, rows proved by
      the proofs the node serves, rebuild and incremental updates agree.
    - Snapshot, SnapshotFacts: snapshot.rs, export and verified import.
      Simulate: simulate.rs, and its agreement with admission.
    - Limits: limits.rs (token buckets on IEEE doubles, the lock-free connection
      guard as a step relation over interleaved threads, per-address counters,
      the peer book).  Access: rpcauth.rs, qos.rs and the gates of rpc.rs and
      ws.rs.  Events: events.rs.
    - P2p, P2pFacts: p2p.rs.  A [World] is the node, the peer book, the reset
      gate, the messages sent and a tick; a peer is a function from tick and
      request to a reply, so it may be as hostile as it likes.  Loops over
      replies take fuel; [replay_terminates] gives enough of it for an orderly
      peer.
    - Transport: transport.rs, the INSC1 handshake and its framing over the
      classes [Suite] and [Json]; text is taken to be UTF-8.
    - Ws, WsFacts: ws.rs, frames, reassembly, the socket loop with its idle
      limit, and the handshake digest.  A socket delivers a list of bytes and
      read timeouts; [frames_exact] says which such lists [read_frame] takes for
      a frame, which is more than RFC 6455 allows a client to send.
    - Rpc, RpcFacts: rpc.rs, every method from its decoded parameters to its
      reply; JSON values are a tree, the derived codecs a class [Serde].
    - Text: lines, comma lists and IP addresses as the entry points read them.
      Metrics: metrics.rs.  Http, HttpFacts: rpc.rs and ws.rs from the bytes of
      a connection to the bytes of its answer; a connection is the chunks its
      reads return and how it ends.
    - Publish: the events of chain.rs, and what each subscription hears.
      Byzantine: byzantine.rs, and why its forgeries are evidence.
    - Cli, CliFacts: main.rs, flags, genesis file, wallet and node key; a wallet
      write is a list of file operations, so a crash can fall between any two.
      Client, ClientFacts: the commands that send transactions, as programs over
      an RPC endpoint, and run against a node.
    - Daemon, DaemonFacts: main.rs, the settings and the start of a node, the
      offline commands, and its threads as a list of whole [Act]s.  Threads: the
      same threads at the grain of [exec_lock]: a [section] is what one thread
      does between taking the lock and dropping it, or a write outside it, and
      [interleaved] any order of sections, so an act that never ends is covered
      as well.  Also what the writes outside the lock lose when a block that is
      being executed is rejected.
    - ShieldFacts: when a spend settles and what it leaves, the table of notes
      included.  NoteTree: what blocks append to that table, and the anchors they
      seal.  Spender, SpenderFacts: main.rs, the wallet of shielded-demo,
      from the root and the paths a node serves to a spend it executes.
    - Gadget: Poseidon inside the circuit is the Poseidon of the node.  Wire: the
      pump of a socket, requests and messages to peers, amounts as JSON text.
    - Log: log.rs, lines as text, and the civil calendar of their time stamps.
      Ui: ui.rs, panels and the status line.  Console: the commands of main.rs
      that show what a node answers, the wallet and the benchmark.  Screen: what
      `run` prints from its start on.  ConsoleFacts: what the commands show is
      what the node has, and where the screen says something else.
    - History: the chain as a whole, a state as the execution of the blocks that
      were imported and sealed since the genesis: its supply, its nonces, its
      links and its files of blocks and transactions.  Lifetime: the refinement
      of a node by that list, from the start of the process through any
      interleaving of its threads.  Roots: the state root over the whole life of
      a database, resets, snapshots and rebuilds included.
    - Gaps: where the code falls short of what it states.

    ** Correspondence

    [Node] (chain.rs) holds the store ([Store]: the trees and the open undo
    frames), the [Mempool], the [VoteTracker] and the flags.  A mutex is a plain
    field and an operation maps the node to the node it leaves.  [apply_tx] and
    the operations below it are programs of the store monad; [import_block]
    opens a frame, runs [execute_block] and commits or rolls back, as the code
    does.  The wall clock, the best height heard from peers and the progress of
    a file write are arguments.

    ** Not modelled

    Sockets, threads and processes as such (accept loops, timeouts other than
    those of ws.rs, exit codes); an interleaving within a section: the writes of
    the genesis, which are made without the lock, are one step (Threads has what
    an import that fails in the middle of them does); the lines printed by the commands that send a
    transaction; the binary layout of rows and disk flushing in state.rs; the WASM interpreter, the proof system, the
    ciphers, the hash functions and JSON text, which are parameters; the test
    suites (battletest.rs, conformance.rs, fuzz.rs). *)

From Stdlib Require Export NArith Lia.
From stdpp Require Export base decidable option list list_numbers strings gmap fin_maps sorting.

#[global] Open Scope N_scope.
#[global] Open Scope list_scope.

(** ** Errors

    Rust's [Result<T, String>]: every fallible function of the program reports
    a message. *)

Inductive result (A : Type) : Type :=
| Ok (a : A)
| Err (msg : string).
Arguments Ok {A} a.
Arguments Err {A} msg.

#[export] Instance result_ret : MRet result := fun A a => Ok a.
#[export] Instance result_bind : MBind result := fun A B f r =>
  match r with Ok a => f a | Err e => Err e end.
#[export] Instance result_fmap : FMap result := fun A B f r =>
  match r with Ok a => Ok (f a) | Err e => Err e end.
#[export] Instance result_eq_dec `{EqDecision A} : EqDecision (result A).
Proof. solve_decision. Defined.

Definition is_ok {A} (r : result A) : bool :=
  match r with Ok _ => true | Err _ => false end.

(** [opt.ok_or(msg)] *)
Definition ok_or {A} (o : option A) (msg : string) : result A :=
  match o with Some a => Ok a | None => Err msg end.

(** [if cond { return Err(msg) }] *)
Definition ensure (cond : bool) (msg : string) : result unit :=
  if cond then Ok tt else Err msg.

(** ** Machine integers

    The release profile of Cargo.toml leaves overflow checks off, so the plain
    operators of Rust wrap; [saturating_*] and [checked_*] are what their names
    say.  A w-bit unsigned integer is an [N] below [2^w]. *)

Definition U64_MAX : N := 18446744073709551615.
Definition U128_MAX : N := 340282366920938463463374607431768211455.

Definition wrap (w x : N) : N := x mod 2 ^ w.
Definition wadd (w a b : N) : N := wrap w (a + b).
Definition wsub (w a b : N) : N := wrap w (a + (2 ^ w - b)).
Definition wmul (w a b : N) : N := wrap w (a * b).

Definition sat_add128 (a b : N) : N := N.min (a + b) U128_MAX.
Definition sat_mul128 (a b : N) : N := N.min (a * b) U128_MAX.
Definition sat_add64 (a b : N) : N := N.min (a + b) U64_MAX.
Definition sat_sub (a b : N) : N := a - b.
Definition checked_add128 (a b : N) : option N :=
  if a + b <=? U128_MAX then Some (a + b) else None.

Declare Scope rust_scope.
Delimit Scope rust_scope with rust.
Notation "a '+!' b" := (wadd 128 a b) (at level 50, left associativity) : rust_scope.
Notation "a '-!' b" := (wsub 128 a b) (at level 50, left associativity) : rust_scope.
Notation "a '*!' b" := (wmul 128 a b) (at level 40, left associativity) : rust_scope.
Notation "a '+!!' b" := (wadd 64 a b) (at level 50, left associativity) : rust_scope.
Notation "a '-!!' b" := (wsub 64 a b) (at level 50, left associativity) : rust_scope.
#[global] Open Scope rust_scope.

(** ** Automation *)

Create HintDb inaz discriminated.
Create Rewrite HintDb inaz_int.

Lemma wrap_small w x : x < 2 ^ w -> wrap w x = x.
Proof. intros. unfold wrap. now apply N.mod_small. Qed.

Lemma wrap_lt w x : wrap w x < 2 ^ w.
Proof. unfold wrap. apply N.mod_lt. apply N.pow_nonzero. lia. Qed.

Lemma wadd_small w a b : a + b < 2 ^ w -> wadd w a b = a + b.
Proof. apply wrap_small. Qed.

Lemma wmul_small w a b : a * b < 2 ^ w -> wmul w a b = a * b.
Proof. apply wrap_small. Qed.

Lemma wsub_small w a b : b <= a -> a < 2 ^ w -> wsub w a b = a - b.
Proof.
  intros Hba Ha. unfold wsub, wrap.
  replace (a + (2 ^ w - b)) with ((a - b) + 1 * 2 ^ w) by lia.
  rewrite N.Div0.mod_add. apply N.mod_small. lia.
Qed.

Lemma pow_128 : 2 ^ 128 = 340282366920938463463374607431768211456.
Proof. reflexivity. Qed.
Lemma pow_64 : 2 ^ 64 = 18446744073709551616.
Proof. reflexivity. Qed.

(** [no_wrap] removes one wrapping operator whose operands stay in range. *)
Ltac no_wrap :=
  match goal with
  | |- context [wadd ?w ?a ?b] => rewrite (wadd_small w a b) by (rewrite ?pow_128, ?pow_64; lia)
  | |- context [wsub ?w ?a ?b] => rewrite (wsub_small w a b) by (rewrite ?pow_128, ?pow_64; lia)
  end.

(** Case analysis on the first [match]/[if] scrutinee of a hypothesis or goal. *)
Ltac case_hyp H :=
  match type of H with
  | context [match ?x with _ => _ end] => destruct x eqn:?; try discriminate H
  end.
Ltac bool_hyps :=
  repeat match goal with
  | H : (_ =? _) = true |- _ => apply N.eqb_eq in H
  | H : (_ =? _) = false |- _ => apply N.eqb_neq in H
  | H : (_ <=? _) = true |- _ => apply N.leb_le in H
  | H : (_ <=? _) = false |- _ => apply N.leb_gt in H
  | H : (_ <? _) = true |- _ => apply N.ltb_lt in H
  | H : (_ <? _) = false |- _ => apply N.ltb_ge in H
  | H : andb _ _ = true |- _ => apply andb_true_iff in H as [? ?]
  | H : orb _ _ = false |- _ => apply orb_false_iff in H as [? ?]
  | H : negb _ = true |- _ => apply negb_true_iff in H
  | H : negb _ = false |- _ => apply negb_false_iff in H
  | H : bool_decide _ = true |- _ => apply bool_decide_eq_true in H
  | H : bool_decide _ = false |- _ => apply bool_decide_eq_false in H
  end.

(** Induction on a list two elements at a time. *)
Lemma list_pair_ind {A} (P : list A -> Prop) :
  P [] -> (forall x, P [x]) -> (forall x y l, P l -> P (x :: y :: l)) -> forall l, P l.
Proof.
  intros H0 H1 H2 l. enough (P l /\ forall x, P (x :: l)) by tauto.
  induction l as [|y l [IH1 IH2]]; auto.
Qed.

(** ** Collisions

    A collision of [f] between the inputs of two computations: the soundness of
    a hash tree ends in one that can be read off the two computations compared.
    (Colliding inputs exist for every compressing function, so "a collision
    exists" would say nothing.) *)

Definition clash {A B} (f : A -> B) (l1 l2 : list A) : Prop :=
  exists x y, x ∈ l1 /\ y ∈ l2 /\ x <> y /\ f x = f y.

Lemma clash_or {A B} `{EqDecision A} (f : A -> B) x y l1 l2 :
  x ∈ l1 -> y ∈ l2 -> f x = f y -> x = y \/ clash f l1 l2.
Proof. intros Hx Hy E. destruct (decide (x = y)); [now left|right; now exists x, y]. Qed.

Lemma clash_sub {A B} (f : A -> B) l1 l2 m1 m2 : l1 ⊆ m1 -> l2 ⊆ m2 -> clash f l1 l2 -> clash f m1 m2.
Proof. intros H1 H2 (x & y & Hx & Hy & Hne & E). exists x, y. auto. Qed.

Lemma clash_cons {A B} (f : A -> B) x y l1 l2 : clash f l1 l2 -> clash f (x :: l1) (y :: l2).
Proof. apply clash_sub; intros ?; now right. Qed.

(** ** Sums

    [sumN f l] is the mathematical (unbounded) sum the conservation theorems
    talk about; [msum f m] sums over the entries of a map. *)

Definition sumN {A} (f : A -> N) (l : list A) : N := foldr (fun a n => f a + n) 0 l.

Lemma sumN_cons {A} (f : A -> N) a l : sumN f (a :: l) = f a + sumN f l.
Proof. reflexivity. Qed.

Section sumN_lemmas.
Context {A : Type} (f : A -> N).

Lemma sumN_app l1 l2 : sumN f (l1 ++ l2) = sumN f l1 + sumN f l2.
Proof. induction l1 as [|a l1 IH]; [done|]. rewrite <- app_comm_cons, !sumN_cons, IH. lia. Qed.

#[export] Instance sumN_perm : Proper ((≡ₚ) ==> (=)) (sumN f).
Proof.
  intros l1 l2 Hp. induction Hp as [|x l1 l2 _ IH|x y l|l1 l2 l3 _ IH1 _ IH2].
  - done.
  - rewrite !sumN_cons. lia.
  - rewrite !sumN_cons. lia.
  - congruence.
Qed.

Lemma sumN_ext (g : A -> N) l : (forall a, a ∈ l -> f a = g a) -> sumN f l = sumN g l.
Proof.
  induction l as [|a l IH]; intros H; [done|]. rewrite !sumN_cons.
  rewrite (H a) by set_solver. rewrite IH; [lia|]. set_solver.
Qed.

Lemma sumN_le (g : A -> N) l : (forall a, a ∈ l -> f a <= g a) -> sumN f l <= sumN g l.
Proof.
  induction l as [|a l IH]; intros H; [reflexivity|]. rewrite !sumN_cons.
  assert (f a <= g a) by (apply H; set_solver).
  assert (sumN f l <= sumN g l) by (apply IH; set_solver). lia.
Qed.

Lemma sumN_elem a l : a ∈ l -> f a <= sumN f l.
Proof.
  induction l as [|b l IH]; intros H; [set_solver|]. rewrite sumN_cons.
  apply elem_of_cons in H as [->|H]; [lia|]. specialize (IH H). lia.
Qed.

Lemma sumN_filter_le (P : A -> Prop) `{forall a, Decision (P a)} l :
  sumN f (filter P l) <= sumN f l.
Proof.
  induction l as [|b l IH]; [done|]. rewrite filter_cons, sumN_cons.
  case_decide; rewrite ?sumN_cons; lia.
Qed.
End sumN_lemmas.

(** Rounding down term by term loses against rounding the sum. *)
Lemma sumN_div_le {A} (f : A -> N) c t l : t <> 0 -> sumN (fun a => c * f a / t) l <= c * sumN f l / t.
Proof.
  intros Ht. induction l as [|a l IH]; [apply N.le_0_l|]. rewrite !sumN_cons, N.mul_add_distr_l.
  apply N.div_le_lower_bound; [done|]. rewrite N.mul_add_distr_l.
  pose proof (N.Div0.mul_div_le (c * f a) t). pose proof (N.Div0.mul_div_le (c * sumN f l) t).
  assert (t * sumN (fun a => c * f a / t) l <= t * (c * sumN f l / t)) by now apply N.mul_le_mono_l. lia.
Qed.

Definition msum {K V} `{Countable K} (f : K -> V -> N) (m : gmap K V) : N :=
  sumN (fun kv => f kv.1 kv.2) (map_to_list m).

Section msum_lemmas.
Context {K V : Type} `{Countable K} (f : K -> V -> N).

Lemma msum_empty : msum f ∅ = 0.
Proof. unfold msum. now rewrite map_to_list_empty. Qed.

Lemma msum_insert_new k v (m : gmap K V) :
  m !! k = None -> msum f (<[k:=v]> m) = f k v + msum f m.
Proof. intros Hk. unfold msum. now rewrite map_to_list_insert by done. Qed.

Definition at_key (k : K) (m : gmap K V) : N :=
  match m !! k with Some v => f k v | None => 0 end.

Lemma msum_delete k (m : gmap K V) : msum f m = at_key k m + msum f (delete k m).
Proof.
  unfold at_key. destruct (m !! k) as [v|] eqn:Hk.
  - rewrite <- (insert_delete_id m k v) at 1 by done.
    apply msum_insert_new, lookup_delete_eq.
  - now rewrite delete_id.
Qed.

Lemma msum_insert k v (m : gmap K V) :
  msum f (<[k:=v]> m) + at_key k m = f k v + msum f m.
Proof.
  rewrite (msum_delete k m), <- (insert_delete_eq m k v).
  rewrite msum_insert_new by apply lookup_delete_eq. lia.
Qed.

Lemma msum_at_le k (m : gmap K V) : at_key k m <= msum f m.
Proof. rewrite (msum_delete k m). lia. Qed.

(** A sum over distinct keys is part of the whole. *)
Lemma msum_keys_le (keys : list K) (m : gmap K V) :
  NoDup keys -> sumN (fun k => at_key k m) keys <= msum f m.
Proof.
  intros Hn. revert m. induction Hn as [|k keys Hk _ IH]; intros m; [apply N.le_0_l|].
  rewrite sumN_cons, (msum_delete k m). specialize (IH (delete k m)).
  rewrite (sumN_ext (fun x => at_key x m) (fun x => at_key x (delete k m))); [lia|].
  intros x Hx. unfold at_key. rewrite lookup_delete_ne; [done|]. congruence.
Qed.
End msum_lemmas.

(** A map sum only sees the entries it weighs. *)
Section msum_agree.
Context {K V : Type} `{Countable K} (f : K -> V -> N).

Lemma msum_filter (P : K * V -> Prop) `{forall x, Decision (P x)} (m : gmap K V) :
  (forall k v, ~ P (k, v) -> f k v = 0) -> msum f (filter P m) = msum f m.
Proof.
  intros Hz. induction m as [|k v m Hk IH] using map_ind; [now rewrite map_filter_empty|].
  destruct (decide (P (k, v))).
  - rewrite map_filter_insert_True, !msum_insert_new, IH by (done || now apply map_lookup_filter_None_2; left).
    done.
  - rewrite map_filter_insert_not', msum_insert_new, Hz, IH by (done || (intros ? E; congruence)). done.
Qed.

Lemma msum_agree (P : K -> Prop) `{forall x, Decision (P x)} (m1 m2 : gmap K V) :
  (forall k v, ~ P k -> f k v = 0) -> (forall k, P k -> m1 !! k = m2 !! k) -> msum f m1 = msum f m2.
Proof.
  intros Hz Heq. rewrite <- (msum_filter (fun kv => P kv.1) m1), <- (msum_filter (fun kv => P kv.1) m2)
    by (cbn; auto).
  f_equal. apply map_eq. intros k. apply option_eq. intros v. rewrite !map_lookup_filter_Some. cbn.
  split; intros [Hl Hp]; (split; [|done]); now rewrite Heq in * || rewrite <- Heq.
Qed.
End msum_agree.

(** ** Sorting

    [slice::sort_by] is stable. *)

Section sort.
Context {A : Type} (le : A -> A -> bool).

Fixpoint insert_by (x : A) (l : list A) : list A :=
  match l with
  | [] => [x]
  | y :: l' => if le x y then x :: l else y :: insert_by x l'
  end.
Definition sort_by (l : list A) : list A := foldr insert_by [] l.

Lemma insert_by_perm x l : insert_by x l ≡ₚ x :: l.
Proof.
  induction l as [|y l IH]; [done|]. cbn. destruct (le x y); [done|]. rewrite IH. apply Permutation_swap.
Qed.
Lemma sort_by_perm l : sort_by l ≡ₚ l.
Proof. induction l as [|x l IH]; [done|]. cbn. now rewrite insert_by_perm, IH. Qed.

Hypothesis le_total : forall x y, le x y = false -> le y x = true.

Lemma insert_by_sorted x l : Sorted (fun a b => le a b = true) l -> Sorted (fun a b => le a b = true) (insert_by x l).
Proof.
  induction 1 as [|y l Hs IH Hh]; cbn; [repeat constructor|].
  destruct (le x y) eqn:E; [constructor; [constructor; done|now constructor]|].
  constructor; [done|]. destruct l as [|z l]; cbn in *; [constructor; auto|].
  destruct (le x z); constructor; [now apply le_total|now inversion Hh].
Qed.
Lemma sort_by_sorted l : Sorted (fun a b => le a b = true) (sort_by l).
Proof. induction l; cbn; [constructor|]. now apply insert_by_sorted. Qed.
End sort.
