(* ===== verification/Bytes.v ===== *)
(** Byte strings and the text routines of Rust's standard library the node uses:
    big- and little-endian integers, decimal printing and parsing, splitting and
    trimming.  A [string] is the sequence of its bytes; [trim] and
    [split_whitespace] treat the ASCII white space only. *)

From S2P Require Import Prelude.
From Stdlib Require Import Ascii String.

#[global] Open Scope string_scope.
#[global] Open Scope list_scope.
#[global] Open Scope N_scope.

#[global] Arguments String.append !_ _ / : simpl nomatch.

Abbreviation slen := String.length.

Definition byte (n : N) : ascii := ascii_of_N (n mod 256).

(** ** Fixed-width integers as bytes *)

Fixpoint to_be_bytes (n : nat) (w : N) : string :=
  match n with
  | O => ""
  | S n' => String (byte (w / 256 ^ N.of_nat n')) (to_be_bytes n' w)
  end.

Fixpoint from_be_acc (acc : N) (s : string) : N :=
  match s with
  | "" => acc
  | String c s' => from_be_acc (acc * 256 + N_of_ascii c) s'
  end.
Definition from_be_bytes (s : string) : N := from_be_acc 0 s.

Fixpoint to_le_bytes (n : nat) (w : N) : string :=
  match n with
  | O => ""
  | S n' => String (byte w) (to_le_bytes n' (w / 256))
  end.

Fixpoint zeros (n : nat) : string :=
  match n with O => "" | S n' => String Ascii.zero (zeros n') end.

(** ** Decimal text: [to_string] and [parse] *)

Definition digit (d : N) : ascii := ascii_of_N (48 + d).
Definition digit_value (c : ascii) : option N :=
  let v := N_of_ascii c in if (48 <=? v) && (v <=? 57) then Some (v - 48) else None.

Fixpoint dec_go (fuel : nat) (n : N) (acc : string) : string :=
  match fuel with
  | O => acc
  | S fuel' =>
    let acc' := String (digit (n mod 10)) acc in
    if n <? 10 then acc' else dec_go fuel' (n / 10) acc'
  end.
Definition dec (n : N) : string := dec_go (S (N.to_nat (N.log2 n))) n "".

Fixpoint parse_digits (acc : N) (s : string) : option N :=
  match s with
  | "" => Some acc
  | String c s' => d ← digit_value c; parse_digits (acc * 10 + d) s'
  end.

(** [str::parse::<uW>()]: an optional plus sign, at least one digit, digits
    only, and a value that fits. *)
Definition parse_uint (max : N) (s : string) : option N :=
  let body := match s with String "+" s' => s' | _ => s end in
  match body with
  | "" => None
  | _ => v ← parse_digits 0 body; if v <=? max then Some v else None
  end.
Definition parse_u64 := parse_uint U64_MAX.
Definition parse_u128 := parse_uint U128_MAX.

(** [format!("{:0width$}", n)] *)
Definition pad_left (width : nat) (s : string) : string :=
  let fix go k := match k with O => s | S k' => String "0" (go k') end in
  go (width - slen s)%nat.
Definition dec_pad (width : nat) (n : N) : string := pad_left width (dec n).

(** [while s.len() < width { s.push('0') }] *)
Fixpoint push_zeros (k : nat) (s : string) : string :=
  match k with O => s | S k' => push_zeros k' (s +:+ "0") end.
Definition pad_right (width : nat) (s : string) : string := push_zeros (width - slen s) s.

Definition bool_text (b : bool) : string := if b then "true" else "false".

(** ** Searching, splitting, trimming *)

Fixpoint contains_char (c : ascii) (s : string) : bool :=
  match s with
  | "" => false
  | String d s' => Ascii.eqb c d || contains_char c s'
  end.

Fixpoint split_once (c : ascii) (s : string) : option (string * string) :=
  match s with
  | "" => None
  | String d s' =>
    if Ascii.eqb c d then Some ("", s')
    else '(a, b) ← split_once c s'; Some (String d a, b)
  end.

Definition is_space (c : ascii) : bool :=
  let v := N_of_ascii c in (v =? 32) || ((9 <=? v) && (v <=? 13)).

Fixpoint trim_start (s : string) : string :=
  match s with
  | String c s' => if is_space c then trim_start s' else s
  | "" => ""
  end.
Fixpoint trim_end (s : string) : string :=
  match s with
  | "" => ""
  | String c s' =>
    match trim_end s' with
    | "" => if is_space c then "" else String c ""
    | t => String c t
    end
  end.
Definition trim (s : string) : string := trim_end (trim_start s).

(** First white-space separated word, and what follows it. *)
Fixpoint next_word (s : string) : string * string :=
  match s with
  | "" => ("", "")
  | String c s' =>
    if is_space c then ("", s') else let '(w, r) := next_word s' in (String c w, r)
  end.

Fixpoint strip_prefix (p s : string) : option string :=
  match p, s with
  | "", _ => Some s
  | String a p', String b s' => if Ascii.eqb a b then strip_prefix p' s' else None
  | String _ _, "" => None
  end.

(** [trim_start_matches(p)] for a non-empty pattern. *)
Fixpoint trim_matches_go (fuel : nat) (p s : string) : string :=
  match fuel with
  | O => s
  | S fuel' => match strip_prefix p s with Some s' => trim_matches_go fuel' p s' | None => s end
  end.
Definition trim_start_matches (p s : string) : string := trim_matches_go (slen s) p s.

Definition ascii_upper (c : ascii) : ascii :=
  let v := N_of_ascii c in if (97 <=? v) && (v <=? 122) then ascii_of_N (v - 32) else c.
Definition is_alphanumeric (c : ascii) : bool :=
  let v := N_of_ascii c in
  ((48 <=? v) && (v <=? 57)) || ((65 <=? v) && (v <=? 90)) || ((97 <=? v) && (v <=? 122)).
Fixpoint map_string (f : ascii -> ascii) (s : string) : string :=
  match s with "" => "" | String c s' => String (f c) (map_string f s') end.
Fixpoint all_chars (p : ascii -> bool) (s : string) : bool :=
  match s with "" => true | String c s' => p c && all_chars p s' end.

(** Byte-wise lexicographic order, Rust's [Ord for str] and sled's key order. *)
Definition str_le (a b : string) : Prop := String.leb a b = true.
#[export] Instance str_le_dec a b : Decision (str_le a b).
Proof. unfold str_le. apply _. Defined.

(** ** Lemmas *)

Lemma append_assoc (a b c : string) : a +:+ (b +:+ c) = (a +:+ b) +:+ c.
Proof. induction a as [|x a IH]; cbn; [done|]. now rewrite IH. Qed.

Lemma append_nil_r (a : string) : a +:+ "" = a.
Proof. induction a as [|x a IH]; cbn; [done|]. now rewrite IH. Qed.

Lemma slen_append (a b : string) : slen (a +:+ b) = (slen a + slen b)%nat.
Proof. induction a as [|x a IH]; cbn; [done|]. now rewrite IH. Qed.

Lemma append_inj_len (a1 b1 a2 b2 : string) :
  slen a1 = slen a2 -> a1 +:+ b1 = a2 +:+ b2 -> a1 = a2 /\ b1 = b2.
Proof.
  revert a2. induction a1 as [|x a1 IH]; intros [|y a2]; cbn; intros Hl He; try discriminate.
  - done.
  - injection He as -> He. destruct (IH a2) as [-> ->]; auto.
Qed.

Lemma append_inv_head (a b c : string) : a +:+ b = a +:+ c -> b = c.
Proof. induction a as [|x a IH]; cbn; intros H; [done|]. injection H. auto. Qed.

Lemma slen_be n w : slen (to_be_bytes n w) = n.
Proof. induction n as [|n IH]; cbn; [done|]. now rewrite IH. Qed.

Lemma slen_le n w : slen (to_le_bytes n w) = n.
Proof. revert w. induction n as [|n IH]; cbn; intros; [done|]. now rewrite IH. Qed.

Lemma N_of_byte x : N_of_ascii (byte x) = x mod 256.
Proof. unfold byte. apply N_ascii_embedding. apply N.mod_lt. lia. Qed.

Lemma from_be_acc_spec n : forall w acc rest,
  from_be_acc acc (to_be_bytes n w +:+ rest) =
  from_be_acc (acc * 256 ^ N.of_nat n + w mod 256 ^ N.of_nat n) rest.
Proof.
  induction n as [|n IH]; intros w acc rest.
  - cbn [to_be_bytes String.append]. rewrite N.mod_1_r. f_equal. cbn. lia.
  - cbn [to_be_bytes String.append from_be_acc]. rewrite IH, N_of_byte.
    replace (N.of_nat (S n)) with (N.succ (N.of_nat n)) by lia.
    rewrite N.pow_succ_r by lia. set (P := 256 ^ N.of_nat n).
    assert (P <> 0) by (apply N.pow_nonzero; lia).
    replace (w mod (256 * P)) with (w mod P + P * ((w / P) mod 256)).
    + f_equal. lia.
    + rewrite (N.mul_comm 256 P), N.Div0.mod_mul_r. lia.
Qed.

Lemma from_to_be n w : w < 256 ^ N.of_nat n -> from_be_bytes (to_be_bytes n w) = w.
Proof.
  intros Hw. unfold from_be_bytes.
  rewrite <- (append_nil_r (to_be_bytes n w)), from_be_acc_spec. cbn.
  now apply N.mod_small.
Qed.

Lemma to_be_inj n w1 w2 :
  w1 < 256 ^ N.of_nat n -> w2 < 256 ^ N.of_nat n ->
  to_be_bytes n w1 = to_be_bytes n w2 -> w1 = w2.
Proof. intros H1 H2 E. rewrite <- (from_to_be n w1), <- (from_to_be n w2) by done. now rewrite E. Qed.

(** Decimal round trip. *)
Lemma digit_value_digit d : d < 10 -> digit_value (digit d) = Some d.
Proof.
  intros Hd. unfold digit_value, digit. rewrite N_ascii_embedding by lia.
  replace (48 <=? 48 + d) with true by (symmetry; apply N.leb_le; lia).
  replace (48 + d <=? 57) with true by (symmetry; apply N.leb_le; lia).
  cbn. f_equal. lia.
Qed.

Lemma parse_digits_app a b acc :
  parse_digits acc (a +:+ b) = (v ← parse_digits acc a; parse_digits v b).
Proof.
  revert acc. induction a as [|c a IH]; intros acc; cbn; [done|].
  destruct (digit_value c); cbn; [apply IH|done].
Qed.

Lemma dec_go_acc fuel : forall n acc, dec_go fuel n acc = dec_go fuel n "" +:+ acc.
Proof.
  induction fuel as [|fuel IH]; intros n acc; cbn; [done|].
  destruct (n <? 10); [done|].
  rewrite IH, (IH _ (String _ "")). rewrite <- append_assoc. done.
Qed.

Lemma parse_dec_go fuel : forall n,
  n < 2 ^ N.of_nat fuel -> (0 < fuel)%nat ->
  parse_digits 0 (dec_go fuel n "") = Some n.
Proof.
  induction fuel as [|fuel IH]; intros n Hn Hf; [lia|].
  cbn [dec_go]. assert (n mod 10 < 10) by (apply N.mod_lt; lia).
  destruct (n <? 10) eqn:E; bool_hyps.
  - cbn. rewrite digit_value_digit by done. cbn. f_equal.
    rewrite N.mod_small by done. lia.
  - rewrite dec_go_acc, parse_digits_app, IH.
    + cbn. rewrite digit_value_digit by done. cbn. f_equal.
      rewrite N.mul_comm. symmetry. apply N.Div0.div_mod.
    + replace (N.of_nat (S fuel)) with (N.succ (N.of_nat fuel)) in Hn by lia.
      rewrite N.pow_succ_r in Hn by lia. apply N.Div0.div_lt_upper_bound. lia.
    + destruct fuel; [cbn in Hn; lia|lia].
Qed.

Lemma parse_digits_dec n : parse_digits 0 (dec n) = Some n.
Proof.
  unfold dec. apply parse_dec_go; [|lia].
  rewrite Nat2N.inj_succ, N2Nat.id. destruct (decide (n = 0)) as [->|]; [done|].
  apply N.log2_spec. lia.
Qed.

Lemma dec_inj n m : dec n = dec m -> n = m.
Proof.
  intros E. pose proof (parse_digits_dec n) as H. rewrite E, parse_digits_dec in H.
  now injection H.
Qed.

(** Decimal text consists of digits; in particular it is non-empty and free of
    the separators the preimages use. *)
Definition is_digit (c : ascii) : bool := match digit_value c with Some _ => true | None => false end.

Lemma all_chars_app p a b : all_chars p (a +:+ b) = all_chars p a && all_chars p b.
Proof. induction a as [|c a IH]; cbn; [done|]. now rewrite IH, andb_assoc. Qed.

Lemma is_digit_digit d : d < 10 -> is_digit (digit d) = true.
Proof. intros. unfold is_digit. now rewrite digit_value_digit. Qed.

Lemma all_digits_dec_go fuel : forall n, all_chars is_digit (dec_go fuel n "") = true.
Proof.
  induction fuel as [|fuel IH]; intros n; cbn [dec_go]; [done|].
  assert (n mod 10 < 10) by (apply N.mod_lt; lia).
  destruct (n <? 10); cbn.
  - now rewrite is_digit_digit.
  - rewrite dec_go_acc, all_chars_app, IH. cbn. now rewrite is_digit_digit.
Qed.
Lemma all_digits_dec n : all_chars is_digit (dec n) = true.
Proof. apply all_digits_dec_go. Qed.

Lemma dec_nonempty n : dec n <> "".
Proof.
  unfold dec. cbn [dec_go]. destruct (n <? 10); [done|].
  rewrite dec_go_acc. destruct (dec_go _ _ _); done.
Qed.

Lemma all_chars_not_contains p c s :
  all_chars p s = true -> p c = false -> contains_char c s = false.
Proof.
  induction s as [|d s IH]; cbn; intros H Hc; [done|].
  apply andb_true_iff in H as [Hd Hs]. rewrite IH by done.
  destruct (Ascii.eqb_spec c d) as [->|]; [congruence|done].
Qed.

Lemma parse_uint_dec max n : n <= max -> parse_uint max (dec n) = Some n.
Proof.
  intros Hn. pose proof (all_digits_dec n) as Hd. pose proof (dec_nonempty n) as Hne.
  unfold parse_uint.
  assert (match dec n with String "+" s' => s' | _ => dec n end = dec n) as ->.
  { destruct (dec n) as [|c s]; [done|]. cbn in Hd. apply andb_true_iff in Hd as [Hc _].
    destruct c as [[] [] [] [] [] [] [] []]; try reflexivity; discriminate. }
  rewrite parse_digits_dec. destruct (dec n) eqn:E; [done|]. cbn.
  now replace (n <=? max) with true by (symmetry; now apply N.leb_le).
Qed.

Lemma from_be_acc_bound s : forall acc, from_be_acc acc s < (acc + 1) * 256 ^ N.of_nat (slen s).
Proof.
  induction s as [|c s IH]; intros acc; cbn [from_be_acc slen].
  - cbn. lia.
  - specialize (IH (acc * 256 + N_of_ascii c)). pose proof (N_ascii_bounded c).
    rewrite Nat2N.inj_succ, N.pow_succ_r by lia.
    eapply N.lt_le_trans; [exact IH|]. rewrite N.mul_assoc. apply N.mul_le_mono_r. lia.
Qed.

Lemma from_be_bytes_bound s : from_be_bytes s < 256 ^ N.of_nat (slen s).
Proof. pose proof (from_be_acc_bound s 0) as Hb. unfold from_be_bytes. lia. Qed.

Lemma substring_long n : forall s, (slen s <= n)%nat -> String.substring 0 n s = s.
Proof. induction n as [|n IH]; intros [|c s] H; cbn in *; [done|lia|done|]. f_equal. apply IH. lia. Qed.
Lemma substring_all s : String.substring 0 (slen s) s = s.
Proof. now apply substring_long. Qed.
Lemma slen_substring n s : (slen (String.substring 0 n s) <= n)%nat.
Proof. revert s. induction n as [|n IH]; intros [|c s]; cbn; try lia. specialize (IH s). lia. Qed.

Lemma slen_zeros n : slen (zeros n) = n.
Proof. induction n as [|n IH]; cbn; auto. Qed.

Lemma String_inv a b s t : String a s = String b t -> a = b /\ s = t.
Proof. now intros [= -> ->]. Qed.

(** Key order is a total order (stdpp's [String.le]). *)
Lemma leb_trans a b c : String.leb a b = true -> String.leb b c = true -> String.leb a c = true.
Proof.
  intros Hab Hbc. apply Is_true_true. assert (String.le a c) as Hac; [|exact Hac].
  transitivity b; apply Is_true_true; [exact Hab|exact Hbc].
Qed.
Lemma leb_total_false a b : String.leb a b = false -> String.leb b a = true.
Proof. destruct (String.leb_total a b); congruence. Qed.

Lemma slen_substring_le m n s : (slen (String.substring m n s) <= n)%nat.
Proof.
  revert n s. induction m as [|m IH]; intros n s; [apply slen_substring|]. destruct s as [|c s]; cbn; [lia|apply IH].
Qed.

(** ** Order of big-endian keys *)

Lemma leb_cons x y a b : N_of_ascii x < N_of_ascii y \/ x = y /\ String.leb a b = true -> String.leb (String x a) (String y b) = true.
Proof.
  unfold String.leb. cbn [String.compare]. unfold Ascii.compare. intros [H|[-> H]].
  - now rewrite (proj2 (N.compare_lt_iff _ _) H).
  - now rewrite N.compare_refl.
Qed.
Lemma byte_mod x y : x mod 256 = y mod 256 -> byte x = byte y.
Proof. rewrite <- !N_of_byte. intros H. apply (f_equal ascii_of_N) in H. now rewrite !ascii_N_embedding in H. Qed.
(** Big-endian keys sort as the numbers they spell. *)
Lemma be_order n a b : a mod 256 ^ N.of_nat n <= b mod 256 ^ N.of_nat n -> String.leb (to_be_bytes n a) (to_be_bytes n b) = true.
Proof.
  induction n as [|n IH]; [done|]. cbn [to_be_bytes]. replace (N.of_nat (S n)) with (N.succ (N.of_nat n)) by lia.
  rewrite N.pow_succ_r by lia. set (P := 256 ^ N.of_nat n) in *. assert (P <> 0) as HP by (subst P; now apply N.pow_nonzero).
  rewrite (N.mul_comm 256 P), !N.Div0.mod_mul_r. intros H. apply leb_cons. rewrite !N_of_byte.
  assert (a mod P < P /\ b mod P < P) as [H1 H2] by (split; now apply N.mod_lt).
  destruct (N.lt_trichotomy ((a / P) mod 256) ((b / P) mod 256)) as [Hl|[He|Hg]]; [now left| |].
  2: { exfalso. apply N.le_succ_l, (N.mul_le_mono_l _ _ P) in Hg. rewrite N.mul_succ_r in Hg. eapply N.lt_irrefl, N.le_lt_trans; [exact Hg|].
    eapply N.le_lt_trans; [|rewrite N.add_comm; apply N.add_lt_mono_r, H2]. etransitivity; [|exact H]. rewrite N.add_comm. apply N.le_add_r. }
  right. rewrite He in H. split; [now apply byte_mod|]. apply IH. lia.
Qed.
Lemma be_inj n a b : a < 256 ^ N.of_nat n -> b < 256 ^ N.of_nat n -> to_be_bytes n a = to_be_bytes n b -> a = b.
Proof. intros Ha Hb E. apply (f_equal from_be_bytes) in E. now rewrite !from_to_be in E. Qed.
