(* ===== verification/Crypto.v ===== *)
(** crypto.rs: hashing, addresses, ed25519 keys and signatures.

    SHA-256 (crate [sha2]), ed25519 ([ed25519_dalek]), base58 ([bs58]) and hex
    ([hex]) are third-party: they are the fields of the class [Crypto].  What
    the node relies on about them is the class [CryptoLaws].  [Toy] is a
    concrete, computable instance used to evaluate the model. *)

From S2P Require Import Prelude Bytes.
From Stdlib Require Import Ascii String.
Local Open Scope N_scope.

Class Crypto := {
  sha256 : string -> string;
  (** [VerifyingKey::from_bytes(pk)] succeeds and [vk.verify(msg, sig)] accepts. *)
  ed25519_verify : string -> string -> string -> bool;
  ed25519_pubkey : string -> string;
  ed25519_sign : string -> string -> string;
  bs58_encode : string -> string;
  bs58_decode : string -> option string;
  hex_encode : string -> string;
  hex_decode : string -> option string
}.

Definition is_hex (c : ascii) : bool :=
  let v := N_of_ascii c in ((48 <=? v) && (v <=? 57)) || ((97 <=? v) && (v <=? 102)).

(** Documented behaviour of the crates. *)
Class CryptoLaws `{Crypto} : Prop := {
  sha256_len m : slen (sha256 m) = 32%nat;
  hex_round_trip b : hex_decode (hex_encode b) = Some b;
  hex_chars b : all_chars is_hex (hex_encode b) = true;
  hex_len b : slen (hex_encode b) = (2 * slen b)%nat;
  bs58_round_trip b : bs58_decode (trim (bs58_encode b)) = Some b;
  ed25519_pubkey_len sk : slen (ed25519_pubkey sk) = 32%nat;
  ed25519_sign_len sk m : slen (ed25519_sign sk m) = 64%nat;
  ed25519_sign_verify sk m :
    ed25519_verify (ed25519_pubkey sk) m (ed25519_sign sk m) = true
}.

Section crypto.
Context `{Crypto}.

(* [src/src/crypto.rs 15-17 hash_hex] *)
Definition hash_hex (data : string) : string := hex_encode (sha256 data).

(* [src/src/crypto.rs 21-23 address_from_pubkey] *)
Definition address_from_pubkey (pubkey : string) : string := bs58_encode pubkey.

(* [src/src/crypto.rs 26-34 pubkey_from_address] *)
Definition pubkey_from_address (addr : string) : option string :=
  raw ← bs58_decode (trim addr);
  if Nat.eqb (slen raw) 32 then Some raw else None.

(* [src/src/crypto.rs 36-38 is_valid_address] *)
Definition is_valid_address (addr : string) : bool := bool_decide (is_Some (pubkey_from_address addr)).

(** A hex string holding exactly [n] bytes. *)
Definition hex_bytes (n : nat) (s : string) : option string :=
  raw ← hex_decode s; if Nat.eqb (slen raw) n then Some raw else None.

(* [src/src/crypto.rs 86-103 verify] *)
Definition verify (pubkey_hex msg sig_hex : string) : bool :=
  match hex_bytes 32 pubkey_hex, hex_bytes 64 sig_hex with
  | Some pk, Some sg => ed25519_verify pk msg sg
  | _, _ => false
  end.

(* [src/src/crypto.rs 40-42 Keypair] *)
Record Keypair := { signing : string }.

(* [src/src/crypto.rs 53-63 Keypair::from_secret_hex] *)
Definition from_secret_hex (s : string) : result Keypair :=
  match hex_decode (trim_start_matches "0x" (trim s)) with
  | None => Err "invalid hex"
  | Some raw =>
    if Nat.eqb (slen raw) 32 then Ok {| signing := raw |}
    else Err "secret key must be 32 bytes"
  end.

(* [src/src/crypto.rs 69-71 Keypair::pubkey_bytes] *)
Definition pubkey_bytes (k : Keypair) : string := ed25519_pubkey (signing k).
(* [src/src/crypto.rs 73-75 Keypair::pubkey_hex] *)
Definition pubkey_hex (k : Keypair) : string := hex_encode (pubkey_bytes k).
(* [src/src/crypto.rs 77-79 Keypair::address] *)
Definition address (k : Keypair) : string := address_from_pubkey (pubkey_bytes k).
(* [src/src/crypto.rs 81-83 Keypair::sign_hex] *)
Definition sign_hex (k : Keypair) (msg : string) : string := hex_encode (ed25519_sign (signing k) msg).

Context `{!CryptoLaws}.

Lemma hex_encode_inj a b : hex_encode a = hex_encode b -> a = b.
Proof. intros E. apply (f_equal hex_decode) in E. rewrite !hex_round_trip in E. now injection E. Qed.

Lemma verify_sign k msg : verify (pubkey_hex k) msg (sign_hex k msg) = true.
Proof.
  unfold verify, hex_bytes, pubkey_hex, sign_hex, pubkey_bytes. rewrite !hex_round_trip. cbn.
  rewrite ed25519_pubkey_len, ed25519_sign_len. cbn. apply ed25519_sign_verify.
Qed.

Lemma address_is_valid k : is_valid_address (address k) = true.
Proof.
  unfold is_valid_address, pubkey_from_address, address, address_from_pubkey.
  rewrite bs58_round_trip. cbn. unfold pubkey_bytes. rewrite ed25519_pubkey_len. done.
Qed.
End crypto.

(** ** A computable instance *)
Module Toy.

Definition hex_digit (v : N) : ascii := ascii_of_N (if v <? 10 then 48 + v else 87 + v).
Definition hex_value (c : ascii) : option N :=
  let v := N_of_ascii c in
  if (48 <=? v) && (v <=? 57) then Some (v - 48)
  else if (97 <=? v) && (v <=? 102) then Some (v - 87) else None.

Fixpoint hex_enc (s : string) : string :=
  match s with
  | "" => ""
  | String c s' =>
    let v := N_of_ascii c in String (hex_digit (v / 16)) (String (hex_digit (v mod 16)) (hex_enc s'))
  end.
Fixpoint hex_dec (s : string) : option string :=
  match s with
  | "" => Some ""
  | String a (String b s') =>
    x ← hex_value a; y ← hex_value b; t ← hex_dec s'; Some (String (ascii_of_N (16 * x + y)) t)
  | _ => None
  end.

(** A 64-bit checksum (shift and xor, folded), spread over 32 bytes. *)
Fixpoint roll (h : N) (s : string) : N :=
  match s with
  | "" => h
  | String c s' => roll (N.lxor (N.shiftl h 3) (N_of_ascii c)) s'
  end.
Fixpoint fold64 (fuel : nat) (h : N) : N :=
  match fuel with
  | O => N.land h U64_MAX
  | S f =>
    let r := N.shiftr h 64 in
    if r =? 0 then h else fold64 f (N.lxor (N.lxor (N.land h U64_MAX) (N.shiftl r 1)) 2654435769)
  end.
Fixpoint bytes_of (n : nat) (h : N) : string :=
  match n with O => "" | S n' => String (ascii_of_N (N.land h 255)) (bytes_of n' (N.shiftr h 8)) end.
Definition digest (s : string) : string :=
  let w := bytes_of 8 (fold64 (slen s) (roll 5381 s)) in w +:+ "inazuma " +:+ w +:+ w.

Fixpoint take_pad (n : nat) (s : string) : string :=
  match n with
  | O => ""
  | S n' => match s with "" => String "0" (take_pad n' "") | String c s' => String c (take_pad n' s') end
  end.

#[export] Instance toy_crypto : Crypto := {|
  sha256 := digest;
  ed25519_verify pk m sg := String.eqb sg (digest (pk +:+ m) +:+ digest m);
  ed25519_pubkey sk := take_pad 32 sk;
  ed25519_sign sk m := digest (take_pad 32 sk +:+ m) +:+ digest m;
  bs58_encode := hex_enc;
  bs58_decode := hex_dec;
  hex_encode := hex_enc;
  hex_decode := hex_dec
|}.

Lemma hex_value_digit v : v < 16 -> hex_value (hex_digit v) = Some v.
Proof.
  intros Hv. destruct v as [|p]; [reflexivity|].
  do 4 (destruct p as [p|p|]; try reflexivity); lia.
Qed.

Lemma hex_dec_enc s : hex_dec (hex_enc s) = Some s.
Proof.
  induction s as [|c s IH]; [done|]. cbn.
  pose proof (N_ascii_bounded c). rewrite !hex_value_digit;
    [|first [apply N.mod_lt; lia | apply N.Div0.div_lt_upper_bound; lia]..].
  cbn. rewrite IH. cbn. do 2 f_equal.
  rewrite <- N.Div0.div_mod. apply ascii_N_embedding.
Qed.

Lemma hex_enc_chars s : all_chars is_hex (hex_enc s) = true.
Proof.
  assert (forall v, v < 16 -> is_hex (hex_digit v) = true) as Hd.
  { intros v Hv. destruct v as [|p]; [reflexivity|].
    do 4 (destruct p as [p|p|]; try reflexivity); lia. }
  induction s as [|c s IH]; [done|]. cbn.
  pose proof (N_ascii_bounded c).
  rewrite !Hd; [done|first [apply N.mod_lt; lia | apply N.Div0.div_lt_upper_bound; lia]..].
Qed.

Lemma slen_hex_enc s : slen (hex_enc s) = (2 * slen s)%nat.
Proof. induction s as [|c s IH]; [done|]. cbn [hex_enc slen String.length]. unfold slen in *. cbn [String.length]. rewrite IH. lia. Qed.

(** Text without white space is unchanged by [trim]. *)
Lemma trim_no_space p s :
  (forall c, p c = true -> is_space c = false) -> all_chars p s = true -> trim s = s.
Proof.
  intros Hp Hs. unfold trim.
  assert (trim_start s = s) as ->.
  { destruct s as [|c s]; [done|]. cbn in *. apply andb_true_iff in Hs as [Hc _]. now rewrite Hp. }
  induction s as [|c s IH]; [done|]. cbn in *. apply andb_true_iff in Hs as [Hc Hs].
  rewrite IH by done. destruct s; [|done]. now rewrite Hp.
Qed.

Lemma hex_not_space c : is_hex c = true -> is_space c = false.
Proof. destruct c as [[] [] [] [] [] [] [] []]; intros Hc; try reflexivity; discriminate. Qed.

Lemma slen_take_pad n s : slen (take_pad n s) = n.
Proof. revert s. induction n as [|n IH]; intros [|c s]; cbn; auto. Qed.

Lemma slen_digest s : slen (digest s) = 32%nat.
Proof.
  assert (forall n h, slen (bytes_of n h) = n) as Hb by (induction n; intros; cbn; auto).
  unfold digest. now rewrite !slen_append, !Hb.
Qed.

#[export] Instance toy_laws : CryptoLaws.
Proof.
  split; intros; cbn -[digest trim take_pad].
  - apply slen_digest.
  - apply hex_dec_enc.
  - apply hex_enc_chars.
  - apply slen_hex_enc.
  - rewrite (trim_no_space is_hex); [apply hex_dec_enc|apply hex_not_space|apply hex_enc_chars].
  - apply slen_take_pad.
  - now rewrite slen_append, !slen_digest.
  - apply String.eqb_refl.
Qed.

End Toy.
