(* ===== verification/Types.v ===== *)
(** types.rs: constants, accounts, transactions, blocks, signing preimages, and
    the rows of the other tables (tokens.rs [Token], contracts.rs [Contract] and
    [Receipt], slashing.rs [SlashRecord]). *)

From S2P Require Import Prelude Bytes Crypto.
From Stdlib Require Import Ascii.
From Stdlib Require String.
Local Open Scope N_scope.

(** ** Constants *)

(* [src/src/types.rs 7-7 RAI_PER_INAZ] *)
Definition RAI_PER_INAZ : N := 1000000000.
(* [src/src/types.rs 8-8 CHAIN_ID] *)
Definition CHAIN_ID : N := 7777.
(* [src/src/types.rs 9-9 MIN_FEE] *)
Definition MIN_FEE : N := 1000.
(* [src/src/types.rs 12-12 MIN_STAKE] *)
Definition MIN_STAKE : N := 1000 * RAI_PER_INAZ.
(* [src/src/types.rs 14-14 UNBONDING_BLOCKS] *)
Definition UNBONDING_BLOCKS : N := 300.
(* [src/src/types.rs 39-39 EQUIVOCATION_MIN_BURN_PCT] *)
Definition EQUIVOCATION_MIN_BURN_PCT : N := 5.
(* [src/src/types.rs 42-42 EQUIVOCATION_CORRELATION_FACTOR] *)
Definition EQUIVOCATION_CORRELATION_FACTOR : N := 3.
(* [src/src/types.rs 44-44 REPORTER_BOUNTY_PCT] *)
Definition REPORTER_BOUNTY_PCT : N := 10.
(* [src/src/types.rs 46-46 DOWNTIME_JAIL_STREAK] *)
Definition DOWNTIME_JAIL_STREAK : N := 50.
(* [src/src/types.rs 48-48 DOWNTIME_JAIL_BLOCKS] *)
Definition DOWNTIME_JAIL_BLOCKS : N := 10000.
(* [src/src/types.rs 50-50 DOWNTIME_REPEAT_BURN_BPS] *)
Definition DOWNTIME_REPEAT_BURN_BPS : N := 10.
(* [src/src/types.rs 53-53 EVIDENCE_MAX_AGE_BLOCKS] *)
Definition EVIDENCE_MAX_AGE_BLOCKS : N := 100000.
(* [src/src/types.rs 55-55 TOMBSTONE_HEIGHT] *)
Definition TOMBSTONE_HEIGHT : N := U64_MAX.
(* [src/src/types.rs 71-71 NO_DOWNTIME_JAIL_HEIGHT] *)
Definition NO_DOWNTIME_JAIL_HEIGHT : N := 1400000.
(* [src/src/types.rs 84-84 INACTIVITY_LEAK_ACTIVATION_HEIGHT] *)
Definition INACTIVITY_LEAK_ACTIVATION_HEIGHT : N := 2000000.
(* [src/src/types.rs 87-87 INACTIVITY_LEAK_STREAK] *)
Definition INACTIVITY_LEAK_STREAK : N := 50.
(* [src/src/types.rs 90-90 INACTIVITY_LEAK_BPS] *)
Definition INACTIVITY_LEAK_BPS : N := 5.
(* [src/src/types.rs 113-113 PRODUCE_LAG_TOLERANCE] *)
Definition PRODUCE_LAG_TOLERANCE : N := 2.

(** Chain identity: values fixed at boot (genesis, environment), the same for
    every step of a run.  [slashing_activation] is the static
    [SLASHING_ACTIVATION] of types.rs after [set_slashing_activation];
    [shielded_activation] is [shielded::activation_height()]. *)
Class ChainParams := {
  slashing_activation : N;
  shielded_activation : N
}.

(* [src/src/types.rs 93-95 downtime_jail_enabled] *)
Definition downtime_jail_enabled (height : N) : bool := height <? NO_DOWNTIME_JAIL_HEIGHT.
(* [src/src/types.rs 98-100 inactivity_leak_enabled] *)
Definition inactivity_leak_enabled (height : N) : bool := INACTIVITY_LEAK_ACTIVATION_HEIGHT <=? height.
(* [src/src/types.rs 115-118 note_peer_height] *)
Definition note_peer_height (best height : N) : N := N.max best height.

(** ** Amounts as text *)

(* [src/src/types.rs 154-158 format_inaz] *)
Definition format_inaz (rai : N) : string :=
  dec (rai / RAI_PER_INAZ) +:+ "." +:+ dec_pad 9 (rai mod RAI_PER_INAZ).

(* [src/src/types.rs 160-180 parse_inaz] *)
Definition parse_inaz (s : string) : result N :=
  let s := trim s in
  let '(w, f) := match split_once "."%char s with Some (w, f) => (w, f) | None => (s, "") end in
  whole ← ok_or (parse_u128 w) "bad amount";
  _ ← (if Nat.ltb 9 (slen f) then Err "max 9 decimals" else Ok tt);
  let frac := pad_right 9 f in
  frac ← (match frac with "" => Ok 0 | _ => ok_or (parse_u128 frac) "bad amount" end);
  Ok (whole *! RAI_PER_INAZ +! frac).

(** ** Accounts *)

(* [src/src/types.rs 183-186 Unbond] *)
Record Unbond := { u_amount : N; release_height : N }.

(* [src/src/types.rs 216-244 Penalties] *)
Record Penalties := {
  jailed_until : N;
  tombstoned : bool;
  slashed : N;
  missed_slots : N;
  missed_streak : N;
  downtime_jails : N;
  jail_fault : bool;
  leaked : N
}.

(* [src/src/types.rs 189-208 Account] *)
Record Account := {
  balance : N;
  nonce : N;
  staked : N;
  unbonding : list Unbond;
  rewards : N;
  blocks_produced : N;
  penalties : Penalties
}.

Definition default_penalties : Penalties := Build_Penalties 0 false 0 0 0 0 false 0.
(** [Account::default()] *)
Definition default_account : Account := Build_Account 0 0 0 [] 0 0 default_penalties.

#[export] Instance Unbond_eq_dec : EqDecision Unbond.
Proof. solve_decision. Defined.
#[export] Instance Penalties_eq_dec : EqDecision Penalties.
Proof. solve_decision. Defined.
#[export] Instance Account_eq_dec : EqDecision Account.
Proof. solve_decision. Defined.

(** Field updates: [a.field = x]. *)
Definition with_balance (x : N) (a : Account) : Account :=
  Build_Account x (nonce a) (staked a) (unbonding a) (rewards a) (blocks_produced a) (penalties a).
Definition with_nonce (x : N) (a : Account) : Account :=
  Build_Account (balance a) x (staked a) (unbonding a) (rewards a) (blocks_produced a) (penalties a).
Definition with_staked (x : N) (a : Account) : Account :=
  Build_Account (balance a) (nonce a) x (unbonding a) (rewards a) (blocks_produced a) (penalties a).
Definition with_unbonding (x : list Unbond) (a : Account) : Account :=
  Build_Account (balance a) (nonce a) (staked a) x (rewards a) (blocks_produced a) (penalties a).
Definition with_rewards (x : N) (a : Account) : Account :=
  Build_Account (balance a) (nonce a) (staked a) (unbonding a) x (blocks_produced a) (penalties a).
Definition with_blocks_produced (x : N) (a : Account) : Account :=
  Build_Account (balance a) (nonce a) (staked a) (unbonding a) (rewards a) x (penalties a).
Definition with_penalties (x : Penalties) (a : Account) : Account :=
  Build_Account (balance a) (nonce a) (staked a) (unbonding a) (rewards a) (blocks_produced a) x.

Definition sum_wrapping (l : list N) : N := foldl (wadd 128) 0 l.

(* [src/src/types.rs 247-249 Account::unbonding_total] *)
Definition unbonding_total (a : Account) : N := sum_wrapping (map u_amount (unbonding a)).

(* [src/src/types.rs 251-253 Account::is_validator] *)
Definition is_validator (a : Account) : bool := MIN_STAKE <=? staked a.

(* [src/src/types.rs 258-270 Account::is_active_validator] *)
Definition is_active_validator (a : Account) (height : N) : bool :=
  if is_validator a && tombstoned (penalties a) then false
  else if negb (is_validator a) then false
  else if negb (downtime_jail_enabled height) then
    negb (jailed_until (penalties a) =? TOMBSTONE_HEIGHT)
  else jailed_until (penalties a) <=? height.

(* [src/src/types.rs 272-277 Account::is_jailed] *)
Definition is_jailed (a : Account) (height : N) : bool :=
  if tombstoned (penalties a) || (jailed_until (penalties a) =? TOMBSTONE_HEIGHT) then true
  else downtime_jail_enabled height && (height <? jailed_until (penalties a)).

(** ** Transactions *)

(* [src/src/types.rs 282-307 TxKind] *)
Inductive TxKind :=
| Transfer | Stake | Unstake | ReportEquivocation | Unjail
| CreateToken | MintToken | TokenTransfer | BurnToken
| DeployContract | CallContract
| Shield | PrivateTransfer | Unshield.

#[export] Instance TxKind_eq_dec : EqDecision TxKind.
Proof. solve_decision. Defined.

(* [src/src/types.rs 310-327 TxKind::tag] *)
Definition tag (k : TxKind) : string :=
  match k with
  | Transfer => "transfer"
  | Stake => "stake"
  | Unstake => "unstake"
  | ReportEquivocation => "reportequivocation"
  | Unjail => "unjail"
  | CreateToken => "createtoken"
  | MintToken => "minttoken"
  | TokenTransfer => "tokentransfer"
  | BurnToken => "burntoken"
  | DeployContract => "deploycontract"
  | CallContract => "callcontract"
  | Shield => "shield"
  | PrivateTransfer => "privatetransfer"
  | Unshield => "unshield"
  end.

(* [src/src/types.rs 333-338 TxKind::is_token] *)
Definition is_token (k : TxKind) : bool :=
  match k with CreateToken | MintToken | TokenTransfer | BurnToken => true | _ => false end.
(* [src/src/types.rs 340-342 TxKind::is_contract] *)
Definition is_contract (k : TxKind) : bool :=
  match k with DeployContract | CallContract => true | _ => false end.
(* [src/src/types.rs 344-349 TxKind::is_shielded] *)
Definition is_shielded (k : TxKind) : bool :=
  match k with Shield | PrivateTransfer | Unshield => true | _ => false end.

(* [src/src/types.rs 356-372 ShieldedData] *)
Record ShieldedData := {
  anchor : string;
  nullifiers : list string;
  commitments : list string;
  sh_proof : string;
  public_unshield : string
}.

(* [src/src/types.rs 377-395 Payload] *)
Record Payload := {
  p_token : string;
  p_symbol : string;
  p_name : string;
  p_decimals : N;
  p_mintable : bool;
  p_code : string;
  p_args : string
}.

(* [src/src/types.rs 446-464 Transaction] *)
Record Transaction := {
  tx_kind : TxKind;
  from_pubkey : string;
  tx_to : string;
  tx_amount : N;
  tx_fee : N;
  tx_nonce : N;
  tx_chain_id : N;
  tx_payload : option Payload;
  tx_shielded : option ShieldedData;
  tx_signature : string
}.

#[export] Instance ShieldedData_eq_dec : EqDecision ShieldedData.
Proof. solve_decision. Defined.
#[export] Instance Payload_eq_dec : EqDecision Payload.
Proof. solve_decision. Defined.
#[export] Instance Transaction_eq_dec : EqDecision Transaction.
Proof. solve_decision. Defined.

Definition with_signature (sig : string) (tx : Transaction) : Transaction :=
  Build_Transaction (tx_kind tx) (from_pubkey tx) (tx_to tx) (tx_amount tx) (tx_fee tx)
    (tx_nonce tx) (tx_chain_id tx) (tx_payload tx) (tx_shielded tx) sig.

(* [src/src/types.rs 398-411 Payload::signing_part] *)
Definition signing_part (p : Payload) : string :=
  let base := p_token p +:+ "|" +:+ p_symbol p +:+ "|" +:+ p_name p +:+ "|" +:+
              dec (p_decimals p) +:+ "|" +:+ bool_text (p_mintable p) in
  if String.eqb (p_code p) "" && String.eqb (p_args p) "" then base
  else base +:+ "|" +:+ p_code p +:+ "|" +:+ p_args p.

(* [src/src/types.rs 420-422 delimiter_free] *)
Definition delimiter_free (s : string) : bool := negb (contains_char "|"%char s).

(* [src/src/types.rs 431-434 push_field] *)
Definition push_field (bytes : string) : string :=
  to_be_bytes 4 (N.of_nat (slen bytes)) +:+ bytes.

(* [src/src/types.rs 443-443 TX_DOMAIN_V2] *)
Definition TX_DOMAIN_V2 : string := "inazuma-tx-v2".

(* [src/src/types.rs 468-482 Transaction::fields_unambiguous] *)
Definition fields_unambiguous (tx : Transaction) : bool :=
  if negb (delimiter_free (from_pubkey tx)) || negb (delimiter_free (tx_to tx)) then false
  else match tx_payload tx with
  | None => true
  | Some p =>
    delimiter_free (p_token p) && delimiter_free (p_symbol p) && delimiter_free (p_name p) &&
    delimiter_free (p_code p) && delimiter_free (p_args p)
  end.

(* [src/src/types.rs 485-501 Transaction::signing_bytes] *)
Definition signing_bytes (tx : Transaction) : string :=
  let base := "inazuma-tx|" +:+ dec (tx_chain_id tx) +:+ "|" +:+ tag (tx_kind tx) +:+ "|" +:+
    from_pubkey tx +:+ "|" +:+ tx_to tx +:+ "|" +:+ dec (tx_amount tx) +:+ "|" +:+
    dec (tx_fee tx) +:+ "|" +:+ dec (tx_nonce tx) in
  match tx_payload tx with
  | None => base
  | Some p => base +:+ "|" +:+ signing_part p
  end.

(** [x.push(b)]: one byte. *)
Definition push_byte (b : N) : string := String (byte b) "".

Definition canonical_payload (p : option Payload) : string :=
  match p with
  | None => push_byte 0
  | Some p =>
    push_byte 1 +:+ push_field (p_token p) +:+ push_field (p_symbol p) +:+ push_field (p_name p) +:+
    push_byte (p_decimals p) +:+ push_byte (if p_mintable p then 1 else 0) +:+
    push_field (p_code p) +:+ push_field (p_args p)
  end.

Fixpoint push_fields (l : list string) : string :=
  match l with [] => "" | x :: l' => push_field x +:+ push_fields l' end.

Definition push_list (l : list string) : string :=
  to_be_bytes 4 (N.of_nat (length l)) +:+ push_fields l.

Definition canonical_shielded (s : option ShieldedData) : string :=
  match s with
  | None => push_byte 0
  | Some s =>
    push_byte 1 +:+ push_field (anchor s) +:+ push_list (nullifiers s) +:+
    push_list (commitments s) +:+ push_field (sh_proof s) +:+ push_field (public_unshield s)
  end.

(* [src/src/types.rs 510-554 Transaction::canonical_signing_bytes] *)
Definition canonical_signing_bytes (tx : Transaction) : string :=
  push_field TX_DOMAIN_V2 +:+ to_be_bytes 8 (tx_chain_id tx) +:+ push_field (tag (tx_kind tx)) +:+
  push_field (from_pubkey tx) +:+ push_field (tx_to tx) +:+ to_be_bytes 16 (tx_amount tx) +:+
  to_be_bytes 16 (tx_fee tx) +:+ to_be_bytes 8 (tx_nonce tx) +:+
  canonical_payload (tx_payload tx) +:+ canonical_shielded (tx_shielded tx).

(** ** Blocks *)

(* [src/src/types.rs 599-615 Block] *)
Record Block := {
  b_height : N;
  b_parent_hash : string;
  b_timestamp_ms : N;
  b_state_root : string;
  b_txs_root : string;
  b_producer : string;
  b_producer_pubkey : string;
  b_transactions : list Transaction;
  b_signature : string;
  b_hash : string
}.

#[export] Instance Block_eq_dec : EqDecision Block.
Proof. solve_decision. Defined.

(** ** Rows of the other tables *)

(* [src/src/tokens.rs 21-32 Token] *)
Record Token := {
  t_id : string; t_symbol : string; t_name : string; t_decimals : N; t_supply : N;
  t_creator : string; t_mintable : bool; t_created_height : N; t_holders : N
}.

(* [src/src/contracts.rs 46-54 Contract] *)
Record Contract := {
  c_address : string; c_code_hash : string; c_code_size : N; c_creator : string;
  c_created_height : N; c_calls : N
}.

(* [src/src/contracts.rs 57-69 Receipt] *)
Record Receipt := {
  r_contract : string; r_caller : string; r_ok : bool; r_fuel_used : N; r_height : N;
  r_return_hex : string; r_logs : list string; r_error : option string
}.

(* [src/src/slashing.rs 183-196 SlashRecord] *)
Record SlashRecord := {
  s_id : string; s_offence : string; s_offender : string; s_offence_height : N;
  s_applied_height : N; s_burned : N; s_bounty : N; s_reporter : string;
  s_tombstoned : bool; s_jailed_until : N
}.

#[export] Instance Token_eq_dec : EqDecision Token.
Proof. solve_decision. Defined.
#[export] Instance Contract_eq_dec : EqDecision Contract.
Proof. solve_decision. Defined.
#[export] Instance Receipt_eq_dec : EqDecision Receipt.
Proof. solve_decision. Defined.
#[export] Instance SlashRecord_eq_dec : EqDecision SlashRecord.
Proof. solve_decision. Defined.

(** ** Hashes and signatures *)
Section signed.
Context `{Crypto}.

(* [src/src/types.rs 556-560 Transaction::hash] *)
Definition tx_hash (tx : Transaction) : string :=
  hash_hex (signing_bytes tx +:+ tx_signature tx).

(** A hex key as an address: the shape shared by [Transaction::sender] and
    [Vote::voter]. *)
Definition address_of_hex_key (key : string) : option string :=
  pk ← hex_bytes 32 key; Some (address_from_pubkey pk).

(* [src/src/types.rs 562-570 Transaction::sender] *)
Definition sender (tx : Transaction) : option string := address_of_hex_key (from_pubkey tx).

(* [src/src/types.rs 572-593 Transaction::verify_signature] *)
Definition verify_signature (tx : Transaction) : bool :=
  if is_shielded (tx_kind tx) then
    verify (from_pubkey tx) (canonical_signing_bytes tx) (tx_signature tx)
  else if verify (from_pubkey tx) (canonical_signing_bytes tx) (tx_signature tx) then true
  else fields_unambiguous tx && verify (from_pubkey tx) (signing_bytes tx) (tx_signature tx).

(** One pass of the tree: neighbours are hashed together, a lone last node with
    itself ([pair.get(1).unwrap_or(&pair[0])]). *)
Fixpoint hash_pairs (level : list string) : list string :=
  match level with
  | [] => []
  | [x] => [sha256 (x +:+ x)]
  | x :: y :: rest => sha256 (x +:+ y) :: hash_pairs rest
  end.

(** [while level.len() > 1]; the length strictly decreases, so [length level]
    rounds are enough ([TypesFacts.fold_levels_done]). *)
Fixpoint fold_levels (fuel : nat) (level : list string) : list string :=
  match fuel with
  | O => level
  | S fuel' => if Nat.ltb 1 (length level) then fold_levels fuel' (hash_pairs level) else level
  end.

(* [src/src/types.rs 617-633 txs_root] *)
Definition txs_root (txs : list Transaction) : string :=
  match txs with
  | [] => hash_hex "inazuma-empty"
  | _ =>
    let level := map (fun t => sha256 (tx_hash t)) txs in
    match fold_levels (length level) level with
    | root :: _ => hex_encode root
    | [] => ""
    end
  end.

(* [src/src/types.rs 636-649 Block::header_bytes] *)
Definition header_bytes (b : Block) : string :=
  "inazuma-block|" +:+ dec CHAIN_ID +:+ "|" +:+ dec (b_height b) +:+ "|" +:+ b_parent_hash b +:+ "|" +:+
  dec (b_timestamp_ms b) +:+ "|" +:+ b_state_root b +:+ "|" +:+ b_txs_root b +:+ "|" +:+
  b_producer b +:+ "|" +:+ b_producer_pubkey b.

(* [src/src/types.rs 651-655 Block::compute_hash] *)
Definition compute_hash (b : Block) : string := hash_hex (header_bytes b +:+ b_signature b).

(* [src/src/types.rs 658-672 Block::verify_producer] *)
Definition verify_producer (b : Block) : bool :=
  match hex_bytes 32 (b_producer_pubkey b) with
  | None => false
  | Some pk =>
    if negb (String.eqb (address_from_pubkey pk) (b_producer b)) then false
    else if negb (String.eqb (b_hash b) (compute_hash b)) then false
    else verify (b_producer_pubkey b) (header_bytes b) (b_signature b)
  end.
End signed.

(** ** Genesis *)

(* [src/src/types.rs 676-683 GenesisAlloc] *)
Record GenesisAlloc := { ga_address : string; ga_balance : string; ga_stake : option string }.

(* [src/src/types.rs 686-697 Genesis] *)
Record Genesis := {
  g_chain_id : N; g_chain_name : string; g_symbol : string; g_decimals : N;
  g_block_time_ms : N; g_alloc : list GenesisAlloc; g_slashing_activation_height : option N
}.

(* [src/src/types.rs 700-714 Genesis::default_devnet] *)
Definition default_devnet (admin : string) : Genesis := {|
  g_chain_id := CHAIN_ID; g_chain_name := "Inazuma"; g_symbol := "INAZ"; g_decimals := 9;
  g_block_time_ms := 400; g_alloc := [ {| ga_address := admin; ga_balance := "1000000"; ga_stake := None |} ];
  g_slashing_activation_height := None |}.
