(* ===== verification/TypesFacts.v ===== *)
(** Theorems about types.rs: signing preimages determine what is signed, amounts
    survive printing and parsing, and the transaction root binds the list. *)

From S2P Require Import Prelude Bytes Crypto Types.
From Stdlib Require Import Ascii.
From Stdlib Require String.
Local Open Scope N_scope.

(** ** The canonical preimage

    An encoder is prefix-free on [wf] when what it wrote can be cut off the front
    of any continuation. *)

Definition cuts {A : Type} (wf : A -> Prop) (enc : A -> string) : Prop :=
  forall a b r1 r2, wf a -> wf b -> enc a +:+ r1 = enc b +:+ r2 -> a = b /\ r1 = r2.

Definition fits (n : nat) (w : N) : Prop := w < 256 ^ N.of_nat n.
Definition field_ok (s : string) : Prop := N.of_nat (slen s) < 256 ^ 4.

Lemma cuts_int n : cuts (fits n) (to_be_bytes n).
Proof.
  intros a b r1 r2 Ha Hb E. apply append_inj_len in E as [E ->]; [|now rewrite !slen_be].
  split; [|done]. now apply to_be_inj in E.
Qed.

Lemma cuts_field : cuts field_ok push_field.
Proof.
  intros a b r1 r2 Ha Hb E. unfold push_field in E. rewrite <- !append_assoc in E.
  apply (cuts_int 4) in E as [El E]; [|done|done]. apply Nat2N.inj in El. now apply append_inj_len in E.
Qed.

Lemma cuts_byte : cuts (fun b => b < 256) push_byte.
Proof.
  intros a b r1 r2 Ha Hb E. unfold push_byte in E. cbn in E. apply String_inv in E as [E ->].
  split; [|done]. apply (f_equal N_of_ascii) in E. rewrite !N_of_byte, !N.mod_small in E; done.
Qed.

Lemma cuts_fields : forall l1 l2 r1 r2, length l1 = length l2 -> Forall field_ok l1 -> Forall field_ok l2 ->
  push_fields l1 +:+ r1 = push_fields l2 +:+ r2 -> l1 = l2 /\ r1 = r2.
Proof.
  induction l1 as [|a l1 IH]; intros [|b l2] r1 r2 Hl H1 H2 E; try discriminate; [done|].
  cbn [push_fields] in E. rewrite <- !append_assoc in E. inversion H1; inversion H2; subst.
  apply cuts_field in E as [-> E]; [|done|done]. apply IH in E as [-> ->]; [done|now injection Hl|done|done].
Qed.

Definition list_ok (l : list string) : Prop := fits 4 (N.of_nat (length l)) /\ Forall field_ok l.
Lemma cuts_list : cuts list_ok push_list.
Proof.
  intros a b r1 r2 [Ha Fa] [Hb Fb] E. unfold push_list in E. rewrite <- !append_assoc in E.
  apply (cuts_int 4) in E as [El E]; [|done|done]. apply Nat2N.inj in El. now apply cuts_fields in E.
Qed.

Definition payload_ok (p : option Payload) : Prop :=
  match p with
  | None => True
  | Some p => field_ok (p_token p) /\ field_ok (p_symbol p) /\ field_ok (p_name p) /\ p_decimals p < 256 /\
      field_ok (p_code p) /\ field_ok (p_args p)
  end.
Definition shielded_ok (s : option ShieldedData) : Prop :=
  match s with
  | None => True
  | Some s => field_ok (anchor s) /\ list_ok (nullifiers s) /\ list_ok (commitments s) /\ field_ok (sh_proof s) /\
      field_ok (public_unshield s)
  end.

Lemma cuts_payload : cuts payload_ok canonical_payload.
Proof.
  intros [p|] [q|] r1 r2 Hp Hq E; cbn [canonical_payload payload_ok] in *; rewrite <- ?append_assoc in E;
    try (apply cuts_byte in E as [? _]; done).
  - destruct Hp as (? & ? & ? & ? & ? & ?), Hq as (? & ? & ? & ? & ? & ?).
    apply cuts_byte in E as [_ E]; [|done|done].
    apply cuts_field in E as [? E]; [|done|done]. apply cuts_field in E as [? E]; [|done|done].
    apply cuts_field in E as [? E]; [|done|done]. apply cuts_byte in E as [? E]; [|done|done].
    apply cuts_byte in E as [Hm E]; [|now destruct (p_mintable p)|now destruct (p_mintable q)].
    apply cuts_field in E as [? E]; [|done|done]. apply cuts_field in E as [? E]; [|done|done].
    split; [|done]. f_equal. destruct p, q; cbn in *. destruct p_mintable, p_mintable0; try done; congruence.
  - apply cuts_byte in E as [_ E]; done.
Qed.

Lemma cuts_shielded : cuts shielded_ok canonical_shielded.
Proof.
  intros [s|] [t|] r1 r2 Hs Ht E; cbn [canonical_shielded shielded_ok] in *; rewrite <- ?append_assoc in E;
    try (apply cuts_byte in E as [? _]; done).
  - destruct Hs as (? & ? & ? & ? & ?), Ht as (? & ? & ? & ? & ?).
    apply cuts_byte in E as [_ E]; [|done|done].
    apply cuts_field in E as [? E]; [|done|done]. apply cuts_list in E as [? E]; [|done|done].
    apply cuts_list in E as [? E]; [|done|done]. apply cuts_field in E as [? E]; [|done|done].
    apply cuts_field in E as [? E]; [|done|done].
    split; [|done]. f_equal. destruct s, t; cbn in *; congruence.
  - apply cuts_byte in E as [_ E]; done.
Qed.

Lemma tag_inj k1 k2 : tag k1 = tag k2 -> k1 = k2.
Proof. destruct k1, k2; (reflexivity || discriminate). Qed.
Lemma tag_ok k : field_ok (tag k).
Proof. destruct k; reflexivity. Qed.

(** The ranges the Rust types give the fields of a transaction. *)
Record tx_ok (tx : Transaction) : Prop := {
  ok_pubkey : field_ok (from_pubkey tx);
  ok_to : field_ok (tx_to tx);
  ok_amount : tx_amount tx < 256 ^ 16;
  ok_fee : tx_fee tx < 256 ^ 16;
  ok_nonce : tx_nonce tx < 256 ^ 8;
  ok_chain : tx_chain_id tx < 256 ^ 8;
  ok_payload : payload_ok (tx_payload tx);
  ok_shielded : shielded_ok (tx_shielded tx)
}.

(** C31: The canonical preimage fixes the transaction. Two transactions whose v2
    signing bytes are equal agree in every field but the signature: no signature
    can be moved to a transaction of another meaning. *)
Theorem canonical_preimage_injective tx1 tx2 (H1 : tx_ok tx1) (H2 : tx_ok tx2)
    (E : canonical_signing_bytes tx1 = canonical_signing_bytes tx2) :
  with_signature "" tx1 = with_signature "" tx2.
Proof.
  destruct H1, H2. unfold canonical_signing_bytes in E.
  apply append_inv_head in E.
  apply (cuts_int 8) in E as [? E]; [|done|done].
  apply cuts_field in E as [Hk%tag_inj E]; [|apply tag_ok|apply tag_ok].
  apply cuts_field in E as [? E]; [|done|done]. apply cuts_field in E as [? E]; [|done|done].
  apply (cuts_int 16) in E as [? E]; [|done|done]. apply (cuts_int 16) in E as [? E]; [|done|done].
  apply (cuts_int 8) in E as [? E]; [|done|done]. apply cuts_payload in E as [? E]; [|done|done].
  rewrite <- (append_nil_r (canonical_shielded (tx_shielded tx1))), <- (append_nil_r (canonical_shielded (tx_shielded tx2))) in E.
  apply cuts_shielded in E as [? _]; [|done|done].
  unfold with_signature. congruence.
Qed.

(** ** The legacy preimage *)

(** Text cut at every bar. *)
Fixpoint split_bar (s : string) : list string :=
  match s with
  | "" => [""]
  | String c s' =>
    if Ascii.eqb "|" c then "" :: split_bar s'
    else match split_bar s' with [] => [String c ""] | x :: l => String c x :: l end
  end.

Definition free (s : string) : Prop := contains_char "|" s = false.

Lemma split_bar_free s : free s -> split_bar s = [s].
Proof.
  unfold free. induction s as [|c s IH]; cbn [split_bar contains_char]; [done|].
  intros [Hc Hs]%orb_false_iff. rewrite Hc. now rewrite IH.
Qed.
Lemma split_bar_cons a s : free a -> split_bar (a +:+ "|" +:+ s) = a :: split_bar s.
Proof.
  unfold free. induction a as [|c a IH]; [done|]. cbn [String.append split_bar contains_char].
  intros [Hc Hs]%orb_false_iff. rewrite Hc. cbn [String.append] in IH. now rewrite IH.
Qed.

Lemma free_dec n : free (dec n).
Proof. apply (all_chars_not_contains is_digit); [apply all_digits_dec|done]. Qed.
Lemma free_tag k : free (tag k).
Proof. destruct k; reflexivity. Qed.
Lemma free_bool b : free (bool_text b).
Proof. destruct b; reflexivity. Qed.
Lemma delimiter_free_free s : delimiter_free s = true -> free s.
Proof. unfold delimiter_free, free. now destruct (contains_char _ _). Qed.
#[local] Hint Resolve free_dec free_tag free_bool delimiter_free_free : core.

(** The payload's words. *)
Definition payload_words (p : Payload) : list string :=
  [p_token p; p_symbol p; p_name p; dec (p_decimals p); bool_text (p_mintable p)] ++
  (if String.eqb (p_code p) "" && String.eqb (p_args p) "" then [] else [p_code p; p_args p]).
Definition words (tx : Transaction) : list string :=
  ["inazuma-tx"; dec (tx_chain_id tx); tag (tx_kind tx); from_pubkey tx; tx_to tx; dec (tx_amount tx);
   dec (tx_fee tx); dec (tx_nonce tx)] ++
  match tx_payload tx with None => [] | Some p => payload_words p end.

Lemma fields_free tx : fields_unambiguous tx = true ->
  free (from_pubkey tx) /\ free (tx_to tx) /\
  match tx_payload tx with
  | None => True
  | Some p => free (p_token p) /\ free (p_symbol p) /\ free (p_name p) /\ free (p_code p) /\ free (p_args p)
  end.
Proof.
  unfold fields_unambiguous. destruct (negb _ || negb _) eqn:E; [done|].
  apply orb_false_iff in E as [E1%negb_false_iff E2%negb_false_iff]. intros Hp.
  split; [auto|]. split; [auto|]. destruct (tx_payload tx); [|done].
  apply andb_true_iff in Hp as [Hp ?]. apply andb_true_iff in Hp as [Hp ?]. apply andb_true_iff in Hp as [Hp ?].
  apply andb_true_iff in Hp as [? ?]. auto 6.
Qed.

Lemma split_signing_bytes tx : fields_unambiguous tx = true -> split_bar (signing_bytes tx) = words tx.
Proof.
  intros (Hf & Ht & Hp)%fields_free. unfold signing_bytes, words. cbv zeta.
  assert (forall s, "inazuma-tx|" +:+ s = "inazuma-tx" +:+ "|" +:+ s) as Hhead by done.
  destruct (tx_payload tx) as [p|]; rewrite Hhead, <- ?append_assoc.
  - destruct Hp as (? & ? & ? & ? & ?).
    rewrite !split_bar_cons by auto. rewrite <- (app_nil_r [dec (tx_nonce tx)]). cbn [app].
    do 8 f_equal. unfold signing_part, payload_words. cbv zeta.
    destruct (String.eqb (p_code p) "" && String.eqb (p_args p) ""); rewrite <- ?append_assoc;
      rewrite !split_bar_cons by auto; now rewrite split_bar_free by auto.
  - rewrite !split_bar_cons by auto. rewrite split_bar_free by auto. done.
Qed.

(** The part of a transaction the legacy bytes cover. *)
Definition legacy_part (tx : Transaction) : Transaction :=
  Build_Transaction (tx_kind tx) (from_pubkey tx) (tx_to tx) (tx_amount tx) (tx_fee tx) (tx_nonce tx)
    (tx_chain_id tx) (tx_payload tx) None "".

Lemma bool_text_inj a b : bool_text a = bool_text b -> a = b.
Proof. destruct a, b; (reflexivity || discriminate). Qed.

Lemma payload_words_inj p q : payload_words p = payload_words q -> p = q.
Proof.
  unfold payload_words. intros E. cbn [app] in E. injection E as E1 E2 E3 E4%dec_inj E5%bool_text_inj E6.
  assert (p_code p = p_code q /\ p_args p = p_args q) as [? ?].
  { destruct (String.eqb (p_code p) "" && String.eqb (p_args p) "") eqn:Ep,
      (String.eqb (p_code q) "" && String.eqb (p_args q) "") eqn:Eq; try discriminate.
    - apply andb_true_iff in Ep as [Ep1%String.eqb_eq Ep2%String.eqb_eq].
      apply andb_true_iff in Eq as [Eq1%String.eqb_eq Eq2%String.eqb_eq]. split; congruence.
    - now injection E6. }
  destruct p, q; cbn in *; congruence.
Qed.

(** The legacy preimage fixes what it covers. For transactions whose text
    fields hold no bar, which is what [verify_signature] demands of a legacy
    signature, equal signing bytes mean equal kind, sender, recipient, amount,
    fee, nonce, chain and payload. *)
Theorem legacy_preimage_injective tx1 tx2
    (H1 : fields_unambiguous tx1 = true) (H2 : fields_unambiguous tx2 = true)
    (E : signing_bytes tx1 = signing_bytes tx2) : legacy_part tx1 = legacy_part tx2.
Proof.
  apply (f_equal split_bar) in E. rewrite !split_signing_bytes in E by done. unfold words in E. cbn [app] in E.
  injection E as E1%dec_inj E2%tag_inj E3 E4 E5%dec_inj E6%dec_inj E7%dec_inj E8.
  assert (tx_payload tx1 = tx_payload tx2) as E9.
  { destruct (tx_payload tx1), (tx_payload tx2); try done. f_equal. now apply payload_words_inj. }
  unfold legacy_part. congruence.
Qed.

(** ** Amounts *)

Lemma parse_uint_digits max s v : all_chars is_digit s = true -> s <> "" -> parse_digits 0 s = Some v -> v <= max ->
  parse_uint max s = Some v.
Proof.
  intros Hd Hne Hp Hv. destruct s as [|c s]; [done|]. unfold parse_uint.
  assert (match String c s with String "+" s' => s' | _ => String c s end = String c s) as ->.
  { destruct c as [[] [] [] [] [] [] [] []]; try reflexivity; discriminate. }
  rewrite Hp. cbn [mbind option_bind]. now rewrite (proj2 (N.leb_le _ _) Hv).
Qed.

(** [k] leading zeros. *)
Fixpoint lead (k : nat) (s : string) : string := match k with O => s | S k' => String "0" (lead k' s) end.
Lemma dec_pad_lead w n : dec_pad w n = lead (w - slen (dec n)) (dec n).
Proof. unfold dec_pad, pad_left. induction (w - slen (dec n))%nat as [|k IH]; [done|]. cbn [lead]. now rewrite <- IH. Qed.
Lemma parse_lead k s : parse_digits 0 (lead k s) = parse_digits 0 s.
Proof. induction k as [|k IH]; [done|]. exact IH. Qed.
Lemma digits_lead k s : all_chars is_digit s = true -> all_chars is_digit (lead k s) = true.
Proof. induction k as [|k IH]; [done|]. exact IH. Qed.
Lemma slen_lead k s : slen (lead k s) = (k + slen s)%nat.
Proof. induction k as [|k IH]; cbn; [done|]. now rewrite IH. Qed.

Lemma slen_dec_go fuel : forall n acc k, n < 10 ^ N.of_nat k -> (0 < k)%nat -> (slen (dec_go fuel n acc) <= slen acc + k)%nat.
Proof.
  induction fuel as [|f IH]; intros n acc k Hn Hk; cbn [dec_go]; [lia|].
  destruct (N.ltb_spec n 10) as [|Hge]; [cbn; lia|].
  destruct k as [|k]; [lia|]. replace (N.of_nat (S k)) with (N.succ (N.of_nat k)) in Hn by lia.
  rewrite N.pow_succ_r' in Hn. destruct k as [|k]; [cbn in Hn; lia|].
  specialize (IH (n / 10) (String (digit (n mod 10)) acc) (S k)). cbn [slen String.length] in IH |- *.
  assert (n / 10 < 10 ^ N.of_nat (S k)) by (apply N.Div0.div_lt_upper_bound; lia). unfold slen in *. cbn [String.length] in IH. lia.
Qed.
Lemma slen_dec_le n k : n < 10 ^ N.of_nat k -> (0 < k)%nat -> (slen (dec n) <= k)%nat.
Proof. intros Hn Hk. unfold dec. pose proof (slen_dec_go (S (N.to_nat (N.log2 n))) n "" k Hn Hk) as Hl. exact Hl. Qed.

Definition amount_char (c : ascii) : bool := is_digit c || Ascii.eqb c ".".
Lemma amount_char_space c : amount_char c = true -> is_space c = false.
Proof. destruct c as [[] [] [] [] [] [] [] []]; intros Hc; try reflexivity; discriminate. Qed.
Lemma digits_amount s : all_chars is_digit s = true -> all_chars amount_char s = true.
Proof.
  induction s as [|c s IH]; cbn; [done|]. intros [Hc Hs]%andb_true_iff. unfold amount_char at 1. rewrite Hc. now apply IH.
Qed.

Lemma split_at_dot a b : all_chars is_digit a = true -> split_once "." (a +:+ String "." b) = Some (a, b).
Proof.
  induction a as [|c a IH]; [done|]. cbn [String.append all_chars split_once]. intros [Hc Ha]%andb_true_iff.
  assert (Ascii.eqb "." c = false) as ->.
  { apply Ascii.eqb_neq. intros <-. discriminate Hc. }
  now rewrite IH.
Qed.

(** Amounts survive the wallet: every 128-bit amount printed by [format_inaz]
    parses back to itself. *)
Theorem inaz_round_trip rai (Hrai : rai <= U128_MAX) : parse_inaz (format_inaz rai) = Ok rai.
Proof.
  unfold format_inaz. change ("." +:+ ?x) with (String "." x).
  set (w := rai / RAI_PER_INAZ). set (f := rai mod RAI_PER_INAZ).
  assert (f < 10 ^ N.of_nat 9) as Hf by now apply N.mod_lt.
  assert (slen (dec f) <= 9)%nat as Hl by (apply slen_dec_le; [done|lia]).
  rewrite dec_pad_lead. set (frac := lead (9 - slen (dec f)) (dec f)).
  assert (all_chars is_digit frac = true) as Hd by apply digits_lead, all_digits_dec.
  assert (slen frac = 9%nat) as Hs by (unfold frac; rewrite slen_lead; lia).
  unfold parse_inaz. rewrite (Toy.trim_no_space amount_char); [|apply amount_char_space|].
  2: { rewrite all_chars_app, digits_amount by apply all_digits_dec. cbn. now rewrite digits_amount. }
  rewrite split_at_dot by apply all_digits_dec. cbv beta iota.
  assert (w * RAI_PER_INAZ + f = rai) as Hsum by (unfold w, f; rewrite N.mul_comm; symmetry; apply N.Div0.div_mod).
  assert (w <= U128_MAX) as Hw by (unfold RAI_PER_INAZ in Hsum; lia).
  assert (parse_u128 (dec w) = Some w) as -> by now apply parse_uint_dec. cbn [ok_or mbind result_bind]. rewrite Hs.
  change (Nat.ltb 9 9) with false. cbn [mbind result_bind]. unfold pad_right. rewrite Hs. cbn [Nat.sub push_zeros].
  assert (frac <> "") as Hne by (intros E; now rewrite E in Hs).
  assert (parse_u128 frac = Some f) as Hp.
  { apply parse_uint_digits; [done|done|unfold frac; rewrite parse_lead; apply parse_digits_dec|lia]. }
  assert (match frac with "" => Ok 0 | String _ _ => ok_or (parse_u128 frac) "bad amount" end = Ok f) as ->
    by (rewrite Hp; now destruct frac).
  cbn [mbind result_bind]. f_equal. rewrite wmul_small, wadd_small, Hsum; [done| |];
    assert (U128_MAX < 2 ^ 128) by reflexivity; lia.
Qed.

(** ** The transaction root *)

Section root.
Context {HC : Crypto} {HL : CryptoLaws}.

Lemma length_hash_pairs l : length (hash_pairs l) = Nat.div2 (S (length l)).
Proof.
  induction l as [| |x y rest IH] using list_pair_ind; [done..|]. cbn [hash_pairs length]. now rewrite IH.
Qed.

Lemma div2_half n : (2 <= n -> Nat.div2 (S n) < n /\ 1 <= Nat.div2 (S n))%nat.
Proof. intros Hn. pose proof (Nat.div2_odd (S n)). destruct (Nat.odd (S n)); cbn [Nat.b2n] in *; lia. Qed.

(** The fuel of [txs_root] is enough: the tree is folded to one node. *)
Lemma fold_levels_done fuel : forall l, (length l <= S fuel)%nat -> (length (fold_levels fuel l) <= 1)%nat.
Proof.
  induction fuel as [|f IH]; intros l Hl; cbn [fold_levels]; [lia|].
  destruct (Nat.ltb_spec 1 (length l)); [|lia]. apply IH. rewrite length_hash_pairs.
  pose proof (div2_half (length l)). lia.
Qed.

(** The strings hashed by one level, and by the levels above a list of nodes. *)
Fixpoint pair_inputs (level : list string) : list string :=
  match level with
  | [] => []
  | [x] => [x +:+ x]
  | x :: y :: rest => (x +:+ y) :: pair_inputs rest
  end.
Fixpoint level_inputs (fuel : nat) (level : list string) : list string :=
  match fuel with
  | O => []
  | S fuel' => if Nat.ltb 1 (length level) then pair_inputs level ++ level_inputs fuel' (hash_pairs level) else []
  end.

Lemma hash_pairs_map l : hash_pairs l = map sha256 (pair_inputs l).
Proof. induction l as [| |x y rest IH] using list_pair_ind; [done..|]. cbn. now rewrite IH. Qed.

Lemma map_inj_or {A B} `{EqDecision A} (f : A -> B) l1 : forall l2,
  map f l1 = map f l2 -> l1 = l2 \/ clash f l1 l2.
Proof.
  induction l1 as [|x l1 IH]; intros [|y l2] E; try discriminate; [now left|]. injection E as Exy E.
  apply IH in E as [->|E]; [|right; now apply clash_cons].
  eapply clash_or in Exy as [->|Hc]; [|right; exact Hc|now left|now left]. now left.
Qed.

Definition digest (s : string) : Prop := slen s = 32%nat.

Lemma hash_pairs_digests l : Forall digest (hash_pairs l).
Proof.
  induction l as [| |x y rest IH] using list_pair_ind; cbn [hash_pairs]; repeat constructor; try apply sha256_len. exact IH.
Qed.

Lemma pair_inputs_inj l1 : forall l2, length l1 = length l2 -> Forall digest l1 -> Forall digest l2 ->
  pair_inputs l1 = pair_inputs l2 -> l1 = l2.
Proof.
  induction l1 as [|x|x y rest IH] using list_pair_ind; intros [|x' [|y' rest']] Hl H1 H2 E; try discriminate; [done|..].
  - injection E as E. inversion H1; inversion H2; subst. apply append_inj_len in E as [-> _]; [done|unfold digest in *; congruence].
  - cbn [pair_inputs] in E. injection E as E Er. inversion H1 as [|? ? Hx H1']; inversion H2 as [|? ? Hx' H2']; subst.
    inversion H1' as [|? ? ? H1'']; inversion H2' as [|? ? ? H2'']; subst.
    apply append_inj_len in E as [-> ->]; [|unfold digest in *; congruence].
    apply IH in Er as ->; (done || now injection Hl).
Qed.

Lemma fold_levels_inj fuel : forall l1 l2, length l1 = length l2 -> Forall digest l1 -> Forall digest l2 ->
  fold_levels fuel l1 = fold_levels fuel l2 -> l1 = l2 \/ clash sha256 (level_inputs fuel l1) (level_inputs fuel l2).
Proof.
  induction fuel as [|f IH]; intros l1 l2 Hl H1 H2 E; cbn [fold_levels level_inputs] in E |- *; [now left|].
  rewrite <- Hl in E |- *. destruct (Nat.ltb 1 (length l1)); [|now left].
  apply IH in E as [E|Hc];
    [|right; revert Hc; apply clash_sub; intros ??; apply elem_of_app; now right
     |now rewrite !length_hash_pairs, Hl|apply hash_pairs_digests|apply hash_pairs_digests].
  rewrite !hash_pairs_map in E. apply map_inj_or in E as [E|Hc]; [left; now apply pair_inputs_inj|].
  right. revert Hc. apply clash_sub; intros ??; apply elem_of_app; now left.
Qed.

Lemma fold_levels_nonempty fuel : forall l, l <> [] -> fold_levels fuel l <> [].
Proof.
  induction fuel as [|f IH]; intros l Hl; cbn [fold_levels]; [done|]. destruct (Nat.ltb_spec 1 (length l)) as [Hlt|]; [|done].
  apply IH. intros E. apply (f_equal length) in E. rewrite length_hash_pairs in E. destruct (div2_half _ Hlt) as [_ H1]. rewrite E in H1. cbn [length] in H1. lia.
Qed.

Lemma root_node_inj fuel l1 l2 : (length l2 <= S fuel)%nat -> (length l1 <= S fuel)%nat -> l1 <> [] -> l2 <> [] ->
  match fold_levels fuel l1 with root :: _ => hex_encode root | [] => "" end =
  match fold_levels fuel l2 with root :: _ => hex_encode root | [] => "" end ->
  fold_levels fuel l1 = fold_levels fuel l2.
Proof.
  intros H2%fold_levels_done H1%fold_levels_done N1%(fold_levels_nonempty fuel) N2%(fold_levels_nonempty fuel) E.
  destruct (fold_levels fuel l1) as [|x [|? ?]], (fold_levels fuel l2) as [|y [|? ?]]; cbn in H1, H2; try done; try lia.
  apply hex_encode_inj in E. congruence.
Qed.

(** Everything [txs_root] hashes: the transaction hashes and the nodes above. *)
Definition root_inputs (txs : list Transaction) : list string :=
  let level := map (fun t => sha256 (tx_hash t)) txs in
  map tx_hash txs ++ level_inputs (length level) level.

(** The transaction root binds the transactions of a block of given size.
    Two lists of one length with the same root carry the same transaction
    hashes in the same order, or else a string hashed for the one root and a
    string hashed for the other collide under SHA-256. *)
Theorem txs_root_binding txs1 txs2 (Hlen : length txs1 = length txs2) (Hroot : txs_root txs1 = txs_root txs2) :
  map tx_hash txs1 = map tx_hash txs2 \/ clash sha256 (root_inputs txs1) (root_inputs txs2).
Proof.
  destruct txs1 as [|t1 r1], txs2 as [|t2 r2]; try discriminate; [now left|].
  unfold root_inputs. unfold txs_root in Hroot. cbv zeta in Hroot |- *.
  set (txs1 := t1 :: r1) in *. set (txs2 := t2 :: r2) in *.
  set (l1 := map (fun t => sha256 (tx_hash t)) txs1) in *. set (l2 := map (fun t => sha256 (tx_hash t)) txs2) in *.
  assert (length l1 = length l2) as Hl by (unfold l1, l2; now rewrite !length_map).
  rewrite <- Hl in Hroot |- *.
  assert (forall l : list Transaction, Forall digest (map (fun t => sha256 (tx_hash t)) l)) as Hd
    by (intros l; apply Forall_map, Forall_true; intros; apply sha256_len).
  assert (fold_levels (length l1) l1 = fold_levels (length l1) l2) as E.
  { apply root_node_inj; [rewrite Hl; lia|lia|done|done|exact Hroot]. }
  apply fold_levels_inj in E as [E|Hc];
    [|right; revert Hc; apply clash_sub; intros ??; apply elem_of_app; now right|done|apply Hd|apply Hd].
  unfold l1, l2 in E. rewrite <- !(map_map tx_hash sha256) in E.
  apply map_inj_or in E as [E|Hc]; [now left|right].
  revert Hc. apply clash_sub; intros ??; apply elem_of_app; now left.
Qed.
End root.

Module Types_example.
Import Toy.

Definition pay (to : string) : Transaction :=
  Build_Transaction Transfer "aa" to 5 1000 0 CHAIN_ID None None "".
Definition key : Keypair := {| signing := "alice" |}.

Lemma pay_ok : tx_ok (pay "bob").
Proof. split; vm_compute; (reflexivity || exact I). Qed.

Lemma canonical_preimage_injective_witness :
  canonical_signing_bytes (pay "bob") = canonical_signing_bytes (with_signature "sig" (pay "bob")) /\
  with_signature "" (pay "bob") = with_signature "" (with_signature "sig" (pay "bob")).
Proof.
  split; [reflexivity|].
  apply (canonical_preimage_injective (pay "bob") (with_signature "sig" (pay "bob")) pay_ok); [|reflexivity].
  split; vm_compute; (reflexivity || exact I).
Defined.

Lemma legacy_preimage_injective_witness :
  signing_bytes (pay "bob") = signing_bytes (with_signature "sig" (pay "bob")) /\
  legacy_part (pay "bob") = legacy_part (with_signature "sig" (pay "bob")).
Proof.
  split; [reflexivity|].
  apply (legacy_preimage_injective (pay "bob") (with_signature "sig" (pay "bob"))); reflexivity.
Defined.

Lemma inaz_round_trip_witness : format_inaz 1500000007 = "1.500000007" /\ parse_inaz (format_inaz 1500000007) = Ok 1500000007.
Proof. split; [vm_compute; reflexivity|]. apply (inaz_round_trip 1500000007). vm_compute. discriminate. Defined.

Lemma txs_root_binding_witness :
  map tx_hash [pay "bob"] = map tx_hash [pay "bob"] \/
  clash sha256 (root_inputs [pay "bob"]) (root_inputs [pay "bob"]).
Proof. apply (txs_root_binding [pay "bob"] [pay "bob"]); reflexivity. Defined.
End Types_example.
