(* ===== verification/Journal.v ===== *)
(** journal.rs: the undo log that makes block execution atomic, and its
    refinement of a stack of full snapshots.

    A sled [Tree] is a map from keys to values; all trees together are one map
    whose key carries the tree id, the [(usize, Vec<u8>)] of the undo entries. *)

From S2P Require Import Prelude.

Section journal.
Context {K V : Type} `{Countable K}.

(* [src/src/journal.rs 26-26! Frame] *)
Definition Frame : Type := gmap K (option V).

(** The trees and the stack of open savepoints. *)
(* [src/src/journal.rs 29-33 Journal] *)
Record Journaled_trees := mk { db : gmap K V; frames : list (gmap K (option V)) }.

Implicit Types (s : Journaled_trees) (d : gmap K V) (f : gmap K (option V)) (k : K) (v : V).

(* [src/src/journal.rs 43-45 Journal::begin] *)
Definition begin s : Journaled_trees := mk (db s) (∅ :: frames s).

(* [src/src/journal.rs 47-49 Journal::active] *)
Definition active s : bool := match frames s with [] => false | _ => true end.

(** [parent.entry(key).or_insert(before)] keeps the entry the parent already
    has: the left-biased union. *)
(* [src/src/journal.rs 53-61 Journal::commit] *)
Definition commit s : Journaled_trees :=
  match frames s with
  | [] => s
  | done :: rest =>
    mk (db s) (match rest with parent :: up => (parent ∪ done) :: up | [] => [] end)
  end.

(* [src/src/journal.rs 64-72 Journal::record] *)
Definition record k s : Journaled_trees :=
  match frames s with
  | [] => s
  | map :: up =>
    match map !! k with
    | Some _ => s
    | None => mk (db s) (<[k := db s !! k]> map :: up)
    end
  end.

(** Undo every entry of one frame. *)
Definition restore f d : gmap K V :=
  map_fold (fun k before d =>
    match before with Some v => <[k:=v]> d | None => delete k d end) d f.

(* [src/src/journal.rs 75-94 Journal::rollback] *)
Definition rollback s : Journaled_trees :=
  match frames s with
  | [] => s
  | map :: up => mk (restore map (db s)) up
  end.

(* [src/src/state.rs 159-162 Store::jput] *)
Definition put k v s : Journaled_trees :=
  let s := record k s in mk (<[k:=v]> (db s)) (frames s).

(* [src/src/state.rs 164-167 Store::jdel] *)
Definition del k s : Journaled_trees :=
  let s := record k s in mk (delete k (db s)) (frames s).

(** ** The abstract specification: a stack of copies of the whole database *)

Record Snapshots := snap { cur : gmap K V; saved : list (gmap K V) }.

Inductive op := Begin | Commit | Rollback | Put (k : K) (v : V) | Del (k : K).

Definition run_op (s : Journaled_trees) (o : op) : Journaled_trees :=
  match o with
  | Begin => begin s
  | Commit => commit s
  | Rollback => rollback s
  | Put k v => put k v s
  | Del k => del k s
  end.

Definition spec_op (t : Snapshots) (o : op) : Snapshots :=
  match o with
  | Begin => snap (cur t) (cur t :: saved t)
  | Commit => snap (cur t) (tail (saved t))
  | Rollback => match saved t with [] => t | d :: ds => snap d ds end
  | Put k v => snap (<[k:=v]> (cur t)) (saved t)
  | Del k => snap (delete k (cur t)) (saved t)
  end.

(** Frame by frame, undoing the innermost frame gives the innermost copy. *)
Inductive undoes : gmap K V -> list (gmap K (option V)) -> list (gmap K V) -> Prop :=
| undoes_nil d : undoes d [] []
| undoes_cons d f fs d' ds : restore f d = d' -> undoes d' fs ds -> undoes d (f :: fs) (d' :: ds).

Definition refines s (t : Snapshots) : Prop := db s = cur t /\ undoes (db s) (frames s) (saved t).

(** ** Lemmas *)

Lemma lookup_restore f d k : restore f d !! k = match f !! k with Some b => b | None => d !! k end.
Proof.
  unfold restore. revert k.
  apply (map_fold_weak_ind (fun r m => forall k, r !! k = match m !! k with Some b => b | None => d !! k end)).
  - intros k. now rewrite lookup_empty.
  - intros i b m r Hi IH k. destruct (decide (i = k)) as [->|Hne].
    + rewrite lookup_insert_eq. destruct b; [apply lookup_insert_eq|apply lookup_delete_eq].
    + rewrite (lookup_insert_ne m) by done. rewrite <- IH.
      destruct b; [now apply lookup_insert_ne|now apply lookup_delete_ne].
Qed.

Lemma restore_empty d : restore ∅ d = d.
Proof. apply map_eq. intros k. now rewrite lookup_restore, lookup_empty. Qed.

(** Recording before a change of one key keeps what the frame undoes to. *)
Lemma restore_touch f d d' k :
  (forall k', k' <> k -> d' !! k' = d !! k') ->
  restore (match f !! k with Some _ => f | None => <[k := d !! k]> f end) d' = restore f d.
Proof.
  intros Hd. apply map_eq. intros k'. rewrite !lookup_restore.
  destruct (decide (k' = k)) as [->|Hne].
  - destruct (f !! k) eqn:E; [now rewrite E|]. now rewrite lookup_insert_eq.
  - rewrite Hd by done. destruct (f !! k); [done|]. now rewrite lookup_insert_ne.
Qed.

Lemma restore_commit p f d : restore (p ∪ f) d = restore p (restore f d).
Proof.
  apply map_eq. intros k. rewrite !lookup_restore, lookup_union.
  destruct (p !! k), (f !! k); reflexivity.
Qed.

(** A write only changes the innermost frame, and not what it undoes to. *)
Lemma write_top d f fs d' k :
  (forall k', k' <> k -> d' !! k' = d !! k') ->
  exists f', frames (record k (mk d (f :: fs))) = f' :: fs /\ restore f' d' = restore f d.
Proof.
  intros Hd. exists (match f !! k with Some _ => f | None => <[k := d !! k]> f end).
  split; [|now apply restore_touch]. unfold record. cbn. now destruct (f !! k).
Qed.

Lemma undoes_write s t k d' :
  refines s t -> (forall k', k' <> k -> d' !! k' = db s !! k') ->
  undoes d' (frames (record k s)) (saved t).
Proof.
  destruct s as [sd sf], t as [td ts]. intros [_ Hu] Hd. unfold record. cbn in *.
  destruct Hu as [d|d f fs d1 ds Hf Hu]; cbn in *; [constructor|].
  destruct (write_top d f fs d' k Hd) as (f' & Hf' & Hr). unfold record in Hf'. cbn in Hf'.
  rewrite Hf'. constructor; [congruence|done].
Qed.

Lemma db_record k s : db (record k s) = db s.
Proof. unfold record. destruct (frames s) as [|f fs]; [done|]. destruct (f !! k); done. Qed.

Lemma refines_op s t o : refines s t -> refines (run_op s o) (spec_op t o).
Proof.
  intros Hr. destruct o; cbn.
  1-3: destruct s as [sd sf], t as [td ts]; destruct Hr as [Hdb Hu]; cbn in *; subst td.
  - split; [done|]. cbn. constructor; [apply restore_empty|done].
  - unfold refines, commit. destruct Hu as [d|d f fs d1 ds Hf Hu]; cbn in *; [now split; [|constructor]|].
    split; [done|]. destruct Hu as [|d1 p ps d2 ds Hp Hu]; cbn; constructor; [|done].
    subst d2 d1. now rewrite restore_commit.
  - unfold refines, rollback. destruct Hu as [d|d f fs d1 ds Hf Hu]; cbn in *; [now split; [|constructor]|].
    subst d1. now split.
  - split; cbn; [now rewrite db_record, (proj1 Hr)|].
    eapply undoes_write; [done|]. intros. rewrite lookup_insert_ne, db_record by done. done.
  - split; cbn; [now rewrite db_record, (proj1 Hr)|].
    eapply undoes_write; [done|]. intros. rewrite lookup_delete_ne, db_record by done. done.
Qed.

Lemma refines_run ops s t : refines s t -> refines (foldl run_op s ops) (foldl spec_op t ops).
Proof. revert s t. induction ops as [|o ops IH]; intros s t Hr; cbn; [done|]. apply IH, refines_op, Hr. Qed.
End journal.

Arguments Journaled_trees K V {_ _}.
Arguments Snapshots K V {_ _}.
Arguments op K V : clear implicits.
#[export] Hint Resolve refines_op refines_run : inaz.
