(* ===== verification/Store.v ===== *)
(** The store the node executes against: the sled trees of state.rs with their
    undo log, the state-and-error monad the operations are written in, and the
    class [Journaled] of operations that touch the trees only through the log.

    A row is the value serde_json wrote: [VAccount a] stands for the JSON of
    [a], and a reader that expects another type sees a parse failure. *)

From S2P Require Import Prelude Bytes Crypto Types Journal.

(* [src/src/state.rs 50-65! T_ACCOUNTS .. T_SHIELDED_ROOTS] *)
Inductive TreeId :=
| T_ACCOUNTS | T_BLOCKS | T_TXS | T_META | T_STAKERS | T_TOKENS | T_TOKEN_BALANCES
| T_CONTRACTS | T_CONTRACT_CODE | T_CONTRACT_STORAGE | T_RECEIPTS | T_SLASHES
| T_SMT | T_SHIELDED_LEAVES | T_SHIELDED_NULLS | T_SHIELDED_ROOTS.

#[export] Instance TreeId_eq_dec : EqDecision TreeId.
Proof. solve_decision. Defined.

(** The trees in journal-id order. *)
(* [src/src/state.rs 103-122 Store::trees] *)
Definition trees : list TreeId :=
  [T_ACCOUNTS; T_BLOCKS; T_TXS; T_META; T_STAKERS; T_TOKENS; T_TOKEN_BALANCES;
   T_CONTRACTS; T_CONTRACT_CODE; T_CONTRACT_STORAGE; T_RECEIPTS; T_SLASHES;
   T_SMT; T_SHIELDED_LEAVES; T_SHIELDED_NULLS; T_SHIELDED_ROOTS].

Definition tree_index (t : TreeId) : nat :=
  match t with
  | T_ACCOUNTS => 0 | T_BLOCKS => 1 | T_TXS => 2 | T_META => 3 | T_STAKERS => 4 | T_TOKENS => 5
  | T_TOKEN_BALANCES => 6 | T_CONTRACTS => 7 | T_CONTRACT_CODE => 8 | T_CONTRACT_STORAGE => 9
  | T_RECEIPTS => 10 | T_SLASHES => 11 | T_SMT => 12 | T_SHIELDED_LEAVES => 13
  | T_SHIELDED_NULLS => 14 | T_SHIELDED_ROOTS => 15
  end%nat.

Lemma tree_of_index t : trees !! tree_index t = Some t.
Proof. destruct t; reflexivity. Qed.

#[export] Instance TreeId_countable : Countable TreeId.
Proof.
  apply (inj_countable tree_index (fun n => trees !! n)). intros t. apply tree_of_index.
Defined.

Inductive value :=
| VAccount (a : Account)
| VBlock (b : Block)
| VToken (t : Token)
| VContract (c : Contract)
| VReceipt (r : Receipt)
| VSlash (s : SlashRecord)
| VBytes (b : string).

#[export] Instance value_eq_dec : EqDecision value.
Proof. solve_decision. Defined.

Abbreviation Key := (TreeId * string)%type.
Abbreviation Db := (gmap (TreeId * string) value).

(* [src/src/state.rs 15-47 Store] *)
Definition Store : Type := Journaled_trees (TreeId * string) value.

Definition empty_store : Store := mk ∅ [].

(** ** The monad

    An operation returns a result and the store it leaves.  An error keeps the
    writes made before it, as an early [return Err] in the code does. *)

Definition M (A : Type) : Type := Store -> result A * Store.

#[export] Instance M_ret : MRet M := fun A a s => (Ok a, s).
#[export] Instance M_bind : MBind M := fun A B k m s =>
  match m s with
  | (Ok a, s') => k a s'
  | (Err e, s') => (Err e, s')
  end.

Definition lift {A} (r : result A) : M A := fun s => (r, s).
Definition throw {A} (msg : string) : M A := fun s => (Err msg, s).
(** Read-only access to the trees. *)
Definition gets {A} (f : Db -> A) : M A := fun s => (Ok (f (db s)), s).
(** [if cond { return Err(msg) }] *)
Definition fail_if (cond : bool) (msg : string) : M unit := if cond then throw msg else mret tt.
(** [if cond { .. }] *)
Definition when_ (cond : bool) (m : M unit) : M unit := if cond then m else mret tt.

(* [src/src/state.rs 159-162 Store::jput] *)
Definition jput (t : TreeId) (k : string) (v : value) : M unit := fun s => (Ok tt, put (t, k) v s).
(* [src/src/state.rs 164-167 Store::jdel] *)
Definition jdel (t : TreeId) (k : string) : M unit := fun s => (Ok tt, del (t, k) s).

Fixpoint for_each {A} (l : list A) (f : A -> M unit) : M unit :=
  match l with [] => mret tt | a :: l' => f a ;; for_each l' f end.
Fixpoint fold_m {A B} (f : B -> A -> M B) (b : B) (l : list A) : M B :=
  match l with [] => mret b | a :: l' => b' ← f b a; fold_m f b' l' end.

(* [src/src/state.rs 125-127 Store::begin_block] *)
Definition begin_block (s : Store) : Store := begin s.
(* [src/src/state.rs 130-132 Store::commit_block] *)
Definition commit_block (s : Store) : Store := commit s.
(* [src/src/state.rs 135-138 Store::abort_block] *)
Definition abort_block (s : Store) : Store := rollback s.
(* [src/src/state.rs 144-146 Store::begin_tx] *)
Definition begin_tx (s : Store) : Store := begin s.
(* [src/src/state.rs 149-151 Store::commit_tx] *)
Definition commit_tx (s : Store) : Store := commit s.
(* [src/src/state.rs 154-157 Store::abort_tx] *)
Definition abort_tx (s : Store) : Store := rollback s.

(** ** Journaled operations

    The result and the writes of a journaled operation depend on the trees
    only, and every write goes through the undo log. *)

Definition write : Type := Key * option value.
Definition to_op (w : write) : op Key value :=
  match w with (k, Some v) => Put k v | (k, None) => Del k end.
Definition exec (ws : list write) (s : Store) : Store := foldl run_op s (map to_op ws).
Definition apply_write (d : Db) (w : write) : Db :=
  match w with (k, Some v) => <[k:=v]> d | (k, None) => delete k d end.
Definition apply_writes (ws : list write) (d : Db) : Db := foldl apply_write d ws.

Class Journaled {A} (m : M A) : Prop :=
  journaled : forall d, exists r ws, forall fr, m (mk d fr) = (r, exec ws (mk d fr)).

Lemma exec_app ws1 ws2 s : exec (ws1 ++ ws2) s = exec ws2 (exec ws1 s).
Proof. unfold exec. now rewrite map_app, foldl_app. Qed.

Lemma db_exec ws s : db (exec ws s) = apply_writes ws (db s).
Proof.
  revert s. induction ws as [|[k [v|]] ws IH]; intros s; [done|..];
    (change (exec (?w :: ws) s) with (exec ws (run_op s (to_op w)));
     cbn; unfold exec in IH |- *; cbn; rewrite IH; cbn; now rewrite db_record).
Qed.

#[export] Instance journaled_ret {A} (a : A) : Journaled (mret a).
Proof. intros d. exists (Ok a), []. done. Qed.
#[export] Instance journaled_lift {A} (r : result A) : Journaled (lift r).
Proof. intros d. exists r, []. done. Qed.
#[export] Instance journaled_throw {A} e : Journaled (@throw A e).
Proof. intros d. exists (Err e), []. done. Qed.
#[export] Instance journaled_gets {A} (f : Db -> A) : Journaled (gets f).
Proof. intros d. exists (Ok (f d)), []. done. Qed.
#[export] Instance journaled_jput t k v : Journaled (jput t k v).
Proof. intros d. exists (Ok tt), [((t, k), Some v)]. done. Qed.
#[export] Instance journaled_jdel t k : Journaled (jdel t k).
Proof. intros d. exists (Ok tt), [((t, k), None)]. done. Qed.

#[export] Instance journaled_bind {A B} (m : M A) (k : A -> M B) :
  Journaled m -> (forall a, Journaled (k a)) -> Journaled (mbind k m).
Proof.
  intros Hm Hk d. destruct (Hm d) as (r & ws & Hr). destruct r as [a|e].
  - destruct (Hk a (apply_writes ws d)) as (r' & ws' & Hr').
    exists r', (ws ++ ws'). intros fr. unfold mbind, M_bind. rewrite Hr.
    specialize (Hr' (frames (exec ws (mk d fr)))).
    pose proof (db_exec ws (mk d fr)) as Hdb. rewrite exec_app.
    destruct (exec ws (mk d fr)) as [d' fr']. cbn in *. now subst d'.
  - exists (Err e), ws. intros fr. unfold mbind, M_bind. now rewrite Hr.
Qed.

#[export] Instance journaled_fail_if c e : Journaled (fail_if c e).
Proof. destruct c; apply _. Qed.
#[export] Instance journaled_when c m : Journaled m -> Journaled (when_ c m).
Proof. destruct c; apply _. Qed.
#[export] Instance journaled_for_each {A} (l : list A) f :
  (forall a, Journaled (f a)) -> Journaled (for_each l f).
Proof. intros Hf. induction l; cbn; apply _. Qed.
#[export] Instance journaled_fold_m {A B} (f : B -> A -> M B) l :
  (forall b a, Journaled (f b a)) -> forall b, Journaled (fold_m f b l).
Proof. intros Hf. induction l; intros b; cbn; apply _. Qed.

#[global] Typeclasses Opaque lift throw gets fail_if when_ jput jdel for_each fold_m M_ret M_bind.

(** Splits the [match] and [if] of an operation and closes each branch. *)
Ltac journaled :=
  repeat first
    [ apply _
    | apply journaled_bind; [|intros]
    | apply journaled_for_each; intros
    | apply journaled_fold_m; intros
    | match goal with |- Journaled (match ?x with _ => _ end) => destruct x end ].

Section journaled_facts.
Context {A : Type} (m : M A) `{!Journaled m}.

(** Same trees, same outcome, whatever savepoints are open. *)
Lemma journaled_det s s' :
  db s = db s' -> (m s).1 = (m s').1 /\ db (m s).2 = db (m s').2.
Proof.
  intros E. destruct s as [d fr], s' as [d' fr']. cbn in E. subst d'.
  destruct (journaled d) as (r & ws & Hm). rewrite !Hm. cbn. now rewrite !db_exec.
Qed.

Lemma journaled_frames d fr : db (m (mk d fr)).2 = db (m (mk d [])).2.
Proof. now apply journaled_det. Qed.

End journaled_facts.

Lemma exec_top ws : forall d f fs, exists f',
  frames (exec ws (mk d (f :: fs))) = f' :: fs /\
  restore f' (apply_writes ws d) = restore f d.
Proof.
  induction ws as [|[k o] ws IH]; intros d f fs; [now exists f|].
  destruct (write_top d f fs (apply_write d (k, o)) k) as (f' & Hf' & Hr).
  { intros k' Hk'. destruct o; cbn; [now rewrite lookup_insert_ne|now rewrite lookup_delete_ne]. }
  destruct (IH (apply_write d (k, o)) f' fs) as (f'' & Hf'' & Hr').
  exists f''. rewrite <- Hr, <- Hr'. split; [|done].
  change (exec ((k, o) :: ws) ?s) with (exec ws (run_op s (to_op (k, o)))).
  replace (run_op (mk d (f :: fs)) (to_op (k, o))) with (mk (apply_write d (k, o)) (f' :: fs)); [done|].
  destruct o; cbn; unfold put, del; rewrite Hf', db_record; done.
Qed.

(** A rolled-back operation leaves nothing behind: neither in the trees nor in
    the enclosing savepoints. *)
Lemma journaled_rollback {A} (m : M A) `{!Journaled m} s : rollback (m (begin s)).2 = s.
Proof.
  destruct s as [d fr]. unfold begin. cbn. destruct (journaled d) as (r & ws & Hm).
  rewrite Hm. cbn. destruct (exec_top ws d ∅ fr) as (f' & Hf' & Hr).
  unfold rollback. rewrite Hf', db_exec. cbn. now rewrite Hr, restore_empty.
Qed.

(** A committed operation is the operation without the savepoint, as far as the
    trees are concerned. *)
Lemma db_commit (s : Store) : db (commit s) = db s.
Proof. unfold commit. destruct (frames s); done. Qed.

Lemma journaled_commit {A} (m : M A) `{!Journaled m} s :
  (m (begin s)).1 = (m s).1 /\ db (commit (m (begin s)).2) = db (m s).2.
Proof. rewrite db_commit. now apply journaled_det. Qed.

(** ** Running one operation on the trees *)

Definition db_after {A} (m : M A) (d : Db) : Db := db (m (mk d [])).2.
Definition res_after {A} (m : M A) (d : Db) : result A := (m (mk d [])).1.

Lemma db_after_jput t k v d : db_after (jput t k v) d = <[(t, k) := v]> d.
Proof. reflexivity. Qed.
Lemma db_after_jdel t k d : db_after (jdel t k) d = delete (t, k) d.
Proof. reflexivity. Qed.
Lemma db_after_ret {A} (a : A) d : db_after (mret a) d = d.
Proof. reflexivity. Qed.

Lemma db_after_bind {A B} (m : M A) (k : A -> M B) `{!forall a, Journaled (k a)} d :
  db_after (mbind k m) d =
  match res_after m d with Ok a => db_after (k a) (db_after m d) | Err _ => db_after m d end.
Proof.
  unfold db_after, res_after, mbind, M_bind.
  destruct (m (mk d [])) as [[a|e] s']; cbn; [|done].
  apply (journaled_det (k a)). done.
Qed.

Lemma res_after_bind {A B} (m : M A) (k : A -> M B) `{!forall a, Journaled (k a)} d :
  res_after (mbind k m) d =
  match res_after m d with Ok a => res_after (k a) (db_after m d) | Err e => Err e end.
Proof.
  unfold db_after, res_after, mbind, M_bind.
  destruct (m (mk d [])) as [[a|e] s']; cbn; [|done].
  apply (journaled_det (k a)). done.
Qed.

(** What an operation does on a store is what it does on its trees. *)
Lemma run_db {A} (m : M A) `{!Journaled m} s : db (m s).2 = db_after m (db s).
Proof. destruct s as [d fr]. apply journaled_frames. done. Qed.
Lemma run_res {A} (m : M A) `{!Journaled m} s : (m s).1 = res_after m (db s).
Proof. destruct s as [d fr]. now apply journaled_det. Qed.

(** Result and trees together: the form in which handlers are computed. *)
Definition run {A} (m : M A) (d : Db) : result A * Db := (res_after m d, db_after m d).

Lemma run_bind {A B} (m : M A) (k : A -> M B) d : (forall a, Journaled (k a)) ->
  run (mbind k m) d = match run m d with (Ok a, d') => run (k a) d' | (Err e, d') => (Err e, d') end.
Proof.
  intros Hj. unfold run. rewrite (db_after_bind m k), (res_after_bind m k).
  now destruct (res_after m d).
Qed.
Lemma run_ret {A} (a : A) d : run (mret a) d = (Ok a, d).
Proof. reflexivity. Qed.
Lemma run_gets {A} (f : Db -> A) d : run (gets f) d = (Ok (f d), d).
Proof. reflexivity. Qed.
Lemma run_lift {A} (r : result A) d : run (lift r) d = (r, d).
Proof. reflexivity. Qed.
Lemma run_throw {A} e d : run (@throw A e) d = (Err e, d).
Proof. reflexivity. Qed.
Lemma run_jput t k v d : run (jput t k v) d = (Ok tt, <[(t, k) := v]> d).
Proof. reflexivity. Qed.
Lemma run_jdel t k d : run (jdel t k) d = (Ok tt, delete (t, k) d).
Proof. reflexivity. Qed.
Lemma run_fail_if c e d : run (fail_if c e) d = (if c then Err e else Ok tt, d).
Proof. now destruct c. Qed.
Lemma run_when c m d : run (when_ c m) d = if c then run m d else (Ok tt, d).
Proof. now destruct c. Qed.
Lemma run_if {A} (c : bool) (m1 m2 : M A) d : run (if c then m1 else m2) d = if c then run m1 d else run m2 d.
Proof. now destruct c. Qed.

(** Computes a handler step by step. *)
Ltac runs :=
  repeat (first
    [ rewrite run_bind by (intros; journaled)
    | rewrite run_ret | rewrite run_gets | rewrite run_lift | rewrite run_throw | rewrite run_jput
    | rewrite run_jdel | rewrite run_fail_if | rewrite run_when ];
  cbv beta iota zeta).

(** ** What an operation may do to the trees

    [Steps R m]: running [m] relates the trees before and after by the preorder
    [R].  Instances below compose it along the monad, so a fact about the
    primitive writes becomes a fact about a whole handler. *)

Class Steps (R : Db -> Db -> Prop) {A} (m : M A) : Prop := steps : forall d, R d (db_after m d).

Section steps.
Context (R : Db -> Db -> Prop) `{!PreOrder R}.

#[export] Instance steps_ret {A} (a : A) : Steps R (mret a).
Proof. intros d. reflexivity. Qed.
#[export] Instance steps_lift {A} (r : result A) : Steps R (lift r).
Proof. intros d. reflexivity. Qed.
#[export] Instance steps_throw {A} e : Steps R (@throw A e).
Proof. intros d. reflexivity. Qed.
#[export] Instance steps_gets {A} (f : Db -> A) : Steps R (gets f).
Proof. intros d. reflexivity. Qed.
#[export] Instance steps_bind {A B} (m : M A) (k : A -> M B) :
  (forall a, Journaled (k a)) -> Steps R m -> (forall a, Steps R (k a)) -> Steps R (mbind k m).
Proof.
  intros Hj Hm Hk d. rewrite (db_after_bind m k). destruct (res_after m d); [|apply Hm].
  transitivity (db_after m d); [apply Hm|apply Hk].
Qed.
#[export] Instance steps_fail_if c e : Steps R (fail_if c e).
Proof. destruct c; [apply steps_throw|apply steps_ret]. Qed.
#[export] Instance steps_when c m : Steps R m -> Steps R (when_ c m).
Proof. destruct c; [done|apply steps_ret]. Qed.
#[export] Instance steps_for_each {A} (l : list A) f :
  (forall a, Journaled (f a)) -> (forall a, Steps R (f a)) -> Steps R (for_each l f).
Proof. intros Hj Hf. induction l; cbn; apply _. Qed.
#[export] Instance steps_fold_m {A B} (f : B -> A -> M B) l :
  (forall b a, Journaled (f b a)) -> (forall b a, Steps R (f b a)) -> forall b, Steps R (fold_m f b l).
Proof. intros Hj Hf. induction l; intros b; cbn; apply _. Qed.
End steps.

(** Splits the binds and cases of an operation, as [journaled] does. *)
Ltac steps :=
  repeat first
    [ apply _
    | apply steps_bind; [apply _|intros; journaled| |intros]
    | apply steps_for_each; [apply _|intros; journaled|intros]
    | apply steps_fold_m; [apply _|intros; journaled|intros]
    | match goal with |- Steps _ (match ?x with _ => _ end) => destruct x eqn:? end ].

(** Unfolds an operation until its writes show. *)
Ltac head_of t := match t with ?f _ => head_of f | _ => t end.
Ltac frames :=
  repeat first
    [ progress steps
    | progress cbv zeta
    | match goal with |- Journaled _ => progress journaled end
    | match goal with |- Steps _ ?m => let h := head_of m in unfold h end ].

(** ** Operations that cannot fail *)

Class Total {A} (m : M A) : Prop := total : forall d, exists a, res_after m d = Ok a.

Section total.
#[export] Instance total_ret {A} (a : A) : Total (mret a).
Proof. intros d. now exists a. Qed.
#[export] Instance total_gets {A} (f : Db -> A) : Total (gets f).
Proof. intros d. now exists (f d). Qed.
#[export] Instance total_jput t k v : Total (jput t k v).
Proof. intros d. now exists tt. Qed.
#[export] Instance total_jdel t k : Total (jdel t k).
Proof. intros d. now exists tt. Qed.
#[export] Instance total_bind {A B} (m : M A) (k : A -> M B) :
  (forall a, Journaled (k a)) -> Total m -> (forall a, Total (k a)) -> Total (mbind k m).
Proof. intros Hj Hm Hk d. rewrite (res_after_bind m k). destruct (Hm d) as [a ->]. apply Hk. Qed.
#[export] Instance total_when c m : Total m -> Total (when_ c m).
Proof. destruct c; [done|intros; apply total_ret]. Qed.
#[export] Instance total_for_each {A} (l : list A) f :
  (forall a, Journaled (f a)) -> (forall a, Total (f a)) -> Total (for_each l f).
Proof. intros Hj Hf. induction l; cbn; apply _. Qed.
#[export] Instance total_fold_m {A B} (f : B -> A -> M B) l :
  (forall b a, Journaled (f b a)) -> (forall b a, Total (f b a)) -> forall b, Total (fold_m f b l).
Proof. intros Hj Hf. induction l; intros b; cbn; apply _. Qed.
End total.

Ltac total :=
  repeat first
    [ apply _
    | apply total_bind; [intros; journaled| |intros]
    | apply total_for_each; [intros; journaled|intros]
    | apply total_fold_m; [intros; journaled|intros]
    | match goal with |- Total (match ?x with _ => _ end) => destruct x end ].

(** The trees of [P] are left alone. *)
Definition same_on (P : TreeId -> Prop) (d d' : Db) : Prop :=
  forall t k, P t -> d' !! (t, k) = d !! (t, k).

#[export] Instance same_on_preorder P : PreOrder (same_on P).
Proof.
  split; [done|]. intros d1 d2 d3 H12 H23 t k Ht. rewrite H23, H12 by done. done.
Qed.

Lemma steps_jput_same P t k v : ~ P t -> Steps (same_on P) (jput t k v).
Proof. intros Ht d t' k' Ht'. rewrite db_after_jput, lookup_insert_ne by congruence. done. Qed.
Lemma steps_jdel_same P t k : ~ P t -> Steps (same_on P) (jdel t k).
Proof. intros Ht d t' k' Ht'. rewrite db_after_jdel, lookup_delete_ne by congruence. done. Qed.
Lemma same_on_weaken (P Q : TreeId -> Prop) {A} (m : M A) :
  (forall t, Q t -> P t) -> Steps (same_on P) m -> Steps (same_on Q) m.
Proof. intros HQ Hm d t k Ht. apply Hm, HQ, Ht. Qed.

(** ** Writes outside the undo log

    Operator actions that the code makes on the trees directly. *)
Definition raw_put (t : TreeId) (k : string) (v : value) (s : Store) : Store :=
  mk (<[(t, k) := v]> (db s)) (frames s).
Definition raw_del (t : TreeId) (k : string) (s : Store) : Store :=
  mk (delete (t, k) (db s)) (frames s).
Definition raw_filter (keep : Key -> bool) (s : Store) : Store :=
  mk (filter (fun kv => keep kv.1 = true) (db s)) (frames s).
