(* ===== verification/SmtFacts.v ===== *)
(** Theorems about smt.rs: consistency of the tree, history independence of the
    root, completeness and soundness of proofs. *)

From S2P Require Import Prelude Bytes Crypto Types Journal Store Smt.
From Stdlib Require Import Ascii.
From Stdlib Require String.

Section arithmetic.

Lemma prefix_S path idx : (idx < 128)%nat ->
  prefix (S idx) path = 2 * prefix idx path + N.b2n (bit path idx).
Proof.
  intros Hi. unfold prefix, bit.
  replace (128 - N.of_nat idx) with (N.succ (127 - N.of_nat idx)) by lia.
  replace (128 - N.of_nat (S idx)) with (127 - N.of_nat idx) by lia.
  rewrite N.shiftr_succ_r.
  replace (N.testbit path (127 - N.of_nat idx)) with (N.odd (N.shiftr path (127 - N.of_nat idx))).
  - apply N.div2_odd.
  - rewrite <- N.bit0_odd, N.shiftr_spec', N.add_0_l. done.
Qed.

Lemma lxor_1_double a (b : bool) : N.lxor (2 * a + N.b2n b) 1 = 2 * a + N.b2n (negb b).
Proof. destruct a as [|p], b; reflexivity. Qed.

Lemma prefix_flip path idx : (idx < 128)%nat ->
  prefix (S idx) (flip path idx) = 2 * prefix idx path + N.b2n (negb (bit path idx)).
Proof.
  intros Hi. rewrite <- lxor_1_double, <- prefix_S by done. unfold prefix, flip.
  replace (128 - N.of_nat (S idx)) with (127 - N.of_nat idx) by lia.
  rewrite N.shiftr_lxor. f_equal.
  rewrite N.shiftr_shiftl_l, N.sub_diag by lia. done.
Qed.

Lemma prefix_bound path depth : (depth <= 128)%nat -> path < 2 ^ 128 ->
  prefix depth path < 2 ^ N.of_nat depth.
Proof.
  intros Hd Hp. unfold prefix. rewrite N.shiftr_div_pow2.
  apply N.Div0.div_lt_upper_bound. rewrite <- N.pow_add_r.
  now replace (128 - N.of_nat depth + N.of_nat depth) with 128 by lia.
Qed.

Lemma prefix_0 path : path < 2 ^ 128 -> prefix 0 path = 0.
Proof. intros Hp. pose proof (prefix_bound path 0 ltac:(lia) Hp). cbn in *. lia. Qed.

Lemma prefix_128 path : prefix 128 path = path.
Proof. unfold prefix. now rewrite N.shiftr_0_r. Qed.

(** The path with prefix [q] and zeros below. *)
Definition at_prefix (depth : nat) (q : N) : N := N.shiftl q (128 - N.of_nat depth).

Lemma prefix_at_prefix depth q : prefix depth (at_prefix depth q) = q.
Proof. unfold prefix, at_prefix. rewrite N.shiftr_shiftl_l, N.sub_diag by lia. apply N.shiftl_0_r. Qed.

Lemma at_prefix_bound depth q : (depth <= 128)%nat -> q < 2 ^ N.of_nat depth -> at_prefix depth q < 2 ^ 128.
Proof.
  intros Hd Hq. unfold at_prefix. rewrite N.shiftl_mul_pow2.
  replace (2 ^ 128) with (2 ^ N.of_nat depth * 2 ^ (128 - N.of_nat depth)).
  - apply N.mul_lt_mono_pos_r; [|done]. apply N.neq_0_lt_0, N.pow_nonzero. lia.
  - rewrite <- N.pow_add_r. f_equal. lia.
Qed.

Lemma node_id_inj d1 d2 p1 p2 :
  (d1 <= 128)%nat -> (d2 <= 128)%nat -> p1 < 2 ^ 128 -> p2 < 2 ^ 128 ->
  node_id d1 p1 = node_id d2 p2 -> d1 = d2 /\ prefix d1 p1 = prefix d2 p2.
Proof.
  intros H1 H2 Hp1 Hp2 E. unfold node_id in E. apply String_inv in E as [Eb Ep].
  apply (f_equal N_of_ascii) in Eb. rewrite !N_of_byte, !N.mod_small in Eb by lia.
  assert (d1 = d2) as <- by lia. split; [done|].
  change (256 ^ N.of_nat PATH_BYTES) with (2 ^ 128) in *.
  apply to_be_inj in Ep; [|apply at_prefix_bound; [done|now apply prefix_bound]..].
  pose proof (prefix_at_prefix d1 (prefix d1 p1)) as Ha. unfold at_prefix in Ha.
  rewrite Ep in Ha. rewrite <- Ha. apply (prefix_at_prefix d1).
Qed.
End arithmetic.

Section facts.
Context `{CryptoLaws}.

Lemma length_empty_table n : length (empty_table n) = S n.
Proof. induction n as [|n IH]; cbn; [done|]. destruct (empty_table n); cbn in *; lia. Qed.

Lemma empty_table_nth n : forall i, (i <= n)%nat -> nth i (empty_table n) "" = empty_levels (n - i).
Proof.
  induction n as [|n IH]; intros i Hi.
  - replace i with O by lia. done.
  - cbn [empty_table]. pose proof (length_empty_table n) as Hl.
    destruct (empty_table n) as [|e es] eqn:E; [done|].
    pose proof (IH O ltac:(lia)) as He0. cbn in He0. rewrite Nat.sub_0_r in He0.
    destruct i as [|i].
    + cbn. now rewrite He0.
    + change (nth (S i) (sha256 (e +:+ e) :: e :: es) "") with (nth i (e :: es) "").
      rewrite IH by lia. done.
Qed.

Lemma empty_at_levels depth : (depth <= 128)%nat -> empty_at depth = empty_levels (128 - depth).
Proof. intros. unfold empty_at, empty_hashes, DEPTH. now apply empty_table_nth. Qed.

#[global] Opaque empty_hashes empty_table empty_at.

Lemma empty_at_parent depth : (depth < 128)%nat ->
  empty_at depth = parent (empty_at (S depth)) (empty_at (S depth)).
Proof.
  intros. rewrite !empty_at_levels by lia.
  replace (128 - depth)%nat with (S (128 - S depth)) by lia. done.
Qed.

Lemma slen_empty_levels n : slen (empty_levels n) = 32%nat.
Proof. destruct n; cbn -[zeros]; [apply slen_zeros|apply sha256_len]. Qed.

Lemma slen_empty_at depth : (depth <= 128)%nat -> slen (empty_at depth) = 32%nat.
Proof. intros. rewrite empty_at_levels by done. apply slen_empty_levels. Qed.

Lemma slen_get_node d depth path : (depth <= 128)%nat -> slen (get_node d depth path) = 32%nat.
Proof.
  intros. unfold get_node. destruct (d !! _) as [[]|]; try now apply slen_empty_at.
  destruct (Nat.eqb_spec (slen b) 32); [done|now apply slen_empty_at].
Qed.

Lemma slen_leaf_hash lk v : slen (leaf_hash lk v) = 32%nat.
Proof. destruct v; unfold leaf_hash; [apply sha256_len|apply slen_empty_at; unfold DEPTH; lia]. Qed.

Lemma path_of_bound lk : path_of lk < 2 ^ 128.
Proof.
  unfold path_of. eapply N.lt_le_trans; [apply from_be_bytes_bound|].
  change (2 ^ 128) with (256 ^ 16). apply N.pow_le_mono_r; [lia|].
  pose proof (slen_substring PATH_BYTES lk). unfold PATH_BYTES in *. lia.
Qed.

(** ** Nodes by depth and prefix *)

Definition node (d : Db) (depth : nat) (q : N) : string := get_node d depth (at_prefix depth q).

Lemma get_node_node d depth path : get_node d depth path = node d depth (prefix depth path).
Proof.
  unfold node, get_node, node_id. now rewrite prefix_at_prefix.
Qed.

Definition consistent_at (d : Db) (depth : nat) (q : N) : Prop :=
  node d depth q = parent (node d (S depth) (2 * q)) (node d (S depth) (2 * q + 1)).

(** Every inner node is the hash of its children. *)
Definition consistent (d : Db) : Prop :=
  forall depth q, (depth < 128)%nat -> q < 2 ^ N.of_nat depth -> consistent_at d depth q.

(** The leaf hash stored for a path. *)
Definition leaf_at (d : Db) (path : N) : string := node d DEPTH path.

(** The reference: the perfect binary tree over a leaf assignment. *)
Fixpoint tree_hash (leaves : N -> string) (levels : nat) (q : N) : string :=
  match levels with
  | O => leaves q
  | S n => parent (tree_hash leaves n (2 * q)) (tree_hash leaves n (2 * q + 1))
  end.

Lemma node_tree_hash d n : consistent d -> forall depth q,
  (depth + n = 128)%nat -> q < 2 ^ N.of_nat depth -> node d depth q = tree_hash (leaf_at d) n q.
Proof.
  intros Hc. induction n as [|n IH]; intros depth q Hd Hq.
  - replace depth with DEPTH by (unfold DEPTH; lia). done.
  - cbn [tree_hash]. rewrite (Hc depth q) by (done || lia).
    assert (2 ^ N.of_nat (S depth) = 2 * 2 ^ N.of_nat depth) as Hp.
    { rewrite Nat2N.inj_succ. apply N.pow_succ_r. lia. }
    rewrite !IH; [done|lia|lia|lia|lia].
Qed.

Lemma tree_hash_ext f g n : forall depth q, (depth + n = 128)%nat -> q < 2 ^ N.of_nat depth ->
  (forall p, p < 2 ^ 128 -> f p = g p) -> tree_hash f n q = tree_hash g n q.
Proof.
  induction n as [|n IH]; intros depth q Hd Hq Hfg; cbn.
  - apply Hfg. now replace 128 with (N.of_nat depth) by lia.
  - assert (2 ^ N.of_nat (S depth) = 2 * 2 ^ N.of_nat depth) as Hp.
    { rewrite Nat2N.inj_succ. apply N.pow_succ_r. lia. }
    rewrite !(IH (S depth)); [done|lia|lia|done|lia|lia|done].
Qed.

Lemma root_tree_hash d : consistent d -> smt_root d = tree_hash (leaf_at d) DEPTH 0.
Proof.
  intros Hc. unfold smt_root. rewrite get_node_node, prefix_0 by done.
  apply node_tree_hash; [done|reflexivity|cbn; lia].
Qed.

Lemma consistent_empty : consistent ∅.
Proof.
  intros depth q Hd _. unfold consistent_at, node, get_node. rewrite !lookup_empty.
  now apply empty_at_parent.
Qed.

(** ** One write *)

Lemma node_put_node d depth path h depth' q' :
  (depth <= 128)%nat -> path < 2 ^ 128 -> slen h = 32%nat ->
  (depth' <= 128)%nat -> q' < 2 ^ N.of_nat depth' ->
  node (db_after (put_node depth path h) d) depth' q' =
  if decide (depth' = depth /\ q' = prefix depth path) then h else node d depth' q'.
Proof.
  intros Hd Hp Hh Hd' Hq'. unfold put_node.
  assert (node_id depth' (at_prefix depth' q') = node_id depth path <->
          depth' = depth /\ q' = prefix depth path) as Hid.
  { split.
    - intros E. apply node_id_inj in E as [-> E]; [|done|done|now apply at_prefix_bound|done].
      rewrite prefix_at_prefix in E. done.
    - intros [-> ->]. unfold node_id. now rewrite prefix_at_prefix. }
  unfold node, get_node. revert Hid.
  generalize (node_id depth' (at_prefix depth' q')) (node_id depth path). intros i' i Hid.
  case_decide as Hdec.
  - pose proof (proj2 Hid Hdec) as ->. destruct Hdec as [-> ->].
    destruct (String.eqb_spec h (empty_at depth)) as [He|He].
    + now rewrite db_after_jdel, lookup_delete_eq.
    + now rewrite db_after_jput, lookup_insert_eq, Hh.
  - assert ((T_SMT, i) <> (T_SMT, i')) as Hne.
    { intros E. injection E as E. apply Hdec, Hid. done. }
    destruct (String.eqb h (empty_at depth)).
    + now rewrite db_after_jdel, lookup_delete_ne.
    + now rewrite db_after_jput, lookup_insert_ne.
Qed.

Lemma res_put_node d depth path h : res_after (put_node depth path h) d = Ok tt.
Proof. unfold put_node. now destruct (String.eqb _ _). Qed.

(** Consistent except, below level [n], along [path]. *)
Definition consistent_but (d : Db) (path : N) (n : nat) : Prop :=
  forall depth q, (depth < 128)%nat -> q < 2 ^ N.of_nat depth ->
    (n <= depth)%nat \/ q <> prefix depth path -> consistent_at d depth q.

Lemma pow_S depth : 2 ^ N.of_nat (S depth) = 2 * 2 ^ N.of_nat depth.
Proof. rewrite Nat2N.inj_succ. apply N.pow_succ_r. lia. Qed.

(** Writing the node of [path] at [depth] only disturbs its parent. *)
Lemma consistent_but_put d path depth h :
  (depth <= 128)%nat -> path < 2 ^ 128 -> slen h = 32%nat ->
  consistent_but d path (S depth) ->
  (depth < 128 -> h = parent (node d (S depth) (2 * prefix depth path))
                            (node d (S depth) (2 * prefix depth path + 1)))%nat ->
  consistent_but (db_after (put_node depth path h) d) path depth.
Proof.
  intros Hd Hp Hh Hc Hpar k q Hk Hq Hcase. pose proof (pow_S k) as Hpow.
  unfold consistent_at. rewrite !node_put_node by (done || lia).
  assert (k = depth -> q = prefix depth path \/ q <> prefix depth path) by (intros; lia).
  destruct (decide (k = depth /\ q = prefix depth path)) as [[-> ->]|Hn].
  - rewrite !decide_False by lia. apply Hpar. done.
  - assert (forall b, b < 2 -> ~ (S k = depth /\ 2 * q + b = prefix depth path)) as Hch.
    { intros b Hb [<- E]. rewrite prefix_S in E by lia.
      assert (q = prefix k path) by (destruct (bit path k); cbn in E; lia).
      destruct Hcase; [lia|congruence]. }
    rewrite (decide_False (P := S k = depth /\ 2 * q = prefix depth path))
      by (specialize (Hch 0); rewrite N.add_0_r in Hch; apply Hch; lia).
    rewrite decide_False by (apply Hch; lia).
    apply Hc; [done|done|]. destruct (decide (k = depth)) as [->|]; [right; intros ->; now apply Hn|].
    destruct Hcase; [left; lia|now right].
Qed.

Lemma climb_S path idx cur d :
  let sib := node d (S idx) (prefix (S idx) (flip path idx)) in
  let cur' := if bit path idx then parent sib cur else parent cur sib in
  db_after (climb path (S idx) cur) d = db_after (climb path idx cur') (db_after (put_node idx path cur') d).
Proof.
  intros sib cur'. subst cur' sib. rewrite <- (get_node_node d (S idx) (flip path idx)). cbn [climb].
  rewrite db_after_bind by (intros; apply journaled_bind; intros; apply _).
  change (res_after (gets ?f) d) with (Ok (f d)). change (db_after (gets ?f) d) with d. cbv beta iota.
  rewrite db_after_bind by (intros; apply _). rewrite res_put_node. reflexivity.
Qed.

Lemma climb_spec path n : forall d cur,
  (n <= 128)%nat -> path < 2 ^ 128 -> slen cur = 32%nat ->
  consistent_but d path n -> node d n (prefix n path) = cur ->
  let d' := db_after (climb path n cur) d in
  consistent d' /\ forall p, p < 2 ^ 128 -> leaf_at d' p = leaf_at d p.
Proof.
  induction n as [|idx IH]; intros d cur Hn Hp Hcur Hc Hnode d'.
  - split; [|done]. intros depth q Hd Hq. apply Hc; [done|done|left; lia].
  - subst d'. rewrite climb_S.
    set (sib := node d (S idx) (prefix (S idx) (flip path idx))).
    set (cur' := if bit path idx then parent sib cur else parent cur sib).
    set (d1 := db_after (put_node idx path cur') d). cbv zeta.
    assert (slen cur' = 32%nat) as Hlen by (subst cur'; destruct (bit path idx); apply sha256_len).
    assert (cur' = parent (node d (S idx) (2 * prefix idx path)) (node d (S idx) (2 * prefix idx path + 1))) as Hcur'.
    { subst cur' sib. rewrite <- Hnode, prefix_flip, prefix_S by lia.
      destruct (bit path idx); cbn [negb N.b2n]; now rewrite ?N.add_0_r. }
    destruct (IH d1 cur') as [Hc' Hl']; [lia|done|done| | |].
    + apply consistent_but_put; [lia|done|done|done|]. intros _. exact Hcur'.
    + subst d1. rewrite node_put_node by (lia || done || (apply prefix_bound; [lia|done])).
      now rewrite decide_True.
    + split; [exact Hc'|]. intros p Hpp. rewrite Hl' by done.
      unfold leaf_at. subst d1. rewrite node_put_node by (lia || done || (unfold DEPTH; lia)).
      rewrite decide_False; [done|]. unfold DEPTH. lia.
Qed.

Lemma smt_set_facts d domain key v : consistent d ->
  let d' := db_after (smt_set domain key v) d in
  let lk := leaf_key domain key in
  consistent d' /\
  forall p, p < 2 ^ 128 ->
    leaf_at d' p = if decide (p = path_of lk) then leaf_hash lk v else leaf_at d p.
Proof.
  intros Hc d' lk. pose proof (path_of_bound lk) as Hp. pose proof (slen_leaf_hash lk v) as Hl.
  set (d1 := db_after (put_node DEPTH (path_of lk) (leaf_hash lk v)) d).
  assert (d' = db_after (climb (path_of lk) DEPTH (leaf_hash lk v)) d1) as ->.
  { subst d' d1. unfold smt_set. cbv zeta. fold lk.
    rewrite db_after_bind by (intros; apply _). now rewrite res_put_node. }
  assert (consistent_but d1 (path_of lk) DEPTH) as Hc1.
  { apply consistent_but_put; [unfold DEPTH; lia|done|done| |unfold DEPTH; lia].
    intros k q Hk Hq _. now apply Hc. }
  destruct (climb_spec (path_of lk) DEPTH d1 (leaf_hash lk v)) as [Hc' Hleaf];
    [unfold DEPTH; lia|done|done|done| |].
  { subst d1. rewrite node_put_node by (unfold DEPTH; lia || done || (apply prefix_bound; [unfold DEPTH; lia|done])).
    now rewrite decide_True. }
  split; [exact Hc'|]. intros p Hpp. rewrite Hleaf by done. unfold leaf_at. subst d1.
  rewrite node_put_node by (unfold DEPTH; lia || done). rewrite prefix_128.
  destruct (decide (p = path_of lk)) as [->|Hne]; [now rewrite decide_True|].
  rewrite decide_False; [done|]. intros [_ E]. done.
Qed.

(** ** A batch of updates *)

Definition update : Type := string * string * option string.
Definition smt_set_all (us : list update) : M unit :=
  for_each us (fun '(domain, key, v) => smt_set domain key v).

#[export] Instance journaled_smt_set_all us : Journaled (smt_set_all us).
Proof. apply journaled_for_each. intros [[? ?] ?]. apply _. Qed.

(** The reference: the leaf assignment the updates denote. *)
Definition set_leaf (f : N -> string) (u : update) : N -> string :=
  let '(domain, key, v) := u in
  let lk := leaf_key domain key in
  fun p => if decide (p = path_of lk) then leaf_hash lk v else f p.
Definition leaves_of (us : list update) : N -> string := foldl set_leaf (fun _ => empty_at DEPTH) us.

Lemma res_climb path n : forall cur d, res_after (climb path n cur) d = Ok tt.
Proof.
  induction n as [|idx IH]; intros cur d; [done|]. cbn [climb].
  rewrite res_after_bind by (intros; apply journaled_bind; intros; apply _).
  change (res_after (gets ?f) d) with (Ok (f d)). cbv beta iota.
  rewrite res_after_bind by (intros; apply _). rewrite res_put_node. apply IH.
Qed.

Lemma res_smt_set d domain key v : res_after (smt_set domain key v) d = Ok tt.
Proof.
  unfold smt_set. cbv zeta. rewrite res_after_bind by (intros; apply _).
  rewrite res_put_node. apply res_climb.
Qed.

Lemma smt_set_all_facts us : forall d f, consistent d ->
  (forall p, p < 2 ^ 128 -> leaf_at d p = f p) ->
  consistent (db_after (smt_set_all us) d) /\
  forall p, p < 2 ^ 128 -> leaf_at (db_after (smt_set_all us) d) p = foldl set_leaf f us p.
Proof.
  induction us as [|[[domain key] v] us IH]; intros d f Hc Hf; [done|].
  unfold smt_set_all. cbn [for_each]. fold (smt_set_all us).
  rewrite db_after_bind by (intros; apply _). rewrite res_smt_set.
  destruct (smt_set_facts d domain key v Hc) as [Hc' Hl]. cbn [foldl].
  apply IH; [exact Hc'|]. intros p Hp. rewrite Hl by done. unfold set_leaf.
  case_decide; [done|]. now apply Hf.
Qed.

Lemma leaf_at_empty p : leaf_at ∅ p = empty_at DEPTH.
Proof. unfold leaf_at, node, get_node. now rewrite lookup_empty. Qed.

(** The incremental tree computes the Merkle root of the perfect binary tree
    over the leaves its updates denote. *)
Lemma root_of_updates us :
  smt_root (db_after (smt_set_all us) ∅) = tree_hash (leaves_of us) DEPTH 0.
Proof.
  destruct (smt_set_all_facts us ∅ (fun _ => empty_at DEPTH)) as [Hc Hl];
    [apply consistent_empty|intros; apply leaf_at_empty|].
  rewrite root_tree_hash by done. apply (tree_hash_ext _ _ _ 0); [reflexivity|done|exact Hl].
Qed.

(** ** Proofs *)

(** A proof walk only reads the bitmap at indices below its depth. *)
Lemma fold_path_ext path n : forall b1 b2 cur sibs,
  (forall i, (i < n)%nat -> bit b1 i = bit b2 i) ->
  fold_path path b1 n cur sibs = fold_path path b2 n cur sibs.
Proof.
  induction n as [|idx IH]; intros b1 b2 cur sibs Hb; [done|]. cbn [fold_path].
  rewrite <- (Hb idx) by lia. destruct (bit b1 idx); [destruct sibs|]; cbn; [done|..];
    apply IH; intros; apply Hb; lia.
Qed.

Lemma bit_setbit b idx i : (idx < 128)%nat -> (i < 128)%nat ->
  bit (N.setbit b (127 - N.of_nat idx)) i = (Nat.eqb i idx || bit b i).
Proof.
  intros Hx Hi. unfold bit. rewrite N.setbit_eqb.
  destruct (Nat.eqb_spec i idx) as [->|Hne]; [now rewrite N.eqb_refl|].
  destruct (N.eqb_spec (127 - N.of_nat idx) (127 - N.of_nat i)); [lia|done].
Qed.

Lemma collect_low d path n : (n <= 128)%nat -> forall i, (n <= i < 128)%nat -> bit (collect d path n).2 i = false.
Proof.
  induction n as [|idx IH]; intros Hn i Hi; [apply N.bits_0|]. cbn [collect].
  specialize (IH ltac:(lia) i ltac:(lia)). destruct (collect d path idx) as [sibs bm]. cbn in IH.
  destruct (String.eqb _ _); cbn [snd]; [done|]. rewrite bit_setbit by lia.
  destruct (Nat.eqb_spec i idx); [lia|done].
Qed.

Lemma collect_bound d path n : (n <= 128)%nat -> (collect d path n).2 < 2 ^ 128.
Proof.
  induction n as [|idx IH]; intros Hn; [done|]. cbn [collect]. specialize (IH ltac:(lia)).
  destruct (collect d path idx) as [sibs bm]. cbn in IH. destruct (String.eqb _ _); cbn [snd]; [done|].
  rewrite N.setbit_spec', N.lor_comm.
  destruct (N.eq_dec (N.lor (2 ^ (127 - N.of_nat idx)) bm) 0) as [->|Hz]; [done|].
  apply N.log2_lt_pow2; [lia|]. rewrite N.log2_lor, N.log2_pow2 by lia.
  apply N.max_lub_lt; [lia|]. destruct (N.eq_dec bm 0) as [->|]; [done|]. apply N.log2_lt_pow2; lia.
Qed.

Lemma collect_len d path n : (n <= 128)%nat -> Forall (fun s => slen s = 32%nat) (collect d path n).1.
Proof.
  induction n as [|idx IH]; intros Hn; [constructor|]. cbn [collect]. specialize (IH ltac:(lia)).
  pose proof (slen_get_node d (S idx) (flip path idx) Hn) as Hl.
  destruct (collect d path idx) as [sibs bm]. destruct (String.eqb _ _); cbn [fst]; [done|].
  now constructor.
Qed.

Lemma node_child d path idx : (idx < 128)%nat -> path < 2 ^ 128 -> consistent d ->
  let sib := node d (S idx) (prefix (S idx) (flip path idx)) in
  let cur := node d (S idx) (prefix (S idx) path) in
  node d idx (prefix idx path) = if bit path idx then parent sib cur else parent cur sib.
Proof.
  intros Hi Hp Hc sib cur. subst sib cur.
  rewrite (Hc idx (prefix idx path)) by (done || (apply prefix_bound; [lia|done])).
  rewrite prefix_flip, prefix_S by lia.
  destruct (bit path idx); cbn [negb N.b2n]; now rewrite ?N.add_0_r.
Qed.

Lemma smt_root_node d : smt_root d = node d 0 0.
Proof. exact (eq_trans (get_node_node d 0 0) (f_equal (node d 0) (prefix_0 0 eq_refl))). Qed.

Lemma fold_collect d path n : consistent d -> path < 2 ^ 128 -> (n <= 128)%nat ->
  let '(sibs, bm) := collect d path n in
  fold_path path bm n (node d n (prefix n path)) sibs = Some (smt_root d, []).
Proof.
  intros Hc Hp. induction n as [|idx IH]; intros Hn.
  - cbn [collect fold_path]. now rewrite smt_root_node, (prefix_0 path Hp).
  - specialize (IH ltac:(lia)). cbn [collect].
    pose proof (collect_low d path idx ltac:(lia)) as Hlow.
    destruct (collect d path idx) as [sibs bm]. cbn [snd] in Hlow. rewrite get_node_node.
    rewrite (node_child d path idx) in IH by (done || lia).
    set (sib := node d (S idx) (prefix (S idx) (flip path idx))) in *.
    destruct (String.eqb_spec sib (empty_at (S idx))) as [He|He]; cbn [fold_path].
    + rewrite (Hlow idx) by lia. cbn. rewrite He in IH. exact IH.
    + rewrite bit_setbit, Nat.eqb_refl by lia. cbn [orb]. cbn [mbind option_bind].
      rewrite (fold_path_ext _ _ _ bm); [exact IH|].
      intros i Hi. rewrite bit_setbit by lia. destruct (Nat.eqb_spec i idx); [lia|done].
Qed.

Lemma hex_bytes_encode n b : slen b = n -> hex_bytes n (hex_encode b) = Some b.
Proof. intros <-. unfold hex_bytes. rewrite hex_round_trip. cbn. now rewrite Nat.eqb_refl. Qed.

Lemma mapM_hex_bytes l : Forall (fun s => slen s = 32%nat) l ->
  mapM (hex_bytes 32) (map hex_encode l) = Some l.
Proof.
  intros Hl. apply mapM_Some. induction Hl; constructor; [|done]. now apply hex_bytes_encode.
Qed.

Lemma hex_no_0x s : all_chars is_hex s = true -> trim_start_matches "0x" s = s.
Proof.
  intros Hs. unfold trim_start_matches.
  assert (strip_prefix "0x" s = None) as Hn.
  { destruct s as [|a [|b s]]; cbn [strip_prefix]; [done|now case_match|].
    destruct (Ascii.eqb_spec "0" a); [|done]. destruct (Ascii.eqb_spec "x" b) as [<-|]; [|done].
    subst a. discriminate Hs. }
  destruct (slen s); cbn [trim_matches_go]; [done|]. now rewrite Hn.
Qed.

Lemma lower_hex s : all_chars is_hex s = true -> map_string ascii_lower s = s.
Proof.
  induction s as [|c s IH]; [done|]. cbn. intros [Hc Hs]%andb_true_iff. rewrite IH by done. f_equal.
  revert Hc. clear. destruct c as [[] [] [] [] [] [] [] []]; intros Hc; try reflexivity; discriminate.
Qed.

Lemma normal_hex s : map_string ascii_lower (trim_start_matches "0x" (hex_encode s)) = hex_encode s.
Proof. rewrite hex_no_0x by apply hex_chars. apply lower_hex, hex_chars. Qed.

Lemma verify_of_walk d domain key value sibs bm :
  Forall (fun s => slen s = 32%nat) sibs -> bm < 2 ^ 128 ->
  fold_path (path_of (leaf_key domain key)) bm DEPTH (leaf_hash (leaf_key domain key) value) sibs =
    Some (smt_root d, []) ->
  verify_proof (root_hex d) domain key value (map hex_encode sibs)
    (hex_encode (to_be_bytes PATH_BYTES bm)) = true.
Proof.
  intros Hs Hb Hw. unfold verify_proof.
  rewrite hex_bytes_encode, mapM_hex_bytes by (done || apply slen_be). cbv zeta.
  rewrite from_to_be, Hw by exact Hb. unfold root_hex. rewrite normal_hex. apply String.eqb_refl.
Qed.

(** ** Soundness *)

(** A soundness theorem ends in a failure of SHA-256 on strings that can be read
    off the proof and the tree: a collision between a string hashed by the one
    and a string hashed by the other, or a leaf that hashes to the zero digest,
    the mark of an absent leaf. *)
Definition sha_broken (hashed1 hashed2 : list string) : Prop :=
  clash sha256 hashed1 hashed2 \/ exists x, x ∈ hashed1 ++ hashed2 /\ sha256 x = empty_at DEPTH.

Lemma broken_sub l1 l2 m1 m2 : l1 ⊆ m1 -> l2 ⊆ m2 -> sha_broken l1 l2 -> sha_broken m1 m2.
Proof.
  intros H1 H2 [Hc|(x & Hx & E)]; [left; revert Hc; now apply clash_sub|right]. exists x. split; [|done].
  apply elem_of_app in Hx as [Hx|Hx]; apply elem_of_app; auto.
Qed.

Lemma sha_inj x y l1 l2 : x ∈ l1 -> y ∈ l2 -> sha256 x = sha256 y -> x = y \/ sha_broken l1 l2.
Proof. intros Hx Hy E. destruct (clash_or _ _ _ _ _ Hx Hy E); [now left|right; now left]. Qed.

Definition parent_input (right : bool) (cur sib : string) : string :=
  if right then sib +:+ cur else cur +:+ sib.

Lemma parent_of_input (right : bool) cur sib :
  (if right then parent sib cur else parent cur sib) = sha256 (parent_input right cur sib).
Proof. now destruct right. Qed.

Lemma parent_input_inj right cur1 sib1 cur2 sib2 : slen cur1 = 32%nat -> slen sib1 = 32%nat ->
  slen cur2 = 32%nat -> slen sib2 = 32%nat ->
  parent_input right cur1 sib1 = parent_input right cur2 sib2 -> cur1 = cur2.
Proof. intros ???? E. destruct right; apply append_inj_len in E as [? ?]; (done || congruence). Qed.

Definition leaf_inputs (lk : string) (value : option string) : list string :=
  match value with Some v => ["inzleaf|" +:+ lk +:+ "|" +:+ v] | None => [] end.

(** The strings the verifier hashes above the leaf. *)
Fixpoint path_inputs (path bitmap : N) (depth : nat) (cur : string) (sibs : list string) : list string :=
  match depth with
  | O => []
  | S idx =>
    let '(sib, rest) := if bit bitmap idx then
                          match sibs with s :: rest => (s, rest) | [] => ("", []) end
                        else (empty_at depth, sibs) in
    let input := parent_input (bit path idx) cur sib in
    input :: path_inputs path bitmap idx (sha256 input) rest
  end.

(** The strings the tree hashes on the same path. *)
Fixpoint branch_inputs (d : Db) (path : N) (depth : nat) : list string :=
  match depth with
  | O => []
  | S idx =>
    parent_input (bit path idx) (node d depth (prefix depth path)) (node d depth (prefix depth (flip path idx))) ::
    branch_inputs d path idx
  end.

Lemma slen_node d n q : (n <= 128)%nat -> slen (node d n q) = 32%nat.
Proof. intros. unfold node. now apply slen_get_node. Qed.

Lemma fold_path_sound d path bm n : consistent d -> path < 2 ^ 128 -> (n <= 128)%nat ->
  forall cur sibs, slen cur = 32%nat -> Forall (fun s => slen s = 32%nat) sibs ->
  fold_path path bm n cur sibs = Some (smt_root d, []) ->
  cur = node d n (prefix n path) \/ sha_broken (path_inputs path bm n cur sibs) (branch_inputs d path n).
Proof.
  intros Hc Hp. induction n as [|idx IH]; intros Hn cur sibs Hcur Hs E.
  - cbn in E. injection E as -> _. left. now rewrite smt_root_node, (prefix_0 path Hp).
  - cbn [fold_path path_inputs branch_inputs] in E |- *.
    set (pick' := match bit bm idx with true => match sibs with [] => ("", []) | s :: rest => (s, rest) end
                                      | false => (empty_at (S idx), sibs) end) in |- *.
    match type of E with mbind _ ?pick = _ =>
      assert (pick = Some pick' /\ slen pick'.1 = 32%nat /\ Forall (fun s => slen s = 32%nat) pick'.2) as (Hpick & Hsib & Hrest) end.
    { subst pick'. destruct (bit bm idx); [|split; [done|split; [now apply slen_empty_at|done]]].
      destruct sibs as [|s sibs]; [discriminate|]. inversion Hs; subst. done. }
    rewrite Hpick in E. clearbody pick'. clear Hpick. destruct pick' as [sib rest]. cbn in E, Hsib, Hrest.
    rewrite parent_of_input in E.
    apply IH in E as [E|Hb]; [|right; revert Hb; apply broken_sub; intros ?; now right|lia|apply sha256_len|done].
    rewrite (node_child d path idx), parent_of_input in E by (done || lia).
    eapply sha_inj in E as [E|Hb]; [|right; exact Hb|now left|now left].
    left. apply parent_input_inj in E; (done || now apply slen_node).
Qed.

Lemma leaf_hash_inj lk v1 v2 l1 l2 : leaf_inputs lk v1 ⊆ l1 -> leaf_inputs lk v2 ⊆ l2 ->
  leaf_hash lk v1 = leaf_hash lk v2 -> v1 = v2 \/ sha_broken l1 l2.
Proof.
  intros H1 H2. destruct v1 as [v1|], v2 as [v2|]; cbn [leaf_hash leaf_inputs] in *; intros E; [| | |now left].
  - eapply sha_inj in E as [E|Hb]; [|right; exact Hb|apply H1; now left|apply H2; now left].
    left. f_equal. apply (append_inv_head ("inzleaf|" +:+ lk +:+ "|")). rewrite <- !append_assoc. exact E.
  - right; right. eexists. split; [apply elem_of_app; left; apply H1; now left|exact E].
  - right; right. eexists. split; [apply elem_of_app; right; apply H2; now left|now symmetry].
Qed.

(** What a proof and the tree hash, leaf included. *)
Definition proof_hashes (domain key : string) (value : option string) (siblings : list string) (bitmap : string) : list string :=
  let lk := leaf_key domain key in
  match hex_bytes PATH_BYTES bitmap, mapM (hex_bytes 32) siblings with
  | Some bm, Some sibs => leaf_inputs lk value ++ path_inputs (path_of lk) (from_be_bytes bm) DEPTH (leaf_hash lk value) sibs
  | _, _ => []
  end.
Definition tree_hashes (d : Db) (domain key : string) (stored : option string) : list string :=
  let lk := leaf_key domain key in leaf_inputs lk stored ++ branch_inputs d (path_of lk) DEPTH.

Lemma mapM_hex_bytes_len l sibs : mapM (hex_bytes 32) l = Some sibs -> Forall (fun s => slen s = 32%nat) sibs.
Proof.
  intros Hs%mapM_Some. induction Hs as [|h s hs ss Hb _ IH]; constructor; [|done].
  unfold hex_bytes in Hb. destruct (hex_decode h) as [raw|]; [|done]. cbn in Hb.
  destruct (Nat.eqb_spec (slen raw) 32); [congruence|done].
Qed.

Lemma updates_facts us :
  let d := db_after (smt_set_all us) ∅ in
  consistent d /\ forall p, p < 2 ^ 128 -> leaf_at d p = leaves_of us p.
Proof.
  intros d. apply (smt_set_all_facts us ∅ (fun _ => empty_at DEPTH) consistent_empty).
  intros. apply leaf_at_empty.
Qed.

Lemma proof_verifies d domain key value : consistent d ->
  leaf_at d (path_of (leaf_key domain key)) = leaf_hash (leaf_key domain key) value ->
  let '(_, siblings, bitmap) := smt_proof d domain key in
  verify_proof (root_hex d) domain key value siblings bitmap = true.
Proof.
  intros Hc Hv. pose proof (path_of_bound (leaf_key domain key)) as Hp. unfold smt_proof. cbv zeta.
  pose proof (collect_len d (path_of (leaf_key domain key)) DEPTH (le_n _)) as Hlen.
  pose proof (collect_bound d (path_of (leaf_key domain key)) DEPTH (le_n _)) as Hb.
  pose proof (fold_collect d _ DEPTH Hc Hp (le_n _)) as Hf.
  destruct (collect d (path_of (leaf_key domain key)) DEPTH) as [sibs bm]. cbn [fst snd] in Hlen, Hb.
  apply verify_of_walk; [done|done|]. rewrite prefix_128 in Hf. rewrite <- Hv. exact Hf.
Qed.

Lemma proof_sound d domain key value stored siblings bitmap : consistent d ->
  leaf_at d (path_of (leaf_key domain key)) = leaf_hash (leaf_key domain key) stored ->
  verify_proof (root_hex d) domain key value siblings bitmap = true ->
  value = stored \/
  sha_broken (proof_hashes domain key value siblings bitmap) (tree_hashes d domain key stored).
Proof.
  intros Hc Hv E. pose proof (path_of_bound (leaf_key domain key)) as Hp. unfold verify_proof in E. unfold proof_hashes, tree_hashes.
  destruct (hex_bytes PATH_BYTES bitmap) as [bm|]; [|done].
  destruct (mapM (hex_bytes 32) siblings) as [sibs|] eqn:Hs; [|done]. cbv zeta in E |- *.
  destruct (fold_path _ _ _ _ sibs) as [[cur [|]]|] eqn:Hf; [|done..].
  apply String.eqb_eq in E. unfold root_hex in E. rewrite normal_hex in E. apply hex_encode_inj in E as ->.
  apply fold_path_sound in Hf as [Hf|Hb];
    [|right; revert Hb; apply broken_sub; intros ??; apply elem_of_app; now right|done|done|reflexivity|apply slen_leaf_hash
     |now apply (mapM_hex_bytes_len siblings)].
  rewrite prefix_128 in Hf. fold (leaf_at d (path_of (leaf_key domain key))) in Hf. rewrite Hv in Hf.
  revert Hf. apply leaf_hash_inj; intros ??; apply elem_of_app; now left.
Qed.

(** ** Properties *)

(** the root of the incremental tree after any sequence of leaf updates is
    the root of the perfect binary Merkle tree over the leaves the updates
    denote; it does not depend on the order or the number of the updates. *)
Theorem smt_root_history_independent (us1 us2 : list update) :
  smt_root (db_after (smt_set_all us1) ∅) = tree_hash (leaves_of us1) DEPTH 0 /\
  ((forall p, p < 2 ^ 128 -> leaves_of us1 p = leaves_of us2 p) ->
   smt_root (db_after (smt_set_all us1) ∅) = smt_root (db_after (smt_set_all us2) ∅)).
Proof.
  split; [apply root_of_updates|]. intros E. rewrite !root_of_updates.
  now apply (tree_hash_ext _ _ _ 0).
Qed.

(** the proof the tree produces for any key verifies against its root for
    the value stored at the key, present or absent. *)
Theorem smt_proof_complete us domain key value :
  let d := db_after (smt_set_all us) ∅ in
  leaves_of us (path_of (leaf_key domain key)) = leaf_hash (leaf_key domain key) value ->
  let '(_, siblings, bitmap) := smt_proof d domain key in
  verify_proof (root_hex d) domain key value siblings bitmap = true.
Proof.
  intros d Hv. destruct (updates_facts us) as [Hc Hl].
  apply proof_verifies; [exact Hc|]. rewrite <- Hv. apply Hl, path_of_bound.
Qed.

(** an accepted proof is right about the leaf: if [verify_proof] accepts a
    value against the root of a tree, the tree stores that value at the key, or
    SHA-256 fails on the strings at hand: a string the verifier hashes collides
    with one the tree hashes on that path, or one of them hashes to zero. *)
Theorem smt_proof_sound us domain key value stored siblings bitmap :
  let d := db_after (smt_set_all us) ∅ in
  leaves_of us (path_of (leaf_key domain key)) = leaf_hash (leaf_key domain key) stored ->
  verify_proof (root_hex d) domain key value siblings bitmap = true ->
  value = stored \/
  sha_broken (proof_hashes domain key value siblings bitmap) (tree_hashes d domain key stored).
Proof.
  intros d Hv E. destruct (updates_facts us) as [Hc Hl]. apply (proof_sound d); [exact Hc| |exact E].
  rewrite <- Hv. apply Hl, path_of_bound.
Qed.
End facts.

(** ** Witnesses *)
Module Example_tree.
Import Toy.

Definition alice : update := ("acct", "alice", Some "70").
Definition bob : update := ("acct", "bob", Some "5").
Definition bob_old : update := ("acct", "bob", Some "9").
Definition history1 : list update := [alice; bob].
Definition history2 : list update := [bob_old; alice; bob; alice].

Lemma same_leaves p : leaves_of history1 p = leaves_of history2 p.
Proof.
  unfold leaves_of, history1, history2, alice, bob, bob_old. cbn [foldl set_leaf].
  assert (path_of (leaf_key "acct" "alice") <> path_of (leaf_key "acct" "bob")) as Hne
    by (vm_compute; discriminate).
  destruct (decide (p = path_of (leaf_key "acct" "bob"))) as [Hb|Hb];
    destruct (decide (p = path_of (leaf_key "acct" "alice"))) as [Ha|Ha]; try reflexivity.
  exfalso. apply Hne. now rewrite <- Ha, <- Hb.
Qed.

Lemma smt_root_history_independent_witness :
  smt_root (db_after (smt_set_all history1) ∅) = smt_root (db_after (smt_set_all history2) ∅).
Proof. apply (smt_root_history_independent history1 history2). intros p _. apply same_leaves. Defined.

Lemma paths_differ :
  path_of (leaf_key "acct" "carol") <> path_of (leaf_key "acct" "alice") /\
  path_of (leaf_key "acct" "carol") <> path_of (leaf_key "acct" "bob").
Proof. split; vm_compute; discriminate. Qed.

Lemma smt_proof_complete_witness :
  let d := db_after (smt_set_all history2) ∅ in
  let '(_, siblings, bitmap) := smt_proof d "acct" "carol" in
  verify_proof (root_hex d) "acct" "carol" None siblings bitmap = true.
Proof.
  apply (smt_proof_complete history2 "acct" "carol" None). destruct paths_differ.
  unfold leaves_of, history2, alice, bob, bob_old. cbn [foldl set_leaf].
  rewrite !decide_False by done. reflexivity.
Defined.

Lemma bob_leaf : leaves_of history1 (path_of (leaf_key "acct" "bob")) =
  leaf_hash (leaf_key "acct" "bob") (Some "5").
Proof. unfold leaves_of, history1, alice, bob. cbn [foldl set_leaf]. now rewrite decide_True. Qed.

Lemma smt_proof_sound_witness :
  let d := db_after (smt_set_all history1) ∅ in
  let '(_, siblings, bitmap) := smt_proof d "acct" "bob" in
  verify_proof (root_hex d) "acct" "bob" (Some "5") siblings bitmap = true /\
  (Some "5" = Some "5" \/
   sha_broken (proof_hashes "acct" "bob" (Some "5") siblings bitmap) (tree_hashes d "acct" "bob" (Some "5"))).
Proof.
  intros d. destruct (updates_facts history1) as [Hc Hl].
  pose proof (proof_verifies d "acct" "bob" (Some "5") Hc) as E.
  rewrite Hl in E by apply path_of_bound. specialize (E bob_leaf).
  destruct (smt_proof d "acct" "bob") as [[lk sibs] bm]. split; [exact E|].
  exact (smt_proof_sound history1 "acct" "bob" (Some "5") (Some "5") sibs bm bob_leaf E).
Defined.
End Example_tree.
