(* ===== verification/Poseidon.v ===== *)
(** poseidon.rs: the Poseidon hash over the BN254 scalar field.

    The field is arkworks' [Fr] (crate [ark_bn254]): the class [Fr] below.  The
    parameter generator, the permutation and the encodings are the code's.  The
    process-wide [params()] cell is the class [Params]: the parameters every
    hash of a run uses. *)

From S2P Require Import Prelude Bytes Crypto.
From Stdlib Require Import Ascii.
From Stdlib Require String.

Class Fr := {
  F : Type;
  F_eq_dec :: EqDecision F;
  f_add : F -> F -> F;
  f_sub : F -> F -> F;
  f_mul : F -> F -> F;
  (** [f.inverse()] *)
  f_inverse : F -> option F;
  (** [Fr::from(n)], and [from_be_bytes_mod_order] on the integer of the bytes *)
  f_of : N -> F;
  (** [into_bigint()]: the canonical representative *)
  f_to : F -> N;
  (** [Fr::from_random_bytes] *)
  f_from_random_bytes : string -> option F
}.

(** The order of the BN254 scalar field. *)
Definition FR_MODULUS : N := 21888242871839275222246405745257275088548364400416034343698204186575808495617.

(** Documented behaviour of arkworks: [Fr] is the field of integers modulo its
    order, [into_bigint] the canonical representative. *)
Class FrLaws `{Fr} : Prop := {
  f_of_to x : f_of (f_to x) = x;
  f_to_of n : f_to (f_of n) = n mod FR_MODULUS;
  f_to_add x y : f_to (f_add x y) = (f_to x + f_to y) mod FR_MODULUS;
  f_to_sub x y : f_to (f_sub x y) = (f_to x + (FR_MODULUS - f_to y)) mod FR_MODULUS;
  f_to_mul x y : f_to (f_mul x y) = (f_to x * f_to y) mod FR_MODULUS
}.

Section field.
Context `{FrLaws}.
Lemma f_to_lt x : f_to x < FR_MODULUS.
Proof. rewrite <- (f_of_to x), f_to_of. now apply N.mod_lt. Qed.
Lemma f_to_bound x : f_to x < 2 ^ 254.
Proof. eapply N.lt_trans; [apply f_to_lt|reflexivity]. Qed.
Lemma f_to_inj x y : f_to x = f_to y -> x = y.
Proof. intros E. rewrite <- (f_of_to x), <- (f_of_to y). now f_equal. Qed.
Lemma f_to_small n : n < FR_MODULUS -> f_to (f_of n) = n.
Proof. intros Hn. rewrite f_to_of. now apply N.mod_small. Qed.
Lemma f_sub_zero x y : f_to (f_sub x y) = 0 <-> x = y.
Proof.
  rewrite f_to_sub. pose proof (f_to_lt x) as Hx. pose proof (f_to_lt y) as Hy. split; [|intros ->].
  - intros E. apply f_to_inj. destruct (N.le_gt_cases (f_to y) (f_to x)) as [Hle|Hgt].
    + replace (f_to x + (FR_MODULUS - f_to y)) with (f_to x - f_to y + 1 * FR_MODULUS) in E by lia.
      rewrite N.Div0.mod_add, N.mod_small in E; lia.
    + rewrite N.mod_small in E; lia.
  - replace (f_to y + (FR_MODULUS - f_to y)) with FR_MODULUS by lia. now apply N.Div0.mod_same.
Qed.
End field.

(* [src/src/poseidon.rs 24-24 POSEIDON_T] *)
Definition POSEIDON_T : nat := 3.
(* [src/src/poseidon.rs 25-25 POSEIDON_RF] *)
Definition POSEIDON_RF : nat := 8.
(* [src/src/poseidon.rs 27-27 POSEIDON_RP] *)
Definition POSEIDON_RP : nat := 57.
(* [src/src/poseidon.rs 28-28 POSEIDON_ROUNDS] *)
Definition POSEIDON_ROUNDS : nat := POSEIDON_RF + POSEIDON_RP.

(** ** The Grain LFSR *)

(* [src/src/poseidon.rs 40-42 GrainLfsr] *)
Definition GrainLfsr : Type := list bool.

(** [n] bits of [v], most significant first. *)
Definition push_bits (v : N) (n : nat) : list bool :=
  map (fun i => N.testbit v (N.of_nat i)) (rev (seq 0 n)).

(* [src/src/poseidon.rs 45-68 GrainLfsr::new] *)
Definition lfsr_new (field_bits t rf rp : N) : GrainLfsr :=
  [false; true] ++ [false; false; false; false] ++
  push_bits field_bits 12 ++ push_bits t 12 ++ push_bits rf 10 ++ push_bits rp 10 ++
  replicate 30 true.

(* [src/src/poseidon.rs 70-82 GrainLfsr::raw_bit] *)
Definition raw_bit (s : GrainLfsr) : bool * GrainLfsr :=
  let at_ i := nth i s false in
  let new := xorb (at_ 62%nat) (xorb (at_ 51%nat) (xorb (at_ 38%nat) (xorb (at_ 23%nat)
    (xorb (at_ 13%nat) (at_ 0%nat))))) in
  (at_ 0%nat, tail s ++ [new]).

(** [while !self.raw_bit() {}], then the sample. *)
(* [src/src/poseidon.rs 86-89 GrainLfsr::sampled_bit] *)
Fixpoint sampled_bit (fuel : nat) (s : GrainLfsr) : option (bool * GrainLfsr) :=
  match fuel with
  | O => None
  | S f => let '(b, s1) := raw_bit s in if b then Some (raw_bit s1) else sampled_bit f s1
  end.

(** 254 sampled bits, the first the most significant. *)
Fixpoint sample_bits (fuel n : nat) (acc : N) (s : GrainLfsr) : option (N * GrainLfsr) :=
  match n with
  | O => Some (acc, s)
  | S n' => '(b, s1) ← sampled_bit fuel s; sample_bits fuel n' (2 * acc + N.b2n b) s1
  end.

Section field.
Context `{Fr}.

(* [src/src/poseidon.rs 93-107 GrainLfsr::field_element] *)
Fixpoint field_element (fuel : nat) (s : GrainLfsr) : option (F * GrainLfsr) :=
  match fuel with
  | O => None
  | S f =>
    '(v, s1) ← sample_bits fuel 254 0 s;
    match f_from_random_bytes (to_be_bytes 32 v) with
    | Some x => Some (x, s1)
    | None => field_element f s1
    end
  end.

(* [src/src/poseidon.rs 30-35 PoseidonParams] *)
Record PoseidonParams := { ark : list F; mds : list (list F) }.

Fixpoint field_elements (fuel n : nat) (s : GrainLfsr) : option (list F * GrainLfsr) :=
  match n with
  | O => Some ([], s)
  | S n' =>
    '(x, s1) ← field_element fuel s; '(xs, s2) ← field_elements fuel n' s1; Some (x :: xs, s2)
  end.

(** [while used.len() < 2 * POSEIDON_T]: distinct samples, in order. *)
Fixpoint distinct_elements (rounds fuel : nat) (used : list F) (s : GrainLfsr) : option (list F) :=
  if Nat.ltb (length used) (2 * POSEIDON_T) then
    match rounds with
    | O => None
    | S r =>
      '(x, s1) ← field_element fuel s;
      distinct_elements r fuel (if decide (x ∈ used) then used else used ++ [x]) s1
    end
  else Some used.

(** [None] is the assertion on a degenerate matrix failing, or the fuel running out. *)
(* [src/src/poseidon.rs 110-139 generate_params] *)
Definition generate_params (fuel : nat) : option PoseidonParams :=
  let lfsr := lfsr_new 254 (N.of_nat POSEIDON_T) (N.of_nat POSEIDON_RF) (N.of_nat POSEIDON_RP) in
  '(ark, lfsr) ← field_elements fuel ((POSEIDON_RF + POSEIDON_RP) * POSEIDON_T) lfsr;
  used ← distinct_elements fuel fuel [] lfsr;
  let xs := take POSEIDON_T used in
  let ys := drop POSEIDON_T used in
  mds ← mapM (fun x => mapM (fun y =>
    let denom := f_add x y in
    if decide (denom = f_of 0) then None else f_inverse denom) ys) xs;
  Some {| ark := ark; mds := mds |}.

(* [src/src/poseidon.rs 141-144 params] *)
Class Params := params : PoseidonParams.
End field.

Section poseidon.
Context `{Params}.

Definition pow5 (x : F) : F := let x2 := f_mul x x in f_mul (f_mul x2 x2) x.

Definition add_constants (round : nat) (state : list F) : list F :=
  imap (fun j s => f_add s (nth (round * POSEIDON_T + j) (ark params) (f_of 0))) state.
Definition sub_words (partial : bool) (state : list F) : list F :=
  match state with
  | [] => []
  | x :: xs => if partial then pow5 x :: xs else map pow5 (x :: xs)
  end.
Definition mix (old : list F) : list F :=
  imap (fun j _ => foldl f_add (f_of 0)
    (zip_with f_mul (nth j (mds params) []) old)) old.

Fixpoint rounds (todo round : nat) (state : list F) : list F :=
  match todo with
  | O => state
  | S todo' =>
    let full_half := Nat.div POSEIDON_RF 2 in
    let partial := Nat.leb full_half round && Nat.ltb round (full_half + POSEIDON_RP) in
    rounds todo' (S round) (mix (sub_words partial (add_constants round state)))
  end.

(* [src/src/poseidon.rs 147-172 permute] *)
Definition permute (state : list F) : list F := rounds POSEIDON_ROUNDS 0 state.

(* [src/src/poseidon.rs 177-181 hash2] *)
Definition hash2 (a b : F) : F := nth 0 (permute [a; b; f_of 0]) (f_of 0).

(** [None] is the assertion on an empty list. *)
(* [src/src/poseidon.rs 186-193 hash_many] *)
Definition hash_many (fields : list F) : option F :=
  match fields with [] => None | f :: fs => Some (foldl hash2 f fs) end.

Lemma length_mix s : length (mix s) = length s.
Proof. apply length_imap. Qed.
Lemma length_rounds n : forall r s, length (rounds n r s) = length s.
Proof.
  induction n as [|n IH]; intros r s; [done|]. cbn [rounds]. rewrite IH, length_mix.
  unfold sub_words, add_constants. destruct s as [|x s]; [done|]. cbn [imap].
  case_match; cbn; now rewrite ?length_map, length_imap.
Qed.
End poseidon.

(** The 2-to-1 compression of the shielded pool, as its clients use it: the pool
    and the chain are verified for any such function; the node's is [hash2]. *)
Class Compression `{Fr} := compress : F -> F -> F.
Definition poseidon `{Params} : Compression := hash2.

Section encoding.
Context `{Fr} `{Crypto}.

(* [src/src/poseidon.rs 196-198 fr_u64] *)
Definition fr_u64 (v : N) : F := f_of v.
(* [src/src/poseidon.rs 201-203 fr_u128] *)
Definition fr_u128 (v : N) : F := f_of v.

(* [src/src/poseidon.rs 206-212 fr_from_hex] *)
Definition fr_from_hex (s : string) : option F :=
  raw ← hex_bytes 32 (trim s); Some (f_of (from_be_bytes raw)).

(** [to_bytes_be] of the four-limb integer is 32 bytes long. *)
(* [src/src/poseidon.rs 215-219 fr_to_hex] *)
Definition fr_to_hex (f : F) : string := hex_encode (to_be_bytes 32 (f_to f)).

Context `{!FrLaws} `{!CryptoLaws}.

Lemma fr_hex_round_trip x : fr_from_hex (fr_to_hex x) = Some x.
Proof.
  unfold fr_from_hex, fr_to_hex, hex_bytes.
  rewrite (Toy.trim_no_space is_hex) by (apply Toy.hex_not_space || apply hex_chars).
  rewrite hex_round_trip. cbn [mbind option_bind]. rewrite slen_be, Nat.eqb_refl.
  cbn [mbind option_bind]. rewrite from_to_be, f_of_to; [done|].
  eapply N.lt_le_trans; [apply f_to_bound|]. now apply (N.pow_le_mono_r 2 254 256).
Qed.

End encoding.

(** The LFSR keeps its 80 bits. *)
Lemma length_raw_bit s : (0 < length s)%nat -> length (raw_bit s).2 = length s.
Proof. destruct s; cbn; [lia|]. rewrite length_app. cbn. lia. Qed.

(** ** A computable field and parameters

    The BN254 scalar field itself, with small parameters. *)
Module Toy_field.

Definition r : N := FR_MODULUS.
Definition elt : Type := { n : N | (n <? r) = true }.

Lemma reduce_ok n : (n mod r <? r) = true.
Proof. apply N.ltb_lt, N.mod_lt. discriminate. Qed.
Definition of_N (n : N) : elt := (n mod r) ↾ reduce_ok n.

Lemma elt_eq (x y : elt) : `x = `y -> x = y.
Proof. intros E. apply (sig_eq_pi _). exact E. Qed.

#[export] Instance elt_dec : EqDecision elt.
Proof.
  intros x y. destruct (decide (`x = `y)) as [E|E]; [left; now apply elt_eq|right; congruence].
Defined.

#[export] Instance toy_fr : Fr := {|
  F := elt;
  f_add x y := of_N (`x + `y);
  f_sub x y := of_N (`x + (r - `y));
  f_mul x y := of_N (`x * `y);
  f_inverse x := if `x =? 0 then None else Some x;
  f_of := of_N;
  f_to x := `x;
  f_from_random_bytes b := let n := from_be_bytes b in if n <? r then Some (of_N n) else None
|}.

#[export] Instance toy_fr_laws : FrLaws.
Proof.
  split; cbn; try done.
  intros [n Hn]. apply elt_eq. cbn. apply N.mod_small. now apply N.ltb_lt.
Qed.

#[export] Instance toy_params : Params := {| ark := []; mds := [[of_N 2; of_N 3; of_N 1]; [of_N 1; of_N 1; of_N 1]; [of_N 1; of_N 2; of_N 5]] |}.
End Toy_field.
