(* ===== verification/Shielded.v ===== *)
(** shielded.rs: notes, and the commitment tree of the shielded pool.

    The tree is specified by [subtree]: the perfect binary tree of depth 32 over
    the leaves, zero leaves after the last.  The root the node recomputes from
    its leaf list is the root of that tree, authentication paths verify against
    it, and a verifying path names the leaf it claims or exhibits a
    collision of the compression.
    The pool's store operations are in State.v, its consensus rules in Exec.v. *)

From S2P Require Import Prelude Bytes Crypto Poseidon.

(* [src/src/shielded.rs 28-28 TREE_DEPTH] *)
Definition TREE_DEPTH : nat := 32.
(* [src/src/shielded.rs 33-33 SHIELDED_ACTIVATION_HEIGHT] *)
Definition SHIELDED_ACTIVATION_HEIGHT : N := U64_MAX.
(** [env] is the variable [INAZ_SHIELDED_ACTIVATION]. *)
(* [src/src/shielded.rs 38-43 activation_height] *)
Definition activation_height (env : option string) : N :=
  match env ≫= parse_u64 with Some h => h | None => SHIELDED_ACTIVATION_HEIGHT end.

(* [src/src/shielded.rs 48-57 Note] *)
Record Note := { n_owner : string; n_value : N; n_rho : string }.

Section shielded.
Context `{Compression}.

(* [src/src/shielded.rs 68-70 note_commitment] *)
Definition note_commitment (owner : F) (value : N) (rho : F) : F :=
  compress (compress owner (fr_u128 value)) rho.

(* [src/src/shielded.rs 60-64 Note::commitment] *)
Definition commitment `{Crypto} (n : Note) : result F :=
  owner ← ok_or (fr_from_hex (n_owner n)) "bad owner field";
  rho ← ok_or (fr_from_hex (n_rho n)) "bad rho field";
  Ok (note_commitment owner (n_value n) rho).

(* [src/src/shielded.rs 73-75 owner_tag] *)
Definition owner_tag (spend_key : F) : F := compress spend_key (f_of 0).

(* [src/src/shielded.rs 79-81 nullifier] *)
Definition nullifier (spend_key : F) (position : N) : F := compress spend_key (f_of position).

(* [src/src/shielded.rs 84-90 zero_subtree_root] *)
Fixpoint zero_subtree_root (depth : nat) : F :=
  match depth with
  | O => f_of 0
  | S d => let z := zero_subtree_root d in compress z z
  end.

(** One level up: neighbours are hashed together, a lone last node with the
    zero subtree. *)
Fixpoint next_level (zero : F) (level : list F) : list F :=
  match level with
  | [] => []
  | [x] => [compress x zero]
  | x :: y :: rest => compress x y :: next_level zero rest
  end.

(** [for dd in d..TREE_DEPTH], [n] levels left. *)
Fixpoint ride_up (n d : nat) (cur : F) : F :=
  match n with O => cur | S n' => ride_up n' (S d) (compress cur (zero_subtree_root d)) end.

Fixpoint root_go (n d : nat) (level : list F) : F :=
  match n with
  | O => nth 0 level (zero_subtree_root d)
  | S n' =>
    if Nat.leb (length level) 1 then ride_up n d (nth 0 level (zero_subtree_root d))
    else root_go n' (S d) (next_level (zero_subtree_root d) level)
  end.

(* [src/src/shielded.rs 98-119 root_from_leaves] *)
Definition root_from_leaves (leaves : list F) : F := root_go TREE_DEPTH 0 leaves.

Fixpoint path_go (n d : nat) (level : list F) (idx : nat) : list F :=
  match n with
  | O => []
  | S n' =>
    let zero := zero_subtree_root d in
    let sibling := if Nat.even idx then nth (idx + 1) level zero else nth (idx - 1) level zero in
    sibling ::
    (if Nat.leb (length level) 1 then map (fun k => zero_subtree_root (S d + k)) (seq 0 n')
     else path_go n' (S d) (next_level zero level) (Nat.div2 idx))
  end.

(* [src/src/shielded.rs 122-158 merkle_path] *)
Definition merkle_path (leaves : list F) (pos : nat) : result (list F) :=
  if Nat.leb (length leaves) pos then Err "leaf index out of range"
  else Ok (take TREE_DEPTH (path_go TREE_DEPTH 0 leaves pos)).

Fixpoint walk (level : nat) (pos : N) (cur : F) (path : list F) : F :=
  match path with
  | [] => cur
  | sibling :: rest =>
    walk (S level) pos
      (if N.testbit pos (N.of_nat level) then compress sibling cur else compress cur sibling) rest
  end.

(* [src/src/shielded.rs 161-174 verify_path] *)
Definition verify_path (leaf : F) (pos : N) (path : list F) (root : F) : bool :=
  if negb (Nat.eqb (length path) TREE_DEPTH) then false
  else bool_decide (walk 0 pos leaf path = root).

(** ** The reference tree *)

(** Node [i] of level [d], counted from the leaves. *)
Fixpoint subtree (leaves : list F) (d i : nat) : F :=
  match d with
  | O => nth i leaves (f_of 0)
  | S d' => compress (subtree leaves d' (2 * i)) (subtree leaves d' (2 * i + 1))
  end.

(** A level, with zero subtrees after its last node. *)
Definition represents (leaves : list F) (d : nat) (level : list F) : Prop :=
  forall i, nth i level (zero_subtree_root d) = subtree leaves d i.

Lemma nth_next_level z : forall level i,
  nth i (next_level z level) (compress z z) = compress (nth (2 * i) level z) (nth (2 * i + 1) level z).
Proof.
  intros level. induction level as [|x|x y rest IH] using list_pair_ind; intros i.
  - rewrite !nth_overflow by (cbn; lia). done.
  - destruct i as [|i]; [done|]. rewrite !nth_overflow by (cbn [length next_level]; lia). done.
  - destruct i as [|i]; [done|].
    replace (2 * S i)%nat with (S (S (2 * i))) by lia.
    replace (S (S (2 * i)) + 1)%nat with (S (S (2 * i + 1))) by lia. cbn -[Nat.mul Nat.add]. apply IH.
Qed.

Lemma represents_next leaves d level :
  represents leaves d level -> represents leaves (S d) (next_level (zero_subtree_root d) level).
Proof. intros Hr i. cbn. rewrite nth_next_level, !Hr. do 2 f_equal; lia. Qed.

(** Beyond the only node of a level, every subtree is zero. *)
Definition lone (leaves : list F) (d : nat) : Prop :=
  forall i, (1 <= i)%nat -> subtree leaves d i = zero_subtree_root d.

Lemma represents_lone leaves d level :
  represents leaves d level -> (length level <= 1)%nat -> lone leaves d.
Proof. intros Hr Hl i Hi. rewrite <- Hr. apply nth_overflow. lia. Qed.

Lemma lone_S leaves d : lone leaves d -> lone leaves (S d).
Proof. intros Hl i Hi. cbn. rewrite !Hl by lia. done. Qed.

Lemma lone_add leaves d k : lone leaves d -> lone leaves (d + k).
Proof.
  induction k as [|k IH]; intros Hl; [now rewrite Nat.add_0_r|].
  rewrite Nat.add_succ_r. now apply lone_S, IH.
Qed.

Lemma ride_up_subtree leaves n : forall d, lone leaves d ->
  ride_up n d (subtree leaves d 0) = subtree leaves (d + n) 0.
Proof.
  induction n as [|n IH]; intros d Hl; [now rewrite Nat.add_0_r|]. cbn [ride_up].
  rewrite <- (Hl 1%nat) by lia. rewrite Nat.add_succ_r. exact (IH (S d) (lone_S leaves d Hl)).
Qed.

Lemma root_go_subtree leaves n : forall d level, represents leaves d level ->
  root_go n d level = subtree leaves (d + n) 0.
Proof.
  induction n as [|n IH]; intros d level Hr; cbn [root_go]; [now rewrite Nat.add_0_r|].
  destruct (Nat.leb_spec (length level) 1) as [Hl|Hl].
  - rewrite (Hr 0%nat). now apply ride_up_subtree, (represents_lone _ _ level).
  - rewrite (IH (S d)) by now apply represents_next. f_equal. lia.
Qed.

Definition sibling_of (i : nat) : nat := if Nat.even i then (i + 1)%nat else (i - 1)%nat.

Lemma length_next_level z : forall level, length (next_level z level) = Nat.div2 (S (length level)).
Proof.
  intros level. induction level as [| |x y rest IH] using list_pair_ind; [done..|].
  cbn [next_level length]. rewrite IH. done.
Qed.

Lemma path_go_spec leaves n : forall d level idx,
  represents leaves d level -> (idx < length level)%nat ->
  path_go n d level idx = map (fun k => subtree leaves (d + k) (sibling_of (Nat.div idx (2 ^ k)))) (seq 0 n).
Proof.
  induction n as [|n IH]; intros d level idx Hr Hi; [done|].
  cbn [path_go seq map]. f_equal.
  - rewrite !Hr, Nat.add_0_r. unfold sibling_of. rewrite Nat.pow_0_r, Nat.div_1_r. now destruct (Nat.even idx).
  - rewrite <- seq_shift, map_map.
    destruct (Nat.leb_spec (length level) 1) as [Hl|Hl].
    + apply map_ext. intros k. replace (S d + k)%nat with (d + S k)%nat by lia.
      assert (idx = 0)%nat as -> by lia. rewrite Nat.Div0.div_0_l.
      symmetry. apply (lone_add leaves d (S k)); [now apply (represents_lone _ _ level)|done].
    + rewrite (IH (S d)); [|now apply represents_next|].
      2: { rewrite length_next_level, !Nat.div2_div.
           apply (Nat.lt_le_trans _ ((1 * 2 + idx) / 2)); [rewrite Nat.div_add_l by lia; lia|].
           apply Nat.Div0.div_le_mono. lia. }
      apply map_ext. intros k. replace (S d + k)%nat with (d + S k)%nat by lia. do 2 f_equal.
      rewrite Nat.div2_div, Nat.Div0.div_div. f_equal.
Qed.

Lemma represents_leaves leaves : represents leaves 0 leaves.
Proof. intros i. done. Qed.

Lemma root_subtree leaves : root_from_leaves leaves = subtree leaves TREE_DEPTH 0.
Proof. apply (root_go_subtree leaves TREE_DEPTH 0), represents_leaves. Qed.

Lemma node_of_child leaves d i :
  subtree leaves (S d) (Nat.div2 i) =
  if Nat.odd i then compress (subtree leaves d (sibling_of i)) (subtree leaves d i)
  else compress (subtree leaves d i) (subtree leaves d (sibling_of i)).
Proof.
  cbn [subtree]. unfold sibling_of. rewrite <- Nat.negb_odd.
  pose proof (Nat.div2_odd i) as Hi. destruct (Nat.odd i); cbn [negb Nat.b2n] in *; do 2 f_equal; lia.
Qed.

Lemma odd_of_nat n : N.odd (N.of_nat n) = Nat.odd n.
Proof.
  enough (N.odd (N.of_nat n) = Nat.odd n /\ N.even (N.of_nat n) = Nat.even n) as [? _] by done.
  induction n as [|n [IHo IHe]]; [done|].
  now rewrite Nat2N.inj_succ, N.odd_succ, N.even_succ, Nat.odd_succ, Nat.even_succ.
Qed.

Lemma testbit_shift (pos d : nat) : N.testbit (N.of_nat pos) (N.of_nat d) = Nat.odd (pos / 2 ^ d).
Proof.
  rewrite N.testbit_odd, N.shiftr_div_pow2, <- odd_of_nat. f_equal.
  now rewrite Nat2N.inj_div, Nat2N.inj_pow.
Qed.

Definition siblings (leaves : list F) (d n pos : nat) : list F :=
  map (fun k => subtree leaves (d + k) (sibling_of (Nat.div pos (2 ^ (d + k))))) (seq 0 n).

Lemma siblings_S leaves d n pos :
  siblings leaves d (S n) pos =
  subtree leaves d (sibling_of (Nat.div pos (2 ^ d))) :: siblings leaves (S d) n pos.
Proof.
  unfold siblings. cbn [seq map]. rewrite Nat.add_0_r. f_equal.
  rewrite <- seq_shift, map_map. apply map_ext. intros k. now rewrite Nat.add_succ_r.
Qed.

Lemma div2_shift pos d : Nat.div2 (pos / 2 ^ d) = (pos / 2 ^ S d)%nat.
Proof. rewrite Nat.div2_div, Nat.Div0.div_div. f_equal. cbn. lia. Qed.

Lemma walk_siblings leaves pos n : forall d,
  walk d (N.of_nat pos) (subtree leaves d (pos / 2 ^ d)) (siblings leaves d n pos)
  = subtree leaves (d + n) (pos / 2 ^ (d + n)).
Proof.
  induction n as [|n IH]; intros d; [now rewrite Nat.add_0_r|].
  rewrite siblings_S. cbn [walk]. rewrite testbit_shift, <- node_of_child, div2_shift.
  rewrite (IH (S d)). now rewrite Nat.add_succ_r.
Qed.
Lemma div_pow_0 pos d : N.of_nat pos < 2 ^ N.of_nat d -> Nat.div pos (2 ^ d) = 0%nat.
Proof.
  intros Hp. apply Nat2N.inj. rewrite Nat2N.inj_div, Nat2N.inj_pow. now apply N.div_small.
Qed.

(** The pairs compressed on the way up from [cur]. *)
Fixpoint walk_inputs (level : nat) (pos : N) (cur : F) (path : list F) : list (F * F) :=
  match path with
  | [] => []
  | sibling :: rest =>
    let pair := if N.testbit pos (N.of_nat level) then (sibling, cur) else (cur, sibling) in
    pair :: walk_inputs (S level) pos (compress pair.1 pair.2) rest
  end.

(** Two walks of one position that end in the same root start from the same
    node, or two of the pairs they compress collide. *)
Lemma walk_binding pos p1 : forall p2 d c1 c2, length p1 = length p2 -> walk d pos c1 p1 = walk d pos c2 p2 ->
  c1 = c2 \/ clash (uncurry compress) (walk_inputs d pos c1 p1) (walk_inputs d pos c2 p2).
Proof.
  induction p1 as [|s1 p1 IH]; intros [|s2 p2] d c1 c2 Hl E; try discriminate; [now left|].
  injection Hl as Hl. cbn [walk walk_inputs] in E |- *.
  assert (forall a b : F * F, compress a.1 a.2 = compress b.1 b.2 ->
    a = b \/ clash (uncurry compress) (a :: walk_inputs (S d) pos (compress a.1 a.2) p1)
              (b :: walk_inputs (S d) pos (compress b.1 b.2) p2)) as Hc.
  { intros [a1 a2] [b1 b2] Ec. apply clash_or; [left|left|exact Ec]. }
  destruct (N.testbit pos (N.of_nat d)); cbn [fst snd] in *.
  all: apply IH in E as [E|Ec]; [|right; now apply clash_cons|done].
  - apply (Hc (s1, c1) (s2, c2)) in E as [E|]; [left; congruence|now right].
  - apply (Hc (c1, s1) (c2, s2)) in E as [E|]; [left; congruence|now right].
Qed.

(** The pairs the tree itself compresses on the way up from a position. *)
Definition tree_inputs (leaves : list F) (pos : nat) : list (F * F) :=
  walk_inputs 0 (N.of_nat pos) (nth pos leaves (f_of 0)) (siblings leaves 0 TREE_DEPTH pos).

Lemma subtree_leaf leaves pos : subtree leaves 0 (pos / 2 ^ 0) = nth pos leaves (f_of 0).
Proof. now rewrite Nat.pow_0_r, Nat.div_1_r. Qed.

Lemma walk_tree leaves pos : N.of_nat pos < 2 ^ N.of_nat TREE_DEPTH ->
  walk 0 (N.of_nat pos) (nth pos leaves (f_of 0)) (siblings leaves 0 TREE_DEPTH pos) = root_from_leaves leaves.
Proof.
  intros Hp. rewrite <- subtree_leaf, walk_siblings, root_subtree, Nat.add_0_l. now rewrite div_pow_0.
Qed.

Lemma walk_sound leaves pos cur path : N.of_nat pos < 2 ^ N.of_nat TREE_DEPTH -> length path = TREE_DEPTH ->
  walk 0 (N.of_nat pos) cur path = root_from_leaves leaves ->
  cur = nth pos leaves (f_of 0) \/
  clash (uncurry compress) (walk_inputs 0 (N.of_nat pos) cur path) (tree_inputs leaves pos).
Proof.
  intros Hp Hl E. apply walk_binding; [unfold siblings; now rewrite length_map, length_seq|]. now rewrite walk_tree.
Qed.

Lemma merkle_path_siblings leaves pos : (pos < length leaves)%nat ->
  merkle_path leaves pos = Ok (siblings leaves 0 TREE_DEPTH pos).
Proof.
  intros Hp. unfold merkle_path. rewrite (proj2 (Nat.leb_gt _ _) Hp). f_equal.
  rewrite (path_go_spec leaves) by (apply represents_leaves || done).
  apply firstn_all2. unfold siblings. now rewrite length_map, length_seq.
Qed.

Lemma verify_path_walk leaf pos path root :
  verify_path leaf pos path root = true <-> length path = TREE_DEPTH /\ walk 0 pos leaf path = root.
Proof.
  unfold verify_path. generalize TREE_DEPTH. intros depth.
  destruct (Nat.eqb_spec (length path) depth); cbn [negb]; rewrite ?bool_decide_eq_true; [tauto|].
  split; [done|now intros [? _]].
Qed.

Lemma length_siblings leaves n pos : length (siblings leaves 0 n pos) = n.
Proof. unfold siblings. now rewrite length_map, length_seq. Qed.

Lemma verify_path_siblings leaves pos : N.of_nat pos < 2 ^ N.of_nat TREE_DEPTH ->
  verify_path (nth pos leaves (f_of 0)) (N.of_nat pos) (siblings leaves 0 TREE_DEPTH pos) (root_from_leaves leaves) = true.
Proof. intros Hp. apply verify_path_walk. split; [apply length_siblings|now apply walk_tree]. Qed.

Lemma verify_path_sound leaves pos leaf path : N.of_nat pos < 2 ^ N.of_nat TREE_DEPTH ->
  verify_path leaf (N.of_nat pos) path (root_from_leaves leaves) = true ->
  leaf = nth pos leaves (f_of 0) \/
  clash (uncurry compress) (walk_inputs 0 (N.of_nat pos) leaf path) (tree_inputs leaves pos).
Proof. intros Hp [Hl Hw]%verify_path_walk. apply walk_sound; [exact Hp|exact Hl|exact Hw]. Qed.

(** Authentication paths of the commitment tree are complete and sound.
    [merkle_path] succeeds for every position that holds a leaf, and its path
    verifies against the root recomputed from the leaf list; conversely a path
    that verifies at the position proves the leaf stored there, or else it
    exhibits a collision of the compression function, between a pair it
    compresses and a pair the tree compresses on the way to the root. *)
Theorem merkle_path_correct (leaves : list F) (pos : nat) :
  (pos < length leaves)%nat -> N.of_nat (length leaves) <= 2 ^ N.of_nat TREE_DEPTH ->
  exists path, merkle_path leaves pos = Ok path /\
    verify_path (nth pos leaves (f_of 0)) (N.of_nat pos) path (root_from_leaves leaves) = true /\
    forall leaf other, verify_path leaf (N.of_nat pos) other (root_from_leaves leaves) = true ->
      leaf = nth pos leaves (f_of 0) \/
      clash (uncurry compress) (walk_inputs 0 (N.of_nat pos) leaf other) (tree_inputs leaves pos).
Proof.
  intros Hp Hl. assert (N.of_nat pos < 2 ^ N.of_nat TREE_DEPTH) as Hpos.
  { eapply N.lt_le_trans; [|exact Hl]. lia. }
  exists (siblings leaves 0 TREE_DEPTH pos).
  split; [now apply merkle_path_siblings|split; [now apply verify_path_siblings|]].
  intros leaf other E. exact (verify_path_sound leaves pos leaf other Hpos E).
Qed.
End shielded.

Lemma merkle_path_correct_witness :
  let _ := Toy_field.toy_fr in
  let _ : Compression := fun a b => f_add (f_mul a (f_of 3)) (f_add (f_mul b b) (f_of 1)) in
  let leaves := map f_of [11; 22; 33; 44; 55] in
  exists path, merkle_path leaves 4 = Ok path /\
    verify_path (f_of 55) 4 path (root_from_leaves leaves) = true.
Proof.
  intros. destruct (merkle_path_correct leaves 4) as (path & Hpath & Hv & _); [cbn; lia|vm_compute; discriminate|exists path; split; [exact Hpath|exact Hv]].
Defined.
