(* ===== verification/State.v ===== *)
(** state.rs: the typed tables over the store.

    Each table is one tree: the accounts and their stake index, the token
    registry and ledger, contracts, receipts, slashes, the shielded pool, the
    chain metadata and the blocks.  Every consensus row is mirrored by a leaf of
    the sparse Merkle tree, written by the same operation. *)

From S2P Require Import Prelude Bytes Crypto Types Journal Store Smt Poseidon Shielded.
From Stdlib Require Import Ascii.
From Stdlib Require String.

(** ** Table access *)

(** The rows of a tree in key order, as [tree.iter()]. *)
Definition rows (t : TreeId) (d : Db) : list (string * value) :=
  sort_by (fun a b => String.leb a.1 b.1)
    (omap (fun '((t', k), v) => if decide (t' = t) then Some (k, v) else None) (map_to_list d)).

(** The rows that parse as the type the reader asks for. *)
Definition parsed {A} (p : value -> option A) (l : list (string * value)) : list (string * A) :=
  omap (fun '(k, v) => a ← p v; Some (k, a)) l.

Definition as_account (v : value) : option Account := match v with VAccount a => Some a | _ => None end.
Definition as_block (v : value) : option Block := match v with VBlock b => Some b | _ => None end.
Definition as_token (v : value) : option Token := match v with VToken t => Some t | _ => None end.
Definition as_contract (v : value) : option Contract := match v with VContract c => Some c | _ => None end.
Definition as_receipt (v : value) : option Receipt := match v with VReceipt r => Some r | _ => None end.
Definition as_slash (v : value) : option SlashRecord := match v with VSlash s => Some s | _ => None end.
Definition as_bytes (v : value) : option string := match v with VBytes b => Some b | _ => None end.

(** [v.len() == 8] and [u64::from_be_bytes]. *)
Definition as_u64 (v : value) : option N :=
  b ← as_bytes v; if Nat.eqb (slen b) 8 then Some (from_be_bytes b) else None.
Definition u64_row (n : N) : value := VBytes (to_be_bytes 8 n).
Definition text_row (n : N) : value := VBytes (dec n).

(** A decimal row of the metadata tree, [default] when absent or unreadable. *)
Definition meta_number (max : N) (key : string) (default : N) (d : Db) : N :=
  match (v ← d !! (T_META, key); s ← as_bytes v; parse_uint max s) with
  | Some n => n
  | None => default
  end.
Definition meta_u64 (key : string) (d : Db) : option N := v ← d !! (T_META, key); as_u64 v.

Section state.
Context `{Crypto} `{Fr} `{!Compression}.

(** ** Leaf encodings *)

(* [src/src/state.rs 394-405 Store::account_leaf] *)
Definition account_leaf (a : Account) : string :=
  dec (balance a) +:+ "|" +:+ dec (nonce a) +:+ "|" +:+ dec (staked a) +:+ "|" +:+
  dec (unbonding_total a) +:+ "|" +:+ dec (rewards a).
(* [src/src/state.rs 407-413 Store::token_leaf] *)
Definition token_leaf (t : Token) : string :=
  t_symbol t +:+ "|" +:+ dec (t_decimals t) +:+ "|" +:+ dec (t_supply t) +:+ "|" +:+
  t_creator t +:+ "|" +:+ bool_text (t_mintable t).
(* [src/src/state.rs 415-417 Store::contract_leaf] *)
Definition contract_leaf (c : Contract) : string :=
  c_code_hash c +:+ "|" +:+ c_creator c +:+ "|" +:+ dec (c_created_height c).

(** ** Accounts *)

(* [src/src/state.rs 712-717 Store::account] *)
Definition account (addr : string) (d : Db) : Account :=
  match d !! (T_ACCOUNTS, addr) with
  | Some (VAccount a) => a
  | _ => default_account
  end.

(* [src/src/state.rs 719-729 Store::set_account] *)
Definition set_account (addr : string) (a : Account) : M unit :=
  jput T_ACCOUNTS addr (VAccount a) ;;
  smt_set "acct" addr (Some (account_leaf a)) ;;
  if (0 <? staked a) || negb (Nat.eqb (length (unbonding a)) 0)
  then jput T_STAKERS addr (VBytes "1")
  else jdel T_STAKERS addr.

(* [src/src/state.rs 731-733 Store::account_count] *)
Definition account_count (d : Db) : nat := length (rows T_ACCOUNTS d).

(* [src/src/state.rs 848-860 Store::stake_accounts] *)
Definition stake_accounts (d : Db) : list (string * Account) :=
  map (fun '(k, _) => (k, account k d)) (rows T_STAKERS d).

(** [unwrap_or_default()] on a row. *)
Definition account_row (v : value) : Account :=
  match v with VAccount a => a | _ => default_account end.

(* [src/src/state.rs 827-836 Store::total_supply] *)
Definition total_supply (d : Db) : N :=
  foldl (fun total '(_, v) =>
    let a := account_row v in total +! (balance a +! staked a +! unbonding_total a)) 0 (rows T_ACCOUNTS d).

(* [src/src/state.rs 838-844 Store::total_staked] *)
Definition total_staked (d : Db) : N :=
  foldl (fun total '(_, a) => total +! staked a) 0 (stake_accounts d).

(** ** Tokens *)

(* [src/src/state.rs 592-597 Store::token] *)
Definition token (id : string) (d : Db) : option Token := v ← d !! (T_TOKENS, id); as_token v.

(* [src/src/state.rs 599-604 Store::set_token] *)
Definition set_token (t : Token) : M unit :=
  jput T_TOKENS (t_id t) (VToken t) ;; smt_set "token" (t_id t) (Some (token_leaf t)).

(* [src/src/state.rs 606-608 Store::token_count] *)
Definition token_count (d : Db) : nat := length (rows T_TOKENS d).
(* [src/src/state.rs 611-620 Store::tokens] *)
Definition tokens (d : Db) : list Token :=
  sort_by (fun a b => String.leb (t_id a) (t_id b)) (map snd (parsed as_token (rows T_TOKENS d))).

(* [src/src/state.rs 622-624 Store::balance_key] *)
Definition balance_key (token addr : string) : string := token +:+ ":" +:+ addr.

(* [src/src/state.rs 626-631 Store::token_balance] *)
Definition token_balance (token addr : string) (d : Db) : N :=
  match (v ← d !! (T_TOKEN_BALANCES, balance_key token addr); s ← as_bytes v; parse_u128 s) with
  | Some n => n
  | None => 0
  end.

(* [src/src/state.rs 633-645 Store::set_token_balance] *)
Definition set_token_balance (token addr : string) (amount : N) : M unit :=
  let key := balance_key token addr in
  if amount =? 0 then
    jdel T_TOKEN_BALANCES key ;; smt_set "tokenbal" key None
  else
    jput T_TOKEN_BALANCES key (text_row amount) ;; smt_set "tokenbal" key (Some (dec amount)).

Definition with_supply (n : N) (t : Token) : Token :=
  Build_Token (t_id t) (t_symbol t) (t_name t) (t_decimals t) n (t_creator t) (t_mintable t)
    (t_created_height t) (t_holders t).
Definition with_holders (n : N) (t : Token) : Token :=
  Build_Token (t_id t) (t_symbol t) (t_name t) (t_decimals t) (t_supply t) (t_creator t) (t_mintable t)
    (t_created_height t) n.

(* [src/src/state.rs 653-668 Store::credit_token] *)
Definition credit_token (token_id addr : string) (amount : N) : M unit :=
  before ← gets (token_balance token_id addr);
  after ← lift (ok_or (checked_add128 before amount) "token balance overflow");
  mt ← gets (token token_id);
  match mt with
  | None => mret tt
  | Some t =>
    supply ← lift (ok_or (checked_add128 (t_supply t) amount) "token supply overflow");
    let t := with_supply supply t in
    set_token (if (before =? 0) && (0 <? amount) then with_holders (t_holders t +!! 1) t else t)
  end ;;
  set_token_balance token_id addr after.

(* [src/src/state.rs 671-686 Store::debit_token] *)
Definition debit_token (token_id addr : string) (amount : N) : M unit :=
  before ← gets (token_balance token_id addr);
  fail_if (before <? amount) "insufficient token balance" ;;
  let after := before -! amount in
  set_token_balance token_id addr after ;;
  mt ← gets (token token_id);
  match mt with
  | None => mret tt
  | Some t =>
    let t := with_supply (sat_sub (t_supply t) amount) t in
    set_token (if after =? 0 then with_holders (sat_sub (t_holders t) 1) t else t)
  end.

(* [src/src/state.rs 689-702 Store::token_holdings] *)
Definition token_holdings (addr : string) (d : Db) : list (Token * N) :=
  omap (fun t => let bal := token_balance (t_id t) addr d in
                 if 0 <? bal then Some (t, bal) else None) (tokens d).

(** ** Contracts *)

(* [src/src/state.rs 486-491 Store::contract] *)
Definition contract (addr : string) (d : Db) : option Contract :=
  v ← d !! (T_CONTRACTS, addr); as_contract v.
(* [src/src/state.rs 493-501 Store::set_contract] *)
Definition set_contract (c : Contract) : M unit :=
  jput T_CONTRACTS (c_address c) (VContract c) ;;
  smt_set "contract" (c_address c) (Some (contract_leaf c)).
(* [src/src/state.rs 503-505 Store::contract_count] *)
Definition contract_count (d : Db) : nat := length (rows T_CONTRACTS d).
(* [src/src/state.rs 508-517 Store::contracts] *)
Definition contracts (d : Db) : list Contract :=
  sort_by (fun a b => c_created_height b <=? c_created_height a)
    (map snd (parsed as_contract (rows T_CONTRACTS d))).
(* [src/src/state.rs 519-521 Store::put_code] *)
Definition put_code (hash code : string) : M unit := jput T_CONTRACT_CODE hash (VBytes code).
(* [src/src/state.rs 523-528 Store::code] *)
Definition code (hash : string) (d : Db) : option string := v ← d !! (T_CONTRACT_CODE, hash); as_bytes v.
(* [src/src/state.rs 530-532 Store::storage_key] *)
Definition storage_key (addr key : string) : string := addr +:+ ":" +:+ key.
(* [src/src/state.rs 534-539 Store::contract_storage] *)
Definition contract_storage (addr key : string) (d : Db) : option string :=
  v ← d !! (T_CONTRACT_STORAGE, storage_key addr key); as_bytes v.
(* [src/src/state.rs 541-553 Store::set_contract_storage] *)
Definition set_contract_storage (addr key : string) (v : option string) : M unit :=
  let k := storage_key addr key in
  match v with
  | Some b => jput T_CONTRACT_STORAGE k (VBytes b) ;; smt_set "cstorage" k (Some b)
  | None => jdel T_CONTRACT_STORAGE k ;; smt_set "cstorage" k None
  end.
(* [src/src/state.rs 571-574 Store::put_receipt] *)
Definition put_receipt (hash : string) (r : Receipt) : M unit := jput T_RECEIPTS hash (VReceipt r).
(* [src/src/state.rs 576-581 Store::receipt] *)
Definition receipt (hash : string) (d : Db) : option Receipt := v ← d !! (T_RECEIPTS, hash); as_receipt v.

(** ** Slashes *)

(* [src/src/state.rs 462-466 Store::put_slash] *)
Definition put_slash (r : SlashRecord) : M unit := jput T_SLASHES (s_id r) (VSlash r).
(* [src/src/state.rs 468-473 Store::slash] *)
Definition slash (id : string) (d : Db) : option SlashRecord := v ← d !! (T_SLASHES, id); as_slash v.
(* [src/src/state.rs 476-484 Store::slashes] *)
Definition slashes (d : Db) : list SlashRecord :=
  sort_by (fun a b => s_applied_height b <=? s_applied_height a)
    (map snd (parsed as_slash (rows T_SLASHES d))).

(** ** Fee market *)

(* [src/src/state.rs 440-447 Store::base_fee] *)
Definition base_fee (d : Db) : N := meta_number U128_MAX "base_fee" MIN_FEE d.
(* [src/src/state.rs 449-456 Store::set_base_fee] *)
Definition set_base_fee (fee : N) : M unit := jput T_META "base_fee" (text_row fee).

(** ** Shielded pool *)

(* [src/src/state.rs 252-254 Store::shielded_leaf_count] *)
Definition shielded_leaf_count (d : Db) : N := N.of_nat (length (rows T_SHIELDED_LEAVES d)).
(* [src/src/state.rs 257-266 Store::shielded_append] *)
Definition shielded_append (commitment : string) : M N :=
  pos ← gets shielded_leaf_count;
  jput T_SHIELDED_LEAVES (to_be_bytes 8 pos) (VBytes commitment) ;;
  mret pos.
(* [src/src/state.rs 269-275 Store::shielded_leaves] *)
Definition shielded_leaves (d : Db) : list string :=
  map snd (parsed as_bytes (rows T_SHIELDED_LEAVES d)).
(* [src/src/state.rs 277-279 Store::shielded_nullifier_seen] *)
Definition shielded_nullifier_seen (n : string) (d : Db) : bool :=
  bool_decide (is_Some (d !! (T_SHIELDED_NULLS, n))).
(* [src/src/state.rs 282-293 Store::shielded_burn_nullifier] *)
Definition shielded_burn_nullifier (n : string) (height : N) : M bool :=
  seen ← gets (shielded_nullifier_seen n);
  if (seen : bool) then mret false
  else jput T_SHIELDED_NULLS n (u64_row height) ;; mret true.
(* [src/src/state.rs 296-303 Store::shielded_seal_root] *)
Definition shielded_seal_root (root : string) (height : N) : M unit :=
  jput T_SHIELDED_ROOTS root (u64_row height).
(* [src/src/state.rs 305-307 Store::shielded_root_known] *)
Definition shielded_root_known (root : string) (d : Db) : bool :=
  bool_decide (is_Some (d !! (T_SHIELDED_ROOTS, root))).
(* [src/src/state.rs 310-318 Store::shielded_pool_balance] *)
Definition shielded_pool_balance (d : Db) : N := meta_number U128_MAX "shielded_pool" 0 d.
(* [src/src/state.rs 320-327 Store::shielded_set_pool_balance] *)
Definition shielded_set_pool_balance (bal : N) : M unit := jput T_META "shielded_pool" (text_row bal).
(* [src/src/state.rs 331-337 Store::shielded_verifying_key] *)
Definition shielded_verifying_key (d : Db) : option string :=
  v ← d !! (T_META, "shielded_vk"); b ← as_bytes v; hex_decode b.
(* [src/src/state.rs 339-341 Store::shielded_set_verifying_key] *)
Definition shielded_set_verifying_key (vk : string) : M unit :=
  jput T_META "shielded_vk" (VBytes (hex_encode vk)).
(* [src/src/state.rs 345-353 Store::shielded_last_sealed_count] *)
Definition shielded_last_sealed_count (d : Db) : N := meta_number U64_MAX "shielded_sealed" 0 d.
(* [src/src/state.rs 355-362 Store::shielded_set_last_sealed_count] *)
Definition shielded_set_last_sealed_count (n : N) : M unit := jput T_META "shielded_sealed" (text_row n).

(** [key '=' value '|'] for every row. *)
Definition dump_rows (l : list (string * value)) : string :=
  foldr (fun '(k, v) acc => k +:+ "=" +:+ match as_bytes v with Some b => b | None => "" end +:+ "|" +:+ acc) "" l.

(* [src/src/state.rs 816-825 Store::shielded_nulls_digest] *)
Definition shielded_nulls_digest (d : Db) : string := hash_hex (dump_rows (rows T_SHIELDED_NULLS d)).

(** The pool's tree root over the leaves that parse. *)
Definition shielded_root (d : Db) : string :=
  fr_to_hex (root_from_leaves (omap fr_from_hex (shielded_leaves d))).

(* [src/src/state.rs 367-374 Store::shielded_seal_into_state] *)
Definition shielded_seal_into_state (root : string) : M unit :=
  smt_set "shielded" "root" (Some root) ;;
  pool ← gets (fun d => dec (shielded_pool_balance d));
  smt_set "shielded" "pool" (Some pool) ;;
  nulls ← gets shielded_nulls_digest;
  smt_set "shielded" "nulls" (Some nulls).

(** ** State roots *)

(* [src/src/state.rs 736-813 Store::state_root] *)
Definition state_root (d : Db) : string :=
  let cat := foldr String.append "" in
  let accounts := cat (map (fun '(k, v) => k +:+ "|" +:+ account_leaf (account_row v) +:+ "|") (rows T_ACCOUNTS d)) in
  let tokens := cat (map (fun '(k, t) => k +:+ "|" +:+ token_leaf t +:+ "|") (parsed as_token (rows T_TOKENS d))) in
  let contracts := cat (map (fun '(k, c) => k +:+ "|" +:+ contract_leaf c +:+ "|") (parsed as_contract (rows T_CONTRACTS d))) in
  hex_encode (sha256 (accounts +:+ tokens +:+ dump_rows (rows T_TOKEN_BALANCES d) +:+
    contracts +:+ dump_rows (rows T_CONTRACT_STORAGE d) +:+
    "shielded|" +:+ shielded_root d +:+ "|" +:+ dec (shielded_pool_balance d) +:+ "|" +:+
    shielded_nulls_digest d +:+ "|")).

(* [src/src/state.rs 13-13 STATE_ROOT_V2_ACTIVATION_HEIGHT] *)
Definition STATE_ROOT_V2_ACTIVATION_HEIGHT : N := 200000.
(* [src/src/state.rs 184-186 Store::merkle_root] *)
Definition merkle_root (d : Db) : string := root_hex d.
(* [src/src/state.rs 190-194 Store::merkle_proof] *)
Definition merkle_proof (domain key : string) (d : Db) : string * (string * list string * string) :=
  (root_hex d, smt_proof d domain key).
(* [src/src/state.rs 198-237 Store::merkle_leaf_value] *)
Definition merkle_leaf_value (domain key : string) (d : Db) : option string :=
  if String.eqb domain "acct" then v ← d !! (T_ACCOUNTS, key); a ← as_account v; Some (account_leaf a)
  else if String.eqb domain "token" then v ← d !! (T_TOKENS, key); t ← as_token v; Some (token_leaf t)
  else if String.eqb domain "tokenbal" then v ← d !! (T_TOKEN_BALANCES, key); as_bytes v
  else if String.eqb domain "contract" then v ← d !! (T_CONTRACTS, key); c ← as_contract v; Some (contract_leaf c)
  else if String.eqb domain "cstorage" then v ← d !! (T_CONTRACT_STORAGE, key); as_bytes v
  else None.
(* [src/src/state.rs 241-247 Store::state_root_at] *)
Definition state_root_at (height : N) (d : Db) : string :=
  if height <? STATE_ROOT_V2_ACTIVATION_HEIGHT then state_root d else merkle_root d.

Definition set_leaves (domain : string) (l : list (string * string)) : M unit :=
  for_each l (fun '(k, leaf) => smt_set domain k (Some leaf)).

(* [src/src/state.rs 389-433 Store::build_merkle_state] *)
Definition build_merkle_state `{ChainParams} (height : N) (s : Store) : result unit * Store :=
  (rs ← gets (fun d t => rows t d);
   set_leaves "acct" (map (fun '(k, a) => (k, account_leaf a)) (parsed as_account (rs T_ACCOUNTS))) ;;
   set_leaves "token" (map (fun '(k, t) => (k, token_leaf t)) (parsed as_token (rs T_TOKENS))) ;;
   set_leaves "tokenbal" (parsed as_bytes (rs T_TOKEN_BALANCES)) ;;
   set_leaves "contract" (map (fun '(k, c) => (k, contract_leaf c)) (parsed as_contract (rs T_CONTRACTS))) ;;
   set_leaves "cstorage" (parsed as_bytes (rs T_CONTRACT_STORAGE)) ;;
   when_ (shielded_activation <=? height)
     (root ← gets shielded_root; shielded_seal_into_state root) ;;
   jput T_META "smt_version" (VBytes "1"))
  (raw_filter (fun k => negb (bool_decide (k.1 = T_SMT))) s).

(* [src/src/state.rs 436-438 Store::merkle_ready] *)
Definition merkle_ready (d : Db) : bool := bool_decide (is_Some (d !! (T_META, "smt_version"))).

(** ** Blocks *)

Definition height_key (h : N) : string := to_be_bytes 8 h.

(* [src/src/state.rs 872-897 Store::put_block] *)
Definition put_block (b : Block) : M unit :=
  jput T_BLOCKS (height_key (b_height b)) (VBlock b) ;;
  for_each (b_transactions b) (fun tx => jput T_TXS (tx_hash tx) (u64_row (b_height b))) ;;
  jput T_META "tip_height" (u64_row (b_height b)) ;;
  jput T_META "tip_hash" (VBytes (b_hash b)).

(* [src/src/state.rs 899-904 Store::block] *)
Definition block (h : N) (d : Db) : option Block := v ← d !! (T_BLOCKS, height_key h); as_block v.
(* [src/src/state.rs 906-915 Store::tx_height] *)
Definition tx_height (hash : string) (d : Db) : option N := v ← d !! (T_TXS, hash); as_u64 v.
(* [src/src/state.rs 917-919 Store::tx_count] *)
Definition tx_count (d : Db) : nat := length (rows T_TXS d).
(* [src/src/state.rs 921-930 Store::tip_height] *)
Definition tip_height (d : Db) : option N := meta_u64 "tip_height" d.
(* [src/src/state.rs 932-937 Store::tip_hash] *)
Definition tip_hash (d : Db) : string :=
  match d !! (T_META, "tip_hash") with Some (VBytes b) => b | _ => "" end.
(* [src/src/state.rs 939-941 Store::is_initialized] *)
Definition is_initialized (d : Db) : bool := bool_decide (is_Some (tip_height d)).

(** ** Finality *)

(* [src/src/state.rs 946-955 Store::finalized_height] *)
Definition finalized_height (d : Db) : N :=
  match meta_u64 "finalized_height" d with Some h => h | None => 0 end.
(* [src/src/state.rs 957-968 Store::set_finalized_height] *)
Definition set_finalized_height (h : N) : M unit :=
  old ← gets finalized_height;
  if h <=? old then mret tt else jput T_META "finalized_height" (u64_row h).

(* [src/src/state.rs 977-982 Store::state_checkpoint] *)
Definition state_checkpoint (d : Db) : option (N * string) :=
  v ← d !! (T_META, "state_checkpoint");
  b ← as_bytes v;
  '(h, root) ← split_once ":"%char b;
  h ← parse_u64 h;
  Some (h, root).
(* [src/src/state.rs 984-990 Store::set_state_checkpoint] *)
Definition set_state_checkpoint (h : N) (root : string) : Store -> Store :=
  raw_put T_META "state_checkpoint" (VBytes (dec h +:+ ":" +:+ root)).

(** ** Reset *)

Definition cleared_tree (t : TreeId) : bool :=
  match t with
  | T_META | T_CONTRACT_CODE => false
  | _ => true
  end.
Definition cleared_meta : list string :=
  ["shielded_pool"; "shielded_sealed"; "shielded_vk"; "tip_height"; "tip_hash"; "state_checkpoint"].
Definition survives_reset (k : Key) : bool :=
  negb (cleared_tree k.1) && negb (bool_decide (k.1 = T_META /\ k.2 ∈ cleared_meta)).

(* [src/src/state.rs 994-1034 Store::reset_chain] *)
Definition reset_chain : Store -> Store := raw_filter survives_reset.

(** ** Operator surface *)

(* [src/src/state.rs 1041-1053 SNAPSHOT_TABLES] *)
Definition SNAPSHOT_TABLES : list string :=
  ["accounts"; "stakers"; "tokens"; "token_balances"; "contracts"; "contract_code";
   "contract_storage"; "slashes"; "shielded_leaves"; "shielded_nulls"; "shielded_roots"].

(* [src/src/state.rs 1056-1072 Store::table] *)
Definition table (name : string) : option TreeId :=
  if String.eqb name "accounts" then Some T_ACCOUNTS
  else if String.eqb name "stakers" then Some T_STAKERS
  else if String.eqb name "tokens" then Some T_TOKENS
  else if String.eqb name "token_balances" then Some T_TOKEN_BALANCES
  else if String.eqb name "contracts" then Some T_CONTRACTS
  else if String.eqb name "contract_code" then Some T_CONTRACT_CODE
  else if String.eqb name "contract_storage" then Some T_CONTRACT_STORAGE
  else if String.eqb name "slashes" then Some T_SLASHES
  else if String.eqb name "receipts" then Some T_RECEIPTS
  else if String.eqb name "shielded_leaves" then Some T_SHIELDED_LEAVES
  else if String.eqb name "shielded_nulls" then Some T_SHIELDED_NULLS
  else if String.eqb name "shielded_roots" then Some T_SHIELDED_ROOTS
  else None.

(* [src/src/state.rs 1075-1083 Store::raw_dump] *)
Definition raw_dump (name : string) (d : Db) : list (string * value) :=
  match table name with None => [] | Some t => rows t d end.

(* [src/src/state.rs 1086-1097 Store::raw_restore] *)
Definition raw_restore (name : string) (entries : list (string * value)) (s : Store) : result unit * Store :=
  match table name with
  | None => (Err ("unknown table " +:+ name), s)
  | Some t =>
    (Ok tt, foldl (fun s '(k, v) => raw_put t k v s) (raw_filter (fun k => negb (bool_decide (k.1 = t))) s) entries)
  end.

(* [src/src/state.rs 1104-1107 Store::set_halt] *)
Definition set_halt (reason : string) : M unit := jput T_META "halt_reason" (VBytes reason).
(* [src/src/state.rs 1109-1112 Store::clear_halt] *)
Definition clear_halt : M unit := jdel T_META "halt_reason".
(* [src/src/state.rs 1114-1119 Store::halt_reason] *)
Definition halt_reason (d : Db) : option string := v ← d !! (T_META, "halt_reason"); as_bytes v.

(* [src/src/state.rs 1124-1133 Store::pruned_below] *)
Definition pruned_below (d : Db) : N :=
  match meta_u64 "pruned_below" d with Some h => h | None => 0 end.
(* [src/src/state.rs 1136-1139 Store::mark_pruned_below] *)
Definition mark_pruned_below (h : N) : M unit := jput T_META "pruned_below" (u64_row h).

(** The heights [lo .. lo + n]. *)
Definition heights_from (lo : N) (n : nat) : list N := map (fun i => lo + N.of_nat i) (seq 0 n).

Definition prune_one (acc : N * Store) (h : N) : N * Store :=
  let '(removed, s) := acc in
  match db s !! (T_BLOCKS, height_key h) with
  | None => (removed, s)
  | Some v =>
    let s := match as_block v with
      | Some b => foldl (fun s tx => raw_del T_RECEIPTS (tx_hash tx) (raw_del T_TXS (tx_hash tx) s)) s (b_transactions b)
      | None => s
      end in
    (removed + 1, raw_del T_BLOCKS (height_key h) s)
  end.

(* [src/src/state.rs 1148-1180 Store::prune_blocks] *)
Definition prune_blocks (below : N) (s : Store) : N * Store :=
  let below := N.min below (finalized_height (db s)) in
  if below <=? 1 then (0, s)
  else
    let lo := N.max (pruned_below (db s)) 1 in
    let '(removed, s) := foldl prune_one (0, s) (heights_from lo (N.to_nat (below - lo))) in
    if 0 <? removed then (removed, put (T_META, "pruned_below") (u64_row below) s) else (removed, s).
End state.
