(* ===== verification/StateFacts.v ===== *)
(** Facts about the tables of State.v: every operation goes through the undo
    log, touches only its own trees and the Merkle tree, and reads back what it
    wrote; the stake index lists exactly the accounts with stake or unbonds; the
    measure [funds] of all native coins. *)

From S2P Require Import Prelude Bytes Crypto Types Journal Store Smt SmtFacts Poseidon Shielded State.
From Stdlib Require Import Ascii.

Section facts.
Context {HC : Crypto} {HF : Fr} {HK : Compression}.

(** ** The undo log *)

#[export] Instance journaled_set_account addr a : Journaled (set_account addr a).
Proof. unfold set_account. journaled. Qed.
#[export] Instance journaled_set_token t : Journaled (set_token t).
Proof. unfold set_token. journaled. Qed.
#[export] Instance journaled_set_token_balance t a n : Journaled (set_token_balance t a n).
Proof. unfold set_token_balance. journaled. Qed.
#[export] Instance journaled_credit_token t a n : Journaled (credit_token t a n).
Proof. unfold credit_token. journaled. Qed.
#[export] Instance journaled_debit_token t a n : Journaled (debit_token t a n).
Proof. unfold debit_token. journaled. Qed.
#[export] Instance journaled_set_contract c : Journaled (set_contract c).
Proof. unfold set_contract. journaled. Qed.
#[export] Instance journaled_put_code h c : Journaled (put_code h c).
Proof. apply _. Qed.
#[export] Instance journaled_set_contract_storage a k v : Journaled (set_contract_storage a k v).
Proof. unfold set_contract_storage. journaled. Qed.
#[export] Instance journaled_put_receipt h r : Journaled (put_receipt h r).
Proof. apply _. Qed.
#[export] Instance journaled_put_slash r : Journaled (put_slash r).
Proof. apply _. Qed.
#[export] Instance journaled_set_base_fee n : Journaled (set_base_fee n).
Proof. apply _. Qed.
#[export] Instance journaled_shielded_append c : Journaled (shielded_append c).
Proof. unfold shielded_append. journaled. Qed.
#[export] Instance journaled_shielded_burn_nullifier n h : Journaled (shielded_burn_nullifier n h).
Proof. unfold shielded_burn_nullifier. journaled. Qed.
#[export] Instance journaled_shielded_seal_root r h : Journaled (shielded_seal_root r h).
Proof. apply _. Qed.
#[export] Instance journaled_shielded_set_pool_balance n : Journaled (shielded_set_pool_balance n).
Proof. apply _. Qed.
#[export] Instance journaled_shielded_set_last_sealed_count n : Journaled (shielded_set_last_sealed_count n).
Proof. apply _. Qed.
#[export] Instance journaled_shielded_seal_into_state r : Journaled (shielded_seal_into_state r).
Proof. unfold shielded_seal_into_state. journaled. Qed.
#[export] Instance journaled_put_block b : Journaled (put_block b).
Proof. unfold put_block. journaled. Qed.
#[export] Instance journaled_set_finalized_height h : Journaled (set_finalized_height h).
Proof. unfold set_finalized_height. journaled. Qed.

(** ** Frames *)

(** Trees other than the Merkle tree. *)
Definition not_smt (t : TreeId) : Prop := t <> T_SMT.
(** Trees an account update leaves alone. *)
Definition not_account (t : TreeId) : Prop := t <> T_SMT /\ t <> T_ACCOUNTS /\ t <> T_STAKERS.
Definition not_token (t : TreeId) : Prop := t <> T_SMT /\ t <> T_TOKENS /\ t <> T_TOKEN_BALANCES.

Lemma steps_put_node P depth path h : (forall t, P t -> not_smt t) -> Steps (same_on P) (put_node depth path h).
Proof.
  intros HP. unfold put_node. destruct (String.eqb _ _);
    [apply steps_jdel_same|apply steps_jput_same]; intros E; now apply HP in E.
Qed.

Lemma steps_climb P path n : (forall t, P t -> not_smt t) -> forall cur, Steps (same_on P) (climb path n cur).
Proof.
  intros HP. pose proof (fun d p h => steps_put_node P d p h HP).
  induction n as [|n IH]; intros cur; cbn [climb]; steps.
Qed.

Lemma steps_smt_set P dom key v : (forall t, P t -> not_smt t) -> Steps (same_on P) (smt_set dom key v).
Proof.
  intros HP. unfold smt_set. pose proof (fun d p h => steps_put_node P d p h HP).
  pose proof (fun p n => steps_climb P p n HP). cbv zeta. steps.
Qed.

Lemma smt_set_other dom key v d t k : t <> T_SMT -> db_after (smt_set dom key v) d !! (t, k) = d !! (t, k).
Proof. intros Ht. now apply (steps_smt_set not_smt). Qed.

Lemma run_smt_set dom key v d : run (smt_set dom key v) d = (Ok tt, db_after (smt_set dom key v) d).
Proof. unfold run. now rewrite res_smt_set. Qed.

Lemma same_smt_set dom key v d : same_on not_smt d (db_after (smt_set dom key v) d).
Proof. now apply (steps_smt_set not_smt). Qed.

(** ** Accounts *)

Lemma run_set_account addr a d : run (set_account addr a) d = (Ok tt, db_after (set_account addr a) d).
Proof.
  enough ((run (set_account addr a) d).1 = Ok tt) by (unfold run in *; cbn in *; congruence).
  unfold set_account. runs. rewrite run_smt_set. case_match; now runs.
Qed.

Lemma set_account_rows addr a d t k : t <> T_SMT ->
  db_after (set_account addr a) d !! (t, k) =
  if decide ((t, k) = (T_ACCOUNTS, addr)) then Some (VAccount a)
  else if decide ((t, k) = (T_STAKERS, addr)) then
    (if (0 <? staked a) || negb (Nat.eqb (length (unbonding a)) 0) then Some (VBytes "1") else None)
  else d !! (t, k).
Proof.
  intros Ht.
  assert (db_after (set_account addr a) d =
    (if (0 <? staked a) || negb (Nat.eqb (length (unbonding a)) 0)
     then insert (T_STAKERS, addr) (VBytes "1") else delete (T_STAKERS, addr))
    (db_after (smt_set "acct" addr (Some (account_leaf a))) (<[(T_ACCOUNTS, addr) := VAccount a]> d))) as ->.
  { change (db_after (set_account addr a) d) with (run (set_account addr a) d).2.
    unfold set_account. runs. rewrite run_smt_set. case_match; now runs. }
  destruct (decide ((t, k) = (T_ACCOUNTS, addr))) as [E|E].
  - injection E as -> ->. destruct (_ || _); [rewrite lookup_insert_ne by done|rewrite lookup_delete_ne by done];
      rewrite smt_set_other by done; apply lookup_insert_eq.
  - case_decide as E2.
    + rewrite E2. destruct (_ || _); [apply lookup_insert_eq|apply lookup_delete_eq].
    + destruct (_ || _); [rewrite lookup_insert_ne by done|rewrite lookup_delete_ne by done];
        rewrite smt_set_other by done; now apply lookup_insert_ne.
Qed.

Lemma set_account_same addr a d : same_on not_account d (db_after (set_account addr a) d).
Proof.
  intros t k (H1 & H2 & H3). rewrite set_account_rows by done. now rewrite !decide_False by congruence.
Qed.
#[export] Instance steps_set_account addr a : Steps (same_on not_account) (set_account addr a).
Proof. intros d. apply set_account_same. Qed.

Lemma account_set_account addr a b d :
  account b (db_after (set_account addr a) d) = if decide (b = addr) then a else account b d.
Proof.
  unfold account. rewrite set_account_rows by done. destruct (decide (b = addr)) as [->|Hne].
  - now rewrite decide_True.
  - now rewrite !decide_False by congruence.
Qed.

(** ** The measure of all native coins *)

Definition account_funds (a : Account) : N := balance a + staked a + sumN u_amount (unbonding a).
Definition row_funds (k : Key) (v : value) : N :=
  match k, v with (T_ACCOUNTS, _), VAccount a => account_funds a | _, _ => 0 end.
(** Liquid, staked and unbonding coins of every account. *)
Definition funds (d : Db) : N := msum row_funds d.

Lemma funds_same (P : TreeId -> Prop) d d' : P T_ACCOUNTS -> same_on P d d' -> funds d' = funds d.
Proof.
  intros HP Hs. apply (msum_agree _ (fun k => k.1 = T_ACCOUNTS)).
  - intros [t k] v Ht. destruct t; done.
  - intros [t k] E. cbn in E. subst t. now apply Hs.
Qed.

Lemma at_account addr d : at_key row_funds (T_ACCOUNTS, addr) d = account_funds (account addr d).
Proof. unfold at_key, account. destruct (d !! _) as [[]|]; done. Qed.

Lemma funds_account_le addr d : account_funds (account addr d) <= funds d.
Proof. rewrite <- at_account. apply msum_at_le. Qed.

Lemma funds_set_account addr a d :
  funds (db_after (set_account addr a) d) + account_funds (account addr d) = funds d + account_funds a.
Proof.
  pose proof (msum_insert row_funds (T_ACCOUNTS, addr) (VAccount a) d) as Hi. rewrite at_account in Hi.
  assert (funds (db_after (set_account addr a) d) = funds (<[(T_ACCOUNTS, addr) := VAccount a]> d)) as ->.
  { apply (funds_same (fun t => t = T_ACCOUNTS)); [done|]. intros t k ->.
    rewrite set_account_rows by done. destruct (decide (k = addr)) as [->|Hne].
    - now rewrite decide_True, lookup_insert_eq.
    - now rewrite !decide_False, lookup_insert_ne by congruence. }
  change (row_funds (T_ACCOUNTS, addr) (VAccount a)) with (account_funds a) in Hi. unfold funds. lia.
Qed.

(** ** The stake index *)

Definition staking (a : Account) : bool := (0 <? staked a) || negb (Nat.eqb (length (unbonding a)) 0).
Definition stakers_indexed (d : Db) : Prop :=
  forall addr, is_Some (d !! (T_STAKERS, addr)) <-> staking (account addr d) = true.

Lemma stakers_indexed_same d d' : same_on not_smt d d' -> stakers_indexed d -> stakers_indexed d'.
Proof.
  intros Hs Hi addr. unfold account. rewrite !Hs by done. apply Hi.
Qed.

Lemma stakers_indexed_set_account addr a d :
  stakers_indexed d -> stakers_indexed (db_after (set_account addr a) d).
Proof.
  intros Hi b. rewrite account_set_account, set_account_rows by done.
  rewrite (decide_False (P := (T_STAKERS, b) = (T_ACCOUNTS, addr))) by done.
  destruct (decide (b = addr)) as [->|Hne].
  - rewrite decide_True by done. unfold staking. destruct (_ || _); [|split; [intros [? ?]|]; done].
    split; [done|eauto].
  - rewrite decide_False by congruence. apply Hi.
Qed.

(** ** Rows in key order *)

Lemma elem_of_rows t k v d : (k, v) ∈ rows t d <-> d !! (t, k) = Some v.
Proof.
  unfold rows. rewrite sort_by_perm, list_elem_of_omap. split.
  - intros ([[t' k'] v'] & Hin & E). apply elem_of_map_to_list in Hin. case_decide; [|done].
    injection E as -> ->. now subst t'.
  - intros Hl. exists ((t, k), v). split; [now apply elem_of_map_to_list|]. now rewrite decide_True.
Qed.

Definition key_le {A} (a b : string * A) : Prop := String.leb a.1 b.1 = true.
#[export] Instance key_le_trans {A} : Transitive (@key_le A).
Proof. intros a b c. apply leb_trans. Qed.

Lemma rows_sorted t d : StronglySorted key_le (rows t d).
Proof.
  apply Sorted_StronglySorted; [apply _|]. apply sort_by_sorted. intros a b. apply leb_total_false.
Qed.

Lemma NoDup_rows t d : NoDup (rows t d).*1.
Proof.
  unfold rows. rewrite sort_by_perm. generalize (NoDup_fst_map_to_list d). generalize (map_to_list d). intros l.
  induction l as [|[[t' k] v] l IH]; intros Hn; [constructor|]. apply NoDup_cons in Hn as [Hx Hn].
  specialize (IH Hn). cbn. destruct (decide (t' = t)) as [->|]; [|done]. cbn. constructor; [|done].
  intros Hk. apply Hx. apply list_elem_of_fmap in Hk as ([k' v'] & E & Hk). cbn in E. subst k'.
  apply list_elem_of_omap in Hk as ([[t2 k2] v2] & Hin & E). case_decide; [|done]. injection E as -> ->.
  subst t2. apply list_elem_of_fmap. now exists (t, k, v').
Qed.

(** The rows of a tree depend on the tree only. *)
Lemma rows_ext t d1 d2 : (forall k, d1 !! (t, k) = d2 !! (t, k)) -> rows t d1 = rows t d2.
Proof.
  intros E. apply (StronglySorted_unique_strong key_le); [|apply rows_sorted..|].
  - intros [k1 v1] [k2 v2] H1%elem_of_rows H2%elem_of_rows Hle1 Hle2. cbn in Hle1, Hle2.
    assert (k1 = k2) as -> by now apply String.leb_antisym. rewrite E in H1. congruence.
  - apply NoDup_Permutation; [apply (NoDup_fmap_1 fst), NoDup_rows..|].
    intros [k v]. now rewrite !elem_of_rows, E.
Qed.

(** A row past all others of its tree comes last. *)
Lemma rows_append t k v d : Forall (fun r => String.leb r.1 k = true /\ r.1 <> k) (rows t d) -> rows t (<[(t, k) := v]> d) = rows t d ++ [(k, v)].
Proof.
  intros Hall. rewrite Forall_forall in Hall. apply (StronglySorted_unique_strong key_le); [|apply rows_sorted| |].
  - intros [k1 v1] [k2 v2] H1%elem_of_rows H2 Hle1 Hle2. cbn in Hle1, Hle2.
    assert (k1 = k2) as -> by now apply String.leb_antisym. f_equal. apply elem_of_app in H2 as [H2|H2].
    + pose proof (Hall _ H2) as [_ Hne]. cbn in Hne. apply elem_of_rows in H2. rewrite lookup_insert_ne in H1 by congruence. congruence.
    + apply list_elem_of_singleton in H2. injection H2 as -> ->. rewrite lookup_insert_eq in H1. congruence.
  - apply StronglySorted_app. split; [|split; [apply rows_sorted|repeat constructor]].
    intros r r' H1 H2%list_elem_of_singleton. subst r'. apply Hall in H1 as [H1 _]. exact H1.
  - apply NoDup_Permutation; [apply (NoDup_fmap_1 fst), NoDup_rows| |].
    + apply NoDup_app. split; [apply (NoDup_fmap_1 fst), NoDup_rows|]. split; [|apply NoDup_singleton].
      intros r H1 H2%list_elem_of_singleton. subst r. apply Hall in H1 as [_ H1]. now cbn in H1.
    + intros [k' v']. rewrite elem_of_rows, elem_of_app, elem_of_rows, list_elem_of_singleton, lookup_insert.
      case_decide as Hk; [injection Hk as <-|].
      * split; [intros [= ->]; now right|]. intros [H|[= ->]]; [|done]. apply elem_of_rows in H. apply Hall in H as [_ H]. now cbn in H.
      * split; [now left|]. intros [H|[= -> ->]]; [done|contradiction].
Qed.

Lemma elem_of_stake_accounts addr a d :
  (addr, a) ∈ stake_accounts d <-> is_Some (d !! (T_STAKERS, addr)) /\ a = account addr d.
Proof.
  unfold stake_accounts. split.
  - intros ([k v] & E & Hk)%list_elem_of_fmap. injection E as -> ->. apply elem_of_rows in Hk. eauto.
  - intros [[v Hv] ->]. apply list_elem_of_fmap. exists (addr, v). split; [done|]. now apply elem_of_rows.
Qed.

Lemma stake_accounts_sorted d : StronglySorted key_le (stake_accounts d).
Proof.
  unfold stake_accounts. pose proof (rows_sorted T_STAKERS d) as Hs.
  induction Hs as [|[k v] l _ IH Hf]; cbn; constructor; [done|].
  apply Forall_map. eapply Forall_impl; [exact Hf|]. intros [k' v'] Hk. exact Hk.
Qed.

Lemma NoDup_stake_accounts d : NoDup (stake_accounts d).*1.
Proof.
  unfold stake_accounts. pose proof (NoDup_rows T_STAKERS d) as Hn.
  replace (map _ (rows T_STAKERS d)).*1 with (rows T_STAKERS d).*1; [done|].
  induction (rows T_STAKERS d) as [|[k v] l IH]; [done|]. cbn. f_equal.
  apply IH. cbn in Hn. now inversion Hn.
Qed.

(** ** Metadata rows *)

Lemma split_once_app c a b : contains_char c a = false -> split_once c (a +:+ String c b) = Some (a, b).
Proof.
  induction a as [|x a IH]; cbn; [now rewrite Ascii.eqb_refl|].
  intros [Hx Ha]%orb_false_iff. rewrite Hx. now rewrite IH.
Qed.

Lemma checkpoint_reads height root s : height <= U64_MAX ->
  state_checkpoint (db (set_state_checkpoint height root s)) = Some (height, root).
Proof.
  intros Hh. unfold state_checkpoint, set_state_checkpoint, raw_put. cbn [db].
  rewrite lookup_insert_eq. cbn [mbind option_bind as_bytes].
  change (dec height +:+ ":" +:+ root) with (dec height +:+ String ":" root).
  rewrite split_once_app; [|apply (all_chars_not_contains is_digit); [apply all_digits_dec|done]].
  cbn [mbind option_bind]. unfold parse_u64. now rewrite parse_uint_dec.
Qed.

Lemma meta_number_bound max key def d : def <= max -> meta_number max key def d <= max.
Proof.
  intros Hd. unfold meta_number. destruct (_ ≫= _) as [n|] eqn:E; [|done].
  destruct (d !! (T_META, key)) as [v|]; [|done]. cbn in E. destruct (as_bytes v) as [b|]; [|done]. cbn in E.
  revert E. unfold parse_uint. destruct (match b with String "+" s' => s' | _ => b end); [done|].
  destruct (parse_digits _ _) as [x|]; [|done]. cbn. destruct (N.leb_spec x max); [|done]. now intros [= <-].
Qed.

Lemma u64_row_reads h : h <= U64_MAX -> as_u64 (u64_row h) = Some h.
Proof.
  intros Hh. unfold as_u64, u64_row. cbn [as_bytes mbind option_bind]. rewrite slen_be, Nat.eqb_refl.
  rewrite from_to_be; [done|]. change (256 ^ N.of_nat 8) with (U64_MAX + 1). lia.
Qed.
Lemma meta_number_dec max key n default d : n <= max -> d !! (T_META, key) = Some (text_row n) ->
  meta_number max key default d = n.
Proof. intros Hn E. unfold meta_number, text_row in *. rewrite E. cbn [mbind option_bind as_bytes]. now rewrite parse_uint_dec. Qed.
End facts.

#[global] Typeclasses Opaque set_account set_token set_token_balance credit_token debit_token
  set_contract put_code set_contract_storage put_receipt put_slash set_base_fee shielded_append
  shielded_burn_nullifier shielded_seal_root shielded_set_pool_balance shielded_set_last_sealed_count
  shielded_seal_into_state put_block set_finalized_height.
