(* ===== verification/Fees.v ===== *)
(** fees.rs: the base fee controller. *)

From S2P Require Import Prelude Types.

(* [src/src/chain.rs 33-33 MAX_TXS_PER_BLOCK] *)
Definition MAX_TXS_PER_BLOCK : N := 5000.

(* [src/src/fees.rs 14-14 FEE_MARKET_ACTIVATION_HEIGHT] *)
Definition FEE_MARKET_ACTIVATION_HEIGHT : N := 200000.
(* [src/src/fees.rs 16-16 TARGET_TXS_PER_BLOCK] *)
Definition TARGET_TXS_PER_BLOCK : N := MAX_TXS_PER_BLOCK / 2.
(* [src/src/fees.rs 18-18 MAX_CHANGE_PCT] *)
Definition MAX_CHANGE_PCT : N := 12.
(* [src/src/fees.rs 20-20 MAX_BASE_FEE] *)
Definition MAX_BASE_FEE : N := 1000000000.

(** [x.clamp(lo, hi)] for [lo <= hi]. *)
Definition clamp (lo hi x : N) : N := if x <? lo then lo else if hi <? x then hi else x.

(* [src/src/fees.rs 23-39 next_base_fee] *)
Definition next_base_fee (prev txs : N) : N :=
  let prev := N.max prev MIN_FEE in
  let target := TARGET_TXS_PER_BLOCK in
  let used := txs in
  let step := N.max (prev *! MAX_CHANGE_PCT / 100) 1 in
  let next :=
    if target <? used then
      let over := used -! target in
      prev +! step *! over / target
    else if used <? target then
      let under := target -! used in
      sat_sub prev (step *! under / target)
    else prev in
  clamp MIN_FEE MAX_BASE_FEE next.

(* [src/src/fees.rs 42-48 required_fee] *)
Definition required_fee (height base_fee : N) : N :=
  if height <? FEE_MARKET_ACTIVATION_HEIGHT then MIN_FEE else N.max base_fee MIN_FEE.

(** ** The controller *)

Lemma clamp_range lo hi x : lo <= hi -> lo <= clamp lo hi x <= hi.
Proof. intros. unfold clamp. repeat case_match; bool_hyps; lia. Qed.

(** The fraction of a step taken for a deviation of at most the target. *)
Lemma step_fraction step dev target : 0 < target -> dev <= target -> step * dev / target <= step.
Proof. intros. apply N.Div0.div_le_upper_bound. nia. Qed.

(** The step for an in-range fee, and the absence of wrap-around. *)
Definition fee_step (prev : N) : N := N.max (prev * MAX_CHANGE_PCT / 100) 1.

Lemma fee_step_bound prev : prev <= MAX_BASE_FEE -> fee_step prev <= MAX_BASE_FEE.
Proof.
  intros. unfold fee_step, MAX_CHANGE_PCT. apply N.max_lub; [|done].
  apply N.Div0.div_le_upper_bound. lia.
Qed.

Lemma next_base_fee_plain prev txs :
  MIN_FEE <= prev <= MAX_BASE_FEE -> txs <= MAX_TXS_PER_BLOCK ->
  next_base_fee prev txs =
  clamp MIN_FEE MAX_BASE_FEE
    (if TARGET_TXS_PER_BLOCK <? txs then prev + fee_step prev * (txs - TARGET_TXS_PER_BLOCK) / TARGET_TXS_PER_BLOCK
     else if txs <? TARGET_TXS_PER_BLOCK then prev - fee_step prev * (TARGET_TXS_PER_BLOCK - txs) / TARGET_TXS_PER_BLOCK
     else prev).
Proof.
  intros [Hlo Hhi] Ht. pose proof (fee_step_bound prev Hhi) as Hs.
  unfold next_base_fee. replace (N.max prev MIN_FEE) with prev by lia.
  unfold MAX_CHANGE_PCT, MAX_BASE_FEE, MIN_FEE, MAX_TXS_PER_BLOCK in *.
  rewrite (wmul_small 128 prev) by (rewrite pow_128; lia). change (N.max (prev * 12 / 100) 1) with (fee_step prev).
  change TARGET_TXS_PER_BLOCK with 2500.
  destruct (N.ltb_spec 2500 txs).
  - assert (fee_step prev * (txs - 2500) <= 1000000000 * 2500) by (apply N.mul_le_mono; lia).
    rewrite wsub_small, wmul_small by (rewrite ?pow_128; lia).
    assert (fee_step prev * (txs - 2500) / 2500 <= fee_step prev) by (apply step_fraction; lia).
    rewrite wadd_small by (rewrite pow_128; lia). done.
  - destruct (N.ltb_spec txs 2500); [|done].
    assert (fee_step prev * (2500 - txs) <= 1000000000 * 2500) by (apply N.mul_le_mono; lia).
    rewrite wsub_small, wmul_small by (rewrite ?pow_128; lia). done.
Qed.

(** the base fee always lies between [MIN_FEE] and [MAX_BASE_FEE]; from an
    in-range fee it never falls after a block above target, never rises after
    one below target, stays put at target, and one block moves it by at most one
    step (12 percent, at least 1 rai); no intermediate product wraps. *)
Theorem next_base_fee_controller prev txs :
  MIN_FEE <= next_base_fee prev txs <= MAX_BASE_FEE /\
  (MIN_FEE <= prev <= MAX_BASE_FEE -> txs <= MAX_TXS_PER_BLOCK ->
   let next := next_base_fee prev txs in
   (TARGET_TXS_PER_BLOCK < txs -> prev <= next) /\
   (txs < TARGET_TXS_PER_BLOCK -> next <= prev) /\
   (txs = TARGET_TXS_PER_BLOCK -> next = prev) /\
   next <= prev + fee_step prev /\ prev <= next + fee_step prev).
Proof.
  split; [apply clamp_range; discriminate|]. intros Hp Ht next. subst next.
  rewrite next_base_fee_plain by done. unfold MAX_TXS_PER_BLOCK in Ht.
  change TARGET_TXS_PER_BLOCK with 2500. unfold clamp, MIN_FEE, MAX_BASE_FEE in *.
  destruct (N.ltb_spec 2500 txs).
  - pose proof (step_fraction (fee_step prev) (txs - 2500) 2500 ltac:(lia) ltac:(lia)) as Hx.
    revert Hx. generalize (fee_step prev * (txs - 2500) / 2500). generalize (fee_step prev). intros step x Hx.
    repeat case_match; bool_hyps; repeat split; intros; lia.
  - destruct (N.ltb_spec txs 2500).
    + pose proof (step_fraction (fee_step prev) (2500 - txs) 2500 ltac:(lia) ltac:(lia)) as Hx.
      revert Hx. generalize (fee_step prev * (2500 - txs) / 2500). generalize (fee_step prev). intros step x Hx.
      repeat case_match; bool_hyps; repeat split; intros; lia.
    + repeat case_match; bool_hyps; repeat split; intros; lia.
Qed.

Lemma next_base_fee_controller_witness :
  next_base_fee 100000 5000 = 112000 /\ 100000 <= next_base_fee 100000 5000.
Proof.
  split; [reflexivity|].
  apply (proj1 (proj2 (next_base_fee_controller 100000 5000) ltac:(split; vm_compute; discriminate)
    ltac:(vm_compute; discriminate))). reflexivity.
Defined.
