(* ===== verification/Staking.v ===== *)
(** staking.rs: the validator set, stake-weighted leader election, block rewards
    and the release of matured unbonds. *)

From S2P Require Import Prelude Bytes Crypto Types Journal Store Smt SmtFacts Poseidon Shielded State StateFacts.
From Stdlib Require Import Ascii.
From Stdlib Require String.

(* [src/src/staking.rs 11-11 BLOCK_REWARD] *)
Definition BLOCK_REWARD : N := RAI_PER_INAZ / 100.
(* [src/src/staking.rs 13-13 LEADER_COMMISSION_PCT] *)
Definition LEADER_COMMISSION_PCT : N := 20.
(* [src/src/staking.rs 22-22 MAX_VALIDATORS] *)
Definition MAX_VALIDATORS : nat := 100.
(* [src/src/staking.rs 26-26 VALIDATOR_CAP_ACTIVATION_HEIGHT] *)
Definition VALIDATOR_CAP_ACTIVATION_HEIGHT : N := 2000000.

(* [src/src/staking.rs 29-40 Validator] *)
Record Validator := {
  v_address : string;
  v_stake : N;
  v_rewards : N;
  v_blocks_produced : N;
  v_jailed_until : N;
  v_tombstoned : bool;
  v_missed_slots : N;
  v_slashed : N
}.

Definition to_validator (x : string * Account) : Validator :=
  let '(addr, a) := x in
  {| v_address := addr; v_stake := staked a; v_rewards := rewards a; v_blocks_produced := blocks_produced a;
     v_jailed_until := jailed_until (penalties a); v_tombstoned := tombstoned (penalties a);
     v_missed_slots := missed_slots (penalties a); v_slashed := slashed (penalties a) |}.

Definition by_address (a b : Validator) : bool := String.leb (v_address a) (v_address b).
(** Stake descending, ties by address. *)
Definition by_stake (a b : Validator) : bool :=
  if v_stake b <? v_stake a then true
  else if v_stake a <? v_stake b then false
  else by_address a b.

(** Unlimited active set: the set before the cap. *)
Definition active_set (d : Db) (height : N) : list Validator :=
  map to_validator (List.filter (fun x => is_active_validator x.2 height) (stake_accounts d)).

(* [src/src/staking.rs 50-83 validator_set_at] *)
Definition validator_set_at (d : Db) (height : N) : list Validator :=
  let set := active_set d height in
  if (VALIDATOR_CAP_ACTIVATION_HEIGHT <=? height) && Nat.ltb MAX_VALIDATORS (length set) then
    sort_by by_address (take MAX_VALIDATORS (sort_by by_stake set))
  else set.

(** The height of the next block. *)
Definition next_height (d : Db) : N :=
  match tip_height d with Some h => h | None => 0 end +!! 1.

(* [src/src/staking.rs 43-46 validator_set] *)
Definition validator_set (d : Db) : list Validator := validator_set_at d (next_height d).

(* [src/src/staking.rs 86-103 bonded_set] *)
Definition bonded_set (d : Db) : list Validator :=
  map to_validator (List.filter (fun x => 0 <? staked x.2) (stake_accounts d)).

(* [src/src/staking.rs 105-107 total_stake] *)
Definition total_stake (set : list Validator) : N := sum_wrapping (map v_stake set).

(** The walk over the set: the first validator whose cumulative stake passes the draw. *)
Fixpoint pick (set : list Validator) (cursor draw : N) : option string :=
  match set with
  | [] => None
  | v :: rest =>
    let cursor := cursor +! v_stake v in
    if draw <? cursor then Some (v_address v) else pick rest cursor draw
  end.

Section staking.
Context {HC : Crypto} {HF : Fr} {HK : Compression}.

(** [u128::from_be_bytes(seed[..16]) % total], before the reduction. *)
Definition leader_draw (height : N) (parent_hash : string) (attempt : N) : N :=
  from_be_bytes (String.substring 0 16
    (sha256 ("inazuma-leader|" +:+ dec height +:+ "|" +:+ parent_hash +:+ "|" +:+ dec attempt))).

(* [src/src/staking.rs 119-145 elect_leader_attempt] *)
Definition elect_leader_attempt (set : list Validator) (height : N) (parent_hash : string)
    (attempt : N) : option string :=
  let total := total_stake set in
  match set with
  | [] => None
  | _ =>
    if total =? 0 then None
    else match pick set 0 (leader_draw height parent_hash attempt mod total) with
    | Some a => Some a
    | None => v_address <$> last set
    end
  end.

(* [src/src/staking.rs 111-113 elect_leader] *)
Definition elect_leader (set : list Validator) (height : N) (parent_hash : string) : option string :=
  elect_leader_attempt set height parent_hash 0.

(** [acct.balance += amount; acct.rewards += amount] *)
(* [src/src/staking.rs 187-192 credit] *)
Definition credit (addr : string) (amount : N) : M unit :=
  a ← gets (account addr);
  set_account addr (with_rewards (rewards a +! amount) (with_balance (balance a +! amount) a)).

Definition pay_leader (leader : string) (pay reward : N) : M unit :=
  a ← gets (account leader);
  set_account leader
    (with_blocks_produced (blocks_produced a +!! 1)
      (with_rewards (rewards a +! reward) (with_balance (balance a +! pay) a))).

Definition pay_share (shared total distributed : N) (v : Validator) : M N :=
  let cut := shared *! v_stake v / total in
  if cut =? 0 then mret distributed
  else credit (v_address v) cut ;; mret (distributed +! cut).

(* [src/src/staking.rs 149-185 pay_rewards] *)
Definition pay_rewards (leader : string) (fees : N) : M unit :=
  set ← gets validator_set;
  let total := total_stake set in
  if (match set with [] => true | _ => false end) || (total =? 0) then
    pay_leader leader (fees +! BLOCK_REWARD) BLOCK_REWARD
  else
    let commission := BLOCK_REWARD *! LEADER_COMMISSION_PCT / 100 in
    let shared := BLOCK_REWARD -! commission in
    distributed ← fold_m (pay_share shared total) 0 set;
    let dust := shared -! distributed in
    pay_leader leader (fees +! commission +! dust) (commission +! dust).

Definition matured (height : N) (u : Unbond) : bool := release_height u <=? height.

(** [acct.unbonding.retain(..)]: what stays, and the released sum. *)
Definition release (height : N) (a : Account) : Account :=
  let released := sum_wrapping (map u_amount (List.filter (matured height) (unbonding a))) in
  with_balance (balance a +! released)
    (with_unbonding (List.filter (fun u => negb (matured height u)) (unbonding a)) a).

Definition release_one (height : N) (unlocked : list string) (x : string * Account) : M (list string) :=
  let '(addr, a) := x in
  if existsb (matured height) (unbonding a) then
    set_account addr (release height a) ;; mret (unlocked ++ [addr])
  else mret unlocked.

(* [src/src/staking.rs 196-220 release_unbonded] *)
Definition release_unbonded (height : N) : M (list string) :=
  accts ← gets stake_accounts;
  fold_m (release_one height) [] accts.

#[export] Instance journaled_credit a n : Journaled (credit a n).
Proof. unfold credit. journaled. Qed.
#[export] Instance journaled_pay_leader l p r : Journaled (pay_leader l p r).
Proof. unfold pay_leader. journaled. Qed.
#[export] Instance journaled_pay_share s t n v : Journaled (pay_share s t n v).
Proof. unfold pay_share. journaled. Qed.
#[export] Instance journaled_pay_rewards l f : Journaled (pay_rewards l f).
Proof. unfold pay_rewards. journaled. Qed.
#[export] Instance journaled_release_one h l x : Journaled (release_one h l x).
Proof. unfold release_one. journaled. Qed.
#[export] Instance journaled_release_unbonded h : Journaled (release_unbonded h).
Proof. unfold release_unbonded. journaled. Qed.
End staking.
#[global] Typeclasses Opaque credit pay_leader pay_share pay_rewards release_one release_unbonded.
