(* ===== verification/StakingFacts.v ===== *)
(** Theorems about staking.rs: the election is proportional to stake, the capped
    set holds the largest stakes, a block mints exactly its reward, and matured
    unbonds are returned exactly once. *)

From S2P Require Import Prelude Bytes Crypto Types Journal Store Smt SmtFacts Poseidon Shielded State StateFacts Staking.

(** ** Sums of machine integers *)

Lemma sum_wrapping_acc l : forall acc, acc < 2 ^ 128 ->
  foldl (wadd 128) acc l = wrap 128 (acc + sumN id l).
Proof.
  induction l as [|x l IH]; intros acc Ha; cbn [foldl].
  - rewrite wrap_small; cbn; lia.
  - rewrite IH by apply wrap_lt. rewrite sumN_cons. unfold wadd, wrap.
    rewrite N.Div0.add_mod_idemp_l. f_equal. unfold id. lia.
Qed.

Lemma sum_wrapping_spec l : sum_wrapping l = wrap 128 (sumN id l).
Proof. unfold sum_wrapping. now rewrite sum_wrapping_acc. Qed.

Lemma sumN_map {A B} (g : A -> B) (f : B -> N) l : sumN f (map g l) = sumN (fun a => f (g a)) l.
Proof. induction l as [|a l IH]; [done|]. cbn [map]. now rewrite !sumN_cons, IH. Qed.

Lemma sumN_fmap {A B} (g : A -> B) (f : B -> N) l : sumN f (g <$> l) = sumN (fun a => f (g a)) l.
Proof. apply (sumN_map g). Qed.

Lemma sum_wrapping_map {A} (f : A -> N) l : sumN f l < 2 ^ 128 -> sum_wrapping (map f l) = sumN f l.
Proof. intros Hs. rewrite sum_wrapping_spec, sumN_map. now apply wrap_small. Qed.

Lemma sumN_filter_split {A} (f : A -> N) (p : A -> bool) l :
  sumN f (List.filter p l) + sumN f (List.filter (fun a => negb (p a)) l) = sumN f l.
Proof.
  induction l as [|a l IH]; [done|]. cbn [List.filter]. destruct (p a); cbn [negb]; rewrite !sumN_cons; lia.
Qed.

Lemma sumN_pos {A} (f : A -> N) l : 0 < sumN f l -> l <> [].
Proof. intros Hs ->. cbn in Hs. lia. Qed.

(** ** Leader election *)

Definition stake_sum (set : list Validator) : N := sumN v_stake set.

Lemma pick_interval pre v post : forall cursor draw,
  cursor + stake_sum (pre ++ v :: post) < 2 ^ 128 ->
  cursor + stake_sum pre <= draw < cursor + stake_sum pre + v_stake v ->
  pick (pre ++ v :: post) cursor draw = Some (v_address v).
Proof.
  unfold stake_sum. induction pre as [|w pre IH]; intros cursor draw Hs Hd; cbn [app pick].
  - rewrite app_nil_l, sumN_cons in Hs. cbn in Hd. rewrite wadd_small by lia.
    now rewrite (proj2 (N.ltb_lt _ _)) by lia.
  - rewrite <- app_comm_cons, sumN_cons in Hs. rewrite sumN_cons in Hd.
    rewrite wadd_small by lia. rewrite (proj2 (N.ltb_ge _ _)) by lia. apply IH; lia.
Qed.

(** Every draw below the total falls into exactly one validator's interval. *)
Lemma split_at set : forall draw, draw < stake_sum set ->
  exists pre v post, set = pre ++ v :: post /\ stake_sum pre <= draw < stake_sum pre + v_stake v.
Proof.
  unfold stake_sum. induction set as [|v set IH]; intros draw Hd; [cbn in Hd; lia|].
  rewrite sumN_cons in Hd. destruct (N.ltb_spec draw (v_stake v)).
  - exists [], v, set. cbn. split; [done|lia].
  - destruct (IH (draw - v_stake v)) as (pre & w & post & -> & Hw); [lia|].
    exists (v :: pre), w, post. rewrite sumN_cons. split; [done|lia].
Qed.

Section election.
Context {HC : Crypto}.

Lemma elect_spec set height parent attempt : stake_sum set < 2 ^ 128 ->
  elect_leader_attempt set height parent attempt =
  if stake_sum set =? 0 then None
  else pick set 0 (leader_draw height parent attempt mod stake_sum set).
Proof.
  intros Hs. unfold elect_leader_attempt, total_stake. rewrite sum_wrapping_map by exact Hs.
  fold (stake_sum set). destruct set as [|v set]; [done|].
  destruct (N.eqb_spec (stake_sum (v :: set)) 0) as [|Hz]; [done|].
  destruct (split_at (v :: set) (leader_draw height parent attempt mod stake_sum (v :: set)))
    as (pre & w & post & E & Hw); [now apply N.mod_lt|].
  revert Hs Hw. rewrite E. intros Hs Hw. now rewrite (pick_interval pre w post) by lia.
Qed.

(** C40: leader election is exactly proportional to stake.  The reduced draw is a
    number below the total stake; each validator owns an interval of draws of
    the length of its stake, and the leader is the owner of the interval the
    draw falls into; the election fails only when no stake is bonded. *)
Theorem election_proportional set height parent attempt :
  stake_sum set < 2 ^ 128 ->
  let draw := leader_draw height parent attempt mod stake_sum set in
  (elect_leader_attempt set height parent attempt = None <-> stake_sum set = 0) /\
  (forall pre v post, set = pre ++ v :: post ->
     stake_sum pre <= draw < stake_sum pre + v_stake v ->
     elect_leader_attempt set height parent attempt = Some (v_address v)) /\
  (forall leader, elect_leader_attempt set height parent attempt = Some leader ->
     exists pre v post, set = pre ++ v :: post /\ leader = v_address v /\
       stake_sum pre <= draw < stake_sum pre + v_stake v).
Proof.
  intros Hs draw. rewrite elect_spec by exact Hs. fold draw.
  assert (forall pre v post, set = pre ++ v :: post ->
     stake_sum pre <= draw < stake_sum pre + v_stake v -> pick set 0 draw = Some (v_address v)) as Hp
    by (intros pre v post -> Hd; apply pick_interval; lia).
  destruct (N.eqb_spec (stake_sum set) 0) as [Hz|Hz].
  - split; [done|]. split; [|done]. intros pre v post -> Hd. unfold stake_sum in *.
    rewrite sumN_app, sumN_cons in Hz. lia.
  - destruct (split_at set draw) as (pre & w & post & E & Hw); [now apply N.mod_lt|].
    pose proof (Hp _ _ _ E Hw) as Hpick. split; [|split].
    + rewrite Hpick. split; [done|]. intros; done.
    + intros. eapply Hp; eauto.
    + intros leader El. rewrite Hpick in El. injection El as <-. now exists pre, w, post.
Qed.
End election.

(** ** The validator set *)

Lemma StronglySorted_filter {A} (R : A -> A -> Prop) (p : A -> bool) l :
  StronglySorted R l -> StronglySorted R (List.filter p l).
Proof.
  induction 1 as [|x l _ IH Hf]; cbn; [constructor|]. destruct (p x); [|done]. constructor; [done|].
  apply List.Forall_forall. intros y [Hy _]%filter_In. rewrite List.Forall_forall in Hf. auto.
Qed.

Section set.
Context {HC : Crypto} {HF : Fr} {HK : Compression}.
Implicit Types (d : Db) (v w : Validator).

Lemma elem_of_active v d h : v ∈ active_set d h <->
  exists addr, v = to_validator (addr, account addr d) /\ is_Some (d !! (T_STAKERS, addr)) /\
    is_active_validator (account addr d) h = true.
Proof.
  unfold active_set. rewrite list_elem_of_fmap. split.
  - intros ([addr a] & -> & Hin). apply list_elem_of_In, filter_In in Hin as [Hin Ha].
    apply list_elem_of_In, elem_of_stake_accounts in Hin as [Hs ->]. eauto.
  - intros (addr & -> & Hs & Ha). exists (addr, account addr d). split; [done|].
    apply list_elem_of_In, filter_In. split; [|done]. apply list_elem_of_In, elem_of_stake_accounts. done.
Qed.

Lemma v_address_to l : map v_address (map to_validator l) = l.*1.
Proof. induction l as [|[a x] l IH]; [done|]. cbn. now f_equal. Qed.

Lemma NoDup_active d h : NoDup (map v_address (active_set d h)).
Proof.
  unfold active_set. rewrite v_address_to. pose proof (NoDup_stake_accounts d) as Hn.
  induction (stake_accounts d) as [|x l IH]; [constructor|]. cbn in Hn. apply NoDup_cons in Hn as [Hx Hn].
  cbn. destruct (is_active_validator _ _); [|auto]. cbn. constructor; [|auto].
  intros Hin. apply Hx. apply list_elem_of_fmap in Hin as (y & -> & Hy).
  apply list_elem_of_fmap. exists y. split; [done|]. now apply list_elem_of_In, filter_In, proj1, list_elem_of_In in Hy.
Qed.

Definition addr_le v w : Prop := by_address v w = true.

Lemma active_sorted d h : Sorted addr_le (active_set d h).
Proof.
  apply StronglySorted_Sorted. unfold active_set.
  pose proof (StronglySorted_filter _ (fun x => is_active_validator x.2 h) _ (stake_accounts_sorted d)) as Hs.
  induction Hs as [|[k a] l _ IH Hf]; cbn; constructor; [done|].
  apply Forall_map. eapply Forall_impl; [exact Hf|]. intros [k' a'] Hk. exact Hk.
Qed.

(** The top of the stake order dominates the rest. *)
Lemma top_dominates n l v w : v ∈ take n (sort_by by_stake l) -> w ∈ drop n (sort_by by_stake l) ->
  v_stake w <= v_stake v.
Proof.
  assert (StronglySorted (fun a b => v_stake b <= v_stake a) (sort_by by_stake l)) as Hs.
  { apply Sorted_StronglySorted; [intros a b c; lia|].
    eapply Sorted_ind with (P := Sorted (fun a b => v_stake b <= v_stake a));
      [constructor| |apply (sort_by_sorted by_stake)].
    - intros a l' _ Hl Hh. constructor; [done|]. inversion Hh as [|b l'' Hab]; subst; constructor.
      unfold by_stake in Hab. repeat case_match; bool_hyps; try done; lia.
    - intros a b. unfold by_stake, by_address. repeat case_match; bool_hyps; intros; try done; try lia.
      now apply leb_total_false. }
  rewrite <- (take_drop n (sort_by by_stake l)) in Hs. apply (StronglySorted_app_1_elem_of _ _ _ _ _ Hs).
Qed.

Lemma set_nodup d h : NoDup (map v_address (validator_set_at d h)).
Proof.
  unfold validator_set_at. destruct (_ && _); [|apply NoDup_active]. pose proof (NoDup_active d h) as Hn.
  rewrite <- (sort_by_perm by_stake (active_set d h)) in Hn.
  rewrite <- (take_drop MAX_VALIDATORS (sort_by by_stake (active_set d h))), map_app in Hn.
  apply NoDup_app in Hn as [Hn _]. now rewrite sort_by_perm.
Qed.

Lemma set_member d h v : v ∈ validator_set_at d h -> v ∈ active_set d h.
Proof.
  unfold validator_set_at. destruct (_ && _); [|done]. rewrite sort_by_perm. intros Hv%subseteq_take.
  now rewrite sort_by_perm in Hv.
Qed.

(** the validator set of a height lists distinct active validators of the
    stake index with their bonded stake, in address order.  Below the cap height
    it is all of them; from the cap height on it has at most 100 members, and
    nobody left out has more stake than a member. *)
Theorem validator_set_top_stakes d height :
  let set := validator_set_at d height in
  NoDup (map v_address set) /\ Sorted addr_le set /\
  (forall v, v ∈ set -> exists addr, v = to_validator (addr, account addr d) /\
     is_active_validator (account addr d) height = true) /\
  (forall addr, is_Some (d !! (T_STAKERS, addr)) -> is_active_validator (account addr d) height = true ->
     to_validator (addr, account addr d) ∈ set \/
     VALIDATOR_CAP_ACTIVATION_HEIGHT <= height /\ length set = MAX_VALIDATORS /\
     forall v, v ∈ set -> staked (account addr d) <= v_stake v) /\
  (VALIDATOR_CAP_ACTIVATION_HEIGHT <= height -> (length set <= MAX_VALIDATORS)%nat).
Proof.
  intros set. split; [apply set_nodup|].
  assert (forall v, v ∈ set -> exists addr, v = to_validator (addr, account addr d) /\
     is_active_validator (account addr d) height = true) as Hm
    by (intros v (addr & -> & _ & Ha)%set_member%elem_of_active; eauto).
  revert Hm. subst set. unfold validator_set_at.
  destruct (N.leb_spec VALIDATOR_CAP_ACTIVATION_HEIGHT height) as [Hh|Hh];
    [destruct (Nat.ltb_spec MAX_VALIDATORS (length (active_set d height))) as [Hl|Hl]|]; cbn [andb].
  2,3: intros Hm; split; [apply active_sorted|]; split; [exact Hm|]; split;
    [intros addr Hs Ha; left; apply elem_of_active; eauto|intros; try done; lia].
  set (l := sort_by by_stake (active_set d height)).
  assert (forall v, v ∈ sort_by by_address (take MAX_VALIDATORS l) <-> v ∈ take MAX_VALIDATORS l) as Hin
    by (intros v; now rewrite sort_by_perm).
  assert (l ≡ₚ active_set d height) as Hp by apply sort_by_perm.
  assert (length (sort_by by_address (take MAX_VALIDATORS l)) = MAX_VALIDATORS) as Hlen.
  { rewrite sort_by_perm, length_take. rewrite Hp. lia. }
  intros Hm. split; [apply sort_by_sorted; intros a b; apply leb_total_false|].
  split; [exact Hm|]. split; [|intros _; lia]. intros addr Hs Ha.
  assert (to_validator (addr, account addr d) ∈ l) as Hv by (rewrite Hp; apply elem_of_active; eauto).
  rewrite <- (take_drop MAX_VALIDATORS l), elem_of_app in Hv. destruct Hv as [Hv|Hv].
  - left. now apply Hin.
  - right. split; [done|]. split; [done|]. intros v Hv'%Hin. exact (top_dominates _ _ _ _ Hv' Hv).
Qed.

(** ** Rewards *)

Lemma run_credit addr n d : run (credit addr n) d = (Ok tt, db_after (credit addr n) d).
Proof.
  enough ((run (credit addr n) d).1 = Ok tt) by (unfold run in *; cbn in *; congruence).
  unfold credit. runs. now rewrite run_set_account.
Qed.

Lemma funds_update addr a d : account_funds (account addr d) <= account_funds a ->
  funds (db_after (set_account addr a) d) = funds d + (account_funds a - account_funds (account addr d)).
Proof. intros. pose proof (funds_set_account addr a d). lia. Qed.

Lemma account_balance_le addr d : balance (account addr d) <= funds d.
Proof. pose proof (funds_account_le addr d). unfold account_funds in *. lia. Qed.

Lemma funds_credit addr n d : funds d + n < 2 ^ 128 ->
  funds (db_after (credit addr n) d) = funds d + n.
Proof.
  intros Hb. pose proof (account_balance_le addr d) as Ha.
  change (db_after (credit addr n) d) with (run (credit addr n) d).2. unfold credit. runs.
  rewrite run_set_account. cbn [snd]. rewrite (wadd_small 128 (balance _)) by lia.
  rewrite funds_update; unfold account_funds, with_rewards, with_balance; cbn [balance staked unbonding]; lia.
Qed.

Lemma run_pay_leader leader pay reward d :
  run (pay_leader leader pay reward) d = (Ok tt, db_after (pay_leader leader pay reward) d).
Proof.
  enough ((run (pay_leader leader pay reward) d).1 = Ok tt) by (unfold run in *; cbn in *; congruence).
  unfold pay_leader. runs. now rewrite run_set_account.
Qed.

Lemma funds_pay_leader leader pay reward d : funds d + pay < 2 ^ 128 ->
  funds (db_after (pay_leader leader pay reward) d) = funds d + pay.
Proof.
  intros Hb. pose proof (account_balance_le leader d) as Ha.
  change (db_after (pay_leader leader pay reward) d) with (run (pay_leader leader pay reward) d).2.
  unfold pay_leader. runs. rewrite run_set_account. cbn [snd]. rewrite (wadd_small 128 (balance _)) by lia.
  rewrite funds_update; unfold account_funds, with_blocks_produced, with_rewards, with_balance;
    cbn [balance staked unbonding]; lia.
Qed.

Definition share (shared total : N) (v : Validator) : N := shared * v_stake v / total.

Lemma pay_shares shared total set : forall distributed d,
  (forall v, v ∈ set -> shared * v_stake v < 2 ^ 128) ->
  distributed + sumN (share shared total) set < 2 ^ 128 ->
  funds d + sumN (share shared total) set < 2 ^ 128 ->
  let out := run (fold_m (pay_share shared total) distributed set) d in
  out.1 = Ok (distributed + sumN (share shared total) set) /\
  funds out.2 = funds d + sumN (share shared total) set.
Proof.
  induction set as [|v set IH]; intros distributed d Hm Hd Hf; cbn [fold_m].
  - rewrite run_ret. cbn. split; [f_equal|]; lia.
  - rewrite sumN_cons in *. rewrite run_bind by (intros; journaled). unfold pay_share at 1 3.
    rewrite wmul_small by (apply Hm; constructor). fold (share shared total v).
    destruct (N.eqb_spec (share shared total v) 0) as [Hz|Hz].
    + rewrite run_ret. rewrite Hz in *. apply IH; [intros; apply Hm; now constructor|lia|lia].
    + runs. rewrite run_credit. rewrite wadd_small by lia.
      pose proof (funds_credit (v_address v) (share shared total v) d ltac:(lia)) as Hc.
      destruct (IH (distributed + share shared total v)
        (db_after (credit (v_address v) (share shared total v)) d)) as [H1 H2];
        [intros; apply Hm; now constructor|lia|lia|]. rewrite run_ret, H1, H2, Hc. split; [f_equal|]; lia.
Qed.

Lemma stake_sum_le_funds d h : stake_sum (validator_set_at d h) <= funds d.
Proof.
  transitivity (sumN (fun k => at_key row_funds k d) (map (fun v => (T_ACCOUNTS, v_address v)) (validator_set_at d h))).
  - rewrite sumN_map. apply sumN_le. intros v (addr & -> & _)%set_member%elem_of_active.
    cbn [to_validator v_address v_stake]. rewrite at_account. unfold account_funds. lia.
  - apply msum_keys_le. rewrite <- (map_map v_address (pair T_ACCOUNTS)).
    apply (NoDup_fmap_2 (pair T_ACCOUNTS)), set_nodup.
Qed.

Lemma pay_rewards_funds leader fees d :
  funds d + fees + BLOCK_REWARD < 2 ^ 100 ->
  let out := run (pay_rewards leader fees) d in
  out.1 = Ok tt /\ funds out.2 = funds d + fees + BLOCK_REWARD.
Proof.
  intros Hb. assert (2 ^ 100 < 2 ^ 128) as H100 by reflexivity.
  change (2 ^ 100) with 1267650600228229401496703205376 in *. rewrite pow_128 in H100.
  unfold BLOCK_REWARD, RAI_PER_INAZ in *.
  change (1000000000 / 100) with 10000000 in *. unfold pay_rewards. rewrite run_bind by (intros; journaled).
  rewrite run_gets. cbv iota beta. set (set := validator_set d).
  assert (stake_sum set <= funds d) as Hs by apply stake_sum_le_funds.
  unfold total_stake. rewrite sum_wrapping_map by (fold (stake_sum set); rewrite pow_128; lia). fold (stake_sum set).
  destruct (match set with [] => true | _ => false end || (stake_sum set =? 0)) eqn:E.
  - change BLOCK_REWARD with 10000000. rewrite wadd_small by (rewrite pow_128; lia). rewrite run_pay_leader.
    split; [done|]. cbn [snd]. rewrite funds_pay_leader by (rewrite pow_128; lia). lia.
  - apply orb_false_iff in E as [_ Hz%N.eqb_neq].
    change (BLOCK_REWARD *! LEADER_COMMISSION_PCT / 100) with 2000000.
    change (BLOCK_REWARD -! 2000000) with 8000000.
    pose proof (sumN_div_le v_stake 8000000 (stake_sum set) set Hz) as Hcut.
    fold (stake_sum set) in Hcut. rewrite N.div_mul in Hcut by done.
    destruct (pay_shares 8000000 (stake_sum set) set 0 d) as [H1 H2].
    + intros v Hv. pose proof (sumN_elem v_stake v set Hv). fold (stake_sum set) in *. rewrite pow_128. lia.
    + unfold share. rewrite pow_128. lia.
    + unfold share. rewrite pow_128. lia.
    + rewrite run_bind by (intros; journaled).
      destruct (run (fold_m (pay_share 8000000 (stake_sum set)) 0 set) d) as [r d'].
      cbn [fst snd] in H1, H2. subst r. unfold share in *.
      rewrite wsub_small by (rewrite ?pow_128; lia).
      rewrite (wadd_small 128 fees) by (rewrite pow_128; lia). rewrite wadd_small by (rewrite pow_128; lia).
      rewrite run_pay_leader. split; [done|]. cbn [snd]. rewrite funds_pay_leader, H2; rewrite ?pow_128; lia.
Qed.

(** paying a block mints exactly the block reward.  Whatever the stake
    distribution, the reward shares, the leader's commission, the rounding dust
    and the fees add up: the coins of all accounts grow by [fees + BLOCK_REWARD],
    in the bootstrap case (no stake bonded) too. *)
Theorem pay_rewards_mints_block_reward leader fees d :
  funds d + fees + BLOCK_REWARD < 2 ^ 100 ->
  let out := run (pay_rewards leader fees) d in
  out.1 = Ok tt /\ funds out.2 = funds d + fees + BLOCK_REWARD.
Proof. apply pay_rewards_funds. Qed.

(** ** Unbonding *)

(** The account after the sweep at [h]. *)
Definition settle (h : N) (a : Account) : Account :=
  if existsb (matured h) (unbonding a) then release h a else a.

Lemma release_balance h a : account_funds a < 2 ^ 128 ->
  balance (release h a) = balance a + sumN u_amount (List.filter (matured h) (unbonding a)).
Proof.
  unfold account_funds, release. intros Ha.
  pose proof (sumN_filter_split u_amount (matured h) (unbonding a)) as Hs.
  rewrite sum_wrapping_map by lia. cbn [balance with_balance]. rewrite wadd_small by lia. done.
Qed.

Lemma settle_funds h a : account_funds a < 2 ^ 128 -> account_funds (settle h a) = account_funds a.
Proof.
  intros Ha. unfold settle. destruct (existsb _ _); [|done].
  pose proof (release_balance h a Ha) as Hb.
  pose proof (sumN_filter_split u_amount (matured h) (unbonding a)) as Hs.
  unfold account_funds in *. rewrite Hb. unfold release, with_balance, with_unbonding.
  cbn [staked unbonding]. lia.
Qed.

Lemma release_all h l : forall unlocked d,
  NoDup l.*1 -> (forall addr a, (addr, a) ∈ l -> a = account addr d) -> funds d < 2 ^ 128 ->
  let out := run (fold_m (release_one h) unlocked l) d in
  out.1 = Ok (unlocked ++ (List.filter (fun x => existsb (matured h) (unbonding x.2)) l).*1) /\
  funds out.2 = funds d /\
  forall addr, account addr out.2 = if decide (addr ∈ l.*1) then settle h (account addr d) else account addr d.
Proof.
  induction l as [|[addr a] l IH]; intros unlocked d Hn Ha Hf; cbn [fold_m].
  - rewrite run_ret. cbn. split; [now rewrite app_nil_r|]. split; [done|]. intros x.
    now rewrite decide_False by apply not_elem_of_nil.
  - apply NoDup_cons in Hn as [Hx Hn]. rewrite run_bind by (intros; journaled). unfold release_one at 1 3 5.
    assert (a = account addr d) as -> by (apply Ha; constructor). cbn [List.filter fst snd].
    destruct (existsb (matured h) (unbonding (account addr d))) eqn:E.
    + runs. rewrite run_set_account. rewrite run_ret. set (d1 := db_after _ d).
      assert (funds d1 = funds d) as Hd1.
      { pose proof (settle_funds h (account addr d)) as Hs. unfold settle in Hs. rewrite E in Hs.
        pose proof (funds_account_le addr d). specialize (Hs ltac:(lia)). unfold d1.
        rewrite funds_update; lia. }
      destruct (IH (unlocked ++ [addr]) d1) as (H1 & H2 & H3); [done| |lia|].
      { intros b x Hb. unfold d1. rewrite account_set_account, decide_False; [apply Ha; now constructor|].
        intros ->. apply Hx. apply list_elem_of_fmap. now exists (addr, x). }
      rewrite H1, H2, Hd1. split; [now rewrite <- app_assoc|]. split; [done|]. intros b. rewrite H3.
      unfold d1. rewrite !account_set_account. cbn [fmap list_fmap fst].
      destruct (decide (b = addr)) as [->|Hb].
      * rewrite decide_False by done. rewrite decide_True by constructor. unfold settle. now rewrite E.
      * apply decide_ext. rewrite elem_of_cons. tauto.
    + rewrite run_ret. destruct (IH unlocked d) as (H1 & H2 & H3); [done|intros; apply Ha; now constructor|done|].
      rewrite H1, H2. split; [done|]. split; [done|]. intros b. rewrite H3. cbn [fmap list_fmap fst].
      destruct (decide (b = addr)) as [->|Hb].
      * rewrite decide_False by done. rewrite decide_True by constructor. unfold settle. now rewrite E.
      * apply decide_ext. rewrite elem_of_cons. tauto.
Qed.

Lemma release_unbonded_funds d h : funds d < 2 ^ 128 ->
  exists unlocked d', run (release_unbonded h) d = (Ok unlocked, d') /\ funds d' = funds d.
Proof.
  intros Hf. destruct (release_all h (stake_accounts d) [] d) as (H1 & H2 & _);
    [apply NoDup_stake_accounts|intros addr a Ha; now apply elem_of_stake_accounts in Ha|done|].
  unfold release_unbonded. runs. destruct (run _ d) as [r d'] eqn:E. cbn in H1, H2. subst r. eauto.
Qed.

(** the unbonding sweep is exact.  At height [h] every account receives the
    sum of its entries with [release_height <= h] in its balance and keeps
    exactly the others; no other account changes, no coin is created or lost,
    and a second sweep at the same height changes nothing. *)
Theorem release_unbonded_exact d h :
  stakers_indexed d -> funds d < 2 ^ 128 ->
  let out := run (release_unbonded h) d in
  (exists unlocked, out.1 = Ok unlocked) /\
  funds out.2 = funds d /\
  forall addr,
    let a := account addr d in
    let a' := account addr out.2 in
    unbonding a' = List.filter (fun u => negb (matured h u)) (unbonding a) /\
    balance a' = balance a + sumN u_amount (List.filter (matured h) (unbonding a)) /\
    staked a' = staked a /\ nonce a' = nonce a /\ penalties a' = penalties a /\
    settle h a' = a'.
Proof.
  intros Hi Hf out.
  destruct (release_all h (stake_accounts d) [] d) as (H1 & H2 & H3);
    [apply NoDup_stake_accounts|intros addr a Ha; now apply elem_of_stake_accounts in Ha|done|].
  assert (out = run (fold_m (release_one h) [] (stake_accounts d)) d) as ->
    by (subst out; unfold release_unbonded; now runs).
  split; [eauto|]. split; [done|]. intros addr a a'.
  assert (a' = settle h a) as Ha'.
  { subst a'. rewrite H3. case_decide as Hin; [done|]. unfold settle.
    enough (staking a = false) as Hs.
    { apply orb_false_iff in Hs as [_ Hs%negb_false_iff%Nat.eqb_eq%nil_length_inv]. now rewrite Hs. }
    apply not_true_is_false. intros Hs%Hi. apply Hin, list_elem_of_fmap. exists (addr, a).
    split; [done|]. now apply elem_of_stake_accounts. }
  rewrite Ha'. pose proof (funds_account_le addr d) as Hle. fold a in Hle.
  assert (existsb (matured h) (List.filter (fun u => negb (matured h u)) (unbonding a)) = false) as Hnone.
  { apply not_true_is_false. intros (u & [_ Hu]%filter_In & Hm)%existsb_exists. now rewrite Hm in Hu. }
  unfold settle at 1 2 3 4 5. destruct (existsb (matured h) (unbonding a)) eqn:E.
  - rewrite release_balance by lia. repeat (split; [done|]). unfold settle. rewrite E.
    change (unbonding (release h a)) with (List.filter (fun u => negb (matured h u)) (unbonding a)).
    now rewrite Hnone.
  - assert (forall l, existsb (matured h) l = false ->
      List.filter (fun u => negb (matured h u)) l = l /\ List.filter (matured h) l = []) as Hid.
    { induction l as [|u l IH]; [done|]. cbn. destruct (matured h u); [done|]. cbn. intros El.
      destruct (IH El) as [-> ->]. done. }
    destruct (Hid _ E) as [-> ->]. repeat (split; [cbn; lia || done|]). unfold settle. now rewrite !E.
Qed.
End set.

Module Election_example.
Import Toy.
Definition val (a : string) (s : N) : Validator := Build_Validator a s 0 0 0 false 0 0.
Definition set3 : list Validator := [val "alice" 10; val "bob" 30; val "carol" 60].
Lemma election_proportional_witness :
  elect_leader_attempt set3 7 "parent" 0 = Some "carol" /\ stake_sum set3 < 2 ^ 128 /\
  (elect_leader_attempt set3 7 "parent" 0 = None <-> stake_sum set3 = 0).
Proof.
  assert (stake_sum set3 < 2 ^ 128) as Hs by reflexivity.
  split; [vm_compute; reflexivity|]. split; [exact Hs|].
  exact (proj1 (election_proportional set3 7 "parent" 0 Hs)).
Defined.
End Election_example.

(** ** A small state *)
Section genesis_state.
Context {HC : Crypto} {HF : Fr} {HK : Compression}.

(** The state holding exactly the given accounts, written through [set_account]. *)
Definition with_accounts (l : list (string * Account)) : Db :=
  foldr (fun '(addr, a) d => db_after (set_account addr a) d) ∅ l.

Lemma stakers_indexed_empty : stakers_indexed ∅.
Proof. intros addr. rewrite lookup_empty. split; [intros [? ?]|]; done. Qed.

Lemma with_accounts_indexed l : stakers_indexed (with_accounts l).
Proof.
  induction l as [|[addr a] l IH]; [apply stakers_indexed_empty|]. now apply stakers_indexed_set_account.
Qed.

Lemma with_accounts_funds_le l : funds (with_accounts l) <= sumN (fun x => account_funds x.2) l.
Proof.
  induction l as [|[addr a] l IH]; [reflexivity|]. rewrite sumN_cons. cbn [with_accounts foldr snd].
  fold (with_accounts l). pose proof (funds_set_account addr a (with_accounts l)). lia.
Qed.

Lemma account_with_accounts addr a l : account addr (with_accounts ((addr, a) :: l)) = a.
Proof. cbn [with_accounts foldr]. now rewrite account_set_account, decide_True. Qed.
End genesis_state.

Module Staking_example.
Import Toy Toy_field.
#[local] Instance toy_compression : Compression := fun a b => f_add a (f_mul b b).

Definition alice : Account :=
  with_unbonding [ {| u_amount := 100; release_height := 5 |}; {| u_amount := 7; release_height := 9 |} ]
    (with_staked (2 * MIN_STAKE) default_account).
Definition bob : Account := with_staked MIN_STAKE (with_balance 40 default_account).
Definition d0 : Db := with_accounts [("alice", alice); ("bob", bob)].

Lemma d0_funds : funds d0 < 2 ^ 99.
Proof.
  pose proof (with_accounts_funds_le [("alice", alice); ("bob", bob)]) as Hle. fold d0 in Hle.
  eapply N.le_lt_trans; [exact Hle|]. vm_compute. reflexivity.
Qed.

Lemma pay_rewards_mints_block_reward_witness :
  let out := run (pay_rewards "alice" 12) d0 in
  out.1 = Ok tt /\ funds out.2 = funds d0 + 12 + BLOCK_REWARD.
Proof.
  apply (pay_rewards_mints_block_reward "alice" 12 d0). pose proof d0_funds as Hf.
  change (2 ^ 99) with 633825300114114700748351602688 in Hf.
  change (2 ^ 100) with 1267650600228229401496703205376. change BLOCK_REWARD with 10000000. revert Hf. generalize (funds d0). intros. lia.
Defined.

Lemma release_unbonded_exact_witness :
  let out := run (release_unbonded 6) d0 in
  (exists unlocked, out.1 = Ok unlocked) /\ balance (account "alice" out.2) = 100.
Proof.
  destruct (release_unbonded_exact d0 6) as (H1 & _ & H3); [apply with_accounts_indexed| |].
  { eapply N.lt_trans; [apply d0_funds|reflexivity]. }
  split; [exact H1|]. destruct (H3 "alice") as (_ & Hb & _). rewrite Hb.
  assert (account "alice" d0 = alice) as -> by apply account_with_accounts. reflexivity.
Defined.
End Staking_example.
