(* ===== verification/Tokens.v ===== *)
(** tokens.rs: fungible assets.

    Every token row carries its supply and holder count next to the ledger of
    balances; the theorem is that the three agree after every operation. *)

From S2P Require Import Prelude Bytes Crypto Types Journal Store Smt SmtFacts Poseidon Shielded State StateFacts.
From Stdlib Require Import Ascii.
From Stdlib Require String.

(* [src/src/tokens.rs 15-15 TOKEN_CREATION_FEE] *)
Definition TOKEN_CREATION_FEE : N := 10 * RAI_PER_INAZ.
(* [src/src/tokens.rs 16-16 MAX_DECIMALS] *)
Definition MAX_DECIMALS : N := 18.
(* [src/src/tokens.rs 17-17 MAX_SYMBOL_LEN] *)
Definition MAX_SYMBOL_LEN : nat := 10.
(* [src/src/tokens.rs 18-18 MAX_NAME_LEN] *)
Definition MAX_NAME_LEN : nat := 40.

(* [src/src/tokens.rs 46-55 normalize_symbol] *)
Definition normalize_symbol (raw : string) : result string :=
  let s := map_string ascii_upper (trim raw) in
  if Nat.ltb (slen s) 2 || Nat.ltb MAX_SYMBOL_LEN (slen s) then Err "symbol must be 2-10 characters"
  else if negb (all_chars is_alphanumeric s) then Err "symbol must be letters and digits only"
  else Ok s.

(** [10u128.pow(decimals)], wrapping. *)
Definition pow10 (decimals : N) : N := wrap 128 (10 ^ decimals).

(* [src/src/tokens.rs 58-69 format_units] *)
Definition format_units (amount decimals : N) : string :=
  if decimals =? 0 then dec amount
  else
    let scale := pow10 decimals in
    dec (amount / scale) +:+ "." +:+ dec_pad (N.to_nat decimals) (amount mod scale).

(* [src/src/tokens.rs 71-92 parse_units] *)
Definition parse_units (s : string) (decimals : N) : result N :=
  let s := trim s in
  let '(w, f) := match split_once "."%char s with Some (w, f) => (w, f) | None => (s, "") end in
  whole ← ok_or (parse_u128 w) "bad amount";
  _ ← (if decimals <? N.of_nat (slen f) then Err ("max " +:+ dec decimals +:+ " decimals") else Ok tt);
  let frac := pad_right (N.to_nat decimals) f in
  frac ← (match frac with "" => Ok 0 | _ => ok_or (parse_u128 frac) "bad amount" end);
  Ok (whole *! pow10 decimals +! frac).

(* [src/src/tokens.rs 94-97 payload] *)
Definition payload (p : option Payload) : result Payload := ok_or p "token transaction missing payload".

Section tokens.
Context {HC : Crypto} {HF : Fr} {HK : Compression}.

(* [src/src/tokens.rs 41-44 token_id] *)
Definition token_id (creator : string) (nonce : N) (symbol : string) : string :=
  "tk" +:+ hex_encode (String.substring 0 8
    (sha256 ("inazuma-token|" +:+ creator +:+ "|" +:+ dec nonce +:+ "|" +:+ symbol))).

(** ** Validation *)

(* [src/src/tokens.rs 101-120 check_create] *)
Definition check_create (d : Db) (sender : string) (nonce : N) (p : option Payload) : result unit :=
  p ← payload p;
  symbol ← normalize_symbol (p_symbol p);
  if String.eqb (trim (p_name p)) "" || Nat.ltb MAX_NAME_LEN (slen (p_name p)) then
    Err "name must be 1-40 characters"
  else if MAX_DECIMALS <? p_decimals p then Err "decimals must be 0-18"
  else if bool_decide (is_Some (token (token_id sender nonce symbol) d)) then Err "token already exists"
  else Ok tt.

(* [src/src/tokens.rs 122-144 check_mint] *)
Definition check_mint (d : Db) (sender to : string) (amount : N) (p : option Payload) : result unit :=
  p ← payload p;
  t ← ok_or (token (p_token p) d) "unknown token";
  if negb (String.eqb (t_creator t) sender) then Err "only the token creator can mint"
  else if negb (t_mintable t) then Err "token supply is fixed"
  else if amount =? 0 then Err "mint amount must be positive"
  else if negb (is_valid_address to) then Err "invalid recipient address"
  else Ok tt.

(* [src/src/tokens.rs 146-165 check_token_transfer] *)
Definition check_token_transfer (d : Db) (sender to : string) (amount : N) (p : option Payload) : result unit :=
  p ← payload p;
  t ← ok_or (token (p_token p) d) "unknown token";
  if amount =? 0 then Err "amount must be positive"
  else if negb (is_valid_address to) then Err "invalid recipient address"
  else if token_balance (t_id t) sender d <? amount then Err "insufficient token balance"
  else Ok tt.

(* [src/src/tokens.rs 167-182 check_burn] *)
Definition check_burn (d : Db) (sender : string) (amount : N) (p : option Payload) : result unit :=
  p ← payload p;
  t ← ok_or (token (p_token p) d) "unknown token";
  if amount =? 0 then Err "amount must be positive"
  else if token_balance (t_id t) sender d <? amount then Err "insufficient token balance"
  else Ok tt.

(** ** Execution *)

(* [src/src/tokens.rs 188-223 apply_create] *)
Definition apply_create (sender : string) (nonce initial_supply height : N) (p : option Payload) : M string :=
  p ← lift (payload p);
  symbol ← lift (normalize_symbol (p_symbol p));
  fail_if (MAX_DECIMALS <? p_decimals p) "decimals too large" ;;
  let id := token_id sender nonce symbol in
  mt ← gets (token id);
  fail_if (bool_decide (is_Some mt)) "token already exists" ;;
  set_token {| t_id := id; t_symbol := symbol; t_name := trim (p_name p); t_decimals := p_decimals p;
               t_supply := 0; t_creator := sender; t_mintable := p_mintable p;
               t_created_height := height; t_holders := 0 |} ;;
  when_ (0 <? initial_supply) (credit_token id sender initial_supply) ;;
  mret id.

(* [src/src/tokens.rs 225-240 apply_mint] *)
Definition apply_mint (sender to : string) (amount : N) (p : option Payload) : M unit :=
  p ← lift (payload p);
  mt ← gets (token (p_token p));
  t ← lift (ok_or mt "unknown token");
  fail_if (negb (String.eqb (t_creator t) sender) || negb (t_mintable t)) "not allowed to mint this token" ;;
  credit_token (t_id t) to amount.

(* [src/src/tokens.rs 242-257 apply_token_transfer] *)
Definition apply_token_transfer (sender to : string) (amount : N) (p : option Payload) : M unit :=
  p ← lift (payload p);
  mt ← gets (token (p_token p));
  t ← lift (ok_or mt "unknown token");
  if String.eqb sender to then mret tt
  else
    debit_token (t_id t) sender amount ;;
    credit_token (t_id t) to amount.

(* [src/src/tokens.rs 259-269 apply_burn] *)
Definition apply_burn (sender : string) (amount : N) (p : option Payload) : M unit :=
  p ← lift (payload p);
  mt ← gets (token (p_token p));
  t ← lift (ok_or mt "unknown token");
  debit_token (t_id t) sender amount.

#[export] Instance journaled_apply_create s n i h p : Journaled (apply_create s n i h p).
Proof. unfold apply_create. journaled. Qed.
#[export] Instance journaled_apply_mint s t a p : Journaled (apply_mint s t a p).
Proof. unfold apply_mint. journaled. Qed.
#[export] Instance journaled_apply_token_transfer s t a p : Journaled (apply_token_transfer s t a p).
Proof. unfold apply_token_transfer. journaled. Qed.
#[export] Instance journaled_apply_burn s a p : Journaled (apply_burn s a p).
Proof. unfold apply_burn. journaled. Qed.
End tokens.
#[global] Typeclasses Opaque apply_create apply_mint apply_token_transfer apply_burn.
