(* ===== verification/TokensFacts.v ===== *)
(** Theorems about tokens.rs: supply and holder count of every token agree with
    the ledger of balances, through every operation. *)

From S2P Require Import Prelude Bytes Crypto Types Journal Store Smt SmtFacts Poseidon Shielded State StateFacts Tokens.
From Stdlib Require Import Ascii.
From Stdlib Require String.

(** Token ids: "tk" and sixteen hex digits, so never a colon. *)
Definition colon_free (s : string) : Prop := contains_char ":"%char s = false.

Lemma contains_char_app c a b : contains_char c (a +:+ b) = contains_char c a || contains_char c b.
Proof. induction a as [|x a IH]; [done|]. cbn. rewrite IH. now rewrite orb_assoc. Qed.

Lemma strip_prefix_app p s : strip_prefix p (p +:+ s) = Some s.
Proof. induction p as [|c p IH]; [done|]. cbn. now rewrite Ascii.eqb_refl. Qed.

Lemma strip_prefix_Some p s r : strip_prefix p s = Some r -> s = p +:+ r.
Proof.
  revert s. induction p as [|c p IH]; intros s; cbn; [now intros [= ->]|].
  destruct s as [|x s]; [done|]. destruct (Ascii.eqb_spec c x) as [->|]; [|done].
  intros E. now rewrite (IH _ E).
Qed.

(** A colon ends the id: two keys with the same text have the same id. *)
Lemma key_id_inj id1 : forall id2 a1 a2, colon_free id1 -> colon_free id2 ->
  id1 +:+ ":" +:+ a1 = id2 +:+ ":" +:+ a2 -> id1 = id2 /\ a1 = a2.
Proof.
  unfold colon_free. induction id1 as [|c id1 IH]; intros [|c2 id2] a1 a2 H1 H2 E; cbn in *.
  - injection E as ->. done.
  - injection E as <- _. done.
  - injection E as -> _. done.
  - injection E as -> E. apply orb_false_iff in H1 as [_ H1]. apply orb_false_iff in H2 as [_ H2].
    destruct (IH id2 a1 a2 H1 H2 E) as [-> ->]. done.
Qed.

Section ledger.
Context {HC : Crypto} {HF : Fr} {HK : Compression}.

(** ** The ledger's sums *)

Definition units (v : value) : N :=
  match (s ← as_bytes v; parse_u128 s) with Some n => n | None => 0 end.
Definition of_token (id : string) (k : Key) : bool :=
  match k with
  | (T_TOKEN_BALANCES, key) => bool_decide (is_Some (strip_prefix (id +:+ ":") key))
  | _ => false
  end.
(** Units of token [id] held by all addresses, and the number of holders. *)
Definition held (id : string) (d : Db) : N := msum (fun k v => if of_token id k then units v else 0) d.
Definition holder_count (id : string) (d : Db) : N := msum (fun k _ => if of_token id k then 1 else 0) d.

Definition positive_rows (d : Db) : Prop :=
  forall k v, d !! (T_TOKEN_BALANCES, k) = Some v -> exists n, v = text_row n /\ 0 < n <= U128_MAX.

(** A registered token's row agrees with the ledger; an unregistered id has no units. *)
Definition ledger_ok (d : Db) : Prop :=
  positive_rows d /\
  (forall id t, token id d = Some t -> colon_free id /\ t_id t = id) /\
  forall id, colon_free id ->
    match token id d with
    | Some t => t_supply t = held id d /\ t_holders t = holder_count id d
    | None => held id d = 0 /\ holder_count id d = 0
    end.

Lemma units_text n : n <= U128_MAX -> units (text_row n) = n.
Proof.
  intros Hn. change (units (text_row n)) with (match parse_uint U128_MAX (dec n) with Some m => m | None => 0 end).
  now rewrite parse_uint_dec.
Qed.

Lemma of_token_key id id' addr : colon_free id -> colon_free id' ->
  of_token id (T_TOKEN_BALANCES, balance_key id' addr) = bool_decide (id = id').
Proof.
  intros H1 H2. cbn. apply bool_decide_ext. split.
  - intros [r Hr]. apply strip_prefix_Some in Hr. unfold balance_key in Hr. rewrite <- append_assoc in Hr.
    symmetry in Hr. now apply key_id_inj in Hr as [-> _].
  - intros ->. unfold balance_key. rewrite append_assoc, strip_prefix_app. eauto.
Qed.

Lemma at_held id addr d : colon_free id ->
  at_key (fun k v => if of_token id k then units v else 0) (T_TOKEN_BALANCES, balance_key id addr) d
  = token_balance id addr d.
Proof.
  intros Hid. unfold at_key, token_balance, units. destruct (d !! _) as [v|]; [|done].
  now rewrite of_token_key, bool_decide_true.
Qed.

Lemma at_count id addr d : colon_free id -> positive_rows d ->
  at_key (fun k (_ : value) => if of_token id k then 1 else 0) (T_TOKEN_BALANCES, balance_key id addr) d
  = if token_balance id addr d =? 0 then 0 else 1.
Proof.
  intros Hid Hp. unfold at_key, token_balance.
  destruct (d !! (T_TOKEN_BALANCES, balance_key id addr)) as [v|] eqn:Hv; [|done].
  rewrite of_token_key, bool_decide_true by done. destruct (Hp _ _ Hv) as (n & -> & Hn).
  change (match _ with Some n => n | None => 0 end) with (units (text_row n)).
  rewrite units_text by lia. destruct (N.eqb_spec n 0); [lia|done].
Qed.

Lemma token_balance_max id addr d : positive_rows d -> token_balance id addr d <= U128_MAX.
Proof.
  intros Hp. unfold token_balance. destruct (d !! (T_TOKEN_BALANCES, balance_key id addr)) as [v|] eqn:Hv; [|done].
  destruct (Hp _ _ Hv) as (n & -> & Hn).
  change (match _ with Some n => n | None => 0 end) with (units (text_row n)). rewrite units_text; lia.
Qed.

(** Operations that leave the ledger rows alone leave its sums alone. *)
Lemma held_same id d d' : same_on (eq T_TOKEN_BALANCES) d d' -> held id d' = held id d.
Proof.
  intros Hs. apply (msum_agree _ (fun k => k.1 = T_TOKEN_BALANCES)).
  - intros [t k] v Ht. destruct t; done.
  - intros [t k] E. cbn in E. subst t. now apply Hs.
Qed.
Lemma count_same id d d' : same_on (eq T_TOKEN_BALANCES) d d' -> holder_count id d' = holder_count id d.
Proof.
  intros Hs. apply (msum_agree _ (fun k => k.1 = T_TOKEN_BALANCES)).
  - intros [t k] v Ht. destruct t; done.
  - intros [t k] E. cbn in E. subst t. now apply Hs.
Qed.
Lemma ledger_same d d' : same_on not_smt d d' -> ledger_ok d -> ledger_ok d'.
Proof.
  intros Hs (Hp & Ht & Hl). split; [|split].
  - intros k v. rewrite Hs by done. apply Hp.
  - intros id t. unfold token. rewrite Hs by done. apply Ht.
  - intros id Hid. unfold token. rewrite Hs by done.
    assert (same_on (eq T_TOKEN_BALANCES) d d') as Hs' by (intros t k <-; now apply Hs).
    rewrite (held_same id d d' Hs'), (count_same id d d' Hs'). now apply Hl.
Qed.

(** ** One ledger write *)

(** The ledger row after [set_token_balance], without the Merkle mirror. *)
Definition put_balance (id addr : string) (n : N) (d : Db) : Db :=
  if n =? 0 then delete (T_TOKEN_BALANCES, balance_key id addr) d
  else <[(T_TOKEN_BALANCES, balance_key id addr) := text_row n]> d.

Lemma run_set_token_balance id addr n d : exists d',
  run (set_token_balance id addr n) d = (Ok tt, d') /\ same_on not_smt (put_balance id addr n d) d'.
Proof.
  unfold set_token_balance, put_balance. cbv zeta. rewrite run_if.
  destruct (n =? 0); runs; rewrite run_smt_set; eexists; (split; [done|apply same_smt_set]).
Qed.

Lemma run_set_token t d : exists d',
  run (set_token t) d = (Ok tt, d') /\ same_on not_smt (<[(T_TOKENS, t_id t) := VToken t]> d) d'.
Proof. unfold set_token. runs. rewrite run_smt_set. eexists. split; [done|apply same_smt_set]. Qed.

Lemma held_put id id' addr n d : colon_free id -> colon_free id' -> n <= U128_MAX ->
  held id (put_balance id' addr n d) + (if decide (id = id') then token_balance id addr d else 0) =
  held id d + (if decide (id = id') then n else 0).
Proof.
  intros H1 H2 Hn. unfold put_balance, held.
  set (f := fun (k : Key) (v : value) => if of_token id k then units v else 0).
  destruct (decide (id = id')) as [<-|Hne].
  - rewrite <- at_held by done. fold f. destruct (N.eqb_spec n 0) as [->|Hz].
    + pose proof (msum_delete f (T_TOKEN_BALANCES, balance_key id addr) d). lia.
    + pose proof (msum_insert f (T_TOKEN_BALANCES, balance_key id addr) (text_row n) d) as Hi.
      assert (f (T_TOKEN_BALANCES, balance_key id addr) (text_row n) = n) as Hf
        by (unfold f; rewrite of_token_key, bool_decide_true by done; now apply units_text).
      lia.
  - assert (forall v, f (T_TOKEN_BALANCES, balance_key id' addr) v = 0) as Hf
      by (intros; unfold f; now rewrite of_token_key, bool_decide_false).
    assert (at_key f (T_TOKEN_BALANCES, balance_key id' addr) d = 0) as Ha
      by (unfold at_key; destruct (d !! _); auto).
    destruct (n =? 0).
    + pose proof (msum_delete f (T_TOKEN_BALANCES, balance_key id' addr) d). lia.
    + pose proof (msum_insert f (T_TOKEN_BALANCES, balance_key id' addr) (text_row n) d). rewrite Hf in *. lia.
Qed.

Lemma count_put id id' addr n d : colon_free id -> colon_free id' -> positive_rows d ->
  holder_count id (put_balance id' addr n d) +
    (if decide (id = id') then if token_balance id addr d =? 0 then 0 else 1 else 0) =
  holder_count id d + (if decide (id = id') then if n =? 0 then 0 else 1 else 0).
Proof.
  intros H1 H2 Hp. unfold put_balance, holder_count.
  set (f := fun (k : Key) (_ : value) => if of_token id k then 1 else 0).
  destruct (decide (id = id')) as [<-|Hne].
  - rewrite <- at_count by done. fold f. destruct (N.eqb_spec n 0) as [->|Hz].
    + pose proof (msum_delete f (T_TOKEN_BALANCES, balance_key id addr) d). lia.
    + pose proof (msum_insert f (T_TOKEN_BALANCES, balance_key id addr) (text_row n) d) as Hi.
      assert (f (T_TOKEN_BALANCES, balance_key id addr) (text_row n) = 1) as Hf
        by (unfold f; now rewrite of_token_key, bool_decide_true).
      lia.
  - assert (forall v, f (T_TOKEN_BALANCES, balance_key id' addr) v = 0) as Hf
      by (intros; unfold f; now rewrite of_token_key, bool_decide_false).
    assert (at_key f (T_TOKEN_BALANCES, balance_key id' addr) d = 0) as Ha
      by (unfold at_key; destruct (d !! _); auto).
    destruct (n =? 0).
    + pose proof (msum_delete f (T_TOKEN_BALANCES, balance_key id' addr) d). lia.
    + pose proof (msum_insert f (T_TOKEN_BALANCES, balance_key id' addr) (text_row n) d). rewrite Hf in *. lia.
Qed.

Lemma positive_put id addr n d : n <= U128_MAX -> positive_rows d -> positive_rows (put_balance id addr n d).
Proof.
  intros Hn Hp k v. unfold put_balance. destruct (N.eqb_spec n 0).
  - intros Hk. apply lookup_delete_Some in Hk as [_ Hk]. eauto.
  - intros Hk. apply lookup_insert_Some in Hk as [[_ <-]|[_ Hk]]; [|eauto]. exists n. split; [done|lia].
Qed.

Lemma token_put id id' addr n d : token id (put_balance id' addr n d) = token id d.
Proof.
  unfold token, put_balance. destruct (n =? 0); [now rewrite lookup_delete_ne|now rewrite lookup_insert_ne].
Qed.

Definition put_token (t : Token) (d : Db) : Db := <[(T_TOKENS, t_id t) := VToken t]> d.

Lemma token_put_token id t d : token id (put_token t d) = if decide (id = t_id t) then Some t else token id d.
Proof.
  unfold token, put_token. destruct (decide (id = t_id t)) as [->|Hne].
  - now rewrite lookup_insert_eq.
  - now rewrite lookup_insert_ne by congruence.
Qed.

Lemma put_token_same t d : same_on (eq T_TOKEN_BALANCES) d (put_token t d).
Proof. intros t' k <-. unfold put_token. now rewrite lookup_insert_ne. Qed.

Lemma positive_put_token t d : positive_rows d -> positive_rows (put_token t d).
Proof. intros Hp k v. rewrite (put_token_same t d) by done. apply Hp. Qed.

Lemma put_token_balance t d id addr : token_balance id addr (put_token t d) = token_balance id addr d.
Proof. unfold token_balance. now rewrite (put_token_same t d). Qed.

(** Rewriting a token row to match its own ledger keeps the books. *)
Lemma ledger_put_token t d :
  positive_rows d -> colon_free (t_id t) ->
  (forall id t', token id d = Some t' -> colon_free id /\ t_id t' = id) ->
  (forall id, colon_free id -> id <> t_id t ->
     match token id d with
     | Some t' => t_supply t' = held id d /\ t_holders t' = holder_count id d
     | None => held id d = 0 /\ holder_count id d = 0
     end) ->
  t_supply t = held (t_id t) d -> t_holders t = holder_count (t_id t) d ->
  ledger_ok (put_token t d).
Proof.
  intros Hp Hid Ht Hl Hs Hh. split; [now apply positive_put_token|]. split.
  - intros id t'. rewrite token_put_token. case_decide; [intros [= <-]; now subst id|apply Ht].
  - intros id Hf. rewrite token_put_token, (held_same id d), (count_same id d) by apply put_token_same.
    case_decide; [now subst id|]. now apply Hl.
Qed.

(** One balance moves from its old amount to [n], and the row follows. *)
Lemma ledger_move id addr n t d d' :
  ledger_ok d -> colon_free id -> t_id t = id -> n <= U128_MAX ->
  t_supply t + token_balance id addr d = held id d + n ->
  t_holders t + (if token_balance id addr d =? 0 then 0 else 1) =
    holder_count id d + (if n =? 0 then 0 else 1) ->
  same_on not_smt (put_token t (put_balance id addr n d)) d' ->
  ledger_ok d'.
Proof.
  intros (Hp & Ht & Hl) Hid <- Hn Hs Hh Hsame. apply (ledger_same _ _ Hsame).
  pose proof (held_put (t_id t) (t_id t) addr n d Hid Hid Hn) as Hheld.
  pose proof (count_put (t_id t) (t_id t) addr n d Hid Hid Hp) as Hcount.
  rewrite !decide_True in Hheld, Hcount by done.
  apply ledger_put_token; [now apply positive_put|done| | |lia|lia].
  - intros id t'. rewrite token_put. apply Ht.
  - intros id Hf Hne. rewrite token_put.
    pose proof (held_put id (t_id t) addr n d Hf Hid Hn) as H1.
    pose proof (count_put id (t_id t) addr n d Hf Hid Hp) as H2.
    rewrite !decide_False in H1, H2 by done. rewrite !N.add_0_r in H1, H2. rewrite H1, H2. now apply Hl.
Qed.

(** What the move leaves to be read. *)
Lemma move_reads id addr n t d d' :
  t_id t = id -> n <= U128_MAX -> same_on not_smt (put_token t (put_balance id addr n d)) d' ->
  token id d' = Some t /\ token_balance id addr d' = n /\
  forall a, a <> addr -> token_balance id a d' = token_balance id a d.
Proof.
  intros <- Hn Hs. split; [|split].
  - unfold token. rewrite Hs by done. change (token (t_id t) (put_token t (put_balance (t_id t) addr n d)) = Some t).
    now rewrite token_put_token, decide_True.
  - unfold token_balance. rewrite Hs by done.
    change (token_balance (t_id t) addr (put_token t (put_balance (t_id t) addr n d)) = n).
    rewrite put_token_balance. unfold token_balance, put_balance. destruct (N.eqb_spec n 0) as [->|].
    + now rewrite lookup_delete_eq.
    + rewrite lookup_insert_eq. now apply (units_text n).
  - intros a Ha. unfold token_balance at 1. rewrite Hs by done.
    change (token_balance (t_id t) a (put_token t (put_balance (t_id t) addr n d)) = token_balance (t_id t) a d).
    rewrite put_token_balance. unfold token_balance, put_balance.
    assert ((T_TOKEN_BALANCES, balance_key (t_id t) addr) <> (T_TOKEN_BALANCES, balance_key (t_id t) a)) as Hne.
    { intros [= E]. apply append_inv_head in E. injection E as E. congruence. }
    destruct (n =? 0); [now rewrite lookup_delete_ne|now rewrite lookup_insert_ne].
Qed.

Lemma put_token_put_balance t id addr n d :
  put_token t (put_balance id addr n d) = put_balance id addr n (put_token t d).
Proof.
  unfold put_token, put_balance. destruct (n =? 0).
  - now rewrite delete_insert_ne.
  - now rewrite insert_insert_ne.
Qed.

Lemma same_on_put_balance id addr n d d' :
  same_on not_smt d d' -> same_on not_smt (put_balance id addr n d) (put_balance id addr n d').
Proof.
  intros Hs t k Ht. specialize (Hs t k Ht). unfold put_balance. destruct (n =? 0).
  - destruct (decide ((T_TOKEN_BALANCES, balance_key id addr) = (t, k))) as [<-|];
      [now rewrite !lookup_delete_eq|now rewrite !lookup_delete_ne].
  - destruct (decide ((T_TOKEN_BALANCES, balance_key id addr) = (t, k))) as [<-|];
      [now rewrite !lookup_insert_eq|now rewrite !lookup_insert_ne].
Qed.
Lemma same_on_put_token t d d' :
  same_on not_smt d d' -> same_on not_smt (put_token t d) (put_token t d').
Proof.
  intros Hs t' k Ht. specialize (Hs t' k Ht). unfold put_token.
  destruct (decide ((T_TOKENS, t_id t) = (t', k))) as [<-|];
    [now rewrite !lookup_insert_eq|now rewrite !lookup_insert_ne].
Qed.

(** ** Credit and debit *)

Lemma run_credit_token id addr amount t d :
  token id d = Some t -> t_id t = id ->
  token_balance id addr d + amount <= U128_MAX -> t_supply t + amount <= U128_MAX ->
  exists d', run (credit_token id addr amount) d = (Ok tt, d') /\
    let t1 := with_supply (t_supply t + amount) t in
    same_on not_smt
      (put_balance id addr (token_balance id addr d + amount)
        (put_token (if (token_balance id addr d =? 0) && (0 <? amount)
                    then with_holders (t_holders t +!! 1) t1 else t1) d)) d'.
Proof.
  intros Ht Hid Hb Hs. unfold credit_token. runs. unfold checked_add128.
  rewrite (proj2 (N.leb_le _ _) Hb). cbn [ok_or]. runs. rewrite Ht. runs.
  rewrite (proj2 (N.leb_le _ _) Hs). cbn [ok_or]. runs.
  match goal with |- context [set_token ?x] => set (t2 := x) end. destruct (run_set_token t2 d) as (d1 & -> & H1).
  destruct (run_set_token_balance id addr (token_balance id addr d + amount) d1) as (d2 & -> & H2).
  exists d2. split; [done|]. etransitivity; [|exact H2]. now apply same_on_put_balance.
Qed.

Lemma ledger_row id t d : ledger_ok d -> token id d = Some t ->
  colon_free id /\ t_id t = id /\ t_supply t = held id d /\ t_holders t = holder_count id d.
Proof.
  intros (_ & Hreg & Hbook) Ht. destruct (Hreg _ _ Ht) as [Hid Htid]. specialize (Hbook id Hid).
  rewrite Ht in Hbook. tauto.
Qed.

(** A successful credit keeps the books. *)
Lemma credit_token_ledger id addr amount t d u d' :
  ledger_ok d -> token id d = Some t -> holder_count id d < U64_MAX ->
  run (credit_token id addr amount) d = (Ok u, d') ->
  ledger_ok d' /\ held id d' = held id d + amount /\
  token_balance id addr d' = token_balance id addr d + amount /\
  forall a, a <> addr -> token_balance id a d' = token_balance id a d.
Proof.
  intros Hl Ht Hc E. destruct (ledger_row _ _ _ Hl Ht) as (Hid & Htid & Hs & Hh).
  assert (token_balance id addr d + amount <= U128_MAX /\ t_supply t + amount <= U128_MAX) as [Hb1 Hb2].
  { revert E. unfold credit_token. runs. unfold checked_add128.
    destruct (N.leb_spec (token_balance id addr d + amount) U128_MAX); [|done]. cbn [ok_or]. runs.
    rewrite Ht. runs. destruct (N.leb_spec (t_supply t + amount) U128_MAX); [|done]. done. }
  destruct (run_credit_token id addr amount t d Ht Htid Hb1 Hb2) as (d2 & E2 & Hsame).
  rewrite E in E2. injection E2 as _ <-. cbv zeta in Hsame. rewrite <- put_token_put_balance in Hsame.
  match type of Hsame with context [put_token ?x] => set (t2 := x) in Hsame end.
  assert (t_id t2 = id) as Hid2 by (subst t2; now destruct (_ && _)).
  assert (t_supply t2 = t_supply t + amount) as Hs2 by (subst t2; now destruct (_ && _)).
  destruct (move_reads _ _ _ _ _ _ Hid2 Hb1 Hsame) as (Hrow & Hbal & Hoth).
  enough (ledger_ok d') as Hl'.
  { split; [done|]. destruct (ledger_row _ _ _ Hl' Hrow) as (_ & _ & Hs' & _). split; [lia|]. split; done. }
  eapply (ledger_move id addr (token_balance id addr d + amount)); [exact Hl|done| |done| | |exact Hsame].
  - done.
  - lia.
  - subst t2. unfold U64_MAX in Hc.
    destruct (N.eqb_spec (token_balance id addr d) 0) as [Hz|Hz], (N.ltb_spec 0 amount) as [Ha|Ha];
      cbn [andb]; cbn [t_holders with_supply with_holders];
      destruct (N.eqb_spec (token_balance id addr d + amount) 0);
      try (rewrite wadd_small by (rewrite pow_64; lia)); lia.
Qed.

(** A successful debit of a positive amount keeps the books. *)
Lemma debit_token_ledger id addr amount t d u d' :
  ledger_ok d -> token id d = Some t -> 0 < amount ->
  run (debit_token id addr amount) d = (Ok u, d') ->
  ledger_ok d' /\ held id d = held id d' + amount /\
  token_balance id addr d = token_balance id addr d' + amount /\
  is_Some (token id d') /\ holder_count id d' <= holder_count id d /\
  forall a, a <> addr -> token_balance id a d' = token_balance id a d.
Proof.
  intros Hl Ht Ha E. destruct (ledger_row _ _ _ Hl Ht) as (Hid & Htid & Hs & Hh).
  pose proof (token_balance_max id addr d (proj1 Hl)) as Hmax.
  revert E. unfold debit_token. runs. destruct (N.ltb_spec (token_balance id addr d) amount) as [|Hle]; [done|].
  unfold U128_MAX in Hmax. rewrite wsub_small by (rewrite ?pow_128; lia).
  destruct (run_set_token_balance id addr (token_balance id addr d - amount) d) as (d1 & E1 & H1).
  rewrite E1. runs. assert (token id d1 = Some t) as Ht1.
  { unfold token. rewrite H1 by done. change (token id (put_balance id addr (token_balance id addr d - amount) d) = Some t).
    now rewrite token_put. }
  rewrite Ht1. match goal with |- context [set_token ?x] => set (t2 := x) end. destruct (run_set_token t2 d1) as (d2 & E2 & H2). rewrite E2.
  intros [= <- <-].
  assert (token_balance id addr d <= held id d) as Hhb by (rewrite <- at_held by done; apply msum_at_le).
  assert (1 <= holder_count id d) as Hhc.
  { transitivity (if token_balance id addr d =? 0 then 0 else 1); [destruct (N.eqb_spec (token_balance id addr d) 0); lia|].
    rewrite <- at_count by (done || apply Hl). apply msum_at_le. }
  assert (same_on not_smt (put_token t2 (put_balance id addr (token_balance id addr d - amount) d)) d2) as Hsame
    by (transitivity (put_token t2 d1); [now apply same_on_put_token|exact H2]).
  assert (t_id t2 = id) as Hid2 by (subst t2; now case_match).
  assert (t_supply t2 = t_supply t - amount) as Hs2 by (subst t2; now case_match).
  assert (token_balance id addr d - amount <= U128_MAX) as Hn by (unfold U128_MAX; lia).
  destruct (move_reads _ _ _ _ _ _ Hid2 Hn Hsame) as (Hrow & Hbal & Hoth).
  enough (ledger_ok d2) as Hl'.
  { destruct (ledger_row _ _ _ Hl' Hrow) as (_ & _ & Hs' & Hh'). split; [done|]. split; [lia|].
    split; [lia|]. split; [eauto|]. split; [|exact Hoth]. rewrite <- Hh', <- Hh. subst t2. unfold sat_sub.
    case_match; cbn [t_holders with_supply with_holders]; lia. }
  apply (ledger_move id addr (token_balance id addr d - amount) t2 d d2 Hl Hid Hid2); [| | |exact Hsame].
  - exact Hn.
  - lia.
  - subst t2. unfold sat_sub. destruct (N.eqb_spec (token_balance id addr d - amount) 0);
      destruct (N.eqb_spec (token_balance id addr d) 0); cbn [t_holders with_supply with_holders]; lia.
Qed.

(** ** The handlers *)

Lemma all_hex_colon_free s : all_chars is_hex s = true -> colon_free s.
Proof.
  intros Hs. apply (all_chars_not_contains is_hex); [done|reflexivity].
Qed.

Lemma token_id_colon_free `{!CryptoLaws} creator nonce symbol : colon_free (token_id creator nonce symbol).
Proof.
  unfold token_id, colon_free. rewrite contains_char_app. cbn [contains_char].
  apply (all_hex_colon_free _ (hex_chars _)).
Qed.

Lemma payload_inv (p : option Payload) q : payload p = Ok q -> p = Some q.
Proof. destruct p; [now intros [= ->]|done]. Qed.

(** Opens a handler's guards in an equation [run .. = (Ok _, _)]. *)
Ltac open_token E :=
  revert E; runs;
  repeat match goal with
  | |- context [payload ?p] => destruct (payload p) eqn:?; [|done]; runs
  | |- context [ok_or ?o _] => destruct o eqn:?; cbn [ok_or]; [|done]; runs
  end.

Lemma create_books `{!CryptoLaws} sender nonce amount height p d id d' :
  ledger_ok d -> run (apply_create sender nonce amount height p) d = (Ok id, d') ->
  ledger_ok d' /\ held id d' = amount /\ token id d = None.
Proof.
  intros (Hp & Hreg & Hbook) E. unfold apply_create in E. open_token E.
  destruct (normalize_symbol _) as [symbol|]; [|done]. runs. destruct (MAX_DECIMALS <? _); [done|]. runs.
  set (nid := token_id sender nonce symbol). pose proof (token_id_colon_free sender nonce symbol) as Hf. fold nid in Hf.
  destruct (token nid d) eqn:Hnone; [rewrite bool_decide_true by eauto; done|].
  rewrite bool_decide_false by (intros [? ?]; done). runs.
  match goal with |- context [set_token ?x] => set (t0 := x) end.
  specialize (Hbook nid Hf) as H0. rewrite Hnone in H0. destruct H0 as [Hh0 Hc0].
  destruct (run_set_token t0 d) as (d1 & -> & H1). runs.
  assert (ledger_ok d1) as Hl1.
  { apply (ledger_same _ _ H1). apply ledger_put_token; [done|exact Hf|exact Hreg| |exact (eq_sym Hh0)|exact (eq_sym Hc0)].
    intros id' Hf' _. now apply Hbook. }
  assert (token nid d1 = Some t0) as Ht1.
  { unfold token. rewrite H1 by done. change (token nid (put_token t0 d) = Some t0).
    now rewrite token_put_token, decide_True. }
  destruct (ledger_row _ _ _ Hl1 Ht1) as (_ & _ & Hs1 & Hn1).
  change (0 = held nid d1) in Hs1. change (0 = holder_count nid d1) in Hn1.
  destruct (N.ltb_spec 0 amount).
  - destruct (run (credit_token nid sender amount) d1) as [[u|e] d2] eqn:E2; runs; [|done].
    intros [= <- <-]. destruct (credit_token_ledger _ _ _ _ _ _ _ Hl1 Ht1 ltac:(rewrite <- Hn1; done) E2) as (? & Hh & _).
    split; [done|]. split; [lia|done].
  - runs. intros [= <- <-]. split; [done|]. split; [lia|done].
Qed.

Lemma mint_books sender to amount q d u d' :
  ledger_ok d -> (forall id, holder_count id d < U64_MAX) ->
  run (apply_mint sender to amount (Some q)) d = (Ok u, d') ->
  ledger_ok d' /\ held (p_token q) d' = held (p_token q) d + amount.
Proof.
  intros Hl Hc E. unfold apply_mint, payload in E. cbn [ok_or] in E. open_token E.
  destruct (_ || _); [done|]. destruct (ledger_row _ _ _ Hl Heqo) as (_ & -> & _). intros E.
  destruct (credit_token_ledger _ _ _ _ _ _ _ Hl Heqo (Hc _) E) as (? & ? & _). done.
Qed.

Lemma burn_books sender amount q d u d' :
  ledger_ok d -> 0 < amount -> run (apply_burn sender amount (Some q)) d = (Ok u, d') ->
  ledger_ok d' /\ held (p_token q) d = held (p_token q) d' + amount.
Proof.
  intros Hl Ha E. unfold apply_burn, payload in E. cbn [ok_or] in E. open_token E.
  destruct (ledger_row _ _ _ Hl Heqo) as (_ & -> & _). intros E.
  destruct (debit_token_ledger _ _ _ _ _ _ _ Hl Heqo Ha E) as (? & ? & _). done.
Qed.

Lemma transfer_books sender to amount q d u d' :
  ledger_ok d -> (forall id, holder_count id d < U64_MAX) -> 0 < amount ->
  run (apply_token_transfer sender to amount (Some q)) d = (Ok u, d') ->
  ledger_ok d' /\ held (p_token q) d' = held (p_token q) d /\
  (sender <> to -> token_balance (p_token q) sender d = token_balance (p_token q) sender d' + amount /\
     token_balance (p_token q) to d' = token_balance (p_token q) to d + amount).
Proof.
  intros Hl Hc Ha E. unfold apply_token_transfer, payload in E. cbn [ok_or] in E. open_token E. rewrite run_if.
  destruct (String.eqb_spec sender to) as [->|Hne].
  { rewrite run_ret. intros [= _ <-]. split; [done|]. split; done. }
  destruct (ledger_row _ _ _ Hl Heqo) as (_ & -> & _). runs.
  destruct (run (debit_token _ _ _) d) as [[u1|e] d1] eqn:E1; [|done]. intros E2.
  destruct (debit_token_ledger _ _ _ _ _ _ _ Hl Heqo Ha E1) as (Hl1 & Hh1 & Hb1 & [t1 Ht1] & Hc1 & Ho1).
  assert (holder_count (p_token q) d1 < U64_MAX) as Hc' by (eapply N.le_lt_trans; [exact Hc1|apply Hc]).
  destruct (credit_token_ledger _ _ _ _ _ _ _ Hl1 Ht1 Hc' E2) as (? & ? & Hb2 & Ho2).
  split; [done|]. split; [lia|]. intros Hne2. rewrite Hb2, (Ho2 sender), (Ho1 to) by congruence. split; lia.
Qed.

Lemma check_transfer_positive d sender to amount p : check_token_transfer d sender to amount p = Ok tt -> 0 < amount.
Proof.
  unfold check_token_transfer. destruct (payload p) as [q|]; cbn; [|done].
  destruct (token (p_token q) d); cbn; [|done].
  destruct (N.eqb_spec amount 0); [done|]. intros _. lia.
Qed.
Lemma check_burn_positive d sender amount p : check_burn d sender amount p = Ok tt -> 0 < amount.
Proof.
  unfold check_burn. destruct (payload p) as [q|]; cbn; [|done].
  destruct (token (p_token q) d); cbn; [|done].
  destruct (N.eqb_spec amount 0); [done|]. intros _. lia.
Qed.

(** C20: the books of every token balance.  In a ledger where each registered
    token's supply is the sum of its balances and its holder count the number of
    non-zero ones, creating, minting, transferring and burning (guarded by their
    checks, as [apply_tx] runs them) keep it so; a mint adds exactly its amount
    to the units held, a burn removes exactly its amount, a transfer changes
    nothing in total. *)
Theorem token_books_balance `{!CryptoLaws} d d' :
  ledger_ok d -> (forall id, holder_count id d < U64_MAX) ->
  (forall sender nonce amount height p id, check_create d sender nonce p = Ok tt ->
     run (apply_create sender nonce amount height p) d = (Ok id, d') ->
     ledger_ok d' /\ held id d' = amount /\ token id d = None) /\
  (forall sender to amount p q u, p = Some q -> check_mint d sender to amount p = Ok tt ->
     run (apply_mint sender to amount p) d = (Ok u, d') ->
     ledger_ok d' /\ held (p_token q) d' = held (p_token q) d + amount) /\
  (forall sender to amount p q u, p = Some q -> check_token_transfer d sender to amount p = Ok tt ->
     run (apply_token_transfer sender to amount p) d = (Ok u, d') ->
     ledger_ok d' /\ held (p_token q) d' = held (p_token q) d /\
     (sender <> to ->
        token_balance (p_token q) sender d = token_balance (p_token q) sender d' + amount /\
        token_balance (p_token q) to d' = token_balance (p_token q) to d + amount)) /\
  (forall sender amount p q u, p = Some q -> check_burn d sender amount p = Ok tt ->
     run (apply_burn sender amount p) d = (Ok u, d') ->
     ledger_ok d' /\ held (p_token q) d = held (p_token q) d' + amount).
Proof.
  intros Hl Hc. split; [|split; [|split]].
  - intros sender nonce amount height p id _ E. now apply (create_books _ _ _ _ _ _ _ _ Hl E).
  - intros sender to amount p q u -> _ E. now apply (mint_books _ _ _ _ _ _ _ Hl Hc E).
  - intros sender to amount p q u -> Hk E. apply check_transfer_positive in Hk.
    now apply (transfer_books _ _ _ _ _ _ _ Hl Hc Hk E).
  - intros sender amount p q u -> Hk E. apply check_burn_positive in Hk.
    now apply (burn_books _ _ _ _ _ _ Hl Hk E).
Qed.
End ledger.

Lemma ledger_ok_empty `{Crypto} : ledger_ok ∅.
Proof.
  split; [|split].
  - intros k v. now rewrite lookup_empty.
  - intros id t. unfold token. now rewrite lookup_empty.
  - intros id _. unfold token. rewrite lookup_empty. split; apply msum_empty.
Qed.

Module Token_example.
Import Toy Toy_field.
#[local] Instance toy_compression : Compression := fun a b => f_add a (f_mul b b).

Definition p : Payload := Build_Payload "" "gem" "Gem" 2 true "" "".
Definition gem : string := token_id "alice" 0 "GEM".
Definition gem_row (n h : N) : Token := Build_Token gem "GEM" "Gem" 2 n "alice" true 1 h.

(** Creating 500 GEM in the empty state succeeds. *)
Lemma create_runs : exists d', run (apply_create "alice" 0 500 1 (Some p)) ∅ = (Ok gem, d').
Proof.
  assert (normalize_symbol "gem" = Ok "GEM") as Hs by reflexivity.
  unfold apply_create, payload. cbn [ok_or]. runs. cbn [p_symbol p]. rewrite Hs. runs.
  change (MAX_DECIMALS <? p_decimals p) with false. cbv iota. runs. fold gem.
  assert (token gem ∅ = None) as -> by reflexivity. rewrite bool_decide_false by (intros [? ?]; done). runs.
  match goal with |- context [set_token ?x] => change x with (gem_row 0 0) end.
  destruct (run_set_token (gem_row 0 0) ∅) as (d1 & -> & H1). change (0 <? 500) with true. cbv iota. runs.
  assert (token gem d1 = Some (gem_row 0 0)) as Ht by (unfold token; rewrite H1 by done; now rewrite lookup_insert_eq).
  assert (token_balance gem "alice" d1 = 0) as Hb.
  { unfold token_balance. rewrite H1 by done. now rewrite lookup_insert_ne, lookup_empty. }
  destruct (run_credit_token gem "alice" 500 (gem_row 0 0) d1 Ht eq_refl) as (d2 & -> & _);
    [rewrite Hb; discriminate|discriminate|]. runs. eauto.
Qed.

Lemma token_books_balance_witness :
  exists d', run (apply_create "alice" 0 500 1 (Some p)) ∅ = (Ok gem, d') /\
    ledger_ok d' /\ held gem d' = 500.
Proof.
  destruct create_runs as [d' E]. exists d'. split; [exact E|].
  destruct (token_books_balance ∅ d' ledger_ok_empty) as (Hcreate & _).
  { intros id. unfold holder_count. rewrite msum_empty. reflexivity. }
  destruct (Hcreate "alice" 0 500 1 (Some p) gem) as (Hl & Hh & _); [reflexivity|exact E|].
  split; [exact Hl|exact Hh].
Defined.
End Token_example.
