(* ===== verification/Slashing.v ===== *)
(** slashing.rs: evidence of equivocation, burns, tombstones, downtime jails and
    the inactivity leak; and the [Vote] of consensus.rs evidence is made of. *)

From S2P Require Import Prelude Bytes Crypto Types Journal Store Smt SmtFacts Poseidon Shielded State StateFacts Staking.
From Stdlib Require Import Ascii.
From Stdlib Require String.

(* [src/src/chain.rs 38-38 MAX_LEADER_ATTEMPTS] *)
Definition MAX_LEADER_ATTEMPTS : N := 4096.

(** ** Signed objects *)

(* [src/src/consensus.rs 19-27 Vote] *)
Record Vote := { vote_height : N; vote_hash : string; voter_pubkey : string; vote_signature : string }.

#[export] Instance Vote_eq_dec : EqDecision Vote.
Proof. solve_decision. Defined.

(* [src/src/slashing.rs 30-42 HeaderProof] *)
Record HeaderProof := {
  hp_height : N; hp_parent_hash : string; hp_timestamp_ms : N; hp_state_root : string;
  hp_txs_root : string; hp_producer : string; hp_producer_pubkey : string;
  hp_signature : string; hp_hash : string
}.

(* [src/src/slashing.rs 45-57 HeaderProof::from_block] *)
Definition from_block (b : Block) : HeaderProof := {|
  hp_height := b_height b; hp_parent_hash := b_parent_hash b; hp_timestamp_ms := b_timestamp_ms b;
  hp_state_root := b_state_root b; hp_txs_root := b_txs_root b; hp_producer := b_producer b;
  hp_producer_pubkey := b_producer_pubkey b; hp_signature := b_signature b; hp_hash := b_hash b |}.

(* [src/src/slashing.rs 59-72 HeaderProof::as_block] *)
Definition as_header_block (h : HeaderProof) : Block := {|
  b_height := hp_height h; b_parent_hash := hp_parent_hash h; b_timestamp_ms := hp_timestamp_ms h;
  b_state_root := hp_state_root h; b_txs_root := hp_txs_root h; b_producer := hp_producer h;
  b_producer_pubkey := hp_producer_pubkey h; b_transactions := []; b_signature := hp_signature h;
  b_hash := hp_hash h |}.

(* [src/src/slashing.rs 82-89 Evidence] *)
Inductive Evidence :=
| EvBlock (a b : HeaderProof)
| EvVote (a b : Vote).

(* [src/src/slashing.rs 92-97 Evidence::label] *)
Definition ev_label (e : Evidence) : string :=
  match e with EvBlock _ _ => "double-sign" | EvVote _ _ => "double-vote" end.
(* [src/src/slashing.rs 99-104 Evidence::height] *)
Definition ev_height (e : Evidence) : N :=
  match e with EvBlock a _ => hp_height a | EvVote a _ => vote_height a end.

(** serde_json of [Evidence]. *)
Class EvidenceJson := {
  evidence_to_json : Evidence -> string;
  evidence_from_json : string -> result Evidence
}.

(* [src/src/slashing.rs 200-207 equivocation_burn_pct] *)
Definition equivocation_burn_pct (offender_stake total_stake : N) : N :=
  if total_stake =? 0 then EQUIVOCATION_MIN_BURN_PCT
  else
    let share_pct := sat_mul128 offender_stake 100 / total_stake in
    let correlated := sat_mul128 share_pct EQUIVOCATION_CORRELATION_FACTOR in
    N.min (N.max correlated EQUIVOCATION_MIN_BURN_PCT) 100.

Section slashing.
Context {HC : Crypto} {HF : Fr} {HK : Compression} {HP : ChainParams} {HJ : EvidenceJson}.

(* [src/src/consensus.rs 30-32 Vote::signing_bytes] *)
Definition vote_signing_bytes (v : Vote) : string :=
  "inazuma-vote|" +:+ dec CHAIN_ID +:+ "|" +:+ dec (vote_height v) +:+ "|" +:+ vote_hash v.
(* [src/src/consensus.rs 34-42 Vote::voter] *)
Definition voter (v : Vote) : option string := address_of_hex_key (voter_pubkey v).
(* [src/src/consensus.rs 44-51 Vote::verify_signature] *)
Definition vote_verify_signature (v : Vote) : bool :=
  delimiter_free (vote_hash v) && delimiter_free (voter_pubkey v) &&
  verify (voter_pubkey v) (vote_signing_bytes v) (vote_signature v).

(* [src/src/slashing.rs 75-77 HeaderProof::is_authentic] *)
Definition is_authentic (h : HeaderProof) : bool := verify_producer (as_header_block h).

Definition ev_offender (e : Evidence) : string :=
  match e with
  | EvBlock a _ => hp_producer a
  | EvVote a _ => match voter a with Some v => v | None => "" end
  end.
(** [hashes.sort(); hashes.join("+")] of the two hashes. *)
Definition join_sorted (x y : string) : string :=
  if String.leb x y then x +:+ "+" +:+ y else y +:+ "+" +:+ x.

(* [src/src/slashing.rs 107-124 Evidence::id] *)
Definition ev_id (e : Evidence) : string :=
  let hashes := match e with
    | EvBlock a b => join_sorted (hp_hash a) (hp_hash b)
    | EvVote a b => join_sorted (vote_hash a) (vote_hash b)
    end in
  ev_label e +:+ ":" +:+ dec (ev_height e) +:+ ":" +:+ ev_offender e +:+ ":" +:+ hashes.

(* [src/src/slashing.rs 127-179 Evidence::verify] *)
Definition ev_verify (e : Evidence) : result string :=
  match e with
  | EvBlock a b =>
    if negb (hp_height a =? hp_height b) then Err "evidence heights differ"
    else if hp_height a =? 0 then Err "genesis cannot equivocate"
    else if String.eqb (hp_hash a) (hp_hash b) then Err "both headers are the same block"
    else if negb (String.eqb (hp_producer a) (hp_producer b)) ||
            negb (String.eqb (hp_producer_pubkey a) (hp_producer_pubkey b)) then
      Err "headers were sealed by different validators"
    else if negb (is_authentic a) || negb (is_authentic b) then Err "header signature does not verify"
    else Ok (hp_producer a)
  | EvVote a b =>
    if negb (vote_height a =? vote_height b) then Err "evidence heights differ"
    else if vote_height a =? 0 then Err "no votes at genesis"
    else if String.eqb (vote_hash a) (vote_hash b) then Err "both votes cover the same block"
    else if negb (String.eqb (voter_pubkey a) (voter_pubkey b)) then Err "votes came from different validators"
    else if negb (vote_verify_signature a) || negb (vote_verify_signature b) then
      Err "vote signature does not verify"
    else
      v ← ok_or (voter a) "invalid voter public key";
      raw ← ok_or (hex_decode (voter_pubkey a)) "bad pubkey hex";
      if negb (Nat.eqb (slen raw) 32) then Err "bad pubkey length"
      else if negb (String.eqb (address_from_pubkey raw) v) then Err "voter address mismatch"
      else if negb (verify (voter_pubkey a) (vote_signing_bytes a) (vote_signature a)) then
        Err "vote A signature invalid"
      else Ok v
  end.

(* [src/src/slashing.rs 458-463 encode] *)
Definition encode (e : Evidence) : Payload :=
  Build_Payload "" "" "" 0 false "" (hex_encode (evidence_to_json e)).

(* [src/src/slashing.rs 465-475 decode] *)
Definition decode (p : option Payload) : result Evidence :=
  p ← ok_or p "report carries no evidence";
  if String.eqb (p_args p) "" then Err "report carries no evidence"
  else
    raw ← ok_or (hex_decode (p_args p)) "evidence is not valid hex";
    if Nat.ltb (64 * 1024) (slen raw) then Err "evidence too large"
    else evidence_from_json raw.

(* [src/src/slashing.rs 210-233 check_report] *)
Definition check_report (d : Db) (height : N) (p : option Payload) : result Evidence :=
  e ← decode p;
  offender ← ev_verify e;
  if height <? ev_height e then Err "evidence is from the future"
  else if EVIDENCE_MAX_AGE_BLOCKS <? sat_sub height (ev_height e) then Err "evidence is too old to punish"
  else if bool_decide (is_Some (slash (ev_id e) d)) then Err "this offence has already been slashed"
  else
    let a := account offender d in
    if tombstoned (penalties a) then Err "validator is already tombstoned"
    else if (staked a =? 0) && (unbonding_total a =? 0) then Err "offender has no stake left to slash"
    else Ok e.

(** One unbonding entry cut by [pct], and the cut. *)
Definition cut_of (pct : N) (u : Unbond) : N := u_amount u *! pct / 100.
Definition cut_unbond (pct : N) (u : Unbond) : Unbond :=
  {| u_amount := u_amount u -! cut_of pct u; release_height := release_height u |}.

(** The offender's account after the burn, and what was taken. *)
Definition burn_account (pct : N) (a : Account) : Account * N :=
  let burned := staked a *! pct / 100 in
  let unbonding' := List.filter (fun u => 0 <? u_amount u) (map (cut_unbond pct) (unbonding a)) in
  let total := foldl (fun n u => n +! cut_of pct u) burned (unbonding a) in
  let p := penalties a in
  (with_penalties
     (Build_Penalties TOMBSTONE_HEIGHT true (slashed p +! total) (missed_slots p) (missed_streak p)
        (downtime_jails p) true (leaked p))
     (with_unbonding unbonding' (with_staked (staked a -! burned) a)), total).

(* [src/src/slashing.rs 238-302 apply_report] *)
Definition apply_report (height : N) (reporter : string) (e : Evidence) : M SlashRecord :=
  offender ← lift (ev_verify e);
  old ← gets (slash (ev_id e));
  fail_if (bool_decide (is_Some old)) "this offence has already been slashed" ;;
  a ← gets (account offender);
  fail_if (tombstoned (penalties a)) "validator is already tombstoned" ;;
  total ← gets total_staked;
  let pct := equivocation_burn_pct (staked a) total in
  let '(a', burned) := burn_account pct a in
  set_account offender a' ;;
  let bounty := burned *! REPORTER_BOUNTY_PCT / 100 in
  bounty ← (if (0 <? bounty) && negb (String.eqb reporter offender) then
              r ← gets (account reporter);
              set_account reporter (with_balance (balance r +! bounty) r) ;;
              mret bounty
            else mret 0);
  let record := {|
    s_id := ev_id e; s_offence := ev_label e; s_offender := offender; s_offence_height := ev_height e;
    s_applied_height := height; s_burned := burned -! bounty; s_bounty := bounty; s_reporter := reporter;
    s_tombstoned := true; s_jailed_until := TOMBSTONE_HEIGHT |} in
  put_slash record ;;
  mret record.

(** [jailed_until = 0; missed_streak = 0] *)
Definition clear_jail (a : Account) : Account :=
  let p := penalties a in
  with_penalties (Build_Penalties 0 (tombstoned p) (slashed p) (missed_slots p) 0 (downtime_jails p)
    (jail_fault p) (leaked p)) a.

(* [src/src/slashing.rs 306-338 apply_unjail] *)
Definition apply_unjail (height : N) (addr : string) : M unit :=
  a ← gets (account addr);
  let p := penalties a in
  fail_if (tombstoned p) "tombstoned validators can never rejoin" ;;
  fail_if (jailed_until p =? 0) "validator is not jailed" ;;
  fail_if (jail_fault p) "this jail came from a provable fault and cannot be lifted" ;;
  if height <? jailed_until p then
    if negb (downtime_jail_enabled height) then set_account addr (clear_jail a)
    else throw ("still jailed for " +:+ dec (jailed_until p -!! height) +:+ " more blocks")
  else set_account addr (clear_jail a).

(** ** Liveness *)

Definition attempts (n : N) : list N := map N.of_nat (seq 0 (N.to_nat n)).

(** The lowest attempt that elects the producer. *)
Definition used_attempt (set : list Validator) (height : N) (parent_hash producer : string) : option N :=
  List.find (fun a => bool_decide (elect_leader_attempt set height parent_hash a = Some producer))
    (attempts MAX_LEADER_ATTEMPTS).

(** Leaders of the attempts before [used], each once, in order. *)
Definition missed_leaders (set : list Validator) (height : N) (parent_hash producer : string) (used : N) : list string :=
  foldl (fun missed a =>
    match elect_leader_attempt set height parent_hash a with
    | Some leader =>
      if negb (String.eqb leader producer) && negb (bool_decide (leader ∈ missed)) then missed ++ [leader] else missed
    | None => missed
    end) [] (attempts used).

(** [missed_slots += 1; missed_streak += 1] *)
Definition note_miss (p : Penalties) : Penalties :=
  Build_Penalties (jailed_until p) (tombstoned p) (slashed p) (missed_slots p +!! 1) (missed_streak p +!! 1)
    (downtime_jails p) (jail_fault p) (leaked p).

Definition leak (a : Account) : Account :=
  let p := penalties a in
  let decay := staked a *! INACTIVITY_LEAK_BPS / 10000 in
  if 0 <? decay then
    with_penalties (Build_Penalties (jailed_until p) (tombstoned p) (slashed p +! decay) (missed_slots p)
      (missed_streak p) (downtime_jails p) (jail_fault p) (leaked p +! decay))
      (with_staked (staked a -! decay) a)
  else a.

(** The jailed account and the burn of a repeat offence. *)
Definition jail (height : N) (a : Account) : Account * N :=
  let p := penalties a in
  let jails := downtime_jails p +!! 1 in
  let burned := if 1 <? jails then staked a *! DOWNTIME_REPEAT_BURN_BPS / 10000 else 0 in
  (with_penalties (Build_Penalties (height +!! DOWNTIME_JAIL_BLOCKS) (tombstoned p) (slashed p +! burned)
     (missed_slots p) 0 jails false (leaked p))
     (with_staked (staked a -! burned) a), burned).

Definition charge_missed (height : N) (addr : string) : M unit :=
  a ← gets (account addr);
  let a := with_penalties (note_miss (penalties a)) a in
  let p := penalties a in
  if negb (downtime_jail_enabled height) then
    set_account addr
      (if inactivity_leak_enabled height && (INACTIVITY_LEAK_STREAK <=? missed_streak p) && negb (tombstoned p)
       then leak a else a)
  else if (DOWNTIME_JAIL_STREAK <=? missed_streak p) && negb (tombstoned p) then
    let '(a', burned) := jail height a in
    set_account addr a' ;;
    put_slash {|
      s_id := "downtime:" +:+ dec height +:+ ":" +:+ addr; s_offence := "downtime"; s_offender := addr;
      s_offence_height := height; s_applied_height := height; s_burned := burned; s_bounty := 0;
      s_reporter := ""; s_tombstoned := false; s_jailed_until := height +!! DOWNTIME_JAIL_BLOCKS |}
  else set_account addr a.

(** Sealing a block clears the producer's streak, and after the liveness fork a
    downtime jail. *)
Definition clear_producer (height : N) (producer : string) : M unit :=
  a ← gets (account producer);
  let p := penalties a in
  let forgiven := negb (downtime_jail_enabled height) && negb (jailed_until p =? 0) && negb (jail_fault p) &&
    negb (tombstoned p) && negb (jailed_until p =? TOMBSTONE_HEIGHT) in
  when_ (negb (missed_streak p =? 0) || forgiven)
    (set_account producer (with_penalties
      (Build_Penalties (if forgiven then 0 else jailed_until p) (tombstoned p) (slashed p) (missed_slots p) 0
        (downtime_jails p) (jail_fault p) (leaked p)) a)).

(* [src/src/slashing.rs 345-455 record_liveness] *)
Definition record_liveness (height : N) (parent_hash producer : string) : M unit :=
  if height <? slashing_activation then mret tt
  else
    set ← gets (fun d => validator_set_at d height);
    if Nat.ltb (length set) 2 then mret tt
    else match used_attempt set height parent_hash producer with
    | None => mret tt
    | Some used =>
      for_each (missed_leaders set height parent_hash producer used) (charge_missed height) ;;
      clear_producer height producer
    end.

#[export] Instance journaled_apply_report h r e : Journaled (apply_report h r e).
Proof. unfold apply_report. journaled. Qed.
#[export] Instance journaled_apply_unjail h a : Journaled (apply_unjail h a).
Proof. unfold apply_unjail. journaled. Qed.
#[export] Instance journaled_charge_missed h a : Journaled (charge_missed h a).
Proof. unfold charge_missed. journaled. Qed.
#[export] Instance journaled_clear_producer h a : Journaled (clear_producer h a).
Proof. unfold clear_producer. journaled. Qed.
#[export] Instance journaled_record_liveness h p q : Journaled (record_liveness h p q).
Proof. unfold record_liveness. journaled. Qed.
End slashing.
#[global] Typeclasses Opaque apply_report apply_unjail charge_missed clear_producer record_liveness.
