(* ===== verification/SlashingFacts.v ===== *)
(** Theorems about slashing.rs: what a report burns and who is paid, that one
    offence is punished once, and what evidence proves. *)

From S2P Require Import Prelude Bytes Crypto Types Journal Store Smt SmtFacts Poseidon Shielded State StateFacts Staking StakingFacts Slashing.
From Stdlib Require Import Ascii.
From Stdlib Require String.

(** the equivocation burn is between 5 and 100 percent, grows with the
    offender's stake, and takes everything from a third of the stake (34
    percent) upwards; no product overflows. *)
Theorem burn_pct_bounds stake stake' total :
  EQUIVOCATION_MIN_BURN_PCT <= equivocation_burn_pct stake total <= 100 /\
  (stake <= stake' -> equivocation_burn_pct stake total <= equivocation_burn_pct stake' total) /\
  (total <> 0 -> stake * 100 <= U128_MAX -> 34 * total <= stake * 100 -> equivocation_burn_pct stake total = 100).
Proof.
  unfold equivocation_burn_pct, EQUIVOCATION_MIN_BURN_PCT, EQUIVOCATION_CORRELATION_FACTOR.
  destruct (N.eqb_spec total 0) as [->|Hz]; [split; [lia|]; split; [lia|done]|]. unfold sat_mul128. split; [lia|]. split.
  - intros Hs.
    assert (N.min (stake * 100) U128_MAX / total <= N.min (stake' * 100) U128_MAX / total)
      by (apply N.Div0.div_le_mono; lia). lia.
  - intros _ Hm Hs. replace (N.min (stake * 100) U128_MAX) with (stake * 100) by lia.
    assert (34 <= stake * 100 / total) by (apply N.div_le_lower_bound; lia). unfold U128_MAX. lia.
Qed.

Lemma burn_pct_bounds_witness :
  equivocation_burn_pct 34 100 = 100 /\ equivocation_burn_pct 2 100 <= equivocation_burn_pct 20 100.
Proof.
  split.
  - apply (burn_pct_bounds 34 34 100); vm_compute; discriminate.
  - apply (burn_pct_bounds 2 20 100). vm_compute. discriminate.
Defined.

(** ** The burn *)

Lemma cut_of_plain pct u : pct <= 100 -> u_amount u * 100 < 2 ^ 128 ->
  cut_of pct u = u_amount u * pct / 100 /\ cut_of pct u <= u_amount u.
Proof.
  intros Hp Hu. unfold cut_of. rewrite wmul_small by nia. split; [done|].
  apply N.Div0.div_le_upper_bound. nia.
Qed.

Lemma filter_pos_sum l : sumN u_amount (List.filter (fun u => 0 <? u_amount u) l) = sumN u_amount l.
Proof.
  induction l as [|u l IH]; [done|]. cbn [List.filter].
  destruct (N.ltb_spec 0 (u_amount u)); rewrite !sumN_cons; lia.
Qed.

Lemma cuts_sum pct l : pct <= 100 -> sumN u_amount l * 100 < 2 ^ 128 ->
  sumN u_amount (map (cut_unbond pct) l) + sumN (cut_of pct) l = sumN u_amount l /\
  sumN (cut_of pct) l <= sumN u_amount l.
Proof.
  intros Hp. induction l as [|u l IH]; intros Hs; [done|]. cbn [map]. rewrite !sumN_cons in *.
  destruct (cut_of_plain pct u Hp ltac:(lia)) as [_ Hc]. destruct (IH ltac:(lia)).
  unfold cut_unbond at 1. cbn [u_amount]. rewrite wsub_small by lia. lia.
Qed.

Lemma cuts_foldl pct l : forall acc, acc + sumN (cut_of pct) l < 2 ^ 128 ->
  foldl (fun n u => n +! cut_of pct u) acc l = acc + sumN (cut_of pct) l.
Proof.
  induction l as [|u l IH]; intros acc Ha; cbn [foldl]; [cbn; lia|]. rewrite sumN_cons in *.
  rewrite wadd_small by lia. rewrite IH by lia. lia.
Qed.

(** Everything the burn takes leaves the account, and nothing else changes hands. *)
Lemma burn_account_funds pct a a' burned : pct <= 100 -> account_funds a * 100 < 2 ^ 128 ->
  burn_account pct a = (a', burned) ->
  account_funds a' + burned = account_funds a /\ balance a' = balance a /\
  burned = staked a * pct / 100 + sumN (cut_of pct) (unbonding a) /\
  staked a' = staked a - staked a * pct / 100 /\
  tombstoned (penalties a') = true /\ jailed_until (penalties a') = TOMBSTONE_HEIGHT /\
  jail_fault (penalties a') = true.
Proof.
  unfold account_funds. intros Hp Hf [= <- <-].
  assert (staked a * pct / 100 <= staked a) as Hs by (apply N.Div0.div_le_upper_bound; nia).
  destruct (cuts_sum pct (unbonding a) Hp ltac:(lia)) as [H1 H2].
  rewrite (wmul_small 128 (staked a)) by nia.
  rewrite cuts_foldl by lia. unfold with_penalties, with_unbonding, with_staked.
  cbn [balance staked unbonding penalties tombstoned jailed_until jail_fault].
  rewrite wsub_small by lia. rewrite filter_pos_sum. repeat split; lia.
Qed.

Section slash.
Context {HC : Crypto} {HF : Fr} {HK : Compression} {HP : ChainParams} {HJ : EvidenceJson}.

Lemma run_put_slash r d : run (put_slash r) d = (Ok tt, <[(T_SLASHES, s_id r) := VSlash r]> d).
Proof. reflexivity. Qed.

Lemma funds_put_slash k v d : funds (<[(T_SLASHES, k) := v]> d) = funds d.
Proof.
  apply (funds_same (eq T_ACCOUNTS)); [done|]. intros t q <-. now rewrite lookup_insert_ne.
Qed.

Lemma account_put_slash k v d addr : account addr (<[(T_SLASHES, k) := v]> d) = account addr d.
Proof. unfold account. now rewrite lookup_insert_ne. Qed.

Lemma funds_set_account_sub addr a d n : account_funds a + n = account_funds (account addr d) ->
  funds (db_after (set_account addr a) d) + n = funds d.
Proof. intros. pose proof (funds_set_account addr a d). pose proof (funds_account_le addr d). lia. Qed.

Definition report_record (e : Evidence) (offender : string) (height burned bounty : N) (reporter : string) : SlashRecord := {|
  s_id := ev_id e; s_offence := ev_label e; s_offender := offender; s_offence_height := ev_height e;
  s_applied_height := height; s_burned := burned; s_bounty := bounty; s_reporter := reporter;
  s_tombstoned := true; s_jailed_until := TOMBSTONE_HEIGHT |}.

(** The state [d'] and record a slash of [e] leaves, from state [d]. *)
Definition slashed_state (height : N) (reporter : string) (e : Evidence) (d : Db) (record : SlashRecord) (d' : Db) : Prop :=
  let offender := s_offender record in
  let a := account offender d in
  let pct := equivocation_burn_pct (staked a) (total_staked d) in
  ev_verify e = Ok offender /\
  funds d' + s_burned record = funds d /\
  s_burned record + s_bounty record = staked a * pct / 100 + sumN (cut_of pct) (unbonding a) /\
  10 * s_bounty record <= s_burned record + s_bounty record /\
  tombstoned (penalties (account offender d')) = true /\
  jailed_until (penalties (account offender d')) = TOMBSTONE_HEIGHT /\
  slash (ev_id e) d' = Some record /\
  forall reporter2 height2,
    (run (apply_report height2 reporter2 e) d').1 = Err "this offence has already been slashed".

Lemma report_slashed height reporter e d record d' :
  funds d * 100 < 2 ^ 128 ->
  run (apply_report height reporter e) d = (Ok record, d') ->
  slashed_state height reporter e d record d'.
Proof.
  intros Hf E. unfold apply_report in E. revert E. runs.
  destruct (ev_verify e) as [offender|] eqn:Hv; [|done]. runs.
  destruct (bool_decide _) eqn:Hold; [done|]. runs. set (a := account offender d).
  destruct (tombstoned (penalties a)) eqn:Ht; [done|]. runs.
  set (pct := equivocation_burn_pct (staked a) (total_staked d)).
  destruct (burn_account pct a) as [a' burned] eqn:Hb.
  pose proof (funds_account_le offender d) as Hle. fold a in Hle.
  assert (pct <= 100) as Hpct.
  { subst pct. unfold equivocation_burn_pct, EQUIVOCATION_MIN_BURN_PCT. case_match; lia. }
  destruct (burn_account_funds pct a a' burned Hpct ltac:(lia) Hb) as (Hfa & Hbal & Hbd & Hst & Ht' & Hj' & _).
  runs. rewrite run_set_account. runs. set (d1 := db_after (set_account offender a') d).
  assert (funds d1 + burned = funds d) as Hd1 by (apply funds_set_account_sub; fold a; lia).
  unfold REPORTER_BOUNTY_PCT. rewrite wmul_small by lia.
  assert (burned * 10 / 100 <= burned) as Hbty by (apply N.Div0.div_le_upper_bound; lia).
  assert (10 * (burned * 10 / 100) <= burned) as Hbty'.
  { transitivity (100 * (burned * 10 / 100) / 10); [apply N.div_le_lower_bound; lia|].
    apply N.Div0.div_le_upper_bound. pose proof (N.Div0.mul_div_le (burned * 10) 100). lia. }
  assert (forall d2 bounty,
    funds d2 + (burned - bounty) = funds d -> 10 * bounty <= burned ->
    penalties (account offender d2) = penalties a' ->
    (Ok (report_record e offender height (burned - bounty) bounty reporter),
     <[(T_SLASHES, ev_id e) := VSlash (report_record e offender height (burned - bounty) bounty reporter)]> d2)
    = (Ok record, d') -> slashed_state height reporter e d record d') as Hfinish.
  { intros d2 bounty Hf2 Hb2 Hp2 [= <- <-]. unfold slashed_state. cbn [s_offender s_burned s_bounty report_record].
    fold a pct. assert (slash (ev_id e) (<[(T_SLASHES, ev_id e) := VSlash (report_record e offender height (burned - bounty) bounty reporter)]> d2)
      = Some (report_record e offender height (burned - bounty) bounty reporter)) as Hrow
      by (unfold slash; now rewrite lookup_insert_eq).
    rewrite account_put_slash, funds_put_slash, Hp2.
    repeat (split; [done || lia|]). intros reporter2 height2. unfold apply_report. runs. rewrite Hv. runs.
    rewrite Hrow. now rewrite bool_decide_true by eauto. }
  rewrite run_if. destruct (_ && _) eqn:Hpay; runs.
  - apply andb_true_iff in Hpay as [_ Hne%negb_true_iff%String.eqb_neq].
    rewrite run_set_account. runs. rewrite run_put_slash. runs.
    pose proof (account_balance_le reporter d1) as Hrle.
    rewrite wadd_small by lia. rewrite wsub_small by lia. apply Hfinish; [|done|].
    + rewrite funds_update; unfold account_funds, with_balance; cbn [balance staked unbonding]; clear - Hd1 Hbty; revert Hbty; generalize (burned * 10 / 100); intros; lia.
    + rewrite account_set_account, decide_False by congruence. unfold d1. now rewrite account_set_account, decide_True.
  - rewrite run_put_slash. runs. rewrite wsub_small by lia.
    apply Hfinish; [lia|lia|]. unfold d1. now rewrite account_set_account, decide_True.
Qed.

(** C22: a successful equivocation report confiscates, never mints.  The coins of
    all accounts shrink by exactly the recorded burn; the reporter's bounty is a
    tenth of the confiscated stake at most and comes out of it; the offender ends
    tombstoned and jailed for ever, the record is stored under the evidence id,
    and a second report of the same evidence is refused. *)
Theorem apply_report_confiscates height reporter e d record d' :
  funds d * 100 < 2 ^ 128 ->
  run (apply_report height reporter e) d = (Ok record, d') ->
  slashed_state height reporter e d record d'.
Proof. apply report_slashed. Qed.

(** A report that passes its guards goes through. *)
Lemma apply_report_succeeds height reporter e d offender :
  ev_verify e = Ok offender -> slash (ev_id e) d = None -> tombstoned (penalties (account offender d)) = false ->
  exists record d', run (apply_report height reporter e) d = (Ok record, d').
Proof.
  intros Hv Hs Ht. unfold apply_report. runs. rewrite Hv. runs. rewrite Hs.
  rewrite bool_decide_false by (intros [? ?]; done). runs. rewrite Ht. runs.
  destruct (burn_account _ _) as [a' burned]. runs. rewrite run_set_account. runs. rewrite run_if.
  destruct (_ && _); runs; [rewrite run_set_account; runs|]; rewrite run_put_slash; runs; eauto.
Qed.

(** ** What evidence proves *)

Definition swap (e : Evidence) : Evidence :=
  match e with EvBlock a b => EvBlock b a | EvVote a b => EvVote b a end.

(** [addr]'s key signed two different objects of one height. *)
Definition equivocated (addr : string) (e : Evidence) : Prop :=
  match e with
  | EvBlock a b =>
    hp_height a = hp_height b /\ hp_hash a <> hp_hash b /\
    exists pk, address_from_pubkey pk = addr /\
      forall h, h = a \/ h = b ->
        hex_bytes 32 (hp_producer_pubkey h) = Some pk /\
        hp_hash h = compute_hash (as_header_block h) /\
        verify (hp_producer_pubkey h) (header_bytes (as_header_block h)) (hp_signature h) = true
  | EvVote a b =>
    vote_height a = vote_height b /\ vote_hash a <> vote_hash b /\
    exists pk, address_from_pubkey pk = addr /\
      forall v, v = a \/ v = b ->
        hex_bytes 32 (voter_pubkey v) = Some pk /\
        verify (voter_pubkey v) (vote_signing_bytes v) (vote_signature v) = true
  end.

Lemma join_sorted_sym x y : join_sorted x y = join_sorted y x.
Proof.
  unfold join_sorted. destruct (String.leb x y) eqn:E1, (String.leb y x) eqn:E2; try done.
  - now rewrite (String.leb_antisym x y).
  - destruct (String.leb_total x y); congruence.
Qed.

Lemma authentic_inv h : is_authentic h = true -> exists pk,
  hex_bytes 32 (hp_producer_pubkey h) = Some pk /\ address_from_pubkey pk = hp_producer h /\
  hp_hash h = compute_hash (as_header_block h) /\
  verify (hp_producer_pubkey h) (header_bytes (as_header_block h)) (hp_signature h) = true.
Proof.
  unfold is_authentic, verify_producer. change (b_producer_pubkey (as_header_block h)) with (hp_producer_pubkey h).
  destruct (hex_bytes 32 (hp_producer_pubkey h)) as [pk|]; [|done].
  change (b_producer (as_header_block h)) with (hp_producer h).
  change (b_hash (as_header_block h)) with (hp_hash h).
  destruct (String.eqb_spec (address_from_pubkey pk) (hp_producer h)) as [Ha|]; cbn [negb]; [|done].
  destruct (String.eqb_spec (hp_hash h) (compute_hash (as_header_block h))) as [Hh|]; cbn [negb]; [|done].
  intros Hv. exists pk. done.
Qed.

Lemma voter_key v addr : voter v = Some addr ->
  exists pk, hex_bytes 32 (voter_pubkey v) = Some pk /\ address_from_pubkey pk = addr.
Proof.
  unfold voter, address_of_hex_key. destruct (hex_bytes 32 (voter_pubkey v)) as [pk|]; [|done].
  cbn. intros [= <-]. eauto.
Qed.

(** The guards of [ev_verify], read off its success. *)
Lemma ev_verify_block a b offender : ev_verify (EvBlock a b) = Ok offender <->
  hp_height a = hp_height b /\ hp_height a <> 0 /\ hp_hash a <> hp_hash b /\
  hp_producer a = hp_producer b /\ hp_producer_pubkey a = hp_producer_pubkey b /\
  is_authentic a = true /\ is_authentic b = true /\ offender = hp_producer a.
Proof.
  cbn [ev_verify]. destruct (N.eqb_spec (hp_height a) (hp_height b)); cbn [negb]; [|split; [done|tauto]].
  destruct (N.eqb_spec (hp_height a) 0); [split; [done|tauto]|].
  destruct (String.eqb_spec (hp_hash a) (hp_hash b)); [split; [done|tauto]|].
  destruct (String.eqb_spec (hp_producer a) (hp_producer b)); cbn [negb orb]; [|split; [done|tauto]].
  destruct (String.eqb_spec (hp_producer_pubkey a) (hp_producer_pubkey b)); cbn [negb orb]; [|split; [done|tauto]].
  destruct (is_authentic a), (is_authentic b); cbn [negb orb]; (split; [|intuition congruence]); try done.
  intros [= <-]. tauto.
Qed.

Lemma hex_bytes_decode n s raw : hex_bytes n s = Some raw -> hex_decode s = Some raw /\ slen raw = n.
Proof.
  unfold hex_bytes. destruct (hex_decode s) as [r|]; [|done]. cbn. destruct (Nat.eqb_spec (slen r) n); [|done].
  now intros [= <-].
Qed.

Lemma ev_verify_vote a b offender : ev_verify (EvVote a b) = Ok offender <->
  vote_height a = vote_height b /\ vote_height a <> 0 /\ vote_hash a <> vote_hash b /\
  voter_pubkey a = voter_pubkey b /\ vote_verify_signature a = true /\ vote_verify_signature b = true /\
  voter a = Some offender.
Proof.
  cbn [ev_verify]. destruct (N.eqb_spec (vote_height a) (vote_height b)); cbn [negb]; [|split; [done|tauto]].
  destruct (N.eqb_spec (vote_height a) 0); [split; [done|tauto]|].
  destruct (String.eqb_spec (vote_hash a) (vote_hash b)); [split; [done|tauto]|].
  destruct (String.eqb_spec (voter_pubkey a) (voter_pubkey b)); cbn [negb]; [|split; [done|tauto]].
  destruct (vote_verify_signature a) eqn:Ha, (vote_verify_signature b); cbn [negb orb];
    try (split; [done|intuition congruence]).
  destruct (voter a) as [addr|] eqn:Hv; cbn [mbind result_bind ok_or]; [|split; [done|intuition congruence]].
  destruct (voter_key a addr Hv) as (pk & Hk & Hpk). destruct (hex_bytes_decode _ _ _ Hk) as [-> Hlen].
  cbn [mbind result_bind ok_or]. rewrite Hlen, Nat.eqb_refl, Hpk, String.eqb_refl. cbn [negb].
  apply andb_true_iff in Ha as [_ ->]. cbn [negb]. split; [intros [= <-]; tauto|intuition congruence].
Qed.

(** evidence that verifies convicts exactly its signer: the offender's own
    key signed two different blocks (or precommits) of the same height.  The
    order of the two halves is immaterial: swapped evidence verifies against the
    same offender and has the same id, so one offence is one slash. *)
Theorem evidence_accountable e offender :
  ev_verify e = Ok offender ->
  equivocated offender e /\ ev_verify (swap e) = Ok offender /\ ev_id (swap e) = ev_id e.
Proof.
  destruct e as [a b|a b]; cbn [swap equivocated]; intros Hv.
  - pose proof Hv as (Hh & Hz & Hn & Hp & Hk & Ha & Hb & ->)%ev_verify_block. split; [|split].
    + split; [done|]. split; [done|]. destruct (authentic_inv a Ha) as (pk & H1 & H2 & H3 & H4).
      exists pk. split; [done|]. intros h [->| ->]; [done|].
      destruct (authentic_inv b Hb) as (pk' & H1' & _ & H3' & H4'). rewrite Hk in H1.
      assert (pk' = pk) as -> by congruence. done.
    + apply ev_verify_block. intuition congruence.
    + unfold ev_id. cbn. rewrite Hh, Hp. now rewrite join_sorted_sym.
  - pose proof Hv as (Hh & Hz & Hn & Hk & Ha & Hb & Hvo)%ev_verify_vote. split; [|split].
    + split; [done|]. split; [done|]. destruct (voter_key a offender Hvo) as (pk & H1 & H2).
      exists pk. split; [done|]. unfold vote_verify_signature in *.
      apply andb_true_iff in Ha as [_ Ha]. apply andb_true_iff in Hb as [_ Hb].
      intros v [->| ->]; [done|]. split; [congruence|done].
    + apply ev_verify_vote. assert (voter b = voter a) as -> by (unfold voter; now rewrite Hk). intuition congruence.
    + assert (voter b = voter a) as Hvb by (unfold voter; now rewrite Hk).
      unfold ev_id. cbn [swap ev_label ev_height ev_offender]. rewrite Hh, Hvb. now rewrite join_sorted_sym.
Qed.
End slash.

Module Slash_example.
Import Toy Toy_field.
#[local] Instance toy_compression : Compression := fun a b => f_add a (f_mul b b).
#[local] Instance toy_json : EvidenceJson :=
  {| evidence_to_json := fun _ => ""; evidence_from_json := fun _ => Err "bad evidence" |}.

Definition key : Keypair := {| signing := "mallory" |}.
Definition mallory : string := Eval vm_compute in address key.
Definition vote (hash : string) : Vote :=
  let v := Build_Vote 7 hash (pubkey_hex key) "" in
  Build_Vote 7 hash (pubkey_hex key) (sign_hex key (vote_signing_bytes v)).
Definition twice : Evidence := EvVote (vote "aa") (vote "bb").

Lemma twice_verifies : ev_verify twice = Ok mallory.
Proof. vm_compute. reflexivity. Qed.

Lemma evidence_accountable_witness :
  ev_verify twice = Ok mallory /\ ev_verify (swap twice) = Ok mallory /\ ev_id (swap twice) = ev_id twice.
Proof. split; [exact twice_verifies|]. exact (proj2 (evidence_accountable twice mallory twice_verifies)). Defined.

Definition d0 : Db := with_accounts [(mallory, with_staked (4 * MIN_STAKE) default_account);
                                     ("alice", with_staked (6 * MIN_STAKE) default_account)].

Lemma no_slash_yet id : slash id d0 = None.
Proof.
  unfold slash, d0. cbn [with_accounts foldr]. rewrite !set_account_rows by done.
  rewrite !decide_False by done. now rewrite lookup_empty.
Qed.

Lemma apply_report_confiscates_witness : exists record d',
  run (apply_report 9 "alice" twice) d0 = (Ok record, d') /\ slashed_state 9 "alice" twice d0 record d'.
Proof.
  destruct (apply_report_succeeds 9 "alice" twice d0 mallory twice_verifies (no_slash_yet _)) as (record & d' & E).
  { unfold d0. now rewrite account_with_accounts. }
  exists record, d'. split; [exact E|]. apply (apply_report_confiscates 9 "alice" twice d0 record d'); [|exact E].
  pose proof (with_accounts_funds_le [(mallory, with_staked (4 * MIN_STAKE) default_account);
    ("alice", with_staked (6 * MIN_STAKE) default_account)]) as Hle. fold d0 in Hle.
  eapply N.le_lt_trans; [apply N.mul_le_mono_r, Hle|]. vm_compute. reflexivity.
Defined.
End Slash_example.
