(* ===== verification/Votes.v ===== *)
(** consensus.rs: the vote tracker and two-thirds finality.

    [VoteTracker]'s three mutexes are one record.  An operation returns its
    result, the tracker and the store it leaves: an error may leave evidence
    behind. *)

From S2P Require Import Prelude Bytes Crypto Types Journal Store Smt SmtFacts Poseidon Shielded State StateFacts Staking StakingFacts Slashing.
From Stdlib Require Import Ascii.
From Stdlib Require String.

(* [src/src/consensus.rs 54-62 VoteTracker] *)
Record VoteTracker := {
  inner : gmap N (gmap string Vote);
  pending : list Vote;
  evidence : list Evidence
}.

(* [src/src/consensus.rs 67-67 VOTE_RETENTION_HEIGHTS] *)
Definition VOTE_RETENTION_HEIGHTS : N := 64.

(* [src/src/consensus.rs 70-75 VoteOutcome] *)
Record VoteOutcome := { fresh : bool; finalized : option N }.

(* [src/src/consensus.rs 78-80 VoteTracker::new] *)
Definition tracker_new : VoteTracker := {| inner := ∅; pending := []; evidence := [] |}.

Definition with_inner (x : gmap N (gmap string Vote)) (t : VoteTracker) : VoteTracker :=
  {| inner := x; pending := pending t; evidence := evidence t |}.
Definition with_pending (x : list Vote) (t : VoteTracker) : VoteTracker :=
  {| inner := inner t; pending := x; evidence := evidence t |}.
Definition with_evidence (x : list Evidence) (t : VoteTracker) : VoteTracker :=
  {| inner := inner t; pending := pending t; evidence := x |}.

(** [entry(h).or_default()] *)
Definition at_height (t : VoteTracker) (h : N) : gmap string Vote :=
  match inner t !! h with Some m => m | None => ∅ end.

Definition has_vote (m : gmap string Vote) (v : Validator) : bool := bool_decide (is_Some (m !! v_address v)).

(** Stake of the validators of [set] with a vote in [m]. *)
Definition voted_stake (set : list Validator) (m : gmap string Vote) : N :=
  sum_wrapping (map v_stake (List.filter (has_vote m) set)).

Definition in_set (set : list Validator) (addr : string) : bool :=
  existsb (fun v => String.eqb (v_address v) addr) set.

Section votes.
Context {HC : Crypto} {HF : Fr} {HK : Compression} {HP : ChainParams} {HJ : EvidenceJson}.

(* [src/src/consensus.rs 222-224 VoteTracker::first_vote] *)
Definition first_vote (t : VoteTracker) (h : N) (voter : string) : option Vote :=
  m ← inner t !! h; m !! voter.

(* [src/src/consensus.rs 226-235 VoteTracker::push_evidence] *)
Definition push_evidence (t : VoteTracker) (e : Evidence) : VoteTracker :=
  if existsb (fun e' => String.eqb (ev_id e') (ev_id e)) (evidence t) then t
  else
    let queue := if Nat.ltb 64 (length (evidence t)) then tail (evidence t) else evidence t in
    with_evidence (queue ++ [e]) t.

(* [src/src/consensus.rs 238-240 VoteTracker::take_evidence] *)
Definition take_evidence (t : VoteTracker) : list Evidence * VoteTracker :=
  (evidence t, with_evidence [] t).

(** The buffer for votes whose block has not arrived. *)
Definition buffer_vote (t : VoteTracker) (s : Store) (v : Vote) (addr : string) :
    result VoteOutcome * VoteTracker * Store :=
  let set := validator_set (db s) in
  if negb (in_set set addr) then (Err "voter is not a bonded validator", t, s)
  else if existsb (fun w => (vote_height w =? vote_height v) && String.eqb (voter_pubkey w) (voter_pubkey v)) (pending t)
  then (Ok {| fresh := false; finalized := None |}, t, s)
  else
    let cap := N.min (N.max (N.of_nat (length set)) 1 * 512) 8192 in
    let buf := if cap <=? N.of_nat (length (pending t)) then tail (pending t) else pending t in
    (Ok {| fresh := true; finalized := None |}, with_pending (buf ++ [v]) t, s).

(** The tally of a vote for the stored block. *)
(* [src/src/consensus.rs 149-174! VoteTracker::add] *)
Definition count_vote (t : VoteTracker) (s : Store) (v : Vote) (addr : string) :
    result VoteOutcome * VoteTracker * Store :=
  let set := validator_set (db s) in
  let total := total_stake set in
  if negb (in_set set addr) then (Err "voter is not a bonded validator", t, s)
  else
    let m := at_height t (vote_height v) in
    let is_fresh := negb (bool_decide (is_Some (m !! addr))) in
    let m' := <[addr := v]> m in
    let all := <[vote_height v := m']> (inner t) in
    let voted := voted_stake set m' in
    if (0 <? total) && (total *! 2 <? voted *! 3) && (finalized_height (db s) <? vote_height v) then
      (Ok {| fresh := is_fresh; finalized := Some (vote_height v) |},
       with_inner (filter (fun hm => vote_height v < hm.1 +!! VOTE_RETENTION_HEIGHTS) all) t,
       (set_finalized_height (vote_height v) s).2)
    else (Ok {| fresh := is_fresh; finalized := None |}, with_inner all t, s).

(* [src/src/consensus.rs 84-180 VoteTracker::add] *)
Definition add (t : VoteTracker) (s : Store) (v : Vote) : result VoteOutcome * VoteTracker * Store :=
  if negb (vote_verify_signature v) then (Err "invalid vote signature", t, s)
  else match voter v with
  | None => (Err "invalid voter public key", t, s)
  | Some addr =>
    match (prev ← first_vote t (vote_height v) addr;
           if String.eqb (vote_hash prev) (vote_hash v) then None else Some prev) with
    | Some prev => (Err "equivocating vote: evidence recorded", push_evidence t (EvVote prev v), s)
    | None =>
      if vote_height v <=? finalized_height (db s) then (Ok {| fresh := false; finalized := None |}, t, s)
      else match block (vote_height v) (db s) with
      | Some b =>
        if String.eqb (b_hash b) (vote_hash v) then count_vote t s v addr
        else (Err "vote for a different block at this height", t, s)
      | None => buffer_vote t s v addr
      end
    end
  end.

(* [src/src/consensus.rs 183-197 VoteTracker::tally] *)
Definition tally (t : VoteTracker) (d : Db) (h : N) : N * N :=
  let set := validator_set d in
  (match inner t !! h with Some m => voted_stake set m | None => 0 end, total_stake set).

(** The order of votes of one height is the map's. *)
(* [src/src/consensus.rs 205-216 VoteTracker::votes_above] *)
Definition votes_above (t : VoteTracker) (from : N) (limit : nat) : list Vote :=
  take limit (sort_by (fun a b => vote_height a <=? vote_height b)
    (flat_map (fun hm : N * gmap string Vote => map snd (map_to_list hm.2))
      (List.filter (fun hm => negb (hm.1 <=? from)) (map_to_list (inner t))))).

(* [src/src/consensus.rs 218-225 VoteTracker::seen] *)
Definition seen (t : VoteTracker) (h : N) : nat := size (at_height t h).

(** Adds the buffered votes of a height in order; the last height finalized. *)
Fixpoint replay_ready (t : VoteTracker) (s : Store) (ready : list Vote) (final : option N) :
    option N * VoteTracker * Store :=
  match ready with
  | [] => (final, t, s)
  | v :: rest =>
    let '(r, t, s) := add t s v in
    let final := match r with Ok o => match finalized o with Some h => Some h | None => final end | Err _ => final end in
    replay_ready t s rest final
  end.

(* [src/src/consensus.rs 244-266 VoteTracker::replay_pending] *)
Definition replay_pending (t : VoteTracker) (s : Store) (h : N) : option N * VoteTracker * Store :=
  let ready := List.filter (fun v => vote_height v =? h) (pending t) in
  let keep := List.filter (fun v => negb (vote_height v =? h)) (pending t) in
  let t := with_pending (List.filter (fun v => finalized_height (db s) <? vote_height v) keep) t in
  replay_ready t s ready None.
End votes.
