(* ===== verification/VotesFacts.v ===== *)
(** Theorems about consensus.rs: a finalized height carries precommits of more
    than two thirds of the stake on the stored block; two conflicting quorums
    convict more than a third of the stake; the tracker's buffers are bounded. *)

From S2P Require Import Prelude Bytes Crypto Types Journal Store Smt SmtFacts Poseidon Shielded State StateFacts Staking StakingFacts Slashing SlashingFacts Votes.
From Stdlib Require Import Ascii.
From Stdlib Require String.

Section votes.
Context {HC : Crypto} {HF : Fr} {HK : Compression} {HP : ChainParams} {HJ : EvidenceJson}.
Implicit Types (t : VoteTracker) (s : Store) (d : Db) (v : Vote).

(** ** Invariants of the tracker *)

(** Counted votes are filed under their height and their signer, and signed. *)
Definition votes_filed t : Prop :=
  forall h m addr v, inner t !! h = Some m -> m !! addr = Some v ->
    vote_height v = h /\ voter v = Some addr /\ vote_verify_signature v = true.

(** Counted votes are for the block stored at their height. *)
Definition votes_match t d : Prop :=
  forall h m addr v b, inner t !! h = Some m -> m !! addr = Some v -> block h d = Some b -> vote_hash v = b_hash b.

Definition buffers_bounded t : Prop :=
  N.of_nat (length (pending t)) <= 8192 /\ (length (evidence t) <= 65)%nat.

Definition tracker_ok t : Prop := votes_filed t /\ buffers_bounded t.

Lemma tracker_new_ok : tracker_ok tracker_new.
Proof.
  split; [|split; cbn; lia]. intros h m addr v. cbn. now rewrite lookup_empty.
Qed.
Lemma tracker_new_match d : votes_match tracker_new d.
Proof. intros h m addr v b. cbn. now rewrite lookup_empty. Qed.

(** ** Recording finality *)

Lemma u64_row_read n : n < 2 ^ 64 -> as_u64 (u64_row n) = Some n.
Proof.
  intros Hn. unfold as_u64, u64_row. cbn [as_bytes mbind option_bind]. rewrite slen_be, Nat.eqb_refl.
  rewrite from_to_be; [done|]. exact Hn.
Qed.

Lemma finalized_after h s : h < 2 ^ 64 ->
  finalized_height (db (set_finalized_height h s).2) = N.max h (finalized_height (db s)).
Proof.
  intros Hh. rewrite run_db by apply _.
  change (db_after (set_finalized_height h) (db s)) with (run (set_finalized_height h) (db s)).2.
  unfold set_finalized_height. runs. rewrite run_if. destruct (N.leb_spec h (finalized_height (db s))); runs; cbn [snd].
  - lia.
  - unfold finalized_height at 1, meta_u64. rewrite lookup_insert_eq. cbn [mbind option_bind].
    rewrite u64_row_read by done. lia.
Qed.

Lemma block_after_finalized h s k : block k (db (set_finalized_height h s).2) = block k (db s).
Proof.
  rewrite run_db by apply _.
  change (db_after (set_finalized_height h) (db s)) with (run (set_finalized_height h) (db s)).2.
  unfold set_finalized_height. runs. rewrite run_if. case_match; runs; cbn [snd]; [done|].
  unfold block. now rewrite lookup_insert_ne.
Qed.

(** ** One vote *)

Lemma at_height_filed t h addr v : votes_filed t -> at_height t h !! addr = Some v ->
  vote_height v = h /\ voter v = Some addr /\ vote_verify_signature v = true.
Proof.
  intros Hf. unfold at_height. destruct (inner t !! h) as [m|] eqn:E; [|now rewrite lookup_empty].
  intros Hv. eapply Hf; eauto.
Qed.

Lemma at_height_match t d h addr v b : votes_match t d -> block h d = Some b ->
  at_height t h !! addr = Some v -> vote_hash v = b_hash b.
Proof.
  intros Hf Hb. unfold at_height. destruct (inner t !! h) as [m|] eqn:E; [|now rewrite lookup_empty].
  intros Hv. eapply Hf; eauto.
Qed.

Definition inserted t v addr : gmap N (gmap string Vote) :=
  <[vote_height v := <[addr := v]> (at_height t (vote_height v))]> (inner t).

Lemma inserted_filed t v addr :
  votes_filed t -> vote_verify_signature v = true -> voter v = Some addr -> votes_filed (with_inner (inserted t v addr) t).
Proof.
  intros Hf Hs Hv h m a w Hi Ha. cbn in Hi. unfold inserted in Hi. apply lookup_insert_Some in Hi as [[<- <-]|[_ Hi]]; [|eauto].
  apply lookup_insert_Some in Ha as [[<- <-]|[_ Ha]]; [done|]. now apply (at_height_filed t).
Qed.
Lemma inserted_match t d v addr b :
  votes_match t d -> block (vote_height v) d = Some b -> vote_hash v = b_hash b -> votes_match (with_inner (inserted t v addr) t) d.
Proof.
  intros Hm Hb Hh h m a w b' Hi Ha Hb'. cbn in Hi. unfold inserted in Hi. apply lookup_insert_Some in Hi as [[<- <-]|[_ Hi]]; [|eauto].
  assert (b' = b) as -> by congruence. apply lookup_insert_Some in Ha as [[_ <-]|[_ Ha]]; [done|].
  now apply (at_height_match t d (vote_height v) a).
Qed.

Lemma filter_filed t all (P : N * gmap string Vote -> Prop) `{forall x, Decision (P x)} :
  votes_filed (with_inner all t) -> votes_filed (with_inner (filter P all) t).
Proof. intros Hf h m a v [Hi _]%map_lookup_filter_Some. now apply (Hf h). Qed.
Lemma filter_match t d all (P : N * gmap string Vote -> Prop) `{forall x, Decision (P x)} :
  votes_match (with_inner all t) d -> votes_match (with_inner (filter P all) t) d.
Proof. intros Hm h m a v b [Hi _]%map_lookup_filter_Some. now apply (Hm h). Qed.

(** The votes stay those of the stored blocks while no block that carries votes
    is replaced by another; it may be pruned. *)
Definition blocks_stay t d d' : Prop :=
  forall h, is_Some (inner t !! h) -> block h d' = block h d \/ block h d' = None.
Lemma votes_match_blocks t d d' : blocks_stay t d d' -> votes_match t d -> votes_match t d'.
Proof.
  intros Hb Hm h m a v b Hi Ha Hd. destruct (Hb h ltac:(eauto)) as [E|E]; rewrite E in Hd; [|discriminate]. now apply (Hm h m a).
Qed.

Lemma count_vote_ok t s v addr : tracker_ok t -> vote_verify_signature v = true -> voter v = Some addr ->
  tracker_ok (count_vote t s v addr).1.2.
Proof.
  intros (Hf & Hbuf) Hs Hv. unfold count_vote. fold (inserted t v addr). destruct (negb _); [done|].
  pose proof (inserted_filed t v addr Hf Hs Hv) as Hins. destruct (_ && _); (split; [|exact Hbuf]); [now apply filter_filed|exact Hins].
Qed.
Lemma count_vote_match t s v addr b : votes_match t (db s) -> block (vote_height v) (db s) = Some b -> vote_hash v = b_hash b ->
  votes_match (count_vote t s v addr).1.2 (db (count_vote t s v addr).2).
Proof.
  intros Hm Hb Hh. unfold count_vote. fold (inserted t v addr). destruct (negb _); [done|].
  pose proof (inserted_match t (db s) v addr b Hm Hb Hh) as Hins. destruct (_ && _); [|exact Hins].
  apply (votes_match_blocks _ (db s)); [intros h _; left; apply block_after_finalized|now apply filter_match].
Qed.

Lemma push_evidence_ok t e : buffers_bounded t -> buffers_bounded (push_evidence t e).
Proof.
  intros [H1 H2]. unfold push_evidence. destruct (existsb _ _); [done|]. split; [done|].
  cbn [evidence with_evidence]. rewrite length_app. cbn [length].
  destruct (Nat.ltb_spec 64 (length (evidence t))); [rewrite length_tl|]; lia.
Qed.
Lemma push_evidence_inner t e : inner (push_evidence t e) = inner t.
Proof. unfold push_evidence. now destruct (existsb _ _). Qed.

Lemma buffer_vote_ok t s v addr : tracker_ok t -> tracker_ok (buffer_vote t s v addr).1.2.
Proof.
  intros (Hf & Hb). unfold buffer_vote. destruct (negb _); [done|]. destruct (existsb _ _); [done|].
  split; [exact Hf|]. destruct Hb as [H1 H2]. split; [|exact H2].
  cbn [fst snd pending with_pending]. rewrite length_app. cbn [length].
  case_match; bool_hyps; [rewrite length_tl|]; lia.
Qed.
Lemma buffer_vote_inner t s v addr : inner (buffer_vote t s v addr).1.2 = inner t /\ (buffer_vote t s v addr).2 = s.
Proof. unfold buffer_vote. destruct (negb _); [done|]. now destruct (existsb _ _). Qed.

(** Opens the guards of [add]. *)
Lemma add_cases t s v (P : result VoteOutcome * VoteTracker * Store -> Prop) :
  (forall e, P (Err e, t, s)) ->
  (forall e, P (Err "equivocating vote: evidence recorded", push_evidence t e, s)) ->
  P (Ok {| fresh := false; finalized := None |}, t, s) ->
  (forall addr b, vote_verify_signature v = true -> voter v = Some addr ->
     finalized_height (db s) < vote_height v -> block (vote_height v) (db s) = Some b -> vote_hash v = b_hash b ->
     P (count_vote t s v addr)) ->
  (forall addr, P (buffer_vote t s v addr)) ->
  P (add t s v).
Proof.
  intros He Hev Hold Hc Hb. unfold add. destruct (vote_verify_signature v) eqn:Hs; cbn [negb]; [|apply He].
  destruct (voter v) as [addr|] eqn:Hv; [|apply He].
  destruct (prev ← first_vote t (vote_height v) addr; _) as [prev|]; [apply Hev|].
  destruct (N.leb_spec (vote_height v) (finalized_height (db s))); [exact Hold|].
  destruct (block (vote_height v) (db s)) as [b|] eqn:Hblk; [|apply Hb].
  destruct (String.eqb_spec (b_hash b) (vote_hash v)); [|apply He]. now apply (Hc addr b).
Qed.

Lemma add_ok t s v : tracker_ok t -> tracker_ok (add t s v).1.2.
Proof.
  intros Hok. apply (add_cases t s v (fun out => tracker_ok out.1.2)); try done.
  - intros e. destruct Hok as (H1 & H2). split; [|now apply push_evidence_ok]. intros h m a w. cbn [fst snd]. rewrite push_evidence_inner. apply H1.
  - intros addr b Hs Hv _ _ _. now apply count_vote_ok.
  - intros addr. now apply buffer_vote_ok.
Qed.
(** Counting and buffering votes keeps the votes those of the stored blocks. *)
Lemma add_match t s v : votes_match t (db s) -> votes_match (add t s v).1.2 (db (add t s v).2).
Proof.
  intros Hm. apply (add_cases t s v (fun out => votes_match out.1.2 (db out.2))); try done.
  - intros e h m a w b. cbn [fst snd]. rewrite push_evidence_inner. apply Hm.
  - intros addr b _ _ _ Hb Hh. now apply (count_vote_match t s v addr b).
  - intros addr. destruct (buffer_vote_inner t s v addr) as [H1 H2]. intros h m a w b. rewrite H1, H2. apply Hm.
Qed.

(** Stake of the members of [set] with a vote in [m], unbounded. *)
Definition quorum_stake (set : list Validator) (m : gmap string Vote) : N :=
  stake_sum (List.filter (has_vote m) set).

Lemma quorum_stake_le set m : quorum_stake set m <= stake_sum set.
Proof. unfold quorum_stake, stake_sum. pose proof (sumN_filter_split v_stake (has_vote m) set). lia. Qed.

Lemma voted_stake_plain set m : stake_sum set < 2 ^ 128 -> voted_stake set m = quorum_stake set m.
Proof.
  intros Hs. unfold voted_stake. apply sum_wrapping_map. fold (stake_sum (List.filter (has_vote m) set)).
  fold (quorum_stake set m). pose proof (quorum_stake_le set m). lia.
Qed.

(** The members of a quorum are distinct when those of the set are. *)
Lemma quorum_nodup (f : Validator -> bool) set : NoDup (map v_address set) -> NoDup (map v_address (List.filter f set)).
Proof.
  induction set as [|w l IH]; intros Hn; [constructor|]. cbn in Hn. apply NoDup_cons in Hn as [Hw Hn].
  cbn. destruct (f w); [|auto]. cbn. constructor; [|auto]. intros Hin. apply Hw.
  apply list_elem_of_fmap in Hin as (x & -> & Hx). apply list_elem_of_fmap. exists x. split; [done|].
  now apply list_elem_of_In, filter_In, proj1, list_elem_of_In in Hx.
Qed.

(** The stored block of height [h] and a quorum that signed precommits of [h];
    those for the block's own hash satisfy [P]. *)
Definition quorum_on (d : Db) (h : N) (b : Block) (quorum : list Validator) (P : Vote -> Prop) : Prop :=
  block h d = Some b /\ NoDup (map v_address quorum) /\ 2 * stake_sum (validator_set d) < 3 * stake_sum quorum /\
  forall w, w ∈ quorum -> w ∈ validator_set d /\
    exists vote, vote_height vote = h /\ voter vote = Some (v_address w) /\ vote_verify_signature vote = true /\ P vote.

(** C2: Finality needs a two-thirds quorum.  As long as three times all funds fit
    in 128 bits, when a precommit finalizes a height, that height was above the
    finalized one and is recorded as finalized, the precommit is for the stored
    block, and bonded validators that together hold strictly more than two
    thirds of the stake have valid precommits of that height.  If the votes
    counted before were for the stored blocks, which a new tracker satisfies,
    every vote keeps, and every change of the store keeps that does not put
    another block where votes were counted, then all precommits of the quorum
    are for exactly the finalized block; a reset to genesis, which keeps the
    votes, can break this.  Whatever the vote, the finalized height never
    decreases and the tracker stays well formed. *)
Theorem finality_needs_quorum t s v (Hok : tracker_ok t) (Hf : funds (db s) * 3 < 2 ^ 128) (Hh : vote_height v < 2 ^ 64) :
  let '(r, t', s') := add t s v in
  tracker_ok t' /\ finalized_height (db s) <= finalized_height (db s') /\
  (votes_match tracker_new (db s) /\ (votes_match t (db s) -> votes_match t' (db s')) /\
   forall d', blocks_stay t (db s) d' -> votes_match t (db s) -> votes_match t d') /\
  forall o h, r = Ok o -> finalized o = Some h ->
    h = vote_height v /\ finalized_height (db s) < h /\ finalized_height (db s') = h /\
    exists b quorum, vote_hash v = b_hash b /\
      quorum_on (db s) h b quorum (fun vote => votes_match t (db s) -> vote_hash vote = b_hash b).
Proof.
  pose proof (add_ok t s v Hok) as Hok'. pose proof (add_match t s v) as Hm'.
  assert (forall d', blocks_stay t (db s) d' -> votes_match t (db s) -> votes_match t d') as Hstay by (intros d'; apply votes_match_blocks).
  pose proof (tracker_new_match (db s)) as Hnew. pattern (add t s v) in Hok', Hm' |- *. cbv beta in *.
  revert Hok' Hm'. apply (add_cases t s v); intros.
  1-3: cbn [fst snd] in *; split; [done|]; split; [lia|]; split; [done|]; intros o h Ho Hfin; try done; injection Ho as <-; done.
  - rename H into Hs, H0 into Hv, H1 into Hold, H2 into Hb, H3 into Hhash. destruct Hok as (Hfiled & _).
    pose proof (inserted_filed t v addr Hfiled Hs Hv) as Hf2.
    revert Hok' Hm'. unfold count_vote. set (set := validator_set (db s)). set (m' := <[addr := v]> _).
    assert (stake_sum set <= funds (db s)) as Hset by apply stake_sum_le_funds.
    destruct (in_set set addr); cbn [negb fst snd]; [|intros; split; [done|]; split; [lia|done]].
    unfold total_stake. rewrite sum_wrapping_map by (fold (stake_sum set); lia). fold (stake_sum set).
    rewrite voted_stake_plain by lia. pose proof (quorum_stake_le set m') as Hq. rewrite !wmul_small by lia.
    destruct (_ && _) eqn:Hcond; cbn [fst snd]; intros Hok' Hm'; (split; [exact Hok'|]);
      [|split; [lia|]; split; [done|]; intros o h [= <-]; done].
    rewrite finalized_after by done. split; [lia|]. split; [done|]. intros o h [= <-] [= <-].
    apply andb_true_iff in Hcond as [[_ Hq2%N.ltb_lt]%andb_true_iff _].
    split; [done|]. split; [done|]. split; [lia|]. exists b, (List.filter (has_vote m') set). split; [done|].
    split; [done|]. split; [apply quorum_nodup; exact (set_nodup (db s) (next_height (db s)))|].
    split; [unfold quorum_stake in Hq2; fold set; lia|].
    intros w [Hw Hhas]%list_elem_of_In%filter_In. split; [now apply list_elem_of_In|]. unfold has_vote in Hhas.
    apply bool_decide_eq_true in Hhas as [vote Hvote].
    assert (inner (with_inner (inserted t v addr) t) !! vote_height v = Some m') as Hi by (cbn; unfold inserted; now rewrite lookup_insert_eq).
    destruct (Hf2 _ _ _ _ Hi Hvote) as (E1 & E2 & E3). exists vote. repeat (split; [done|]).
    intros Hmatch. exact (inserted_match t (db s) v addr b Hmatch Hb Hhash _ _ _ _ _ Hi Hvote Hb).
  - destruct (buffer_vote_inner t s v addr) as [_ Hs]. revert Hok' Hm'. unfold buffer_vote in *.
    destruct (negb _); [|destruct (existsb _ _)]; cbn [fst snd]; intros; (split; [done|]); (split; [lia|]); (split; [done|]); intros o h Ho; try done; injection Ho as <-; done.
Qed.

(** ** Conflicting quorums *)

(** A map of signed precommits for one block. *)
Definition votes_for (m : gmap string Vote) (h : N) (hash : string) : Prop :=
  forall addr v, m !! addr = Some v ->
    vote_height v = h /\ vote_hash v = hash /\ voter v = Some addr /\ vote_verify_signature v = true.

Definition has_both (m1 m2 : gmap string Vote) (v : Validator) : bool := has_vote m1 v && has_vote m2 v.

Lemma inclusion_exclusion {A} (f : A -> N) (p q : A -> bool) l :
  sumN f (List.filter p l) + sumN f (List.filter q l) <=
  sumN f l + sumN f (List.filter (fun a => p a && q a) l).
Proof.
  induction l as [|a l IH]; [done|]. cbn [List.filter].
  destruct (p a), (q a); cbn [andb]; rewrite ?sumN_cons; lia.
Qed.

(** C21: accountable safety.  If two precommit sets over one validator set each
    carry more than two thirds of the stake, for different blocks of the same
    height, then validators holding more than a third of the stake signed both,
    and for each of them the two votes are evidence that verifies against its
    address, provided it wrote its public key the same way in both. *)
Theorem conflicting_quorums_accountable set m1 m2 h hash1 hash2 :
  votes_for m1 h hash1 -> votes_for m2 h hash2 -> hash1 <> hash2 -> h <> 0 ->
  2 * stake_sum set < 3 * quorum_stake set m1 -> 2 * stake_sum set < 3 * quorum_stake set m2 ->
  let culprits := List.filter (has_both m1 m2) set in
  stake_sum set < 3 * stake_sum culprits /\
  forall w, w ∈ culprits -> exists v1 v2, m1 !! v_address w = Some v1 /\ m2 !! v_address w = Some v2 /\
    (voter_pubkey v1 = voter_pubkey v2 -> ev_verify (EvVote v1 v2) = Ok (v_address w)).
Proof.
  intros H1 H2 Hne Hz Hq1 Hq2 culprits. split.
  - pose proof (inclusion_exclusion v_stake (has_vote m1) (has_vote m2) set) as Hie.
    unfold culprits, has_both, quorum_stake, stake_sum in *. lia.
  - intros w [_ Hw]%list_elem_of_In%filter_In. unfold has_both, has_vote in Hw.
    apply andb_true_iff in Hw as [[v1 E1]%bool_decide_eq_true [v2 E2]%bool_decide_eq_true].
    exists v1, v2. split; [done|]. split; [done|]. intros Hk.
    destruct (H1 _ _ E1) as (A1 & B1 & C1 & D1). destruct (H2 _ _ E2) as (A2 & B2 & C2 & D2).
    apply ev_verify_vote. repeat split; congruence.
Qed.

(** Evidence whose two halves spell the key differently never verifies, although
    hex decoding accepts either case. *)
Lemma mixed_case_evades a b offender : voter_pubkey a <> voter_pubkey b -> ev_verify (EvVote a b) <> Ok offender.
Proof. intros Hk Hv. now apply ev_verify_vote in Hv. Qed.
Lemma mixed_case_blocks_evade a b offender :
  hp_producer_pubkey a <> hp_producer_pubkey b -> ev_verify (EvBlock a b) <> Ok offender.
Proof. intros Hk Hv. now apply ev_verify_block in Hv. Qed.
End votes.

(** ** Witnesses *)
Module Votes_example.
Import Toy Toy_field.
#[local] Instance toy_compression : Compression := fun a b => f_add a (f_mul b b).
#[local] Instance toy_json : EvidenceJson :=
  {| evidence_to_json := fun _ => ""; evidence_from_json := fun _ => Err "bad evidence" |}.
#[local] Instance toy_params : ChainParams := {| slashing_activation := 0; shielded_activation := 1000 |}.

Definition key (n : string) : Keypair := {| signing := n |}.
Definition addr (n : string) : string := address (key n).
Definition signed (n hash : string) : Vote :=
  Build_Vote 5 hash (pubkey_hex (key n)) (sign_hex (key n) (vote_signing_bytes (Build_Vote 5 hash "" ""))).

Definition block5 (hash : string) : Block := Build_Block 5 "" 0 "" "" "" "" [] "" hash.
(** Three validators of equal stake, block 5 stored under [hash]. *)
Definition db5 (hash : string) : Db :=
  list_to_map (
    ((T_BLOCKS, height_key 5), VBlock (block5 hash)) ::
    flat_map (fun n => [((T_ACCOUNTS, addr n), VAccount (with_staked MIN_STAKE default_account));
                        ((T_STAKERS, addr n), VBytes "1")]) ["ann"; "ben"; "cat"]).
Definition store5 (hash : string) : Store := mk (db5 hash) [].

(** Adds votes in order. *)
Definition add_all (t : VoteTracker) (s : Store) (vs : list Vote) : VoteTracker * Store :=
  foldl (fun '(t, s) v => let '(_, t, s) := add t s v in (t, s)) (t, s) vs.
Definition after_two (hash : string) : VoteTracker * Store :=
  add_all tracker_new (store5 hash) [signed "ann" hash; signed "ben" hash].

Lemma add_all_ok vs : forall t s, tracker_ok t -> votes_match t (db s) ->
  tracker_ok (add_all t s vs).1 /\ votes_match (add_all t s vs).1 (db (add_all t s vs).2).
Proof.
  induction vs as [|v vs IH]; intros t s Hok Hm; [done|]. cbn.
  pose proof (add_ok t s v Hok) as H1. pose proof (add_match t s v Hm) as H2. destruct (add t s v) as [[r t1] s1]. now apply IH.
Qed.
Lemma after_two_ok hash : tracker_ok (after_two hash).1 /\ votes_match (after_two hash).1 (db (after_two hash).2).
Proof. apply add_all_ok; [apply tracker_new_ok|apply tracker_new_match]. Qed.

Definition final_vote : result VoteOutcome * VoteTracker * Store :=
  add (after_two "aa").1 (after_two "aa").2 (signed "cat" "aa").

Lemma finality_needs_quorum_witness :
  exists b quorum, quorum_on (db (after_two "aa").2) 5 b quorum (fun vote => vote_hash vote = b_hash b).
Proof.
  destruct (after_two_ok "aa") as [Hok Hm].
  pose proof (finality_needs_quorum (after_two "aa").1 (after_two "aa").2 (signed "cat" "aa") Hok) as Hq. fold final_vote in Hq.
  assert (final_vote.1.1 = Ok {| fresh := true; finalized := Some 5 |}) as E by (vm_compute; reflexivity).
  destruct final_vote as [[r t'] s']. cbn in E. subst r.
  destruct Hq as (_ & _ & _ & Hfin); [vm_compute; reflexivity|vm_compute; reflexivity|].
  destruct (Hfin _ 5 eq_refl eq_refl) as (_ & _ & _ & b & quorum & _ & Hb & Hn & Hs & Hall). exists b, quorum.
  split; [exact Hb|]. split; [exact Hn|]. split; [exact Hs|]. intros w Hw. destruct (Hall w Hw) as (Hin & vote & H1 & H2 & H3 & H4).
  split; [exact Hin|]. exists vote. split; [exact H1|]. split; [exact H2|]. split; [exact H3|]. exact (H4 Hm).
Defined.

(** After a reset replaced block 5, the votes for the old block still count: one
    vote for the new block finalizes it, though it carries a third of the stake. *)
Lemma stale_votes_finalize :
  let '(r, t', _) := add (after_two "aa").1 (store5 "bb") (signed "cat" "bb") in
  r = Ok {| fresh := true; finalized := Some 5 |} /\
  length (List.filter (fun v => String.eqb (vote_hash v) "bb") (map snd (map_to_list (at_height t' 5)))) = 1%nat.
Proof. vm_compute. split; reflexivity. Qed.

Definition double (hash : string) : gmap string Vote :=
  list_to_map (map (fun n => (addr n, signed n hash)) ["ann"; "ben"; "cat"]).

Lemma double_votes hash : hash = "aa" \/ hash = "bb" -> votes_for (double hash) 5 hash.
Proof.
  intros Hh a v E. apply elem_of_list_to_map_2 in E.
  destruct Hh as [-> | ->]; cbn in E; repeat (apply elem_of_cons in E as [E|E]; [injection E as -> ->; vm_compute; done|]);
    now apply not_elem_of_nil in E.
Qed.

Lemma conflicting_quorums_accountable_witness :
  let set := validator_set (db5 "aa") in
  stake_sum set < 3 * stake_sum (List.filter (has_both (double "aa") (double "bb")) set).
Proof.
  apply (conflicting_quorums_accountable (validator_set (db5 "aa")) (double "aa") (double "bb") 5 "aa" "bb");
    [apply double_votes; now left|apply double_votes; now right|discriminate|discriminate|vm_compute; reflexivity|vm_compute; reflexivity].
Defined.
End Votes_example.
