(* ===== verification/Mempool.v ===== *)
(** mempool.rs: the indexed transaction pool.

    The entries vector, the hash set and the per-sender counters are one record.
    [swap_remove] and the index arithmetic of [take_batch] are the code's. *)

From S2P Require Import Prelude Bytes Crypto Types.
From Stdlib Require String.

(* [src/src/mempool.rs 16-16 MAX_POOL_TXS] *)
Definition MAX_POOL_TXS : N := 20000.
(* [src/src/mempool.rs 19-19 MAX_PENDING_PER_SENDER] *)
Definition MAX_PENDING_PER_SENDER : N := 64.

(* [src/src/mempool.rs 21-27 PoolTx] *)
Record PoolTx := { e_tx : Transaction; e_hash : string; e_sender : string; e_seq : N }.

(* [src/src/mempool.rs 30-35 Mempool] *)
Record Mempool := {
  entries : list PoolTx;
  hashes : gset string;
  per_sender : gmap string N;
  next_seq : N
}.

(* [src/src/mempool.rs 38-40 Mempool::new] *)
Definition mempool_new : Mempool := {| entries := []; hashes := ∅; per_sender := ∅; next_seq := 0 |}.
(* [src/src/mempool.rs 42-44 Mempool::len] *)
Definition pool_len (p : Mempool) : N := N.of_nat (length (entries p)).
(* [src/src/mempool.rs 46-48 Mempool::is_empty] *)
Definition pool_is_empty (p : Mempool) : bool := Nat.eqb (length (entries p)) 0.
(* [src/src/mempool.rs 50-52 Mempool::contains] *)
Definition contains (hash : string) (p : Mempool) : bool := bool_decide (hash ∈ hashes p).
(* [src/src/mempool.rs 56-58 Mempool::pending_for] *)
Definition pending_for (sender : string) (p : Mempool) : N :=
  match per_sender p !! sender with Some n => n | None => 0 end.

(* [src/src/mempool.rs 60-71 Mempool::insert] *)
Definition pool_insert (tx : Transaction) (hash sender : string) (p : Mempool) : Mempool := {|
  entries := entries p ++ [ {| e_tx := tx; e_hash := hash; e_sender := sender; e_seq := next_seq p |} ];
  hashes := {[ hash ]} ∪ hashes p;
  per_sender := <[sender := pending_for sender p +!! 1]> (per_sender p);
  next_seq := next_seq p +!! 1 |}.

(* [src/src/mempool.rs 73-75 Mempool::is_full] *)
Definition is_full (p : Mempool) : bool := MAX_POOL_TXS <=? pool_len p.

(* [src/src/mempool.rs 208-215 decrement] *)
Definition decrement (m : gmap string N) (sender : string) : gmap string N :=
  match m !! sender with
  | None => m
  | Some n => let n := sat_sub n 1 in if n =? 0 then delete sender m else <[sender := n]> m
  end.

(** Removes an entry from the two indexes. *)
Definition unindex (e : PoolTx) (hs : gset string) (ps : gmap string N) : gset string * gmap string N :=
  (hs ∖ {[ e_hash e ]}, decrement ps (e_sender e)).

(** Highest queued nonce per sender: index and nonce. *)
Definition tail_map (es : list PoolTx) : gmap string (nat * N) :=
  foldl (fun (tail : gmap string (nat * N)) '(i, e) =>
    let best := match tail !! e_sender e with Some b => b | None => (i, tx_nonce (e_tx e)) end in
    <[e_sender e := if best.2 <=? tx_nonce (e_tx e) then (i, tx_nonce (e_tx e)) else best]> tail)
    ∅ (imap (fun i e => (i, e)) es).

(** [x.fee.cmp(&y.fee).then(y.seq.cmp(&x.seq))] is [Less] or [Equal]. *)
Definition cheaper (x y : PoolTx) : bool :=
  if tx_fee (e_tx x) <? tx_fee (e_tx y) then true
  else if tx_fee (e_tx y) <? tx_fee (e_tx x) then false
  else e_seq y <=? e_seq x.

(** [min_by] over the tails: the cheapest, newest first. *)
Definition victim_of (es : list PoolTx) : option (nat * PoolTx) :=
  foldl (fun best '(_, (i, _)) =>
    match es !! i with
    | None => best
    | Some e => match best with
      | None => Some (i, e)
      | Some (_, b) => if cheaper b e then best else Some (i, e)
      end
    end) None (map_to_list (tail_map es)).

(** [Vec::swap_remove]: the last element moves into the hole. *)
Definition swap_remove (i : nat) (l : list PoolTx) : list PoolTx :=
  match last l with
  | None => l
  | Some x => let l' := removelast l in if Nat.ltb i (length l') then <[i := x]> l' else l'
  end.

(* [src/src/mempool.rs 81-101 Mempool::evict_cheapest_below] *)
Definition evict_cheapest_below (incoming_fee : N) (p : Mempool) : option N * Mempool :=
  match victim_of (entries p) with
  | None => (None, p)
  | Some (i, e) =>
    if incoming_fee <=? tx_fee (e_tx e) then (None, p)
    else
      let '(hs, ps) := unindex e (hashes p) (per_sender p) in
      (Some (tx_fee (e_tx e)),
       {| entries := swap_remove i (entries p); hashes := hs; per_sender := ps; next_seq := next_seq p |})
  end.

(** ** Block selection *)

(** Fee descending, then nonce, then arrival. *)
Definition batch_before (x y : PoolTx) : bool :=
  if tx_fee (e_tx y) <? tx_fee (e_tx x) then true
  else if tx_fee (e_tx x) <? tx_fee (e_tx y) then false
  else if tx_nonce (e_tx x) <? tx_nonce (e_tx y) then true
  else if tx_nonce (e_tx y) <? tx_nonce (e_tx x) then false
  else e_seq x <=? e_seq y.

Definition Indexed : Type := nat * PoolTx.

Record Pass := { next_ok : gmap string N; chosen : list Indexed; still : list Indexed; deferred : bool }.

Definition choose (x : Indexed) (again : bool) (s : Pass) : Pass := {|
  next_ok := <[e_sender x.2 := tx_nonce (e_tx x.2) +!! 1]> (next_ok s);
  chosen := chosen s ++ [x]; still := still s; deferred := again || deferred s |}.
Definition postpone (x : Indexed) (s : Pass) : Pass := {|
  next_ok := next_ok s; chosen := chosen s; still := still s ++ [x]; deferred := deferred s |}.

(** One candidate of the selection loop. *)
Definition select (max : nat) (s : Pass) (x : Indexed) : Pass :=
  if Nat.leb max (length (chosen s)) then postpone x s
  else match next_ok s !! e_sender x.2 with
  | None => choose x false s
  | Some n => if n =? tx_nonce (e_tx x.2) then choose x true s else postpone x s
  end.

(** [while deferred && chosen.len() < max]; every round but the last chooses
    something, so [S (length entries)] rounds are enough. *)
Fixpoint selection (fuel max : nat) (nok : gmap string N) (ch remaining : list Indexed) : list Indexed :=
  match fuel with
  | O => ch
  | S f =>
    if Nat.ltb (length ch) max then
      let s := foldl (select max) {| next_ok := nok; chosen := ch; still := []; deferred := false |} remaining in
      if deferred s then selection f max (next_ok s) (chosen s) (still s) else chosen s
    else ch
  end.

Definition batch_order (es : list PoolTx) : list Indexed :=
  sort_by (fun a b : Indexed => batch_before a.2 b.2) (imap (fun i e => (i, e)) es).

Definition selected (max : nat) (es : list PoolTx) : list Indexed :=
  selection (S (length es)) max ∅ [] (batch_order es).

Definition is_chosen (ch : list Indexed) (i : nat) : bool := existsb (fun x => Nat.eqb x.1 i) ch.

(* [src/src/mempool.rs 105-176 Mempool::take_batch] *)
Definition take_batch (max : nat) (p : Mempool) : list Transaction * Mempool :=
  if pool_is_empty p || Nat.eqb max 0 then ([], p)
  else
    let ch := selected max (entries p) in
    let es := imap (fun i e => (i, e)) (entries p) in
    let '(hs, ps) := foldl (fun '(hs, ps) x => if is_chosen ch x.1 then unindex x.2 hs ps else (hs, ps))
      (hashes p, per_sender p) es in
    (map (fun x => e_tx x.2) ch,
     {| entries := map snd (List.filter (fun x => negb (is_chosen ch x.1)) es);
        hashes := hs; per_sender := ps; next_seq := next_seq p |}).

(* [src/src/mempool.rs 179-197 Mempool::remove_hashes] *)
Definition remove_hashes (gone : gset string) (p : Mempool) : Mempool :=
  if bool_decide (gone = ∅) then p
  else
    let '(hs, ps) := foldl (fun '(hs, ps) e => if bool_decide (e_hash e ∈ gone) then unindex e hs ps else (hs, ps))
      (hashes p, per_sender p) (entries p) in
    {| entries := List.filter (fun e => negb (bool_decide (e_hash e ∈ gone))) (entries p);
       hashes := hs; per_sender := ps; next_seq := next_seq p |}.

(* [src/src/mempool.rs 193-197 Mempool::clear] *)
Definition pool_clear (p : Mempool) : Mempool :=
  {| entries := []; hashes := ∅; per_sender := ∅; next_seq := next_seq p |}.
(* [src/src/mempool.rs 200-202 Mempool::fees] *)
Definition pool_fees (p : Mempool) : list N := map (fun e => tx_fee (e_tx e)) (entries p).
(* [src/src/mempool.rs 205-207 Mempool::min_fee] *)
Definition min_fee (p : Mempool) : option N :=
  match pool_fees p with [] => None | f :: fs => Some (foldl N.min f fs) end.
