(* ===== verification/MempoolFacts.v ===== *)
(** Theorems about mempool.rs: the indexes agree with the entries, eviction only
    removes a sender's last nonce, and a batch is bounded, drawn from the pool,
    and nonce-consecutive per sender. *)

From S2P Require Import Prelude Bytes Crypto Types Mempool.
From Stdlib Require String.

(** ** Indexes *)

Definition of_sender (s : string) (e : PoolTx) : bool := String.eqb (e_sender e) s.
Definition sender_count (s : string) (es : list PoolTx) : N := N.of_nat (length (List.filter (of_sender s) es)).

(** The hash set and the counters describe exactly the entries. *)
Definition index_ok (es : list PoolTx) (hs : gset string) (ps : gmap string N) : Prop :=
  NoDup (map e_hash es) /\
  hs = list_to_set (map e_hash es) /\
  forall s, ps !! s = if sender_count s es =? 0 then None else Some (sender_count s es).

Definition pool_ok (p : Mempool) : Prop :=
  index_ok (entries p) (hashes p) (per_sender p) /\ pool_len p <= MAX_POOL_TXS.

Lemma filter_perm {A} (f : A -> bool) l1 l2 : l1 ≡ₚ l2 -> List.filter f l1 ≡ₚ List.filter f l2.
Proof.
  induction 1 as [|x l1 l2 _ IH|x y l|l1 l2 l3 _ IH1 _ IH2]; cbn; [done| | |now transitivity (List.filter f l2)].
  - destruct (f x); [now constructor|done].
  - destruct (f x), (f y); try done. constructor.
Qed.

Lemma sender_count_perm s es es' : es ≡ₚ es' -> sender_count s es = sender_count s es'.
Proof. intros Hp. unfold sender_count. now rewrite (filter_perm _ _ _ Hp). Qed.

Lemma sender_count_cons s e es :
  sender_count s (e :: es) = (if String.eqb (e_sender e) s then 1 else 0) + sender_count s es.
Proof. unfold sender_count, of_sender. cbn. destruct (String.eqb _ _); cbn [length]; lia. Qed.

Lemma index_ok_perm es es' hs ps : es ≡ₚ es' -> index_ok es hs ps -> index_ok es' hs ps.
Proof.
  intros Hp (Hn & Hh & Hc). split; [now rewrite <- Hp|]. split.
  - rewrite Hh. apply set_eq. intros x. rewrite !elem_of_list_to_set. now rewrite Hp.
  - intros s. now rewrite Hc, (sender_count_perm s _ _ Hp).
Qed.

(** [unindex] takes one entry out of the indexes. *)
Lemma unindex_ok e es hs ps :
  index_ok (e :: es) hs ps -> index_ok es (unindex e hs ps).1 (unindex e hs ps).2.
Proof.
  intros (Hn & Hh & Hc). cbn in Hn. apply NoDup_cons in Hn as [Hx Hn]. cbn [unindex fst snd].
  split; [done|]. split.
  - subst hs. apply set_eq. intros x. cbn [map list_to_set].
    rewrite elem_of_difference, elem_of_union, !elem_of_singleton, elem_of_list_to_set.
    split; [tauto|]. intros Hin. split; [now right|]. intros ->. done.
  - intros s. pose proof (Hc s) as Hs. pose proof (Hc (e_sender e)) as He.
    rewrite sender_count_cons in Hs, He. rewrite String.eqb_refl in He.
    unfold decrement. rewrite He.
    destruct (N.eqb_spec (1 + sender_count (e_sender e) es) 0); [lia|]. unfold sat_sub.
    replace (1 + sender_count (e_sender e) es - 1) with (sender_count (e_sender e) es) by lia.
    destruct (String.eqb_spec (e_sender e) s) as [E|Hne]; [subst s|].
    + destruct (N.eqb_spec (sender_count (e_sender e) es) 0); [apply lookup_delete_eq|apply lookup_insert_eq].
    + destruct (sender_count (e_sender e) es =? 0);
        [rewrite lookup_delete_ne by done|rewrite lookup_insert_ne by done]; now rewrite Hs.
Qed.

Lemma unindex_all {X} (proj : X -> PoolTx) (gone : X -> bool) l : forall rest hs ps,
  index_ok (rest ++ map proj l) hs ps ->
  let out := foldl (fun '(hs, ps) x => if gone x then unindex (proj x) hs ps else (hs, ps)) (hs, ps) l in
  index_ok (rest ++ map proj (List.filter (fun x => negb (gone x)) l)) out.1 out.2.
Proof.
  induction l as [|x l IH]; intros rest hs ps Hok; [done|]. cbn [foldl List.filter map] in *.
  destruct (gone x); cbn [negb map].
  - apply (index_ok_perm _ (proj x :: rest ++ map proj l)) in Hok; [|symmetry; apply Permutation_middle].
    apply unindex_ok in Hok. destruct (unindex (proj x) hs ps) as [hs' ps']. now apply IH.
  - replace (rest ++ proj x :: map proj (List.filter (fun y => negb (gone y)) l))
      with ((rest ++ [proj x]) ++ map proj (List.filter (fun y => negb (gone y)) l)) by now rewrite <- app_assoc.
    apply IH. now rewrite <- app_assoc.
Qed.

Lemma length_filter_le {A} (f : A -> bool) l : (length (List.filter f l) <= length l)%nat.
Proof. induction l as [|a l IH]; cbn; [done|]. destruct (f a); cbn; lia. Qed.

Lemma imap_pairs_snd {A} (l : list A) : map snd (imap (fun i e => (i, e)) l) = l.
Proof.
  apply list_eq. intros i.
  change (map snd (imap (fun i e => (i, e)) l)) with (snd <$> imap (fun i e => (i, e)) l).
  rewrite list_lookup_fmap, list_lookup_imap. now destruct (l !! i).
Qed.

Lemma elem_of_pairs {A} (l : list A) i e : (i, e) ∈ imap (fun i e => (i, e)) l <-> l !! i = Some e.
Proof.
  rewrite list_elem_of_lookup. split.
  - intros [j Hj]. rewrite list_lookup_imap in Hj. destruct (l !! j) eqn:E; [|done].
    cbn in Hj. now injection Hj as <- <-.
  - intros Hi. exists i. now rewrite list_lookup_imap, Hi.
Qed.

(** ** Eviction *)

Lemma tail_map_snoc es e :
  tail_map (es ++ [e]) =
  let tail := tail_map es in
  let best := match tail !! e_sender e with Some b => b | None => (length es, tx_nonce (e_tx e)) end in
  <[e_sender e := if best.2 <=? tx_nonce (e_tx e) then (length es, tx_nonce (e_tx e)) else best]> tail.
Proof. unfold tail_map. rewrite imap_app, foldl_app. cbn. now rewrite Nat.add_0_r. Qed.

(** [tail_map] holds, for every sender with entries, one of its highest nonces. *)
Lemma tail_map_spec es : forall s,
  match tail_map es !! s with
  | None => forall e, e ∈ es -> e_sender e <> s
  | Some (i, n) => exists e, es !! i = Some e /\ e_sender e = s /\ tx_nonce (e_tx e) = n /\
      forall e', e' ∈ es -> e_sender e' = s -> tx_nonce (e_tx e') <= n
  end.
Proof.
  induction es as [|e es IH] using rev_ind; intros s.
  - unfold tail_map. cbn. rewrite lookup_empty. intros e He. now apply not_elem_of_nil in He.
  - rewrite tail_map_snoc. cbv zeta. pose proof (IH (e_sender e)) as He. pose proof (IH s) as Hs.
    assert ((es ++ [e]) !! length es = Some e) as Hlast by now apply list_lookup_middle.
    destruct (decide (s = e_sender e)) as [->|Hne].
    + rewrite lookup_insert_eq. destruct (tail_map es !! e_sender e) as [[i n]|]; cbn [snd].
      * destruct He as (e0 & Hi & Hse & Hn & Hmax). destruct (N.leb_spec n (tx_nonce (e_tx e))).
        -- exists e. split; [done|]. split; [done|]. split; [done|]. intros e' Hin Hs'.
           apply elem_of_app in Hin as [Hin|Hin%list_elem_of_singleton]; [|now subst].
           specialize (Hmax e' Hin Hs'). lia.
        -- exists e0. split; [now apply lookup_app_l_Some|]. split; [done|]. split; [done|]. intros e' Hin Hs'.
           apply elem_of_app in Hin as [Hin|Hin%list_elem_of_singleton]; [auto|subst; lia].
      * rewrite N.leb_refl. exists e. split; [done|]. split; [done|]. split; [done|]. intros e' Hin Hs'.
        apply elem_of_app in Hin as [Hin|Hin%list_elem_of_singleton]; [|now subst]. now destruct (He e' Hin).
    + rewrite lookup_insert_ne by done. destruct (tail_map es !! s) as [[i n]|].
      * destruct Hs as (e0 & Hi & Hse & Hn & Hmax). exists e0. split; [now apply lookup_app_l_Some|].
        split; [done|]. split; [done|]. intros e' Hin Hs'.
        apply elem_of_app in Hin as [Hin|Hin%list_elem_of_singleton]; [auto|congruence].
      * intros e' Hin. apply elem_of_app in Hin as [Hin|Hin%list_elem_of_singleton]; [auto|congruence].
Qed.

Lemma cheaper_fee x y : cheaper x y = true -> tx_fee (e_tx x) <= tx_fee (e_tx y).
Proof. unfold cheaper. repeat case_match; bool_hyps; intros; try done; lia. Qed.
Lemma not_cheaper_fee x y : cheaper x y = false -> tx_fee (e_tx y) <= tx_fee (e_tx x).
Proof. unfold cheaper. repeat case_match; bool_hyps; intros; try done; lia. Qed.

(** A queued entry that is the last nonce of its sender. *)
Definition is_tail (es : list PoolTx) (e : PoolTx) : Prop :=
  forall e', e' ∈ es -> e_sender e' = e_sender e -> tx_nonce (e_tx e') <= tx_nonce (e_tx e).

Definition tail_at (es : list PoolTx) (i : nat) (e : PoolTx) : Prop :=
  es !! i = Some e /\ exists n, tail_map es !! e_sender e = Some (i, n).

Lemma tail_at_is_tail es i e : tail_at es i e -> is_tail es e.
Proof.
  intros [Hi [n Ht]]. pose proof (tail_map_spec es (e_sender e)) as Hs. rewrite Ht in Hs.
  destruct Hs as (e0 & Hi0 & _ & Hn & Hmax). assert (e0 = e) as -> by congruence.
  intros e' Hin Hse. rewrite Hn. now apply Hmax.
Qed.

(** [victim_of] is the cheapest of the tails. *)
Lemma victim_of_spec es :
  match victim_of es with
  | None => es = []
  | Some (i, e) => tail_at es i e /\
      forall j t, tail_at es j t -> tx_fee (e_tx e) <= tx_fee (e_tx t)
  end.
Proof.
  unfold victim_of.
  assert (forall l best,
    (forall s i n, (s, (i, n)) ∈ l -> tail_map es !! s = Some (i, n)) ->
    match best with None => True | Some (i, e) => tail_at es i e end ->
    match foldl (fun best '(_, (i, _)) => match es !! i with
        | None => best
        | Some e => match best with None => Some (i, e) | Some (_, b) => if cheaper b e then best else Some (i, e) end
        end) best l with
    | None => best = None /\ l = []
    | Some (i, e) => tail_at es i e /\
        (forall s j n t, (s, (j, n)) ∈ l -> es !! j = Some t -> tx_fee (e_tx e) <= tx_fee (e_tx t)) /\
        match best with None => True | Some (_, b) => tx_fee (e_tx e) <= tx_fee (e_tx b) end
    end) as Hgen.
  { induction l as [|[s [i n]] l IH]; intros best Hl Hb; cbn [foldl].
    - destruct best as [[i e]|]; [|done]. split; [done|]. split; [|lia].
      intros s j n t Hin. now apply not_elem_of_nil in Hin.
    - pose proof (tail_map_spec es s) as Hs. rewrite (Hl s i n) in Hs by constructor.
      destruct Hs as (e0 & Hi & Hse & Hn & _). rewrite Hi.
      assert (tail_at es i e0) as H0 by (split; [done|]; exists n; rewrite Hse; apply Hl; constructor).
      set (best' := match best with None => _ | Some (_, b) => _ end).
      assert (match best' with None => False | Some (k, b) => tail_at es k b /\ tx_fee (e_tx b) <= tx_fee (e_tx e0) /\
        match best with None => True | Some (_, b0) => tx_fee (e_tx b) <= tx_fee (e_tx b0) end end) as Hb'.
      { subst best'. destruct best as [[k b]|]; [|split; [done|]; split; [lia|done]]. destruct (cheaper b e0) eqn:E.
        - split; [done|]. split; [now apply cheaper_fee|lia].
        - split; [done|]. split; [lia|now apply not_cheaper_fee]. }
      specialize (IH best' (fun s i n Hin => Hl s i n (list_elem_of_further _ _ _ Hin))).
      destruct best' as [[k b]|]; [|done]. destruct Hb' as (Hk & Hfe & Hfb). specialize (IH Hk).
      destruct (foldl _ _ l) as [[i' e']|]; [|now destruct IH].
      destruct IH as (Ht & Hall & Hle). split; [done|]. split.
      + intros s' j' n' t Hin Hj. apply elem_of_cons in Hin as [E|Hin]; [|eauto].
        injection E as -> -> ->. assert (t = e0) as -> by congruence. lia.
      + destruct best as [[? ?]|]; [lia|done]. }
  specialize (Hgen (map_to_list (tail_map es)) None
    (fun s i n Hin => proj1 (elem_of_map_to_list _ _ _) Hin) I).
  destruct (foldl _ _ _) as [[i e]|].
  - destruct Hgen as (Ht & Hall & _). split; [done|]. intros j t [Hj [n Hn]].
    apply (Hall (e_sender t) j n t); [now apply elem_of_map_to_list|done].
  - destruct Hgen as [_ Hnil]. destruct es as [|e es] using rev_ind; [done|].
    exfalso. pose proof (tail_map_spec (es ++ [e]) (e_sender e)) as Hs.
    destruct (tail_map (es ++ [e]) !! e_sender e) as [[i n]|] eqn:E.
    + apply elem_of_map_to_list in E. rewrite Hnil in E. now apply not_elem_of_nil in E.
    + apply (Hs e); [|done]. apply elem_of_app. right. constructor.
Qed.

Lemma swap_remove_perm es i e : es !! i = Some e -> es ≡ₚ e :: swap_remove i es.
Proof.
  intros Hi. unfold swap_remove. destruct es as [|x es _] using rev_ind; [done|].
  rewrite last_snoc, removelast_last. destruct (Nat.ltb_spec i (length es)) as [Hl|Hl].
  - rewrite lookup_app_l in Hi by done. rewrite <- (take_drop_middle es i e Hi) at 1.
    rewrite (insert_take_drop es i x Hl).
    rewrite <- app_assoc. cbn. rewrite <- Permutation_middle. constructor.
    apply Permutation_app_head. symmetry. apply Permutation_cons_append.
  - rewrite lookup_app_r in Hi by done. destruct (i - length es)%nat as [|k]; [|done].
    cbn in Hi. injection Hi as ->. symmetry. apply Permutation_cons_append.
Qed.

(** Eviction is safe for everybody's queue.  It only happens for a newcomer
    that pays strictly more; the victim is a sender's highest queued nonce, no
    sender's last entry pays less, exactly that entry leaves the pool, and the
    indexes stay exact.  When nothing is evicted the pool is unchanged. *)
Theorem evict_only_cheapest_tail p fee :
  pool_ok p ->
  let '(r, p') := evict_cheapest_below fee p in
  pool_ok p' /\
  match r with
  | None => p' = p /\ (entries p <> [] -> exists i e, tail_at (entries p) i e /\ fee <= tx_fee (e_tx e))
  | Some f => exists i e, entries p !! i = Some e /\ tx_fee (e_tx e) = f /\ f < fee /\
      is_tail (entries p) e /\ (forall j t, tail_at (entries p) j t -> f <= tx_fee (e_tx t)) /\
      entries p ≡ₚ e :: entries p'
  end.
Proof.
  intros [Hix Hlen]. unfold evict_cheapest_below. pose proof (victim_of_spec (entries p)) as Hv.
  destruct (victim_of (entries p)) as [[i e]|]; [|split; [done|]; split; [done|congruence]].
  destruct Hv as [Ht Hmin]. destruct (N.leb_spec fee (tx_fee (e_tx e))) as [Hf|Hf].
  { split; [done|]. split; [done|]. intros _. eauto. }
  pose proof (swap_remove_perm _ i e (proj1 Ht)) as Hp.
  pose proof (unindex_ok e _ _ _ (index_ok_perm _ _ _ _ Hp Hix)) as Hun.
  destruct (unindex e (hashes p) (per_sender p)) as [hs ps]. cbn [fst snd] in Hun. split.
  - split; [exact Hun|]. unfold pool_len in *. rewrite Hp in Hlen. cbn [length entries] in *. lia.
  - exists i, e. split; [apply Ht|]. split; [done|]. split; [done|].
    split; [now apply (tail_at_is_tail _ i)|]. split; [exact Hmin|exact Hp].
Qed.

(** ** Batches *)

Fixpoint consecutive (l : list N) : Prop :=
  match l with
  | a :: ((b :: _) as l') => b = a +!! 1 /\ consecutive l'
  | _ => True
  end.

Lemma consecutive_snoc l b : consecutive l ->
  match last l with None => True | Some a => b = a +!! 1 end -> consecutive (l ++ [b]).
Proof.
  induction l as [|a l IH]; [done|]. destruct l as [|c l].
  - cbn. auto.
  - intros [Hc Hl] Hb. cbn [app]. split; [done|]. now apply IH.
Qed.

(** The nonces of one sender among the chosen, in batch order. *)
Definition nonces_of (s : string) (l : list PoolTx) : list N :=
  map (fun e => tx_nonce (e_tx e)) (List.filter (of_sender s) l).

Lemma nonces_snoc s l e : nonces_of s (l ++ [e]) =
  nonces_of s l ++ (if of_sender s e then [tx_nonce (e_tx e)] else []).
Proof. unfold nonces_of. rewrite List.filter_app, map_app. cbn. now destruct (of_sender s e). Qed.

(** The invariant of the selection loop. *)
Definition chosen_ok (nok : gmap string N) (ch : list Indexed) : Prop :=
  forall s, consecutive (nonces_of s (map snd ch)) /\
    (fun n => n +!! 1) <$> last (nonces_of s (map snd ch)) = nok !! s.

Lemma choose_ok x again st :
  chosen_ok (next_ok st) (chosen st) ->
  match next_ok st !! e_sender x.2 with None => True | Some n => n = tx_nonce (e_tx x.2) end ->
  chosen_ok (next_ok (choose x again st)) (chosen (choose x again st)).
Proof.
  intros Hok Hn s. destruct (Hok s) as [Hc Hl]. cbn [choose next_ok chosen].
  rewrite map_app. cbn [map]. rewrite nonces_snoc. unfold of_sender.
  destruct (String.eqb_spec (e_sender x.2) s) as [<-|Hne].
  - rewrite lookup_insert_eq. split.
    + apply consecutive_snoc; [done|]. destruct (last _) as [a|]; [|done].
      cbn in Hl. rewrite <- Hl in Hn. done.
    + now rewrite last_snoc.
  - rewrite app_nil_r, lookup_insert_ne by done. done.
Qed.

Definition pass_ok (max : nat) (st : Pass) : Prop :=
  chosen_ok (next_ok st) (chosen st) /\ (length (chosen st) <= max)%nat.

Lemma select_ok max st x : pass_ok max st ->
  pass_ok max (select max st x) /\
  chosen (select max st x) ++ still (select max st x) ≡ₚ x :: chosen st ++ still st.
Proof.
  intros [Hok Hl]. unfold select. destruct (Nat.leb_spec max (length (chosen st))).
  { split; [done|]. cbn. rewrite app_assoc. symmetry. apply Permutation_cons_append. }
  assert (forall again, match next_ok st !! e_sender x.2 with None => True | Some n => n = tx_nonce (e_tx x.2) end ->
    pass_ok max (choose x again st) /\
    chosen (choose x again st) ++ still (choose x again st) ≡ₚ x :: chosen st ++ still st) as Hch.
  { intros again Hn. split; [split; [now apply choose_ok|]|].
    - cbn. rewrite length_app. cbn. lia.
    - cbn. rewrite <- app_assoc. cbn. symmetry. apply Permutation_middle. }
  destruct (next_ok st !! e_sender x.2) as [n|] eqn:E; [|now apply Hch].
  destruct (N.eqb_spec n (tx_nonce (e_tx x.2))); [now apply Hch|].
  split; [done|]. cbn. rewrite app_assoc. symmetry. apply Permutation_cons_append.
Qed.

Lemma pass_run max l : forall st, pass_ok max st ->
  let st' := foldl (select max) st l in
  pass_ok max st' /\ chosen st' ++ still st' ≡ₚ (chosen st ++ still st) ++ l /\
  (length (chosen st) <= length (chosen st'))%nat /\
  (deferred st = false -> deferred st' = true -> (length (chosen st) < length (chosen st'))%nat).
Proof.
  induction l as [|x l IH]; intros st Hok; cbn [foldl].
  - split; [done|]. split; [now rewrite app_nil_r|]. split; [done|congruence].
  - destruct (select_ok max st x Hok) as [Hok' Hp]. destruct (IH _ Hok') as (H1 & H2 & H3 & H4).
    assert (length (chosen st) <= length (chosen (select max st x)))%nat as Hle
      by (unfold select; repeat case_match; cbn; rewrite ?length_app; cbn; lia).
    split; [done|]. split; [|split; [lia|]].
    + rewrite H2, Hp. cbn. apply Permutation_middle.
    + intros Hd Hd'. destruct (deferred (select max st x)) eqn:Ed; [|specialize (H4 eq_refl Hd'); lia].
      assert (length (chosen st) < length (chosen (select max st x)))%nat; [|lia].
      revert Ed. unfold select. repeat case_match; cbn; rewrite ?length_app; cbn; try congruence; lia.
Qed.

Lemma selection_run max fuel : forall nok ch remaining,
  chosen_ok nok ch -> (length ch <= max)%nat ->
  let out := selection fuel max nok ch remaining in
  (exists nok', chosen_ok nok' out) /\ (length out <= max)%nat /\
  (exists left, out ++ left ≡ₚ ch ++ remaining) /\
  ((length remaining < fuel)%nat -> forall extra, selection (fuel + extra) max nok ch remaining = out).
Proof.
  induction fuel as [|f IH]; intros nok ch remaining Hok Hl; cbn [selection Nat.add].
  - split; [eauto|]. split; [done|]. split; [eauto|lia].
  - destruct (Nat.ltb_spec (length ch) max) as [Hlt|Hge]; [|split; [eauto|]; split; [done|]; split; [eauto|done]].
    destruct (pass_run max remaining {| next_ok := nok; chosen := ch; still := []; deferred := false |})
      as ([Hok' Hl'] & Hp & _ & Hd); [split; done|]. cbn [chosen still deferred] in *.
    set (st := foldl (select max) _ remaining) in *. rewrite app_nil_r in Hp.
    destruct (deferred st) eqn:Ed.
    + destruct (IH (next_ok st) (chosen st) (still st) Hok' Hl') as (H1 & H2 & [left H3] & H4).
      split; [done|]. split; [done|]. split; [exists left; now rewrite H3|].
      intros Hf extra. apply H4. apply Permutation_length in Hp. rewrite !length_app in Hp.
      specialize (Hd eq_refl eq_refl). lia.
    + split; [eauto|]. split; [done|]. split; [eauto|done].
Qed.

(** What a pass leaves waits for a nonce the batch does not end with, as long as
    the pass was not cut short and appended nothing to an earlier choice. *)
Definition settled (st : Pass) : Prop := forall x, x ∈ still st ->
  exists n, next_ok st !! e_sender x.2 = Some n /\ (deferred st = false -> n <> tx_nonce (e_tx x.2)).

Lemma select_grows max st x : (length (chosen st) <= length (chosen (select max st x)))%nat.
Proof. unfold select; repeat case_match; cbn; rewrite ?length_app; cbn; lia. Qed.
Lemma select_settled max st x : settled st -> (length (chosen (select max st x)) < max)%nat -> settled (select max st x).
Proof.
  intros Hs. unfold select. destruct (Nat.leb_spec max (length (chosen st))); [cbn; lia|]. intros _.
  destruct (next_ok st !! e_sender x.2) as [n|] eqn:E; [destruct (N.eqb_spec n (tx_nonce (e_tx x.2)))|]; intros y Hy; cbn in Hy |- *.
  - destruct (Hs y Hy) as (m & Hm & _). destruct (decide (e_sender x.2 = e_sender y.2)) as [->|Hne];
      [rewrite lookup_insert_eq|rewrite lookup_insert_ne by done]; eauto; now eexists.
  - apply elem_of_app in Hy as [Hy|Hy]; [exact (Hs y Hy)|]. apply list_elem_of_singleton in Hy as ->. eauto.
  - destruct (Hs y Hy) as (m & Hm & Hd). rewrite lookup_insert_ne by congruence. eauto.
Qed.
Lemma pass_grows max l : forall st, (length (chosen st) <= length (chosen (foldl (select max) st l)))%nat.
Proof. induction l as [|x l IH]; intros st; [done|]. cbn [foldl]. etransitivity; [apply (select_grows max st x)|apply IH]. Qed.
Lemma pass_settled max l : forall st, settled st -> (length (chosen (foldl (select max) st l)) < max)%nat -> settled (foldl (select max) st l).
Proof.
  induction l as [|x l IH]; intros st Hs Hl; [done|]. cbn [foldl] in *. apply IH; [|exact Hl]. apply select_settled; [done|].
  pose proof (pass_grows max l (select max st x)). lia.
Qed.

(** The loop ends with a full batch, or with nothing left that could follow. *)
Lemma selection_settled max fuel : forall nok ch remaining,
  chosen_ok nok ch -> (length ch <= max)%nat -> (length remaining < fuel)%nat ->
  let out := selection fuel max nok ch remaining in (length out < max)%nat ->
  exists nok' left, chosen_ok nok' out /\ out ++ left ≡ₚ ch ++ remaining /\
    forall x, x ∈ left -> exists n, nok' !! e_sender x.2 = Some n /\ n <> tx_nonce (e_tx x.2).
Proof.
  induction fuel as [|f IH]; intros nok ch remaining Hok Hl Hf; [lia|]. cbn [selection].
  destruct (Nat.ltb_spec (length ch) max) as [Hlt|Hge]; [|cbn; lia].
  set (st0 := {| next_ok := nok; chosen := ch; still := []; deferred := false |}).
  destruct (pass_run max remaining st0) as ([Hok' Hl'] & Hp & _ & Hd); [split; done|].
  pose proof (pass_settled max remaining st0) as Hs.
  set (st := foldl (select max) st0 remaining) in *. cbn [st0 chosen still deferred] in Hp, Hd. rewrite app_nil_r in Hp.
  destruct (deferred st) eqn:Ed; cbn zeta; intros Hout.
  - destruct (IH (next_ok st) (chosen st) (still st) Hok' Hl') as (nok' & left & H1 & H2 & H3); [|exact Hout|].
    + apply Permutation_length in Hp. rewrite !length_app in Hp. specialize (Hd eq_refl eq_refl). lia.
    + exists nok', left. split; [done|]. split; [now rewrite H2|done].
  - exists (next_ok st), (still st). split; [done|]. split; [done|]. intros x Hx.
    destruct (Hs ltac:(intros y Hy; now apply elem_of_nil in Hy) Hout x Hx) as (n & H1 & H2). exists n. auto.
Qed.

Lemma batch_order_perm es : batch_order es ≡ₚ imap (fun i e => (i, e)) es.
Proof. apply sort_by_perm. Qed.

Lemma chosen_ok_nil : chosen_ok ∅ [].
Proof. intros s. cbn. now rewrite lookup_empty. Qed.

(** A pooled transaction that cannot follow the batch: its sender has others in
    it, and the last of these has not the nonce before. *)
Definition waits (taken : list PoolTx) (e : PoolTx) : Prop :=
  exists n, last (nonces_of (e_sender e) taken) = Some n /\ tx_nonce (e_tx e) <> n +!! 1.

Lemma selected_facts max es :
  (length (selected max es) <= max)%nat /\
  exists nok left, chosen_ok nok (selected max es) /\ selected max es ++ left ≡ₚ imap (fun i e => (i, e)) es /\
    ((length (selected max es) < max)%nat -> forall x, x ∈ left -> waits (map snd (selected max es)) x.2).
Proof.
  assert (length (batch_order es) < S (length es))%nat as Hf by (rewrite (Permutation_length (batch_order_perm es)), length_imap; lia).
  destruct (selection_run max (S (length es)) ∅ [] (batch_order es) chosen_ok_nil (Nat.le_0_l max)) as ([nok H1] & H2 & [left H3] & _).
  split; [exact H2|]. fold (selected max es) in *. destruct (decide (length (selected max es) < max)%nat) as [Hlt|Hge].
  - destruct (selection_settled max _ ∅ [] _ chosen_ok_nil (Nat.le_0_l max) Hf Hlt) as (nok' & left' & S1 & S2 & S3).
    exists nok', left'. split; [exact S1|]. split; [rewrite S2; cbn; apply batch_order_perm|]. intros _ x Hx.
    destruct (S3 x Hx) as (n & Hn & Hne). destruct (S1 (e_sender x.2)) as [_ Hlast]. fold (selected max es) in Hlast. rewrite Hn in Hlast.
    unfold waits. destruct (last _) as [m|]; [|done]. cbn in Hlast. injection Hlast as <-. exists m. split; [done|congruence].
  - exists nok, left. split; [exact H1|]. split; [rewrite H3; cbn; apply batch_order_perm|]. intros Hlt. now apply Hge in Hlt.
Qed.

Lemma is_chosen_true ch i : is_chosen ch i = true <-> i ∈ ch.*1.
Proof.
  unfold is_chosen. rewrite existsb_exists, list_elem_of_fmap. split.
  - intros (x & Hx & E%Nat.eqb_eq). exists x. split; [done|]. now apply list_elem_of_In.
  - intros (x & -> & Hx). exists x. split; [now apply list_elem_of_In|apply Nat.eqb_refl].
Qed.

Lemma filter_none {A} (f : A -> bool) l : (forall x, x ∈ l -> f x = false) -> List.filter f l = [].
Proof.
  induction l as [|x l IH]; intros Hf; [done|]. cbn. rewrite (Hf x) by constructor.
  apply IH. intros y Hy. apply Hf. now constructor.
Qed.
Lemma filter_all {A} (f : A -> bool) l : (forall x, x ∈ l -> f x = true) -> List.filter f l = l.
Proof.
  induction l as [|x l IH]; intros Hf; [done|]. cbn. rewrite (Hf x) by constructor.
  f_equal. apply IH. intros y Hy. apply Hf. now constructor.
Qed.

Lemma kept_perm es ch left : ch ++ left ≡ₚ imap (fun i e => (i, e)) es ->
  List.filter (fun x : Indexed => negb (is_chosen ch x.1)) (imap (fun i e => (i, e)) es) ≡ₚ left.
Proof.
  intros Hp.
  assert (NoDup (ch ++ left).*1) as Hn.
  { rewrite Hp. replace (imap (fun i e => (i, e)) es).*1 with (seq 0 (length es)); [apply NoDup_seq|].
    apply list_eq. intros i. rewrite list_lookup_fmap, list_lookup_imap.
    destruct (es !! i) eqn:E; cbn.
    - rewrite lookup_seq_lt; [done|]. now apply lookup_lt_Some in E.
    - rewrite lookup_seq_ge; [done|]. now apply lookup_ge_None in E. }
  rewrite fmap_app in Hn. apply NoDup_app in Hn as (_ & Hdis & _).
  rewrite <- (filter_perm _ _ _ Hp), List.filter_app, (filter_none _ ch), (filter_all _ left); [done| |]; cbv beta.
  - intros x Hx. apply negb_true_iff, not_true_iff_false. rewrite is_chosen_true. intros Hc.
    apply (Hdis _ Hc). apply list_elem_of_fmap. eauto.
  - intros x Hx. apply negb_false_iff, is_chosen_true, list_elem_of_fmap. eauto.
Qed.

(** A batch is a legal slice of the pool.  It has at most [max] transactions,
    it and what stays behind are together exactly the old pool, the indexes stay
    exact, each sender's transactions come out in consecutive nonce order, none
    skipped in between, and a batch that is not full leaves nothing that could
    follow it. *)
Theorem take_batch_consecutive max p :
  pool_ok p ->
  let '(txs, p') := take_batch max p in
  pool_ok p' /\ (length txs <= max)%nat /\
  exists taken, txs = map e_tx taken /\ entries p ≡ₚ taken ++ entries p' /\
    (forall s, consecutive (nonces_of s taken)) /\
    ((length txs < max)%nat -> forall e, e ∈ entries p' -> waits taken e).
Proof.
  intros [Hix Hlen]. unfold take_batch, pool_is_empty. destruct (_ || _) eqn:Hnone.
  { split; [done|]. split; [cbn; lia|]. exists []. split; [done|]. split; [done|]. split; [done|]. cbn. intros Hm e He.
    apply orb_true_iff in Hnone as [Hz|Hz]; apply Nat.eqb_eq in Hz; [|lia]. destruct (entries p); [now apply elem_of_nil in He|done]. }
  destruct (selected_facts max (entries p)) as (Hmax & nok & left & Hok & Hp & Hleft).
  set (ch := selected max (entries p)) in *. set (es := imap (fun i e => (i, e)) (entries p)) in *.
  pose proof (kept_perm _ _ _ Hp) as Hk. fold es in Hk.
  assert (map snd es = entries p) as Hes by apply imap_pairs_snd.
  pose proof (unindex_all snd (fun x : Indexed => is_chosen ch x.1) es [] (hashes p) (per_sender p)) as Hun.
  cbn [app] in Hun. rewrite Hes in Hun. specialize (Hun Hix).
  destruct (foldl _ _ es) as [hs ps]. cbn [fst snd] in Hun. split; [|split].
  - split; [exact Hun|]. unfold pool_len in *. cbn [entries]. rewrite length_map.
    match goal with |- context [List.filter ?f ?l] => pose proof (length_filter_le f l) end.
    rewrite <- Hes, length_map in Hlen. lia.
  - now rewrite length_map.
  - exists (map snd ch). split; [now rewrite map_map|]. cbn [entries]. split; [|split; [intros s; apply Hok|]].
    + rewrite Hk, <- map_app, Hp, <- Hes. done.
    + rewrite length_map. intros Hlt e He. rewrite Hk in He. apply list_elem_of_fmap in He as (x & -> & Hx). now apply Hleft.
Qed.

Lemma mempool_new_ok : pool_ok mempool_new.
Proof.
  split; [|discriminate]. split; [constructor|]. split; [done|]. intros s. cbn. now rewrite lookup_empty.
Qed.

Lemma pool_insert_ok p tx hash sender :
  pool_ok p -> contains hash p = false -> is_full p = false -> pool_ok (pool_insert tx hash sender p).
Proof.
  intros [Hix Hlen] Hnew Hfull. pose proof Hix as (Hn & Hh & Hc).
  unfold is_full, pool_len, MAX_POOL_TXS in *. apply N.leb_gt in Hfull. split.
  - set (e := {| e_tx := tx; e_hash := hash; e_sender := sender; e_seq := next_seq p |}).
    apply (index_ok_perm (e :: entries p)); [apply Permutation_cons_append|]. split; [|split].
    + cbn. apply NoDup_cons. split; [|done]. apply bool_decide_eq_false in Hnew. intros Hin. apply Hnew.
      rewrite Hh. now apply elem_of_list_to_set.
    + cbn. now rewrite Hh.
    + intros s. rewrite sender_count_cons. cbn [per_sender pool_insert e_sender e].
      assert (pending_for sender p = sender_count sender (entries p)) as ->.
      { unfold pending_for. rewrite Hc. destruct (N.eqb_spec (sender_count sender (entries p)) 0); lia. }
      assert (sender_count sender (entries p) < 20000) as Hsm.
      { unfold sender_count. pose proof (length_filter_le (of_sender sender) (entries p)). lia. }
      rewrite wadd_small by (rewrite pow_64; lia).
      destruct (String.eqb_spec sender s) as [<-|Hne].
      * rewrite lookup_insert_eq. destruct (N.eqb_spec (1 + sender_count sender (entries p)) 0); [lia|].
        f_equal. lia.
      * now rewrite lookup_insert_ne, Hc.
  - cbn [entries pool_insert]. unfold pool_len. cbn. rewrite length_app. cbn. unfold MAX_POOL_TXS. lia.
Qed.

Lemma contains_exact q h : index_ok (entries q) (hashes q) (per_sender q) ->
  contains h q = true <-> exists e, e ∈ entries q /\ e_hash e = h.
Proof.
  intros (_ & Hq & _). unfold contains. rewrite bool_decide_eq_true, Hq, elem_of_list_to_set.
  change (map e_hash (entries q)) with (e_hash <$> entries q). rewrite list_elem_of_fmap.
  split; intros (e & A & B); exists e; auto.
Qed.
Lemma pending_exact p s : pool_ok p -> pending_for s p = sender_count s (entries p).
Proof. intros [(_ & _ & Hc) _]. unfold pending_for. rewrite Hc. destruct (N.eqb_spec (sender_count s (entries p)) 0); lia. Qed.
Lemma remove_hashes_exact gone p : pool_ok p -> pool_ok (remove_hashes gone p) /\
  entries (remove_hashes gone p) = List.filter (fun e => negb (bool_decide (e_hash e ∈ gone))) (entries p).
Proof.
  intros [Hix Hlen]. unfold remove_hashes. destruct (decide (gone = ∅)) as [->|Hne].
  { rewrite bool_decide_true by done. split; [done|]. symmetry. apply filter_all. intros e _. now rewrite bool_decide_false by apply not_elem_of_empty. }
  rewrite bool_decide_false by done.
  pose proof (unindex_all id (fun e => bool_decide (e_hash e ∈ gone)) (entries p) [] (hashes p) (per_sender p)) as Hun.
  cbn [app] in Hun. rewrite !map_id in Hun. specialize (Hun Hix). unfold id in Hun.
  destruct (foldl _ _ (entries p)) as [hs ps]. cbn [fst snd] in Hun. split; [|done].
  split; [exact Hun|]. unfold pool_len in *. cbn [entries].
  pose proof (length_filter_le (fun e => negb (bool_decide (e_hash e ∈ gone))) (entries p)). lia.
Qed.
Lemma pool_clear_ok p : pool_ok (pool_clear p).
Proof. exact mempool_new_ok. Qed.

(** The pools of a node: each operation under the guards its callers check. *)
Inductive pooled : Mempool -> Prop :=
| pooled_new : pooled mempool_new
| pooled_insert p tx hash sender : pooled p -> contains hash p = false -> is_full p = false -> pooled (pool_insert tx hash sender p)
| pooled_evict p fee : pooled p -> pooled (evict_cheapest_below fee p).2
| pooled_take p max : pooled p -> pooled (take_batch max p).2
| pooled_remove p gone : pooled p -> pooled (remove_hashes gone p)
| pooled_clear p : pooled p -> pooled (pool_clear p).
Lemma pooled_ok p : pooled p -> pool_ok p.
Proof.
  induction 1 as [|p tx hash sender _ IH Hn Hf|p fee _ IH|p max _ IH|p gone _ IH|p _ IH].
  - exact mempool_new_ok.
  - now apply pool_insert_ok.
  - apply (evict_only_cheapest_tail p fee) in IH. destruct (evict_cheapest_below fee p). apply IH.
  - apply (take_batch_consecutive max p) in IH. destruct (take_batch max p). apply IH.
  - now apply remove_hashes_exact.
  - apply pool_clear_ok.
Qed.

(** C37: The pool is exact under all its operations.  Whatever insertions of new
    hashes into a pool that is not full, evictions, batches, removals and
    clearings made it, in any order: no hash is in it twice, it holds at most
    [MAX_POOL_TXS], [contains] and [pending_for] answer what its entries say; an
    eviction takes at most one entry, a sender's highest nonce that pays
    strictly less than the newcomer; and a batch has at most [max]
    transactions, takes exactly its own out of the pool, with consecutive
    nonces for each sender, and when it is not full leaves nothing that could
    follow it. *)
Theorem pool_operations_exact p (Hp : pooled p) :
  NoDup (map e_hash (entries p)) /\ pool_len p <= MAX_POOL_TXS /\
  (forall h, contains h p = true <-> exists e, e ∈ entries p /\ e_hash e = h) /\
  (forall s, pending_for s p = sender_count s (entries p)) /\
  (forall fee, let '(r, p') := evict_cheapest_below fee p in
     match r with
     | None => p' = p
     | Some f => exists e, entries p ≡ₚ e :: entries p' /\ tx_fee (e_tx e) = f /\ f < fee /\ is_tail (entries p) e
     end) /\
  (forall max, let '(txs, p') := take_batch max p in
     (length txs <= max)%nat /\
     exists taken, txs = map e_tx taken /\ entries p ≡ₚ taken ++ entries p' /\ (forall s, consecutive (nonces_of s taken)) /\
       ((length txs < max)%nat -> forall e, e ∈ entries p' -> waits taken e)) /\
  (forall gone, entries (remove_hashes gone p) = List.filter (fun e => negb (bool_decide (e_hash e ∈ gone))) (entries p)) /\
  entries (pool_clear p) = [].
Proof.
  apply pooled_ok in Hp. pose proof Hp as [Hix Hlen]. split; [apply Hix|]. split; [exact Hlen|]. split; [intros h; now apply contains_exact|].
  split; [intros s; now apply pending_exact|]. split; [|split; [|split; [intros gone; now apply remove_hashes_exact|done]]].
  - intros fee. pose proof (evict_only_cheapest_tail p fee Hp) as He. destruct (evict_cheapest_below fee p) as [[f|] p']; [|apply He].
    destruct He as (_ & i & e & _ & H1 & H2 & H3 & _ & H4). eauto.
  - intros max. pose proof (take_batch_consecutive max p Hp) as Ht. destruct (take_batch max p) as [txs p']. apply Ht.
Qed.

(** ** A concrete pool *)
Module Pool_example.

Definition tx (nonce fee : N) : Transaction :=
  Build_Transaction Transfer "" "" 1 fee nonce 7777 None None "".
Definition add (l : list (string * N * N)) : Mempool :=
  foldl (fun p '(s, n, f) => pool_insert (tx n f) (s +:+ Bytes.dec n) s p) mempool_new l.

(** ann queues nonces 0, 1, 2; ben queues 7 and 8. *)
Definition queue : list (string * N * N) :=
  [("ann", 0, 5000); ("ben", 7, 9000); ("ann", 1, 4000); ("ben", 8, 1000); ("ann", 2, 3000)].
Definition pool : Mempool := add queue.

Lemma pool_pooled : pooled pool.
Proof.
  unfold pool, add, queue. cbn [foldl].
  repeat (apply pooled_insert; [|vm_compute; reflexivity|vm_compute; reflexivity]). apply pooled_new.
Qed.
Lemma pool_is_ok : pool_ok pool.
Proof. exact (pooled_ok pool pool_pooled). Qed.

Lemma take_batch_consecutive_witness :
  (take_batch 4 pool).1 = [tx 7 9000; tx 0 5000; tx 1 4000; tx 2 3000] /\ pool_ok (take_batch 4 pool).2.
Proof.
  split; [vm_compute; reflexivity|]. pose proof (take_batch_consecutive 4 pool pool_is_ok) as Ht.
  destruct (take_batch 4 pool) as [txs p']. apply Ht.
Defined.

Lemma evict_only_cheapest_tail_witness :
  (evict_cheapest_below 2000 pool).1 = Some 1000 /\ pool_ok (evict_cheapest_below 2000 pool).2.
Proof.
  split; [vm_compute; reflexivity|]. pose proof (evict_only_cheapest_tail pool 2000 pool_is_ok) as He.
  destruct (evict_cheapest_below 2000 pool) as [r p']. apply He.
Defined.

(** After an eviction and a batch of two. *)
Definition reduced : Mempool := (take_batch 2 (evict_cheapest_below 2000 pool).2).2.
Lemma pool_operations_exact_witness :
  pending_for "ann" reduced = sender_count "ann" (entries reduced) /\ pending_for "ann" reduced = 2 /\ pool_len reduced = 2.
Proof.
  split; [|split; vm_compute; reflexivity].
  destruct (pool_operations_exact reduced (pooled_take _ 2 (pooled_evict _ 2000 pool_pooled))) as (_ & _ & _ & H & _). exact (H "ann").
Defined.

(** A later nonce that pays more is taken, and its predecessor is left behind. *)
Lemma later_nonce_first :
  (take_batch 10 (add [("ann", 0, 1000); ("ann", 1, 5000)])).1 = [tx 1 5000].
Proof. vm_compute. reflexivity. Qed.

(** A newcomer can evict its own predecessor: the queue [0, 1] becomes [0, 2]. *)
Lemma own_tail_evicted :
  let p := add [("ann", 0, 5000); ("ben", 7, 9000); ("ann", 1, 1000)] in
  let p' := pool_insert (tx 2 6000) "ann2" "ann" (evict_cheapest_below 6000 p).2 in
  nonces_of "ann" (entries p') = [0; 2].
Proof. vm_compute. reflexivity. Qed.
End Pool_example.
