(* ===== verification/Contracts.v ===== *)
(** contracts.rs: WASM contracts, the host functions of the guest ABI and the
    outcome of a call.

    The interpreter (crate [wasmi]) is third-party: class [Wasm].  What a module
    does is a [Guest], the tree of its host calls: between two calls the guest
    computes, at a call it hands over its linear memory and goes on with the
    reply.  Trees are finite because a run is metered
    ([cfg.consume_fuel(true)]).  The host functions, which enforce every limit,
    are the code's. *)

From S2P Require Import Prelude Bytes Crypto Types Journal Store Smt Poseidon Shielded State.
From Stdlib Require Import Ascii.
From Stdlib Require String.

(* [src/src/contracts.rs 30-30 DEPLOY_FEE] *)
Definition DEPLOY_FEE : N := 5 * RAI_PER_INAZ.
(* [src/src/contracts.rs 31-31 MAX_CODE_BYTES] *)
Definition MAX_CODE_BYTES : N := 256 * 1024.
(* [src/src/contracts.rs 32-32 MAX_INPUT_BYTES] *)
Definition MAX_INPUT_BYTES : N := 16 * 1024.
(* [src/src/contracts.rs 33-33 MAX_KEY_BYTES] *)
Definition MAX_KEY_BYTES : N := 128.
(* [src/src/contracts.rs 34-34 MAX_VALUE_BYTES] *)
Definition MAX_VALUE_BYTES : N := 8 * 1024.
(* [src/src/contracts.rs 35-35 MAX_WRITES] *)
Definition MAX_WRITES : nat := 512.
(* [src/src/contracts.rs 36-36 MAX_TRANSFERS] *)
Definition MAX_TRANSFERS : nat := 32.
(* [src/src/contracts.rs 37-37 MAX_LOGS] *)
Definition MAX_LOGS : nat := 64.
(* [src/src/contracts.rs 38-38 MAX_RETURN_BYTES] *)
Definition MAX_RETURN_BYTES : N := 8 * 1024.
(* [src/src/contracts.rs 40-40 FUEL_PER_RAI] *)
Definition FUEL_PER_RAI : N := 400.
(* [src/src/contracts.rs 41-41 MAX_FUEL] *)
Definition MAX_FUEL : N := 2000000000.
(* [src/src/contracts.rs 43-43 QUERY_FUEL] *)
Definition QUERY_FUEL : N := 50000000.

(** [x.len()] *)
Definition len (s : string) : N := N.of_nat (slen s).

(** ** Guest integers *)

Definition I64_MAX : N := 9223372036854775807.
(** [n as i32], [n as i64] *)
Definition as_i32 (n : N) : Z := let m := Z.of_N (wrap 32 n) in if (m <? 2 ^ 31)%Z then m else (m - 2 ^ 32)%Z.
Definition as_i64 (n : N) : Z := let m := Z.of_N (wrap 64 n) in if (m <? 2 ^ 63)%Z then m else (m - 2 ^ 64)%Z.

(** ** [String::from_utf8_lossy] *)

Definition in_range (lo hi : N) (c : ascii) : bool := let v := N_of_ascii c in (lo <=? v) && (v <=? hi).
Definition is_cont (c : ascii) : bool := in_range 128 191 c.
(** U+FFFD *)
Definition replacement : string := push_byte 239 +:+ push_byte 191 +:+ push_byte 189.

(** Is [b] a second byte that may follow the first byte [a] of a three- or
    four-byte sequence. *)
Definition second3 (a b : ascii) : bool :=
  let v := N_of_ascii a in
  if v =? 224 then in_range 160 191 b else if v =? 237 then in_range 128 159 b else is_cont b.
Definition second4 (a b : ascii) : bool :=
  let v := N_of_ascii a in
  if v =? 240 then in_range 144 191 b else if v =? 244 then in_range 128 143 b else is_cont b.

(** Each maximal prefix of an ill-formed sequence becomes one U+FFFD. *)
Fixpoint from_utf8_lossy (s : string) : string :=
  match s with
  | "" => ""
  | String a s1 =>
    if in_range 0 127 a then String a (from_utf8_lossy s1)
    else if in_range 194 223 a then
      match s1 with
      | String b s2 =>
        if is_cont b then String a (String b (from_utf8_lossy s2)) else replacement +:+ from_utf8_lossy s1
      | "" => replacement
      end
    else if in_range 224 239 a then
      match s1 with
      | String b s2 =>
        if second3 a b then
          match s2 with
          | String c s3 =>
            if is_cont c then String a (String b (String c (from_utf8_lossy s3)))
            else replacement +:+ from_utf8_lossy s2
          | "" => replacement
          end
        else replacement +:+ from_utf8_lossy s1
      | "" => replacement
      end
    else if in_range 240 244 a then
      match s1 with
      | String b s2 =>
        if second4 a b then
          match s2 with
          | String c s3 =>
            if is_cont c then
              match s3 with
              | String d s4 =>
                if is_cont d then String a (String b (String c (String d (from_utf8_lossy s4))))
                else replacement +:+ from_utf8_lossy s3
              | "" => replacement
              end
            else replacement +:+ from_utf8_lossy s2
          | "" => replacement
          end
        else replacement +:+ from_utf8_lossy s1
      | "" => replacement
      end
    else replacement +:+ from_utf8_lossy s1
  end.

(** ** The interpreter *)

(** The imports of module ["env"], with their arguments. *)
Inductive HostCall :=
| inz_input_len
| inz_input (ptr cap : Z)
| inz_return (ptr len : Z)
| inz_log (ptr len : Z)
| inz_caller (ptr cap : Z)
| inz_self (ptr cap : Z)
| inz_value
| inz_height
| inz_balance
| inz_read (kptr klen ptr cap : Z)
| inz_write (kptr klen vptr vlen : Z)
| inz_transfer (aptr alen amount : Z).

(** The exported linear memory, when there is one. *)
Definition Memory : Type := option string.

(** A phase of a module's run: it ends with a value or a trap, both with the
    fuel consumed so far, or calls the host. *)
Inductive Guest (A : Type) :=
| Done (a : A) (fuel : N)
| Trapped (msg : string) (fuel : N)
| Calling (c : HostCall) (mem : Memory) (fuel : N) (resume : Z * Memory -> Guest A).
Arguments Done {A}.
Arguments Trapped {A}.
Arguments Calling {A}.

Class Wasm := {
  (** [Module::new]: the error it prints for code it refuses *)
  module_new : string -> option string;
  (** [add_fuel] succeeds *)
  add_fuel : N -> bool;
  (** [linker.instantiate] and [start]; then the export [invoke], if any *)
  instantiate : string -> N -> Guest (option (Guest Z))
}.

(* [src/src/contracts.rs 181-195 Host] *)
Record Host := {
  h_contract : string;
  h_caller : string;
  h_value : N;
  h_height : N;
  h_input : string;
  h_overlay : gmap string (option string);
  h_order : list string;
  h_logs : list string;
  h_ret : string;
  h_transfers : list (string * N);
  h_spendable : N
}.

Definition with_logs (l : list string) (h : Host) : Host :=
  Build_Host (h_contract h) (h_caller h) (h_value h) (h_height h) (h_input h) (h_overlay h) (h_order h)
    l (h_ret h) (h_transfers h) (h_spendable h).
Definition with_ret (r : string) (h : Host) : Host :=
  Build_Host (h_contract h) (h_caller h) (h_value h) (h_height h) (h_input h) (h_overlay h) (h_order h)
    (h_logs h) r (h_transfers h) (h_spendable h).
Definition with_overlay (o : gmap string (option string)) (order : list string) (h : Host) : Host :=
  Build_Host (h_contract h) (h_caller h) (h_value h) (h_height h) (h_input h) o order
    (h_logs h) (h_ret h) (h_transfers h) (h_spendable h).
Definition with_transfers (ts : list (string * N)) (left : N) (h : Host) : Host :=
  Build_Host (h_contract h) (h_caller h) (h_value h) (h_height h) (h_input h) (h_overlay h) (h_order h)
    (h_logs h) (h_ret h) ts left.

(** ** Guest memory *)

(** [ptr as usize]: negative pointers are beyond any memory. *)
Definition in_bounds (ptr : Z) (n : nat) (m : string) : bool :=
  (0 <=? ptr)%Z && Nat.leb (Z.to_nat ptr + n) (slen m).

(* [src/src/contracts.rs 198-213 read_bytes] *)
Definition read_bytes (mem : Memory) (ptr n : Z) (max : N) : result string :=
  if (n <? 0)%Z || (Z.of_N max <? n)%Z then Err "bad length"
  else
    m ← ok_or mem "contract exports no memory";
    if in_bounds ptr (Z.to_nat n) m then Ok (String.substring (Z.to_nat ptr) (Z.to_nat n) m)
    else Err "memory read out of bounds".

(** [data] written over the bytes of [m] from [p] on. *)
Definition splice (p : nat) (data m : string) : string :=
  String.substring 0 p m +:+ data +:+ String.substring (p + slen data) (slen m - (p + slen data)) m.

(* [src/src/contracts.rs 215-233 write_out] *)
Definition write_out (mem : Memory) (ptr cap : Z) (data : string) : result (Z * Memory) :=
  if (cap <? 0)%Z then Err "bad capacity"
  else if (cap <? Z.of_N (len data))%Z then Ok (as_i32 (len data), mem)
  else
    m ← ok_or mem "contract exports no memory";
    if in_bounds ptr (slen data) m then Ok (as_i32 (len data), Some (splice (Z.to_nat ptr) data m))
    else Err "memory write out of bounds".

(* [src/src/contracts.rs 142-152 Outcome] *)
Record Outcome := {
  o_ok : bool;
  o_ret : string;
  o_logs : list string;
  o_fuel_used : N;
  o_error : option string;
  o_writes : list (string * option string);
  o_transfers : list (string * N)
}.

(* [src/src/contracts.rs 150-160 Outcome::failed] *)
Definition failed (msg : string) (fuel_used : N) : Outcome := {|
  o_ok := false; o_ret := ""; o_logs := []; o_fuel_used := fuel_used; o_error := Some msg;
  o_writes := []; o_transfers := [] |}.

(** [msg.contains(p)] *)
Fixpoint contains (p s : string) : bool :=
  String.prefix p s || match s with "" => false | String _ s' => contains p s' end.

(* [src/src/contracts.rs 366-373 trap_message] *)
Definition trap_message (msg : string) : string :=
  if contains "fuel" msg then "out of fuel: raise the fee" else msg.

(* [src/src/contracts.rs 120-123 fuel_for_fee] *)
Definition fuel_for_fee (fee : N) : N := N.max (N.min (sat_mul128 fee FUEL_PER_RAI) MAX_FUEL) 1000000.

(* [src/src/contracts.rs 80-83 payload] *)
Definition payload (p : option Payload) : result Payload := ok_or p "missing contract payload".

Section contracts.
Context {HC : Crypto} {HF : Fr} {HK : Compression}.

(* [src/src/contracts.rs 72-75 contract_address] *)
Definition contract_address (creator : string) (nonce : N) (code_hash : string) : string :=
  bs58_encode (sha256 ("inazuma-contract|" +:+ creator +:+ "|" +:+ dec nonce +:+ "|" +:+ code_hash)).
(* [src/src/contracts.rs 77-79 code_hash] *)
Definition code_hash (code : string) : string := hex_encode (sha256 code).

(** [b"\0asm"] *)
Definition wasm_magic : string := push_byte 0 +:+ "asm".

(* [src/src/contracts.rs 85-100 decode_code] *)
Definition decode_code (p : option Payload) : result string :=
  p ← payload p;
  raw ← ok_or (hex_decode (trim_start_matches "0x" (trim (p_code p)))) "code must be hex-encoded wasm";
  if Nat.eqb (slen raw) 0 then Err "empty contract code"
  else if MAX_CODE_BYTES <? len raw then Err "code too large"
  else if Nat.ltb (slen raw) 8 || negb (String.eqb (String.substring 0 4 raw) wasm_magic) then
    Err "not a wasm module"
  else Ok raw.

(* [src/src/contracts.rs 102-115 decode_args] *)
Definition decode_args (p : option Payload) : result string :=
  let args := match p with Some p => trim_start_matches "0x" (trim (p_args p)) | None => "" end in
  if String.eqb args "" then Ok ""
  else
    raw ← ok_or (hex_decode args) "args must be hex";
    if MAX_INPUT_BYTES <? len raw then Err "args too large" else Ok raw.

(* [src/src/contracts.rs 127-131 check_deploy] *)
Definition check_deploy {HW : Wasm} (code : string) : result unit :=
  match module_new code with Some e => Err ("invalid wasm: " +:+ e) | None => Ok tt end.

(* [src/src/contracts.rs 133-140 check_call] *)
Definition check_call (d : Db) (address : string) : result Contract :=
  if negb (is_valid_address address) then Err "invalid contract address"
  else ok_or (contract address d) "no contract at address".

(* [src/src/contracts.rs 162-173 Outcome::receipt] *)
Definition receipt_of (o : Outcome) (contract caller : string) (height : N) : Receipt := {|
  r_contract := contract; r_caller := caller; r_ok := o_ok o; r_fuel_used := o_fuel_used o;
  r_height := height; r_return_hex := hex_encode (o_ret o); r_logs := o_logs o; r_error := o_error o |}.

(* [src/src/contracts.rs 168-175 Host::read_key] *)
Definition read_key (d : Db) (h : Host) (key : string) : option string :=
  match h_overlay h !! key with Some v => v | None => contract_storage (h_contract h) key d end.

(** The write itself: a first write of a key takes one of the slots, a
    zero-length value clears the key. *)
Definition host_put (h : Host) (key value : string) : result Host :=
  order ← (if bool_decide (is_Some (h_overlay h !! key)) then Ok (h_order h)
           else if Nat.leb MAX_WRITES (length (h_order h)) then Err "too many storage writes"
           else Ok (h_order h ++ [key]));
  Ok (with_overlay (<[key := if Nat.eqb (slen value) 0 then None else Some value]> (h_overlay h)) order h).

(** [inz_transfer] once the address is read. *)
Definition host_transfer (h : Host) (addr : string) (amount : N) : result (Z * Host) :=
  if negb (is_valid_address addr) then Ok (-1, h)%Z
  else if Nat.leb MAX_TRANSFERS (length (h_transfers h)) then Err "too many transfers"
  else if h_spendable h <? amount then Ok (-2, h)%Z
  else Ok (0%Z, with_transfers (h_transfers h ++ [(addr, amount)]) (h_spendable h - amount) h).

(** One host call: the reply, the guest's memory and the host after it. *)
(* [src/src/contracts.rs 375-535 link_host] *)
Definition host_call (d : Db) (c : HostCall) (mem : Memory) (h : Host) : result ((Z * Memory) * Host) :=
  match c with
  | inz_input_len => Ok ((as_i32 (len (h_input h)), mem), h)
  | inz_input ptr cap => r ← write_out mem ptr cap (h_input h); Ok (r, h)
  | inz_return ptr n =>
    data ← read_bytes mem ptr n MAX_RETURN_BYTES; Ok ((0%Z, mem), with_ret data h)
  | inz_log ptr n =>
    data ← read_bytes mem ptr n 1024;
    Ok ((0%Z, mem),
        if Nat.ltb (length (h_logs h)) MAX_LOGS then with_logs (h_logs h ++ [from_utf8_lossy data]) h else h)
  | inz_caller ptr cap => r ← write_out mem ptr cap (h_caller h); Ok (r, h)
  | inz_self ptr cap => r ← write_out mem ptr cap (h_contract h); Ok (r, h)
  | inz_value => Ok ((as_i64 (N.min (h_value h) I64_MAX), mem), h)
  | inz_height => Ok ((as_i64 (h_height h), mem), h)
  | inz_balance => Ok ((as_i64 (N.min (balance (account (h_contract h) d)) I64_MAX), mem), h)
  | inz_read kptr klen ptr cap =>
    key ← read_bytes mem kptr klen MAX_KEY_BYTES;
    match read_key d h (from_utf8_lossy key) with
    | None => Ok (((-1)%Z, mem), h)
    | Some v => r ← write_out mem ptr cap v; Ok (r, h)
    end
  | inz_write kptr klen vptr vlen =>
    raw ← read_bytes mem kptr klen MAX_KEY_BYTES;
    let key := from_utf8_lossy raw in
    if String.eqb key "" then Err "empty storage key"
    else
      value ← (if (vlen =? 0)%Z then Ok "" else read_bytes mem vptr vlen MAX_VALUE_BYTES);
      h ← host_put h key value;
      Ok ((0%Z, mem), h)
  | inz_transfer aptr alen amount =>
    if (amount <? 0)%Z then Err "negative amount"
    else
      addr ← read_bytes mem aptr alen 64;
      '(r, h) ← host_transfer h (from_utf8_lossy addr) (Z.to_N amount);
      Ok ((r, mem), h)
  end.

(** Runs a phase: its value or trap, the fuel consumed and the host it leaves. *)
Fixpoint run_guest {A : Type} (d : Db) (g : Guest A) (h : Host) : result A * N * Host :=
  match g with
  | Done a fuel => (Ok a, fuel, h)
  | Trapped msg fuel => (Err msg, fuel, h)
  | Calling c mem fuel resume =>
    match host_call d c mem h with
    | Err msg => (Err msg, fuel, h)
    | Ok (reply, h) => run_guest d (resume reply) h
    end
  end.

(** The host as [execute] sets it up. *)
Definition host_new (d : Db) (contract caller input : string) (value height : N) : Host := {|
  h_contract := contract; h_caller := caller; h_value := value; h_height := height; h_input := input;
  h_overlay := ∅; h_order := []; h_logs := []; h_ret := ""; h_transfers := [];
  h_spendable := balance (account contract d) |}.

(** Storage mutations, in the order keys were first written. *)
Definition host_writes (h : Host) : list (string * option string) :=
  omap (fun k => v ← h_overlay h !! k; Some (k, v)) (h_order h).

(** A signed decimal number. *)
Definition dec_z (z : Z) : string := if (z <? 0)%Z then "-" +:+ dec (Z.to_N (- z)) else dec (Z.to_N z).

Definition finish (r : result Z) (fuel_used : N) (h : Host) : Outcome :=
  match r with
  | Ok code =>
    if (code =? 0)%Z then
      {| o_ok := true; o_ret := h_ret h; o_logs := h_logs h; o_fuel_used := fuel_used; o_error := None;
         o_writes := host_writes h; o_transfers := h_transfers h |}
    else
      {| o_ok := false; o_ret := h_ret h; o_logs := h_logs h; o_fuel_used := fuel_used;
         o_error := Some ("contract reverted with code " +:+ dec_z code); o_writes := []; o_transfers := [] |}
  | Err e =>
    {| o_ok := false; o_ret := ""; o_logs := h_logs h; o_fuel_used := fuel_used;
       o_error := Some (trap_message e); o_writes := []; o_transfers := [] |}
  end.

(* [src/src/contracts.rs 263-364 execute] *)
Definition execute {HW : Wasm} (d : Db) (contract caller_addr code input : string) (value height fuel : N) : Outcome :=
  match module_new code with
  | Some e => failed ("invalid wasm: " +:+ e) 0
  | None =>
    if negb (add_fuel fuel) then failed "fuel setup failed" 0
    else
      match run_guest d (instantiate code fuel) (host_new d contract caller_addr input value height) with
      | (Err e, used, _) => failed ("instantiate failed: " +:+ e) used
      | (Ok None, _, _) => failed "contract exports no invoke()" 0
      | (Ok (Some invoke), _, h) => let '(r, used, h) := run_guest d invoke h in finish r used h
      end
  end.
End contracts.
