(* ===== verification/ContractsFacts.v ===== *)
(** Facts about contract calls: the limits of the host ABI hold for every guest,
    a guest reads its own writes, and committing an outcome gives the storage
    the guest saw. *)

From S2P Require Import Prelude Bytes Crypto Types Journal Store Smt SmtFacts Poseidon Shielded State StateFacts Contracts.
From Stdlib Require Import Ascii.
From Stdlib Require String.

Lemma read_bytes_len mem ptr n max s : read_bytes mem ptr n max = Ok s -> len s <= max.
Proof.
  unfold read_bytes. destruct (_ || _) eqn:Hn; [done|]. apply orb_false_iff in Hn as [Hn Hm].
  destruct mem as [m|]; [|done]. cbn. destruct (in_bounds _ _ _); [|done]. intros E. injection E as <-.
  unfold len. pose proof (slen_substring_le (Z.to_nat ptr) (Z.to_nat n) m). lia.
Qed.

Section facts.
Context {HC : Crypto} {HF : Fr} {HK : Compression}.

(** ** The limits of a call *)

(** A storage mutation within the limits. *)
Definition write_ok (w : string * option string) : Prop :=
  w.1 <> "" /\ match w.2 with Some v => v <> "" /\ len v <= MAX_VALUE_BYTES | None => True end.

Record host_ok (d : Db) (h : Host) : Prop := {
  ok_spent : sumN snd (h_transfers h) + h_spendable h = balance (account (h_contract h) d);
  ok_transfers : (length (h_transfers h) <= MAX_TRANSFERS)%nat;
  ok_recipients : Forall (fun t => is_valid_address t.1 = true) (h_transfers h);
  ok_logs : (length (h_logs h) <= MAX_LOGS)%nat;
  ok_ret : len (h_ret h) <= MAX_RETURN_BYTES;
  ok_order : NoDup (h_order h);
  ok_slots : (length (h_order h) <= MAX_WRITES)%nat;
  ok_keys : forall k, k ∈ h_order h <-> is_Some (h_overlay h !! k);
  ok_writes : map_Forall (fun k v => write_ok (k, v)) (h_overlay h)
}.

Lemma host_new_ok d contract caller input value height : host_ok d (host_new d contract caller input value height).
Proof.
  split; cbn; try lia; try discriminate; try apply NoDup_nil_2; try apply Forall_nil_2.
  intros k. rewrite lookup_empty. split; [now intros ?%not_elem_of_nil|now intros [? ?]].
Qed.

Lemma host_put_ok d h h' key value :
  host_ok d h -> key <> "" -> len value <= MAX_VALUE_BYTES -> host_put h key value = Ok h' -> host_ok d h'.
Proof.
  intros [] Hk Hv. unfold host_put.
  assert (write_ok (key, if Nat.eqb (slen value) 0 then None else Some value)) as Hw.
  { split; [done|]. destruct (Nat.eqb_spec (slen value) 0) as [|Hne]; [done|]. split; [|done]. now intros ->. }
  destruct (bool_decide _) eqn:E.
  - apply bool_decide_eq_true_1 in E. intros Eh. injection Eh as <-. split; cbn; try done.
    + intros k. rewrite ok_keys0, lookup_insert_is_Some. destruct (decide (key = k)) as [->|]; tauto.
    + now apply map_Forall_insert_2.
  - apply bool_decide_eq_false_1 in E. destruct (Nat.leb_spec MAX_WRITES (length (h_order h))); [done|]. cbn.
    intros Eh. injection Eh as <-. split; cbn; try done.
    + apply NoDup_app. split; [done|]. split; [|apply NoDup_singleton].
      intros k Hin ->%list_elem_of_singleton. now apply ok_keys0 in Hin.
    + rewrite length_app. cbn. lia.
    + intros k. rewrite elem_of_app, list_elem_of_singleton, ok_keys0, lookup_insert_is_Some.
      destruct (decide (key = k)) as [->|]; intuition congruence.
    + now apply map_Forall_insert_2.
Qed.

Lemma host_transfer_ok d h addr n r h' :
  host_ok d h -> host_transfer h addr n = Ok (r, h') -> host_ok d h'.
Proof.
  intros Hh. unfold host_transfer. destruct (is_valid_address addr) eqn:Ha; cbn [negb]; [|intros E; now injection E as <- <-].
  destruct (Nat.leb_spec MAX_TRANSFERS (length (h_transfers h))); [done|].
  destruct (N.ltb_spec (h_spendable h) n); intros E; injection E as <- <-; [done|].
  destruct Hh. split; cbn -[sumN]; try done.
  - rewrite sumN_app. cbn in *. lia.
  - rewrite length_app. cbn. lia.
  - apply Forall_app. split; [done|]. now constructor.
Qed.

(** A reply does not change the host. *)
Lemma reply_same {A B} (r : result A) (f : A -> B) (h h' : Host) x :
  (a ← r; Ok (f a, h)) = Ok (x, h') -> h' = h.
Proof. destruct r; cbn; [|done]. intros E. now injection E as _ <-. Qed.

Lemma host_call_ok d c mem h reply h' :
  host_ok d h -> host_call d c mem h = Ok (reply, h') -> host_ok d h'.
Proof.
  intros Hh. destruct c; cbn [host_call]; try (intros ->%reply_same; exact Hh); try (intros E; now injection E as _ <-).
  - destruct (read_bytes _ _ _ _) as [s|] eqn:E; cbn [mbind result_bind]; [|done]. apply read_bytes_len in E.
    intros Eh. injection Eh as _ <-. destruct Hh. now split.
  - destruct (read_bytes _ _ _ _) as [s|] eqn:E; cbn [mbind result_bind]; [|done].
    intros Eh. injection Eh as _ <-. destruct (Nat.ltb_spec (length (h_logs h)) MAX_LOGS); [|done].
    destruct Hh. split; cbn; try done. rewrite length_app. cbn. lia.
  - destruct (read_bytes _ _ _ _) as [s|] eqn:E; cbn [mbind result_bind]; [|done].
    destruct (read_key _ _ _); [intros ->%reply_same; exact Hh|]. intros Eh. now injection Eh as _ <-.
  - destruct (read_bytes mem kptr klen _) as [s|] eqn:E; cbn [mbind result_bind]; [|done].
    destruct (String.eqb_spec (from_utf8_lossy s) ""); [done|].
    destruct (if (vlen =? 0)%Z then _ else _) as [v|] eqn:Ev; cbn [mbind result_bind]; [|done].
    assert (len v <= MAX_VALUE_BYTES).
    { destruct (vlen =? 0)%Z; [injection Ev as <-; apply N.le_0_l|]. now apply read_bytes_len in Ev. }
    destruct (host_put _ _ _) as [h2|] eqn:Hp; cbn [mbind result_bind]; [|done]. intros Eh. injection Eh as _ <-.
    now apply (host_put_ok d) in Hp.
  - destruct (amount <? 0)%Z; [done|]. destruct (read_bytes _ _ _ _) as [s|]; cbn [mbind result_bind]; [|done].
    destruct (host_transfer _ _ _) as [[r h2]|] eqn:Ht; cbn [mbind result_bind]; [|done]. intros Eh. injection Eh as _ <-.
    now apply (host_transfer_ok d) in Ht.
Qed.

Lemma host_call_contract d c mem h reply h' :
  host_call d c mem h = Ok (reply, h') -> h_contract h' = h_contract h.
Proof.
  destruct c; cbn [host_call]; try (now intros ->%reply_same); try (intros E; now injection E as _ <-).
  - destruct (read_bytes _ _ _ _); cbn [mbind result_bind]; [|done]. intros E. now injection E as _ <-.
  - destruct (read_bytes _ _ _ _); cbn [mbind result_bind]; [|done]. intros E. injection E as _ <-. now destruct (Nat.ltb _ _).
  - destruct (read_bytes _ _ _ _); cbn [mbind result_bind]; [|done].
    destruct (read_key _ _ _); [now intros ->%reply_same|]. intros E. now injection E as _ <-.
  - destruct (read_bytes mem kptr klen _); cbn [mbind result_bind]; [|done]. destruct (String.eqb _ _); [done|].
    destruct (if (vlen =? 0)%Z then _ else _); cbn [mbind result_bind]; [|done].
    destruct (host_put _ _ _) as [h2|] eqn:Hp; cbn [mbind result_bind]; [|done]. intros E. injection E as _ <-.
    unfold host_put in Hp. destruct (if bool_decide _ then _ else _); cbn in Hp; [|done]. now injection Hp as <-.
  - destruct (amount <? 0)%Z; [done|]. destruct (read_bytes _ _ _ _); cbn [mbind result_bind]; [|done].
    destruct (host_transfer _ _ _) as [[r h2]|] eqn:Ht; cbn [mbind result_bind]; [|done]. intros E. injection E as _ <-.
    unfold host_transfer in Ht. repeat case_match; try done; now injection Ht as _ <-.
Qed.

Lemma run_guest_ok {A : Type} d (g : Guest A) : forall h,
  host_ok d h ->
  host_ok d (run_guest d g h).2 /\ h_contract (run_guest d g h).2 = h_contract h.
Proof.
  induction g as [a fuel|msg fuel|c mem fuel resume IH]; intros h Hh; cbn; [done..|].
  destruct (host_call d c mem h) as [[reply h']|] eqn:E; [|done]. cbn.
  pose proof (host_call_ok _ _ _ _ _ _ Hh E) as Hh'. pose proof (host_call_contract _ _ _ _ _ _ E) as <-.
  now apply IH.
Qed.

Lemma elem_of_host_writes h k v : (k, v) ∈ host_writes h <-> k ∈ h_order h /\ h_overlay h !! k = Some v.
Proof.
  unfold host_writes. rewrite list_elem_of_omap. split.
  - intros (k' & Hin & E). destruct (h_overlay h !! k') eqn:Ek; [|done]. cbn in E. injection E as <- <-. done.
  - intros [Hin Hv]. exists k. rewrite Hv. done.
Qed.

Lemma host_writes_keys h : (forall k, k ∈ h_order h -> is_Some (h_overlay h !! k)) ->
  (host_writes h).*1 = h_order h.
Proof.
  unfold host_writes. induction (h_order h) as [|k l IH]; intros Hk; [done|]. cbn.
  destruct (Hk k) as [v Hv]; [now left|]. rewrite Hv. cbn. f_equal. apply IH. intros k' Hin. apply Hk. now right.
Qed.

(** What an outcome may contain when [contract] runs on the trees [d]. *)
Record within_limits (d : Db) (contract : string) (o : Outcome) : Prop := {
  lim_failed : o_ok o = true \/ (o_writes o = [] /\ o_transfers o = []);
  lim_spent : sumN snd (o_transfers o) <= balance (account contract d);
  lim_transfers : (length (o_transfers o) <= MAX_TRANSFERS)%nat;
  lim_recipients : Forall (fun t => is_valid_address t.1 = true) (o_transfers o);
  lim_writes : (length (o_writes o) <= MAX_WRITES)%nat;
  lim_keys : NoDup (o_writes o).*1;
  lim_values : Forall write_ok (o_writes o);
  lim_logs : (length (o_logs o) <= MAX_LOGS)%nat;
  lim_ret : len (o_ret o) <= MAX_RETURN_BYTES
}.

Lemma nothing_within_limits d contract o :
  o_writes o = [] -> o_transfers o = [] -> (length (o_logs o) <= MAX_LOGS)%nat -> len (o_ret o) <= MAX_RETURN_BYTES ->
  within_limits d contract o.
Proof.
  intros Hw Ht Hl Hr. split; try done; rewrite ?Hw, ?Ht; cbn.
  - now right.
  - apply N.le_0_l.
  - apply Nat.le_0_l.
  - apply Forall_nil_2.
  - apply Nat.le_0_l.
  - apply NoDup_nil_2.
  - apply Forall_nil_2.
Qed.

Lemma finish_within_limits d h r used :
  host_ok d h -> within_limits d (h_contract h) (finish r used h).
Proof.
  intros []. destruct r as [code|e]; cbn; [|apply nothing_within_limits; cbn; try done; lia].
  destruct (code =? 0)%Z; [|now apply nothing_within_limits].
  split; cbn -[sumN]; auto.
  - lia.
  - rewrite <- (length_fmap fst), host_writes_keys; [done|]. intros k. apply ok_keys0.
  - rewrite host_writes_keys; [done|]. intros k. apply ok_keys0.
  - apply Forall_forall. intros [k v] [_ Hv]%elem_of_host_writes. now apply ok_writes0 in Hv.
Qed.

(** C38: Whatever a WASM module does, [execute] returns an outcome within the
    limits of the ABI: a failed call changes nothing; the transfers of a
    successful one go to valid addresses, are at most 32 and together spend no
    more than the contract's balance; storage keys are distinct, non-empty and
    at most 512, values non-empty and at most 8 KiB; logs and return data are
    bounded. *)
Theorem execute_within_limits {HW : Wasm} d contract caller code input value height fuel :
  within_limits d contract (execute d contract caller code input value height fuel).
Proof.
  assert (forall msg used, within_limits d contract (failed msg used)) as Hf.
  { intros msg used. apply nothing_within_limits; cbn; try done; lia. }
  unfold execute. destruct (module_new code); [apply Hf|]. destruct (negb _); [apply Hf|].
  pose proof (host_new_ok d contract caller input value height) as Hh.
  pose proof (run_guest_ok d (instantiate code fuel) _ Hh) as Hr.
  destruct (run_guest _ _ _) as [[r used] h1]. cbn in Hr. destruct Hr as [Hh1 Hc1].
  destruct r as [[invoke|]|]; [|apply Hf..].
  pose proof (run_guest_ok d invoke _ Hh1) as Hr2.
  destruct (run_guest d invoke h1) as [[r used2] h2]. cbn in Hr2. destruct Hr2 as [Hh2 Hc2].
  rewrite <- Hc1, <- Hc2. now apply finish_within_limits.
Qed.

(** ** Reads and writes *)

(** A guest reads its own writes: after a successful [inz_write], the key
    reads as the value written (unset for the empty value) and every other key
    as before. *)
Theorem contract_reads_own_writes d h h' key value k (Hput : host_put h key value = Ok h') :
  read_key d h' k = if decide (k = key) then (if String.eqb value "" then None else Some value) else read_key d h k.
Proof.
  unfold host_put in Hput. destruct (if bool_decide _ then _ else _) as [order|]; cbn in Hput; [|done].
  injection Hput as <-. unfold read_key. cbn. destruct (decide (k = key)) as [->|Hne].
  - rewrite lookup_insert_eq. now destruct value.
  - now rewrite lookup_insert_ne by congruence.
Qed.

Lemma storage_key_inj addr k k' : storage_key addr k = storage_key addr k' -> k = k'.
Proof. unfold storage_key. intros E%append_inv_head. now injection E. Qed.

Lemma run_set_contract_storage addr key v d :
  run (set_contract_storage addr key v) d = (Ok tt, db_after (set_contract_storage addr key v) d).
Proof.
  enough ((run (set_contract_storage addr key v) d).1 = Ok tt) by (unfold run in *; cbn in *; congruence).
  unfold set_contract_storage. destruct v; runs; now rewrite run_smt_set.
Qed.

Lemma contract_storage_set addr key v k d :
  contract_storage addr k (db_after (set_contract_storage addr key v) d) =
  if decide (k = key) then v else contract_storage addr k d.
Proof.
  unfold contract_storage, set_contract_storage.
  destruct v as [b|]; rewrite db_after_bind by apply _; cbn [res_after jput jdel fst];
    rewrite ?db_after_jput, ?db_after_jdel, smt_set_other by done;
    (destruct (decide (k = key)) as [->|Hne];
     [now rewrite ?lookup_insert_eq, ?lookup_delete_eq
     |rewrite ?lookup_insert_ne, ?lookup_delete_ne; [done|intros [= E%storage_key_inj]; congruence]]).
Qed.

(** The writes of an outcome, stored one after the other. *)
Definition store_writes (addr : string) (ws : list (string * option string)) : M unit :=
  for_each ws (fun '(key, value) => set_contract_storage addr key value).
#[export] Instance journaled_store_writes addr ws : Journaled (store_writes addr ws).
Proof. unfold store_writes. journaled. Qed.

Lemma run_store_writes addr ws d : run (store_writes addr ws) d = (Ok tt, db_after (store_writes addr ws) d).
Proof.
  revert d. induction ws as [|[k v] ws IH]; intros d; [done|].
  enough ((run (store_writes addr ((k, v) :: ws)) d).1 = Ok tt) by (unfold run in *; cbn in *; congruence).
  unfold store_writes. cbn [for_each]. rewrite run_bind by (intros; journaled).
  rewrite run_set_contract_storage. fold (store_writes addr ws). now rewrite IH.
Qed.

Lemma contract_storage_store_writes addr k ws : forall d,
  NoDup ws.*1 ->
  contract_storage addr k (db_after (store_writes addr ws) d) =
  match (list_to_map ws : gmap string (option string)) !! k with Some v => v | None => contract_storage addr k d end.
Proof.
  induction ws as [|[key v] ws IH]; intros d Hn; [done|]. apply NoDup_cons in Hn as [Hk Hn].
  unfold store_writes. cbn [for_each]. rewrite db_after_bind by (intros; journaled).
  pose proof (run_set_contract_storage addr key v d) as Hr. unfold run in Hr. injection Hr as Hr. rewrite Hr.
  fold (store_writes addr ws). rewrite IH by done. rewrite contract_storage_set. cbn.
  destruct (decide (k = key)) as [->|Hne].
  - rewrite lookup_insert_eq. rewrite not_elem_of_list_to_map_1; done.
  - now rewrite lookup_insert_ne by congruence.
Qed.

Lemma lookup_host_writes h k : (forall k, k ∈ h_order h <-> is_Some (h_overlay h !! k)) -> NoDup (h_order h) ->
  (list_to_map (host_writes h) : gmap string (option string)) !! k = h_overlay h !! k.
Proof.
  intros Hk Hn. assert ((host_writes h).*1 = h_order h) as Hw by (apply host_writes_keys; intros; now apply Hk).
  destruct (h_overlay h !! k) as [v|] eqn:E.
  - apply elem_of_list_to_map_1; [now rewrite Hw|]. apply elem_of_host_writes. split; [|done]. apply Hk. eauto.
  - apply not_elem_of_list_to_map_1. rewrite Hw, Hk, E. now intros [? ?].
Qed.

(** C39: Committing a call gives the storage the guest saw: after the writes of
    a finished call are stored in order, every key of the contract reads as the
    guest would have read it at the end of the call. *)
Theorem committed_storage_is_guest_view {A : Type} d (g : Guest A) contract caller input value height k :
  let h := (run_guest d g (host_new d contract caller input value height)).2 in
  contract_storage contract k (db_after (store_writes contract (host_writes h)) d) = read_key d h k.
Proof.
  intros h. pose proof (host_new_ok d contract caller input value height) as Hh.
  apply (run_guest_ok d g) in Hh as [[] Hc]. fold h in ok_order0, ok_keys0, Hc. cbn in Hc.
  rewrite contract_storage_store_writes, lookup_host_writes; [|done..|].
  - unfold read_key. rewrite Hc. now destruct (h_overlay h !! k).
  - rewrite host_writes_keys; [done|]. intros k'. apply ok_keys0.
Qed.
End facts.

(** The fuel a call may burn: between 1,000,000 and 2,000,000,000 whatever
    the fee, never less for a larger fee, and exactly 400 per rai in between. *)
Theorem fuel_for_fee_bounds fee fee' (Hle : fee <= fee') :
  1000000 <= fuel_for_fee fee /\ fuel_for_fee fee <= MAX_FUEL /\ fuel_for_fee fee <= fuel_for_fee fee' /\
  (2500 <= fee /\ fee <= 5000000 -> fuel_for_fee fee = fee * FUEL_PER_RAI).
Proof. unfold fuel_for_fee, sat_mul128, MAX_FUEL, FUEL_PER_RAI, U128_MAX. lia. Qed.

Module Fee_example.
Lemma fuel_for_fee_bounds_witness :
  1000 <= 5000 /\ fuel_for_fee 5000 = 2000000 /\ fuel_for_fee 1000 = 1000000 /\
  (1000000 <= fuel_for_fee 1000 /\ fuel_for_fee 1000 <= MAX_FUEL /\ fuel_for_fee 1000 <= fuel_for_fee 5000 /\
   (2500 <= 1000 /\ 1000 <= 5000000 -> fuel_for_fee 1000 = 1000 * FUEL_PER_RAI)).
Proof.
  split; [lia|]. split; [reflexivity|]. split; [reflexivity|]. apply (fuel_for_fee_bounds 1000 5000). lia.
Defined.
End Fee_example.

(** A module that writes one key, pays one rai to its caller, logs and stops. *)
Module Call_example.
Import Toy.
#[export] Instance no_fr : Fr := Toy_field.toy_fr.
#[export] Instance no_compression : Compression := fun a _ => a.

Definition alice : string := hex_encode "abcdefghabcdefghabcdefghabcdefgh".
Definition pot : string := hex_encode "ABCDEFGHABCDEFGHABCDEFGHABCDEFGH".

(** Linear memory: the key, the value, the address. *)
Definition memory : string := "key" +:+ "value" +:+ alice.
Definition script : Guest Z :=
  Calling (inz_write 0 3 3 5) (Some memory) 10 (fun _ =>
  Calling (inz_transfer 8 64 1) (Some memory) 20 (fun r =>
  Calling (inz_log 0 3) (Some memory) 30 (fun _ =>
  Calling (inz_read 0 3 0 72) (Some memory) 40 (fun m => Done (r.1) 50)))).

#[export] Instance toy_wasm : Wasm := {|
  module_new code := if String.prefix wasm_magic code then None else Some "bad magic";
  add_fuel _ := true;
  instantiate _ _ := Done (Some script) 1
|}.

Definition trees : Db := {[ (T_ACCOUNTS, pot) := VAccount (with_balance 5 default_account) ]}.
Definition outcome : Outcome := execute trees pot alice wasm_magic "" 0 7 1000000.

Example call_runs :
  o_ok outcome = true /\ o_writes outcome = [("key", Some "value")] /\ o_transfers outcome = [(alice, 1)] /\
  o_logs outcome = ["key"] /\ o_fuel_used outcome = 50.
Proof. vm_compute. repeat split. Qed.

(** Nothing to spend: the transfer is refused and the module reverts. *)
Example call_reverts : o_ok (execute ∅ pot alice wasm_magic "" 0 7 1000000) = false /\
  o_error (execute ∅ pot alice wasm_magic "" 0 7 1000000) = Some "contract reverted with code -2".
Proof. vm_compute. repeat split. Qed.

Definition host0 : Host := host_new trees pot alice "" 0 7.

Lemma contract_reads_own_writes_witness :
  exists h', host_put host0 "key" "value" = Ok h' /\
  read_key trees h' "key" =
    (if decide ("key" = "key") then (if String.eqb "value" "" then None else Some "value") else read_key trees host0 "key").
Proof.
  eexists. split; [reflexivity|]. apply (contract_reads_own_writes trees host0 _ "key" "value" "key"). reflexivity.
Defined.
End Call_example.
