(* ===== verification/SignGuard.v ===== *)
(** signguard.rs: the persistent double-sign guard, the file it leaves on disk
    and what a restart reads back. *)

From S2P Require Import Prelude Bytes.
From Stdlib Require Import Ascii.
From Stdlib Require String.

(** The guard of one process and the contents of its file ([None]: no file). *)
(* [src/src/signguard.rs 20-24 SignGuard] *)
Record SignGuard := { sg_address : string; highest : N; sg_file : option string }.

(** [raw.split_whitespace()]: the next word and the rest. *)
Definition split_word (s : string) : option (string * string) :=
  match trim_start s with "" => None | t => Some (next_word t) end.

(* [src/src/signguard.rs 68-78 parse] *)
Definition parse (raw address : string) : option N :=
  '(addr, rest) ← split_word raw;
  '(h, _) ← split_word rest;
  height ← parse_u64 h;
  if String.eqb addr address then Some height else None.

(* [src/src/signguard.rs 28-39 SignGuard::open] *)
Definition open (file : option string) (address : string) : SignGuard :=
  let highest := match (raw ← file; parse raw address) with Some h => h | None => 0 end in
  {| sg_address := address; highest := highest; sg_file := file |}.

(* [src/src/signguard.rs 41-43 SignGuard::highest_signed] *)
Definition highest_signed (g : SignGuard) : N := highest g.
(* [src/src/signguard.rs 47-49 SignGuard::may_sign] *)
Definition may_sign (g : SignGuard) (height : N) : bool := highest g <? height.

(** How far the file update gets: [File::create] fails and the old file stays,
    or the file is truncated and the first [n] bytes of the body reach it. *)
Inductive Progress := Not_created | Wrote (n : nat).

Definition newline : string := String (ascii_of_N 10) "".
(** [format!("{} {}\n", address, height)] *)
Definition guard_body (address : string) (height : N) : string := address +:+ " " +:+ dec height +:+ newline.

(* [src/src/signguard.rs 53-64 SignGuard::record] *)
Definition record_height (io : Progress) (height : N) (g : SignGuard) : SignGuard :=
  if height <=? highest g then g
  else {| sg_address := sg_address g; highest := height;
          sg_file := match io with
            | Not_created => sg_file g
            | Wrote n => Some (String.substring 0 n (guard_body (sg_address g) height))
            end |}.

(** The update completes. *)
Definition complete (address : string) (height : N) : Progress := Wrote (slen (guard_body address height)).

(** One sealing attempt of [produce_block]: asked for, signed if allowed, then
    recorded; returns whether the key signed. *)
Definition guarded_sign (io : N -> Progress) (height : N) (g : SignGuard) : bool * SignGuard :=
  if may_sign g height then (true, record_height (io height) height g) else (false, g).

(** The heights a process signs along a run of attempts. *)
Fixpoint signed_heights (io : N -> Progress) (hs : list N) (g : SignGuard) : list N * SignGuard :=
  match hs with
  | [] => ([], g)
  | h :: rest =>
    let '(signed, g) := guarded_sign io h g in
    let '(more, g) := signed_heights io rest g in
    (if signed then h :: more else more, g)
  end.

(** ** Facts *)

Definition no_space (s : string) : bool := all_chars (fun c => negb (is_space c)) s.

Lemma trim_start_word s rest : no_space s = true -> s <> "" -> trim_start (s +:+ rest) = s +:+ rest.
Proof.
  destruct s as [|c s]; [done|]. unfold no_space. cbn. intros [Hc _]%andb_true_iff _.
  now apply negb_true_iff in Hc as ->.
Qed.

Lemma next_word_app s c rest : no_space s = true -> is_space c = true ->
  next_word (s +:+ String c rest) = (s, rest).
Proof.
  unfold no_space. intros Hs Hc. induction s as [|d s IH]; cbn; [now rewrite Hc|].
  cbn in Hs. apply andb_true_iff in Hs as [Hd Hs]. apply negb_true_iff in Hd as ->. now rewrite IH.
Qed.

Lemma split_word_app s c rest : no_space s = true -> s <> "" -> is_space c = true ->
  split_word (s +:+ String c rest) = Some (s, rest).
Proof.
  intros Hs Hne Hc. unfold split_word. rewrite trim_start_word by done.
  rewrite <- (next_word_app s c rest) by done. now destruct s.
Qed.

Lemma digits_no_space s : all_chars is_digit s = true -> no_space s = true.
Proof.
  unfold no_space. induction s as [|c s IH]; cbn; [done|]. intros [Hc Hs]%andb_true_iff.
  rewrite IH by done. rewrite andb_true_r. unfold is_digit, digit_value in Hc. unfold is_space.
  destruct (_ && _) eqn:E in Hc; [|done]. apply andb_true_iff in E as [E1%N.leb_le _].
  rewrite (proj2 (N.eqb_neq _ 32)), (proj2 (N.leb_gt _ 13)) by lia. now rewrite andb_false_r.
Qed.

Lemma parse_body address height : no_space address = true -> address <> "" -> height <= U64_MAX ->
  parse (guard_body address height) address = Some height.
Proof.
  intros Ha Hne Hh. unfold parse, guard_body.
  change (" " +:+ dec height +:+ newline) with (String " " (dec height +:+ newline)).
  rewrite split_word_app by done. cbn [mbind option_bind]. unfold newline.
  rewrite split_word_app; [|now apply digits_no_space, all_digits_dec|apply dec_nonempty|done].
  cbn [mbind option_bind]. unfold parse_u64. rewrite parse_uint_dec by done. cbn. now rewrite String.eqb_refl.
Qed.

(** The guard survives a restart: once a height is recorded and the file
    update completed, a process that reopens the file with the same key refuses
    that height and every lower one, and allows the next. *)
Theorem guard_survives_restart g height
    (Hkey : no_space (sg_address g) = true) (Hne : sg_address g <> "") (Hh : height <= U64_MAX)
    (Hmay : may_sign g height = true) :
  let g' := open (sg_file (record_height (complete (sg_address g) height) height g)) (sg_address g) in
  highest_signed g' = height /\ (forall h, may_sign g' h = (height <? h)).
Proof.
  unfold may_sign in Hmay. apply N.ltb_lt in Hmay. unfold record_height.
  destruct (N.leb_spec height (highest g)); [lia|]. cbn [sg_file complete]. rewrite substring_all.
  unfold open. cbn [mbind option_bind]. rewrite parse_body by done. done.
Qed.

Lemma signed_heights_above io hs : forall g,
  Forall (fun h => highest g < h) (signed_heights io hs g).1 /\ StronglySorted N.lt (signed_heights io hs g).1.
Proof.
  induction hs as [|h hs IH]; intros g; cbn; [split; constructor|].
  unfold guarded_sign, may_sign. destruct (N.ltb_spec (highest g) h) as [Hlt|Hge].
  - pose proof (IH (record_height (io h) h g)) as [Ha Hs].
    destruct (signed_heights io hs _) as [more g2]. cbn in *.
    unfold record_height in Ha. destruct (N.leb_spec h (highest g)); [lia|]. cbn in Ha.
    split; constructor; try done. eapply Forall_impl; [exact Ha|]. cbn. intros x Hx. lia.
  - pose proof (IH g) as [Ha Hs]. now destruct (signed_heights io hs g).
Qed.

(** A process never signs one height twice: whatever heights it attempts and
    however the file updates end, the heights it signs strictly increase and
    lie above the height it started from. *)
Theorem never_signs_twice io hs g :
  Forall (fun h => highest_signed g < h) (signed_heights io hs g).1 /\
  StronglySorted N.lt (signed_heights io hs g).1 /\ NoDup (signed_heights io hs g).1.
Proof.
  destruct (signed_heights_above io hs g) as [Ha Hs]. split; [exact Ha|]. split; [exact Hs|].
  clear Ha. induction Hs as [|h l _ IH Hf]; constructor; [|done].
  intros Hin. rewrite Forall_forall in Hf. apply Hf in Hin. lia.
Qed.

Module Guard_example.
Definition key_guard : SignGuard := {| sg_address := "validator"; highest := 41; sg_file := Some (guard_body "validator" 41) |}.

Lemma guard_survives_restart_witness :
  may_sign key_guard 42 = true /\
  let g' := open (sg_file (record_height (complete (sg_address key_guard) 42) 42 key_guard)) (sg_address key_guard) in
  highest_signed g' = 42 /\ (forall h, may_sign g' h = (42 <? h)).
Proof.
  split; [reflexivity|]. apply (guard_survives_restart key_guard 42); [reflexivity|discriminate|vm_compute; discriminate|reflexivity].
Defined.

(** [File::create] empties the file before the new height is written: a crash
    in between loses the heights already signed, and the restarted process
    would sign them again. *)
Example torn_write_forgets :
  let g := record_height (Wrote 0) 42 key_guard in
  highest_signed (open (sg_file g) "validator") = 0 /\ may_sign (open (sg_file g) "validator") 41 = true.
Proof. vm_compute. split; reflexivity. Qed.

(** A cut number parses as a smaller height. *)
Example cut_write_rewinds :
  let g := record_height (Wrote 11) 42 key_guard in
  highest_signed (open (sg_file g) "validator") = 4.
Proof. reflexivity. Qed.
End Guard_example.
