(* ===== verification/Circuit.v ===== *)
(** shielded_circuit.rs: the two-in two-out spend circuit and the Groth16 glue.

    A rank-1 circuit is the set of variable assignments its constraints accept;
    [generate_constraints] decides it, variable by variable as the code allocates
    and enforces them.  The prover of a real proof may choose every witness
    variable freely, so soundness is stated over assignments ([Witness]), and
    completeness over the honest assignment of a [SpendCircuit].

    The proof system itself (crate [ark_groth16]) is third-party: class
    [Groth16]. *)

From S2P Require Import Prelude Bytes Crypto Poseidon Shielded.

(* [src/src/shielded_circuit.rs 80-87 SpendNote] *)
Record SpendNote `{Fr} := { sn_spend_key : F; sn_value : N; sn_rho : F; sn_position : N; sn_path : list F }.
(* [src/src/shielded_circuit.rs 92-96 OutputNote] *)
Record OutputNote `{Fr} := { on_owner : F; on_value : N; on_rho : F }.
(* [src/src/shielded_circuit.rs 99-108 SpendCircuit] *)
Record SpendCircuit `{Fr} := {
  sc_anchor : F; sc_nullifiers : F * F; sc_out_commitments : F * F; sc_public_unshield : N;
  sc_inputs : SpendNote * SpendNote; sc_outputs : OutputNote * OutputNote
}.

(** The variables of an assignment. *)
Record NoteVars `{Fr} := { nv_sk : F; nv_value : F; nv_rho : F; nv_position : F; nv_path : list F }.
Record OutVars `{Fr} := { ov_owner : F; ov_value : F; ov_rho : F }.
Record Publics `{Fr} := { pv_anchor : F; pv_nullifiers : F * F; pv_commitments : F * F; pv_unshield : F }.
Record Witness `{Fr} := { w_inputs : NoteVars * NoteVars; w_outputs : OutVars * OutVars }.

Section circuit.
Context `{Compression}.

(** [to_bits_le]: the bits of the canonical representative. *)
Definition to_bits_le (v : F) : list bool := map (fun i => N.testbit (f_to v) (N.of_nat i)) (seq 0 254).

(* [src/src/shielded_circuit.rs 60-66 commit_gadget] *)
Definition commit_gadget (owner value rho : F) : F := compress (compress owner value) rho.

(* [src/src/shielded_circuit.rs 70-76 range_check_64] *)
Definition range_check_64 (v : F) : bool := forallb negb (drop 64 (to_bits_le v)).

(** The Merkle path of a note, directed by its position bits. *)
Fixpoint path_gadget (pos_bits : list bool) (level : nat) (cur : F) (path : list F) : F :=
  match path with
  | [] => cur
  | sibling :: rest =>
    let bit := nth level pos_bits false in
    let left := if bit then sibling else cur in
    let right := if bit then cur else sibling in
    path_gadget pos_bits (S level) (compress left right) rest
  end.

(** One spent note: the body of the loop over [self.inputs]. *)
(* [src/src/shielded_circuit.rs 127-170! SpendCircuit::generate_constraints] *)
Definition note_constraints (anchor nf_pub : F) (note : NoteVars) : bool :=
  let owner := compress (nv_sk note) (f_of 0) in
  let cm := commit_gadget owner (nv_value note) (nv_rho note) in
  let pos_bits := to_bits_le (nv_position note) in
  let cur := path_gadget pos_bits 0 cm (nv_path note) in
  let is_dummy := bool_decide (nv_value note = f_of 0) in
  let enforce := if negb is_dummy then f_of 1 else f_of 0 in
  range_check_64 (nv_value note) &&
  forallb negb (drop TREE_DEPTH pos_bits) &&
  bool_decide (f_mul (f_sub cur anchor) enforce = f_of 0) &&
  bool_decide (compress (nv_sk note) (nv_position note) = nf_pub).

(** One created note: the body of the loop over [self.outputs]. *)
(* [src/src/shielded_circuit.rs 173-181! SpendCircuit::generate_constraints] *)
Definition output_constraints (cm_pub : F) (out : OutVars) : bool :=
  range_check_64 (ov_value out) &&
  bool_decide (commit_gadget (ov_owner out) (ov_value out) (ov_rho out) = cm_pub).

(* [src/src/shielded_circuit.rs 111-186 SpendCircuit::generate_constraints] *)
Definition generate_constraints (pub : Publics) (w : Witness) : bool :=
  let '(n1, n2) := w_inputs w in
  let '(o1, o2) := w_outputs w in
  let in_sum := f_add (f_add (f_of 0) (nv_value n1)) (nv_value n2) in
  let out_sum := f_add (f_add (pv_unshield pub) (ov_value o1)) (ov_value o2) in
  range_check_64 (pv_unshield pub) &&
  note_constraints (pv_anchor pub) (pv_nullifiers pub).1 n1 &&
  note_constraints (pv_anchor pub) (pv_nullifiers pub).2 n2 &&
  output_constraints (pv_commitments pub).1 o1 &&
  output_constraints (pv_commitments pub).2 o2 &&
  bool_decide (in_sum = out_sum).

(** The assignment the prover of [c] makes. *)
Definition note_vars (n : SpendNote) : NoteVars := {|
  nv_sk := sn_spend_key n; nv_value := fr_u128 (sn_value n); nv_rho := sn_rho n;
  nv_position := f_of (sn_position n); nv_path := sn_path n |}.
Definition out_vars (o : OutputNote) : OutVars := {|
  ov_owner := on_owner o; ov_value := fr_u128 (on_value o); ov_rho := on_rho o |}.
Definition publics_of (c : SpendCircuit) : Publics := {|
  pv_anchor := sc_anchor c; pv_nullifiers := sc_nullifiers c; pv_commitments := sc_out_commitments c;
  pv_unshield := fr_u128 (sc_public_unshield c) |}.
Definition witness_of (c : SpendCircuit) : Witness := {|
  w_inputs := (note_vars (sc_inputs c).1, note_vars (sc_inputs c).2);
  w_outputs := (out_vars (sc_outputs c).1, out_vars (sc_outputs c).2) |}.

(* [src/src/shielded_circuit.rs 240-249 public_inputs] *)
Definition public_inputs (c : SpendCircuit) : list F :=
  [sc_anchor c; (sc_nullifiers c).1; (sc_nullifiers c).2; (sc_out_commitments c).1; (sc_out_commitments c).2;
   fr_u128 (sc_public_unshield c)].

(** The circuit the parameters are generated for. *)
Definition dummy_note : SpendNote := {|
  sn_spend_key := f_of 0; sn_value := 0; sn_rho := f_of 0; sn_position := 0;
  sn_path := map zero_subtree_root (seq 0 TREE_DEPTH) |}.
Definition dummy_output : OutputNote := {| on_owner := f_of 0; on_value := 0; on_rho := f_of 0 |}.
Definition dummy_circuit : SpendCircuit := {|
  sc_anchor := zero_subtree_root TREE_DEPTH; sc_nullifiers := (f_of 0, f_of 0);
  sc_out_commitments := (f_of 0, f_of 0); sc_public_unshield := 0;
  sc_inputs := (dummy_note, dummy_note); sc_outputs := (dummy_output, dummy_output) |}.
End circuit.

(** ** Proofs and keys *)

Class Groth16 `{Fr} := {
  gProof : Type;
  gKey : Type;
  (** [deserialize_compressed], [serialize_compressed] *)
  proof_deserialize : string -> option gProof;
  key_deserialize : string -> option gKey;
  key_serialize : gKey -> string;
  (** the verifying key of [generate_random_parameters_with_reduction], from the fixed seed *)
  parameters_of : SpendCircuit -> gKey;
  (** [verify_proof(..).unwrap_or(false)] *)
  verify_proof : gKey -> gProof -> list F -> bool
}.

Section glue.
Context {HC : Crypto} {HF : Fr} {HK : Compression} {HG : Groth16}.

(* [src/src/shielded_circuit.rs 193-226 devnet_setup] *)
Definition devnet_setup : gKey := parameters_of dummy_circuit.
(* [src/src/shielded_circuit.rs 251-254 verify] *)
Definition spend_verify (vk : gKey) (proof : gProof) (inputs : list F) : bool := verify_proof vk proof inputs.
(* [src/src/shielded_circuit.rs 262-265 proof_from_hex] *)
Definition proof_from_hex (s : string) : option gProof := raw ← hex_decode (trim s); proof_deserialize raw.
(* [src/src/shielded_circuit.rs 267-271 vk_to_hex] *)
Definition vk_to_hex (vk : gKey) : string := hex_encode (key_serialize vk).
(* [src/src/shielded_circuit.rs 273-276 vk_from_hex] *)
Definition vk_from_hex (s : string) : option gKey := raw ← hex_decode (trim s); key_deserialize raw.
(* [src/src/shielded_circuit.rs 278-282 vk_to_bytes] *)
Definition vk_to_bytes (vk : gKey) : string := key_serialize vk.
End glue.
