(* ===== verification/CircuitFacts.v ===== *)
(** The spend circuit accepts exactly the joinsplits it is meant to: soundness
    over every assignment, completeness for the honest one. *)

From S2P Require Import Prelude Bytes Crypto Poseidon Shielded Circuit.

Section facts.
Context `{Compression} `{!FrLaws}.

(** ** Gadgets *)

Lemma drop_bits n v : (n <= 254)%nat ->
  forallb negb (drop n (to_bits_le v)) = true <-> f_to v < 2 ^ N.of_nat n.
Proof.
  intros Hn. unfold to_bits_le. rewrite skipn_map, skipn_seq, forallb_forall. cbn. split.
  - intros Hb. destruct (N.lt_ge_cases (f_to v) (2 ^ N.of_nat n)) as [|Hge]; [done|exfalso].
    pose proof (N.pow_nonzero 2 (N.of_nat n)) as Hp.
    assert (f_to v <> 0) as Hv by lia. pose proof (N.bit_log2 _ Hv) as Hbit.
    assert (N.of_nat n <= N.log2 (f_to v)) by now apply N.log2_le_pow2; lia.
    assert (N.log2 (f_to v) < 254) by (apply N.log2_lt_pow2; [lia|apply f_to_bound]).
    specialize (Hb (N.testbit (f_to v) (N.log2 (f_to v)))). rewrite Hbit in Hb. discriminate Hb.
    apply in_map_iff. exists (N.to_nat (N.log2 (f_to v))). rewrite N2Nat.id. split; [done|].
    apply in_seq. lia.
  - intros Hlt b (i & <- & Hi)%in_map_iff. apply in_seq in Hi. apply negb_true_iff.
    destruct (N.eq_dec (f_to v) 0) as [->|Hv]; [apply N.bits_0|].
    apply N.bits_above_log2. apply N.log2_lt_pow2; [lia|].
    eapply N.lt_le_trans; [exact Hlt|]. apply N.pow_le_mono_r; lia.
Qed.

Lemma range_check_spec v : range_check_64 v = true <-> f_to v < 2 ^ 64.
Proof. apply (drop_bits 64). lia. Qed.

Lemma nth_bits v i : (i < 254)%nat -> nth i (to_bits_le v) false = N.testbit (f_to v) (N.of_nat i).
Proof.
  intros Hi. unfold to_bits_le. rewrite (nth_indep _ false (N.testbit (f_to v) (N.of_nat 0)))
    by now rewrite length_map, length_seq.
  rewrite (map_nth (fun i => N.testbit (f_to v) (N.of_nat i))), seq_nth by done. done.
Qed.

(** The path gadget is the walk of [verify_path]. *)
Lemma path_gadget_walk v path : forall level cur, (level + length path <= 254)%nat ->
  path_gadget (to_bits_le v) level cur path = walk level (f_to v) cur path.
Proof.
  induction path as [|sib path IH]; intros level cur Hl; [done|]. cbn [path_gadget walk length] in *. cbv zeta.
  rewrite nth_bits by lia. rewrite IH by lia. now destruct (N.testbit _ _).
Qed.

Lemma commit_gadget_spec owner v rho : commit_gadget owner v rho = note_commitment owner (f_to v) rho.
Proof. unfold commit_gadget, note_commitment, fr_u128. now rewrite f_of_to. Qed.

Lemma enforced x b : f_mul x (if negb b then f_of 1 else f_of 0) = f_of 0 <-> b = true \/ f_to x = 0.
Proof.
  assert (f_to (f_of 0) = 0) as Z0 by now apply f_to_small.
  assert (f_to (f_of 1) = 1) as Z1 by now apply f_to_small.
  pose proof (f_to_lt x). destruct b; cbn [negb].
  - split; [now left|]. intros _. apply f_to_inj. rewrite f_to_mul, Z0, N.mul_0_r. done.
  - split.
    + intros E. right. apply (f_equal f_to) in E. rewrite f_to_mul, Z0, Z1, N.mul_1_r, N.mod_small in E by done. done.
    + intros [|E]; [done|]. apply f_to_inj. rewrite f_to_mul, Z0, E. done.
Qed.

(** ** Specification *)

(** The note a spent slot stands for, and its claim. *)
Definition note_of (n : NoteVars) : F := note_commitment (owner_tag (nv_sk n)) (f_to (nv_value n)) (nv_rho n).

Record valid_input (anchor nf : F) (n : NoteVars) : Prop := {
  in_range64 : f_to (nv_value n) < 2 ^ 64;
  in_position : f_to (nv_position n) < 2 ^ N.of_nat TREE_DEPTH;
  in_member : nv_value n = f_of 0 \/ walk 0 (f_to (nv_position n)) (note_of n) (nv_path n) = anchor;
  in_nullifier : nf = nullifier (nv_sk n) (f_to (nv_position n))
}.

Record valid_output (cm : F) (o : OutVars) : Prop := {
  out_range64 : f_to (ov_value o) < 2 ^ 64;
  out_commitment : cm = note_commitment (ov_owner o) (f_to (ov_value o)) (ov_rho o)
}.

(** What a spend must satisfy: its slots are valid and value is conserved over
    the integers. *)
Record valid_spend (pub : Publics) (w : Witness) : Prop := {
  spend_in1 : valid_input (pv_anchor pub) (pv_nullifiers pub).1 (w_inputs w).1;
  spend_in2 : valid_input (pv_anchor pub) (pv_nullifiers pub).2 (w_inputs w).2;
  spend_out1 : valid_output (pv_commitments pub).1 (w_outputs w).1;
  spend_out2 : valid_output (pv_commitments pub).2 (w_outputs w).2;
  spend_unshield : f_to (pv_unshield pub) < 2 ^ 64;
  spend_conserves :
    f_to (nv_value (w_inputs w).1) + f_to (nv_value (w_inputs w).2) =
    f_to (pv_unshield pub) + f_to (ov_value (w_outputs w).1) + f_to (ov_value (w_outputs w).2)
}.

(** Paths have the length fixed when the parameters were generated. *)
Definition path_shaped (n : NoteVars) : Prop := length (nv_path n) = TREE_DEPTH.
Definition shaped (w : Witness) : Prop := path_shaped (w_inputs w).1 /\ path_shaped (w_inputs w).2.

Lemma note_constraints_spec anchor nf n : path_shaped n ->
  note_constraints anchor nf n = true <-> valid_input anchor nf n.
Proof.
  intros Hp. unfold path_shaped in Hp. unfold note_constraints. rewrite !andb_true_iff, !bool_decide_eq_true, range_check_spec.
  rewrite (drop_bits TREE_DEPTH) by (unfold TREE_DEPTH; lia).
  rewrite path_gadget_walk by (rewrite Hp; unfold TREE_DEPTH; lia).
  rewrite commit_gadget_spec, enforced, f_sub_zero, bool_decide_eq_true.
  fold (owner_tag (nv_sk n)). fold (note_of n).
  assert (nullifier (nv_sk n) (f_to (nv_position n)) = compress (nv_sk n) (nv_position n)) as Hn
    by (unfold nullifier; now rewrite f_of_to).
  split.
  - intros [[[? ?] ?] ?]. split; try done. congruence.
  - intros []. rewrite <- Hn. auto.
Qed.

Lemma output_constraints_spec cm o : output_constraints cm o = true <-> valid_output cm o.
Proof.
  unfold output_constraints. rewrite andb_true_iff, bool_decide_eq_true, range_check_spec, commit_gadget_spec.
  split; [intros [? ?]|intros []]; split; congruence.
Qed.

(** Sums of three 64-bit values do not wrap in the field. *)
Lemma add_small a b : f_to a + f_to b < FR_MODULUS -> f_to (f_add a b) = f_to a + f_to b.
Proof. intros Hs. rewrite f_to_add. now apply N.mod_small. Qed.

Lemma sums_equal u a b c d :
  f_to u < 2 ^ 64 -> f_to a < 2 ^ 64 -> f_to b < 2 ^ 64 -> f_to c < 2 ^ 64 -> f_to d < 2 ^ 64 ->
  f_add (f_add (f_of 0) a) b = f_add (f_add u c) d <-> f_to a + f_to b = f_to u + f_to c + f_to d.
Proof.
  intros. assert (f_to (f_of 0) = 0) as Z0 by now apply f_to_small.
  assert (2 ^ 64 * 3 < FR_MODULUS) by reflexivity.
  assert (f_to (f_add (f_add (f_of 0) a) b) = f_to a + f_to b) as El.
  { rewrite add_small; rewrite add_small; rewrite ?Z0; lia. }
  assert (f_to (f_add (f_add u c) d) = f_to u + f_to c + f_to d) as Er.
  { rewrite add_small; rewrite add_small; lia. }
  rewrite <- El, <- Er. split; [now intros ->|apply f_to_inj].
Qed.

Lemma circuit_satisfied pub w (Hshape : shaped w) : generate_constraints pub w = true <-> valid_spend pub w.
Proof.
  destruct Hshape as [Hp1 Hp2]. destruct w as [[n1 n2] [o1 o2]]. cbn in Hp1, Hp2.
  unfold generate_constraints. cbn [w_inputs w_outputs].
  rewrite !andb_true_iff, !note_constraints_spec, !output_constraints_spec, range_check_spec, bool_decide_eq_true by done.
  split.
  - intros [[[[[Hu I1] I2] O1] O2] E]. split; try done.
    apply (proj1 (sums_equal _ _ _ _ _ Hu (in_range64 _ _ _ I1) (in_range64 _ _ _ I2)
      (out_range64 _ _ O1) (out_range64 _ _ O2)) E).
  - intros [I1 I2 O1 O2 Hu E]. cbn in I1, I2, O1, O2, E.
    repeat match goal with |- _ /\ _ => split end; try done.
    apply (proj2 (sums_equal _ _ _ _ _ Hu (in_range64 _ _ _ I1) (in_range64 _ _ _ I2)
      (out_range64 _ _ O1) (out_range64 _ _ O2)) E).
Qed.

(** C29: The spend circuit is exact. An assignment satisfies its constraints if
    and only if both spent notes are dummies of value zero or lie under the
    anchor at their 32-bit position, the public nullifiers and commitments are
    those of the notes, every value is below 2^64, and the inputs sum to the
    outputs plus the public amount over the integers, with no wrap-around in
    the field. *)
Theorem circuit_exact pub w (Hshape : shaped w) : generate_constraints pub w = true <-> valid_spend pub w.
Proof. now apply circuit_satisfied. Qed.

(** Every note of value spent from the node's own tree is a leaf of it. If
    the anchor is the root recomputed from a leaf list, an accepted assignment
    spends, in each slot of non-zero value, the commitment stored at the slot's
    position, or else the slot's path exhibits a collision of the compression
    function with the tree. *)
Theorem spent_notes_are_leaves pub w leaves (Hshape : shaped w)
    (Hsat : generate_constraints pub w = true) (Hanchor : pv_anchor pub = root_from_leaves leaves) n
    (Hn : n = (w_inputs w).1 \/ n = (w_inputs w).2) :
  let pos := N.to_nat (f_to (nv_position n)) in
  nv_value n = f_of 0 \/ note_of n = nth pos leaves (f_of 0) \/
  clash (uncurry compress) (walk_inputs 0 (N.of_nat pos) (note_of n) (nv_path n)) (tree_inputs leaves pos).
Proof.
  intros pos. apply circuit_satisfied in Hsat as []; [|done]. destruct Hshape as [Hp1 Hp2].
  assert (exists nf, valid_input (pv_anchor pub) nf n) as [nf []] by (destruct Hn as [-> | ->]; eauto).
  assert (length (nv_path n) = TREE_DEPTH) as Hp by now destruct Hn as [-> | ->].
  destruct in_member0 as [|Hw]; [now left|right]. rewrite Hanchor in Hw.
  assert (f_to (nv_position n) = N.of_nat pos) as Ep by (unfold pos; now rewrite N2Nat.id).
  rewrite Ep in Hw, in_position0. exact (walk_sound leaves pos (note_of n) (nv_path n) in_position0 Hp Hw).
Qed.

(** The honest statement of a spend. *)
Record honest_input (anchor nf : F) (n : SpendNote) : Prop := {
  hi_value : sn_value n < 2 ^ 64;
  hi_position : sn_position n < 2 ^ N.of_nat TREE_DEPTH;
  hi_member : sn_value n = 0 \/
    verify_path (note_commitment (owner_tag (sn_spend_key n)) (sn_value n) (sn_rho n)) (sn_position n) (sn_path n) anchor = true;
  hi_shape : length (sn_path n) = TREE_DEPTH;
  hi_nullifier : nf = nullifier (sn_spend_key n) (sn_position n)
}.
Record honest_output (cm : F) (o : OutputNote) : Prop := {
  ho_value : on_value o < 2 ^ 64;
  ho_commitment : cm = note_commitment (on_owner o) (on_value o) (on_rho o)
}.

Lemma f_to_u64 v : v < 2 ^ 64 -> f_to (fr_u128 v) = v.
Proof. intros Hv. apply f_to_small. eapply N.lt_trans; [exact Hv|reflexivity]. Qed.

Lemma honest_valid_input anchor nf n : honest_input anchor nf n -> valid_input anchor nf (note_vars n).
Proof.
  intros []. assert (f_to (f_of (sn_position n)) = sn_position n) as Hpos.
  { apply f_to_small. eapply N.lt_trans; [exact hi_position0|reflexivity]. }
  split; cbn; rewrite ?Hpos; rewrite ?f_to_u64 by done; try done.
  destruct hi_member0 as [->|Hv]; [now left|right]. unfold note_of. cbn. rewrite f_to_u64 by done.
  unfold verify_path in Hv. rewrite hi_shape0, Nat.eqb_refl in Hv. now apply bool_decide_eq_true in Hv.
Qed.

Lemma honest_valid_output cm o : honest_output cm o -> valid_output cm (out_vars o).
Proof. intros []. split; cbn; now rewrite ?f_to_u64 by done. Qed.

(** The circuit is complete: the assignment made from notes that are in the
    tree (or have value zero), with their nullifiers and commitments, values
    below 2^64 and a balanced sum, satisfies every constraint. *)
Theorem honest_spend_satisfies c
    (Hin1 : honest_input (sc_anchor c) (sc_nullifiers c).1 (sc_inputs c).1)
    (Hin2 : honest_input (sc_anchor c) (sc_nullifiers c).2 (sc_inputs c).2)
    (Hout1 : honest_output (sc_out_commitments c).1 (sc_outputs c).1)
    (Hout2 : honest_output (sc_out_commitments c).2 (sc_outputs c).2)
    (Hun : sc_public_unshield c < 2 ^ 64)
    (Hsum : sn_value (sc_inputs c).1 + sn_value (sc_inputs c).2 =
            sc_public_unshield c + on_value (sc_outputs c).1 + on_value (sc_outputs c).2) :
  generate_constraints (publics_of c) (witness_of c) = true.
Proof.
  apply circuit_satisfied; [split; [apply Hin1|apply Hin2]|].
  split; cbn; [now apply honest_valid_input..|now apply honest_valid_output|now apply honest_valid_output| |].
  - now rewrite f_to_u64.
  - rewrite !f_to_u64; try done; first [apply Hin1|apply Hin2|apply Hout1|apply Hout2].
Qed.

(** The nullifier of the note at leaf position 0 is its owner's tag: the two
    hashes are not separated by a domain. *)
Lemma first_nullifier_is_owner_tag sk : nullifier sk 0 = owner_tag sk.
Proof. reflexivity. Qed.
End facts.

(** A spend of one note of value 5 at position 0 into a note of value 3 and 2
    withdrawn; the other slots are dummies. *)
Module Spend_example.
#[export] Instance fr : Fr := Toy_field.toy_fr.
#[export] Instance laws : FrLaws := Toy_field.toy_fr_laws.
#[export] Instance toy_compression : Compression := fun a b => f_add (f_mul a (f_of 3)) (f_add (f_mul b b) (f_of 1)).

Definition note : F := note_commitment (owner_tag (f_of 7)) 5 (f_of 11).
Definition path : list F := map zero_subtree_root (seq 0 TREE_DEPTH).
Definition in1 : SpendNote := {| sn_spend_key := f_of 7; sn_value := 5; sn_rho := f_of 11; sn_position := 0; sn_path := path |}.
Definition in2 : SpendNote := {| sn_spend_key := f_of 8; sn_value := 0; sn_rho := f_of 12; sn_position := 1; sn_path := path |}.
Definition out1 : OutputNote := {| on_owner := f_of 9; on_value := 3; on_rho := f_of 13 |}.
Definition out2 : OutputNote := {| on_owner := f_of 9; on_value := 0; on_rho := f_of 14 |}.
Definition spend : SpendCircuit := {|
  sc_anchor := root_from_leaves [note];
  sc_nullifiers := (nullifier (f_of 7) 0, nullifier (f_of 8) 1);
  sc_out_commitments := (note_commitment (f_of 9) 3 (f_of 13), note_commitment (f_of 9) 0 (f_of 14));
  sc_public_unshield := 2; sc_inputs := (in1, in2); sc_outputs := (out1, out2) |}.

Lemma member : walk 0 0 note path = root_from_leaves [note].
Proof. reflexivity. Qed.

Lemma in1_honest : honest_input (sc_anchor spend) (sc_nullifiers spend).1 in1.
Proof.
  split; try reflexivity. right. unfold verify_path. cbn [Nat.eqb length path in1 sn_path negb].
  apply bool_decide_eq_true. exact member.
Qed.
Lemma in2_honest : honest_input (sc_anchor spend) (sc_nullifiers spend).2 in2.
Proof. split; try reflexivity. now left. Qed.
Lemma out1_honest : honest_output (sc_out_commitments spend).1 out1.
Proof. split; reflexivity. Qed.
Lemma out2_honest : honest_output (sc_out_commitments spend).2 out2.
Proof. split; reflexivity. Qed.

Lemma honest_spend_satisfies_witness : generate_constraints (publics_of spend) (witness_of spend) = true.
Proof.
  apply (honest_spend_satisfies spend);
    [exact in1_honest|exact in2_honest|exact out1_honest|exact out2_honest|reflexivity|reflexivity].
Defined.

Lemma spend_shaped : shaped (witness_of spend).
Proof. split; reflexivity. Qed.

Lemma circuit_exact_witness :
  shaped (witness_of spend) /\
  (generate_constraints (publics_of spend) (witness_of spend) = true <-> valid_spend (publics_of spend) (witness_of spend)).
Proof. split; [exact spend_shaped|]. apply (circuit_exact (publics_of spend) (witness_of spend)). exact spend_shaped. Defined.

Lemma spend_accepted : generate_constraints (publics_of spend) (witness_of spend) = true.
Proof.
  apply circuit_satisfied; [exact spend_shaped|].
  split; [apply honest_valid_input, in1_honest|apply honest_valid_input, in2_honest
         |apply honest_valid_output, out1_honest|apply honest_valid_output, out2_honest|reflexivity|reflexivity].
Qed.

Lemma spent_notes_are_leaves_witness :
  let n := note_vars in1 in
  let pos := N.to_nat (f_to (nv_position n)) in
  nv_value n = f_of 0 \/ note_of n = nth pos [note] (f_of 0) \/
  clash (uncurry compress) (walk_inputs 0 (N.of_nat pos) (note_of n) (nv_path n)) (tree_inputs [note] pos).
Proof.
  intros n. apply (spent_notes_are_leaves (publics_of spend) (witness_of spend) [note]);
    [exact spend_shaped|exact spend_accepted|reflexivity|now left].
Defined.
End Spend_example.
