(* ===== verification/Gadget.v ===== *)
(** shielded_circuit.rs: Poseidon inside the circuit.  Circuit takes the
    compression of the pool as a parameter; here is the one the circuit has, the
    gadget, and that it computes what the node hashes with.  The variables of the
    constraint system are the crate's: their sums and products are those of the
    field, and powers are the class [FpVars]. *)

From S2P Require Import Prelude Bytes Crypto Poseidon Shielded Circuit.

(** [FpVar::pow_by_constant]. *)
Class FpVars `{Fr} := pow_by_constant : F -> N -> F.
(** Documented behaviour: the power of the field. *)
Class FpVarsLaws `{FpVars} : Prop := {
  pow_zero x : pow_by_constant x 0 = f_of 1;
  pow_succ x n : pow_by_constant x (N.succ n) = f_mul x (pow_by_constant x n)
}.

Section gadget.
Context `{Params} {HV : FpVars}.

Definition gadget_constants (round : nat) (state : list F) : list F :=
  imap (fun j s => f_add s (nth (round * POSEIDON_T + j) (ark params) (f_of 0))) state.
Definition gadget_words (partial : bool) (state : list F) : list F :=
  match state with
  | [] => []
  | x :: xs => if partial then pow_by_constant x 5 :: xs else map (fun s => pow_by_constant s 5) (x :: xs)
  end.
(** [acc += o * mds[j][k]], for [k] from 0. *)
Fixpoint weigh (k : nat) (row old : list F) (acc : F) : F :=
  match old with [] => acc | o :: old => weigh (S k) row old (f_add acc (f_mul o (nth k row (f_of 0)))) end.
Definition gadget_mix (old : list F) : list F := imap (fun j _ => weigh 0 (nth j (mds params) []) old (f_of 0)) old.
Fixpoint gadget_rounds (todo round : nat) (state : list F) : list F :=
  match todo with
  | O => state
  | S todo =>
    let full_half := Nat.div POSEIDON_RF 2 in
    let partial := Nat.leb full_half round && Nat.ltb round (full_half + POSEIDON_RP) in
    gadget_rounds todo (S round) (gadget_mix (gadget_words partial (gadget_constants round state)))
  end.
(* [src/src/shielded_circuit.rs 29-58 poseidon_hash2_gadget] *)
Definition poseidon_hash2_gadget (a b : F) : F := nth 0 (gadget_rounds (POSEIDON_RF + POSEIDON_RP) 0 [a; b; f_of 0]) (f_of 0).

(** Parameters with a square matrix, as the generator makes them. *)
Definition square (p : PoseidonParams) : Prop :=
  length (mds p) = POSEIDON_T /\ Forall (fun row => length row = POSEIDON_T) (mds p).

Lemma distinct_six n fuel : forall used s l, (length used <= 2 * POSEIDON_T)%nat ->
  distinct_elements n fuel used s = Some l -> length l = (2 * POSEIDON_T)%nat.
Proof.
  induction n as [|n IH]; intros used s l Hl; cbn [distinct_elements]; destruct (Nat.ltb_spec (length used) (2 * POSEIDON_T)) as [Hu|Hu].
  - discriminate.
  - intros [= <-]. lia.
  - destruct (field_element fuel s) as [[x s1]|]; [|discriminate]. cbn [mbind option_bind]. apply IH.
    destruct (decide (x ∈ used)); [lia|]. rewrite length_app. cbn [length]. lia.
  - intros [= <-]. lia.
Qed.
Lemma generated_square fuel p : generate_params fuel = Some p -> square p.
Proof.
  unfold generate_params. destruct (field_elements _ _ _) as [[ark s]|]; [|discriminate]. cbn [mbind option_bind].
  destruct (distinct_elements _ _ _ _) as [used|] eqn:Hu; [|discriminate]. cbn [mbind option_bind]. cbv zeta.
  apply distinct_six in Hu; [|cbn; lia]. destruct (mapM _ _) as [m|] eqn:E; [|discriminate]. cbn [mbind option_bind]. intros [= <-].
  unfold square. cbn [mds]. split.
  - rewrite <- (length_mapM _ _ _ E), length_take, Hu. reflexivity.
  - apply mapM_Some in E. apply Forall_forall. intros row Hrow. apply list_elem_of_lookup in Hrow as [i Hi].
    destruct (Forall2_lookup_r _ _ _ _ _ E Hi) as (xi & _ & Hr). rewrite <- (length_mapM _ _ _ Hr), length_drop, Hu. reflexivity.
Qed.

Context {HL : FrLaws} {HVL : FpVarsLaws}.

Lemma f_mul_comm a b : f_mul a b = f_mul b a.
Proof. apply f_to_inj. rewrite !f_to_mul. now rewrite N.mul_comm. Qed.
Lemma f_mul_assoc a b c : f_mul a (f_mul b c) = f_mul (f_mul a b) c.
Proof. apply f_to_inj. rewrite !f_to_mul, N.Div0.mul_mod_idemp_l, N.Div0.mul_mod_idemp_r. now rewrite N.mul_assoc. Qed.
Lemma f_mul_one a : f_mul a (f_of 1) = a.
Proof. apply f_to_inj. rewrite f_to_mul, f_to_of, (N.mod_small 1), N.mul_1_r by reflexivity. apply N.mod_small, f_to_lt. Qed.
Lemma fifth_power x : pow_by_constant x 5 = pow5 x.
Proof.
  change 5 with (N.succ (N.succ (N.succ (N.succ (N.succ 0))))). rewrite !pow_succ, pow_zero, f_mul_one.
  unfold pow5. rewrite !f_mul_assoc. rewrite <- (f_mul_assoc (f_mul (f_mul x x) x) x x), (f_mul_comm _ (f_mul x x)), !f_mul_assoc. reflexivity.
Qed.
Lemma words_same partial s : gadget_words partial s = sub_words partial s.
Proof.
  destruct s as [|x xs]; [done|]. unfold gadget_words, sub_words. destruct partial; [now rewrite fifth_power|].
  apply map_ext. exact fifth_power.
Qed.
Lemma weigh_sum row : forall old k acc, (k + length old <= length row)%nat ->
  weigh k row old acc = foldl f_add acc (zip_with f_mul (drop k row) old).
Proof.
  induction old as [|o old IH]; intros k acc Hk; [now destruct (drop k row)|]. cbn [length] in Hk. cbn [weigh].
  destruct (drop k row) as [|r rest] eqn:E; [apply (f_equal length) in E; rewrite length_drop in E; cbn in E; lia|].
  assert (nth k row (f_of 0) = r /\ rest = drop (S k) row) as [-> ->].
  { rewrite <- (take_drop k row), E. rewrite app_nth2; rewrite length_take_le by lia; [|lia]. rewrite Nat.sub_diag. split; [done|].
    rewrite <- E. rewrite take_drop. replace (S k) with (k + 1)%nat by lia. rewrite <- drop_drop, E. reflexivity. }
  cbn [zip_with foldl]. rewrite IH by lia. now rewrite (f_mul_comm o r).
Qed.
Lemma mix_same s : square params -> length s = POSEIDON_T -> gadget_mix s = mix s.
Proof.
  intros [Hm Hrows] Hs. unfold gadget_mix, mix. apply imap_ext. intros j x Hj. apply lookup_lt_Some in Hj.
  destruct (nth_lookup_or_length (mds params) j []) as [Hn|Hn]; [|exfalso; rewrite Hm in Hn; rewrite Hs in Hj; lia].
  rewrite weigh_sum; [now rewrite drop_0|]. rewrite Forall_forall in Hrows. apply list_elem_of_lookup_2 in Hn. apply Hrows in Hn. rewrite Hs. cbn in *. lia.
Qed.
Lemma length_words partial s : length (sub_words partial s) = length s.
Proof. destruct s; [done|]. unfold sub_words. destruct partial; [done|]. apply length_map. Qed.
Lemma rounds_same : square params -> forall todo round s, length s = POSEIDON_T -> gadget_rounds todo round s = rounds todo round s.
Proof.
  intros Hp. induction todo as [|todo IH]; intros round s Hs; [done|]. cbn [gadget_rounds rounds]. cbv zeta.
  assert (forall p, length (sub_words p (add_constants round s)) = POSEIDON_T) as Hl by (intros p; rewrite length_words; unfold add_constants; now rewrite length_imap).
  change (gadget_constants round s) with (add_constants round s). rewrite words_same, mix_same by auto. apply IH. now rewrite length_mix.
Qed.

(** C30: The circuit hashes as the node does.  The gadget of the circuit computes, on
    any two inputs, the hash the native code computes, for any parameters with
    the square matrix the generator makes; so the circuit verified for the
    compression of the pool is the circuit of the code. *)
Theorem gadget_is_poseidon a b : square params -> poseidon_hash2_gadget a b = hash2 a b.
Proof. intros Hp. unfold poseidon_hash2_gadget, hash2, permute, POSEIDON_ROUNDS. now rewrite rounds_same. Qed.
End gadget.

Module Gadget_example.
Import Toy_field.
Definition toy_pow (x : F) (n : N) : F := N.recursion (f_of 1) (fun _ acc => f_mul x acc) n.
#[export] Instance toy_vars : FpVars := toy_pow.
#[export] Instance toy_vars_laws : FpVarsLaws.
Proof.
  split; [done|]. intros x n. unfold pow_by_constant, toy_vars, toy_pow.
  rewrite (N.recursion_succ (A := F) eq); [done|done|]. intros ? ? _ ? ? ->. done.
Qed.
Lemma gadget_is_poseidon_witness : poseidon_hash2_gadget (f_of 3) (f_of 4) = hash2 (f_of 3) (f_of 4).
Proof. apply gadget_is_poseidon. split; [reflexivity|]. repeat constructor. Defined.
End Gadget_example.
