(* ===== verification/Exec.v ===== *)
(** chain.rs, execution: the consensus rules that are functions of a header or a
    transaction, [apply_tx] and its arms, and what closes a block.

    [Node::apply_tx] and its helpers use only the node's store, so they are
    operations of the store monad; the node around them is Chain.v. *)

From S2P Require Import Prelude Bytes Crypto Types Journal Store Smt SmtFacts Poseidon Shielded State StateFacts.
From S2P Require Import Fees Staking Tokens Slashing Contracts Circuit.
From Stdlib Require String.

(** ** Constants *)

(* [src/src/chain.rs 24-24 VERIFY_PARALLEL_THRESHOLD] *)
Definition VERIFY_PARALLEL_THRESHOLD : nat := 64.
(* [src/src/chain.rs 40-40 LEADER_ATTEMPT_SLACK] *)
Definition LEADER_ATTEMPT_SLACK : N := 2.
(* [src/src/chain.rs 45-45 MAX_TIMESTAMP_DRIFT_MS] *)
Definition MAX_TIMESTAMP_DRIFT_MS : N := 12000.
(* [src/src/chain.rs 48-48 MIN_TIMESTAMP_SPACING_MS] *)
Definition MIN_TIMESTAMP_SPACING_MS : N := 1.
(* [src/src/chain.rs 54-54 MAX_REORG_DEPTH] *)
Definition MAX_REORG_DEPTH : N := 5000.

(** ** Header rules *)

(* [src/src/chain.rs 131-142 check_reorg_depth] *)
Definition check_reorg_depth (local_tip peer_height : N) : result unit :=
  let depth := sat_sub local_tip peer_height in
  if MAX_REORG_DEPTH <? depth then
    Err ("refusing " +:+ dec depth +:+ "-block reorg (local tip " +:+ dec local_tip +:+ ", peer " +:+
         dec peer_height +:+ "); max automatic depth is " +:+ dec MAX_REORG_DEPTH)
  else Ok tt.

(* [src/src/chain.rs 153-167 check_timestamp] *)
Definition check_timestamp (parent_ts ts now : N) : result unit :=
  if ts <? sat_add128 parent_ts MIN_TIMESTAMP_SPACING_MS then
    Err ("timestamp not increasing: parent " +:+ dec parent_ts +:+ " block " +:+ dec ts)
  else if sat_add128 now MAX_TIMESTAMP_DRIFT_MS <? ts then
    Err ("timestamp too far in the future (" +:+ dec ts +:+ " > now + " +:+ dec MAX_TIMESTAMP_DRIFT_MS +:+ "ms)")
  else Ok tt.

(* [src/src/chain.rs 172-182 leader_attempt_window] *)
Definition leader_attempt_window (parent_ts ts now slot_ms : N) : N :=
  let slot := N.max slot_ms 1 in
  let claimed := sat_sub ts parent_ts in
  let real := sat_sub now parent_ts in
  N.min (sat_add64 (wrap 64 (N.min claimed real) / slot) LEADER_ATTEMPT_SLACK) MAX_LEADER_ATTEMPTS.

(** [n.div_ceil(d)] *)
Definition div_ceil (n d : nat) : nat := ((n + d - 1) / d)%nat.

(** [txs.chunks(n)], at most [fuel] of them. *)
Fixpoint chunks {A : Type} (fuel n : nat) (l : list A) : list (list A) :=
  match fuel, l with
  | S f, _ :: _ => take n l :: chunks f n (drop n l)
  | _, _ => []
  end.

(** [cpus]: what [available_parallelism()] says. *)
(* [src/src/chain.rs 26-31 verify_threads] *)
Definition verify_threads (cpus : option nat) : nat :=
  Nat.max 1 (Nat.min 16 (match cpus with Some n => n | None => 2%nat end)).

Section exec.
Context {HC : Crypto} {HF : Fr} {HK : Compression} {HP : ChainParams} {HJ : EvidenceJson} {HW : Wasm} {HG : Groth16}.

(* [src/src/chain.rs 204-217 verify_signatures] *)
Definition verify_signatures (cpus : option nat) (txs : list Transaction) : bool :=
  if Nat.ltb (length txs) VERIFY_PARALLEL_THRESHOLD then forallb verify_signature txs
  else
    let chunk := div_ceil (length txs) (verify_threads cpus) in
    forallb (forallb verify_signature) (chunks (length txs) chunk txs).

(** ** Shielded payloads *)

(** The amount an unshield pays out; the empty string stands for 0. *)
Definition public_amount (s : string) : result N :=
  if String.eqb s "" then Ok 0 else ok_or (parse_u128 s) "bad public unshield amount".

Definition two_in_two_out (data : ShieldedData) : bool :=
  Nat.eqb (length (nullifiers data)) 2 && Nat.eqb (length (commitments data)) 2 && negb (String.eqb (sh_proof data) "").
Definition same_nullifiers (data : ShieldedData) : bool :=
  String.eqb (nth 0 (nullifiers data) "") (nth 1 (nullifiers data) "").

(* [src/src/chain.rs 59-126 check_shielded_shape] *)
Definition check_shielded_shape (tx : Transaction) : result unit :=
  data ← ok_or (tx_shielded tx) "missing shielded payload";
  if Nat.ltb 512 (slen (sh_proof data)) then Err "shielded proof field too large"
  else if existsb (fun f => negb (String.eqb f "") && negb (bool_decide (is_Some (fr_from_hex f))))
            (commitments data ++ nullifiers data ++ [anchor data]) then
    Err "shielded payload has a non-field element"
  else
    public_unshield ← public_amount (public_unshield data);
    _ ← match tx_kind tx with
    | Shield =>
      if negb (Nat.eqb (length (commitments data)) 1) || negb (Nat.eqb (length (nullifiers data)) 0) ||
         negb (String.eqb (sh_proof data) "") || negb (public_unshield =? 0) then
        Err "shield: exactly one commitment, no nullifiers, no proof"
      else if tx_amount tx =? 0 then Err "shield: amount must be positive"
      else Ok tt
    | PrivateTransfer =>
      if negb (two_in_two_out data) then Err "private transfer: two nullifiers, two commitments, one proof"
      else if negb (tx_amount tx =? 0) || negb (public_unshield =? 0) then
        Err "private transfer: amount fields must be zero"
      else if same_nullifiers data then Err "private transfer: duplicate nullifier"
      else Ok tt
    | Unshield =>
      if negb (two_in_two_out data) then Err "unshield: two nullifiers, two commitments, one proof"
      else if negb (tx_amount tx =? 0) then Err "unshield: amount field must be zero"
      else if public_unshield =? 0 then Err "unshield: public amount must be positive"
      else if same_nullifiers data then Err "unshield: duplicate nullifier"
      else Ok tt
    | _ => Err "not a shielded transaction"
    end;
    if negb (bool_decide (tx_kind tx = Shield)) && String.eqb (anchor data) "" then Err "spend: missing anchor"
    else Ok tt.

(** Verifies a spend against the stored key; the first spend installs the
    devnet key. *)
Definition spend_key : M gKey :=
  stored ← gets shielded_verifying_key;
  match stored with
  | Some bytes => lift (ok_or (vk_from_hex (hex_encode bytes)) "stored verifying key is corrupt")
  | None => let vk := devnet_setup in shielded_set_verifying_key (vk_to_bytes vk) ;; mret vk
  end.
#[export] Instance journaled_spend_key : Journaled (spend_key).
Proof. unfold spend_key. journaled. Qed.

(** The public inputs of a spend, in circuit order. *)
Definition spend_inputs (data : ShieldedData) (unshield_out : N) : result (list F) :=
  a ← ok_or (fr_from_hex (anchor data)) "spend: bad anchor field";
  n1 ← ok_or (fr_from_hex (nth 0 (nullifiers data) "")) "bad nullifier";
  n2 ← ok_or (fr_from_hex (nth 1 (nullifiers data) "")) "bad nullifier";
  c1 ← ok_or (fr_from_hex (nth 0 (commitments data) "")) "bad commitment";
  c2 ← ok_or (fr_from_hex (nth 1 (commitments data) "")) "bad commitment";
  Ok [a; n1; n2; c1; c2; fr_u128 unshield_out].

Definition burn_nullifiers (height : N) (nfs : list string) : M unit :=
  for_each nfs (fun nf =>
    burned ← shielded_burn_nullifier nf height;
    fail_if (negb burned) "spend: nullifier already spent").
#[export] Instance journaled_burn_nullifiers h l : Journaled (burn_nullifiers h l).
Proof. unfold burn_nullifiers. journaled. Qed.

Definition append_commitments (cs : list string) : M unit :=
  for_each cs (fun c => shielded_append c ;; mret tt).
#[export] Instance journaled_append_commitments l : Journaled (append_commitments l).
Proof. unfold append_commitments. journaled. Qed.

(** [account.balance += amount] *)
Definition add_balance (addr : string) (amount : N) : M unit :=
  a ← gets (account addr);
  set_account addr (with_balance (balance a +! amount) a).
#[export] Instance journaled_add_balance a n : Journaled (add_balance a n).
Proof. unfold add_balance. journaled. Qed.

(** The [Shield] arm. *)
(* [src/src/chain.rs 854-866! Node::apply_shielded] *)
Definition apply_shield (tx : Transaction) (data : ShieldedData) : M unit :=
  let c := nth 0 (commitments data) "" in
  cm ← lift (ok_or (fr_from_hex c) "shield: bad commitment field");
  fail_if (bool_decide (cm = f_of 0)) "shield: zero commitment" ;;
  shielded_append c ;;
  bal ← gets shielded_pool_balance;
  bal ← lift (ok_or (checked_add128 bal (tx_amount tx)) "pool balance overflow");
  shielded_set_pool_balance bal.
#[export] Instance journaled_apply_shield t d : Journaled (apply_shield t d).
Proof. unfold apply_shield. journaled. Qed.

(** The [PrivateTransfer] and [Unshield] arm. *)
(* [src/src/chain.rs 867-932! Node::apply_shielded] *)
Definition apply_spend (tx : Transaction) (data : ShieldedData) (height : N) : M unit :=
  unshield_out ← lift (if bool_decide (tx_kind tx = Unshield)
                       then ok_or (parse_u128 (public_unshield data)) "bad public unshield amount" else Ok 0);
  pool ← gets shielded_pool_balance;
  when_ (0 <? unshield_out)
    (fail_if (negb (is_valid_address (tx_to tx))) "unshield: invalid recipient address" ;;
     fail_if (pool <? unshield_out) "unshield: pool underflow") ;;
  known ← gets (shielded_root_known (anchor data));
  fail_if (negb known) "spend: anchor is not a sealed tree root" ;;
  proof ← lift (ok_or (proof_from_hex (sh_proof data)) "spend: bad proof encoding");
  vk ← spend_key;
  inputs ← lift (spend_inputs data unshield_out);
  fail_if (negb (spend_verify vk proof inputs)) "spend: invalid proof" ;;
  burn_nullifiers height (nullifiers data) ;;
  append_commitments (commitments data) ;;
  when_ (0 <? unshield_out)
    (bal ← gets shielded_pool_balance;
     shielded_set_pool_balance (bal -! unshield_out) ;;
     add_balance (tx_to tx) unshield_out).
#[export] Instance journaled_apply_spend t d h : Journaled (apply_spend t d h).
Proof. unfold apply_spend. journaled. Qed.

(* [src/src/chain.rs 843-935 Node::apply_shielded] *)
Definition apply_shielded (tx : Transaction) (height : N) : M unit :=
  fail_if (height <? shielded_activation) "shielded pool is not active at this height" ;;
  data ← lift (ok_or (tx_shielded tx) "missing shielded payload");
  lift (check_shielded_shape tx) ;;
  match tx_kind tx with
  | Shield => apply_shield tx data
  | PrivateTransfer | Unshield => apply_spend tx data height
  | _ => throw "not a shielded transaction"
  end.
#[export] Instance journaled_apply_shielded t h : Journaled (apply_shielded t h).
Proof. unfold apply_shielded. journaled. Qed.

(** ** Transactions *)

(** Token and contract rules, checked before anything is written. *)
(* [src/src/chain.rs 629-649! Node::apply_tx] *)
Definition precheck_kind (d : Db) (sender : string) (tx : Transaction) : result unit :=
  match tx_kind tx with
  | CreateToken => check_create d sender (tx_nonce tx) (tx_payload tx)
  | MintToken => check_mint d sender (tx_to tx) (tx_amount tx) (tx_payload tx)
  | TokenTransfer => check_token_transfer d sender (tx_to tx) (tx_amount tx) (tx_payload tx)
  | BurnToken => check_burn d sender (tx_amount tx) (tx_payload tx)
  | DeployContract => code ← decode_code (tx_payload tx); check_deploy code
  | CallContract => _ ← check_call d (tx_to tx); _ ← decode_args (tx_payload tx); Ok tt
  | _ => Ok tt
  end.

(** What leaves the sender's balance. *)
(* [src/src/chain.rs 656-666! Node::apply_tx] *)
Definition debit_of (tx : Transaction) : N :=
  match tx_kind tx with
  | Unstake | ReportEquivocation | Unjail => tx_fee tx
  | CreateToken => sat_add128 (tx_fee tx) TOKEN_CREATION_FEE
  | MintToken | TokenTransfer | BurnToken => tx_fee tx
  | DeployContract => sat_add128 (sat_add128 (tx_fee tx) DEPLOY_FEE) (tx_amount tx)
  | PrivateTransfer | Unshield => tx_fee tx
  | _ => sat_add128 (tx_amount tx) (tx_fee tx)
  end.

(** What joins the block's fee pool. *)
(* [src/src/chain.rs 832-836! Node::apply_tx] *)
Definition collected_of (tx : Transaction) : N :=
  match tx_kind tx with
  | CreateToken => sat_add128 (tx_fee tx) TOKEN_CREATION_FEE
  | DeployContract => sat_add128 (tx_fee tx) DEPLOY_FEE
  | _ => tx_fee tx
  end.

(* [src/src/chain.rs 679-689! Node::apply_tx] *)
Definition apply_transfer (tx : Transaction) (sender : string) (from : Account) : M unit :=
  if String.eqb (tx_to tx) sender then
    set_account sender (with_balance (balance from +! tx_amount tx) from)
  else
    set_account sender from ;; add_balance (tx_to tx) (tx_amount tx).
#[export] Instance journaled_apply_transfer t s f : Journaled (apply_transfer t s f).
Proof. unfold apply_transfer. journaled. Qed.

(* [src/src/chain.rs 703-714! Node::apply_tx] *)
Definition apply_unstake (tx : Transaction) (sender : string) (from : Account) (height : N) : M unit :=
  fail_if (staked from <? tx_amount tx) "not enough staked" ;;
  set_account sender
    (with_unbonding (unbonding from ++ [ {| u_amount := tx_amount tx; release_height := height +!! UNBONDING_BLOCKS |} ])
      (with_staked (staked from -! tx_amount tx) from)).
#[export] Instance journaled_apply_unstake t s f h : Journaled (apply_unstake t s f h).
Proof. unfold apply_unstake. journaled. Qed.

(* [src/src/chain.rs 738-762! Node::apply_tx] *)
Definition apply_deploy (tx : Transaction) (sender : string) (height : N) : M unit :=
  code ← lift (decode_code (tx_payload tx));
  let hash := code_hash code in
  let address := contract_address sender (tx_nonce tx) hash in
  old ← gets (contract address);
  fail_if (bool_decide (is_Some old)) "contract already exists" ;;
  put_code hash code ;;
  set_contract {| c_address := address; c_code_hash := hash; c_code_size := len code; c_creator := sender;
                  c_created_height := height; c_calls := 0 |} ;;
  when_ (0 <? tx_amount tx) (add_balance address (tx_amount tx)).
#[export] Instance journaled_apply_deploy t s h : Journaled (apply_deploy t s h).
Proof. unfold apply_deploy. journaled. Qed.

(** [calls += 1] *)
Definition count_call (c : Contract) : Contract :=
  Build_Contract (c_address c) (c_code_hash c) (c_code_size c) (c_creator c) (c_created_height c) (c_calls c +!! 1).

(** One outgoing move of a finished call. *)
Definition pay_out (contract_addr : string) (t : string * N) : M unit :=
  let '(to, amount) := t in
  c ← gets (account contract_addr);
  fail_if (balance c <? amount) "contract overspent" ;;
  set_account contract_addr (with_balance (balance c -! amount) c) ;;
  add_balance to amount.
#[export] Instance journaled_pay_out c t : Journaled (pay_out c t).
Proof. unfold pay_out. journaled. Qed.

(** Commits an outcome: the revert, or the writes and transfers. *)
(* [src/src/chain.rs 790-827! Node::apply_tx] *)
Definition settle_call (tx : Transaction) (sender : string) (c : Contract) (o : Outcome) : M unit :=
  if negb (o_ok o) then
    when_ (0 <? tx_amount tx)
      (acct ← gets (account (tx_to tx));
       set_account (tx_to tx) (with_balance (sat_sub (balance acct) (tx_amount tx)) acct) ;;
       add_balance sender (tx_amount tx)) ;;
    set_contract (count_call c)
  else
    for_each (o_writes o) (fun '(key, value) => set_contract_storage (tx_to tx) key value) ;;
    for_each (o_transfers o) (pay_out (tx_to tx)) ;;
    set_contract (count_call c).
#[export] Instance journaled_settle_call t s c o : Journaled (settle_call t s c o).
Proof. unfold settle_call. journaled. Qed.

(* [src/src/chain.rs 763-828! Node::apply_tx] *)
Definition apply_call (tx : Transaction) (sender : string) (height : N) : M unit :=
  found ← gets (fun d => check_call d (tx_to tx));
  c ← lift found;
  stored ← gets (code (c_code_hash c));
  code ← lift (ok_or stored "contract code missing");
  input ← lift (decode_args (tx_payload tx));
  when_ (0 <? tx_amount tx) (add_balance (tx_to tx) (tx_amount tx)) ;;
  o ← gets (fun d => execute d (tx_to tx) sender code input (tx_amount tx) height (fuel_for_fee (tx_fee tx)));
  put_receipt (tx_hash tx) (receipt_of o (tx_to tx) sender height) ;;
  settle_call tx sender c o.
#[export] Instance journaled_apply_call t s h : Journaled (apply_call t s h).
Proof. unfold apply_call. journaled. Qed.

(** The arms of [apply_tx], with the sender already debited in [from]. *)
Definition apply_kind (tx : Transaction) (sender : string) (from : Account) (height : N) : M unit :=
  match tx_kind tx with
  | Shield | PrivateTransfer | Unshield => set_account sender from ;; apply_shielded tx height
  | Transfer => apply_transfer tx sender from
  | Stake => set_account sender (with_staked (staked from +! tx_amount tx) from)
  | ReportEquivocation =>
    set_account sender from ;;
    checked ← gets (fun d => check_report d height (tx_payload tx));
    e ← lift checked;
    apply_report height sender e ;; mret tt
  | Unjail => set_account sender from ;; apply_unjail height sender
  | Unstake => apply_unstake tx sender from height
  | CreateToken =>
    set_account sender from ;;
    apply_create sender (tx_nonce tx) (tx_amount tx) height (tx_payload tx) ;; mret tt
  | MintToken => set_account sender from ;; apply_mint sender (tx_to tx) (tx_amount tx) (tx_payload tx)
  | TokenTransfer =>
    set_account sender from ;; apply_token_transfer sender (tx_to tx) (tx_amount tx) (tx_payload tx)
  | BurnToken => set_account sender from ;; apply_burn sender (tx_amount tx) (tx_payload tx)
  | DeployContract => set_account sender from ;; apply_deploy tx sender height
  | CallContract => set_account sender from ;; apply_call tx sender height
  end.
#[export] Instance journaled_apply_kind t s f h : Journaled (apply_kind t s f h).
Proof. unfold apply_kind. journaled. Qed.

(* [src/src/chain.rs 625-838 Node::apply_tx] *)
Definition apply_tx (tx : Transaction) (height : N) : M N :=
  sender ← lift (ok_or (sender tx) "bad sender");
  ok ← gets (fun d => precheck_kind d sender tx);
  lift ok ;;
  from ← gets (account sender);
  fail_if (negb (tx_nonce tx =? nonce from)) "stale nonce" ;;
  fail_if (balance from <? debit_of tx) "insufficient balance" ;;
  let from := with_nonce (nonce from +!! 1) (with_balance (balance from -! debit_of tx) from) in
  apply_kind tx sender from height ;;
  mret (collected_of tx).
#[export] Instance journaled_apply_tx t h : Journaled (apply_tx t h).
Proof. unfold apply_tx. journaled. Qed.

(** ** Closing a block *)

(* [src/src/chain.rs 940-960 Node::seal_shielded_root] *)
Definition seal_shielded_root (height : N) : M unit :=
  if height <? shielded_activation then mret tt
  else
    count ← gets shielded_leaf_count;
    sealed ← gets shielded_last_sealed_count;
    if (count =? sealed) && (0 <? count) then mret tt
    else
      root ← gets shielded_root;
      shielded_seal_root root height ;;
      shielded_set_last_sealed_count count ;;
      shielded_seal_into_state root.
#[export] Instance journaled_seal_shielded_root h : Journaled (seal_shielded_root h).
Proof. unfold seal_shielded_root. journaled. Qed.

(** The tail shared by production and import: matured unbonds, liveness,
    rewards, the pool root. *)
(* [src/src/chain.rs 1066-1071! Node::produce_block] *)
Definition close_block (height : N) (parent_hash producer : string) (fees : N) : M unit :=
  release_unbonded height ;;
  record_liveness height parent_hash producer ;;
  pay_rewards producer fees ;;
  seal_shielded_root height.
#[export] Instance journaled_close_block h p q f : Journaled (close_block h p q f).
Proof. unfold close_block. journaled. Qed.

(** [put_block] and the next base fee. *)
Definition store_block (b : Block) : M unit :=
  put_block b ;;
  fee ← gets base_fee;
  set_base_fee (next_base_fee fee (N.of_nat (length (b_transactions b)))).
#[export] Instance journaled_store_block b : Journaled (store_block b).
Proof. unfold store_block. journaled. Qed.
End exec.
#[global] Typeclasses Opaque spend_key burn_nullifiers append_commitments add_balance apply_shield apply_spend apply_shielded apply_transfer apply_unstake apply_deploy pay_out settle_call apply_call apply_kind apply_tx seal_shielded_root close_block store_block.
