(* ===== verification/ExecFacts.v ===== *)
(** Theorems about execution: coins are conserved by every transaction, nonces
    move one step and only the sender's, tombstones are permanent, and the
    header rules bound what a producer can claim. *)

From S2P Require Import Prelude Bytes Crypto Types Journal Store Smt SmtFacts Poseidon Shielded State StateFacts.
From S2P Require Import Fees Staking StakingFacts Tokens Slashing SlashingFacts Contracts ContractsFacts Circuit Exec.
From Stdlib Require String.

Section ledger.
Context {HC : Crypto} {HF : Fr} {HK : Compression} {HP : ChainParams} {HJ : EvidenceJson} {HW : Wasm} {HG : Groth16}.

(** ** The coin ledger

    The rows that hold native coins: the accounts and the pool balance. *)

Definition ledger_key (k : Key) : bool :=
  bool_decide (k.1 = T_ACCOUNTS) || bool_decide (k = (T_META, "shielded_pool")).
Definition same_ledger (d d' : Db) : Prop := forall k, ledger_key k = true -> d' !! k = d !! k.

#[export] Instance same_ledger_preorder : PreOrder same_ledger.
Proof. split; [done|]. intros d1 d2 d3 H12 H23 k Hk. now rewrite H23, H12. Qed.

Lemma steps_jput_ledger t k v : ledger_key (t, k) = false -> Steps same_ledger (jput t k v).
Proof. intros Hk d k' Hk'. rewrite db_after_jput, lookup_insert_ne by congruence. done. Qed.
Lemma steps_jdel_ledger t k : ledger_key (t, k) = false -> Steps same_ledger (jdel t k).
Proof. intros Hk d k' Hk'. rewrite db_after_jdel, lookup_delete_ne by congruence. done. Qed.
#[local] Hint Extern 1 (Steps same_ledger (jput _ _ _)) => apply steps_jput_ledger; reflexivity : typeclass_instances.
#[local] Hint Extern 1 (Steps same_ledger (jdel _ _)) => apply steps_jdel_ledger; reflexivity : typeclass_instances.

#[export] Instance ledger_smt_set dom key v : Steps same_ledger (smt_set dom key v).
Proof. intros d [t k] Hk. apply smt_set_other. now intros ->. Qed.
#[export] Instance ledger_set_token t : Steps same_ledger (set_token t).
Proof. unfold set_token. steps. Qed.
#[export] Instance ledger_set_token_balance t a n : Steps same_ledger (set_token_balance t a n).
Proof. unfold set_token_balance. steps. Qed.
#[export] Instance ledger_credit_token t a n : Steps same_ledger (credit_token t a n).
Proof. unfold credit_token. steps. Qed.
#[export] Instance ledger_debit_token t a n : Steps same_ledger (debit_token t a n).
Proof. unfold debit_token. steps. Qed.
#[export] Instance ledger_apply_create s n i h p : Steps same_ledger (apply_create s n i h p).
Proof. unfold apply_create. steps. Qed.
#[export] Instance ledger_apply_mint s t a p : Steps same_ledger (apply_mint s t a p).
Proof. unfold apply_mint. steps. Qed.
#[export] Instance ledger_apply_token_transfer s t a p : Steps same_ledger (apply_token_transfer s t a p).
Proof. unfold apply_token_transfer. steps. Qed.
#[export] Instance ledger_apply_burn s a p : Steps same_ledger (apply_burn s a p).
Proof. unfold apply_burn. steps. Qed.
#[export] Instance ledger_set_contract c : Steps same_ledger (set_contract c).
Proof. unfold set_contract. steps. Qed.
#[export] Instance ledger_put_code h c : Steps same_ledger (put_code h c).
Proof. unfold put_code. steps. Qed.
#[export] Instance ledger_set_contract_storage a k v : Steps same_ledger (set_contract_storage a k v).
Proof. unfold set_contract_storage. steps. Qed.
#[export] Instance ledger_store_writes a ws : Steps same_ledger (store_writes a ws).
Proof. unfold store_writes. steps. Qed.
#[export] Instance ledger_put_receipt h r : Steps same_ledger (put_receipt h r).
Proof. unfold put_receipt. steps. Qed.
#[export] Instance ledger_put_slash r : Steps same_ledger (put_slash r).
Proof. unfold put_slash. steps. Qed.
#[export] Instance ledger_shielded_append c : Steps same_ledger (shielded_append c).
Proof. unfold shielded_append. steps. Qed.
#[export] Instance ledger_burn_nullifier n h : Steps same_ledger (shielded_burn_nullifier n h).
Proof. unfold shielded_burn_nullifier. steps. Qed.
#[export] Instance ledger_burn_nullifiers h l : Steps same_ledger (burn_nullifiers h l).
Proof. unfold burn_nullifiers. steps. Qed.
#[export] Instance ledger_append_commitments l : Steps same_ledger (append_commitments l).
Proof. unfold append_commitments. steps. Qed.
#[export] Instance ledger_spend_key : Steps same_ledger spend_key.
Proof. unfold spend_key, shielded_set_verifying_key. steps. Qed.
#[export] Instance ledger_seal_shielded_root h : Steps same_ledger (seal_shielded_root h).
Proof.
  unfold seal_shielded_root, shielded_seal_root, shielded_set_last_sealed_count, shielded_seal_into_state. steps.
Qed.
#[export] Instance ledger_set_base_fee n : Steps same_ledger (set_base_fee n).
Proof. unfold set_base_fee. steps. Qed.
#[export] Instance ledger_put_block b : Steps same_ledger (put_block b).
Proof. unfold put_block. steps. Qed.
#[export] Instance ledger_store_block b : Steps same_ledger (store_block b).
Proof. unfold store_block. steps. Qed.

(** ** Coins *)

(** Every native coin: liquid, staked, unbonding, and in the shielded pool. *)
Definition coins (d : Db) : N := funds d + shielded_pool_balance d.

Lemma same_ledger_funds d d' : same_ledger d d' -> funds d' = funds d.
Proof.
  intros Hs. apply (msum_agree _ (fun k => k.1 = T_ACCOUNTS)).
  - intros [t k] v Ht. destruct t; done.
  - intros [t k] E. apply Hs. unfold ledger_key. now rewrite bool_decide_true.
Qed.

Lemma same_ledger_pool d d' : same_ledger d d' -> shielded_pool_balance d' = shielded_pool_balance d.
Proof. intros Hs. unfold shielded_pool_balance, meta_number. now rewrite Hs. Qed.

Lemma same_ledger_coins d d' : same_ledger d d' -> coins d' = coins d.
Proof. intros Hs. unfold coins. now rewrite (same_ledger_funds d d'), (same_ledger_pool d d'). Qed.

Lemma same_ledger_account d d' addr : same_ledger d d' -> account addr d' = account addr d.
Proof. intros Hs. unfold account. now rewrite Hs by reflexivity. Qed.

(** A neutral operation in a run. *)
Lemma run_neutral {A : Type} (m : M A) `{!Steps same_ledger m} d r d' : run m d = (r, d') -> same_ledger d d'.
Proof. intros E. injection E as _ <-. apply steps. Qed.

Lemma pool_set_account addr a d : shielded_pool_balance (db_after (set_account addr a) d) = shielded_pool_balance d.
Proof.
  unfold shielded_pool_balance, meta_number. rewrite set_account_rows by done.
  now rewrite !decide_False by congruence.
Qed.

Lemma coins_set_account addr a d :
  coins (db_after (set_account addr a) d) + account_funds (account addr d) = coins d + account_funds a.
Proof. unfold coins. rewrite pool_set_account. pose proof (funds_set_account addr a d). lia. Qed.

Lemma account_funds_le_coins addr d : account_funds (account addr d) <= coins d.
Proof. unfold coins. pose proof (funds_account_le addr d). lia. Qed.
Lemma balance_le_coins addr d : balance (account addr d) <= coins d.
Proof. pose proof (account_funds_le_coins addr d). unfold account_funds in *. lia. Qed.

Lemma run_add_balance addr n d : run (add_balance addr n) d = (Ok tt, db_after (add_balance addr n) d).
Proof.
  enough ((run (add_balance addr n) d).1 = Ok tt) by (unfold run in *; cbn in *; congruence).
  unfold add_balance. runs. now rewrite run_set_account.
Qed.

Lemma coins_add_balance addr n d : coins d + n < 2 ^ 128 -> coins (db_after (add_balance addr n) d) = coins d + n.
Proof.
  intros Hb. pose proof (balance_le_coins addr d) as Ha.
  change (db_after (add_balance addr n) d) with (run (add_balance addr n) d).2. unfold add_balance. runs.
  rewrite run_set_account. cbn [snd]. rewrite wadd_small by lia.
  pose proof (coins_set_account addr (with_balance (balance (account addr d) + n) (account addr d)) d) as Hs.
  pose proof (account_funds_le_coins addr d).
  unfold account_funds, with_balance in *. cbn [balance staked unbonding] in *. lia.
Qed.

Lemma coins_set_pool n d : n <= U128_MAX ->
  coins (db_after (shielded_set_pool_balance n) d) + shielded_pool_balance d = coins d + n.
Proof.
  intros Hn. unfold coins, shielded_set_pool_balance. rewrite db_after_jput.
  assert (funds (<[(T_META, "shielded_pool") := text_row n]> d) = funds d) as ->.
  { apply (funds_same (eq T_ACCOUNTS)); [done|]. intros t q <-. now rewrite lookup_insert_ne. }
  assert (shielded_pool_balance (<[(T_META, "shielded_pool") := text_row n]> d) = n) as ->; [|lia].
  unfold shielded_pool_balance, meta_number. rewrite lookup_insert_eq. unfold text_row. cbn [mbind option_bind as_bytes]. now rewrite parse_uint_dec.
Qed.

(** ** Inverting a successful run *)

Lemma run_bind_ok {A B : Type} (m : M A) (k : A -> M B) d b d' : (forall a, Journaled (k a)) ->
  run (mbind k m) d = (Ok b, d') -> exists a d1, run m d = (Ok a, d1) /\ run (k a) d1 = (Ok b, d').
Proof. intros Hj. rewrite run_bind by done. destruct (run m d) as [[a|] d1]; [eauto|done]. Qed.
Lemma run_fail_ok c e d x d' : run (fail_if c e) d = (Ok x, d') -> c = false /\ d' = d.
Proof. rewrite run_fail_if. now destruct c; intros [= _ <-]. Qed.
Lemma run_lift_ok {A : Type} (r : result A) d x d' : run (lift r) d = (Ok x, d') -> r = Ok x /\ d' = d.
Proof. rewrite run_lift. now intros [= -> <-]. Qed.
Lemma run_gets_ok {A : Type} (f : Db -> A) d x d' : run (gets f) d = (Ok x, d') -> x = f d /\ d' = d.
Proof. rewrite run_gets. now intros [= <- <-]. Qed.
Lemma run_ret_ok {A : Type} (a : A) d x d' : run (mret a) d = (Ok x, d') -> x = a /\ d' = d.
Proof. rewrite run_ret. now intros [= <- <-]. Qed.
End ledger.

(** One step of a successful run; a step that writes nothing disappears. *)
Tactic Notation "step_ok" ident(E) ident(H) ident(d) :=
  let a := fresh "a" in
  apply run_bind_ok in E; [|intros; journaled]; destruct E as (a & d & H & E);
  lazymatch type of H with
  | run (gets _) _ = _ => apply run_gets_ok in H as [-> ->]
  | run (fail_if _ _) _ = _ => apply run_fail_ok in H as [H ->]
  | run (lift _) _ = _ => apply run_lift_ok in H as [H ->]
  | run (mret _) _ = _ => apply run_ret_ok in H as [-> ->]
  | run (set_account _ _) _ = _ => rewrite run_set_account in H; injection H as <- <-
  | run (add_balance _ _) _ = _ => rewrite run_add_balance in H; injection H as <- <-
  | _ => idtac
  end;
  try match type of a with unit => destruct a end.

Section conservation.
Context {HC : Crypto} {HF : Fr} {HK : Compression} {HP : ChainParams} {HJ : EvidenceJson} {HW : Wasm} {HG : Groth16}.

Lemma coins_shield tx data d d' :
  run (apply_shield tx data) d = (Ok tt, d') -> coins d' = coins d + tx_amount tx.
Proof.
  unfold apply_shield. intros E. step_ok E H1 e1. step_ok E H2 e2. step_ok E H3 d1. apply run_neutral in H3; [|apply _].
  step_ok E H4 e4. step_ok E H5 e5. unfold checked_add128 in H5.
  destruct (N.leb_spec (shielded_pool_balance d1 + tx_amount tx) U128_MAX) as [Hle|]; [|discriminate].
  injection H5 as <-. injection E as <-. pose proof (coins_set_pool _ d1 Hle).
  rewrite <- (same_ledger_coins d d1) by done. lia.
Qed.

(** [when_] in a successful run. *)
Lemma run_when_ok c m d x d' : run (when_ c m) d = (Ok x, d') ->
  if c then run m d = (Ok x, d') else d' = d.
Proof. rewrite run_when. destruct c; [done|]. now intros [= _ <-]. Qed.

Lemma checked_sub a b : (a <? b) = false -> b <= a.
Proof. intros H. now apply N.ltb_ge. Qed.

Lemma coins_spend tx data h d d' : coins d < 2 ^ 128 ->
  run (apply_spend tx data h) d = (Ok tt, d') -> coins d' = coins d.
Proof.
  intros Hb. unfold apply_spend. intros E. step_ok E H1 e1. step_ok E H2 e2. step_ok E H3 d1.
  assert (d1 = d /\ ((0 <? a) = true -> a <= shielded_pool_balance d)) as [-> Hpool].
  { apply run_when_ok in H3. destruct (0 <? a); [|now split].
    step_ok H3 H4 e4. apply run_fail_ok in H3 as [H3 ->]. split; [done|]. intros _. now apply checked_sub. }
  clear H3. step_ok E H3 e3. step_ok E H4 e4. step_ok E H5 e5. step_ok E H6 d1. apply run_neutral in H6; [|apply _].
  step_ok E H7 e7. step_ok E H8 e8. step_ok E H9 d2. apply run_neutral in H9; [|apply _].
  step_ok E H10 d3. apply run_neutral in H10; [|apply _].
  assert (same_ledger d d3) as Hs by (etransitivity; [exact H6|]; etransitivity; eassumption).
  pose proof (same_ledger_coins d d3 Hs) as Hc. pose proof (same_ledger_pool d d3 Hs) as Hp.
  apply run_when_ok in E. destruct (0 <? a); [|now subst d'].
  specialize (Hpool eq_refl). step_ok E H11 e11. step_ok E H12 d4. rewrite Hp in H12.
  assert (shielded_pool_balance d <= coins d) as Hle by (unfold coins; lia).
  rewrite wsub_small in H12 by lia. injection H12 as <-.
  pose proof (coins_set_pool (shielded_pool_balance d - a) d3) as Hset.
  assert (shielded_pool_balance d - a <= U128_MAX) as Hmax by (unfold U128_MAX; change (2 ^ 128) with 340282366920938463463374607431768211456 in Hb; lia).
  specialize (Hset Hmax). rewrite run_add_balance in E. injection E as <-. rewrite coins_add_balance; lia.
Qed.

Lemma coins_set_account_same addr a d : account_funds a = account_funds (account addr d) ->
  coins (db_after (set_account addr a) d) = coins d.
Proof. intros Ha. pose proof (coins_set_account addr a d). lia. Qed.

Lemma coins_set_account_sub addr a d n : account_funds a + n = account_funds (account addr d) ->
  coins (db_after (set_account addr a) d) + n = coins d.
Proof. intros Ha. pose proof (coins_set_account addr a d). lia. Qed.

Lemma coins_unjail h addr d d' : run (apply_unjail h addr) d = (Ok tt, d') -> coins d' = coins d.
Proof.
  unfold apply_unjail. intros E. step_ok E H1 e1. step_ok E H2 e2. step_ok E H3 e3. step_ok E H4 e4.
  assert (run (set_account addr (clear_jail (account addr d))) d = (Ok tt, d')) as E'.
  { destruct (_ <? _); [|exact E]. destruct (negb _); [exact E|done]. }
  rewrite run_set_account in E'. injection E' as <-. now apply coins_set_account_same.
Qed.

(** The pool balance is a row of its own. *)
Definition same_pool (d d' : Db) : Prop := d' !! (T_META, "shielded_pool") = d !! (T_META, "shielded_pool").
#[export] Instance same_pool_preorder : PreOrder same_pool.
Proof. split; [done|]. unfold same_pool. congruence. Qed.
#[export] Instance pool_step_set_account addr a : Steps same_pool (set_account addr a).
Proof. intros d. unfold same_pool. rewrite set_account_rows by done. now rewrite !decide_False by congruence. Qed.
#[export] Instance pool_step_put_slash r : Steps same_pool (put_slash r).
Proof. intros d. unfold same_pool, put_slash. now rewrite db_after_jput, lookup_insert_ne. Qed.
#[export] Instance pool_step_report h r e : Steps same_pool (apply_report h r e).
Proof. unfold apply_report. steps. Qed.
#[export] Instance pool_step_liveness h p q : Steps same_pool (record_liveness h p q).
Proof. unfold record_liveness, charge_missed, clear_producer. steps. Qed.
#[export] Instance pool_step_rewards l f : Steps same_pool (pay_rewards l f).
Proof. unfold pay_rewards, pay_share, pay_leader, credit. steps. Qed.
#[export] Instance pool_step_release h : Steps same_pool (release_unbonded h).
Proof. unfold release_unbonded, release_one. steps. Qed.

Lemma same_pool_balance d d' : same_pool d d' -> shielded_pool_balance d' = shielded_pool_balance d.
Proof. intros Hs. unfold shielded_pool_balance, meta_number. now rewrite Hs. Qed.

Lemma coins_report h r e d record d' : coins d < 2 ^ 99 ->
  run (apply_report h r e) d = (Ok record, d') -> coins d' + s_burned record = coins d.
Proof.
  intros Hb E. assert (same_pool d d') as Hp by (injection E as _ <-; apply steps).
  apply report_slashed in E as (_ & Hf & _); [unfold coins; rewrite (same_pool_balance d d' Hp); lia|].
  unfold coins in Hb. change (2 ^ 99) with 633825300114114700748351602688 in Hb.
  change (2 ^ 128) with 340282366920938463463374607431768211456. lia.
Qed.

Lemma coins_deploy tx sender h d d' : coins d + tx_amount tx < 2 ^ 128 ->
  run (apply_deploy tx sender h) d = (Ok tt, d') -> coins d' = coins d + tx_amount tx.
Proof.
  intros Hb. unfold apply_deploy. intros E. step_ok E H1 e1. step_ok E H2 e2. step_ok E H3 e3.
  step_ok E H4 d1. apply run_neutral in H4; [|apply _]. step_ok E H5 d2. apply run_neutral in H5; [|apply _].
  apply same_ledger_coins in H4, H5. apply run_when_ok in E.
  destruct (0 <? tx_amount tx) eqn:Ha; [|apply N.ltb_ge in Ha; subst d'; lia].
  rewrite run_add_balance in E. injection E as <-. rewrite coins_add_balance; lia.
Qed.

Lemma coins_pay_out c t d d' : coins d < 2 ^ 128 -> run (pay_out c t) d = (Ok tt, d') -> coins d' = coins d.
Proof.
  intros Hb. unfold pay_out. destruct t as [to n]. intros E. step_ok E H1 e1. step_ok E H2 e2.
  apply checked_sub in H2. pose proof (balance_le_coins c d) as Hle.
  rewrite wsub_small in E by lia. step_ok E H3 d1. rewrite run_add_balance in E. injection E as <-.
  assert (coins (db_after (set_account c (with_balance (balance (account c d) - n) (account c d))) d) + n = coins d)
    by (apply coins_set_account_sub; unfold account_funds, with_balance; cbn [balance staked unbonding]; lia).
  rewrite coins_add_balance; lia.
Qed.

Lemma coins_pay_outs c ts : forall d d', coins d < 2 ^ 128 ->
  run (for_each ts (pay_out c)) d = (Ok tt, d') -> coins d' = coins d.
Proof.
  induction ts as [|t ts IH]; intros d d' Hb E; cbn [for_each] in E; [now injection E as <-|].
  step_ok E H1 d1. apply (coins_pay_out c t) in H1; [|done]. apply IH in E; congruence.
Qed.

Lemma coins_settle_call tx sender c o d d' :
  coins d < 2 ^ 128 -> tx_amount tx <= balance (account (tx_to tx) d) ->
  run (settle_call tx sender c o) d = (Ok tt, d') -> coins d' = coins d.
Proof.
  intros Hb Hamount. unfold settle_call. destruct (negb (o_ok o)); intros E.
  - step_ok E H1 d1. apply run_neutral in E; [|apply _]. apply same_ledger_coins in E. rewrite E.
    apply run_when_ok in H1. destruct (0 <? tx_amount tx); [|now subst].
    step_ok H1 H2 e2. step_ok H1 H3 d2. rewrite run_add_balance in H1. injection H1 as <-.
    set (a := account (tx_to tx) d) in *. unfold sat_sub.
    assert (coins (db_after (set_account (tx_to tx) (with_balance (balance a - tx_amount tx) a)) d) + tx_amount tx = coins d)
      by (apply coins_set_account_sub; fold a; unfold account_funds, with_balance; cbn [balance staked unbonding]; lia).
    rewrite coins_add_balance; lia.
  - step_ok E H1 d1. fold (store_writes (tx_to tx) (o_writes o)) in H1. apply run_neutral in H1; [|apply _].
    apply same_ledger_coins in H1. step_ok E H2 d2. apply coins_pay_outs in H2; [|congruence].
    apply run_neutral in E; [|apply _]. apply same_ledger_coins in E. congruence.
Qed.

Lemma balance_add_balance addr n d : balance (account addr d) + n < 2 ^ 128 ->
  balance (account addr (db_after (add_balance addr n) d)) = balance (account addr d) + n.
Proof.
  intros Hb. change (db_after (add_balance addr n) d) with (run (add_balance addr n) d).2.
  unfold add_balance. runs. rewrite run_set_account. cbn [snd]. rewrite account_set_account, decide_True by done.
  cbn. now apply wadd_small.
Qed.

Lemma coins_call tx sender h d d' : coins d + tx_amount tx < 2 ^ 128 ->
  run (apply_call tx sender h) d = (Ok tt, d') -> coins d' = coins d + tx_amount tx.
Proof.
  intros Hb. unfold apply_call. intros E. step_ok E H1 e1. step_ok E H2 e2. step_ok E H3 e3. step_ok E H4 e4.
  step_ok E H5 e5. step_ok E H6 d1. step_ok E H7 e7. step_ok E H8 d2. apply run_neutral in H8; [|apply _].
  apply run_when_ok in H6.
  assert (coins d1 = coins d + tx_amount tx /\ tx_amount tx <= balance (account (tx_to tx) d1)) as [Hc Ha].
  { destruct (0 <? tx_amount tx) eqn:Hz; [|apply N.ltb_ge in Hz; subst d1; lia].
    rewrite run_add_balance in H6. injection H6 as <-. pose proof (balance_le_coins (tx_to tx) d).
    rewrite coins_add_balance, balance_add_balance by lia. lia. }
  apply coins_settle_call in E.
  - apply same_ledger_coins in H8. congruence.
  - apply same_ledger_coins in H8. rewrite H8. lia.
  - now rewrite (same_ledger_account d1 d2).
Qed.

Lemma coins_transfer tx sender from d d' :
  coins d < 2 ^ 128 ->
  account_funds from + tx_amount tx + tx_fee tx = account_funds (account sender d) ->
  run (apply_transfer tx sender from) d = (Ok tt, d') -> coins d' + tx_fee tx = coins d.
Proof.
  intros Hb Hf. unfold apply_transfer. pose proof (account_funds_le_coins sender d).
  destruct (String.eqb _ _); intros E.
  - rewrite run_set_account in E. injection E as <-. apply coins_set_account_sub.
    unfold account_funds, with_balance in *. cbn [balance staked unbonding] in *. rewrite wadd_small; lia.
  - step_ok E H1 d1. rewrite run_add_balance in E. injection E as <-.
    pose proof (coins_set_account_sub sender from d (tx_amount tx + tx_fee tx)) as Hs.
    rewrite coins_add_balance; lia.
Qed.

Lemma coins_stake tx sender from d d' :
  coins d < 2 ^ 128 -> account_funds from + tx_amount tx + tx_fee tx = account_funds (account sender d) ->
  run (set_account sender (with_staked (staked from +! tx_amount tx) from)) d = (Ok tt, d') ->
  coins d' + tx_fee tx = coins d.
Proof.
  intros Hb Hf E. rewrite run_set_account in E. injection E as <-. apply coins_set_account_sub.
  pose proof (account_funds_le_coins sender d).
  unfold account_funds, with_staked in *. cbn [balance staked unbonding] in *. rewrite wadd_small; lia.
Qed.

Lemma coins_unstake tx sender from h d d' :
  coins d < 2 ^ 128 -> account_funds from + tx_fee tx = account_funds (account sender d) ->
  run (apply_unstake tx sender from h) d = (Ok tt, d') -> coins d' + tx_fee tx = coins d.
Proof.
  intros Hb Hf. unfold apply_unstake. intros E. step_ok E H1 e1. apply checked_sub in H1.
  rewrite run_set_account in E. injection E as <-. apply coins_set_account_sub.
  pose proof (account_funds_le_coins sender d).
  unfold account_funds, with_unbonding, with_staked in *. cbn [balance staked unbonding] in *.
  rewrite sumN_app. cbn [sumN foldr u_amount]. rewrite wsub_small; lia.
Qed.

(** The sender's account once the transaction is paid for. *)
Definition debited (tx : Transaction) (from : Account) : Account :=
  with_nonce (nonce from +!! 1) (with_balance (balance from -! debit_of tx) from).

Lemma debited_funds tx from : debit_of tx <= balance from -> balance from < 2 ^ 128 ->
  account_funds (debited tx from) + debit_of tx = account_funds from.
Proof.
  intros Hd Hb. unfold debited, account_funds, with_nonce, with_balance. cbn [balance staked unbonding].
  rewrite wsub_small; lia.
Qed.

(** A saturating sum a balance can pay did not saturate. *)
Lemma sat_add_paid a b n : sat_add128 a b <= n -> n < U128_MAX -> sat_add128 a b = a + b.
Proof. unfold sat_add128. lia. Qed.

(** What the arm moves back onto the ledger: the debit less what the block collects. *)
Definition moved (tx : Transaction) : N :=
  match tx_kind tx with
  | Transfer | Stake | Shield | DeployContract | CallContract => tx_amount tx
  | _ => 0
  end.

Lemma debit_split tx n : debit_of tx <= n -> n < U128_MAX -> debit_of tx = collected_of tx + moved tx.
Proof.
  unfold debit_of, collected_of, moved. intros Hd Hn. destruct (tx_kind tx); rewrite ?N.add_0_r; try done;
    try (rewrite (sat_add_paid _ _ n) by done; lia).
Qed.

(** Burned coins are the confiscation of a report. *)
Definition burns (tx : Transaction) (burned : N) : Prop := tx_kind tx = ReportEquivocation \/ burned = 0.

Lemma coins_apply_shielded tx h d d' : coins d < 2 ^ 128 -> is_shielded (tx_kind tx) = true ->
  run (apply_shielded tx h) d = (Ok tt, d') -> coins d' = coins d + moved tx.
Proof.
  intros Hb Hk. unfold apply_shielded, moved. intros E. step_ok E H1 e1. step_ok E H2 e2. step_ok E H3 e3.
  destruct (tx_kind tx); try discriminate.
  - now apply coins_shield in E.
  - apply coins_spend in E; [lia|done].
  - apply coins_spend in E; [lia|done].
Qed.

Lemma coins_apply_kind tx sender h d d' :
  coins d < 2 ^ 99 -> debit_of tx <= balance (account sender d) ->
  run (apply_kind tx sender (debited tx (account sender d)) h) d = (Ok tt, d') ->
  exists burned, coins d' + collected_of tx + burned = coins d /\ burns tx burned.
Proof.
  intros Hb Hd E. set (a := account sender d) in *.
  assert (2 ^ 99 < 2 ^ 128) as H99 by reflexivity. pose proof (balance_le_coins sender d) as Hle. fold a in Hle.
  assert (coins d < U128_MAX) as Hmax by (unfold U128_MAX; rewrite pow_128 in *; change (2 ^ 99) with 633825300114114700748351602688 in *; lia).
  pose proof (debit_split tx (balance a) Hd ltac:(lia)) as Hsplit.
  pose proof (debited_funds tx a Hd ltac:(lia)) as Hf.
  pose proof (coins_set_account_sub sender (debited tx a) d (debit_of tx) Hf) as Hd1.
  set (d1 := db_after (set_account sender (debited tx a)) d) in *.
  enough (coins d' = coins d1 + moved tx \/ (exists burned, coins d' + burned = coins d1 + moved tx /\ burns tx burned)) as Hc.
  { destruct Hc as [Hc|(burned & Hc & Hk)]; [exists 0; split; [lia|now right]|exists burned; split; [lia|done]]. }
  assert (coins d1 + moved tx <= coins d) as Hd1' by lia.
  unfold apply_kind in E. unfold moved, collected_of in Hd1', Hsplit |- *.
  destruct (tx_kind tx) eqn:Hk.
  all: try (step_ok E H1 e1; fold d1 in E; first
    [ apply run_neutral in E; [|apply _]; apply same_ledger_coins in E; left; lia
    | step_ok E H2 d2; apply run_neutral in H2; [|apply _]; apply run_ret_ok in E as [_ ->];
      apply same_ledger_coins in H2; left; lia ]).
  - left. apply coins_transfer in E; fold a; lia.
  - left. apply coins_stake in E; fold a; lia.
  - left. apply coins_unstake in E; fold a; lia.
  - right. step_ok E H1 e1. fold d1 in E. step_ok E H2 e2. step_ok E H3 e3. step_ok E H4 d2.
    apply run_ret_ok in E as [_ ->]. apply coins_report in H4; [|lia].
    exists (s_burned a1). split; [lia|now left].
  - left. step_ok E H1 e1. fold d1 in E. apply coins_unjail in E. lia.
  - left. step_ok E H1 e1. fold d1 in E. apply coins_deploy in E; lia.
  - left. step_ok E H1 e1. fold d1 in E. apply coins_call in E; lia.
  - left. step_ok E H1 e1. fold d1 in E. apply coins_apply_shielded in E; [|lia|now rewrite Hk].
    unfold moved in E. now rewrite Hk in E.
  - left. step_ok E H1 e1. fold d1 in E. apply coins_apply_shielded in E; [|lia|now rewrite Hk].
    unfold moved in E. now rewrite Hk in E.
  - left. step_ok E H1 e1. fold d1 in E. apply coins_apply_shielded in E; [|lia|now rewrite Hk].
    unfold moved in E. now rewrite Hk in E.
Qed.

Lemma run_apply_tx tx h d fee d' : run (apply_tx tx h) d = (Ok fee, d') ->
  exists addr, sender tx = Some addr /\ precheck_kind d addr tx = Ok tt /\
    tx_nonce tx = nonce (account addr d) /\ debit_of tx <= balance (account addr d) /\
    fee = collected_of tx /\
    run (apply_kind tx addr (debited tx (account addr d)) h) d = (Ok tt, d').
Proof.
  unfold apply_tx. intros E. step_ok E H1 e1. step_ok E H2 e2. step_ok E H3 e3. step_ok E H4 e4.
  step_ok E H5 e5. step_ok E H6 e6. step_ok E H7 d1. apply run_ret_ok in E as [-> ->].
  exists a. apply checked_sub in H6. apply negb_false_iff, N.eqb_eq in H5.
  destruct (sender tx); [injection H1 as ->|discriminate]. done.
Qed.

(** C3: No transaction creates coins. A transaction that executes takes exactly
    the fee it hands to the block, and the confiscation of a slashing report,
    out of the ledger: liquid, staked and unbonding coins of all accounts and
    the shielded pool together fall by the fee plus what is burned, and only a
    report burns. *)
Theorem apply_tx_conserves_coins tx h d fee d' (Hsupply : coins d < 2 ^ 99)
    (Hrun : run (apply_tx tx h) d = (Ok fee, d')) :
  exists burned, coins d' + fee + burned = coins d /\ (tx_kind tx = ReportEquivocation \/ burned = 0).
Proof.
  apply run_apply_tx in Hrun as (addr & _ & _ & _ & Hd & -> & E). exact (coins_apply_kind tx addr h d d' Hsupply Hd E).
Qed.
End conservation.

(** ** Nonces and tombstones *)

Section evolution.
Context {HC : Crypto} {HF : Fr} {HK : Compression} {HP : ChainParams} {HJ : EvidenceJson} {HW : Wasm} {HG : Groth16}.

(** Nonces stand still and tombstones stay. *)
Definition evolved_account (a b : Account) : Prop :=
  nonce b = nonce a /\ (tombstoned (penalties a) = true -> tombstoned (penalties b) = true).
Definition evolved (d d' : Db) : Prop := forall addr, evolved_account (account addr d) (account addr d').

#[export] Instance evolved_preorder : PreOrder evolved.
Proof.
  split; [done|]. intros d1 d2 d3 H12 H23 addr. destruct (H12 addr), (H23 addr). split; [congruence|auto].
Qed.

Lemma evolved_set addr a d : evolved_account (account addr d) a -> evolved d (db_after (set_account addr a) d).
Proof. intros Ha b. rewrite account_set_account. destruct (decide (b = addr)) as [->|]; [exact Ha|done]. Qed.

Lemma same_ledger_evolved d d' : same_ledger d d' -> evolved d d'.
Proof. intros Hs addr. rewrite (same_ledger_account d d' addr Hs). done. Qed.
#[export] Instance evolved_neutral {A : Type} (m : M A) : Steps same_ledger m -> Steps evolved m | 10.
Proof. intros Hm d. apply same_ledger_evolved, Hm. Qed.

(** An operation that reads the trees and acts on what it read. *)
Lemma steps_read {A B : Type} (R : Db -> Db -> Prop) (f : Db -> A) (k : A -> M B) :
  (forall a, Journaled (k a)) -> (forall d, R d (db_after (k (f d)) d)) -> Steps R (mbind k (gets f)).
Proof. intros Hj Hk d. rewrite (db_after_bind (gets f) k). apply Hk. Qed.

Lemma after_bind {A B : Type} (R : Db -> Db -> Prop) `{!PreOrder R} (m : M A) (k : A -> M B) d :
  (forall a, Journaled (k a)) -> R d (db_after m d) -> (forall a, Steps R (k a)) -> R d (db_after (mbind k m) d).
Proof.
  intros Hj Hm Hk. rewrite (db_after_bind m k). destruct (res_after m d); [|done].
  etransitivity; [exact Hm|apply Hk].
Qed.
Lemma after_guard {A : Type} (R : Db -> Db -> Prop) `{!PreOrder R} c e (m : M A) d : Journaled m ->
  (c = false -> R d (db_after m d)) -> R d (db_after (fail_if c e ;; m) d).
Proof. intros Hj Hm. rewrite (db_after_bind (fail_if c e) (fun _ => m)). destruct c; [reflexivity|]. now apply Hm. Qed.

#[export] Instance evolved_add_balance addr n : Steps evolved (add_balance addr n).
Proof. unfold add_balance. apply steps_read; [intros; journaled|]. intros d. now apply evolved_set. Qed.

#[export] Instance evolved_pay_out c t : Steps evolved (pay_out c t).
Proof.
  unfold pay_out. destruct t as [to n]. apply steps_read; [intros; journaled|]. intros d.
  apply after_guard; [apply _|journaled|intros _]. apply after_bind; [apply _|intros; journaled|now apply evolved_set|].
  intros; apply _.
Qed.

#[export] Instance evolved_settle_call tx s c o : Steps evolved (settle_call tx s c o).
Proof.
  unfold settle_call. destruct (negb _).
  - apply steps_bind; [apply _|intros; journaled| |intros; apply _]. apply steps_when; [apply _|].
    apply steps_read; [intros; journaled|]. intros d.
    apply after_bind; [apply _|intros; journaled|now apply evolved_set|intros; apply _].
  - fold (store_writes (tx_to tx) (o_writes o)). steps.
Qed.

#[export] Instance evolved_apply_call tx s h : Steps evolved (apply_call tx s h).
Proof. unfold apply_call. steps. Qed.
#[export] Instance evolved_apply_deploy tx s h : Steps evolved (apply_deploy tx s h).
Proof. unfold apply_deploy. steps. Qed.

#[export] Instance evolved_set_pool n : Steps evolved (shielded_set_pool_balance n).
Proof.
  intros d addr. unfold account, shielded_set_pool_balance. rewrite db_after_jput, lookup_insert_ne by done. done.
Qed.
#[export] Instance evolved_apply_shielded tx h : Steps evolved (apply_shielded tx h).
Proof. unfold apply_shielded, apply_shield, apply_spend. steps. Qed.

#[export] Instance evolved_apply_unjail h addr : Steps evolved (apply_unjail h addr).
Proof.
  unfold apply_unjail. apply steps_read; [intros; journaled|]. intros d.
  do 3 (apply after_guard; [apply _|journaled|intros ?]).
  destruct (_ <? _); [destruct (negb _)|]; [now apply evolved_set|reflexivity|now apply evolved_set].
Qed.

Lemma evolved_burn pct a : evolved_account a (burn_account pct a).1.
Proof. split; [done|]. now intros _. Qed.

#[export] Instance evolved_apply_report h r e : Steps evolved (apply_report h r e).
Proof.
  unfold apply_report. apply steps_bind; [apply _|intros; journaled|apply _|intros offender].
  apply steps_read; [intros; journaled|]. intros d. apply after_guard; [apply _|journaled|intros _].
  revert d. apply steps_read; [intros; journaled|]. intros d. apply after_guard; [apply _|journaled|intros _].
  rewrite (db_after_bind (gets total_staked)) by (intros; journaled). cbn [res_after gets fst]. cbv beta iota.
  pose proof (evolved_burn (equivocation_burn_pct (staked (account offender d)) (total_staked d)) (account offender d)) as Hb.
  change (db_after (gets total_staked) d) with d.
  destruct (burn_account _ _) as [a' burned]. apply after_bind; [apply _|intros; journaled|now apply evolved_set|intros _].
  apply steps_bind; [apply _|intros; journaled| |intros; apply _].
  destruct (_ && _); [|apply _]. apply steps_read; [intros; journaled|]. intros d2.
  apply after_bind; [apply _|intros; journaled|now apply evolved_set|intros; apply _].
Qed.

Lemma evolved_from addr from b d : evolved_account from b ->
  evolved (db_after (set_account addr from) d) (db_after (set_account addr b) d).
Proof. intros Hb x. rewrite !account_set_account. destruct (decide (x = addr)); [exact Hb|done]. Qed.

(** The arms leave every nonce as the debit left it. *)
Lemma evolved_apply_kind tx addr from h d d' :
  run (apply_kind tx addr from h) d = (Ok tt, d') -> evolved (db_after (set_account addr from) d) d'.
Proof.
  unfold apply_kind. set (d1 := db_after (set_account addr from) d). intros E.
  assert (forall m : M unit, Steps evolved m -> run m d1 = (Ok tt, d') -> evolved d1 d') as Hm
    by (intros m Hm Em; injection Em as _ <-; apply Hm).
  destruct (tx_kind tx).
  all: try (step_ok E H1 e1; fold d1 in E; revert E; apply Hm; steps; fail).
  - unfold apply_transfer in E. destruct (String.eqb _ _).
    + rewrite run_set_account in E. injection E as <-. now apply evolved_from.
    + step_ok E H1 e1. fold d1 in E. revert E. apply Hm. apply _.
  - rewrite run_set_account in E. injection E as <-. now apply evolved_from.
  - unfold apply_unstake in E. step_ok E H1 e1. rewrite run_set_account in E. injection E as <-. now apply evolved_from.
Qed.

(** Every transaction executes at most once. Execution requires the sender's
    current nonce, advances that nonce by one and no other, so the same
    transaction is refused in the resulting state, at any height. *)
Theorem apply_tx_once tx h d fee d' (Hrun : run (apply_tx tx h) d = (Ok fee, d')) :
  exists addr, sender tx = Some addr /\ tx_nonce tx = nonce (account addr d) /\
    nonce (account addr d') = nonce (account addr d) +!! 1 /\
    (forall b, b <> addr -> nonce (account b d') = nonce (account b d)) /\
    forall h2, is_ok (run (apply_tx tx h2) d').1 = false.
Proof.
  apply run_apply_tx in Hrun as (addr & Hs & _ & Hn & _ & _ & E). apply evolved_apply_kind in E.
  assert (nonce (account addr d') = nonce (account addr d) +!! 1) as Hn'.
  { destruct (E addr) as [-> _]. now rewrite account_set_account, decide_True. }
  exists addr. repeat split; try done.
  - intros b Hb. destruct (E b) as [-> _]. now rewrite account_set_account, decide_False.
  - intros h2. destruct (run (apply_tx tx h2) d') as [[fee2|] d2] eqn:E2; [|done]. exfalso.
    apply run_apply_tx in E2 as (addr2 & Hs2 & _ & Hn2 & _). assert (addr2 = addr) as -> by congruence.
    rewrite Hn, Hn' in Hn2. unfold wadd, wrap in Hn2. rewrite pow_64 in Hn2.
    pose proof (N.mod_lt (nonce (account addr d) + 1) 18446744073709551616).
    destruct (N.lt_ge_cases (nonce (account addr d) + 1) 18446744073709551616); [rewrite N.mod_small in Hn2; lia|].
    destruct (N.eq_dec (nonce (account addr d)) 18446744073709551615) as [En|]; [|lia].
    rewrite En in Hn2. discriminate Hn2.
Qed.

(** ** Closing a block *)

#[export] Instance evolved_charge_missed h a : Steps evolved (charge_missed h a).
Proof.
  unfold charge_missed. apply steps_read; [intros; journaled|]. intros d.
  destruct (negb _).
  - apply evolved_set. destruct (_ && _); [|done]. unfold leak. now destruct (_ <? _).
  - destruct (_ && _); [|now apply evolved_set].
    destruct (jail _ _) as [a' burned] eqn:Ej. unfold jail in Ej. injection Ej as <- _.
    apply after_bind; [apply _|intros; journaled|now apply evolved_set|intros; apply _].
Qed.
#[export] Instance evolved_clear_producer h a : Steps evolved (clear_producer h a).
Proof.
  unfold clear_producer. apply steps_read; [intros; journaled|]. intros d.
  destruct (_ || _); [now apply evolved_set|reflexivity].
Qed.
#[export] Instance evolved_record_liveness h p q : Steps evolved (record_liveness h p q).
Proof. unfold record_liveness. steps. Qed.
#[export] Instance evolved_credit a n : Steps evolved (credit a n).
Proof. unfold credit. apply steps_read; [intros; journaled|]. intros d. now apply evolved_set. Qed.
#[export] Instance evolved_pay_leader a n r : Steps evolved (pay_leader a n r).
Proof. unfold pay_leader. apply steps_read; [intros; journaled|]. intros d. now apply evolved_set. Qed.
#[export] Instance evolved_pay_rewards l f : Steps evolved (pay_rewards l f).
Proof. unfold pay_rewards, pay_share. steps. Qed.

Lemma evolved_release h d : funds d < 2 ^ 128 -> evolved d (db_after (release_unbonded h) d).
Proof.
  intros Hf. destruct (release_all h (stake_accounts d) [] d) as (_ & _ & H3);
    [apply NoDup_stake_accounts|intros addr a Ha; now apply elem_of_stake_accounts in Ha|done|].
  intros addr. change (db_after (release_unbonded h) d) with (run (release_unbonded h) d).2.
  unfold release_unbonded. runs. rewrite H3. destruct (decide _); [|done]. unfold settle. now destruct (existsb _ _).
Qed.

(** ** What closing a block does to the ledger *)

(** Coins are only lost. *)
Definition shrinks (d d' : Db) : Prop := coins d < 2 ^ 128 -> coins d' <= coins d.
#[export] Instance shrinks_preorder : PreOrder shrinks.
Proof. split; [now intros d _|]. unfold shrinks. intros d1 d2 d3 H12 H23 Hb. specialize (H12 Hb). lia. Qed.
#[export] Instance shrinks_neutral {A : Type} (m : M A) : Steps same_ledger m -> Steps shrinks m | 10.
Proof. intros Hm d _. now rewrite (same_ledger_coins d (db_after m d)) by apply Hm. Qed.

Lemma shrinks_set addr a d : (coins d < 2 ^ 128 -> account_funds a <= account_funds (account addr d)) ->
  shrinks d (db_after (set_account addr a) d).
Proof. intros Ha Hb. specialize (Ha Hb). pose proof (coins_set_account addr a d). lia. Qed.

Lemma part_le a n m : n <= m -> 0 < m -> a *! n / m <= a.
Proof.
  intros Hn Hm. apply N.Div0.div_le_upper_bound. unfold wmul, wrap.
  pose proof (N.Div0.mod_le (a * n) (2 ^ 128)). nia.
Qed.

(** Cutting the stake by a part of it. *)
Lemma cut_stake_funds a b cut : account_funds a < 2 ^ 128 -> cut <= staked a ->
  balance b = balance a -> unbonding b = unbonding a -> staked b = staked a -! cut -> account_funds b <= account_funds a.
Proof.
  unfold account_funds. intros Ha Hc -> -> ->. rewrite wsub_small; lia.
Qed.

#[export] Instance shrinks_charge_missed h a : Steps shrinks (charge_missed h a).
Proof.
  unfold charge_missed. apply steps_read; [intros; journaled|]. intros d.
  pose proof (account_funds_le_coins a d) as Hle.
  set (b := with_penalties (note_miss (penalties (account a d))) (account a d)).
  assert (account_funds b = account_funds (account a d)) as Hb by done.
  destruct (negb _).
  - apply shrinks_set. intros Hc. destruct (_ && _); [|lia]. unfold leak. destruct (_ <? _); [|lia].
    rewrite <- Hb. apply (cut_stake_funds b _ (staked b *! INACTIVITY_LEAK_BPS / 10000)); [lia| |done..].
    now apply part_le.
  - destruct (_ && _); [|apply shrinks_set; lia].
    destruct (jail h b) as [a' burned] eqn:Ej. unfold jail in Ej. injection Ej as Ea Eb.
    apply after_bind; [apply _|intros; journaled| |intros; apply _].
    apply shrinks_set. intros Hc. rewrite <- Hb. subst a'.
    apply (cut_stake_funds b _ burned); [lia| |done|done|now subst burned].
    subst burned. destruct (_ <? _); [now apply part_le|apply N.le_0_l].
Qed.

#[export] Instance shrinks_clear_producer h a : Steps shrinks (clear_producer h a).
Proof.
  unfold clear_producer. apply steps_read; [intros; journaled|]. intros d.
  destruct (_ || _); [|reflexivity]. now apply shrinks_set.
Qed.
#[export] Instance shrinks_record_liveness h p q : Steps shrinks (record_liveness h p q).
Proof. unfold record_liveness. steps. Qed.

Lemma coins_release h d d' u : coins d < 2 ^ 128 -> run (release_unbonded h) d = (Ok u, d') -> coins d' = coins d.
Proof.
  intros Hb E. assert (same_pool d d') as Hp by (injection E as _ <-; apply pool_step_release).
  destruct (release_unbonded_funds d h) as (u2 & d2 & E2 & Hf); [unfold coins in Hb; lia|].
  rewrite E in E2. injection E2 as _ <-. unfold coins. now rewrite Hf, (same_pool_balance d d').
Qed.

Lemma coins_rewards l f d d' : coins d + f + BLOCK_REWARD < 2 ^ 100 ->
  run (pay_rewards l f) d = (Ok tt, d') -> coins d' = coins d + f + BLOCK_REWARD.
Proof.
  intros Hb E. assert (same_pool d d') as Hp by (injection E as _ <-; apply pool_step_rewards).
  destruct (pay_rewards_funds l f d) as [_ Hf]; [unfold coins in Hb; lia|]. rewrite E in Hf. cbn in Hf.
  unfold coins in *. rewrite Hf, (same_pool_balance d d') by done. lia.
Qed.

(** The end of a block adds its fees and the reward; liveness charges only burn. *)
Lemma coins_close h parent producer fees d d' :
  coins d + fees < 2 ^ 99 -> run (close_block h parent producer fees) d = (Ok tt, d') ->
  exists burned, coins d' + burned = coins d + fees + BLOCK_REWARD /\
    (h < slashing_activation -> burned = 0).
Proof.
  intros Hb. unfold close_block. intros E. assert (2 ^ 99 + BLOCK_REWARD < 2 ^ 100) as H100 by reflexivity.
  assert (2 ^ 100 < 2 ^ 128) as H128 by reflexivity.
  step_ok E H1 d1. apply coins_release in H1; [|lia].
  step_ok E H2 d2. step_ok E H3 d3. apply run_neutral in E; [|apply _]. apply same_ledger_coins in E.
  assert (coins d2 <= coins d1 /\ (h < slashing_activation -> coins d2 = coins d1)) as [Hs Hq].
  { split.
    - injection H2 as _ <-. apply shrinks_record_liveness. lia.
    - intros Hh. unfold record_liveness in H2. rewrite (proj2 (N.ltb_lt _ _) Hh) in H2. now injection H2 as <-. }
  apply coins_rewards in H3; [|lia]. exists (coins d1 - coins d2). split; [lia|]. intros Hh%Hq. lia.
Qed.

(** Tombstones outlive the end of a block. *)
Lemma evolved_close h parent producer fees d d' : funds d < 2 ^ 128 ->
  run (close_block h parent producer fees) d = (Ok tt, d') -> evolved d d'.
Proof.
  intros Hf. unfold close_block. intros E. step_ok E H1 d1.
  etransitivity; [apply (evolved_release h d Hf)|]. injection H1 as _ ->.
  revert d1 E. assert (Steps evolved (record_liveness h parent producer ;; pay_rewards producer fees ;; seal_shielded_root h)) as Hs
    by steps.
  intros d1 E. injection E as _ <-. apply Hs.
Qed.
End evolution.

(** A transfer whose guards pass executes. *)
Lemma transfer_executes {HC : Crypto} {HF : Fr} {HK : Compression} {HP : ChainParams} {HJ : EvidenceJson} {HW : Wasm}
    {HG : Groth16} tx h d addr :
  tx_kind tx = Transfer -> sender tx = Some addr -> tx_nonce tx = nonce (account addr d) ->
  debit_of tx <= balance (account addr d) -> exists d', run (apply_tx tx h) d = (Ok (collected_of tx), d').
Proof.
  intros Hk Hs Hn Hd. unfold apply_tx. rewrite Hs. cbn [ok_or]. runs.
  unfold precheck_kind. rewrite Hk. runs. rewrite Hn, N.eqb_refl. cbn [negb]. runs.
  rewrite (proj2 (N.ltb_ge _ _) Hd). runs. unfold apply_kind. rewrite Hk. unfold apply_transfer.
  rewrite run_if. destruct (String.eqb _ _).
  - rewrite run_set_account. runs. eauto.
  - runs. rewrite run_set_account. runs. rewrite run_add_balance. runs. eauto.
Qed.

(** ** A concrete chain *)

Module Exec_example.
Import Toy Toy_field.
#[export] Instance toy_compression : Compression := fun a b => f_add a (f_mul b b).
#[export] Instance toy_chain : ChainParams := {| slashing_activation := 0; shielded_activation := 1000 |}.
#[export] Instance toy_json : EvidenceJson :=
  {| evidence_to_json := fun _ => ""; evidence_from_json := fun _ => Err "bad evidence" |}.
#[export] Instance toy_wasm : Wasm := {|
  module_new _ := None; add_fuel _ := true; instantiate _ _ := Done (Some (Done 0%Z 1)) 1 |}.
#[export] Instance toy_groth : Groth16 := {|
  gProof := string; gKey := string; proof_deserialize := Some; key_deserialize := Some; key_serialize k := k;
  parameters_of _ := ""; verify_proof _ _ _ := true |}.

Definition key : Keypair := {| signing := "alice" |}.
Definition alice : string := Eval vm_compute in address key.
Definition wallet : Account := with_balance 5000 default_account.
Definition d0 : Db := {[ (T_ACCOUNTS, alice) := VAccount wallet ]}.
Definition pay : Transaction :=
  Build_Transaction Transfer (pubkey_hex key) "bob" 700 1000 0 CHAIN_ID None None "".

Lemma d0_supply : coins d0 < 2 ^ 99.
Proof. vm_compute. reflexivity. Qed.
Lemma pay_executes : exists d', run (apply_tx pay 1) d0 = (Ok 1000, d').
Proof. apply (transfer_executes pay 1 d0 alice); vm_compute; (reflexivity || discriminate). Qed.

Lemma apply_tx_conserves_coins_witness : exists d' burned,
  run (apply_tx pay 1) d0 = (Ok 1000, d') /\ coins d' + 1000 + burned = coins d0 /\
  (tx_kind pay = ReportEquivocation \/ burned = 0).
Proof.
  destruct pay_executes as [d' E].
  destruct (apply_tx_conserves_coins pay 1 d0 1000 d' d0_supply E) as (burned & Hc & Hk). eauto.
Defined.

Lemma apply_tx_once_witness : exists d' addr,
  run (apply_tx pay 1) d0 = (Ok 1000, d') /\ nonce (account addr d') = nonce (account addr d0) +!! 1 /\
  is_ok (run (apply_tx pay 2) d').1 = false.
Proof.
  destruct pay_executes as [d' E].
  destruct (apply_tx_once pay 1 d0 1000 d' E) as (addr & _ & _ & Hn & _ & Hr). exists d', addr. auto.
Defined.
End Exec_example.
