(* ===== verification/Chain.v ===== *)
(** chain.rs, the node: admission, block production, block import, genesis and
    reorganisation.

    A [Node] holds the store, the mempool, the vote tracker and the local flags;
    its mutexes and atomics are plain fields, an operation takes the node and
    returns the node it leaves.  The wall clock ([now_ms]), the best height
    heard from peers and the progress of a guard-file update are arguments.
    Events only observe the node and are in Publish.v; the gossip of the node's
    own transactions is left out. *)

From S2P Require Import Prelude Bytes Crypto Types Journal Store Smt SmtFacts Poseidon Shielded State StateFacts.
From S2P Require Import Fees Staking Tokens Slashing Votes Mempool Contracts SignGuard Circuit Exec.
From Stdlib Require String.

(* [src/src/chain.rs 219-250 Node] *)
Record Node := {
  n_store : Store;
  n_genesis : Genesis;
  n_producer : Keypair;
  n_mempool : Mempool;
  n_solo : bool;
  n_votes : VoteTracker;
  n_tip_seen_ms : N;
  n_serving_only : bool;
  n_sign_guard : option SignGuard
}.

Definition with_store (s : Store) (n : Node) : Node :=
  Build_Node s (n_genesis n) (n_producer n) (n_mempool n) (n_solo n) (n_votes n) (n_tip_seen_ms n)
    (n_serving_only n) (n_sign_guard n).
Definition with_mempool (p : Mempool) (n : Node) : Node :=
  Build_Node (n_store n) (n_genesis n) (n_producer n) p (n_solo n) (n_votes n) (n_tip_seen_ms n)
    (n_serving_only n) (n_sign_guard n).
Definition with_votes (t : VoteTracker) (n : Node) : Node :=
  Build_Node (n_store n) (n_genesis n) (n_producer n) (n_mempool n) (n_solo n) t (n_tip_seen_ms n)
    (n_serving_only n) (n_sign_guard n).
Definition with_guard (g : option SignGuard) (n : Node) : Node :=
  Build_Node (n_store n) (n_genesis n) (n_producer n) (n_mempool n) (n_solo n) (n_votes n) (n_tip_seen_ms n)
    (n_serving_only n) g.

(** The trees of the node. *)
Definition n_db (n : Node) : Db := db (n_store n).

(* [src/src/chain.rs 253-269 Node::new] *)
Definition node_new (store : Store) (genesis : Genesis) (producer : Keypair) (now : N) : Node := {|
  n_store := store; n_genesis := genesis; n_producer := producer; n_mempool := mempool_new; n_solo := true;
  n_votes := tracker_new; n_tip_seen_ms := wrap 64 now; n_serving_only := false; n_sign_guard := None |}.
(* [src/src/chain.rs 281-283 Node::attach_sign_guard] *)
Definition attach_sign_guard (g : SignGuard) (n : Node) : Node := with_guard (Some g) n.
(* [src/src/chain.rs 297-299 Node::set_serving_only] *)
Definition set_serving_only (on : bool) (n : Node) : Node :=
  Build_Node (n_store n) (n_genesis n) (n_producer n) (n_mempool n) (n_solo n) (n_votes n) (n_tip_seen_ms n)
    on (n_sign_guard n).
(* [src/src/chain.rs 345-347 Node::set_solo] *)
Definition set_solo (solo : bool) (n : Node) : Node :=
  Build_Node (n_store n) (n_genesis n) (n_producer n) (n_mempool n) solo (n_votes n) (n_tip_seen_ms n)
    (n_serving_only n) (n_sign_guard n).
(* [src/src/chain.rs 384-386 Node::mark_tip_seen] *)
Definition mark_tip_seen (now : N) (n : Node) : Node :=
  Build_Node (n_store n) (n_genesis n) (n_producer n) (n_mempool n) (n_solo n) (n_votes n) (wrap 64 now)
    (n_serving_only n) (n_sign_guard n).

(** An operation on the store, as a step of the node. *)
Definition on_store {A : Type} (m : M A) (n : Node) : result A * Node :=
  let '(r, s) := m (n_store n) in (r, with_store s n).

(** [map_err(f)] *)
Definition map_err {A : Type} (f : string -> string) (m : M A) : M A := fun s =>
  match m s with (Ok a, s') => (Ok a, s') | (Err e, s') => (Err (f e), s') end.
#[export] Instance journaled_map_err {A : Type} f (m : M A) : Journaled m -> Journaled (map_err f m).
Proof.
  intros Hm d. destruct (Hm d) as (r & ws & Hr).
  exists (match r with Ok a => Ok a | Err e => Err (f e) end), ws. intros fr. unfold map_err. rewrite Hr. now destruct r.
Qed.
#[global] Typeclasses Opaque map_err.

(* [src/src/chain.rs 302-304 Node::halted] *)
Definition halted (n : Node) : bool := bool_decide (is_Some (halt_reason (n_db n))).
(* [src/src/chain.rs 307-315 Node::halt] *)
Definition halt (reason : string) (n : Node) : Node :=
  let reason := if String.eqb (trim reason) "" then "operator halt" else trim reason in
  (on_store (set_halt reason) n).2.
(* [src/src/chain.rs 318-321 Node::resume] *)
Definition resume (n : Node) : Node := (on_store clear_halt n).2.

(** [tip_height().unwrap_or(0)] *)
Definition tip (d : Db) : N := match tip_height d with Some h => h | None => 0 end.

(* [src/src/chain.rs 329-333 Node::behind_tip] *)
Definition behind_tip (now : N) (n : Node) : bool :=
  N.max (g_block_time_ms (n_genesis n)) 1 *! 6 <? sat_sub now (n_tip_seen_ms n).

(** ["0".repeat(64)] *)
Definition zero_hash : string := dec_pad 64 0.

Section chain.
Context {HC : Crypto} {HF : Fr} {HK : Compression} {HP : ChainParams} {HJ : EvidenceJson} {HW : Wasm} {HG : Groth16}.

(* [src/src/chain.rs 354-356 Node::is_bonded_validator] *)
Definition is_bonded_validator (n : Node) : bool :=
  MIN_STAKE <=? staked (account (address (n_producer n)) (n_db n)).

(* [src/src/chain.rs 361-382 Node::current_attempt] *)
Definition current_attempt (now : N) (n : Node) : N :=
  let d := n_db n in
  let parent_ts := match (h ← tip_height d; block h d) with Some b => b_timestamp_ms b | None => 0 end in
  let slot := N.max (g_block_time_ms (n_genesis n)) 1 in
  if parent_ts =? 0 then
    let elapsed := wrap 64 (sat_sub now (n_tip_seen_ms n)) in
    N.min (elapsed / slot) MAX_LEADER_ATTEMPTS
  else
    let elapsed := wrap 64 (sat_sub now parent_ts) in
    sat_sub (elapsed / slot) 1.

(* [src/src/chain.rs 969-971 Node::validators] *)
Definition validators (n : Node) : list Validator := validator_set (n_db n).
(* [src/src/chain.rs 974-982 Node::next_leader] *)
Definition next_leader (now : N) (n : Node) : option string :=
  elect_leader_attempt (validators n) (tip (n_db n) +!! 1) (tip_hash (n_db n)) (current_attempt now n).

(* [src/src/chain.rs 1488-1490 Node::mempool_size] *)
Definition mempool_size (n : Node) : N := pool_len (n_mempool n).
(* [src/src/chain.rs 1480-1486 Node::pending_nonce] *)
Definition pending_nonce (addr : string) (n : Node) : N :=
  nonce (account addr (n_db n)) +!! pending_for addr (n_mempool n).
(* [src/src/chain.rs 1493-1495 Node::base_fee] *)
Definition node_base_fee (n : Node) : N := base_fee (n_db n).
(* [src/src/chain.rs 1497-1500 Node::fee_floor] *)
Definition fee_floor (n : Node) : N := required_fee (tip (n_db n) +!! 1) (base_fee (n_db n)).

(** ** Admission *)

(* [src/src/chain.rs 187-200 precheck_tx] *)
Definition precheck_tx (chain_id : N) (tx : Transaction) : result (Transaction * string * string) :=
  if negb (tx_chain_id tx =? chain_id) then Err "wrong chain id"
  else if tx_fee tx <? MIN_FEE then Err ("fee below minimum (" +:+ dec MIN_FEE +:+ " rai)")
  else if negb (verify_signature tx) then Err "invalid signature"
  else addr ← ok_or (sender tx) "invalid sender public key"; Ok (tx, tx_hash tx, addr).

(* [src/src/chain.rs 458-488 Node::precheck_batch] *)
Definition precheck_batch (cpus : option nat) (chain_id : N) (txs : list Transaction) :
    list (result (Transaction * string * string)) :=
  if Nat.ltb (length txs) VERIFY_PARALLEL_THRESHOLD then map (precheck_tx chain_id) txs
  else
    let chunk := div_ceil (length txs) (verify_threads cpus) in
    concat (map (map (precheck_tx chain_id)) (chunks (length txs) chunk txs)).

(** The rules of each kind. *)
(* [src/src/chain.rs 504-569! Node::admit] *)
Definition admit_kind (d : Db) (tx : Transaction) (sender : string) : result unit :=
  let next := tip d +!! 1 in
  match tx_kind tx with
  | Shield | PrivateTransfer | Unshield =>
    if next <? shielded_activation then Err "shielded pool is not active yet" else check_shielded_shape tx
  | Transfer => if negb (is_valid_address (tx_to tx)) then Err "invalid recipient address" else Ok tt
  | Stake => if tx_amount tx =? 0 then Err "stake amount must be positive" else Ok tt
  | Unstake =>
    if tx_amount tx =? 0 then Err "unstake amount must be positive"
    else if staked (account sender d) <? tx_amount tx then Err "not enough staked"
    else Ok tt
  | ReportEquivocation => _ ← check_report d next (tx_payload tx); Ok tt
  | Unjail =>
    let p := penalties (account sender d) in
    if tombstoned p then Err "tombstoned validators can never rejoin"
    else if jailed_until p =? 0 then Err "validator is not jailed"
    else if (next <? jailed_until p) && downtime_jail_enabled next then Err "jail period has not expired yet"
    else Ok tt
  | CreateToken => check_create d sender (tx_nonce tx) (tx_payload tx)
  | MintToken => check_mint d sender (tx_to tx) (tx_amount tx) (tx_payload tx)
  | TokenTransfer => check_token_transfer d sender (tx_to tx) (tx_amount tx) (tx_payload tx)
  | BurnToken => check_burn d sender (tx_amount tx) (tx_payload tx)
  | DeployContract => code ← decode_code (tx_payload tx); check_deploy code
  | CallContract => _ ← check_call d (tx_to tx); _ ← decode_args (tx_payload tx); Ok tt
  end.

(** What the sender must be able to pay. *)
(* [src/src/chain.rs 584-591! Node::admit] *)
Definition required_of (tx : Transaction) : N :=
  match tx_kind tx with
  | Unstake | ReportEquivocation | Unjail => tx_fee tx
  | CreateToken => sat_add128 (tx_fee tx) TOKEN_CREATION_FEE
  | MintToken | TokenTransfer | BurnToken => tx_fee tx
  | DeployContract => sat_add128 (sat_add128 (tx_fee tx) DEPLOY_FEE) (tx_amount tx)
  | _ => sat_add128 (tx_amount tx) (tx_fee tx)
  end.

(** The checks of [admit] that only read. *)
Definition admit_checks (d : Db) (pool : Mempool) (tx : Transaction) (hash sender : string) (floor : N) : result unit :=
  if tx_fee tx <? floor then Err ("fee below current base fee (" +:+ dec floor +:+ " rai)")
  else
    _ ← admit_kind d tx sender;
    let acct := account sender d in
    let pending := pending_for sender pool in
    if negb (tx_nonce tx =? nonce acct +!! pending) then
      Err ("bad nonce: expected " +:+ dec (nonce acct +!! pending))
    else if balance acct <? required_of tx then Err "insufficient balance"
    else if MAX_PENDING_PER_SENDER <=? pending then
      Err ("too many queued transactions for this account (max " +:+ dec MAX_PENDING_PER_SENDER +:+ ")")
    else if bool_decide (is_Some (tx_height hash d)) || Mempool.contains hash pool then Err "duplicate transaction"
    else Ok tt.

(* [src/src/chain.rs 493-619 Node::admit] *)
Definition admit_tx (d : Db) (pool : Mempool) (tx : Transaction) (hash sender : string) (floor : N) :
    result string * Mempool :=
  match admit_checks d pool tx hash sender floor with
  | Err e => (Err e, pool)
  | Ok _ =>
    if is_full pool then
      match evict_cheapest_below (tx_fee tx) pool with
      | (None, pool) => (Err "mempool full: raise the fee to take priority", pool)
      | (Some _, pool) => (Ok hash, pool_insert tx hash sender pool)
      end
    else (Ok hash, pool_insert tx hash sender pool)
  end.

Fixpoint admit_all (d : Db) (floor : N) (items : list (result (Transaction * string * string))) (pool : Mempool) :
    list (result string) * Mempool :=
  match items with
  | [] => ([], pool)
  | item :: rest =>
    let '(r, pool) := match item with
      | Err e => (Err e, pool)
      | Ok (tx, hash, sender) => admit_tx d pool tx hash sender floor
      end in
    let '(rs, pool) := admit_all d floor rest pool in
    (r :: rs, pool)
  end.

(* [src/src/chain.rs 434-455 Node::accept_batch] *)
Definition accept_batch (cpus : option nat) (txs : list Transaction) (n : Node) : list (result string) * Node :=
  match txs with
  | [] => ([], n)
  | _ =>
    match halt_reason (n_db n) with
    | Some reason => (map (fun _ => Err ("node halted: " +:+ reason)) txs, n)
    | None =>
      let '(rs, pool) := admit_all (n_db n) (fee_floor n)
        (precheck_batch cpus (g_chain_id (n_genesis n)) txs) (n_mempool n) in
      (rs, with_mempool pool n)
    end
  end.

(* [src/src/chain.rs 416-420 Node::accept_tx] *)
Definition accept_tx (tx : Transaction) (n : Node) : result string * Node :=
  let '(rs, n) := accept_batch None [tx] n in
  (match last rs with Some r => r | None => Err "empty batch" end, n).

(** ** Production *)

(** Runs a batch, each transaction behind its own savepoint; the transactions
    that executed and their fees. *)
(* [src/src/chain.rs 1049-1064! Node::produce_block] *)
Fixpoint run_batch (height : N) (batch : list Transaction) (included : list Transaction) (fees : N) (s : Store) :
    list Transaction * N * Store :=
  match batch with
  | [] => (included, fees, s)
  | tx :: rest =>
    match apply_tx tx height (begin_tx s) with
    | (Ok fee, s) => run_batch height rest (included ++ [tx]) (fees +! fee) (commit_tx s)
    | (Err _, s) => run_batch height rest included fees (abort_tx s)
    end
  end.

(** Whether the node may seal now: the early returns of [produce_block]. *)
(* [src/src/chain.rs 981-1034! Node::produce_block] *)
Definition may_produce (now best_peer : N) (n : Node) : result bool :=
  if n_serving_only n || halted n then Ok false
  else
    parent_height ← ok_or (tip_height (n_db n)) "chain not initialized";
    let height := parent_height +!! 1 in
    if negb (n_solo n) && (parent_height +!! PRODUCE_LAG_TOLERANCE <? best_peer) then Ok false
    else if match n_sign_guard n with Some g => negb (may_sign g height) | None => false end then Ok false
    else
      let set := validator_set (n_db n) in
      let elected := elect_leader_attempt set height (tip_hash (n_db n)) (current_attempt now n) in
      match elected with
      | Some leader =>
        if negb (String.eqb leader (address (n_producer n))) && negb (n_solo n) then Ok false
        else Ok (negb (match set with [] => true | _ => false end && negb (n_solo n)))
      | None => Ok (negb (match set with [] => true | _ => false end && negb (n_solo n)))
      end.

(** The block header before it is signed. *)
Definition unsigned_block (height : N) (parent_hash : string) (timestamp : N) (state_root producer pubkey : string)
    (txs : list Transaction) : Block := {|
  b_height := height; b_parent_hash := parent_hash; b_timestamp_ms := timestamp; b_state_root := state_root;
  b_txs_root := txs_root txs; b_producer := producer; b_producer_pubkey := pubkey; b_transactions := txs;
  b_signature := ""; b_hash := "" |}.
Definition with_block_signature (sig : string) (b : Block) : Block :=
  Build_Block (b_height b) (b_parent_hash b) (b_timestamp_ms b) (b_state_root b) (b_txs_root b) (b_producer b)
    (b_producer_pubkey b) (b_transactions b) sig (b_hash b).
Definition with_block_hash (h : string) (b : Block) : Block :=
  Build_Block (b_height b) (b_parent_hash b) (b_timestamp_ms b) (b_state_root b) (b_txs_root b) (b_producer b)
    (b_producer_pubkey b) (b_transactions b) (b_signature b) h.

(** [block.signature = ..; block.hash = ..] *)
Definition seal (k : Keypair) (b : Block) : Block :=
  let b := with_block_signature (sign_hex k (header_bytes b)) b in
  with_block_hash (compute_hash b) b.

(** Execution of a batch into a sealed, stored block. *)
(* [src/src/chain.rs 1048-1097! Node::produce_block] *)
Definition seal_batch (k : Keypair) (height : N) (parent_hash : string) (now : N) (batch : list Transaction)
    (s : Store) : Block * Store :=
  let producer_addr := address k in
  let '(included, fees, s) := run_batch height batch [] 0 (begin_block s) in
  let s := (close_block height parent_hash producer_addr fees s).2 in
  let b := seal k (unsigned_block height parent_hash now (state_root_at height (db s)) producer_addr (pubkey_hex k) included) in
  (b, commit_block (store_block b s).2).

(* [src/src/chain.rs 1251-1254 Node::checkpoint_state] *)
Definition checkpoint_state (height : N) (s : Store) : Store :=
  set_state_checkpoint height (state_root (db s)) s.

(** Replays the votes that waited for this height. *)
Definition replay_votes (height : N) (n : Node) : Node :=
  let '(_, t, s) := replay_pending (n_votes n) (n_store n) height in with_votes t (with_store s n).

(** [now] is the clock at each of the three readings: the slot attempt, the
    header's timestamp, the adoption of the tip. *)
(* [src/src/chain.rs 981-1109 Node::produce_block] *)
Definition produce_block (now now_ts now_seen best_peer : N) (io : Progress) (n : Node) : result (option Block) * Node :=
  match may_produce now best_peer n with
  | Err e => (Err e, n)
  | Ok false => (Ok None, n)
  | Ok true =>
    let height := tip (n_db n) +!! 1 in
    let '(batch, pool) := take_batch (N.to_nat MAX_TXS_PER_BLOCK) (n_mempool n) in
    let '(b, s) := seal_batch (n_producer n) height (tip_hash (n_db n)) now_ts batch (n_store n) in
    let guard := match n_sign_guard n with Some g => Some (record_height io height g) | None => None end in
    let n := mark_tip_seen now_seen (with_guard guard (with_mempool pool (with_store s n))) in
    let n := with_store (checkpoint_state height (n_store n)) n in
    (Ok (Some b), replay_votes height n)
  end.

(** ** Import *)

(** Some attempt up to [max_attempt] elects the producer. *)
Definition elected_within (set : list Validator) (height : N) (parent_hash producer : string) (max_attempt : N) : bool :=
  existsb (fun a => bool_decide (elect_leader_attempt set height parent_hash a = Some producer))
    (attempts (max_attempt + 1)).

Definition check_fees (chain_id height floor : N) (tx : Transaction) : result unit :=
  if negb (tx_chain_id tx =? chain_id) then Err "transaction from another chain"
  else if tx_fee tx <? MIN_FEE then Err "transaction fee below minimum"
  else if (FEE_MARKET_ACTIVATION_HEIGHT <=? height) && (tx_fee tx <? floor) then
    Err "transaction fee below block base fee"
  else Ok tt.
Fixpoint check_all_fees (chain_id height floor : N) (txs : list Transaction) : result unit :=
  match txs with
  | [] => Ok tt
  | tx :: rest => _ ← check_fees chain_id height floor tx; check_all_fees chain_id height floor rest
  end.

(** Everything [import_block_inner] checks before it executes; [Ok false] is a
    block the node already has. *)
(* [src/src/chain.rs 1134-1198! Node::import_block_inner] *)
Definition import_checks (cpus : option nat) (genesis : Genesis) (now now_window : N) (b : Block) (d : Db) : result bool :=
  tip ← ok_or (tip_height d) "chain not initialized";
  if b_height b <=? tip then Ok false
  else if negb (b_height b =? tip +!! 1) then
    Err ("out of order: have " +:+ dec tip +:+ ", got " +:+ dec (b_height b))
  else if negb (String.eqb (b_parent_hash b) (tip_hash d)) then Err "parent hash mismatch"
  else if negb (verify_producer b) then Err "bad producer signature"
  else if MAX_TXS_PER_BLOCK <? N.of_nat (length (b_transactions b)) then Err "too many transactions"
  else if negb (String.eqb (txs_root (b_transactions b)) (b_txs_root b)) then Err "txs root mismatch"
  else
    let parent_ts := match block tip d with Some p => b_timestamp_ms p | None => 0 end in
    _ ← check_timestamp parent_ts (b_timestamp_ms b) now;
    let set := validator_set d in
    let max_attempt := leader_attempt_window parent_ts (b_timestamp_ms b) now_window (g_block_time_ms genesis) in
    if negb (match set with [] => true | _ => false end) &&
       negb (elected_within set (b_height b) (b_parent_hash b) (b_producer b) max_attempt) then
      Err "producer is not an elected leader for this height"
    else
      _ ← check_all_fees (g_chain_id genesis) (b_height b) (required_fee (b_height b) (base_fee d)) (b_transactions b);
      if negb (verify_signatures cpus (b_transactions b)) then Err "invalid transaction signature"
      else Ok true.

(** One transaction of an imported block: any failure rejects the block. *)
Definition import_tx (height fees : N) (tx : Transaction) : M N :=
  fee ← map_err (fun e => "tx " +:+ String.substring 0 8 (tx_hash tx) +:+ " invalid: " +:+ e) (apply_tx tx height);
  mret (fees +! fee).

(** Execution, the state-root check and the block's rows. *)
(* [src/src/chain.rs 1200-1234! Node::import_block_inner] *)
Definition execute_block (b : Block) : M unit :=
  fees ← fold_m (import_tx (b_height b)) 0 (b_transactions b);
  close_block (b_height b) (b_parent_hash b) (b_producer b) fees ;;
  local_root ← gets (state_root_at (b_height b));
  fail_if (negb (String.eqb local_root (b_state_root b)))
    ("state root mismatch at #" +:+ dec (b_height b) +:+ ": local " +:+ local_root +:+ " peer " +:+ b_state_root b) ;;
  store_block b.

(** The clock readings of an import: the timestamp rule, the attempt window, the
    adoption of the tip. *)
Record Clock := { at_check : N; at_window : N; at_seen : N }.

(* [src/src/chain.rs 1134-1247 Node::import_block_inner] *)
Definition import_block_inner (cpus : option nat) (clock : Clock) (b : Block) (n : Node) : result bool * Node :=
  match import_checks cpus (n_genesis n) (at_check clock) (at_window clock) b (n_db n) with
  | Err e => (Err e, n)
  | Ok false => (Ok false, n)
  | Ok true =>
    match execute_block b (n_store n) with
    | (Err e, s) => (Err e, with_store s n)
    | (Ok _, s) =>
      let n := replay_votes (b_height b) (mark_tip_seen (at_seen clock) (with_store s n)) in
      let included : gset string := list_to_set (map tx_hash (b_transactions b)) in
      (Ok true, with_mempool (remove_hashes included (n_mempool n)) n)
    end
  end.

(* [src/src/chain.rs 1112-1132 Node::import_block] *)
Definition import_block (cpus : option nat) (clock : Clock) (b : Block) (n : Node) : result bool * Node :=
  match halt_reason (n_db n) with
  | Some reason => (Err ("node halted: " +:+ reason), n)
  | None =>
    match import_block_inner cpus clock b (with_store (begin_block (n_store n)) n) with
    | (Ok imported, n) => (Ok imported, with_store (checkpoint_state (b_height b) (commit_block (n_store n))) n)
    | (Err e, n) => (Err e, with_store (abort_block (n_store n)) n)
    end
  end.

(** ** Genesis and reorganisation *)

(** One allocation of the genesis file. *)
Definition allocate (a : GenesisAlloc) : M unit :=
  fail_if (negb (is_valid_address (ga_address a))) ("invalid genesis address " +:+ ga_address a) ;;
  acct ← gets (account (ga_address a));
  bal ← lift (parse_inaz (ga_balance a));
  let acct := with_balance (balance acct +! bal) acct in
  acct ← lift (match ga_stake a with
    | None => Ok acct
    | Some stake => st ← parse_inaz stake; Ok (with_staked (staked acct +! st) acct)
    end);
  set_account (ga_address a) acct.

(* [src/src/chain.rs 381-414 Node::init_genesis] *)
Definition init_genesis (g : Genesis) : M Block :=
  initialized ← gets is_initialized;
  fail_if initialized "chain already initialized" ;;
  for_each (g_alloc g) allocate ;;
  root ← gets state_root;
  let b := unsigned_block 0 zero_hash 0 root "genesis" "" [] in
  let b := with_block_hash (compute_hash b) b in
  put_block b ;;
  mret b.

(* [src/src/chain.rs 1262-1284 Node::startup_state_root_check] *)
Definition startup_state_root_check (s : Store) : result unit * Store :=
  let tip := tip (db s) in
  match state_checkpoint (db s) with
  | None => (Ok tt, checkpoint_state tip s)
  | Some (height, expected) =>
    if negb (height =? tip) then (Ok tt, checkpoint_state tip s)
    else
      let local := state_root (db s) in
      if negb (String.eqb local expected) then
        (Err ("state divergence at height " +:+ dec height +:+ ": last checkpoint was " +:+ expected +:+
              " but state on disk hashes to " +:+ local), s)
      else (Ok tt, s)
  end.

(** The part of a reset under the execution lock: the checks, the wipe, the pool. *)
(* [src/src/chain.rs 1287-1300! Node::reset_to_genesis] *)
Definition wipe_chain (peer_height : N) (n : Node) : result unit * Node :=
  let finalized := finalized_height (n_db n) in
  if peer_height <? finalized then
    (Err ("refusing reorg below finalized height " +:+ dec finalized +:+ " (peer at " +:+ dec peer_height +:+ ")"), n)
  else match check_reorg_depth (tip (n_db n)) peer_height with
  | Err e => (Err e, n)
  | Ok _ => (Ok tt, with_mempool (pool_clear (n_mempool n)) (with_store (reset_chain (n_store n)) n))
  end.
(** The part after the lock is dropped. *)
(* [src/src/chain.rs 1301-1303! Node::reset_to_genesis] *)
Definition regenerate (now : N) (n : Node) : result unit * Node :=
  match on_store (init_genesis (n_genesis n)) n with
  | (Err e, n) => (Err e, n)
  | (Ok _, n) => (Ok tt, mark_tip_seen now n)
  end.
(** A reset no other thread comes between; Threads has the two parts as steps of
    their own. *)
(* [src/src/chain.rs 1287-1304 Node::reset_to_genesis] *)
Definition reset_to_genesis (peer_height now : N) (n : Node) : result unit * Node :=
  match wipe_chain peer_height n with
  | (Err e, n) => (Err e, n)
  | (Ok _, n) => regenerate now n
  end.

(** ** The node's own transactions *)

(* [src/src/chain.rs 1505-1518 Node::detect_double_sign] *)
Definition detect_double_sign (incoming : Block) (d : Db) : option Evidence :=
  ours ← block (b_height incoming) d;
  if String.eqb (b_hash ours) (b_hash incoming) || negb (String.eqb (b_producer ours) (b_producer incoming)) then None
  else if negb (verify_producer incoming) || negb (verify_producer ours) then None
  else
    let evidence := EvBlock (from_block ours) (from_block incoming) in
    match ev_verify evidence with Ok _ => Some evidence | Err _ => None end.

(* [src/src/chain.rs 1427-1451 Node::submit_report] *)
Definition submit_report (e : Evidence) (n : Node) : result string * Node :=
  let height := tip (n_db n) +!! 1 in
  match check_report (n_db n) height (Some (encode e)) with
  | Err err => (Err err, n)
  | Ok _ =>
    let k := n_producer n in
    let tx := Build_Transaction ReportEquivocation (pubkey_hex k) (address k) 0 MIN_FEE
      (pending_nonce (address k) n) (g_chain_id (n_genesis n)) (Some (encode e)) None "" in
    accept_tx (with_signature (sign_hex k (signing_bytes tx)) tx) n
  end.

(* [src/src/chain.rs 1462-1501 Node::try_self_unjail] *)
Definition try_self_unjail (n : Node) : option string * Node :=
  let k := n_producer n in
  let p := penalties (account (address k) (n_db n)) in
  let height := tip (n_db n) +!! 1 in
  if tombstoned p || (jailed_until p =? 0) then (None, n)
  else if (height <? jailed_until p) && downtime_jail_enabled height then (None, n)
  else
    let tx := Build_Transaction Unjail (pubkey_hex k) (address k) 0 (N.max (fee_floor n) MIN_FEE)
      (pending_nonce (address k) n) (g_chain_id (n_genesis n)) None None "" in
    match accept_tx (with_signature (sign_hex k (canonical_signing_bytes tx)) tx) n with
    | (Ok hash, n) => (Some hash, n)
    | (Err _, n) => (None, n)
    end.

#[export] Instance journaled_import_tx h f tx : Journaled (import_tx h f tx).
Proof. unfold import_tx. journaled. Qed.
#[export] Instance journaled_execute_block b : Journaled (execute_block b).
Proof. unfold execute_block. journaled. Qed.
#[export] Instance journaled_allocate a : Journaled (allocate a).
Proof. unfold allocate. journaled. Qed.
#[export] Instance journaled_init_genesis g : Journaled (init_genesis g).
Proof. unfold init_genesis. journaled. Qed.
End chain.
#[global] Typeclasses Opaque import_tx execute_block allocate init_genesis.
