(* ===== verification/ChainFacts.v ===== *)
(** Theorems about the node: a rejected block leaves no trace, what a producer
    seals every importer reproduces, a block mints its reward and nothing else,
    tombstones outlive blocks, and the rules of admission and of time. *)

From S2P Require Import Prelude Bytes Crypto Types Journal Store Smt SmtFacts Poseidon Shielded State StateFacts.
From S2P Require Import Fees Staking StakingFacts Tokens Slashing SlashingFacts Votes Mempool MempoolFacts.
From S2P Require Import Contracts SignGuard Circuit Exec ExecFacts Chain.
From Stdlib Require String.

(** ** Import is atomic *)

Section import.
Context {HC : Crypto} {HF : Fr} {HK : Compression} {HP : ChainParams} {HJ : EvidenceJson} {HW : Wasm} {HG : Groth16}.

Lemma rollback_begin (s : Store) : rollback (begin s) = s.
Proof. destruct s as [d fr]. unfold begin, rollback. cbn. now rewrite restore_empty. Qed.

Lemma with_store_twice s1 s2 n : with_store s1 (with_store s2 n) = with_store s1 n.
Proof. reflexivity. Qed.
Lemma with_store_same n : with_store (n_store n) n = n.
Proof. now destruct n. Qed.

Lemma rejected_import cpus clock b n e n'
    (Hrejected : import_block cpus clock b n = (Err e, n')) : n' = n.
Proof.
  unfold import_block in Hrejected. destruct (halt_reason (n_db n)); [now injection Hrejected|].
  unfold import_block_inner in Hrejected. destruct (import_checks _ _ _ _ _ _) as [[]|err].
  - pose proof (journaled_rollback (execute_block b) (n_store n)) as Hr.
    cbn [n_store with_store] in Hrejected. unfold begin_block in Hrejected.
    destruct (execute_block b (begin (n_store n))) as [[|err] s]; [done|].
    injection Hrejected as _ <-. unfold abort_block. cbn [n_store with_store snd] in Hr |- *.
    now rewrite Hr, !with_store_twice, with_store_same.
  - done.
  - injection Hrejected as _ <-. unfold abort_block, begin_block. cbn [n_store with_store].
    now rewrite rollback_begin, with_store_twice, with_store_same.
Qed.

(** C1: A rejected block leaves no trace. Whenever [import_block] returns an
    error, at whatever point execution stopped, the node it leaves is the node
    before: the same trees, the same open savepoints, mempool, votes and flags. *)
Theorem import_rejection_restores cpus clock b n e n'
    (Hrejected : import_block cpus clock b n = (Err e, n')) : n' = n.
Proof. exact (rejected_import cpus clock b n e n' Hrejected). Qed.

(** ** Production and import agree *)

(** The trees a block's transactions leave, and their fees. *)
Definition execute_txs (height : N) (txs : list Transaction) (fees : N) : M N := fold_m (import_tx height) fees txs.

Lemma run_import_tx height fees tx d fee d' :
  run (apply_tx tx height) d = (Ok fee, d') -> run (import_tx height fees tx) d = (Ok (fees +! fee), d').
Proof.
  intros E. unfold import_tx. rewrite run_bind by (intros; journaled).
  assert (run (map_err (fun e => "tx " +:+ String.substring 0 8 (tx_hash tx) +:+ " invalid: " +:+ e) (apply_tx tx height)) d
    = (Ok fee, d')) as ->; [|now rewrite run_ret].
  unfold run, res_after, db_after, map_err in *. destruct (apply_tx tx height (mk d [])) as [[|] s].
  - exact E.
  - discriminate E.
Qed.

Lemma fold_m_app {A B : Type} (f : B -> A -> M B) l1 l2 b s :
  fold_m f b (l1 ++ l2) s = (fold_m f b l1 ≫= fun b' => fold_m f b' l2) s.
Proof.
  revert b s. induction l1 as [|a l1 IH]; intros b s; [done|].
  cbn [app fold_m]. unfold mbind, M_bind in *. destruct (f b a s) as [[b'|] s']; [apply IH|done].
Qed.

(** The batch loop keeps the savepoints it was given, and what it includes runs
    on import to the same trees and fees. *)
Lemma run_batch_replays height batch : forall included fees s,
  let '(txs, total, s') := run_batch height batch included fees s in
  exists tail, txs = included ++ tail /\
    run (execute_txs height tail fees) (db s) = (Ok total, db s').
Proof.
  induction batch as [|tx batch IH]; intros included fees s; cbn [run_batch].
  - exists []. split; [now rewrite app_nil_r|reflexivity].
  - pose proof (journaled_commit (apply_tx tx height) s) as [Hr Hd].
    pose proof (journaled_rollback (apply_tx tx height) s) as Hb.
    unfold begin_tx, commit_tx, abort_tx. destruct (apply_tx tx height (begin s)) as [[fee|e] s1] eqn:E; cbn in Hr, Hd, Hb.
    + specialize (IH (included ++ [tx]) (fees +! fee) (commit s1)).
      destruct (run_batch _ _ _ _ _) as [[txs total] s']. destruct IH as (tail & -> & Hrun).
      exists (tx :: tail). split; [now rewrite <- app_assoc|].
      unfold execute_txs. cbn [fold_m]. rewrite run_bind by (intros; journaled).
      rewrite (run_import_tx height fees tx (db s) fee (db (commit s1))); [exact Hrun|].
      rewrite run_res in Hr by apply _. rewrite run_db in Hd by apply _. unfold run. now rewrite <- Hr, Hd.
    + rewrite Hb. apply IH.
Qed.

(** ** The end of a block cannot fail *)

#[export] Instance total_smt_set dom key v : Total (smt_set dom key v).
Proof. intros d. exists tt. apply res_smt_set. Qed.
#[export] Instance total_set_account addr a : Total (set_account addr a).
Proof. unfold set_account. total. Qed.
#[export] Instance total_release_unbonded h : Total (release_unbonded h).
Proof. unfold release_unbonded, release_one. total. Qed.
#[export] Instance total_charge_missed h a : Total (charge_missed h a).
Proof. unfold charge_missed, put_slash. total. Qed.
#[export] Instance total_record_liveness h p q : Total (record_liveness h p q).
Proof. unfold record_liveness, clear_producer. total. Qed.
#[export] Instance total_pay_rewards l f : Total (pay_rewards l f).
Proof. unfold pay_rewards, pay_share, pay_leader, credit. total. Qed.
#[export] Instance total_seal_shielded_root h : Total (seal_shielded_root h).
Proof.
  unfold seal_shielded_root, shielded_seal_root, shielded_set_last_sealed_count, shielded_seal_into_state. total.
Qed.
#[export] Instance total_close_block h p q f : Total (close_block h p q f).
Proof. unfold close_block. total. Qed.
#[export] Instance total_store_block b : Total (store_block b).
Proof. unfold store_block, put_block, set_base_fee. total. Qed.

Lemma run_total (m : M unit) `{!Total m} d : run m d = (Ok tt, db_after m d).
Proof. unfold run. now destruct (total (m := m) d) as [[] ->]. Qed.

Lemma sealed_replays k height parent_hash now batch s :
  let '(b, s') := seal_batch k height parent_hash now batch s in
  run (execute_block b) (db s) = (Ok tt, db s').
Proof.
  unfold seal_batch. pose proof (run_batch_replays height batch [] 0 (begin_block s)) as Hb.
  destruct (run_batch _ _ _ _ _) as [[txs fees] s1]. destruct Hb as (tail & -> & Hrun). rewrite app_nil_l.
  cbv zeta. unfold execute_block. cbn [b_height b_transactions b_parent_hash b_producer b_state_root seal
    with_block_hash with_block_signature unsigned_block].
  change (db s) with (db (begin_block s)). rewrite run_bind by (intros; journaled).
  unfold execute_txs in Hrun. rewrite Hrun. rewrite run_bind by (intros; journaled).
  rewrite run_total by apply _. runs. rewrite run_db by apply _. rewrite String.eqb_refl. cbn [negb].
  rewrite run_total by apply _. unfold commit_block. now rewrite db_commit, !run_db by apply _.
Qed.

(** C8: Every node reproduces what a producer seals. Executing a sealed block on
    the trees the producer started from succeeds, its state-root check included,
    and ends in the producer's trees, although the producer also ran, and rolled
    back, transactions the block does not carry. *)
Theorem sealed_block_replays k height parent_hash now batch s :
  let '(b, s') := seal_batch k height parent_hash now batch s in
  run (execute_block b) (db s) = (Ok tt, db s').
Proof. apply sealed_replays. Qed.
End import.

(** ** Supply and tombstones, block by block *)

Section block.
Context {HC : Crypto} {HF : Fr} {HK : Compression} {HP : ChainParams} {HJ : EvidenceJson} {HW : Wasm} {HG : Groth16}.

Lemma import_tx_ok height fees tx d total d' : run (import_tx height fees tx) d = (Ok total, d') ->
  exists fee, run (apply_tx tx height) d = (Ok fee, d') /\ total = fees +! fee.
Proof.
  unfold import_tx. intros E. step_ok E H1 d1. apply run_ret_ok in E as [-> ->]. exists a. split; [|done].
  unfold run, res_after, db_after, map_err in *. destruct (apply_tx tx height (mk d [])) as [[|] s]; [exact H1|done].
Qed.

Definition no_reports (txs : list Transaction) : Prop := Forall (fun tx => tx_kind tx <> ReportEquivocation) txs.

Lemma coins_execute_txs height txs : forall fees d total d',
  coins d + fees < 2 ^ 99 -> run (execute_txs height txs fees) d = (Ok total, d') ->
  exists burned, coins d' + total + burned = coins d + fees /\ (no_reports txs -> burned = 0).
Proof.
  induction txs as [|tx txs IH]; intros fees d total d' Hb E; unfold execute_txs in E; cbn [fold_m] in E.
  - apply run_ret_ok in E as [-> ->]. exists 0. split; [lia|done].
  - step_ok E H1 d1. apply import_tx_ok in H1 as (fee & H1 & ->). fold (execute_txs height txs (fees +! fee)) in E.
    apply run_apply_tx in H1 as (addr & _ & _ & _ & Hd & -> & H1).
    apply coins_apply_kind in H1 as (burned1 & Hc & Hk); [|lia|done].
    assert (2 ^ 99 < 2 ^ 128) as H99 by reflexivity.
    rewrite wadd_small in E by lia. apply IH in E as (burned2 & Hc2 & Hn2); [|lia].
    exists (burned1 + burned2). split; [lia|]. intros Hn. inversion Hn as [|? ? Hx Hr]; subst.
    destruct Hk as [| ->]; [done|]. rewrite Hn2 by done. lia.
Qed.

Lemma evolved_execute_txs height txs : forall fees d total d',
  run (execute_txs height txs fees) d = (Ok total, d') ->
  forall addr, tombstoned (penalties (account addr d)) = true -> tombstoned (penalties (account addr d')) = true.
Proof.
  induction txs as [|tx txs IH]; intros fees d total d' E addr Ht; unfold execute_txs in E; cbn [fold_m] in E.
  - now apply run_ret_ok in E as [_ ->].
  - step_ok E H1 d1. apply import_tx_ok in H1 as (fee & H1 & ->). fold (execute_txs height txs (fees +! fee)) in E.
    apply run_apply_tx in H1 as (s & _ & _ & _ & _ & _ & H1). apply evolved_apply_kind in H1.
    apply (IH _ _ _ _ E). apply (H1 addr). rewrite account_set_account. now destruct (decide (addr = s)) as [->|].
Qed.

Lemma execute_block_ok b d d' : run (execute_block b) d = (Ok tt, d') ->
  exists d1 fees d2, run (execute_txs (b_height b) (b_transactions b) 0) d = (Ok fees, d1) /\
    run (close_block (b_height b) (b_parent_hash b) (b_producer b) fees) d1 = (Ok tt, d2) /\
    state_root_at (b_height b) d2 = b_state_root b /\ run (store_block b) d2 = (Ok tt, d').
Proof.
  unfold execute_block. intros E. step_ok E H1 d1. step_ok E H2 d2. step_ok E H3 e3. step_ok E H4 e4.
  apply negb_false_iff, String.eqb_eq in H4. exists d1, a, d2. done.
Qed.

(** A block mints exactly its reward. Executing a block leaves in the ledger
    what was there, plus [BLOCK_REWARD], less what slashing and leaks burned:
    fees are redistributed, never created. A block without reports below the
    slashing fork burns nothing. *)
Theorem block_mints_reward b d d' (Hsupply : coins d < 2 ^ 99) (Hrun : run (execute_block b) d = (Ok tt, d')) :
  exists burned, coins d' + burned = coins d + BLOCK_REWARD /\
    (no_reports (b_transactions b) /\ b_height b < slashing_activation -> burned = 0).
Proof.
  apply execute_block_ok in Hrun as (d1 & fees & d2 & Htxs & Hclose & _ & Hstore).
  apply coins_execute_txs in Htxs as (burned1 & Hc1 & Hn1); [|lia].
  apply coins_close in Hclose as (burned2 & Hc2 & Hn2); [|lia].
  apply run_neutral in Hstore; [|apply _]. apply same_ledger_coins in Hstore.
  exists (burned1 + burned2). split; [lia|]. intros [Hr Hh]. rewrite Hn1, Hn2 by done. lia.
Qed.

(** C23: A tombstone is permanent. An account tombstoned before a block is
    tombstoned after it, whatever the block contains, and is in no validator
    set of the resulting state, at any height. *)
Theorem tombstone_permanent b d d' addr (Hsupply : coins d < 2 ^ 99)
    (Hrun : run (execute_block b) d = (Ok tt, d')) (Htomb : tombstoned (penalties (account addr d)) = true) :
  tombstoned (penalties (account addr d')) = true /\
  forall height, Forall (fun v => v_address v <> addr) (validator_set_at d' height).
Proof.
  assert (tombstoned (penalties (account addr d')) = true) as Ht.
  { apply execute_block_ok in Hrun as (d1 & fees & d2 & Htxs & Hclose & _ & Hstore).
    pose proof (evolved_execute_txs _ _ _ _ _ _ Htxs addr Htomb) as Ht1.
    apply coins_execute_txs in Htxs as (burned1 & Hc1 & _); [|lia].
    assert (2 ^ 99 < 2 ^ 128) as H99 by reflexivity.
    apply evolved_close in Hclose; [|unfold coins in *; lia]. apply run_neutral in Hstore; [|apply _].
    rewrite (same_ledger_account d2 d') by done. now apply Hclose. }
  split; [exact Ht|]. intros height. apply Forall_forall. intros v Hv Hva.
  apply set_member, elem_of_active in Hv as (a & -> & _ & Ha). cbn in Hva. subst a.
  unfold is_active_validator in Ha. rewrite Ht in Ha. now destruct (is_validator (account addr d')).
Qed.
End block.

(** ** Rules of time *)

Section time.
Context {HC : Crypto} {HF : Fr} {HK : Compression} {HP : ChainParams} {HJ : EvidenceJson} {HW : Wasm} {HG : Groth16}.

(** The header clock. A timestamp is accepted exactly when it lies strictly
    after its parent's and at most twelve seconds ahead of the local clock. *)
Theorem timestamp_window parent_ts ts now
    (Hparent : parent_ts < U128_MAX) (Hnow : now + MAX_TIMESTAMP_DRIFT_MS <= U128_MAX) :
  check_timestamp parent_ts ts now = Ok tt <-> parent_ts < ts <= now + MAX_TIMESTAMP_DRIFT_MS.
Proof.
  unfold check_timestamp, sat_add128, MIN_TIMESTAMP_SPACING_MS. rewrite !N.min_l by lia.
  destruct (N.ltb_spec ts (parent_ts + 1)); [split; [done|lia]|].
  destruct (N.ltb_spec (now + MAX_TIMESTAMP_DRIFT_MS) ts); split; (done || lia).
Qed.

(** No bought rotation. The attempts a header may claim are at most 4096, and
    beyond the two of slack every one stands for a slot that really elapsed,
    both by the header's own time and by this node's clock. *)
Theorem leader_window_real_time parent_ts ts now slot_ms :
  let w := leader_attempt_window parent_ts ts now slot_ms in
  w <= MAX_LEADER_ATTEMPTS /\
  (w - LEADER_ATTEMPT_SLACK) * N.max slot_ms 1 <= N.min (ts - parent_ts) (now - parent_ts).
Proof.
  unfold leader_attempt_window, sat_sub, sat_add64, LEADER_ATTEMPT_SLACK. cbv zeta. split; [apply N.le_min_r|].
  set (slot := N.max slot_ms 1). set (m := N.min (ts - parent_ts) (now - parent_ts)).
  assert (wrap 64 m <= m) as Hw by apply N.Div0.mod_le.
  pose proof (N.Div0.mul_div_le (wrap 64 m) slot) as Hd.
  assert (0 < slot) by (subst slot; lia). revert Hd. generalize (wrap 64 m / slot). intros q Hd.
  assert (N.min (N.min (q + 2) U64_MAX) MAX_LEADER_ATTEMPTS - 2 <= q) by (unfold U64_MAX; lia). nia.
Qed.

(** An honest leader is never out of the window. If the producer read its
    slot attempt no later than the header's timestamp, and the importer's clock
    is not behind that reading, every attempt up to the rotation cap is inside
    the window the importer allows. *)
Theorem honest_attempt_allowed n now ts now' h p
    (Htip : tip_height (n_db n) = Some h) (Hparent : block h (n_db n) = Some p) (Hp : b_timestamp_ms p <> 0)
    (Hts : now <= ts) (Hnow : now <= now') (H64 : ts - b_timestamp_ms p < 2 ^ 64)
    (Hcap : current_attempt now n <= MAX_LEADER_ATTEMPTS) :
  current_attempt now n <= leader_attempt_window (b_timestamp_ms p) ts now' (g_block_time_ms (n_genesis n)).
Proof.
  unfold current_attempt in *. rewrite Htip in *. cbn [mbind option_bind] in *. rewrite Hparent in *.
  destruct (N.eqb_spec (b_timestamp_ms p) 0); [done|].
  unfold leader_attempt_window, sat_sub, sat_add64, LEADER_ATTEMPT_SLACK in *. cbv zeta.
  set (slot := N.max (g_block_time_ms (n_genesis n)) 1) in *. set (pt := b_timestamp_ms p) in *.
  assert (wrap 64 (now - pt) = now - pt) as Hw by (apply N.mod_small; lia). rewrite Hw in *.
  assert (wrap 64 (N.min (ts - pt) (now' - pt)) = N.min (ts - pt) (now' - pt)) as -> by (apply N.mod_small; lia).
  assert ((now - pt) / slot <= N.min (ts - pt) (now' - pt) / slot) as Hmono by (apply N.Div0.div_le_mono; lia).
  revert Hcap Hmono. generalize ((now - pt) / slot) (N.min (ts - pt) (now' - pt) / slot). intros a q Hcap Haq.
  unfold U64_MAX, MAX_LEADER_ATTEMPTS in *. lia.
Qed.

(** ** Signature checking *)

Lemma forallb_concat {A : Type} (p : A -> bool) ls : forallb (forallb p) ls = forallb p (concat ls).
Proof. induction ls as [|l ls IH]; [done|]. cbn. now rewrite forallb_app, IH. Qed.

Lemma concat_chunks {A : Type} n (l : list A) : (0 < n)%nat ->
  forall fuel, (length l <= fuel)%nat -> concat (chunks fuel n l) = l.
Proof.
  intros Hn fuel. revert l. induction fuel as [|f IH]; intros [|a l] Hl; cbn [length] in Hl; try done; try lia.
  cbn [chunks concat]. rewrite IH; [now rewrite firstn_skipn|]. rewrite length_skipn. cbn [length]. lia.
Qed.

Lemma chunk_size_pos cpus n : (VERIFY_PARALLEL_THRESHOLD <= n)%nat -> (0 < div_ceil n (verify_threads cpus))%nat.
Proof.
  intros Hn. unfold div_ceil, VERIFY_PARALLEL_THRESHOLD, verify_threads in *.
  set (t := Nat.max 1 _). assert (0 < t)%nat by (subst t; lia).
  apply Nat.div_str_pos. lia.
Qed.

Lemma precheck_batch_map cpus chain_id txs : precheck_batch cpus chain_id txs = map (precheck_tx chain_id) txs.
Proof.
  unfold precheck_batch. destruct (Nat.ltb_spec (length txs) VERIFY_PARALLEL_THRESHOLD) as [|Hl]; [done|].
  pose proof (chunk_size_pos cpus (length txs) Hl) as Hc. rewrite <- concat_map, concat_chunks by lia. done.
Qed.

(** Consensus does not depend on the number of cores. Splitting a block's or
    a batch's transactions over any number of verifier threads gives the verdict
    of checking every signature in turn, and the admission results in order. *)
Theorem verdict_independent_of_cores cpus chain_id txs :
  verify_signatures cpus txs = forallb verify_signature txs /\
  precheck_batch cpus chain_id txs = map (precheck_tx chain_id) txs.
Proof.
  split; [|apply precheck_batch_map]. unfold verify_signatures.
  destruct (Nat.ltb_spec (length txs) VERIFY_PARALLEL_THRESHOLD) as [|Hl]; [done|].
  pose proof (chunk_size_pos cpus (length txs) Hl) as Hc. now rewrite forallb_concat, concat_chunks by lia.
Qed.

(** ** Local safeguards *)

(** A halted node is frozen: after [halt] it seals nothing, imports nothing
    and admits nothing, and each of these leaves the node as it is; [resume]
    lifts the halt. *)
Theorem halt_freezes reason n :
  let n' := halt reason n in
  (forall now ts seen best io, produce_block now ts seen best io n' = (Ok None, n')) /\
  (forall cpus clock b, exists e, import_block cpus clock b n' = (Err e, n')) /\
  (forall cpus txs, exists e, accept_batch cpus txs n' = (map (fun _ => Err e) txs, n')) /\
  halted (resume n') = false.
Proof.
  intros n'. set (text := if String.eqb (trim reason) "" then "operator halt" else trim reason).
  assert (halt_reason (n_db n') = Some text) as Hr.
  { unfold n_db, n', halt, on_store, set_halt, jput, halt_reason. cbn. rewrite db_record, lookup_insert_eq. done. }
  assert (halted n' = true) as Hh by (unfold halted; rewrite Hr; reflexivity). repeat split.
  - intros. unfold produce_block, may_produce. rewrite Hh, orb_true_r. done.
  - intros. unfold import_block. rewrite Hr. eauto.
  - intros cpus [|tx txs]; [now exists ""|]. exists ("node halted: " +:+ text). unfold accept_batch. now rewrite Hr.
  - unfold halted, n_db, resume, on_store, clear_halt, jdel, halt_reason. cbn.
    now rewrite db_record, lookup_delete_eq.
Qed.

Lemma seal_batch_height k h parent ts batch s : b_height (seal_batch k h parent ts batch s).1 = h.
Proof. unfold seal_batch. now destruct (run_batch _ _ _ _ _) as [[? ?] ?]. Qed.

Lemma replay_votes_guard h n : n_sign_guard (replay_votes h n) = n_sign_guard n.
Proof. unfold replay_votes. now destruct (replay_pending _ _ _) as [[? ?] ?]. Qed.

(** With a guard attached, the heights a node seals strictly increase: every
    block it seals is above all heights the guard has recorded, and the guard
    left behind records that block's height, so no second block of that height
    can follow, even from a rewound store. *)
Theorem guarded_heights_increase now ts seen best io n b n' g
    (Hguard : n_sign_guard n = Some g) (Hsealed : produce_block now ts seen best io n = (Ok (Some b), n')) :
  highest_signed g < b_height b /\
  exists g', n_sign_guard n' = Some g' /\ highest_signed g' = b_height b /\ may_sign g' (b_height b) = false.
Proof.
  unfold produce_block in Hsealed. destruct (may_produce now best n) as [[]|] eqn:Hmay; [|done|done].
  assert (may_sign g (tip (n_db n) +!! 1) = true) as Hs.
  { unfold may_produce in Hmay. destruct (_ || _); [done|]. unfold tip.
    destruct (tip_height (n_db n)) as [h|]; [|done]. cbn [ok_or mbind result_bind] in Hmay.
    destruct (_ && _); [done|]. rewrite Hguard in Hmay. now destruct (may_sign g (h +!! 1)). }
  destruct (take_batch _ _) as [batch pool].
  pose proof (seal_batch_height (n_producer n) (tip (n_db n) +!! 1) (tip_hash (n_db n)) ts batch (n_store n)) as Hb.
  destruct (seal_batch _ _ _ _ _ _) as [b2 s]. cbn [fst] in Hb. injection Hsealed as -> <-. rewrite Hb.
  rewrite replay_votes_guard. cbn [n_sign_guard with_store with_guard with_mempool mark_tip_seen].
  unfold may_sign in Hs. apply N.ltb_lt in Hs. split; [exact Hs|]. rewrite Hguard. eexists. split; [done|].
  unfold record_height. destruct (N.leb_spec (tip (n_db n) +!! 1) (highest g)); [lia|].
  unfold may_sign, highest_signed. cbn. split; [done|]. apply N.ltb_irrefl.
Qed.
End time.

(** ** A node that seals *)

Module Node_example.
Import Toy Toy_field Exec_example.

Definition genesis : Genesis := default_devnet alice.
Definition validator : Account := with_staked MIN_STAKE default_account.
Definition mallory : Account :=
  with_penalties (Build_Penalties TOMBSTONE_HEIGHT true 0 0 0 0 true 0) (with_staked MIN_STAKE default_account).
Definition parent : Block := unsigned_block 4 zero_hash 1000 "" "genesis" "" [].
Definition d0 : Db := {[ (T_ACCOUNTS, "mallory") := VAccount mallory; (T_META, "tip_height") := u64_row 4;
                         (T_META, "tip_hash") := VBytes zero_hash; (T_BLOCKS, height_key 4) := VBlock parent ]}.
Definition node : Node :=
  attach_sign_guard {| sg_address := alice; highest := 4; sg_file := None |} (node_new (mk d0 []) genesis key 0).
Definition fresh : Node := node_new empty_store genesis key 0.

Lemma import_rejection_restores_witness : exists e n',
  import_block None {| at_check := 1; at_window := 1; at_seen := 1 |} parent fresh = (Err e, n') /\ n' = fresh.
Proof.
  eexists _, _. assert (import_block None {| at_check := 1; at_window := 1; at_seen := 1 |} parent fresh
    = (Err "chain not initialized", fresh)) as E by reflexivity.
  split; [exact E|]. exact (import_rejection_restores None _ parent fresh _ fresh E).
Defined.

(** An empty block on [d0]. *)
Definition sealed : Block * Store := seal_batch key 5 zero_hash 2000 [] (mk d0 []).
Lemma sealed_executes : run (execute_block sealed.1) d0 = (Ok tt, db sealed.2).
Proof.
  pose proof (sealed_replays key 5 zero_hash 2000 [] (mk d0 [])) as Hs. fold sealed in Hs. now destruct sealed.
Qed.
Lemma sealed_coins : coins d0 < 2 ^ 99.
Proof. vm_compute. reflexivity. Qed.

Lemma block_mints_reward_witness : exists burned,
  coins (db sealed.2) + burned = coins d0 + BLOCK_REWARD /\
  (no_reports (b_transactions sealed.1) /\ b_height sealed.1 < slashing_activation -> burned = 0).
Proof. exact (block_mints_reward sealed.1 d0 (db sealed.2) sealed_coins sealed_executes). Defined.

Lemma tombstone_permanent_witness :
  tombstoned (penalties (account "mallory" (db sealed.2))) = true /\
  forall height, Forall (fun v => v_address v <> "mallory") (validator_set_at (db sealed.2) height).
Proof. apply (tombstone_permanent sealed.1 d0 (db sealed.2) "mallory" sealed_coins sealed_executes). reflexivity. Defined.

Lemma timestamp_window_witness :
  check_timestamp 1000 1400 1200 = Ok tt <-> 1000 < 1400 <= 1200 + MAX_TIMESTAMP_DRIFT_MS.
Proof. apply (timestamp_window 1000 1400 1200); vm_compute; (reflexivity || discriminate). Defined.

Lemma honest_attempt_allowed_witness :
  current_attempt 3000 node = 4 /\ current_attempt 3000 node <= leader_attempt_window 1000 3001 3100 400.
Proof.
  split; [vm_compute; reflexivity|].
  apply (honest_attempt_allowed node 3000 3001 3100 4 parent); vm_compute; (reflexivity || discriminate).
Defined.

Lemma node_may_produce : may_produce 3000 0 node = Ok true.
Proof. vm_compute. reflexivity. Qed.

Lemma node_seals : exists b n', produce_block 3000 3001 3002 0 Not_created node = (Ok (Some b), n').
Proof.
  unfold produce_block. rewrite node_may_produce. destruct (take_batch _ _) as [batch pool].
  destruct (seal_batch _ _ _ _ _ _) as [b s]. eauto.
Qed.

Lemma guarded_heights_increase_witness : exists b n' g',
  produce_block 3000 3001 3002 0 Not_created node = (Ok (Some b), n') /\ 4 < b_height b /\
  n_sign_guard n' = Some g' /\ may_sign g' (b_height b) = false.
Proof.
  destruct node_seals as (b & n' & E).
  destruct (guarded_heights_increase 3000 3001 3002 0 Not_created node b n' _ eq_refl E) as (Hh & g' & Hg & _ & Hm).
  exists b, n', g'. auto.
Defined.
End Node_example.
