(* ===== verification/Mirror.v ===== *)
(** The state root and the tables.

    Every consensus row has a leaf in the sparse Merkle tree, and the code keeps
    the two in step by hand: each setter of state.rs writes the row and then the
    leaf.  [follows us d d'] says that an operation performed exactly the leaf
    updates [us] and left in the tables exactly what these updates announce;
    every operation of the node, up to the execution of a block and the genesis,
    follows some list of updates.  Hence the root of a state is the root of its
    rows, and a rebuild of the tree from the tables finds the same root. *)

From S2P Require Import Prelude Bytes Crypto Types Journal Store Smt SmtFacts Poseidon Shielded State StateFacts.
From S2P Require Import Fees Staking Tokens Slashing Contracts Circuit Exec ExecFacts Chain ChainFacts.

(** ** Updates and the values they leave *)

Abbreviation dkey := (string * string)%type.

(** The value of a leaf after some updates, from the value before. *)
Definition set_value (k : dkey) (v : option string) (u : update) : option string :=
  if decide (u.1 = k) then u.2 else v.
Definition value_after (us : list update) (k : dkey) (v : option string) : option string := foldl (set_value k) v us.

Lemma value_after_app us1 us2 k v : value_after (us1 ++ us2) k v = value_after us2 k (value_after us1 k v).
Proof. unfold value_after. apply foldl_app. Qed.

Lemma value_after_cons u us k v : value_after (u :: us) k v = value_after us k (set_value k v u).
Proof. reflexivity. Qed.

(** An update list touches a key, or leaves its value alone. *)
Lemma value_after_untouched us k v : k ∉ us.*1 -> value_after us k v = v.
Proof.
  revert v. induction us as [|u us IH]; intros v Hk; [done|]. rewrite value_after_cons.
  rewrite fmap_cons, not_elem_of_cons in Hk. destruct Hk as [Hu Hk]. rewrite IH by done.
  unfold set_value. now rewrite decide_False by congruence.
Qed.

Lemma value_after_touched us k v1 v2 : k ∈ us.*1 -> value_after us k v1 = value_after us k v2.
Proof.
  revert v1 v2. induction us as [|u us IH]; intros v1 v2 Hk; [now apply elem_of_nil in Hk|].
  rewrite !value_after_cons. unfold set_value.
  destruct (decide (u.1 = k)) as [E|E]; [done|]. apply IH.
  rewrite fmap_cons, elem_of_cons in Hk. destruct Hk; [congruence|done].
Qed.

Lemma value_after_some us k v : Forall (fun u => is_Some u.2) us -> is_Some v -> is_Some (value_after us k v).
Proof.
  intros Hu. revert v. induction Hu as [|u us Hu _ IH]; intros v Hv; [done|]. rewrite value_after_cons. apply IH.
  unfold set_value. now case_decide.
Qed.

Section mirror.
Context {HC : Crypto} {HL : CryptoLaws}.

Definition dpath (k : dkey) : N := path_of (leaf_key k.1 k.2).
Definition dleaf (k : dkey) (v : option string) : string := leaf_hash (leaf_key k.1 k.2) v.

Lemma set_leaf_dkey f (u : update) p :
  set_leaf f u p = if decide (p = dpath u.1) then dleaf u.1 u.2 else f p.
Proof. destruct u as [[dom key] v]. reflexivity. Qed.

Lemma set_leaves_ext (f g : N -> string) us p : f p = g p -> foldl set_leaf f us p = foldl set_leaf g us p.
Proof.
  revert f g. induction us as [|u us IH]; intros f g E; [done|]. cbn [foldl]. apply IH.
  rewrite !set_leaf_dkey. now case_decide.
Qed.

(** No two keys share a leaf: their hashes differ in the first 128 bits. *)
Definition separated (ks : list dkey) : Prop :=
  forall k1 k2, k1 ∈ ks -> k2 ∈ ks -> dpath k1 = dpath k2 -> k1 = k2.

(** The leaf a list of updates leaves at the path of a key. *)
Lemma leaf_after us k f v (ks : list dkey) :
  separated ks -> us.*1 ⊆ ks -> k ∈ ks -> f (dpath k) = dleaf k v ->
  foldl set_leaf f us (dpath k) = dleaf k (value_after us k v).
Proof.
  intros Hs. revert f v. induction us as [|u us IH]; intros f v Hu Hk Hf; [done|].
  cbn [foldl]. rewrite value_after_cons.
  assert (u.1 ∈ ks /\ us.*1 ⊆ ks) as [Hu1 Hus].
  { split; [apply Hu; left|]. intros x Hx. apply Hu. rewrite fmap_cons. now right. }
  apply IH; [done|done|]. rewrite set_leaf_dkey. unfold set_value.
  destruct (decide (dpath k = dpath u.1)) as [E|E].
  - apply (Hs k u.1 Hk Hu1) in E. now rewrite <- E, decide_True.
  - rewrite decide_False; [done|]. intros E2. apply E. now rewrite E2.
Qed.

Lemma leaf_elsewhere us f p : (forall k, k ∈ us.*1 -> p <> dpath k) -> foldl set_leaf f us p = f p.
Proof.
  revert f. induction us as [|u us IH]; intros f Hp; [done|]. cbn [foldl]. rewrite IH.
  - rewrite set_leaf_dkey. rewrite decide_False; [done|]. apply Hp. rewrite fmap_cons. left.
  - intros k Hk. apply Hp. rewrite fmap_cons. now right.
Qed.

Lemma dleaf_None k : dleaf k None = empty_at DEPTH.
Proof. reflexivity. Qed.

(** The leaves of an update list are determined by the values it leaves. *)
Lemma leaves_of_values us1 us2 : separated (us1.*1 ++ us2.*1) ->
  (forall k, value_after us1 k None = value_after us2 k None) ->
  forall p, leaves_of us1 p = leaves_of us2 p.
Proof.
  intros Hs Hv p. unfold leaves_of.
  destruct (decide (Exists (fun k => p = dpath k) (us1.*1 ++ us2.*1))) as [Hex|Hno].
  - apply Exists_exists in Hex as (k & Hk & ->).
    rewrite !(leaf_after _ k _ None (us1.*1 ++ us2.*1)); rewrite ?dleaf_None; try done.
    + now rewrite Hv.
    + intros x Hx. apply elem_of_app. now right.
    + intros x Hx. apply elem_of_app. now left.
  - rewrite !leaf_elsewhere; [done|..]; intros k Hk ->; apply Hno, Exists_exists; exists k; (split; [|done]);
      apply elem_of_app; auto.
Qed.

(** ** Rows and leaves *)

Definition domain_tree (domain : string) : option TreeId :=
  if String.eqb domain "acct" then Some T_ACCOUNTS
  else if String.eqb domain "token" then Some T_TOKENS
  else if String.eqb domain "tokenbal" then Some T_TOKEN_BALANCES
  else if String.eqb domain "contract" then Some T_CONTRACTS
  else if String.eqb domain "cstorage" then Some T_CONTRACT_STORAGE
  else None.

(** The text a row puts into its leaf. *)
Definition row_leaf (t : TreeId) (v : value) : option string :=
  match t with
  | T_ACCOUNTS => account_leaf <$> as_account v
  | T_TOKENS => token_leaf <$> as_token v
  | T_CONTRACTS => contract_leaf <$> as_contract v
  | T_TOKEN_BALANCES | T_CONTRACT_STORAGE => as_bytes v
  | _ => None
  end.

Lemma merkle_leaf_value_row domain key d :
  merkle_leaf_value domain key d = (t ← domain_tree domain; v ← d !! (t, key); row_leaf t v).
Proof.
  unfold merkle_leaf_value, domain_tree.
  repeat (destruct (String.eqb domain _); [cbn; now destruct (d !! _) as [[]|]|]). done.
Qed.

Lemma domain_tree_inj dom1 dom2 t : domain_tree dom1 = Some t -> domain_tree dom2 = Some t -> dom1 = dom2.
Proof.
  unfold domain_tree. intros H1 H2.
  repeat match goal with H : context [String.eqb ?a ?b] |- _ => destruct (String.eqb_spec a b) end; congruence.
Qed.

Lemma domain_tree_not_smt dom t : domain_tree dom = Some t -> t <> T_SMT.
Proof. unfold domain_tree. intros H. repeat case_match; congruence. Qed.

(** Trees whose rows have leaves. *)
Definition leaf_tree (t : TreeId) : Prop := exists dom, domain_tree dom = Some t.
Definition mirrored_trees (t : TreeId) : Prop := t = T_SMT \/ leaf_tree t.

(** [follows us d d'], see the head of the file; it also keeps the tree
    consistent. *)
Record follows (us : list update) (d d' : Db) : Prop := {
  follows_tree : consistent d ->
    consistent d' /\ forall p, p < 2 ^ 128 -> leaf_at d' p = foldl set_leaf (leaf_at d) us p;
  follows_rows dom key : is_Some (domain_tree dom) ->
    merkle_leaf_value dom key d' = value_after us (dom, key) (merkle_leaf_value dom key d)
}.
Definition mirrors (d d' : Db) : Prop := exists us, follows us d d'.

Lemma follows_app us1 us2 d1 d2 d3 : follows us1 d1 d2 -> follows us2 d2 d3 -> follows (us1 ++ us2) d1 d3.
Proof.
  intros [Ht1 Hr1] [Ht2 Hr2]. split.
  - intros Hc. apply Ht1 in Hc as [Hc Hl1]. apply Ht2 in Hc as [Hc Hl2]. split; [done|].
    intros p Hp. rewrite Hl2, foldl_app by done. apply set_leaves_ext. now apply Hl1.
  - intros dom key Hd. rewrite Hr2, Hr1, value_after_app by done. done.
Qed.

Lemma node_same d d' depth q : same_on (fun t => t = T_SMT) d d' -> node d' depth q = node d depth q.
Proof. intros Hs. unfold node, get_node. now rewrite Hs. Qed.
Lemma consistent_same d d' : same_on (fun t => t = T_SMT) d d' -> consistent d -> consistent d'.
Proof. intros Hs Hc depth q Hd Hq. unfold consistent_at. rewrite !(node_same d d') by done. now apply Hc. Qed.

Lemma follows_nil d d' : same_on mirrored_trees d d' -> follows [] d d'.
Proof.
  intros Hs. assert (same_on (fun t => t = T_SMT) d d') as Hsmt by (intros t k ->; apply Hs; now left). split.
  - intros Hc. split; [now apply (consistent_same d)|]. intros p _. now apply node_same.
  - intros dom key [t Ht]. rewrite !merkle_leaf_value_row, Ht. cbn. rewrite Hs by (right; now exists dom). done.
Qed.

#[export] Instance mirrors_preorder : PreOrder mirrors.
Proof.
  split; [intros d; exists []; now apply follows_nil|].
  intros d1 d2 d3 [us1 H1] [us2 H2]. exists (us1 ++ us2). now apply (follows_app _ _ d1 d2).
Qed.

(** A row written together with its leaf. *)
Lemma follows_write dom key t (row : option value) d :
  domain_tree dom = Some t ->
  follows [(dom, key, row ≫= row_leaf t)] d
    (db_after (smt_set dom key (row ≫= row_leaf t)) (partial_alter (fun _ => row) (t, key) d)).
Proof.
  intros Ht. set (v := row ≫= row_leaf t). set (d0 := partial_alter (fun _ => row) (t, key) d).
  assert (same_on (fun t => t = T_SMT) d d0) as Hs.
  { intros t' k' ->. unfold d0. apply lookup_partial_alter_ne. intros E. injection E as E _.
    now apply domain_tree_not_smt in Ht. }
  split.
  - intros Hc. apply (consistent_same d d0 Hs) in Hc. destruct (smt_set_facts d0 dom key v Hc) as [Hc' Hl].
    split; [exact Hc'|]. intros p Hp. rewrite Hl by done. cbn [foldl set_leaf].
    destruct (decide _); [done|]. now apply node_same.
  - intros dom' key' [t' Ht']. rewrite !merkle_leaf_value_row, Ht'. cbn [mbind option_bind].
    rewrite smt_set_other by (now apply domain_tree_not_smt in Ht'). unfold d0, value_after, set_value. cbn [foldl fst snd].
    destruct (decide ((dom, key) = (dom', key'))) as [E|E].
    + injection E as <- <-. assert (t' = t) as -> by congruence. rewrite lookup_partial_alter_eq. reflexivity.
    + rewrite lookup_partial_alter_ne; [done|]. intros E'. injection E' as -> ->. apply E.
      f_equal. now apply (domain_tree_inj dom dom' t').
Qed.
End mirror.

(** ** Every operation mirrors *)

Section operations.
Context {HC : Crypto} {HL : CryptoLaws} {HF : Fr} {HK : Compression} {HP : ChainParams} {HJ : EvidenceJson} {HW : Wasm} {HG : Groth16}.

Definition plain_tree (t : TreeId) : bool :=
  match t with
  | T_SMT | T_ACCOUNTS | T_TOKENS | T_TOKEN_BALANCES | T_CONTRACTS | T_CONTRACT_STORAGE => false
  | _ => true
  end.

Lemma plain_not_mirrored t t' : plain_tree t = true -> mirrored_trees t' -> t <> t'.
Proof.
  intros Hp [->|[dom Hd]] ->; [done|]. unfold domain_tree in Hd. repeat case_match; simplify_eq; done.
Qed.

Lemma mirrors_same d d' : same_on mirrored_trees d d' -> mirrors d d'.
Proof. intros Hs. exists []. now apply follows_nil. Qed.

Lemma mirrors_jput t k v : plain_tree t = true -> Steps mirrors (jput t k v).
Proof. intros Hp d. apply mirrors_same, steps_jput_same. intros Hm. now apply (plain_not_mirrored t t). Qed.
Lemma mirrors_jdel t k : plain_tree t = true -> Steps mirrors (jdel t k).
Proof. intros Hp d. apply mirrors_same, steps_jdel_same. intros Hm. now apply (plain_not_mirrored t t). Qed.
#[local] Hint Extern 1 (Steps mirrors (jput _ _ _)) => apply mirrors_jput; reflexivity : typeclass_instances.
#[local] Hint Extern 1 (Steps mirrors (jdel _ _)) => apply mirrors_jdel; reflexivity : typeclass_instances.

(** The two shapes of a setter: a row put or deleted, then its leaf. *)
Lemma mirrors_put dom t key v leaf :
  domain_tree dom = Some t -> row_leaf t v = Some leaf ->
  Steps mirrors (jput t key v ;; smt_set dom key (Some leaf)).
Proof.
  intros Ht Hv d. change (mirrors d (run (jput t key v ;; smt_set dom key (Some leaf)) d).2).
  runs. rewrite run_smt_set. exists [(dom, key, Some leaf)]. rewrite <- Hv.
  exact (follows_write dom key t (Some v) d Ht).
Qed.
Lemma mirrors_del dom t key : domain_tree dom = Some t -> Steps mirrors (jdel t key ;; smt_set dom key None).
Proof.
  intros Ht d. change (mirrors d (run (jdel t key ;; smt_set dom key None) d).2).
  runs. rewrite run_smt_set. exists [(dom, key, None)]. exact (follows_write dom key t None d Ht).
Qed.
Lemma mirrors_shielded key v : Steps mirrors (smt_set "shielded" key v).
Proof.
  intros d. exists [("shielded", key, v)]. split.
  - intros Hc. destruct (smt_set_facts d "shielded" key v Hc) as [Hc' Hl]. split; [exact Hc'|].
    intros p Hp. rewrite Hl by done. reflexivity.
  - intros dom k Hd. rewrite !merkle_leaf_value_row. destruct Hd as [t Ht]. rewrite Ht. cbn [mbind option_bind].
    rewrite smt_set_other by (now apply domain_tree_not_smt in Ht).
    unfold value_after, set_value. cbn [foldl fst snd]. rewrite decide_False; [done|].
    intros E. injection E as <- _. discriminate Ht.
Qed.
#[local] Existing Instance mirrors_shielded.

Lemma account_text a : row_leaf T_ACCOUNTS (VAccount a) = Some (account_leaf a).
Proof. reflexivity. Qed.

Lemma follows_set_account addr a d :
  follows [("acct", addr, Some (account_leaf a))] d (db_after (set_account addr a) d).
Proof.
  change (db_after (set_account addr a) d) with (run (set_account addr a) d).2.
  unfold set_account. runs. rewrite run_smt_set.
  apply (follows_app [_] [] _ (db_after (smt_set "acct" addr (Some (account_leaf a))) (<[(T_ACCOUNTS, addr) := VAccount a]> d))).
  - exact (follows_write "acct" addr T_ACCOUNTS (Some (VAccount a)) d eq_refl).
  - destruct (_ || _); runs; apply follows_nil; intros t k Ht;
      [apply lookup_insert_ne|apply lookup_delete_ne]; intros E; injection E as E _; now apply (plain_not_mirrored T_STAKERS t).
Qed.
#[export] Instance mirrors_set_account addr a : Steps mirrors (set_account addr a).
Proof. intros d. eexists. apply follows_set_account. Qed.
#[export] Instance mirrors_set_token t : Steps mirrors (set_token t).
Proof. unfold set_token. now apply (mirrors_put "token"). Qed.
#[export] Instance mirrors_set_contract c : Steps mirrors (set_contract c).
Proof. unfold set_contract. now apply (mirrors_put "contract"). Qed.
#[export] Instance mirrors_set_token_balance t a n : Steps mirrors (set_token_balance t a n).
Proof. unfold set_token_balance. cbv zeta. destruct (n =? 0); [now apply mirrors_del|now apply (mirrors_put "tokenbal")]. Qed.
#[export] Instance mirrors_set_contract_storage a k v : Steps mirrors (set_contract_storage a k v).
Proof. unfold set_contract_storage. destruct v; [now apply (mirrors_put "cstorage")|now apply mirrors_del]. Qed.

#[export] Instance mirrors_credit_token t a n : Steps mirrors (credit_token t a n).
Proof. unfold credit_token. steps. Qed.
#[export] Instance mirrors_debit_token t a n : Steps mirrors (debit_token t a n).
Proof. unfold debit_token. steps. Qed.
#[export] Instance mirrors_apply_create s n i h p : Steps mirrors (apply_create s n i h p).
Proof. unfold apply_create. steps. Qed.
#[export] Instance mirrors_apply_mint s t a p : Steps mirrors (apply_mint s t a p).
Proof. unfold apply_mint. steps. Qed.
#[export] Instance mirrors_apply_token_transfer s t a p : Steps mirrors (apply_token_transfer s t a p).
Proof. unfold apply_token_transfer. steps. Qed.
#[export] Instance mirrors_apply_burn s a p : Steps mirrors (apply_burn s a p).
Proof. unfold apply_burn. steps. Qed.
#[export] Instance mirrors_add_balance addr n : Steps mirrors (add_balance addr n).
Proof. unfold add_balance. steps. Qed.
#[export] Instance mirrors_pay_out c t : Steps mirrors (pay_out c t).
Proof. unfold pay_out. steps. Qed.
#[export] Instance mirrors_settle_call tx s c o : Steps mirrors (settle_call tx s c o).
Proof. unfold settle_call. steps. Qed.
#[export] Instance mirrors_put_receipt h r : Steps mirrors (put_receipt h r).
Proof. unfold put_receipt. steps. Qed.
#[export] Instance mirrors_apply_call tx s h : Steps mirrors (apply_call tx s h).
Proof. unfold apply_call. steps. Qed.
#[export] Instance mirrors_put_code h c : Steps mirrors (put_code h c).
Proof. unfold put_code. steps. Qed.
#[export] Instance mirrors_apply_deploy tx s h : Steps mirrors (apply_deploy tx s h).
Proof. unfold apply_deploy. steps. Qed.
#[export] Instance mirrors_put_slash r : Steps mirrors (put_slash r).
Proof. unfold put_slash. steps. Qed.
#[export] Instance mirrors_apply_report h r e : Steps mirrors (apply_report h r e).
Proof. unfold apply_report. steps. Qed.
#[export] Instance mirrors_apply_unjail h s : Steps mirrors (apply_unjail h s).
Proof. unfold apply_unjail. steps. Qed.
#[export] Instance mirrors_apply_transfer tx s f : Steps mirrors (apply_transfer tx s f).
Proof. unfold apply_transfer. steps. Qed.
#[export] Instance mirrors_apply_unstake tx s f h : Steps mirrors (apply_unstake tx s f h).
Proof. unfold apply_unstake. steps. Qed.
#[export] Instance mirrors_shielded_append c : Steps mirrors (shielded_append c).
Proof. unfold shielded_append. steps. Qed.
#[export] Instance mirrors_burn_nullifier n h : Steps mirrors (shielded_burn_nullifier n h).
Proof. unfold shielded_burn_nullifier. steps. Qed.
#[export] Instance mirrors_burn_nullifiers h l : Steps mirrors (burn_nullifiers h l).
Proof. unfold burn_nullifiers. steps. Qed.
#[export] Instance mirrors_append_commitments l : Steps mirrors (append_commitments l).
Proof. unfold append_commitments. steps. Qed.
#[export] Instance mirrors_spend_key : Steps mirrors spend_key.
Proof. unfold spend_key, shielded_set_verifying_key. steps. Qed.
#[export] Instance mirrors_set_pool n : Steps mirrors (shielded_set_pool_balance n).
Proof. unfold shielded_set_pool_balance. steps. Qed.
#[export] Instance mirrors_apply_shield tx d : Steps mirrors (apply_shield tx d).
Proof. unfold apply_shield. steps. Qed.
#[export] Instance mirrors_apply_spend tx d h : Steps mirrors (apply_spend tx d h).
Proof. unfold apply_spend. steps. Qed.
#[export] Instance mirrors_apply_shielded tx h : Steps mirrors (apply_shielded tx h).
Proof. unfold apply_shielded. steps. Qed.
#[export] Instance mirrors_seal_into_state r : Steps mirrors (shielded_seal_into_state r).
Proof. unfold shielded_seal_into_state. steps. Qed.
#[export] Instance mirrors_seal_shielded_root h : Steps mirrors (seal_shielded_root h).
Proof. unfold seal_shielded_root, shielded_seal_root, shielded_set_last_sealed_count. steps. Qed.
#[export] Instance mirrors_apply_kind tx s f h : Steps mirrors (apply_kind tx s f h).
Proof. unfold apply_kind. steps. Qed.
#[export] Instance mirrors_apply_tx tx h : Steps mirrors (apply_tx tx h).
Proof. unfold apply_tx. steps. Qed.

#[export] Instance mirrors_credit a n : Steps mirrors (credit a n).
Proof. unfold credit. steps. Qed.
#[export] Instance mirrors_pay_leader l p r : Steps mirrors (pay_leader l p r).
Proof. unfold pay_leader. steps. Qed.
#[export] Instance mirrors_pay_share s t n v : Steps mirrors (pay_share s t n v).
Proof. unfold pay_share. steps. Qed.
#[export] Instance mirrors_pay_rewards l f : Steps mirrors (pay_rewards l f).
Proof. unfold pay_rewards. steps. Qed.
#[export] Instance mirrors_release_one h l x : Steps mirrors (release_one h l x).
Proof. unfold release_one. steps. Qed.
#[export] Instance mirrors_release_unbonded h : Steps mirrors (release_unbonded h).
Proof. unfold release_unbonded. steps. Qed.
#[export] Instance mirrors_charge_missed h a : Steps mirrors (charge_missed h a).
Proof. unfold charge_missed. steps. Qed.
#[export] Instance mirrors_clear_producer h a : Steps mirrors (clear_producer h a).
Proof. unfold clear_producer. steps. Qed.
#[export] Instance mirrors_record_liveness h p q : Steps mirrors (record_liveness h p q).
Proof. unfold record_liveness. steps. Qed.
#[export] Instance mirrors_close_block h p q f : Steps mirrors (close_block h p q f).
Proof. unfold close_block. steps. Qed.
#[export] Instance mirrors_put_block b : Steps mirrors (put_block b).
Proof. unfold put_block. steps. Qed.
#[export] Instance mirrors_store_block b : Steps mirrors (store_block b).
Proof. unfold store_block, set_base_fee. steps. Qed.
#[export] Instance mirrors_map_err {A} f (m : M A) : Steps mirrors m -> Steps mirrors (map_err f m).
Proof.
  intros Hm d. replace (db_after (map_err f m) d) with (db_after m d); [apply Hm|].
  unfold db_after, map_err. now destruct (m _) as [[?|?] ?].
Qed.
#[export] Instance mirrors_import_tx h f tx : Steps mirrors (import_tx h f tx).
Proof. unfold import_tx. steps. Qed.
#[export] Instance mirrors_execute_block b : Steps mirrors (execute_block b).
Proof. unfold execute_block. steps. Qed.
#[export] Instance mirrors_allocate a : Steps mirrors (allocate a).
Proof. unfold allocate. steps. Qed.
#[export] Instance mirrors_init_genesis g : Steps mirrors (init_genesis g).
Proof. unfold init_genesis. steps. Qed.

(** ** Histories *)

(** What holds of the updates behind a state. *)
Definition history (us : list update) (d : Db) : Prop :=
  consistent d /\ (forall p, p < 2 ^ 128 -> leaf_at d p = leaves_of us p) /\
  forall dom key, is_Some (domain_tree dom) -> merkle_leaf_value dom key d = value_after us (dom, key) None.

Lemma history_empty : history [] ∅.
Proof.
  split; [exact consistent_empty|split; [intros; apply leaf_at_empty|]].
  intros dom key [t Ht]. now rewrite merkle_leaf_value_row, Ht.
Qed.

Lemma history_follows us us' d d' : history us d -> follows us' d d' -> history (us ++ us') d'.
Proof.
  intros (Hc & Hl & Hv) [Ht Hr]. apply Ht in Hc as [Hc' Hl']. split; [done|split].
  - intros p Hp. rewrite Hl' by done. unfold leaves_of. rewrite foldl_app. now apply set_leaves_ext, Hl.
  - intros dom key Hd. now rewrite Hr, Hv, value_after_app.
Qed.

Lemma history_root us d : history us d -> smt_root d = tree_hash (leaves_of us) DEPTH 0.
Proof.
  intros (Hc & Hl & _). rewrite root_tree_hash by done.
  apply (tree_hash_ext _ _ _ 0); [reflexivity|reflexivity|exact Hl].
Qed.

(** In a separated history the leaf of a key is the leaf of its row. *)
Lemma history_leaf us d dom key : history us d -> separated ((dom, key) :: us.*1) -> is_Some (domain_tree dom) ->
  leaf_at d (path_of (leaf_key dom key)) = leaf_hash (leaf_key dom key) (merkle_leaf_value dom key d).
Proof.
  intros (_ & Hl & Hv) Hs Hd. rewrite Hl, Hv by (done || apply path_of_bound).
  apply (leaf_after us (dom, key) _ None ((dom, key) :: us.*1)); [done| |left|done].
  intros k Hk. now right.
Qed.

(** Two states with the same rows and pool leaves have the same root, however
    they were reached, as long as no two keys share a 128-bit path. *)
Lemma same_rows_same_root us d us' d' : history us d -> history us' d' -> separated (us.*1 ++ us'.*1) ->
  (forall dom key, is_Some (domain_tree dom) -> merkle_leaf_value dom key d = merkle_leaf_value dom key d') ->
  (forall dom key, domain_tree dom = None -> value_after us (dom, key) None = value_after us' (dom, key) None) ->
  smt_root d = smt_root d'.
Proof.
  intros H1 H2 Hs Hv Hrest. rewrite (history_root us d H1), (history_root us' d' H2).
  apply (tree_hash_ext _ _ _ 0); [reflexivity|reflexivity|]. intros p _. apply leaves_of_values; [exact Hs|].
  intros [dom key]. destruct (domain_tree dom) as [t|] eqn:Ht; [|now apply Hrest].
  destruct H1 as (_ & _ & V1), H2 as (_ & _ & V2). rewrite <- V1, <- V2 by (now rewrite Ht). apply Hv. now rewrite Ht.
Qed.

(** The proof served for a key verifies with the value in the table, and a proof
    of another value that verifies exhibits a failure of SHA-256. *)
Definition proofs_exact (d : Db) (dom key : string) : Prop :=
  let stored := merkle_leaf_value dom key d in
  let '(root, (_, siblings, bitmap)) := merkle_proof dom key d in
  Smt.verify_proof root dom key stored siblings bitmap = true /\
  forall value siblings' bitmap', Smt.verify_proof root dom key value siblings' bitmap' = true ->
    value = stored \/ sha_broken (proof_hashes dom key value siblings' bitmap') (tree_hashes d dom key stored).

(** C14: Light clients.  In a state with a history of updates to keys of distinct
    paths, the proof the node serves for any row, present or absent, verifies
    against the state root with the value in the table, and a proof of any
    other value that verifies exhibits a failure of SHA-256. *)
Theorem row_proofs_exact us d dom key (Hus : history us d)
    (Hsep : separated ((dom, key) :: us.*1)) (Hdom : is_Some (domain_tree dom)) : proofs_exact d dom key.
Proof.
  unfold proofs_exact. pose proof (history_leaf us d dom key Hus Hsep Hdom) as Hl. destruct Hus as (Hc & _ & _).
  set (stored := merkle_leaf_value dom key d) in *.
  pose proof (proof_verifies d dom key stored Hc Hl) as Hv. unfold merkle_proof.
  destruct (smt_proof d dom key) as [[lk siblings] bitmap]. split; [exact Hv|].
  intros value siblings' bitmap' E. now apply (proof_sound d).
Qed.

(** ** The rebuilt tree *)

Definition row_updates {A} (dom : string) (leaf : A -> string) (l : list (string * A)) : list update :=
  map (fun '(k, a) => (dom, k, Some (leaf a))) l.

Definition pool_updates (height : N) (d : Db) : list update :=
  if shielded_activation <=? height then
    [("shielded", "root", Some (shielded_root d)); ("shielded", "pool", Some (dec (shielded_pool_balance d)));
     ("shielded", "nulls", Some (shielded_nulls_digest d))]
  else [].

Definition rebuild_updates (height : N) (d : Db) : list update :=
  row_updates "acct" account_leaf (parsed as_account (rows T_ACCOUNTS d)) ++
  row_updates "token" token_leaf (parsed as_token (rows T_TOKENS d)) ++
  row_updates "tokenbal" id (parsed as_bytes (rows T_TOKEN_BALANCES d)) ++
  row_updates "contract" contract_leaf (parsed as_contract (rows T_CONTRACTS d)) ++
  row_updates "cstorage" id (parsed as_bytes (rows T_CONTRACT_STORAGE d)) ++
  pool_updates height d.

Lemma smt_set_all_app us1 us2 d :
  db_after (smt_set_all (us1 ++ us2)) d = db_after (smt_set_all us2) (db_after (smt_set_all us1) d).
Proof.
  revert d. induction us1 as [|[[dom key] v] us1 IH]; intros d; [done|].
  unfold smt_set_all. cbn [app for_each]. fold (smt_set_all (us1 ++ us2)). fold (smt_set_all us1).
  rewrite !db_after_bind by (intros; apply _). rewrite res_smt_set. apply IH.
Qed.

Lemma run_smt_set_all us d : run (smt_set_all us) d = (Ok tt, db_after (smt_set_all us) d).
Proof.
  revert d. induction us as [|[[dom key] v] us IH]; intros d; [done|].
  unfold smt_set_all at 1. cbn [for_each]. fold (smt_set_all us). rewrite run_bind by (intros; apply _).
  rewrite run_smt_set, IH. f_equal. unfold smt_set_all at 2. cbn [for_each]. fold (smt_set_all us).
  rewrite db_after_bind by (intros; apply _). now rewrite res_smt_set.
Qed.

Lemma run_set_leaves dom l d :
  run (set_leaves dom l) d = (Ok tt, db_after (smt_set_all (row_updates dom id l)) d).
Proof.
  rewrite <- run_smt_set_all. unfold set_leaves, smt_set_all, row_updates. revert d.
  induction l as [|[k a] l IH]; intros d; [done|]. cbn [map for_each].
  rewrite !run_bind; [|intros; apply journaled_for_each; intros [[? ?] ?]; apply _|intros; apply journaled_for_each; intros [? ?]; apply _].
  rewrite !run_smt_set. apply IH.
Qed.

Lemma steps_smt_set_all us : Steps (same_on not_smt) (smt_set_all us).
Proof.
  apply steps_for_each; [apply _|intros [[? ?] ?]; apply _|intros [[dom key] v]; now apply steps_smt_set].
Qed.

Lemma pool_updates_ext height d d' : same_on not_smt d d' -> pool_updates height d' = pool_updates height d.
Proof.
  intros Hs. unfold pool_updates, shielded_root, shielded_leaves, shielded_pool_balance, meta_number, shielded_nulls_digest.
  rewrite !(rows_ext _ d' d) by (intros; now apply Hs). now rewrite Hs.
Qed.

Lemma same_smt_set_all us d : same_on not_smt d (db_after (smt_set_all us) d).
Proof. apply steps_smt_set_all. Qed.

Lemma pool_balance_smt_set dom key v d :
  shielded_pool_balance (db_after (smt_set dom key v) d) = shielded_pool_balance d.
Proof. unfold shielded_pool_balance, meta_number. now rewrite smt_set_other. Qed.
Lemma nulls_digest_smt_set dom key v d :
  shielded_nulls_digest (db_after (smt_set dom key v) d) = shielded_nulls_digest d.
Proof. unfold shielded_nulls_digest. rewrite (rows_ext _ _ d); [done|]. intros k. now apply smt_set_other. Qed.

Lemma run_seal_pool (height : N) d :
  run (when_ (shielded_activation <=? height) (root ← gets shielded_root; shielded_seal_into_state root)) d =
  (Ok tt, db_after (smt_set_all (pool_updates height d)) d).
Proof.
  rewrite <- run_smt_set_all. unfold pool_updates. rewrite run_when. destruct (_ <=? _); [|done].
  unfold shielded_seal_into_state. runs. rewrite run_smt_set. runs. rewrite run_smt_set. runs.
  rewrite nulls_digest_smt_set, pool_balance_smt_set. rewrite nulls_digest_smt_set.
  unfold smt_set_all. cbn [for_each].
  do 3 (runs; rewrite !run_smt_set). now rewrite run_ret.
Qed.

Lemma row_updates_map {A} dom (leaf : A -> string) l :
  row_updates dom id (map (fun '(k, a) => (k, leaf a)) l) = row_updates dom leaf l.
Proof. unfold row_updates. rewrite map_map. apply map_ext. now intros [k a]. Qed.

(** The rebuild clears the tree and sets the leaves of [rebuild_updates]. *)
Lemma rebuild_trees height s :
  let d0 := db (raw_filter (fun k => negb (bool_decide (k.1 = T_SMT))) s) in
  db (build_merkle_state height s).2 =
  <[(T_META, "smt_version") := VBytes "1"]> (db_after (smt_set_all (rebuild_updates height d0)) d0).
Proof.
  intros d0. unfold build_merkle_state.
  match goal with |- db (?m ?s0).2 = _ => assert (Journaled m) as Hj by journaled; rewrite (run_db m s0) end. fold d0.
  match goal with |- db_after ?m d0 = _ => change (db_after m d0) with (run m d0).2 end.
  unfold rebuild_updates. rewrite !smt_set_all_app.
  rewrite run_bind by (intros; journaled). rewrite run_gets. cbv beta iota zeta.
  repeat (rewrite run_bind by (intros; journaled); rewrite run_set_leaves; cbv beta iota zeta).
  rewrite run_bind by (intros; journaled). rewrite run_seal_pool. cbv beta iota zeta. rewrite run_jput. cbn [snd].
  rewrite !row_updates_map.
  f_equal. f_equal. f_equal. apply pool_updates_ext.
  repeat (etransitivity; [|apply same_smt_set_all]). reflexivity.
Qed.

(** The values the rebuild announces are those of the tables. *)
Lemma value_after_rows {A} dom (leaf : A -> string) l k v :
  NoDup l.*1 ->
  value_after (row_updates dom leaf l) k v =
  if decide (k.1 = dom) then match list_to_map (M:=gmap string A) l !! k.2 with Some a => Some (leaf a) | None => v end else v.
Proof.
  revert v. induction l as [|[k' a] l IH]; intros v Hn; [now case_decide|].
  apply NoDup_cons in Hn as [Hk Hn]. cbn [row_updates map]. rewrite value_after_cons. fold (row_updates dom leaf l).
  rewrite IH by done. unfold set_value. cbn [fst snd list_to_map foldr]. destruct k as [dom0 k0]. cbn [fst snd].
  destruct (decide (dom0 = dom)) as [->|Hne]; [|rewrite decide_False by congruence; done].
  destruct (decide (k0 = k')) as [->|Hk0].
  - rewrite lookup_insert_eq, decide_True by done. now rewrite (not_elem_of_list_to_map_1 l k' Hk).
  - rewrite lookup_insert_ne by congruence. rewrite decide_False by congruence. done.
Qed.

Lemma NoDup_parsed {A} (p : value -> option A) (l : list (string * value)) : NoDup l.*1 -> NoDup (parsed p l).*1.
Proof.
  intros Hn. unfold parsed. induction l as [|[k v] l IH]; [constructor|]. apply NoDup_cons in Hn as [Hk Hn]. cbn.
  destruct (p v) as [a|]; cbn; [|now apply IH]. constructor; [|now apply IH].
  intros Hin. apply Hk. apply list_elem_of_fmap in Hin as ([k' a'] & E & Hin). cbn in E. subst k'.
  apply list_elem_of_omap in Hin as ([k' v'] & Hin & E). destruct (p v'); [|done]. injection E as -> ->.
  apply list_elem_of_fmap. now exists (k, v').
Qed.

Lemma lookup_parsed {A} (p : value -> option A) t d k :
  list_to_map (M:=gmap string A) (parsed p (rows t d)) !! k = (v ← d !! (t, k); p v).
Proof.
  apply option_eq. intros a. rewrite <- elem_of_list_to_map by apply NoDup_parsed, NoDup_rows.
  unfold parsed. rewrite list_elem_of_omap. split.
  - intros ([k' v] & Hin%elem_of_rows & E). destruct (p v) eqn:Hp; [|done]. injection E as -> ->. now rewrite Hin.
  - intros E. destruct (d !! (t, k)) as [v|] eqn:Hv; [|done]. exists (k, v). split; [now apply elem_of_rows|].
    cbn in E |- *. now rewrite E.
Qed.

Lemma value_after_pool height d dom key v : is_Some (domain_tree dom) -> value_after (pool_updates height d) (dom, key) v = v.
Proof.
  intros [t Ht]. apply value_after_untouched. unfold pool_updates.
  destruct (_ <=? _); [|apply not_elem_of_nil]. intros Hin. enough (dom = "shielded") as -> by done.
  cbn in Hin. rewrite !elem_of_cons, elem_of_nil in Hin. intuition congruence.
Qed.

Lemma rebuild_values height d dom key : is_Some (domain_tree dom) ->
  value_after (rebuild_updates height d) (dom, key) None = merkle_leaf_value dom key d.
Proof.
  intros Hd. unfold rebuild_updates. rewrite !value_after_app.
  rewrite (value_after_pool height d dom key) by done.
  rewrite !value_after_rows, !lookup_parsed by apply NoDup_parsed, NoDup_rows.
  rewrite merkle_leaf_value_row. cbn [fst snd]. unfold domain_tree in *.
  repeat match goal with |- context [String.eqb dom ?x] => destruct (String.eqb_spec dom x) as [->|] end;
    [..|now destruct Hd]; repeat (rewrite decide_False by done); rewrite decide_True by done;
    cbn [mbind option_bind]; repeat (rewrite decide_False by done); destruct (d !! _) as [[]|]; done.
Qed.

Lemma history_rebuild height s :
  consistent (db (build_merkle_state height s).2) /\
  forall p, p < 2 ^ 128 -> leaf_at (db (build_merkle_state height s).2) p = leaves_of (rebuild_updates height (db s)) p.
Proof.
  rewrite rebuild_trees. set (d0 := db (raw_filter _ s)).
  assert (forall k, d0 !! (T_SMT, k) = None) as Hnone.
  { intros k. unfold d0, raw_filter. cbn [db]. apply map_lookup_filter_None. right. intros v _. cbn.
    now rewrite bool_decide_true. }
  assert (same_on not_smt (db s) d0) as Hs0.
  { intros t k Ht. unfold d0, raw_filter. cbn [db]. apply option_eq. intros v. rewrite map_lookup_filter_Some. cbn.
    rewrite bool_decide_false by done. cbn. tauto. }
  replace (rebuild_updates height (db s)) with (rebuild_updates height d0).
  2: { unfold rebuild_updates. rewrite (pool_updates_ext height (db s) d0) by done.
       now rewrite !(rows_ext _ d0 (db s)) by (intros; now apply Hs0). }
  assert (consistent d0) as Hc0.
  { intros depth q Hd _. unfold consistent_at, node, get_node. rewrite !Hnone. now apply empty_at_parent. }
  destruct (smt_set_all_facts (rebuild_updates height d0) d0 (fun _ => empty_at DEPTH) Hc0) as [Hc Hl].
  { intros p _. unfold leaf_at, node, get_node. now rewrite Hnone. }
  set (d1 := db_after _ d0) in *.
  assert (same_on (fun t => t = T_SMT) d1 (<[(T_META, "smt_version") := VBytes "1"]> d1)) as Hs1.
  { intros t k ->. now apply lookup_insert_ne. }
  split; [now apply (consistent_same d1)|]. intros p Hp. unfold leaf_at. rewrite (node_same d1) by done. now apply Hl.
Qed.

(** So every rebuilt state has a history, whatever the tree was before. *)
Lemma rebuilt_history height s (rows_kept : forall t k, t <> T_SMT -> (t, k) <> (T_META, "smt_version") ->
    db (build_merkle_state height s).2 !! (t, k) = db s !! (t, k)) :
  history (rebuild_updates height (db s)) (db (build_merkle_state height s).2).
Proof.
  destruct (history_rebuild height s) as [Hc Hl]. split; [exact Hc|split; [exact Hl|]]. intros dom key Hd.
  rewrite rebuild_values by exact Hd. rewrite !merkle_leaf_value_row. destruct Hd as [t Ht]. rewrite Ht. cbn [mbind option_bind].
  rewrite rows_kept; [done|now apply domain_tree_not_smt in Ht|]. intros [= -> _]. now apply (plain_not_mirrored T_META T_META eq_refl); [right; exists dom|].
Qed.

(** C15: A rebuild changes nothing.  Rebuilding the Merkle tree from the tables,
    as an upgrade, a reorganisation or a snapshot import does, gives the root
    the incremental updates had reached, provided the keys have distinct paths
    and the pool leaves of the tree are those of the pool tables, as
    [seal_shielded_root] leaves them. *)
Theorem rebuild_same_root us height s (Hus : history us (db s))
    (Hsep : separated (us.*1 ++ (rebuild_updates height (db s)).*1))
    (Hpool : forall dom key, domain_tree dom = None ->
       value_after us (dom, key) None = value_after (pool_updates height (db s)) (dom, key) None) :
  merkle_root (db (build_merkle_state height s).2) = merkle_root (db s).
Proof.
  unfold merkle_root, root_hex. f_equal. destruct (history_rebuild height s) as [Hc Hl].
  rewrite (history_root us (db s) Hus), root_tree_hash by done.
  apply (tree_hash_ext _ _ _ 0); [reflexivity|reflexivity|]. intros p Hp. rewrite Hl by done.
  symmetry. apply leaves_of_values; [exact Hsep|]. intros [dom key].
  destruct (domain_tree dom) as [t|] eqn:Ht.
  - destruct Hus as (_ & _ & Hv). rewrite rebuild_values, Hv by (now rewrite Ht). done.
  - rewrite Hpool by done. unfold rebuild_updates. rewrite !value_after_app, !value_after_rows by apply NoDup_parsed, NoDup_rows.
    cbn [fst]. now rewrite !decide_False by (intros ->; discriminate Ht).
Qed.

(** The rebuild sets leaves of present rows only. *)
Lemma rebuild_keys height d k : k ∈ (rebuild_updates height d).*1 ->
  is_Some (merkle_leaf_value k.1 k.2 d) \/ k ∈ (pool_updates height d).*1.
Proof.
  intros Hk. destruct (decide (k ∈ (pool_updates height d).*1)) as [|Hp]; [now right|left].
  destruct k as [dom key]. cbn [fst snd].
  destruct (domain_tree dom) as [t|] eqn:Ht.
  - rewrite <- (rebuild_values height d dom key) by (now rewrite Ht).
    rewrite (value_after_touched _ _ None (Some "")) by done. apply value_after_some; [|done].
    apply Forall_forall. intros u Hu. unfold rebuild_updates, row_updates, pool_updates in Hu.
    rewrite !elem_of_app in Hu.
    destruct Hu as [Hu|[Hu|[Hu|[Hu|[Hu|Hu]]]]]; [apply list_elem_of_fmap in Hu as ([? ?] & -> & _); done..|].
    destruct (shielded_activation <=? height); [|now apply elem_of_nil in Hu]. rewrite !elem_of_cons, elem_of_nil in Hu.
    destruct Hu as [-> | [-> | [-> | []]]]; done.
  - exfalso. unfold rebuild_updates in Hk. rewrite !fmap_app, !elem_of_app in Hk.
    destruct Hk as [Hk|[Hk|[Hk|[Hk|[Hk|Hk]]]]]; [..|done];
      apply list_elem_of_fmap in Hk as ([[? ?] ?] & E & Hk); apply list_elem_of_fmap in Hk as ([? ?] & E' & _);
      cbn in E, E'; injection E as -> ->; injection E' as -> -> ->; discriminate Ht.
Qed.
End operations.

(** The devnet genesis, and an account written to empty tables. *)
Module Mirror_example.
Import Toy Toy_field Exec_example.

Definition alloc : GenesisAlloc := {| ga_address := alice; ga_balance := "1000000"; ga_stake := None |}.
Definition funded : Account := with_balance 1000000000000000 default_account.
Definition genesis_db : Db := db_after (init_genesis (default_devnet alice)) ∅.

Lemma allocate_runs : run (allocate alloc) ∅ = (Ok tt, db_after (set_account alice funded) ∅).
Proof.
  unfold allocate. rewrite run_bind by (intros; journaled). rewrite run_fail_if.
  replace (negb (is_valid_address (ga_address alloc))) with false by (vm_compute; reflexivity). cbv beta iota zeta.
  rewrite run_bind by (intros; journaled). rewrite run_gets. cbv beta iota zeta.
  rewrite run_bind by (intros; journaled). rewrite run_lift.
  replace (parse_inaz (ga_balance alloc)) with (Ok 1000000000000000) by (vm_compute; reflexivity). cbv beta iota zeta.
  rewrite run_bind by (intros; journaled). rewrite run_lift. cbn [ga_stake alloc]. cbv beta iota zeta.
  rewrite run_set_account. reflexivity.
Qed.

Lemma init_genesis_runs g a d : is_initialized ∅ = false -> g_alloc g = [a] -> run (allocate a) ∅ = (Ok tt, d) ->
  exists b, res_after (init_genesis g) ∅ = Ok b.
Proof.
  intros Hi Hg Ha.
  assert (forall root, Total (let b := unsigned_block 0 zero_hash 0 root "genesis" "" [] in
    let b := with_block_hash (compute_hash b) b in put_block b ;; mret b)) as Ht.
  { intros root. cbv zeta. generalize (unsigned_block 0 zero_hash 0 root "genesis" "" []). intros b.
    generalize (with_block_hash (compute_hash b) b). intros b'. unfold put_block.
    repeat (apply total_bind; [intros; journaled| |]); apply _. }
  enough (exists b, (run (init_genesis g) ∅).1 = Ok b) as Hx by exact Hx. unfold init_genesis. rewrite Hg.
  rewrite run_bind by (intros; journaled). rewrite run_gets. cbv beta iota zeta.
  rewrite run_bind by (intros; journaled). rewrite run_fail_if, Hi. cbv beta iota zeta.
  rewrite run_bind by (intros; journaled). cbn [for_each].
  rewrite run_bind by (intros; journaled). rewrite Ha, run_ret. cbv beta iota.
  rewrite run_bind by (intros; journaled). rewrite run_gets. cbv beta iota.
  exact (Ht (state_root d) d).
Qed.

Lemma genesis_runs : exists b, run (init_genesis (default_devnet alice)) ∅ = (Ok b, genesis_db).
Proof.
  destruct (init_genesis_runs (default_devnet alice) alloc _ eq_refl eq_refl allocate_runs) as [b Hb].
  exists b. unfold run. now rewrite Hb.
Qed.

(** One account in empty tables. *)
Definition us0 : list update := [("acct", alice, Some (account_leaf funded))].
Definition d0 : Db := db_after (set_account alice funded) ∅.

Lemma d0_history : history us0 d0.
Proof. exact (history_follows [] us0 ∅ d0 history_empty (follows_set_account alice funded ∅)). Qed.

Lemma d0_value : merkle_leaf_value "acct" alice d0 = Some (account_leaf funded).
Proof. destruct d0_history as (_ & _ & Hv). rewrite Hv by (cbn; eauto). reflexivity. Qed.

Lemma d0_separated : separated (("acct", alice) :: us0.*1).
Proof.
  intros k1 k2 H1 H2 _. cbn in H1, H2. rewrite !elem_of_cons, elem_of_nil in H1, H2.
  destruct H1 as [->|[->|[]]], H2 as [->|[->|[]]]; reflexivity.
Qed.

Lemma row_proofs_exact_witness :
  merkle_leaf_value "acct" alice d0 = Some (account_leaf funded) /\ proofs_exact d0 "acct" alice.
Proof.
  split; [exact d0_value|].
  exact (row_proofs_exact us0 d0 "acct" alice d0_history d0_separated (ex_intro _ T_ACCOUNTS eq_refl)).
Defined.

Definition s0 : Store := mk d0 [].
Lemma d0_keys k : k ∈ us0.*1 ++ (rebuild_updates 5 (db s0)).*1 -> k = ("acct", alice).
Proof.
  change (db s0) with d0. assert (forall dom key v, merkle_leaf_value dom key d0 = Some v -> (dom, key) = ("acct", alice)) as Hkey.
  { intros dom key v Hv. destruct (domain_tree dom) as [t|] eqn:Ht;
      [|rewrite merkle_leaf_value_row, Ht in Hv; discriminate].
    destruct d0_history as (_ & _ & H). rewrite H in Hv by (now rewrite Ht). cbn in Hv. unfold set_value in Hv.
    cbn [fst snd] in Hv. case_decide; [congruence|discriminate]. }
  intros [Hk|Hk]%elem_of_app; [cbn in Hk; now apply list_elem_of_singleton in Hk|].
  apply rebuild_keys in Hk as [[v Hv]|Hk]; [destruct k as [dom key]; exact (Hkey dom key v Hv)|].
  now apply elem_of_nil in Hk.
Qed.

Lemma s0_separated : separated (us0.*1 ++ (rebuild_updates 5 (db s0)).*1).
Proof. intros k1 k2 H1 H2 _. now rewrite (d0_keys k1 H1), (d0_keys k2 H2). Qed.
Lemma s0_pool dom key : domain_tree dom = None ->
  value_after us0 (dom, key) None = value_after (pool_updates 5 (db s0)) (dom, key) None.
Proof.
  intros Hd. rewrite value_after_untouched; [reflexivity|]. cbn. rewrite list_elem_of_singleton.
  intros E. injection E as -> _. discriminate.
Qed.

Lemma rebuild_same_root_witness : merkle_root (db (build_merkle_state 5 s0).2) = merkle_root (db s0).
Proof. exact (rebuild_same_root us0 5 s0 d0_history s0_separated s0_pool). Defined.
End Mirror_example.
