(* ===== verification/Snapshot.v ===== *)
(** snapshot.rs: state snapshots, export and verified import.

    A snapshot file is the header fields, the block and the dumped tables.  An
    entry carries its key in hex; its value, the hex text of a stored row, is
    [Row v] when it is the hex of the row [v] and [Not_hex] when it is no hex. *)

From S2P Require Import Prelude Bytes Crypto Types Journal Store Smt Poseidon Shielded State.

(* [src/src/snapshot.rs 20-20! SNAPSHOT_FORMAT] *)
Definition SNAPSHOT_FORMAT : N := 2.

Inductive HexRow := Row (v : value) | Not_hex.
Definition row_decode (h : HexRow) : option value := match h with Row v => Some v | Not_hex => None end.

(* [src/src/snapshot.rs 25-29 Table] *)
Record Table := { tb_name : string; tb_entries : list (string * HexRow) }.

(* [src/src/snapshot.rs 32-57 Snapshot] *)
Record Snapshot := {
  sn_format : N; sn_chain_id : N; sn_height : N; sn_block_hash : string; sn_state_root : string;
  sn_at_rest_root : string; sn_base_fee : string; sn_shielded_pool : string; sn_shielded_sealed : N;
  sn_shielded_vk : string; sn_block : Block; sn_tables : list Table
}.

(* [src/src/snapshot.rs 60-62 Snapshot::entry_count] *)
Definition entry_count (snap : Snapshot) : nat := sum_list (map (fun t => length (tb_entries t)) (sn_tables snap)).

Section snapshot.
Context {HC : Crypto} {HF : Fr} {HK : Compression} {HP : ChainParams}.

Definition dump_table (d : Db) (name : string) : Table :=
  {| tb_name := name; tb_entries := map (fun '(k, v) => (hex_encode k, Row v)) (raw_dump name d) |}.

(** The height a snapshot is labelled with. *)
Definition export_height (d : Db) : N :=
  let finalized := finalized_height d in
  if 0 <? finalized then finalized else match tip_height d with Some h => h | None => 0 end.

(* [src/src/snapshot.rs 63-117 export] *)
Definition export (d : Db) (chain_id : N) : result Snapshot :=
  let height := export_height d in
  b ← ok_or (block height d) ("block " +:+ dec height +:+ " is not stored");
  let at_rest := state_root_at height d in
  if match state_checkpoint d with
     | Some (cp_height, cp_root) => (cp_height =? height) && negb (String.eqb cp_root (state_root d))
     | None => false
     end then
    Err ("state at rest does not match this node's checkpoint at height " +:+ dec height)
  else
    Ok {| sn_format := SNAPSHOT_FORMAT; sn_chain_id := chain_id; sn_height := height;
          sn_block_hash := b_hash b; sn_state_root := b_state_root b; sn_at_rest_root := at_rest;
          sn_base_fee := dec (base_fee d); sn_shielded_pool := dec (shielded_pool_balance d);
          sn_shielded_sealed := shielded_last_sealed_count d;
          sn_shielded_vk := match shielded_verifying_key d with Some vk => hex_encode vk | None => "" end;
          sn_block := b; sn_tables := map (dump_table d) SNAPSHOT_TABLES |}.

(** What [import] checks and parses before it touches the store: the at-rest
    root to expect, the base fee, the pool balance and the verifying key. *)
(* [src/src/snapshot.rs 125-165! import] *)
Definition import_header (snap : Snapshot) (chain_id : N) : result (string * N * N * option string) :=
  if negb (sn_format snap =? SNAPSHOT_FORMAT) && negb (sn_format snap =? 1) then
    Err ("unsupported snapshot format " +:+ dec (sn_format snap))
  else if negb (sn_chain_id snap =? chain_id) then
    Err ("snapshot is for chain " +:+ dec (sn_chain_id snap) +:+ ", this node is " +:+ dec chain_id)
  else if negb (b_height (sn_block snap) =? sn_height snap) then Err "snapshot height does not match its block"
  else if negb (String.eqb (compute_hash (sn_block snap)) (b_hash (sn_block snap))) ||
          negb (String.eqb (b_hash (sn_block snap)) (sn_block_hash snap)) then
    Err "snapshot block hash does not match its contents"
  else if negb (String.eqb (b_state_root (sn_block snap)) (sn_state_root snap)) then
    Err "snapshot state root does not match its block header"
  else
    let expected := if String.eqb (sn_at_rest_root snap) "" then sn_state_root snap else sn_at_rest_root snap in
    fee ← ok_or (parse_u128 (sn_base_fee snap)) "bad base fee";
    pool ← (if String.eqb (sn_shielded_pool snap) "" then Ok 0
            else ok_or (parse_u128 (sn_shielded_pool snap)) "bad shielded pool balance");
    vk ← (if String.eqb (sn_shielded_vk snap) "" then Ok None
          else vk ← ok_or (hex_decode (sn_shielded_vk snap)) "bad shielded verifying key"; Ok (Some vk));
    Ok (expected, fee, pool, vk).

Definition decode_entry (name : string) (e : string * HexRow) : result (string * value) :=
  key ← ok_or (hex_decode e.1) ("bad key in " +:+ name);
  val ← ok_or (row_decode e.2) ("bad value in " +:+ name);
  Ok (key, val).

Fixpoint decode_entries (name : string) (es : list (string * HexRow)) : result (list (string * value)) :=
  match es with
  | [] => Ok []
  | e :: es => kv ← decode_entry name e; rest ← decode_entries name es; Ok (kv :: rest)
  end.

(** The loop over the tables.  A bad entry returns at once; only a failed
    [raw_restore] resets. *)
(* [src/src/snapshot.rs 168-179! import] *)
Fixpoint restore_tables (tables : list Table) (s : Store) : result unit * Store :=
  match tables with
  | [] => (Ok tt, s)
  | t :: rest =>
    match decode_entries (tb_name t) (tb_entries t) with
    | Err e => (Err e, s)
    | Ok entries =>
      match raw_restore (tb_name t) entries s with
      | (Ok _, s) => restore_tables rest s
      | (Err e, s) => (Err e, reset_chain s)
      end
    end
  end.

Definition do_ (m : M unit) (s : Store) : Store := (m s).2.

(** The pool metadata and the tree. *)
(* [src/src/snapshot.rs 180-186! import] *)
Definition install_meta (fee pool sealed height : N) (vk : option string) (s : Store) : Store :=
  let s := do_ (set_base_fee fee) s in
  let s := do_ (shielded_set_pool_balance pool) s in
  let s := do_ (shielded_set_last_sealed_count sealed) s in
  let s := match vk with Some vk => do_ (shielded_set_verifying_key vk) s | None => s end in
  (build_merkle_state height s).2.

(** The block, the finality mark, the checkpoint and the pruning mark. *)
(* [src/src/snapshot.rs 197-204! import] *)
Definition adopt (snap : Snapshot) (s : Store) : Store :=
  let s := do_ (put_block (sn_block snap)) s in
  let s := do_ (set_finalized_height (sn_height snap)) s in
  let s := set_state_checkpoint (sn_height snap) (state_root (db s)) s in
  do_ (mark_pruned_below (sn_height snap)) s.

(* [src/src/snapshot.rs 124-206 import] *)
Definition import (snap : Snapshot) (chain_id : N) (s : Store) : result N * Store :=
  match import_header snap chain_id with
  | Err e => (Err e, s)
  | Ok (expected, fee, pool, vk) =>
    match restore_tables (sn_tables snap) (reset_chain s) with
    | (Err e, s) => (Err e, s)
    | (Ok _, s) =>
      let s := install_meta fee pool (sn_shielded_sealed snap) (sn_height snap) vk s in
      let rebuilt := state_root_at (sn_height snap) (db s) in
      if negb (String.eqb rebuilt expected) then
        (Err ("snapshot state root mismatch: expected " +:+ expected +:+ " but imported state hashes to " +:+ rebuilt),
         reset_chain s)
      else (Ok (sn_height snap), adopt snap s)
    end
  end.
End snapshot.
