(* ===== verification/SnapshotFacts.v ===== *)
(** Theorems about snapshot.rs: what an import leaves behind in every case, and
    that an exported state comes back row by row. *)

From S2P Require Import Prelude Bytes Crypto Types Journal Store Smt SmtFacts Poseidon Shielded State StateFacts.
From S2P Require Import Exec ExecFacts Chain ChainFacts Mirror Snapshot.

Section facts.
Context {HC : Crypto} {HL : CryptoLaws} {HF : Fr} {HK : Compression} {HP : ChainParams}.

(** ** The rows behind the state roots *)

Definition root_tree (t : TreeId) : bool :=
  match t with
  | T_SMT | T_ACCOUNTS | T_TOKENS | T_TOKEN_BALANCES | T_CONTRACTS | T_CONTRACT_STORAGE
  | T_SHIELDED_LEAVES | T_SHIELDED_NULLS => true
  | _ => false
  end.
Definition root_key (k : Key) : bool := root_tree k.1 || bool_decide (k = (T_META, "shielded_pool")).
Definition same_roots (d d' : Db) : Prop := forall k, root_key k = true -> d' !! k = d !! k.

#[export] Instance same_roots_preorder : PreOrder same_roots.
Proof. split; [done|]. intros d1 d2 d3 H12 H23 k Hk. now rewrite H23, H12. Qed.

Lemma state_root_ext d d' : (forall t k, t <> T_SMT -> root_tree t = true -> d' !! (t, k) = d !! (t, k)) ->
  shielded_pool_balance d' = shielded_pool_balance d -> state_root d' = state_root d.
Proof.
  intros Hs Hp. unfold state_root, shielded_root, shielded_leaves, shielded_nulls_digest.
  rewrite !(rows_ext _ d' d) by (intros; now apply Hs). now rewrite Hp.
Qed.

Lemma state_root_at_same h d d' : same_roots d d' -> state_root_at h d' = state_root_at h d.
Proof.
  intros Hs. unfold state_root_at. destruct (_ <? _).
  - apply state_root_ext; [intros t k _ Ht; apply Hs; unfold root_key; cbn; now rewrite Ht|].
    unfold shielded_pool_balance, meta_number. now rewrite Hs by reflexivity.
  - unfold merkle_root, root_hex. f_equal. rewrite !smt_root_node. apply (node_same d d').
    intros t k ->. now apply Hs.
Qed.

(** ** Adopting a verified snapshot *)

#[export] Instance journaled_mark_pruned_below h : Journaled (mark_pruned_below h).
Proof. unfold mark_pruned_below. apply _. Qed.

Lemma steps_do (R : Db -> Db -> Prop) (m : M unit) s : Journaled m -> Steps R m -> R (db s) (db (do_ m s)).
Proof. intros Hj Hm. pose proof (run_db m s) as E. unfold do_. rewrite E. apply Hm. Qed.

(** The rows an adoption writes. *)
Definition adopted_key (k : Key) : bool :=
  bool_decide (k.1 = T_BLOCKS) || bool_decide (k.1 = T_TXS) ||
  bool_decide (k.1 = T_META /\ k.2 ∈ ["tip_height"; "tip_hash"; "finalized_height"; "state_checkpoint"; "pruned_below"]).
Definition frame (k : Key) (d d' : Db) : Prop := d' !! k = d !! k.
#[export] Instance frame_preorder k : PreOrder (frame k).
Proof. split; [done|]. intros d1 d2 d3 H12 H23. unfold frame in *. congruence. Qed.
Lemma frame_jput k t k' v : (t, k') <> k -> Steps (frame k) (jput t k' v).
Proof. intros Hk d. apply lookup_insert_ne. congruence. Qed.

Lemma adopt_frame snap s k : adopted_key k = false -> db (adopt snap s) !! k = db s !! k.
Proof.
  intros Hk. assert (forall t k' v, adopted_key (t, k') = true -> Steps (frame k) (jput t k' v)) as Hput
    by (intros t k' v Hk'; apply frame_jput; congruence).
  unfold adopt. cbv zeta. set (s1 := do_ (put_block _) s). set (s2 := do_ (set_finalized_height _) s1).
  set (s3 := set_state_checkpoint _ _ s2). change (frame k (db s) (db (do_ (mark_pruned_below (sn_height snap)) s3))).
  assert (frame k (db s) (db s1)) as H1
    by (apply (steps_do (frame k)); [apply _|]; unfold put_block; steps; now apply Hput).
  assert (frame k (db s1) (db s2)) as H2
    by (apply (steps_do (frame k)); [apply _|]; unfold set_finalized_height; steps; now apply Hput).
  assert (frame k (db s2) (db s3)) as H3 by (apply lookup_insert_ne; intros <-; discriminate Hk).
  etransitivity; [exact H1|]. etransitivity; [exact H2|]. etransitivity; [exact H3|].
  apply (steps_do (frame k)); [apply _|]. now apply Hput.
Qed.

Lemma adopt_same_roots snap s : same_roots (db s) (db (adopt snap s)).
Proof.
  intros [t k] Hk. apply adopt_frame. unfold root_key, adopted_key in *. cbn [fst snd] in *.
  destruct t; try discriminate Hk; try done.
  apply orb_true_iff in Hk as [Hk|Hk]; [done|]. apply bool_decide_eq_true in Hk. injection Hk as ->. done.
Qed.

Lemma put_block_rows b d :
  let d' := db_after (put_block b) d in
  d' !! (T_BLOCKS, height_key (b_height b)) = Some (VBlock b) /\
  d' !! (T_META, "tip_height") = Some (u64_row (b_height b)) /\
  d' !! (T_META, "tip_hash") = Some (VBytes (b_hash b)) /\
  forall k, k <> "tip_height" -> k <> "tip_hash" -> d' !! (T_META, k) = d !! (T_META, k).
Proof.
  intros d'. set (index := for_each (b_transactions b) (fun tx => jput T_TXS (tx_hash tx) (u64_row (b_height b)))).
  assert (Journaled index) as Hj by (unfold index; journaled).
  assert (Total index) as Ht by (apply total_for_each; apply _).
  assert (same_on (fun t => t <> T_TXS) (<[(T_BLOCKS, height_key (b_height b)) := VBlock b]> d)
    (db_after index (<[(T_BLOCKS, height_key (b_height b)) := VBlock b]> d))) as Hs.
  { enough (Steps (same_on (fun t => t <> T_TXS)) index) as Hi by apply Hi. unfold index. steps.
    apply steps_jput_same. tauto. }
  assert (d' = <[(T_META, "tip_hash") := VBytes (b_hash b)]> (<[(T_META, "tip_height") := u64_row (b_height b)]>
    (db_after index (<[(T_BLOCKS, height_key (b_height b)) := VBlock b]> d)))) as ->.
  { change d' with (run (put_block b) d).2. unfold put_block. fold index. runs.
    unfold run at 1. destruct (Ht (<[(T_BLOCKS, height_key (b_height b)) := VBlock b]> d)) as [u ->]. cbv beta iota. runs. done. }
  repeat split.
  - rewrite !lookup_insert_ne by congruence. rewrite Hs by done. apply lookup_insert_eq.
  - rewrite lookup_insert_ne by congruence. apply lookup_insert_eq.
  - apply lookup_insert_eq.
  - intros k H1 H2. rewrite !lookup_insert_ne by congruence. rewrite Hs by done. now apply lookup_insert_ne.
Qed.

Lemma adopt_reads snap s : b_height (sn_block snap) = sn_height snap -> sn_height snap <= U64_MAX ->
  let d := db (adopt snap s) in
  tip_height d = Some (sn_height snap) /\ tip_hash d = b_hash (sn_block snap) /\
  block (sn_height snap) d = Some (sn_block snap) /\ pruned_below d = sn_height snap /\
  sn_height snap <= finalized_height d /\
  state_checkpoint d = Some (sn_height snap, state_root d).
Proof.
  intros Hh Hb d. pose proof (adopt_same_roots snap s) as Hroots. fold d in Hroots.
  set (d1 := db_after (put_block (sn_block snap)) (db s)).
  pose proof (put_block_rows (sn_block snap) (db s)) as (Hblock & Htip & Hhash & Hmeta). fold d1 in Hblock, Htip, Hhash, Hmeta.
  set (d2 := db_after (set_finalized_height (sn_height snap)) d1).
  assert (d2 = d1 /\ sn_height snap <= finalized_height d1 \/
          d2 = <[(T_META, "finalized_height") := u64_row (sn_height snap)]> d1) as Hfin.
  { unfold d2. change (db_after ?m d1) with (run m d1).2. unfold set_finalized_height. runs.
    destruct (N.leb_spec (sn_height snap) (finalized_height d1)); [left|right]; now runs. }
  assert (d = <[(T_META, "pruned_below") := u64_row (sn_height snap)]>
    (<[(T_META, "state_checkpoint") := VBytes (dec (sn_height snap) +:+ ":" +:+ state_root d2)]> d2)) as Hd.
  { unfold d, adopt, do_. cbv zeta. rewrite (run_db (mark_pruned_below _)). unfold set_state_checkpoint, raw_put. cbn [db].
    rewrite (run_db (set_finalized_height (sn_height snap))), (run_db (put_block (sn_block snap))). reflexivity. }
  assert (state_root d2 = state_root d) as Hroot.
  { symmetry. apply state_root_ext.
    - intros t k _ Ht. rewrite Hd. rewrite !lookup_insert_ne; [done|intros E; injection E as <- _; done..].
    - unfold shielded_pool_balance, meta_number. rewrite Hd. now rewrite !lookup_insert_ne by done. }
  assert (forall k, k <> "pruned_below" -> k <> "state_checkpoint" -> k <> "finalized_height" ->
    d !! (T_META, k) = d1 !! (T_META, k)) as Hk.
  { intros k N1 N2 N3. rewrite Hd, !lookup_insert_ne by congruence.
    destruct Hfin as [[-> _]| ->]; [done|]. now rewrite lookup_insert_ne by congruence. }
  split_and!.
  - unfold tip_height, meta_u64. rewrite Hk, Htip, Hh by done. now apply u64_row_reads.
  - unfold tip_hash. rewrite Hk, Hhash by done. done.
  - unfold block. rewrite Hd, !lookup_insert_ne by done. rewrite <- Hh.
    assert (d2 !! (T_BLOCKS, height_key (b_height (sn_block snap))) = Some (VBlock (sn_block snap))) as ->; [|done].
    destruct Hfin as [[-> _]| ->]; [done|]. now rewrite lookup_insert_ne by done.
  - unfold pruned_below, meta_u64. rewrite Hd, lookup_insert_eq. cbn [mbind option_bind]. now rewrite u64_row_reads.
  - unfold finalized_height, meta_u64 in *. rewrite Hd, !lookup_insert_ne by done.
    destruct Hfin as [[-> Hle]| ->]; [exact Hle|]. rewrite lookup_insert_eq. cbn [mbind option_bind]. now rewrite u64_row_reads.
  - rewrite <- Hroot. replace (state_checkpoint d) with
      (state_checkpoint (db (set_state_checkpoint (sn_height snap) (state_root d2) (mk d2 [])))).
    + now apply checkpoint_reads.
    + unfold state_checkpoint. rewrite Hd. rewrite lookup_insert_ne by done. reflexivity.
Qed.

(** ** Installing the pool metadata and the tree *)

Lemma do_jput t k v s : db (do_ (jput t k v) s) = <[(t, k) := v]> (db s).
Proof. unfold do_. rewrite (run_db (jput t k v)). reflexivity. Qed.

(** The store before the rebuild. *)
Definition with_meta (fee pool sealed : N) (vk : option string) (s : Store) : Store :=
  let s := do_ (set_base_fee fee) s in
  let s := do_ (shielded_set_pool_balance pool) s in
  let s := do_ (shielded_set_last_sealed_count sealed) s in
  match vk with Some vk => do_ (shielded_set_verifying_key vk) s | None => s end.

Lemma with_meta_rows fee pool sealed vk s :
  (forall t k, t <> T_META -> db (with_meta fee pool sealed vk s) !! (t, k) = db s !! (t, k)) /\
  db (with_meta fee pool sealed vk s) !! (T_META, "base_fee") = Some (text_row fee) /\
  db (with_meta fee pool sealed vk s) !! (T_META, "shielded_pool") = Some (text_row pool).
Proof.
  unfold with_meta, set_base_fee, shielded_set_pool_balance, shielded_set_last_sealed_count, shielded_set_verifying_key.
  cbv zeta. destruct vk as [vk|]; rewrite !do_jput.
  all: split; [intros t k Ht; now rewrite !lookup_insert_ne by congruence|split].
  all: repeat (rewrite lookup_insert_eq || (rewrite lookup_insert_ne by done)); done.
Qed.

Lemma build_rows height s t k : t <> T_SMT -> (t, k) <> (T_META, "smt_version") ->
  db (build_merkle_state height s).2 !! (t, k) = db s !! (t, k).
Proof.
  intros Ht Hk. rewrite rebuild_trees, lookup_insert_ne by congruence. rewrite (steps_smt_set_all _ _ t k Ht).
  unfold raw_filter. cbn [db]. apply option_eq. intros v. rewrite map_lookup_filter_Some. cbn.
  rewrite bool_decide_false by done. cbn. tauto.
Qed.

Definition table_tree (t : TreeId) : Prop := t <> T_SMT /\ root_tree t = true.

Lemma rebuild_updates_ext h d d' : same_on table_tree d d' -> shielded_pool_balance d' = shielded_pool_balance d ->
  rebuild_updates h d' = rebuild_updates h d.
Proof.
  intros Hs Hp. unfold rebuild_updates, pool_updates, shielded_root, shielded_leaves, shielded_nulls_digest.
  rewrite !(rows_ext _ d' d) by (intros; now apply Hs). now rewrite Hp.
Qed.

(** The rebuilt root is a function of the tables. *)
Lemma rebuilt_root_ext h s s' : same_on table_tree (db s) (db s') ->
  shielded_pool_balance (db s') = shielded_pool_balance (db s) ->
  merkle_root (db (build_merkle_state h s').2) = merkle_root (db (build_merkle_state h s).2).
Proof.
  intros Hs Hp. unfold merkle_root, root_hex. f_equal.
  destruct (history_rebuild h s) as [Hc Hl], (history_rebuild h s') as [Hc' Hl'].
  rewrite !root_tree_hash by done. apply (tree_hash_ext _ _ _ 0); [reflexivity|reflexivity|].
  intros p Hb. rewrite Hl, Hl' by done. now rewrite (rebuild_updates_ext h (db s)).
Qed.

(** ** Restoring the tables *)

Lemma raw_puts_rows t l s t' k : NoDup l.*1 ->
  db (foldl (fun s '(k, v) => raw_put t k v s) s l) !! (t', k) =
  if decide (t' = t) then match list_to_map (M:=gmap string value) l !! k with Some v => Some v | None => db s !! (t', k) end
  else db s !! (t', k).
Proof.
  revert s. induction l as [|[k0 v] l IH]; intros s Hn; [now case_decide|].
  apply NoDup_cons in Hn as [Hk Hn]. cbn [foldl list_to_map foldr fst snd]. rewrite IH by done. unfold raw_put at 1 2. cbn [db].
  destruct (decide (t' = t)) as [->|Hne]; [|now rewrite lookup_insert_ne by congruence].
  destruct (decide (k = k0)) as [->|Hk0].
  - rewrite (not_elem_of_list_to_map_1 l k0 Hk). now rewrite !lookup_insert_eq.
  - now rewrite !lookup_insert_ne by congruence.
Qed.

Lemma raw_restore_rows name t l s s' : table name = Some t -> NoDup l.*1 -> raw_restore name l s = (Ok tt, s') ->
  forall t' k, db s' !! (t', k) = if decide (t' = t) then list_to_map (M:=gmap string value) l !! k else db s !! (t', k).
Proof.
  intros Ht Hn E t' k. unfold raw_restore in E. rewrite Ht in E. injection E as <-. rewrite raw_puts_rows by done.
  unfold raw_filter. cbn [db]. destruct (decide (t' = t)) as [->|Hne].
  - destruct (list_to_map l !! k); [done|]. apply map_lookup_filter_None_2. right. intros v _. cbn.
    now rewrite bool_decide_true.
  - apply option_eq. intros v. rewrite map_lookup_filter_Some. cbn. rewrite bool_decide_false by done. cbn. tauto.
Qed.

Lemma decode_dump name l : decode_entries name (map (fun '(k, v) => (hex_encode k, Row v)) l) = Ok l.
Proof.
  induction l as [|[k v] l IH]; [done|]. cbn [map decode_entries]. unfold decode_entry. cbn [fst snd row_decode].
  rewrite hex_round_trip. cbn. now rewrite IH.
Qed.

Lemma rows_lookup t d k : list_to_map (M:=gmap string value) (rows t d) !! k = d !! (t, k).
Proof.
  apply option_eq. intros v. rewrite <- elem_of_list_to_map by apply NoDup_rows. apply elem_of_rows.
Qed.

(** Restoring dumps of [d] makes the named trees those of [d]. *)
Lemma restore_dumps d names s : Forall (fun n => is_Some (table n)) names ->
  exists s', restore_tables (map (dump_table d) names) s = (Ok tt, s') /\
    forall t k, db s' !! (t, k) = if decide (t ∈ omap table names) then d !! (t, k) else db s !! (t, k).
Proof.
  intros Hn. revert s. induction Hn as [|name names [t Ht] _ IH]; intros s.
  { exists s. split; [done|]. intros t k. rewrite decide_False; [done|apply not_elem_of_nil]. }
  cbn [map restore_tables omap list_omap]. rewrite Ht.
  change (tb_name (dump_table d name)) with name.
  change (tb_entries (dump_table d name)) with (map (fun '(k, v) => (hex_encode k, Row v)) (raw_dump name d)).
  rewrite decode_dump. unfold raw_dump. rewrite Ht.
  destruct (raw_restore name (rows t d) s) as [r s1] eqn:Hr. assert (r = Ok tt) as ->.
  { unfold raw_restore in Hr. rewrite Ht in Hr. congruence. }
  pose proof (raw_restore_rows name t (rows t d) s s1 Ht (NoDup_rows t d) Hr) as H1.
  destruct (IH s1) as (s' & E & Hs'). exists s'. split; [exact E|]. intros t' k. rewrite Hs', H1, rows_lookup.
  destruct (decide (t' ∈ omap table names)) as [Hin|Hin].
  - rewrite decide_True; [done|]. apply elem_of_cons. now right.
  - destruct (decide (t' = t)) as [->|Hne].
    + rewrite decide_True; [done|]. apply elem_of_cons. now left.
    + rewrite decide_False; [done|]. intros [->|Hc]%elem_of_cons; contradiction.
Qed.

(** ** Properties *)

(** Nothing of a chain is left. *)
Definition wiped (s : Store) : Prop := forall k, is_Some (db s !! k) -> survives_reset k = true.
Lemma reset_wipes s : wiped (reset_chain s).
Proof. intros k [v Hv]. unfold reset_chain, raw_filter in Hv. cbn in Hv. now apply map_lookup_filter_Some in Hv as [_ Hv]. Qed.

(** The first table with an entry that is not hex stops the loop; the tables
    before it are restored, the others are not. *)
Definition torn_at (snap : Snapshot) (s s' : Store) : Prop :=
  exists before t after, sn_tables snap = before ++ t :: after /\
    is_ok (decode_entries (tb_name t) (tb_entries t)) = false /\ restore_tables before (reset_chain s) = (Ok tt, s').

Lemma restore_tables_err ts : forall s e s', restore_tables ts s = (Err e, s') ->
  wiped s' \/ exists before t after, ts = before ++ t :: after /\
    is_ok (decode_entries (tb_name t) (tb_entries t)) = false /\ restore_tables before s = (Ok tt, s').
Proof.
  induction ts as [|t ts IH]; intros s e s' E; [done|]. cbn [restore_tables] in E.
  destruct (decode_entries (tb_name t) (tb_entries t)) as [l|] eqn:Hd.
  - destruct (raw_restore (tb_name t) l s) as [[u|] s1] eqn:Hr; [|injection E as _ <-; left; apply reset_wipes].
    apply IH in E as [|(before & t' & after & -> & Hb & Hs)]; [now left|right]. exists (t :: before), t', after. split; [done|]. split; [done|].
    cbn [restore_tables]. now rewrite Hd, Hr.
  - injection E as _ <-. right. exists [], t, ts. now rewrite Hd.
Qed.

(** The at-rest root a snapshot promises. *)
Definition promised_root (snap : Snapshot) : string :=
  if String.eqb (sn_at_rest_root snap) "" then sn_state_root snap else sn_at_rest_root snap.

Lemma import_header_ok snap chain_id expected fee pool vk :
  import_header snap chain_id = Ok (expected, fee, pool, vk) ->
  sn_chain_id snap = chain_id /\ b_height (sn_block snap) = sn_height snap /\
  compute_hash (sn_block snap) = b_hash (sn_block snap) /\ b_hash (sn_block snap) = sn_block_hash snap /\
  b_state_root (sn_block snap) = sn_state_root snap /\ expected = promised_root snap.
Proof.
  unfold import_header. intros E. destruct (negb _ && negb _); [done|].
  destruct (N.eqb_spec (sn_chain_id snap) chain_id); [|done]. cbn [negb] in E.
  destruct (N.eqb_spec (b_height (sn_block snap)) (sn_height snap)); [|done]. cbn [negb] in E.
  destruct (String.eqb_spec (compute_hash (sn_block snap)) (b_hash (sn_block snap))); [|done].
  destruct (String.eqb_spec (b_hash (sn_block snap)) (sn_block_hash snap)); [|done]. cbn [negb orb] in E.
  destruct (String.eqb_spec (b_state_root (sn_block snap)) (sn_state_root snap)); [|done]. cbn [negb] in E.
  fold (promised_root snap) in E. destruct (parse_u128 (sn_base_fee snap)); [|done]. cbn [ok_or mbind result_bind] in E.
  destruct (if String.eqb (sn_shielded_pool snap) "" then _ else _); [|done]. cbn [mbind result_bind] in E.
  destruct (if String.eqb (sn_shielded_vk snap) "" then _ else _); [|done]. cbn [mbind result_bind] in E.
  injection E as <- _ _ _. done.
Qed.

(** C17: An import installs what it verified, or says how far it came.  It
    verifies the chain, that the block hashes to the hash the file names and
    names the file's state root, and that the imported state hashes to the
    root the file promises: the at-rest root of the file, which the block does
    not cover, or when that is empty the root of the block.  On success the
    block is the tip, final, and the pruning mark, and the integrity checkpoint
    is that of the imported state.  On failure of the header the store is
    untouched; on a mismatch of the root, or a table that is unknown, it is
    wiped; on an entry that is not hex it holds exactly the tables before it. *)
Theorem import_verified snap chain_id s r s' (Hh : sn_height snap <= U64_MAX)
    (Himport : import snap chain_id s = (r, s')) :
  match r with
  | Ok h =>
    h = sn_height snap /\ sn_chain_id snap = chain_id /\ compute_hash (sn_block snap) = sn_block_hash snap /\
    b_state_root (sn_block snap) = sn_state_root snap /\
    state_root_at h (db s') = promised_root snap /\
    tip_height (db s') = Some h /\ tip_hash (db s') = sn_block_hash snap /\ block h (db s') = Some (sn_block snap) /\
    pruned_below (db s') = h /\ h <= finalized_height (db s') /\
    state_checkpoint (db s') = Some (h, state_root (db s'))
  | Err _ =>
    if is_ok (import_header snap chain_id) then wiped s' \/ torn_at snap s s' else s' = s
  end.
Proof.
  unfold import in Himport.
  destruct (import_header snap chain_id) as [[[[expected fee] pool] vk]|e] eqn:Hhead; [|now injection Himport as <- <-].
  apply import_header_ok in Hhead as (Hc & Hb & Hhash & Hbh & Hroot & ->). cbn [is_ok].
  destruct (restore_tables (sn_tables snap) (reset_chain s)) as [[u|e] s1] eqn:Hr; [|injection Himport as <- <-; exact (restore_tables_err _ _ _ _ Hr)].
  cbv zeta in Himport. set (s2 := install_meta _ _ _ _ _ _) in Himport.
  destruct (String.eqb_spec (state_root_at (sn_height snap) (db s2)) (promised_root snap)) as [Hok|_].
  - injection Himport as <- <-. pose proof (adopt_reads snap s2 Hb Hh) as (H1 & H2 & H3 & H4 & H5 & H6).
    rewrite (state_root_at_same _ (db s2)) by apply adopt_same_roots. split_and!; try done; congruence.
  - injection Himport as <- <-. left. apply reset_wipes.
Qed.

Definition snapshot_tree (t : TreeId) : Prop := t ∈ omap table SNAPSHOT_TABLES.

Lemma snapshot_tree_kept t k : snapshot_tree t -> adopted_key (t, k) = false /\ t <> T_META /\ t <> T_SMT.
Proof. unfold snapshot_tree. intros Ht. cbn in Ht. rewrite !elem_of_cons, elem_of_nil in Ht. intuition (subst; done). Qed.

Lemma dec_not_blank n : String.eqb (dec n) "" = false.
Proof. apply String.eqb_neq, dec_nonempty. Qed.

Lemma hex_nonempty b : slen b <> 0%nat -> String.eqb (hex_encode b) "" = false.
Proof.
  intros Hb. apply String.eqb_neq. intros E. pose proof (hex_len b) as H. rewrite E in H. cbn in H. lia.
Qed.

Lemma state_root_at_nonempty h d : String.eqb (state_root_at h d) "" = false.
Proof.
  unfold state_root_at. destruct (_ <? _); unfold state_root, merkle_root, root_hex; apply hex_nonempty.
  - rewrite sha256_len. lia.
  - rewrite smt_root_node. rewrite slen_node by lia. lia.
Qed.

(** The promise is the file's own: whatever tables a file holds, with the block
    of the canonical chain beside them, there is an at-rest root with which it
    imports.  The block and its hash, the only things an operator is told to
    compare, are unchanged, and its signature is not looked at. *)
Definition with_promise (root : string) (snap : Snapshot) : Snapshot :=
  Build_Snapshot (sn_format snap) (sn_chain_id snap) (sn_height snap) (sn_block_hash snap) (sn_state_root snap) root (sn_base_fee snap)
    (sn_shielded_pool snap) (sn_shielded_sealed snap) (sn_shielded_vk snap) (sn_block snap) (sn_tables snap).
Lemma any_tables_import snap chain_id s s1 : is_ok (import_header snap chain_id) = true ->
  restore_tables (sn_tables snap) (reset_chain s) = (Ok tt, s1) ->
  exists root, (import (with_promise root snap) chain_id s).1 = Ok (sn_height snap).
Proof.
  intros Hok Hr. destruct (import_header snap chain_id) as [[[[expected fee] pool] vk]|] eqn:Hhead; [|discriminate]. clear Hok.
  set (root := state_root_at (sn_height snap) (db (install_meta fee pool (sn_shielded_sealed snap) (sn_height snap) vk s1))). exists root.
  assert (import_header (with_promise root snap) chain_id = Ok (root, fee, pool, vk)) as Hhead'.
  { revert Hhead. unfold import_header, with_promise. cbn [sn_format sn_chain_id sn_height sn_block_hash sn_state_root sn_at_rest_root sn_base_fee
      sn_shielded_pool sn_shielded_sealed sn_shielded_vk sn_block]. rewrite (state_root_at_nonempty (sn_height snap) _ : String.eqb root "" = false).
    repeat (destruct (_ || _) || destruct (_ && _) || destruct (negb _)); try discriminate.
    destruct (ok_or (parse_u128 (sn_base_fee snap)) "bad base fee"); [|discriminate]. cbn [mbind result_bind].
    destruct (if String.eqb (sn_shielded_pool snap) "" then _ else _); [|discriminate]. cbn [mbind result_bind].
    destruct (if String.eqb (sn_shielded_vk snap) "" then _ else _); [|discriminate]. cbn [mbind result_bind]. now intros [= _ -> -> ->]. }
  unfold import. rewrite Hhead'. cbn [with_promise sn_tables sn_height sn_shielded_sealed]. rewrite Hr. cbv zeta. fold root. now rewrite String.eqb_refl.
Qed.

(** The header of an export parses to what was exported. *)
Lemma export_header d chain_id snap : export d chain_id = Ok snap ->
  b_height (sn_block snap) = sn_height snap -> compute_hash (sn_block snap) = b_hash (sn_block snap) ->
  sn_tables snap = map (dump_table d) SNAPSHOT_TABLES /\
  exists vk, import_header snap chain_id = Ok (state_root_at (sn_height snap) d, base_fee d, shielded_pool_balance d, vk).
Proof.
  unfold export. cbv zeta. intros E Hb Hhash. destruct (block (export_height d) d) as [b|]; [|done]. cbn [ok_or mbind result_bind] in E.
  destruct (match state_checkpoint d with Some _ => _ | None => _ end); [done|]. injection E as <-.
  cbn [sn_tables sn_format sn_chain_id sn_height sn_block_hash sn_state_root sn_at_rest_root sn_base_fee
    sn_shielded_pool sn_shielded_sealed sn_shielded_vk sn_block] in *.
  split; [done|]. unfold import_header.
  cbn [sn_tables sn_format sn_chain_id sn_height sn_block_hash sn_state_root sn_at_rest_root sn_base_fee
    sn_shielded_pool sn_shielded_sealed sn_shielded_vk sn_block].
  rewrite !N.eqb_refl, Hb, N.eqb_refl, Hhash, !String.eqb_refl. cbn [negb orb andb].
  rewrite state_root_at_nonempty. assert (base_fee d <= U128_MAX) as Hf by now apply meta_number_bound.
  assert (shielded_pool_balance d <= U128_MAX) as Hp by now apply meta_number_bound.
  unfold parse_u128. rewrite !parse_uint_dec, dec_not_blank by done. cbn [ok_or mbind result_bind].
  destruct (shielded_verifying_key d) as [vk|]; [|eexists; reflexivity].
  destruct (String.eqb (hex_encode vk) ""); [eexists; reflexivity|]. rewrite hex_round_trip. eexists. reflexivity.
Qed.

Lemma exported_restores d chain_id snap s (Hexport : export d chain_id = Ok snap)
    (Hb : b_height (sn_block snap) = sn_height snap) (Hhash : compute_hash (sn_block snap) = b_hash (sn_block snap))
    (Hroot : STATE_ROOT_V2_ACTIVATION_HEIGHT <= sn_height snap ->
             merkle_root (db (build_merkle_state (sn_height snap) (mk d [])).2) = merkle_root d) :
  exists s', import snap chain_id s = (Ok (sn_height snap), s') /\
    same_on snapshot_tree d (db s') /\ base_fee (db s') = base_fee d /\
    shielded_pool_balance (db s') = shielded_pool_balance d /\
    state_root_at (sn_height snap) (db s') = state_root_at (sn_height snap) d.
Proof.
  destruct (export_header d chain_id snap Hexport Hb Hhash) as (Htables & vk & Hhead).
  destruct (restore_dumps d SNAPSHOT_TABLES (reset_chain s)) as (s1 & Hr & H1).
  { repeat constructor; eexists; reflexivity. }
  set (fee := base_fee d) in *. set (pool := shielded_pool_balance d) in *.
  set (s2 := with_meta fee pool (sn_shielded_sealed snap) vk s1).
  set (s3 := (build_merkle_state (sn_height snap) s2).2).
  destruct (with_meta_rows fee pool (sn_shielded_sealed snap) vk s1) as (Hm & Hfee & Hpool). fold s2 in Hm, Hfee, Hpool.
  assert (fee <= U128_MAX) as Hf by now apply meta_number_bound.
  assert (pool <= U128_MAX) as Hp by now apply meta_number_bound.
  assert (same_on snapshot_tree d (db s2)) as H2.
  { intros t k Ht. destruct (snapshot_tree_kept t k Ht) as (_ & Hmeta & _). rewrite Hm, H1 by done. now rewrite decide_True. }
  assert (same_on snapshot_tree d (db s3)) as H3.
  { intros t k Ht. destruct (snapshot_tree_kept t k Ht) as (_ & Hmeta & Hsmt). unfold s3.
    rewrite build_rows by congruence. now apply H2. }
  assert (same_on table_tree d (db s2)) as Htt.
  { intros t k [Hsmt Ht]. apply H2. unfold snapshot_tree. destruct t; try done; cbn; rewrite !elem_of_cons; tauto. }
  assert (shielded_pool_balance (db s2) = pool) as Hp2 by now apply meta_number_dec.
  assert (shielded_pool_balance (db s3) = pool) as Hp3.
  { apply meta_number_dec; [done|]. unfold s3. now rewrite build_rows by done. }
  assert (state_root_at (sn_height snap) (db s3) = state_root_at (sn_height snap) d) as Hsr.
  { unfold state_root_at in *. destruct (N.ltb_spec (sn_height snap) STATE_ROOT_V2_ACTIVATION_HEIGHT) as [_|Hv2].
    - apply state_root_ext; [|now rewrite Hp3]. intros t k Hsmt Ht. unfold s3.
      rewrite build_rows; [now apply Htt|done|]. intros E. injection E as -> _. done.
    - unfold s3. rewrite (rebuilt_root_ext _ (mk d []) s2); [now apply Hroot|exact Htt|now rewrite Hp2]. }
  exists (adopt snap s3). split_and!.
  - unfold import. rewrite Hhead, Htables, Hr. cbv zeta. change (install_meta _ _ _ _ _ _) with s3.
    now rewrite Hsr, String.eqb_refl.
  - intros t k Ht. destruct (snapshot_tree_kept t k Ht) as (Hk & _). rewrite adopt_frame by done. now apply H3.
  - unfold base_fee at 1. apply meta_number_dec; [done|]. rewrite adopt_frame by done. unfold s3. now rewrite build_rows by done.
  - apply meta_number_dec; [done|]. rewrite adopt_frame by done. unfold s3. now rewrite build_rows by done.
  - rewrite (state_root_at_same _ (db s3)) by apply adopt_same_roots. exact Hsr.
Qed.

(** C18: A snapshot restores the state it was taken from.  Importing an exported
    snapshot into any store succeeds, every row of the eleven exported tables,
    the base fee and the pool balance are those of the exporter, and so is the
    state root, provided the exporter's block is well formed and, from the
    Merkle upgrade on, its tree is the rebuild of its tables. *)
Theorem snapshot_round_trip d chain_id snap s (Hexport : export d chain_id = Ok snap)
    (Hb : b_height (sn_block snap) = sn_height snap) (Hhash : compute_hash (sn_block snap) = b_hash (sn_block snap))
    (Hroot : STATE_ROOT_V2_ACTIVATION_HEIGHT <= sn_height snap ->
             merkle_root (db (build_merkle_state (sn_height snap) (mk d [])).2) = merkle_root d) :
  exists s', import snap chain_id s = (Ok (sn_height snap), s') /\
    same_on snapshot_tree d (db s') /\ base_fee (db s') = base_fee d /\
    shielded_pool_balance (db s') = shielded_pool_balance d /\
    state_root_at (sn_height snap) (db s') = state_root_at (sn_height snap) d.
Proof. now apply exported_restores. Qed.

(** The tables of an export are the current ones, whatever finalized height the
    file is labelled with. *)
Lemma export_dumps_current d h chain_id snap : 0 < h -> h <= U64_MAX ->
  export (<[(T_META, "finalized_height") := u64_row h]> d) chain_id = Ok snap ->
  sn_height snap = h /\ sn_tables snap = map (dump_table d) SNAPSHOT_TABLES.
Proof.
  intros Hpos Hh. unfold export. cbv zeta. set (d' := <[_ := _]> d).
  assert (export_height d' = h) as ->.
  { unfold export_height, finalized_height, meta_u64, d'. rewrite lookup_insert_eq. cbn [mbind option_bind].
    rewrite u64_row_reads by done. now rewrite (proj2 (N.ltb_lt _ _)). }
  intros E. destruct (block h d') as [b|]; [|done]. cbn [ok_or mbind result_bind] in E.
  destruct (match state_checkpoint d' with Some _ => _ | None => _ end); [done|]. injection E as <-.
  split; [done|]. change (map (dump_table d') SNAPSHOT_TABLES = map (dump_table d) SNAPSHOT_TABLES).
  apply map_ext. intros name. unfold dump_table, raw_dump.
  destruct (table name) as [t|] eqn:Ht; [|done]. f_equal. f_equal. apply rows_ext. intros k.
  apply lookup_insert_ne. intros E. injection E as <- _.
  unfold table in Ht. repeat (destruct (String.eqb name _); [discriminate|]). discriminate.
Qed.
End facts.

(** A node at height 3 whose only account is Alice's. *)
Module Snapshot_example.
Import Toy Toy_field Exec_example Mirror_example.

Definition tip_block : Block :=
  let b := unsigned_block 3 zero_hash 1000 "ab" "genesis" "" [] in with_block_hash (compute_hash b) b.
Definition exporter : Db := {[ (T_ACCOUNTS, alice) := VAccount funded; (T_META, "tip_height") := u64_row 3;
                               (T_BLOCKS, height_key 3) := VBlock tip_block ]}.
Definition snap : Snapshot := Eval vm_compute in
  match export exporter CHAIN_ID with Ok s => s | Err _ => Build_Snapshot 0 0 0 "" "" "" "" "" 0 "" tip_block [] end.

Lemma exported : export exporter CHAIN_ID = Ok snap.
Proof. vm_compute. reflexivity. Qed.
Lemma snap_block : b_height (sn_block snap) = sn_height snap /\ compute_hash (sn_block snap) = b_hash (sn_block snap).
Proof. split; vm_compute; reflexivity. Qed.
Lemma snap_low : STATE_ROOT_V2_ACTIVATION_HEIGHT <= sn_height snap ->
  merkle_root (db (build_merkle_state (sn_height snap) (mk exporter [])).2) = merkle_root exporter.
Proof. intros H. exfalso. revert H. vm_compute. intros H. now apply H. Qed.

Lemma snapshot_round_trip_witness :
  exists s', import snap CHAIN_ID empty_store = (Ok (sn_height snap), s') /\
    same_on snapshot_tree exporter (db s') /\ base_fee (db s') = base_fee exporter /\
    shielded_pool_balance (db s') = shielded_pool_balance exporter /\
    state_root_at (sn_height snap) (db s') = state_root_at (sn_height snap) exporter.
Proof.
  exact (snapshot_round_trip exporter CHAIN_ID snap empty_store exported (proj1 snap_block) (proj2 snap_block) snap_low).
Defined.

Lemma import_verified_witness :
  exists s', import snap CHAIN_ID empty_store = (Ok (sn_height snap), s') /\
    tip_height (db s') = Some (sn_height snap) /\ state_root_at (sn_height snap) (db s') = promised_root snap.
Proof.
  destruct (exported_restores exporter CHAIN_ID snap empty_store exported (proj1 snap_block) (proj2 snap_block) snap_low)
    as (s' & E & _). exists s'. split; [exact E|].
  assert (sn_height snap <= U64_MAX) as Hh by (vm_compute; discriminate).
  destruct (import_verified snap CHAIN_ID empty_store _ s' Hh E) as (_ & _ & _ & _ & Hroot & Htip & _).
  split; [exact Htip|exact Hroot].
Defined.

(** An entry that is not hex, after a table already restored: the import fails
    and its accounts stay. *)
Definition torn : Snapshot := Build_Snapshot (sn_format snap) (sn_chain_id snap) (sn_height snap) (sn_block_hash snap)
  (sn_state_root snap) (sn_at_rest_root snap) (sn_base_fee snap) (sn_shielded_pool snap) (sn_shielded_sealed snap)
  (sn_shielded_vk snap) (sn_block snap)
  [ {| tb_name := "accounts"; tb_entries := [(hex_encode "mallory", Row (VAccount funded))] |};
    {| tb_name := "stakers"; tb_entries := [(hex_encode "mallory", Not_hex)] |} ].
Lemma torn_import_stays :
  let '(r, s') := import torn CHAIN_ID (mk exporter []) in
  is_ok r = false /\ account "mallory" (db s') = funded /\ account alice (db s') = default_account.
Proof. vm_compute. auto. Qed.
End Snapshot_example.
