(* ===== verification/Simulate.v ===== *)
(** simulate.rs: transaction preflight, and its agreement with admission.

    The JSON reply is the record [Preflight].  The preflight reports every
    problem at once; admission stops at the first.  The theorem says when the
    two verdicts coincide. *)

From S2P Require Import Prelude Bytes Crypto Types Journal Store Smt Poseidon Shielded State Fees Tokens Slashing Votes.
From S2P Require Import Mempool Contracts Circuit Exec ExecFacts Chain.
From Stdlib Require String.

(* [src/src/simulate.rs 19-27 debit_for] *)
Definition debit_for (tx : Transaction) : N :=
  match tx_kind tx with
  | Unstake | ReportEquivocation | Unjail => tx_fee tx
  | CreateToken => tx_fee tx +! TOKEN_CREATION_FEE
  | MintToken | TokenTransfer | BurnToken => tx_fee tx
  | DeployContract => tx_fee tx +! DEPLOY_FEE +! tx_amount tx
  | _ => tx_amount tx +! tx_fee tx
  end.

(** The reply. *)
Record Preflight := {
  pf_hash : string; pf_kind : string; pf_from : option string; pf_to : string; pf_signature_valid : bool;
  pf_chain_id : N; pf_height : N; pf_expected_nonce : option N; pf_base_fee : N; pf_fee_floor : N; pf_fee : N;
  pf_total_debit : N; pf_balance : N; pf_balance_after : option N; pf_errors : list string; pf_warnings : list string
}.
Definition pf_ok (p : Preflight) : bool := match pf_errors p with [] => true | _ => false end.

Definition err_list {A} (r : result A) : list string := match r with Ok _ => [] | Err e => [e] end.
Definition err_if (c : bool) (msg : string) : list string := if c then [msg] else [].

Section simulate.
Context {HC : Crypto} {HF : Fr} {HK : Compression} {HP : ChainParams} {HJ : EvidenceJson} {HW : Wasm} {HG : Groth16}.

(** The rules of the kind, all problems. *)
(* [src/src/simulate.rs 72-143! preflight] *)
Definition kind_problems (d : Db) (tx : Transaction) (sender : string) : list string :=
  match tx_kind tx with
  | Shield | PrivateTransfer | Unshield =>
    if tip d +!! 1 <? shielded_activation then ["shielded pool is not active yet"] else err_list (check_shielded_shape tx)
  | Unstake =>
    if tx_amount tx =? 0 then ["unstake amount must be positive"]
    else err_if (staked (account sender d) <? tx_amount tx) "not enough staked"
  | Stake => err_if (tx_amount tx =? 0) "stake amount must be positive"
  | Transfer => err_if (negb (is_valid_address (tx_to tx))) "invalid recipient address"
  | CreateToken => err_list (check_create d sender (tx_nonce tx) (tx_payload tx))
  | MintToken => err_list (check_mint d sender (tx_to tx) (tx_amount tx) (tx_payload tx))
  | TokenTransfer => err_list (check_token_transfer d sender (tx_to tx) (tx_amount tx) (tx_payload tx))
  | BurnToken => err_list (check_burn d sender (tx_amount tx) (tx_payload tx))
  | DeployContract =>
    match decode_code (tx_payload tx) with
    | Ok code => err_list (check_deploy code)
    | Err e => [e]
    end
  | CallContract => err_list (check_call d (tx_to tx)) ++ err_list (decode_args (tx_payload tx))
  | ReportEquivocation | Unjail => []
  end.

(** What is checked once the sender is known. *)
Definition sender_problems (n : Node) (tx : Transaction) (sender : string) : list string :=
  let d := n_db n in
  let pending := pending_nonce sender n in
  let bal := balance (account sender d) in
  err_if (negb (tx_nonce tx =? pending)) ("bad nonce: expected " +:+ dec pending +:+ ", got " +:+ dec (tx_nonce tx)) ++
  kind_problems d tx sender ++
  err_if (bal <? debit_for tx)
    ("insufficient balance: need " +:+ format_inaz (debit_for tx) +:+ " INAZ, have " +:+ format_inaz bal) ++
  err_if (bool_decide (is_Some (tx_height (tx_hash tx) d))) "this transaction is already on chain".

(* [src/src/simulate.rs 31-187 preflight] *)
Definition preflight (n : Node) (tx : Transaction) : Preflight :=
  let d := n_db n in
  let next_height := tip d +!! 1 in
  let floor := required_fee next_height (base_fee d) in
  let chain := g_chain_id (n_genesis n) in
  let from := sender tx in
  let errors :=
    err_if (negb (tx_chain_id tx =? chain))
      ("wrong chain id: transaction says " +:+ dec (tx_chain_id tx) +:+ ", this chain is " +:+ dec chain) ++
    (if tx_fee tx <? MIN_FEE then ["fee below protocol minimum (" +:+ dec MIN_FEE +:+ " rai)"]
     else err_if (tx_fee tx <? floor) ("fee below current base fee (" +:+ dec floor +:+ " rai)")) ++
    err_if (negb (verify_signature tx)) "invalid signature" ++
    match from with
    | None => ["invalid sender public key"]
    | Some s => sender_problems n tx s
    end in
  let bal := match from with Some s => balance (account s d) | None => 0 end in
  {| pf_hash := tx_hash tx; pf_kind := tag (tx_kind tx); pf_from := from; pf_to := tx_to tx;
     pf_signature_valid := verify_signature tx; pf_chain_id := chain; pf_height := next_height;
     pf_expected_nonce := (s ← from; Some (pending_nonce s n)); pf_base_fee := base_fee d; pf_fee_floor := floor;
     pf_fee := tx_fee tx; pf_total_debit := debit_for tx; pf_balance := bal;
     pf_balance_after := (_ ← from; if bal <? debit_for tx then None else Some (bal -! debit_for tx));
     pf_errors := errors;
     pf_warnings := err_if (match errors with [] => true | _ => false end && (tx_fee tx <? sat_mul128 floor 2))
       "fee is close to the current base fee; it may be crowded out if demand rises" |}.

(** ** Agreement with admission *)

(** The kinds whose rules the preflight leaves out. *)
Definition unchecked_kind (k : TxKind) : bool := match k with ReportEquivocation | Unjail => true | _ => false end.

Lemma err_list_nil {A} (r : result A) : err_list r = [] <-> is_ok r = true.
Proof. now destruct r. Qed.
Lemma err_if_nil c msg : err_if c msg = [] <-> c = false.
Proof. now destruct c. Qed.

Lemma kind_problems_nil d tx sender : unchecked_kind (tx_kind tx) = false ->
  kind_problems d tx sender = [] <-> is_ok (admit_kind d tx sender) = true.
Proof.
  intros Hk. unfold kind_problems, admit_kind. destruct (tx_kind tx); try discriminate Hk.
  all: rewrite ?err_list_nil; try reflexivity.
  all: repeat (destruct (_ <? _) || destruct (_ =? _) || destruct (negb (is_valid_address _))); rewrite ?err_list_nil; try done.
  - destruct (decode_code (tx_payload tx)); cbn [mbind result_bind]; [apply err_list_nil|done].
  - destruct (check_call d (tx_to tx)); [|done]. cbn [err_list app mbind result_bind]. rewrite err_list_nil.
    now destruct (decode_args (tx_payload tx)).
Qed.

Lemma kind_problems_unchecked d tx sender : unchecked_kind (tx_kind tx) = true -> kind_problems d tx sender = [].
Proof. unfold kind_problems. now destruct (tx_kind tx). Qed.

(** The sums of [debit_for] stay in range. *)
Definition debit_in_range (tx : Transaction) : Prop :=
  tx_amount tx + tx_fee tx + TOKEN_CREATION_FEE + DEPLOY_FEE <= U128_MAX.

Lemma debit_required tx : debit_in_range tx -> debit_for tx = required_of tx.
Proof.
  unfold debit_in_range, debit_for, required_of, sat_add128, U128_MAX. intros H.
  destruct (tx_kind tx); repeat no_wrap; lia.
Qed.

(** What admission looks at and the preflight does not: the pool, and the rules
    of reports and unjails. *)
Definition pool_admits (n : Node) (tx : Transaction) (sender : string) : Prop :=
  pending_for sender (n_mempool n) < MAX_PENDING_PER_SENDER /\
  Mempool.contains (tx_hash tx) (n_mempool n) = false /\
  (is_full (n_mempool n) = true -> (evict_cheapest_below (tx_fee tx) (n_mempool n)).1 <> None).

Lemma ok_bind {A B} (r : result A) (f : A -> result B) :
  is_ok (mbind f r) = match r with Ok a => is_ok (f a) | Err _ => false end.
Proof. now destruct r. Qed.

Lemma admit_checks_ok d pool tx hash sender floor :
  is_ok (admit_checks d pool tx hash sender floor) = true <->
  floor <= tx_fee tx /\ is_ok (admit_kind d tx sender) = true /\
  tx_nonce tx = nonce (account sender d) +!! pending_for sender pool /\ required_of tx <= balance (account sender d) /\
  pending_for sender pool < MAX_PENDING_PER_SENDER /\ tx_height hash d = None /\ Mempool.contains hash pool = false.
Proof.
  unfold admit_checks. destruct (N.ltb_spec (tx_fee tx) floor); [split; [done|lia]|].
  rewrite ok_bind. destruct (admit_kind d tx sender) as [[]|]; [|split; [done|now intros (_ & ? & _)]]. cbv zeta.
  destruct (N.eqb_spec (tx_nonce tx) (nonce (account sender d) +!! pending_for sender pool)); cbn [negb];
    [|split; [done|now intros (_ & _ & ? & _)]].
  destruct (N.ltb_spec (balance (account sender d)) (required_of tx)); [split; [done|lia]|].
  destruct (N.leb_spec MAX_PENDING_PER_SENDER (pending_for sender pool)); [split; [done|lia]|].
  destruct (tx_height hash d) as [h|]; [rewrite bool_decide_true by done; split; [done|now intros (_ & _ & _ & _ & _ & ? & _)]|].
  rewrite bool_decide_false by (intros [? ?]; done). cbn [orb].
  destruct (Mempool.contains hash pool); split; try done. now intros (_ & _ & _ & _ & _ & _ & ?).
Qed.

Lemma admit_tx_ok d pool tx hash sender floor :
  is_ok (admit_tx d pool tx hash sender floor).1 = true <->
  is_ok (admit_checks d pool tx hash sender floor) = true /\
  (is_full pool = true -> (evict_cheapest_below (tx_fee tx) pool).1 <> None).
Proof.
  unfold admit_tx. destruct (admit_checks d pool tx hash sender floor) as [u|e]; [|split; [done|now intros [? _]]].
  destruct (is_full pool); [|now split].
  destruct (evict_cheapest_below (tx_fee tx) pool) as [[f|] p]; cbn [fst].
  - split; [now split|done].
  - split; [done|]. intros [_ H]. now destruct H.
Qed.

Lemma accept_tx_single tx n : halt_reason (n_db n) = None ->
  (accept_tx tx n).1 = match precheck_tx (g_chain_id (n_genesis n)) tx with
    | Err e => Err e
    | Ok (tx, hash, sender) => (admit_tx (n_db n) (n_mempool n) tx hash sender (fee_floor n)).1
    end.
Proof.
  intros Hh. unfold accept_tx, accept_batch. rewrite Hh. unfold precheck_batch. cbn [length].
  change (Nat.ltb 1 VERIFY_PARALLEL_THRESHOLD) with true. cbn [map admit_all].
  destruct (precheck_tx _ tx) as [[[tx' hash] s]|e]; [|done].
  now destruct (admit_tx _ _ _ _ _ _) as [r pool].
Qed.

Lemma precheck_tx_ok chain tx :
  match precheck_tx chain tx with
  | Ok (tx', hash, s) => tx' = tx /\ hash = tx_hash tx /\ sender tx = Some s /\
      tx_chain_id tx = chain /\ MIN_FEE <= tx_fee tx /\ verify_signature tx = true
  | Err _ => tx_chain_id tx <> chain \/ tx_fee tx < MIN_FEE \/ verify_signature tx = false \/ sender tx = None
  end.
Proof.
  unfold precheck_tx. destruct (N.eqb_spec (tx_chain_id tx) chain); cbn [negb]; [|now left].
  destruct (N.ltb_spec (tx_fee tx) MIN_FEE); [now right; left|].
  destruct (verify_signature tx); cbn [negb]; [|now right; right; left].
  destruct (sender tx); [done|now right; right; right].
Qed.

Lemma app_nil_iff {A} (l k : list A) : l ++ k = [] <-> l = [] /\ k = [].
Proof. destruct l, k; cbn; intuition discriminate. Qed.
Lemma no_entries (l : list string) : match l with [] => true | _ => false end = true <-> l = [].
Proof. now destruct l. Qed.

(** The preflight without problems, condition by condition. *)
Lemma preflight_ok n tx : pf_ok (preflight n tx) = true <->
  exists s, sender tx = Some s /\ tx_chain_id tx = g_chain_id (n_genesis n) /\ MIN_FEE <= tx_fee tx /\
    fee_floor n <= tx_fee tx /\ verify_signature tx = true /\ sender_problems n tx s = [].
Proof.
  unfold pf_ok. etransitivity; [apply no_entries|]. unfold preflight. cbv zeta. cbn [pf_errors]. fold (fee_floor n).
  destruct (N.eqb_spec (tx_chain_id tx) (g_chain_id (n_genesis n))); cbn [negb err_if app];
    [|split; [done|now intros (s & _ & ? & _)]].
  destruct (N.ltb_spec (tx_fee tx) MIN_FEE); [split; [done|intros (s & _ & _ & ? & _); lia]|].
  destruct (N.ltb_spec (tx_fee tx) (fee_floor n)); cbn [err_if app];
    [split; [done|intros (s & _ & _ & _ & ? & _); lia]|].
  destruct (verify_signature tx); cbn [negb err_if app]; [|split; [done|now intros (s & _ & _ & _ & _ & ? & _)]].
  destruct (sender tx) as [s|]; [|split; [done|now intros (s & ? & _)]].
  split; [intros ?; now exists s|]. now intros (s' & [= <-] & _ & _ & _ & _ & ?).
Qed.

Lemma sender_problems_nil n tx s : debit_in_range tx ->
  sender_problems n tx s = [] <->
  tx_nonce tx = pending_nonce s n /\ kind_problems (n_db n) tx s = [] /\
  required_of tx <= balance (account s (n_db n)) /\ tx_height (tx_hash tx) (n_db n) = None.
Proof.
  intros Hr. unfold sender_problems. cbv zeta. rewrite (debit_required tx Hr), !app_nil_iff, !err_if_nil.
  rewrite negb_false_iff, N.eqb_eq, N.ltb_ge, bool_decide_eq_false, eq_None_not_Some. done.
Qed.

(** C34: The preflight predicts admission.  On a node that is not halted, for a
    transaction whose cost fits in 128 bits, the node admits the transaction if
    and only if the preflight reports no problem and the pool has room for it:
    it is not already queued, its sender is below the queue cap, and a full
    pool can evict for its fee.  The rules of equivocation reports and unjails,
    which the preflight does not run, are the only others. *)
Theorem preflight_predicts_admission n tx (Hhalt : halt_reason (n_db n) = None) (Hrange : debit_in_range tx) :
  is_ok (accept_tx tx n).1 = true <->
  pf_ok (preflight n tx) = true /\
  exists s, sender tx = Some s /\ pool_admits n tx s /\
    (unchecked_kind (tx_kind tx) = true -> is_ok (admit_kind (n_db n) tx s) = true).
Proof.
  rewrite (accept_tx_single tx n Hhalt), preflight_ok.
  pose proof (precheck_tx_ok (g_chain_id (n_genesis n)) tx) as Hpre.
  destruct (precheck_tx _ tx) as [[[tx' hash] s]|e].
  - destruct Hpre as (-> & -> & Hs & Hc & Hm & Hv). rewrite admit_tx_ok, admit_checks_ok. unfold pool_admits.
    assert (is_ok (admit_kind (n_db n) tx s) = true <->
      kind_problems (n_db n) tx s = [] /\ (unchecked_kind (tx_kind tx) = true -> is_ok (admit_kind (n_db n) tx s) = true)) as Hk.
    { destruct (unchecked_kind (tx_kind tx)) eqn:Hu; [rewrite kind_problems_unchecked by done|rewrite kind_problems_nil by done];
        intuition congruence. }
    split.
    + intros [(Hf & Ha & Hn & Hb & Hp & Ht & Hcon) Hroom]. apply Hk in Ha as [Ha1 Ha2]. split.
      * exists s. rewrite sender_problems_nil by done. done.
      * exists s. done.
    + intros [(s1 & Hs1 & _ & _ & Hf & _ & Hsp) (s2 & Hs2 & (Hp & Hcon & Hroom) & Hu)].
      assert (s1 = s) as -> by congruence. assert (s2 = s) as -> by congruence.
      apply sender_problems_nil in Hsp as (Hn & Hkp & Hb & Ht); [|done].
      split; [|exact Hroom]. split_and!; try done. now apply Hk.
  - split; [done|]. intros [(s & Hs & Hc & Hm & _ & Hv & _) _]. exfalso.
    destruct Hpre as [Hpre|[Hpre|[Hpre|Hpre]]]; [done|lia|congruence|congruence].
Qed.
End simulate.

(** An unjail by an account that was never jailed passes the preflight and is
    refused. *)
Module Simulate_example.
Import Toy Toy_field Exec_example.

Definition genesis : Genesis := default_devnet alice.
Definition node (tx : Transaction) : Node := node_new (mk {[ (T_ACCOUNTS, alice) := VAccount wallet ]} []) genesis key 0.
Definition signed (tx : Transaction) : Transaction := with_signature (sign_hex key (canonical_signing_bytes tx)) tx.
Definition unjail : Transaction := Eval vm_compute in
  signed (Build_Transaction Unjail (pubkey_hex key) alice 0 1000 0 CHAIN_ID None None "").
Definition transfer : Transaction := Eval vm_compute in
  signed (Build_Transaction Transfer (pubkey_hex key) alice 700 1000 0 CHAIN_ID None None "").

Lemma unjail_passes_preflight :
  pf_errors (preflight (node unjail) unjail) = [] /\ (accept_tx unjail (node unjail)).1 = Err "validator is not jailed".
Proof. vm_compute. auto. Qed.

Lemma preflight_predicts_admission_witness :
  pf_ok (preflight (node transfer) transfer) = true /\ is_ok (accept_tx transfer (node transfer)).1 = true.
Proof.
  split; [vm_compute; reflexivity|].
  apply (preflight_predicts_admission (node transfer) transfer); [vm_compute; reflexivity|vm_compute; discriminate|].
  split; [vm_compute; reflexivity|]. exists alice. split; [vm_compute; reflexivity|]. split; [|discriminate].
  repeat split; try (vm_compute; reflexivity). vm_compute. discriminate.
Defined.
End Simulate_example.
