(* ===== verification/Limits.v ===== *)
(** limits.rs: the abuse limits shared by the listeners.

    The connection guard (a lock-free counter), the per-host counter, the
    reputation book, the token buckets and the constant-time comparison.  A
    monotonic [Instant] is a number of nanoseconds; a mutex-protected table is
    a map that the operation takes and returns.  The token arithmetic is
    binary64, by the specification floats of the Standard Library. *)

From S2P Require Import Prelude Bytes.
From Stdlib Require Import Ascii.
From Stdlib Require String SpecFloat.
Local Open Scope N_scope.

Inductive IpAddr := V4 (bits : N) | V6 (bits : N).
#[export] Instance ip_eq_dec : EqDecision IpAddr.
Proof. solve_decision. Defined.
#[export] Instance ip_countable : Countable IpAddr.
Proof.
  refine (inj_countable' (fun a => match a with V4 n => inl n | V6 n => inr n end)
    (fun s => match s with inl n => V4 n | inr n => V6 n end) _). now intros [].
Defined.

Definition NANOS : N := 1000000000.
(** [now.duration_since(seen).as_secs()]; a negative difference is zero. *)
Definition secs_since (seen now : N) : N := (now - seen) / NANOS.

(** ** Comparison of secrets *)

(* [src/src/limits.rs 93-105 secret_eq] *)
Definition secret_eq (a b : string) : bool :=
  let a := map N_of_ascii (String.list_ascii_of_string a) in
  let b := map N_of_ascii (String.list_ascii_of_string b) in
  if negb (Nat.eqb (length a) (length b)) then false
  else foldl (fun diff xy => N.lor diff (N.lxor xy.1 xy.2)) 0 (zip a b) =? 0.

Lemma diff_zero (l : list (N * N)) d :
  foldl (fun diff xy => N.lor diff (N.lxor xy.1 xy.2)) d l = 0 <-> d = 0 /\ Forall (fun xy => xy.1 = xy.2) l.
Proof.
  revert d. induction l as [|[x y] l IH]; intros d; cbn [foldl].
  - split; [now intros ->|now intros [-> _]].
  - rewrite IH, N.lor_eq_0_iff, N.lxor_eq_0_iff, Forall_cons. cbn [fst snd]. tauto.
Qed.

Lemma zip_equal {A} (a b : list A) : length a = length b -> Forall (fun xy => xy.1 = xy.2) (zip a b) -> a = b.
Proof.
  revert b. induction a as [|x a IH]; intros [|y b] Hl Hf; try discriminate; [done|].
  apply Forall_cons in Hf as [E Hf]. cbn in E. subst. f_equal. apply IH; [now injection Hl|done].
Qed.
Lemma zip_self {A} (a : list A) : Forall (fun xy => xy.1 = xy.2) (zip a a).
Proof. induction a; cbn; [done|]. now constructor. Qed.

(** Comparing a presented secret by accumulating the xor of every byte decides
    exactly string equality. *)
Lemma secret_eq_spec a b : secret_eq a b = true <-> a = b.
Proof.
  unfold secret_eq. cbv zeta. set (f := fun s => map N_of_ascii (String.list_ascii_of_string s)).
  change (map N_of_ascii (String.list_ascii_of_string a)) with (f a).
  change (map N_of_ascii (String.list_ascii_of_string b)) with (f b).
  assert (forall x y, f x = f y -> x = y) as Hinj.
  { intros x y E. unfold f in E. apply (f_equal (map ascii_of_N)) in E. rewrite !map_map in E.
    rewrite !(map_ext (fun c => ascii_of_N (N_of_ascii c)) id), !map_id in E by apply ascii_N_embedding.
    rewrite <- (String.string_of_list_ascii_of_string x), E. apply String.string_of_list_ascii_of_string. }
  split.
  - destruct (Nat.eqb_spec (length (f a)) (length (f b))) as [Hl|]; cbn [negb]; [|intros [=]].
    rewrite N.eqb_eq, diff_zero. intros [_ H]. now apply Hinj, zip_equal.
  - intros ->. rewrite Nat.eqb_refl. cbn [negb]. rewrite N.eqb_eq, diff_zero. split; [done|apply zip_self].
Qed.

(** ** The connection guard

    [try_acquire] loads the counter and then retries a compare-and-exchange.
    [attempt] is one such loop step as a function of the value the thread last
    saw; [guard_step] interleaves the steps of any number of threads.  The
    loads are relaxed: the value a thread sees before its exchange, or from a
    failed exchange, is any number. *)

(* [src/src/limits.rs 111-114 ConnGuard] *)
Record ConnGuard := { live : N; max_live : N }.

(* [src/src/limits.rs 116-121 ConnGuard::new] *)
Definition guard_new (max : N) : ConnGuard := {| live := 0; max_live := max |}.

Definition with_live (n : N) (g : ConnGuard) : ConnGuard := {| live := n; max_live := max_live g |}.

Inductive Attempt := Refused | Acquired (g : ConnGuard) | Retry (seen : N).

(* [src/src/limits.rs 126-136 ConnGuard::try_acquire] *)
Definition attempt (cur : N) (g : ConnGuard) : Attempt :=
  if max_live g <=? cur then Refused
  else if live g =? cur then Acquired (with_live (cur +!! 1) g) else Retry (live g).

(** The whole operation when no other thread runs in between. *)
(* [src/src/limits.rs 123-138 ConnGuard::try_acquire] *)
Definition try_acquire (g : ConnGuard) : option ConnGuard :=
  match attempt (live g) g with Acquired g => Some g | _ => None end.

(* [src/src/limits.rs 146-148 ConnTicket::drop] *)
Definition release (g : ConnGuard) : ConnGuard := with_live (live g -!! 1) g.

(** A thread is idle, in the loop with the value it saw, or holds a ticket. *)
Inductive Thread := Idle | Trying (cur : N) | Holding.
#[export] Instance thread_eq_dec : EqDecision Thread.
Proof. solve_decision. Defined.

Definition Guarded : Type := ConnGuard * list Thread.

Inductive guard_step : Guarded -> Guarded -> Prop :=
| step_load g ts i v : ts !! i = Some Idle -> guard_step (g, ts) (g, <[i:=Trying v]> ts)
| step_refused g ts i cur : ts !! i = Some (Trying cur) -> attempt cur g = Refused ->
    guard_step (g, ts) (g, <[i:=Idle]> ts)
| step_acquired g g' ts i cur : ts !! i = Some (Trying cur) -> attempt cur g = Acquired g' ->
    guard_step (g, ts) (g', <[i:=Holding]> ts)
| step_retry g ts i cur seen v : ts !! i = Some (Trying cur) -> attempt cur g = Retry seen ->
    guard_step (g, ts) (g, <[i:=Trying v]> ts)
| step_drop g ts i : ts !! i = Some Holding -> guard_step (g, ts) (release g, <[i:=Idle]> ts).

Definition holding (t : Thread) : N := match t with Holding => 1 | _ => 0 end.
Definition tickets (ts : list Thread) : N := sumN holding ts.

Lemma tickets_insert ts i t u : ts !! i = Some t -> tickets (<[i:=u]> ts) + holding t = tickets ts + holding u.
Proof.
  unfold tickets. revert i. induction ts as [|x ts IH]; intros [|i] H; try discriminate H; cbn in H.
  - injection H as ->. change (<[0%nat:=u]> (t :: ts)) with (u :: ts). rewrite !sumN_cons. lia.
  - change (<[S i:=u]> (x :: ts)) with (x :: <[i:=u]> ts). rewrite !sumN_cons. specialize (IH i H). lia.
Qed.

(** The counter is the number of tickets out, and never above the maximum. *)
Definition guard_ok (s : Guarded) : Prop :=
  live s.1 = tickets s.2 /\ live s.1 <= max_live s.1 /\ max_live s.1 <= U64_MAX.

Lemma guard_step_ok s s' : guard_step s s' -> guard_ok s -> guard_ok s'.
Proof.
  unfold guard_ok, U64_MAX. intros Hs (Hl & Hm & Hx). destruct Hs as [g ts i v Hi|g ts i cur Hi Ha|g g' ts i cur Hi Ha|g ts i cur seen v Hi Ha|g ts i Hi];
    cbn [fst snd] in *.
  - pose proof (tickets_insert _ _ _ (Trying v) Hi). cbn [holding] in *. repeat split; lia.
  - pose proof (tickets_insert _ _ _ Idle Hi). cbn [holding] in *. repeat split; lia.
  - unfold attempt in Ha. destruct (N.leb_spec (max_live g) cur); [discriminate|].
    destruct (N.eqb_spec (live g) cur); [|discriminate]. injection Ha as <-. cbn [live max_live with_live].
    pose proof (tickets_insert _ _ _ Holding Hi). cbn [holding] in *. repeat no_wrap. repeat split; lia.
  - pose proof (tickets_insert _ _ _ (Trying v) Hi). cbn [holding] in *. repeat split; lia.
  - unfold release. cbn [live max_live with_live]. pose proof (tickets_insert _ _ _ Idle Hi). cbn [holding] in *.
    repeat no_wrap. repeat split; lia.
Qed.

Lemma no_tickets n : tickets (replicate n Idle) = 0.
Proof. induction n as [|n IH]; [done|]. exact IH. Qed.

(** C35: The lock-free connection guard is a correct semaphore.  In every
    interleaving of any number of threads, whatever stale values their relaxed
    loads return, the counter equals the number of tickets held and the tickets
    held never exceed the maximum. *)
Theorem guard_never_exceeded max threads s (Hmax : max <= U64_MAX)
  (Hrun : rtc guard_step (guard_new max, replicate threads Idle) s) :
  live s.1 = tickets s.2 /\ tickets s.2 <= max.
Proof.
  set (s0 := (guard_new max, replicate threads Idle)) in Hrun.
  assert (guard_ok s0) as H0 by (unfold guard_ok, s0; cbn [fst snd]; rewrite no_tickets; cbn; repeat split; lia).
  assert (max_live s0.1 = max) as Hm0 by done. clearbody s0.
  assert (guard_ok s /\ max_live s.1 = max) as [(Hl & Hle & _) Hm].
  { induction Hrun as [|s1 s2 s3 Hs _ IH]; [done|]. apply IH; [now apply (guard_step_ok s1)|].
    rewrite <- Hm0. destruct Hs; cbn; try done. unfold attempt in *. repeat case_match; simplify_eq. done. }
  split; [done|]. rewrite <- Hl, <- Hm. done.
Qed.

(** ** Connections per host *)

(* [src/src/limits.rs 242-245 IpConnCounter] *)
Record IpConnCounter := { live_ips : gmap IpAddr N; max_per_ip : N }.

(* [src/src/limits.rs 251-256 IpConnCounter::new] *)
Definition counter_new (max : N) : IpConnCounter := {| live_ips := ∅; max_per_ip := max |}.

Definition with_ips (m : gmap IpAddr N) (c : IpConnCounter) : IpConnCounter :=
  {| live_ips := m; max_per_ip := max_per_ip c |}.

(* [src/src/limits.rs 268-270 IpConnCounter::live_for] *)
Definition live_for (ip : IpAddr) (c : IpConnCounter) : N := default 0 (live_ips c !! ip).

(* [src/src/limits.rs 258-266 IpConnCounter::try_acquire] *)
Definition ip_try_acquire (ip : IpAddr) (c : IpConnCounter) : bool * IpConnCounter :=
  let slot := live_for ip c in
  if max_per_ip c <=? slot then (false, with_ips (<[ip:=slot]> (live_ips c)) c)
  else (true, with_ips (<[ip:=slot +!! 1]> (live_ips c)) c).

(* [src/src/limits.rs 273-284 IpTicket::drop] *)
Definition ip_release (ip : IpAddr) (c : IpConnCounter) : IpConnCounter :=
  match live_ips c !! ip with
  | None => c
  | Some slot =>
    let slot := sat_sub slot 1 in
    with_ips (if slot =? 0 then delete ip (live_ips c) else <[ip:=slot]> (live_ips c)) c
  end.

(** The counter with the tickets it gave out: a ticket is dropped once. *)
Definition Counted : Type := IpConnCounter * list IpAddr.

Inductive counter_step : Counted -> Counted -> Prop :=
| count_acquire c ts ip c' : ip_try_acquire ip c = (true, c') -> counter_step (c, ts) (c', ip :: ts)
| count_refused c ts ip c' : ip_try_acquire ip c = (false, c') -> counter_step (c, ts) (c', ts)
| count_drop c ts ts1 ts2 ip : ts = ts1 ++ ip :: ts2 -> counter_step (c, ts) (ip_release ip c, ts1 ++ ts2).

Definition held (ip : IpAddr) (ts : list IpAddr) : N := sumN (fun a => if decide (a = ip) then 1 else 0) ts.

(** The table holds exactly the hosts with a ticket, with their number. *)
Definition counter_ok (s : Counted) : Prop :=
  forall ip, live_ips s.1 !! ip = (if held ip s.2 =? 0 then None else Some (held ip s.2)) /\
    held ip s.2 <= max_per_ip s.1.

Lemma held_cons a ip ts : held ip (a :: ts) = (if decide (a = ip) then 1 else 0) + held ip ts.
Proof. reflexivity. Qed.
Lemma held_middle a ip ts1 ts2 : held ip (ts1 ++ a :: ts2) = (if decide (a = ip) then 1 else 0) + held ip (ts1 ++ ts2).
Proof. unfold held. rewrite !sumN_app, sumN_cons. lia. Qed.

Lemma live_for_held s ip : counter_ok s -> live_for ip s.1 = held ip s.2.
Proof. intros H. unfold live_for. destruct (H ip) as [-> _]. now destruct (N.eqb_spec (held ip s.2) 0) as [->|]. Qed.

Lemma counter_step_ok s s' : counter_step s s' -> 0 < max_per_ip s.1 -> max_per_ip s.1 <= U64_MAX ->
  counter_ok s -> counter_ok s' /\ max_per_ip s'.1 = max_per_ip s.1.
Proof.
  unfold U64_MAX. intros Hs Hpos Hmax Hok.
  assert (forall ip, live_for ip s.1 = held ip s.2) as Hlive by (intros; now apply live_for_held).
  destruct Hs as [c ts ip c' Ha|c ts ip c' Ha|c ts ts1 ts2 ip ->]; cbn [fst snd] in *; unfold ip_try_acquire in *.
  - destruct (N.leb_spec (max_per_ip c) (live_for ip c)); [discriminate|]. injection Ha as <-. split; [|done].
    intros a. specialize (Hlive ip). destruct (Hok a) as [Hl Hle]. cbn [fst snd live_ips max_per_ip with_ips]. rewrite held_cons.
    destruct (decide (ip = a)) as [->|].
    + rewrite lookup_insert_eq, Hlive. no_wrap. destruct (N.eqb_spec (1 + held a ts) 0); [lia|]. split; [f_equal; lia|lia].
    + rewrite lookup_insert_ne by done. cbn. done.
  - destruct (N.leb_spec (max_per_ip c) (live_for ip c)) as [Hfull|]; [|discriminate]. injection Ha as <-. split; [|done].
    intros a. destruct (Hok a) as [Hl Hle]. cbn [fst snd live_ips max_per_ip with_ips]. split; [|done].
    destruct (decide (ip = a)) as [->|]; [|now rewrite lookup_insert_ne].
    rewrite lookup_insert_eq, Hlive in *. destruct (N.eqb_spec (held a ts) 0); [lia|done].
  - unfold ip_release. destruct (Hok ip) as [Hl _]. cbn [fst snd] in Hl. rewrite Hl, held_middle, decide_True by done.
    destruct (N.eqb_spec (1 + held ip (ts1 ++ ts2)) 0); [lia|]. split; [|done]. intros a.
    destruct (Hok a) as [Ha Hle]. cbn [fst snd live_ips max_per_ip with_ips] in *. rewrite held_middle in Ha, Hle.
    unfold sat_sub. replace (1 + held ip (ts1 ++ ts2) - 1) with (held ip (ts1 ++ ts2)) by lia.
    destruct (decide (ip = a)) as [->|Hne].
    + split; [|lia]. destruct (N.eqb_spec (held a (ts1 ++ ts2)) 0); [apply lookup_delete_eq|apply lookup_insert_eq].
    + split; [|lia]. rewrite N.add_0_l in Ha. rewrite <- Ha.
      destruct (held ip (ts1 ++ ts2) =? 0); [now apply lookup_delete_ne|now apply lookup_insert_ne].
Qed.

Lemma held_zero ip ts : held ip ts = 0 <-> ip ∉ ts.
Proof.
  induction ts as [|a ts IH]; [split; [intros _; apply not_elem_of_nil|done]|]. rewrite held_cons, not_elem_of_cons.
  destruct (decide (a = ip)) as [->|]; [split; [lia|now intros [? _]]|]. rewrite N.add_0_l, IH.
  split; [|now intros [_ ?]]. intros H. now split; [congruence|].
Qed.

(** The per-host counter is exact.  After any sequence of acquisitions,
    refusals and drops, each host's entry is the number of tickets it holds,
    that number is at most the maximum per host, and a host without a ticket
    has no entry, so the table is never larger than the number of live
    connections. *)
Theorem host_share_bounded max s (Hpos : 0 < max) (Hmax : max <= U64_MAX)
  (Hrun : rtc counter_step (counter_new max, []) s) ip :
  live_for ip s.1 = held ip s.2 /\ held ip s.2 <= max /\ (is_Some (live_ips s.1 !! ip) <-> ip ∈ s.2).
Proof.
  set (s0 := (counter_new max, [])) in Hrun.
  assert (counter_ok s0) as H0 by (intros a; cbn; split; [done|lia]).
  assert (max_per_ip s0.1 = max) as Hm0 by done. clearbody s0.
  assert (counter_ok s /\ max_per_ip s.1 = max) as [Hok Hm].
  { induction Hrun as [|s1 s2 s3 Hs _ IH]; [done|].
    destruct (counter_step_ok s1 s2 Hs) as [? E]; [now rewrite Hm0..|done|]. apply IH; [done|now rewrite E]. }
  split; [now apply live_for_held|]. destruct (Hok ip) as [Hl Hle]. split; [now rewrite <- Hm|]. rewrite Hl.
  pose proof (held_zero ip s.2) as Hz.
  destruct (N.eqb_spec (held ip s.2) 0) as [E|E].
  - split; [now intros [? ?]|]. intros Hin. now apply Hz in E.
  - split; [|done]. intros _. destruct (decide (ip ∈ s.2)); [done|]. now apply Hz in n.
Qed.

(** ** Reputation of peers *)

Definition wrap_i32 (z : Z) : Z := ((z + 2 ^ 31) mod 2 ^ 32 - 2 ^ 31)%Z.

(* [src/src/limits.rs 155-162 PeerBook] *)
Record PeerBook := {
  scores : gmap IpAddr (Z * option N);
  identities : gmap IpAddr string;
  ban_secs : N
}.
(* [src/src/limits.rs 162-168 PeerBook::new] *)
Definition book_new (secs : N) : PeerBook := {| scores := ∅; identities := ∅; ban_secs := secs |}.
Definition with_scores (m : gmap IpAddr (Z * option N)) (b : PeerBook) : PeerBook :=
  {| scores := m; identities := identities b; ban_secs := ban_secs b |}.
Definition with_identities (m : gmap IpAddr string) (b : PeerBook) : PeerBook :=
  {| scores := scores b; identities := m; ban_secs := ban_secs b |}.

(* [src/src/limits.rs 170-183 PeerBook::is_banned] *)
Definition is_banned (now : N) (ip : IpAddr) (b : PeerBook) : bool * PeerBook :=
  match scores b !! ip with
  | Some (_, Some until) =>
    if now <? until then (true, b) else (false, with_scores (<[ip:=(0%Z, None)]> (scores b)) b)
  | _ => (false, b)
  end.

Definition score_entry (ip : IpAddr) (b : PeerBook) : Z * option N := default (0%Z, None) (scores b !! ip).

(* [src/src/limits.rs 185-189 PeerBook::reward] *)
Definition reward (ip : IpAddr) (b : PeerBook) : PeerBook :=
  let e := score_entry ip b in
  with_scores (<[ip:=(Z.min (wrap_i32 (e.1 + 1)%Z) 100, e.2)]> (scores b)) b.

(* [src/src/limits.rs 192-202 PeerBook::penalize] *)
Definition penalize (now : N) (ip : IpAddr) (cost : Z) (b : PeerBook) : bool * PeerBook :=
  let e := score_entry ip b in
  let score := wrap_i32 (e.1 - cost)%Z in
  if (score <=? -100)%Z then (true, with_scores (<[ip:=(0%Z, Some (now + ban_secs b * NANOS))]> (scores b)) b)
  else (false, with_scores (<[ip:=(score, e.2)]> (scores b)) b).

(* [src/src/limits.rs 206-215 PeerBook::note_identity] *)
Definition note_identity (ip : IpAddr) (id : string) (b : PeerBook) : bool * PeerBook :=
  if decide (identities b !! ip = Some id) then (false, b)
  else (true, with_identities (<[ip:=id]> (identities b)) b).

(* [src/src/limits.rs 217-224 PeerBook::known_identities] *)
Definition known_identities (b : PeerBook) : list (IpAddr * string) := map_to_list (identities b).

(* [src/src/limits.rs 226-234 PeerBook::banned_count] *)
Definition banned_count (now : N) (b : PeerBook) : nat :=
  length (List.filter (fun kv => match kv.2.2 with Some u => now <? u | None => false end) (map_to_list (scores b))).

(** Everything the gossip layer does to the book. *)
Inductive BookOp :=
| Ask (now : N) (ip : IpAddr) | Good (ip : IpAddr) | Bad (now : N) (ip : IpAddr) (cost : Z) | Identify (ip : IpAddr) (id : string).

Definition book_step (b : PeerBook) (op : BookOp) : PeerBook :=
  match op with
  | Ask now ip => (is_banned now ip b).2
  | Good ip => reward ip b
  | Bad now ip cost => (penalize now ip cost b).2
  | Identify ip id => (note_identity ip id b).2
  end.

(** The costs charged by p2p.rs are 4, 12 and 20. *)
Definition cost_ok (op : BookOp) : Prop := match op with Bad _ _ cost => (0 <= cost <= 2 ^ 30)%Z | _ => True end.
Definition within (lo hi : N) (op : BookOp) : Prop := match op with Ask now _ | Bad now _ _ => lo <= now < hi | _ => True end.

Lemma wrap_i32_small z : (- 2 ^ 31 <= z < 2 ^ 31)%Z -> wrap_i32 z = z.
Proof. intros H. unfold wrap_i32. rewrite Z.mod_small; lia. Qed.

(** Scores stay between the ban threshold and the cap. *)
Definition book_ok (b : PeerBook) : Prop := map_Forall (fun _ e => (-100 < e.1 <= 100)%Z) (scores b).

Lemma book_entry_ok b ip : book_ok b -> (-100 < (score_entry ip b).1 <= 100)%Z.
Proof. intros H. unfold score_entry. destruct (scores b !! ip) as [e|] eqn:E; [exact (H ip e E)|cbn; lia]. Qed.

Lemma book_ok_insert b ip e : book_ok b -> (-100 < e.1 <= 100)%Z -> book_ok (with_scores (<[ip:=e]> (scores b)) b).
Proof. intros H He. now apply map_Forall_insert_2. Qed.

Lemma book_step_ok b op : cost_ok op -> book_ok b -> book_ok (book_step b op).
Proof.
  intros Hc H. destruct op as [now ip|ip|now ip cost|ip id]; cbn [book_step].
  - unfold is_banned. destruct (scores b !! ip) as [[z [u|]]|]; try done. destruct (now <? u); [done|].
    apply book_ok_insert; [done|cbn; lia].
  - unfold reward. pose proof (book_entry_ok b ip H). rewrite wrap_i32_small by lia. apply book_ok_insert; [done|cbn; lia].
  - unfold penalize. cbn [cost_ok] in Hc. pose proof (book_entry_ok b ip H). rewrite wrap_i32_small by lia.
    destruct (Z.leb_spec ((score_entry ip b).1 - cost) (-100)); apply book_ok_insert; cbn; (done || lia).
  - unfold note_identity. now destruct (decide _).
Qed.

(** The ban of [ip] lasts at least until [t]. *)
Definition banned_until (t : N) (ip : IpAddr) (b : PeerBook) : Prop :=
  exists z until, scores b !! ip = Some (z, Some until) /\ t <= until.

Lemma banned_until_kept t ip b ip' e : banned_until t ip b ->
  (ip' = ip -> exists until, e.2 = Some until /\ t <= until) -> banned_until t ip (with_scores (<[ip':=e]> (scores b)) b).
Proof.
  intros (z & u & Hl & Hu) He. unfold banned_until. cbn [scores with_scores]. destruct (decide (ip' = ip)) as [->|].
  - rewrite lookup_insert_eq. destruct (He eq_refl) as (u' & E & Hu'). exists e.1, u'. destruct e. cbn in E. now subst.
  - rewrite lookup_insert_ne by done. now exists z, u.
Qed.

Lemma step_keeps_ban lo ip b op (t := lo + ban_secs b * NANOS) :
  within lo t op -> banned_until t ip b -> banned_until t ip (book_step b op).
Proof.
  intros Hw Hban. pose proof Hban as (z & u & Hl & Hu). destruct op as [now a|a|now a cost|a id]; cbn [book_step within] in *.
  - unfold is_banned. destruct (scores b !! a) as [[y [w|]]|] eqn:E; try done. destruct (N.ltb_spec now w); [done|].
    apply banned_until_kept; [done|]. intros ->. rewrite Hl in E. injection E as <- <-. lia.
  - unfold reward. apply banned_until_kept; [done|]. intros ->. unfold score_entry. rewrite Hl. cbn. now exists u.
  - unfold penalize. destruct (_ <=? _)%Z; apply banned_until_kept; try done; intros ->; cbn.
    + exists (now + ban_secs b * NANOS). split; [done|]. unfold t. lia.
    + unfold score_entry. rewrite Hl. cbn. now exists u.
  - unfold note_identity. destruct (decide _); [done|]. now exists z, u.
Qed.

Lemma book_step_secs b op : ban_secs (book_step b op) = ban_secs b.
Proof. destruct op; cbn; unfold is_banned, penalize, note_identity; now repeat case_match. Qed.

(** A ban holds for its whole period.  Once a penalty bans a host at time
    [t], then whatever the gossip layer does to the book before [t] plus the ban
    period - rewards, further penalties, queries, traffic of other hosts - the
    host is still refused at any time of that period. *)
Theorem ban_holds t ip cost b b' ops now (Hban : penalize t ip cost b = (true, b'))
  (Hops : Forall (within t (t + ban_secs b * NANOS)) ops) (Hnow : now < t + ban_secs b * NANOS) :
  (is_banned now ip (foldl book_step b' ops)).1 = true.
Proof.
  assert (ban_secs b' = ban_secs b /\ banned_until (t + ban_secs b' * NANOS) ip b') as [Hs Hb].
  { unfold penalize in Hban. destruct (_ <=? _)%Z; [|discriminate]. injection Hban as <-. split; [done|].
    unfold banned_until. cbn. rewrite lookup_insert_eq. now eexists _, _. }
  rewrite <- Hs in Hops, Hnow. clear Hban Hs b.
  assert (banned_until (t + ban_secs b' * NANOS) ip (foldl book_step b' ops)) as (z & u & Hl & Hu).
  { revert b' Hb Hops Hnow. induction ops as [|op ops IH]; intros b Hb Hops Hnow; [done|]. cbn [foldl].
    apply Forall_cons in Hops as [Ho Hops]. rewrite <- (book_step_secs b op) in Hops, Hnow |- * at 1.
    apply IH; [|done|done]. rewrite book_step_secs. now apply step_keeps_ban. }
  unfold is_banned. rewrite Hl. destruct (N.ltb_spec now u); [done|lia].
Qed.

(** Reputation never overflows and a ban forgives.  Starting from an empty
    book, after any operations with the costs the node charges, every score is
    above -100 and at most 100; and the first query after a ban has run out
    answers that the host is free and leaves it with a clean score. *)
Theorem scores_bounded secs ops now ip (Hops : Forall cost_ok ops) :
  book_ok (foldl book_step (book_new secs) ops) /\
  (forall z until, scores (foldl book_step (book_new secs) ops) !! ip = Some (z, Some until) -> until <= now ->
    is_banned now ip (foldl book_step (book_new secs) ops) =
      (false, with_scores (<[ip:=(0%Z, None)]> (scores (foldl book_step (book_new secs) ops))) (foldl book_step (book_new secs) ops))).
Proof.
  assert (book_ok (book_new secs)) as H0 by apply map_Forall_empty. split.
  - revert H0. generalize (book_new secs). induction Hops as [|op ops Ho _ IH]; intros b Hb; [done|]. cbn [foldl].
    apply IH. now apply book_step_ok.
  - intros z u Hl Hu. unfold is_banned. rewrite Hl. destruct (N.ltb_spec now u); [lia|done].
Qed.

(** ** Token buckets *)

Definition f64 : Type := SpecFloat.spec_float.
Definition f64_of_N (n : N) : f64 := SpecFloat.binary_normalize 53 1024 (Z.of_N n) 0 false.
Definition fadd : f64 -> f64 -> f64 := SpecFloat.SFadd 53 1024.
Definition fsub : f64 -> f64 -> f64 := SpecFloat.SFsub 53 1024.
Definition fmul : f64 -> f64 -> f64 := SpecFloat.SFmul 53 1024.
Definition fdiv : f64 -> f64 -> f64 := SpecFloat.SFdiv 53 1024.
Definition fle : f64 -> f64 -> bool := SpecFloat.SFleb.
Definition is_nan (x : f64) : bool := match x with SpecFloat.S754_nan => true | _ => false end.
(** [f64::min]: the other operand when one is not a number. *)
Definition fmin (x y : f64) : f64 := if is_nan x then y else if is_nan y then x else if fle x y then x else y.
Definition fmax (x y : f64) : f64 := if is_nan x then y else if is_nan y then x else if fle x y then y else x.

(** [Duration::as_secs_f64] of a number of nanoseconds. *)
Definition as_secs_f64 (nanos : N) : f64 :=
  fadd (f64_of_N (nanos / NANOS)) (fdiv (f64_of_N (nanos mod NANOS)) (f64_of_N NANOS)).

(** The two limiters are one table of buckets over a key, with a threshold and
    an age beyond which the table is swept. *)
Record Limiter (K : Type) `{Countable K} := {
  rate : f64; burst : f64;
  buckets : gmap K (f64 * N)
}.
Arguments rate {K _ _} l.
Arguments burst {K _ _} l.
Arguments buckets {K _ _} l.

Section limiter.
Context {K : Type} `{Countable K} (sweep_above : N) (max_age : N).

(* [src/src/limits.rs 21-27 RateLimiter::new] *)
Definition limiter_new (r b : f64) : Limiter K := {| rate := r; burst := b; buckets := ∅ |}.

Definition swept (now : N) (m : gmap K (f64 * N)) : gmap K (f64 * N) :=
  if sweep_above <? N.of_nat (size m) then filter (fun kv => secs_since kv.2.2 now < max_age) m else m.

(** The bucket of a key, refilled for the time since it was last seen. *)
Definition refill (now : N) (key : K) (l : Limiter K) : f64 :=
  let entry := default (burst l, now) (swept now (buckets l) !! key) in
  fmin (fadd entry.1 (fmul (as_secs_f64 (now - entry.2)) (rate l))) (burst l).

(* [src/src/limits.rs 35-53 RateLimiter::allow_cost] *)
Definition allow_cost (now : N) (key : K) (cost : f64) (l : Limiter K) : bool * Limiter K :=
  let tokens := refill now key l in
  let '(ok, rest) := if fle cost tokens then (true, fsub tokens cost) else (false, tokens) in
  (ok, {| rate := rate l; burst := burst l; buckets := <[key:=(rest, now)]> (swept now (buckets l)) |}).

(* [src/src/limits.rs 29-31 RateLimiter::allow] *)
Definition allow (now : N) (key : K) (l : Limiter K) : bool * Limiter K := allow_cost now key (f64_of_N 1) l.

(* [src/src/limits.rs 86-88 KeyedLimiter::tracked] *)
Definition tracked (l : Limiter K) : nat := size (buckets l).

(** The entry of one key is all an allowance for that key reads. *)
Definition same_bucket (key : K) (l1 l2 : Limiter K) : Prop :=
  rate l1 = rate l2 /\ burst l1 = burst l2 /\ buckets l1 !! key = buckets l2 !! key.

Definition small (l : Limiter K) : Prop := N.of_nat (size (buckets l)) <= sweep_above.

Lemma swept_small now l : small l -> swept now (buckets l) = buckets l.
Proof. intros Hs. unfold swept. destruct (N.ltb_spec sweep_above (N.of_nat (size (buckets l)))); [unfold small in Hs; lia|done]. Qed.

Lemma allow_same_bucket now key cost l1 l2 : small l1 -> small l2 -> same_bucket key l1 l2 ->
  (allow_cost now key cost l1).1 = (allow_cost now key cost l2).1 /\
  same_bucket key (allow_cost now key cost l1).2 (allow_cost now key cost l2).2.
Proof.
  intros H1 H2 (Hr & Hb & Hk). unfold allow_cost, refill. rewrite !swept_small, Hr, Hb, Hk by done.
  destruct (fle cost _); cbn; (split; [done|]); unfold same_bucket; cbn; now rewrite !lookup_insert_eq.
Qed.

Lemma allow_other_bucket now key key' cost l : key' <> key -> small l ->
  same_bucket key (allow_cost now key' cost l).2 l.
Proof.
  intros Hne Hs. unfold allow_cost. destruct (if fle cost _ then _ else _) as [ok rest]. unfold same_bucket. cbn.
  rewrite swept_small by done. now rewrite lookup_insert_ne.
Qed.

(** A call is its time, its key and its cost. *)
Definition Call : Type := N * K * f64.
Fixpoint calls (cs : list Call) (l : Limiter K) : list (K * bool) * Limiter K :=
  match cs with
  | [] => ([], l)
  | (now, key, cost) :: cs =>
    let '(ok, l) := allow_cost now key cost l in
    let '(rs, l) := calls cs l in ((key, ok) :: rs, l)
  end.

(** Every table the calls go through stays below the sweep. *)
Fixpoint stays_small (cs : list Call) (l : Limiter K) : Prop :=
  small l /\ match cs with [] => True | (now, key, cost) :: cs => stays_small cs (allow_cost now key cost l).2 end.

Definition of_key (key : K) (cs : list Call) : list Call := List.filter (fun c => bool_decide (c.1.2 = key)) cs.
Definition verdicts (key : K) (rs : list (K * bool)) : list (K * bool) := List.filter (fun r => bool_decide (r.1 = key)) rs.

Lemma calls_isolated key cs l1 l2 : stays_small cs l1 -> stays_small (of_key key cs) l2 -> same_bucket key l1 l2 ->
  verdicts key (calls cs l1).1 = (calls (of_key key cs) l2).1.
Proof.
  revert l1 l2. induction cs as [|[[now k] cost] cs IH]; intros l1 l2 H1 H2 Hs; [done|].
  cbn [calls of_key List.filter fst snd] in *. destruct H1 as [H1 H1'].
  destruct (allow_cost now k cost l1) as [ok l1'] eqn:E1. cbn [snd] in H1'. destruct (calls cs l1') as [rs l1''] eqn:Er.
  unfold verdicts. cbn [fst List.filter]. fold (verdicts key rs). destruct (decide (k = key)) as [->|Hne].
  - rewrite bool_decide_true in * by done. cbn [calls stays_small] in *. destruct H2 as [H2 H2'].
    destruct (allow_same_bucket now key cost l1 l2 H1 H2 Hs) as [Hok Hs']. rewrite E1 in Hok, Hs'.
    destruct (allow_cost now key cost l2) as [ok2 l2']. cbn [fst snd] in *. specialize (IH l1' l2' H1' H2' Hs').
    rewrite Er in IH. destruct (calls _ l2') as [rs2 ?]. cbn [fst] in *. now rewrite Hok, IH.
  - rewrite bool_decide_false in * by done. specialize (IH l1' l2 H1' H2). rewrite Er in IH. apply IH.
    pose proof (allow_other_bucket now k key) as Ho. pose proof (allow_other_bucket now key k cost l1) as Hb.
    rewrite E1 in Hb. cbn [snd] in Hb. destruct Hb as (a & b & c); [done..|]. destruct Hs as (a' & b' & c').
    unfold same_bucket. split_and!; congruence.
Qed.

(** Under the sweep threshold, or when every entry is recent, the table only
    grows: a flood of fresh keys is never refused for its number. *)
Lemma fresh_key_grows now key cost l : buckets l !! key = None ->
  map_Forall (fun _ e => secs_since e.2 now < max_age) (buckets l) ->
  tracked (allow_cost now key cost l).2 = S (tracked l).
Proof.
  intros Hk Hr. unfold allow_cost, tracked. destruct (if fle cost _ then _ else _) as [ok rest]. cbn.
  assert (swept now (buckets l) = buckets l) as ->.
  { unfold swept. destruct (_ <? _); [|done]. apply map_filter_id. intros i e Hi. now apply (Hr i). }
  now apply map_size_insert_None.
Qed.
End limiter.

(* [src/src/limits.rs 14-18 RateLimiter] *)
Definition RateLimiter : Type := Limiter IpAddr.
(* [src/src/limits.rs 58-62 KeyedLimiter] *)
Definition KeyedLimiter : Type := Limiter string.
(* [src/src/limits.rs 35-52! RateLimiter::allow_cost] *)
Definition ip_allow_cost : N -> IpAddr -> f64 -> RateLimiter -> bool * RateLimiter := allow_cost 20000 60.
(* [src/src/limits.rs 73-89! KeyedLimiter::allow_cost] *)
Definition key_allow_cost : N -> string -> f64 -> KeyedLimiter -> bool * KeyedLimiter := allow_cost 50000 120.

(** ** Examples *)
Module Limits_example.

(** Two threads see the counter at zero; one takes the last slot, the other's
    exchange fails. *)
Definition race : Guarded := ({| live := 1; max_live := 1 |}, [Holding; Trying 0]).

Lemma guard_never_exceeded_witness :
  rtc guard_step (guard_new 1, replicate 2 Idle) race /\ live race.1 = tickets race.2 /\ tickets race.2 <= 1.
Proof.
  assert (rtc guard_step (guard_new 1, replicate 2 Idle) race) as H.
  { eapply rtc_l; [now apply (step_load (guard_new 1) [Idle; Idle] 0 0)|].
    eapply rtc_l; [now apply (step_load (guard_new 1) [Trying 0; Idle] 1 0)|].
    eapply rtc_l; [now apply (step_acquired (guard_new 1) race.1 [Trying 0; Trying 0] 0 0)|].
    apply rtc_refl. }
  split; [exact H|]. apply (guard_never_exceeded 1 2 race); [vm_compute; discriminate|exact H].
Defined.

Definition host : IpAddr := V4 3405803783.

(** Eight bad messages and one more than exhaust a fresh score. *)
Definition worn : PeerBook := foldl book_step (book_new 600) (repeat (Bad 0 host 12) 8).

Lemma ban_holds_witness :
  (penalize 5 host 12 worn).1 = true /\
  (is_banned 100 host (foldl book_step (penalize 5 host 12 worn).2 [Good host; Ask 50 host; Bad 60 host 20])).1 = true.
Proof.
  split; [reflexivity|]. apply (ban_holds 5 host 12 worn _ _ 100).
  - vm_compute. reflexivity.
  - repeat constructor; vm_compute; discriminate || reflexivity.
  - vm_compute. reflexivity.
Defined.

(** The anonymous budget: of 150 calls of cost one at the same moment, 100 pass. *)
Lemma burst_is_spent :
  length (List.filter snd (calls 20000 60 (repeat (0, host, f64_of_N 1) (N.to_nat 150)) (limiter_new (f64_of_N 25) (f64_of_N 100))).1)
    = N.to_nat 100.
Proof. vm_compute. reflexivity. Qed.
End Limits_example.
