(* ===== verification/Events.v ===== *)
(** events.rs: the subscription bus that pushes node events to connected
    clients.

    The bus is the table of subscriptions with its id counter.  The bounded
    queues ([sync_channel]) of the connections are a store of pipes, shared by
    the subscriptions that hold a sender of the same connection: a pipe is the
    frames not read yet and whether its receiver is still there.  The order in
    which a [HashMap] is walked is not specified: [publish] takes it as an
    argument.  A JSON payload is a value of any type. *)

From S2P Require Import Prelude Bytes Crypto.
From Stdlib Require Import Ascii.
From Stdlib Require String.

(* [src/src/events.rs 21-23 QUEUE_DEPTH] *)
Definition QUEUE_DEPTH : nat := 256.
(* [src/src/events.rs 24-25 MAX_LAG_STRIKES] *)
Definition MAX_LAG_STRIKES : N := 3.
(* [src/src/events.rs 26-27 MAX_SUBSCRIPTIONS] *)
Definition MAX_SUBSCRIPTIONS : nat := N.to_nat 4096.
(* [src/src/events.rs 28-29 MAX_SUBS_PER_CONN] *)
Definition MAX_SUBS_PER_CONN : nat := 64.

(* [src/src/events.rs 31-46 Channel] *)
Inductive Channel :=
| Heads | Finality | Mempool
| Signature (h : string) | Account (a : string) | Logs (c : option string).
#[export] Instance channel_eq_dec : EqDecision Channel.
Proof. solve_decision. Defined.

(* [src/src/events.rs 49-58 Channel::label] *)
Definition label (c : Channel) : string :=
  match c with
  | Heads => "heads" | Finality => "finality" | Mempool => "mempool"
  | Signature _ => "signature" | Account _ => "account" | Logs _ => "logs"
  end.

(** [char::is_ascii_hexdigit] and [str::to_lowercase] on ASCII text. *)
Definition hexdigit (c : ascii) : bool :=
  let v := N_of_ascii c in
  ((48 <=? v) && (v <=? 57)) || ((97 <=? v) && (v <=? 102)) || ((65 <=? v) && (v <=? 70)).
Definition ascii_lower (c : ascii) : ascii :=
  let v := N_of_ascii c in if (65 <=? v) && (v <=? 90) then ascii_of_N (v + 32) else c.

(* [src/src/events.rs 106-111 Event] *)
Record Event (V : Type) := { ev_channel : string; ev_key : option string; ev_payload : V }.
Arguments ev_channel {V} e.
Arguments ev_key {V} e.
Arguments ev_payload {V} e.

(** One notification: the subscription, the label of its channel, the payload. *)
Record Frame (V : Type) := { f_sub : N; f_channel : string; f_result : V }.
Arguments f_sub {V} f.
Arguments f_channel {V} f.
Arguments f_result {V} f.

(* [src/src/events.rs 123-128 Sub] *)
Record Sub := { sub_channel : Channel; sub_conn : N; sub_pipe : N; sub_strikes : N }.

Definition with_strikes (n : N) (s : Sub) : Sub :=
  {| sub_channel := sub_channel s; sub_conn := sub_conn s; sub_pipe := sub_pipe s; sub_strikes := n |}.

(* [src/src/events.rs 130-134 EventBus] *)
Record EventBus := { subs : gmap N Sub; next_id : N }.

Section events.
Context {HC : Crypto} {V : Type}.

(** [get] is the text of a field of the request, when it is there. *)
(* [src/src/events.rs 62-90 Channel::parse] *)
Definition channel_parse (channel : string) (get : string -> option string) : result Channel :=
  let get k := trim <$> get k in
  if String.eqb channel "heads" || String.eqb channel "newHeads" then Ok Heads
  else if String.eqb channel "finality" then Ok Finality
  else if String.eqb channel "mempool" || String.eqb channel "pending" then Ok Mempool
  else if String.eqb channel "signature" then
    h ← ok_or (get "hash") "signature subscription needs a hash";
    if negb (Nat.eqb (slen h) 64) || negb (all_chars hexdigit h) then Err "hash must be 32 bytes of hex"
    else Ok (Signature (map_string ascii_lower h))
  else if String.eqb channel "account" then
    a ← ok_or (get "address") "account subscription needs an address";
    if negb (is_valid_address a) then Err "invalid address" else Ok (Account a)
  else if String.eqb channel "logs" then Ok (Logs (get "contract"))
  else Err ("unknown channel '" +:+ channel +:+ "'").

(* [src/src/events.rs 93-103 Channel::matches] *)
Definition matches (c : Channel) (ev : Event V) : bool :=
  match c with
  | Heads => String.eqb (ev_channel ev) "heads"
  | Finality => String.eqb (ev_channel ev) "finality"
  | Mempool => String.eqb (ev_channel ev) "mempool"
  | Signature h => String.eqb (ev_channel ev) "signature" && bool_decide (ev_key ev = Some h)
  | Account a => String.eqb (ev_channel ev) "account" && bool_decide (ev_key ev = Some a)
  | Logs None => String.eqb (ev_channel ev) "logs"
  | Logs (Some c) => String.eqb (ev_channel ev) "logs" && bool_decide (ev_key ev = Some c)
  end.

(* [src/src/events.rs 112-118! Event::new] *)
Definition event_new (channel : string) (key : option string) (payload : V) : Event V :=
  {| ev_channel := channel; ev_key := key; ev_payload := payload |}.

(* [src/src/events.rs 137-139 EventBus::new] *)
Definition bus_new : EventBus := {| subs := ∅; next_id := 0 |}.

(* [src/src/events.rs 141-143 EventBus::len] *)
Definition bus_len (b : EventBus) : nat := size (subs b).

Definition of_conn (conn : N) (m : gmap N Sub) : gmap N Sub := filter (fun kv => sub_conn kv.2 = conn) m.

(* [src/src/events.rs 151-176 EventBus::subscribe] *)
Definition subscribe (conn : N) (c : Channel) (pipe : N) (b : EventBus) : result N * EventBus :=
  if Nat.leb MAX_SUBSCRIPTIONS (size (subs b)) then (Err "subscription table full", b)
  else if Nat.leb MAX_SUBS_PER_CONN (size (of_conn conn (subs b))) then
    (Err "too many subscriptions on this connection", b)
  else
    let id := next_id b +!! 1 in
    (Ok id, {| subs := <[id:={| sub_channel := c; sub_conn := conn; sub_pipe := pipe; sub_strikes := 0 |}]> (subs b);
               next_id := id |}).

Definition with_subs (m : gmap N Sub) (b : EventBus) : EventBus := {| subs := m; next_id := next_id b |}.

(* [src/src/events.rs 180-189 EventBus::unsubscribe] *)
Definition unsubscribe (conn id : N) (b : EventBus) : bool * EventBus :=
  match subs b !! id with
  | Some s => if sub_conn s =? conn then (true, with_subs (delete id (subs b)) b) else (false, b)
  | None => (false, b)
  end.

(* [src/src/events.rs 191-193 EventBus::drop_conn] *)
Definition drop_conn (conn : N) (b : EventBus) : EventBus :=
  with_subs (filter (fun kv => sub_conn kv.2 <> conn) (subs b)) b.

(** ** gmap N Pipe *)

Record Pipe := { frames : list (Frame V); open : bool }.

Inductive Sent := Delivered | Full | Disconnected.

Definition pipe_of (q : N) (ps : gmap N Pipe) : Pipe := default {| frames := []; open := false |} (ps !! q).

(** [SyncSender::try_send] on a queue of depth [QUEUE_DEPTH]. *)
Definition try_send (q : N) (f : Frame V) (ps : gmap N Pipe) : Sent * gmap N Pipe :=
  let p := pipe_of q ps in
  if negb (open p) then (Disconnected, ps)
  else if Nat.leb QUEUE_DEPTH (length (frames p)) then (Full, ps)
  else (Delivered, <[q:={| frames := frames p ++ [f]; open := true |}]> ps).

(* [src/src/events.rs 237-240 queue] *)
Definition queue (q : N) (ps : gmap N Pipe) : gmap N Pipe := <[q:={| frames := []; open := true |}]> ps.

Definition frame_of (id : N) (s : Sub) (ev : Event V) : Frame V :=
  {| f_sub := id; f_channel := label (sub_channel s); f_result := ev_payload ev |}.

(* [src/src/events.rs 202-222 EventBus::publish] *)
Definition notify (ev : Event V) (st : gmap N Sub * list N * gmap N Pipe) (id : N) : gmap N Sub * list N * gmap N Pipe :=
  let '(m, dead, ps) := st in
  match m !! id with
  | None => (m, dead, ps)
  | Some s =>
    if negb (matches (sub_channel s) ev) then (m, dead, ps)
    else match try_send (sub_pipe s) (frame_of id s ev) ps with
    | (Delivered, ps) => (<[id:=with_strikes 0 s]> m, dead, ps)
    | (Full, ps) =>
      let s := with_strikes (wadd 32 (sub_strikes s) 1) s in
      (<[id:=s]> m, if MAX_LAG_STRIKES <=? sub_strikes s then dead ++ [id] else dead, ps)
    | (Disconnected, ps) => (m, dead ++ [id], ps)
    end
  end.

(* [src/src/events.rs 197-227 EventBus::publish] *)
Definition publish (order : list N) (ev : Event V) (b : EventBus) (ps : gmap N Pipe) : EventBus * gmap N Pipe :=
  if bool_decide (subs b = ∅) then (b, ps)
  else
    let '(m, dead, ps) := foldl (notify ev) (subs b, [], ps) order in
    (with_subs (foldl (fun m id => delete id m) m dead) b, ps).
End events.
Arguments Pipe V : clear implicits.

(** ** What a publication does to the queues and the table *)

Section facts.
Context {V : Type}.
Implicit Types (ev : Event V) (p : Pipe V) (ps : gmap N (Pipe V)).

(** The frames an event owes to queue [q], in the order the table is walked. *)
Definition owed (q : N) (ev : Event V) (m : gmap N Sub) (order : list N) : list (Frame V) :=
  omap (fun id => s ← m !! id;
    if matches (sub_channel s) ev && (sub_pipe s =? q) then Some (frame_of id s ev) else None) order.

(** A queue takes frames up to its depth, and none once its reader is gone. *)
Definition take_in (fs : list (Frame V)) (p : Pipe V) : Pipe V :=
  if open p then {| frames := frames p ++ take (QUEUE_DEPTH - length (frames p)) fs; open := true |} else p.

Lemma take_in_nil p : take_in [] p = p.
Proof. unfold take_in. rewrite take_nil, app_nil_r. destruct p as [fs []]; done. Qed.

Lemma take_in_open fs p : open (take_in fs p) = open p.
Proof. unfold take_in. now destruct (open p) eqn:E. Qed.

Lemma take_in_app fs gs p : take_in (fs ++ gs) p = take_in gs (take_in fs p).
Proof.
  unfold take_in. destruct (open p) eqn:E; [|now rewrite E]. cbn [open frames]. f_equal.
  rewrite take_app, <- app_assoc. do 2 f_equal. rewrite length_app, length_take. f_equal. lia.
Qed.

Lemma pipe_of_insert q q' p ps : pipe_of q' (<[q:=p]> ps) = if decide (q' = q) then p else pipe_of q' ps.
Proof. unfold pipe_of. destruct (decide (q' = q)) as [->|]; [now rewrite lookup_insert_eq|now rewrite lookup_insert_ne]. Qed.

Lemma try_send_exact q f ps : forall q',
  pipe_of q' (try_send q f ps).2 = if decide (q' = q) then take_in [f] (pipe_of q ps) else pipe_of q' ps.
Proof.
  intros q'. unfold try_send, take_in. destruct (open (pipe_of q ps)) eqn:Ho; cbn [negb snd].
  2: now destruct (decide (q' = q)) as [->|].
  destruct (Nat.leb_spec QUEUE_DEPTH (length (frames (pipe_of q ps)))) as [Hf|Hf]; cbn [snd].
  - destruct (decide (q' = q)) as [->|]; [|done]. replace (_ - _)%nat with 0%nat by lia. cbn. rewrite app_nil_r.
    destruct (pipe_of q ps) as [fs o]. cbn in *. now subst.
  - rewrite pipe_of_insert. destruct (decide (q' = q)) as [->|]; [|done].
    destruct (QUEUE_DEPTH - length (frames (pipe_of q ps)))%nat eqn:E; [lia|]. cbn. now rewrite take_nil.
Qed.

(** One turn of the loop, on the pipes and on the entries it does not visit. *)
Lemma notify_pipes ev m dead ps id q :
  pipe_of q (notify ev (m, dead, ps) id).2 = take_in (owed q ev m [id]) (pipe_of q ps).
Proof.
  unfold notify, owed. cbn [omap list_omap]. destruct (m !! id) as [s|]; cbn; [|now rewrite take_in_nil].
  destruct (matches (sub_channel s) ev); cbn [negb andb snd]; [|now rewrite take_in_nil].
  pose proof (try_send_exact (sub_pipe s) (frame_of id s ev) ps q) as Hs.
  destruct (try_send (sub_pipe s) _ ps) as [[] ps'] eqn:E; cbn [snd] in *; rewrite Hs.
  all: destruct (N.eqb_spec (sub_pipe s) q) as [->|], (decide (q = _)); try congruence; rewrite ?take_in_nil, ?decide_True by done; done.
Qed.

Lemma notify_others ev m dead ps id i : i <> id ->
  (notify ev (m, dead, ps) id).1.1 !! i = m !! i /\ (i ∈ (notify ev (m, dead, ps) id).1.2 <-> i ∈ dead).
Proof.
  intros Hne. unfold notify. destruct (m !! id) as [s|]; [|done]. destruct (negb _); [done|].
  destruct (try_send _ _ _) as [[] ps']; cbn; rewrite ?lookup_insert_ne by done; try done; (split; [done|]);
    try destruct (_ <=? _); rewrite ?elem_of_app, ?list_elem_of_singleton; tauto.
Qed.

Lemma owed_ext q ev m1 m2 order : (forall i, i ∈ order -> m1 !! i = m2 !! i) -> owed q ev m1 order = owed q ev m2 order.
Proof.
  unfold owed. induction order as [|i order IH]; intros Hm; [done|]. cbn [omap list_omap].
  rewrite (Hm i) by apply list_elem_of_here. rewrite IH; [done|]. intros j Hj. apply Hm. now apply list_elem_of_further.
Qed.
Lemma owed_cons q ev m i order : owed q ev m (i :: order) = owed q ev m [i] ++ owed q ev m order.
Proof. unfold owed. cbn [omap list_omap]. now destruct (m !! i ≫= _). Qed.

Lemma publish_loop ev order m dead ps : NoDup order ->
  let st := foldl (notify ev) (m, dead, ps) order in
  (forall q, pipe_of q st.2 = take_in (owed q ev m order) (pipe_of q ps)) /\
  (forall i, i ∉ order -> st.1.1 !! i = m !! i /\ (i ∈ st.1.2 <-> i ∈ dead)).
Proof.
  intros Hn. revert m dead ps. induction Hn as [|id order Hid _ IH]; intros m dead ps; cbn [foldl].
  { split; [intros; now rewrite take_in_nil|done]. }
  pose proof (notify_pipes ev m dead ps id) as Hp. pose proof (notify_others ev m dead ps id) as Ho.
  destruct (notify ev (m, dead, ps) id) as [[m1 d1] ps1]. cbn [fst snd] in *. destruct (IH m1 d1 ps1) as [Hq Hi]. split.
  - intros q. rewrite Hq, Hp, <- take_in_app, (owed_ext q ev m1 m), <- (owed_cons q ev m id order); [done|].
    intros i Hin. apply Ho. congruence.
  - intros i Hin. apply not_elem_of_cons in Hin as [Hne Hin]. destruct (Hi i Hin) as [-> ->]. now apply Ho.
Qed.

Lemma delete_all (dead : list N) (m : gmap N Sub) i :
  foldl (fun m id => delete id m) m dead !! i = if decide (i ∈ dead) then None else m !! i.
Proof.
  revert m. induction dead as [|j dead IH]; intros m; cbn [foldl]; [done|]. rewrite IH.
  destruct (decide (i ∈ dead)); [now rewrite decide_True by now apply list_elem_of_further|].
  destruct (decide (i = j)) as [->|].
  - rewrite decide_True by apply list_elem_of_here. apply lookup_delete_eq.
  - rewrite decide_False; [now apply lookup_delete_ne|]. intros [?|?]%elem_of_cons; done.
Qed.

Lemma publish_pipes order ev b ps q (Horder : order ≡ₚ map fst (map_to_list (subs b))) :
  pipe_of q (publish order ev b ps).2 = take_in (owed q ev (subs b) order) (pipe_of q ps).
Proof.
  unfold publish. destruct (decide (subs b = ∅)) as [He|He].
  - rewrite bool_decide_true by done. rewrite He, map_to_list_empty in Horder. cbn in Horder.
    apply Permutation_nil_r in Horder as ->. now rewrite take_in_nil.
  - rewrite bool_decide_false by done.
    assert (NoDup order) as Hn by (rewrite Horder; apply NoDup_fst_map_to_list).
    destruct (publish_loop ev order (subs b) [] ps Hn) as [Hq _]. specialize (Hq q).
    now destruct (foldl _ _ order) as [[m dead] ps'].
Qed.


(** A publication appends to every connection's queue exactly the frames its
    matching subscriptions are owed, each labelled with its subscription and
    channel and in the order the table is walked, up to the queue's depth; a
    queue whose reader is gone is left alone.  Nothing else reaches any queue,
    whatever order the table is walked in, and the call never waits. *)
Theorem publish_delivers order ev b ps q (Horder : order ≡ₚ map fst (map_to_list (subs b))) :
  pipe_of q (publish order ev b ps).2 = take_in (owed q ev (subs b) order) (pipe_of q ps).
Proof. exact (publish_pipes order ev b ps q Horder). Qed.

(** What becomes of a subscription whose queue is [p] when its turn comes. *)
Definition outcome (ev : Event V) (s : Sub) (p : Pipe V) : option Sub :=
  if negb (matches (sub_channel s) ev) then Some s
  else if negb (open p) then None
  else if Nat.ltb (length (frames p)) QUEUE_DEPTH then Some (with_strikes 0 s)
  else let s := with_strikes (wadd 32 (sub_strikes s) 1) s in
       if MAX_LAG_STRIKES <=? sub_strikes s then None else Some s.

Lemma notify_outcome ev m dead ps id s : m !! id = Some s -> id ∉ dead ->
  let st := notify ev (m, dead, ps) id in
  (if decide (id ∈ st.1.2) then None else st.1.1 !! id) = outcome ev s (pipe_of (sub_pipe s) ps).
Proof.
  intros Hm Hd. cbv zeta. unfold notify, outcome. rewrite Hm. destruct (matches (sub_channel s) ev); cbn [negb].
  2: cbn; now rewrite decide_False.
  unfold try_send. destruct (open (pipe_of (sub_pipe s) ps)); cbn [negb fst snd].
  2: rewrite decide_True; [done|]; apply elem_of_app; right; apply list_elem_of_here.
  rewrite Nat.leb_antisym. destruct (Nat.ltb _ _); cbn [negb fst snd].
  - now rewrite decide_False, lookup_insert_eq by done.
  - destruct (MAX_LAG_STRIKES <=? _).
    + rewrite decide_True; [done|]. apply elem_of_app; right; apply list_elem_of_here.
    + now rewrite decide_False, lookup_insert_eq by done.
Qed.

Lemma publish_outcome order ev b ps id s : order ≡ₚ map fst (map_to_list (subs b)) -> subs b !! id = Some s ->
  exists l1 l2, order = l1 ++ id :: l2 /\
    subs (publish order ev b ps).1 !! id =
      outcome ev s (take_in (owed (sub_pipe s) ev (subs b) l1) (pipe_of (sub_pipe s) ps)).
Proof.
  intros Horder Hid. assert (id ∈ order) as Hin.
  { rewrite Horder. apply list_elem_of_fmap. exists (id, s). split; [done|]. now apply elem_of_map_to_list. }
  apply list_elem_of_split in Hin as (l1 & l2 & ->). exists l1, l2. split; [done|].
  assert (NoDup (l1 ++ id :: l2)) as Hn by (rewrite Horder; apply NoDup_fst_map_to_list).
  apply NoDup_app in Hn as (Hn1 & Hdis & Hn2). apply NoDup_cons in Hn2 as [Hid2 Hn2].
  unfold publish. rewrite bool_decide_false by (intros E; now rewrite E, lookup_empty in Hid).
  rewrite foldl_app. cbn [foldl]. destruct (publish_loop ev l1 (subs b) [] ps Hn1) as [Hq1 Hi1].
  destruct (foldl (notify ev) (subs b, [], ps) l1) as [[m1 d1] ps1]. cbn [fst snd] in *.
  destruct (Hi1 id) as [Hm1 Hd1]; [intros H; apply (Hdis id H), list_elem_of_here|].
  rewrite <- Hq1. pose proof (notify_outcome ev m1 d1 ps1 id s) as Ho. cbv zeta in Ho.
  destruct (notify ev (m1, d1, ps1) id) as [[m2 d2] ps2]. destruct (publish_loop ev l2 m2 d2 ps2 Hn2) as [_ Hi2].
  destruct (foldl (notify ev) (m2, d2, ps2) l2) as [[m3 d3] ps3]. cbn [fst snd subs with_subs] in *.
  destruct (Hi2 id Hid2) as [Hm2 Hd2]. rewrite delete_all, Hm2, <- Ho.
  - destruct (decide (id ∈ d3)), (decide (id ∈ d2)); tauto.
  - now rewrite Hm1.
  - rewrite Hd1. apply not_elem_of_nil.
Qed.

Lemma publish_evicts order ev b ps id s (Horder : order ≡ₚ map fst (map_to_list (subs b)))
  (Hid : subs b !! id = Some s) :
  match subs (publish order ev b ps).1 !! id with
  | Some s' => exists n, s' = with_strikes n s
  | None => matches (sub_channel s) ev = true /\
      (open (pipe_of (sub_pipe s) ps) = false \/
       (2 <= sub_strikes s /\ (QUEUE_DEPTH <= length (frames (pipe_of (sub_pipe s) (publish order ev b ps).2)))%nat))
  end.
Proof.
  pose proof (publish_pipes order ev b ps (sub_pipe s) Horder) as Hp.
  destruct (publish_outcome order ev b ps id s Horder Hid) as (l1 & l2 & -> & ->). unfold outcome.
  assert (exists n, s = with_strikes n s) as Hs by (exists (sub_strikes s); now destruct s).
  destruct (matches (sub_channel s) ev); cbn [negb]; [|done].
  rewrite take_in_open.
  destruct (open (pipe_of (sub_pipe s) ps)) eqn:Ho; cbn [negb]; [|split; [done|now left]].
  destruct (Nat.ltb_spec (length (frames (take_in (owed (sub_pipe s) ev (subs b) l1) (pipe_of (sub_pipe s) ps)))) QUEUE_DEPTH) as [|Hfull];
    [now eexists|]. cbn [sub_strikes with_strikes].
  destruct (N.leb_spec MAX_LAG_STRIKES (wadd 32 (sub_strikes s) 1)) as [Hst|]; [|now eexists].
  split; [done|right]. unfold MAX_LAG_STRIKES in Hst. split.
  - destruct (N.le_gt_cases 2 (sub_strikes s)); [done|]. rewrite wadd_small in Hst by (change (2 ^ 32) with 4294967296; lia). lia.
  - rewrite Hp. revert Hfull. unfold take_in. rewrite Ho. cbn [frames]. rewrite !length_app, !length_take.
    unfold owed. rewrite omap_app, length_app. lia.
Qed.


(** A publication evicts only consumers that are gone.  A subscription
    missing after it wanted the event and had a queue whose reader had left, or
    one that was full on this and at least two earlier publications; every
    other subscription stays, with its channel, connection and queue. *)
Theorem publish_evicts_dead order ev b ps id s (Horder : order ≡ₚ map fst (map_to_list (subs b)))
  (Hid : subs b !! id = Some s) :
  match subs (publish order ev b ps).1 !! id with
  | Some s' => exists n, s' = with_strikes n s
  | None => matches (sub_channel s) ev = true /\
      (open (pipe_of (sub_pipe s) ps) = false \/
       (2 <= sub_strikes s /\ (QUEUE_DEPTH <= length (frames (pipe_of (sub_pipe s) (publish order ev b ps).2)))%nat))
  end.
Proof. exact (publish_evicts order ev b ps id s Horder Hid). Qed.

(** A run of publications, each walking the table in some order. *)
Inductive publications : list (Event V) -> EventBus * gmap N (Pipe V) -> EventBus * gmap N (Pipe V) -> Prop :=
| pub_none st : publications [] st st
| pub_next order ev evs b ps st : order ≡ₚ map fst (map_to_list (subs b)) ->
    publications evs (publish order ev b ps) st -> publications (ev :: evs) (b, ps) st.

Definition clogged (q : N) (ps : gmap N (Pipe V)) : Prop :=
  open (pipe_of q ps) = true /\ (QUEUE_DEPTH <= length (frames (pipe_of q ps)))%nat.

(** One publication to a clogged queue: a strike, and the queue stays clogged. *)
Lemma clogged_strike order ev b ps id s : order ≡ₚ map fst (map_to_list (subs b)) -> subs b !! id = Some s ->
  clogged (sub_pipe s) ps -> matches (sub_channel s) ev = true -> sub_strikes s < 3 ->
  clogged (sub_pipe s) (publish order ev b ps).2 /\
  subs (publish order ev b ps).1 !! id =
    if sub_strikes s =? 2 then None else Some (with_strikes (sub_strikes s + 1) s).
Proof.
  intros Horder Hid [Ho Hf] Hm Hst. unfold clogged. rewrite (publish_pipes order ev b ps (sub_pipe s) Horder).
  assert (forall fs, take_in fs (pipe_of (sub_pipe s) ps) = pipe_of (sub_pipe s) ps) as Hk.
  { intros fs. unfold take_in. rewrite Ho. replace (_ - _)%nat with 0%nat by lia. rewrite take_0, app_nil_r, <- Ho.
    now destruct (pipe_of _ _). }
  rewrite Hk. split; [done|]. destruct (publish_outcome order ev b ps id s Horder Hid) as (l1 & l2 & _ & ->).
  rewrite Hk. unfold outcome. rewrite Hm, Ho. cbn [negb]. destruct (Nat.ltb_spec (length (frames (pipe_of (sub_pipe s) ps))) QUEUE_DEPTH); [lia|].
  cbn [sub_strikes with_strikes]. rewrite wadd_small by (change (2 ^ 32) with 4294967296; lia). unfold MAX_LAG_STRIKES.
  destruct (N.eqb_spec (sub_strikes s) 2), (N.leb_spec 3 (sub_strikes s + 1)); (done || lia).
Qed.

(** A subscription that is gone stays gone. *)
Lemma publish_keeps_none order ev b ps id : order ≡ₚ map fst (map_to_list (subs b)) -> subs b !! id = None ->
  subs (publish order ev b ps).1 !! id = None.
Proof.
  intros Horder Hid. unfold publish. case_bool_decide; [done|].
  assert (NoDup order) as Hn by (rewrite Horder; apply NoDup_fst_map_to_list).
  destruct (publish_loop ev order (subs b) [] ps Hn) as [_ Hi].
  destruct (foldl _ _ order) as [[m dead] ps']. cbn [fst snd subs with_subs] in *. rewrite delete_all.
  destruct (Hi id) as [-> _]; [|now destruct (decide _)].
  rewrite Horder. intros ([i s] & E & Hin)%list_elem_of_fmap. cbn in E. subst. apply elem_of_map_to_list in Hin. congruence.
Qed.

(** A consumer that stops reading is evicted, not tolerated forever: while
    its queue stays full, the third consecutive publication it wants removes
    the subscription. *)
Theorem silent_consumer_evicted e1 e2 e3 b ps st id s (Hid : subs b !! id = Some s) (Hnew : sub_strikes s = 0)
  (Hfull : clogged (sub_pipe s) ps) (Hwants : Forall (fun ev => matches (sub_channel s) ev = true) [e1; e2; e3])
  (Hrun : publications [e1; e2; e3] (b, ps) st) :
  subs st.1 !! id = None.
Proof.
  apply Forall_cons in Hwants as [H1 Hwants]. apply Forall_cons in Hwants as [H2 Hwants].
  apply Forall_cons in Hwants as [H3 _].
  inversion Hrun as [|o1 ? ? ? ? ? Ho1 Hrun1]; subst. destruct (clogged_strike o1 e1 b ps id s) as [Hf1 Hs1]; [done..|lia|].
  rewrite Hnew in Hs1. change (0 =? 2) with false in Hs1. cbn iota in Hs1.
  destruct (publish o1 e1 b ps) as [b1 ps1]. inversion Hrun1 as [|o2 ? ? ? ? ? Ho2 Hrun2]; subst.
  destruct (clogged_strike o2 e2 b1 ps1 id _ Ho2 Hs1) as [Hf2 Hs2]; [done..|].
  cbn [sub_strikes with_strikes] in Hs2. change (0 + 1 =? 2) with false in Hs2. cbn iota in Hs2.
  destruct (publish o2 e2 b1 ps1) as [b2 ps2]. inversion Hrun2 as [|o3 ? ? ? ? ? Ho3 Hrun3]; subst.
  destruct (clogged_strike o3 e3 b2 ps2 id _ Ho3 Hs2) as [_ Hs3]; [done..|].
  destruct (publish o3 e3 b2 ps2) as [b3 ps3]. inversion Hrun3; subst. exact Hs3.
Qed.

(** ** The table stays bounded *)

Inductive BusOp :=
| Subscribe (conn : N) (c : Channel) (pipe : N) | Unsubscribe (conn id : N) | Drop_conn (conn : N)
| Publish (order : list N) (ev : Event V).

Definition bus_step (st : EventBus * gmap N (Pipe V)) (op : BusOp) : EventBus * gmap N (Pipe V) :=
  let '(b, ps) := st in
  match op with
  | Subscribe conn c pipe => ((subscribe conn c pipe b).2, ps)
  | Unsubscribe conn id => ((unsubscribe conn id b).2, ps)
  | Drop_conn conn => (drop_conn conn b, ps)
  | Publish order ev => publish order ev b ps
  end.

(** The connections behind the ids. *)
Definition conns (m : gmap N Sub) : gmap N N := sub_conn <$> m.
Definition share (conn : N) (m : gmap N N) : nat := size (filter (fun kv => kv.2 = conn) m).

Lemma of_conn_share conn m : size (of_conn conn m) = share conn (conns m).
Proof. unfold share, conns, of_conn. rewrite map_filter_fmap, map_size_fmap. done. Qed.

Definition bounded (b : EventBus) : Prop :=
  (size (subs b) <= MAX_SUBSCRIPTIONS)%nat /\ forall conn, (size (of_conn conn (subs b)) <= MAX_SUBS_PER_CONN)%nat.

Lemma share_mono conn (m1 m2 : gmap N N) : m1 ⊆ m2 -> (share conn m1 <= share conn m2)%nat.
Proof. intros Hs. unfold share. apply map_subseteq_size, map_subseteq_spec. intros i x [Hi Hx]%map_lookup_filter_Some.
  apply map_lookup_filter_Some. split; [|done]. now apply (map_subseteq_spec m1 m2). Qed.

Lemma bounded_mono b1 b2 : conns (subs b1) ⊆ conns (subs b2) -> bounded b2 -> bounded b1.
Proof.
  intros Hs [H1 H2]. split.
  - apply map_subseteq_size in Hs. unfold conns in Hs. rewrite !map_size_fmap in Hs. lia.
  - intros conn. specialize (H2 conn). rewrite of_conn_share in *. pose proof (share_mono conn _ _ Hs). lia.
Qed.

Lemma conns_spec m1 m2 : (forall i s, m1 !! i = Some s -> exists s', m2 !! i = Some s' /\ sub_conn s' = sub_conn s) ->
  conns m1 ⊆ conns m2.
Proof.
  intros H. apply map_subseteq_spec. intros i c. unfold conns. rewrite !lookup_fmap. intros (s & Hs & ->)%fmap_Some.
  destruct (H i s Hs) as (s' & -> & E). cbn. now rewrite E.
Qed.

Lemma insert_size (m : gmap N Sub) i s : (size (<[i:=s]> m) <= S (size m))%nat.
Proof. rewrite map_size_insert. destruct (m !! i); cbn; lia. Qed.

Lemma bounded_subscribe conn c pipe b : bounded b -> bounded (subscribe conn c pipe b).2.
Proof.
  intros [H1 H2]. unfold subscribe. destruct (Nat.leb_spec MAX_SUBSCRIPTIONS (size (subs b))); [done|].
  destruct (Nat.leb_spec MAX_SUBS_PER_CONN (size (of_conn conn (subs b)))) as [|Hc]; [done|]. cbn [snd]. split; cbn [subs].
  - etransitivity; [apply insert_size|]. lia.
  - intros a. specialize (H2 a). unfold of_conn in *. destruct (decide (conn = a)) as [->|Hne].
    + rewrite map_filter_insert_True by done. etransitivity; [apply insert_size|]. lia.
    + rewrite map_filter_insert_False by done. etransitivity; [|exact H2]. apply map_subseteq_size.
      apply map_subseteq_spec. intros i x [Hi Hx]%map_lookup_filter_Some. apply map_lookup_filter_Some. split; [|done].
      now apply lookup_delete_Some in Hi as [_ Hi].
Qed.

Lemma bounded_step st op : (match op with Publish order _ => order ≡ₚ map fst (map_to_list (subs st.1)) | _ => True end) ->
  bounded st.1 -> bounded (bus_step st op).1.
Proof.
  destruct st as [b ps]. intros Ho Hb. destruct op as [conn c pipe|conn id|conn|order ev]; cbn [bus_step fst] in *.
  - now apply bounded_subscribe.
  - unfold unsubscribe. destruct (subs b !! id) as [s|]; [|done]. destruct (_ =? _); [|done].
    apply (bounded_mono _ b); [|done]. apply conns_spec. cbn. intros i s' [_ Hi]%lookup_delete_Some. now exists s'.
  - apply (bounded_mono _ b); [|done]. apply conns_spec. cbn. intros i s' [Hi _]%map_lookup_filter_Some. now exists s'.
  - apply (bounded_mono _ b); [|done]. apply conns_spec. intros i s' Hi.
    destruct (subs b !! i) as [s|] eqn:E.
    + pose proof (publish_evicts order ev b ps i s Ho E) as He. rewrite Hi in He. destruct He as [n ->]. now exists s.
    + rewrite publish_keeps_none in Hi by done. discriminate.
Qed.

(** A run of the bus: publications walk the table of their moment. *)
Inductive bus_run : EventBus * gmap N (Pipe V) -> Prop :=
| run_new ps : bus_run (bus_new, ps)
| run_queue b ps q : bus_run (b, ps) -> bus_run (b, queue q ps)
| run_pipes b ps ps' : bus_run (b, ps) -> bus_run (b, ps')
| run_op st op : bus_run st -> (match op with Publish order _ => order ≡ₚ map fst (map_to_list (subs st.1)) | _ => True end) ->
    bus_run (bus_step st op).

(** The bus cannot be made to hold memory without bound.  After any sequence
    of subscriptions, cancellations, disconnections, reads and publications the
    table holds at most [MAX_SUBSCRIPTIONS] subscriptions and each connection
    at most [MAX_SUBS_PER_CONN] of them. *)
Theorem subscriptions_bounded st (Hrun : bus_run st) :
  (size (subs st.1) <= MAX_SUBSCRIPTIONS)%nat /\
  forall conn, (size (of_conn conn (subs st.1)) <= MAX_SUBS_PER_CONN)%nat.
Proof.
  change (bounded st.1). induction Hrun as [ps|b ps q _ IH|b ps ps' _ IH|st op _ IH Ho]; try exact IH.
  - split; cbn; [|intros conn]; unfold of_conn; rewrite ?map_filter_empty, map_size_empty; lia.
  - now apply bounded_step.
Qed.

(** Only the connection that made a subscription can cancel it. *)
Lemma unsubscribe_exact conn id b :
  (unsubscribe conn id b).1 = true <-> exists s, subs b !! id = Some s /\ sub_conn s = conn.
Proof.
  unfold unsubscribe. destruct (subs b !! id) as [s|]; [|split; [done|now intros (? & ? & _)]].
  destruct (N.eqb_spec (sub_conn s) conn); cbn; split; try done; [now exists s|].
  now intros (s' & [= <-] & ?).
Qed.
End facts.

(** ** Examples *)
Module Events_example.

Definition ev (n : N) : Event N := event_new "heads" None n.
Definition filled : Pipe N :=
  {| frames := repeat {| f_sub := 0; f_channel := "mempool"; f_result := 0 |} QUEUE_DEPTH; open := true |}.
(** Two subscriptions of two connections; the second connection stopped reading. *)
Definition bus : EventBus := (subscribe 2 Heads 20 (subscribe 1 Heads 10 bus_new).2).2.
Definition pipes : gmap N (Pipe N) := <[20:=filled]> (queue 10 ∅).

Lemma publish_delivers_witness :
  pipe_of 10 (publish [2; 1] (ev 7) bus pipes).2 = {| frames := [frame_of 1 {| sub_channel := Heads; sub_conn := 1; sub_pipe := 10; sub_strikes := 0 |} (ev 7)]; open := true |}.
Proof.
  rewrite (publish_delivers [2; 1] (ev 7) bus pipes 10); [reflexivity|].
  replace (map fst (map_to_list (subs bus))) with [2; 1] by (vm_compute; reflexivity). reflexivity.
Defined.

Definition st3 : EventBus * gmap N (Pipe N) :=
  let st1 := publish [2; 1] (ev 7) bus pipes in
  let st2 := publish [2; 1] (ev 8) st1.1 st1.2 in
  publish [2; 1] (ev 9) st2.1 st2.2.

Lemma silent_consumer_evicted_witness : subs st3.1 !! 2 = None.
Proof.
  apply (silent_consumer_evicted (ev 7) (ev 8) (ev 9) bus pipes st3 2 {| sub_channel := Heads; sub_conn := 2; sub_pipe := 20; sub_strikes := 0 |}).
  - reflexivity.
  - reflexivity.
  - split; [reflexivity|]. vm_compute. lia.
  - repeat constructor.
  - apply (pub_next [2; 1]); [reflexivity|]. destruct (publish [2; 1] (ev 7) bus pipes) as [b1 ps1] eqn:E1.
    apply (pub_next [2; 1]); [vm_compute in E1; injection E1 as <- <-; reflexivity|].
    destruct (publish [2; 1] (ev 8) b1 ps1) as [b2 ps2] eqn:E2.
    apply (pub_next [2; 1]).
    + vm_compute in E1. injection E1 as <- <-. vm_compute in E2. injection E2 as <- <-. reflexivity.
    + replace (publish [2; 1] (ev 9) b2 ps2) with st3; [apply pub_none|]. unfold st3. now rewrite E1; cbn; rewrite E2.
Defined.

Lemma subscriptions_bounded_witness :
  bus_run (bus, pipes) /\ (size (subs bus) <= MAX_SUBSCRIPTIONS)%nat.
Proof.
  assert (bus_run (bus, pipes)) as H.
  { apply run_pipes with (ps := ∅). apply (run_op ((subscribe 1 Heads 10 bus_new).2, ∅) (Subscribe 2 Heads 20)); [|done].
    apply (run_op (bus_new, ∅) (Subscribe 1 Heads 10)); [|done]. apply run_new. }
  split; [exact H|]. exact (proj1 (subscriptions_bounded (bus, pipes) H)).
Defined.

(** Another connection cannot cancel the stream. *)
Lemma foreign_cancel : (unsubscribe 1 2 bus).1 = false /\ (unsubscribe 2 2 bus).1 = true.
Proof. split; reflexivity. Qed.
End Events_example.
