(* ===== verification/P2p.v ===== *)
(** p2p.rs: gossip, block and vote synchronisation, and fork resolution.

    A gossip message is the record of the fields the node reads from the JSON
    object, each absent, malformed (the decoder of serde refuses it) or
    present.  Peers are not trusted: a request is answered by the environment
    [Env], an arbitrary function of the moment, the peer and the request; the
    clocks, the name resolution and the links are the environment's too.  Every
    interaction takes one tick, so no two answers are tied to each other.  The
    statics of the file, the reputation book and the messages sent are part of
    the [World] an operation takes and returns.  Log lines are left out. *)

From S2P Require Import Prelude Bytes Crypto Types Journal Store Smt SmtFacts Poseidon Shielded State StateFacts.
From S2P Require Import Fees Staking Tokens Slashing Votes Mempool Contracts SignGuard Circuit Exec Chain Limits.
From Stdlib Require Import Ascii.
From Stdlib Require String.

(* [src/src/p2p.rs 26-26 MAX_SYNC_BATCH] *)
Definition MAX_SYNC_BATCH : N := 200.
(* [src/src/p2p.rs 35-37 RESET_COOLDOWN_SECS] *)
Definition RESET_COOLDOWN_SECS : N := 900.
(* [src/src/p2p.rs 38-41 STALL_OVERRIDE_SECS] *)
Definition STALL_OVERRIDE_SECS : N := 90.
(* [src/src/p2p.rs 42-44 MAX_STALL_OVERRIDES] *)
Definition MAX_STALL_OVERRIDES : N := 3.
(* [src/src/p2p.rs 88-89 COST_BAD_MESSAGE] *)
Definition COST_BAD_MESSAGE : Z := 12.
(* [src/src/p2p.rs 90-90 COST_BAD_BLOCK] *)
Definition COST_BAD_BLOCK : Z := 20.
(* [src/src/p2p.rs 91-93 COST_PLAINTEXT] *)
Definition COST_PLAINTEXT : Z := 4.
(* [src/src/p2p.rs 97-99 MAX_VOTE_SYNC_BATCH] *)
Definition MAX_VOTE_SYNC_BATCH : nat := N.to_nat 4096.

(** ** Messages *)

Inductive Field (A : Type) := Absent | Malformed | Present (a : A).
Arguments Absent {A}.
Arguments Malformed {A}.
Arguments Present {A} a.

(** [serde_json::from_value(msg.get(k).cloned()?).ok()] *)
Definition decoded {A} (f : Field A) : option A := match f with Present a => Some a | _ => None end.
(** [from_value(v).unwrap_or_default()] of a field that is there. *)
Definition or_empty {A} (f : Field (list A)) : option (list A) :=
  match f with Absent => None | Malformed => Some [] | Present l => Some l end.

Record Msg := {
  m_t : string;
  m_from : option N; m_limit : option N; m_height : option N; m_hash : option string;
  m_finalized : option N; m_earliest : option N;
  m_tx : Field Transaction; m_vote : Field Vote; m_evidence : Field Evidence; m_block : Field Block;
  m_blocks : Field (list Block); m_votes : Field (list Vote)
}.
Definition msg (t : string) : Msg :=
  Build_Msg t None None None None None None Absent Absent Absent Absent Absent Absent.
Definition msg_getblocks (from limit : N) : Msg :=
  Build_Msg "getblocks" (Some from) (Some limit) None None None None Absent Absent Absent Absent Absent Absent.
Definition msg_getvotes (from : N) : Msg :=
  Build_Msg "getvotes" (Some from) None None None None None Absent Absent Absent Absent Absent Absent.
Definition msg_status (height : N) (hash : string) (finalized earliest : N) : Msg :=
  Build_Msg "statusres" None None (Some height) (Some hash) (Some finalized) (Some earliest)
    Absent Absent Absent Absent Absent Absent.
Definition msg_blocks (bs : list Block) : Msg :=
  Build_Msg "blocks" None None None None None None Absent Absent Absent Absent (Present bs) Absent.
Definition msg_votes (vs : list Vote) : Msg :=
  Build_Msg "votes" None None None None None None Absent Absent Absent Absent Absent (Present vs).
Definition msg_vote (v : Vote) : Msg :=
  Build_Msg "vote" None None None None None None Absent (Present v) Absent Absent Absent Absent.
Definition msg_evidence (e : Evidence) : Msg :=
  Build_Msg "evidence" None None None None None None Absent Absent (Present e) Absent Absent Absent.
Definition msg_block (b : Block) : Msg :=
  Build_Msg "block" None None None None None None Absent Absent Absent (Present b) Absent Absent.
Definition msg_tx (tx : Transaction) : Msg :=
  Build_Msg "tx" None None None None None None (Present tx) Absent Absent Absent Absent Absent.

(** ** State *)

(* [src/src/p2p.rs 34-47! LAST_RESET] *)
Record Gate := { last_reset : N; stall_overrides : N; last_import : N }.
Definition gate_new : Gate := {| last_reset := 0; stall_overrides := 0; last_import := 0 |}.

(* [src/src/p2p.rs 105-117 P2p] *)
Record P2p := { peers : list string; allowed_ids : gset string; require_encryption : bool }.

Inductive Out := Broadcast (m : Msg) | Spawn_sync.

Record World := {
  w_node : Node; w_book : PeerBook; w_gate : Gate; w_best_peer : N; w_sent : list Out; w_tick : nat
}.
Definition with_node (n : Node) (w : World) : World :=
  Build_World n (w_book w) (w_gate w) (w_best_peer w) (w_sent w) (w_tick w).
Definition with_book (b : PeerBook) (w : World) : World :=
  Build_World (w_node w) b (w_gate w) (w_best_peer w) (w_sent w) (w_tick w).
Definition with_gate (g : Gate) (w : World) : World :=
  Build_World (w_node w) (w_book w) g (w_best_peer w) (w_sent w) (w_tick w).
Definition with_best_peer (h : N) (w : World) : World :=
  Build_World (w_node w) (w_book w) (w_gate w) h (w_sent w) (w_tick w).
Definition emit (o : Out) (w : World) : World :=
  Build_World (w_node w) (w_book w) (w_gate w) (w_best_peer w) (w_sent w ++ [o]) (w_tick w).
Definition ticked (w : World) : World :=
  Build_World (w_node w) (w_book w) (w_gate w) (w_best_peer w) (w_sent w) (S (w_tick w)).
Definition w_db (w : World) : Db := n_db (w_node w).

(** The outside of a node, by tick. *)
Class Env := {
  reply : nat -> string -> Msg -> result Msg;
  secs : nat -> N;
  instant : nat -> N;
  import_clock : nat -> Clock;
  reset_clock : nat -> N;
  cores : option nat
}.

(** ** The replay cooldown *)

(* [src/src/p2p.rs 50-52 note_import] *)
Definition note_import_at (now : N) (g : Gate) : Gate :=
  {| last_reset := last_reset g; stall_overrides := stall_overrides g; last_import := now |}.

(* [src/src/p2p.rs 58-75 may_resolve_fork] *)
Definition may_resolve_fork_at (now : N) (g : Gate) : bool * Gate :=
  if RESET_COOLDOWN_SECS <? sat_sub now (last_reset g) then
    (true, {| last_reset := last_reset g; stall_overrides := 0; last_import := last_import g |})
  else
    let stalled := (0 <? last_import g) && (STALL_OVERRIDE_SECS <? sat_sub now (last_import g)) in
    if stalled && (stall_overrides g <? MAX_STALL_OVERRIDES) then
      (true, {| last_reset := last_reset g; stall_overrides := stall_overrides g +!! 1; last_import := last_import g |})
    else (false, g).

(** [LAST_RESET.store(now_secs())] *)
(* [src/src/p2p.rs 710-710 resolve_fork] *)
Definition note_reset_at (now : N) (g : Gate) : Gate :=
  {| last_reset := now; stall_overrides := stall_overrides g; last_import := last_import g |}.

(** ** Peers *)

(* [src/src/p2p.rs 143-150 P2p::is_static_peer] *)
Definition is_static_peer (resolve : string -> list IpAddr) (ip : IpAddr) (p : P2p) : bool :=
  existsb (fun peer => bool_decide (ip ∈ resolve (trim peer))) (peers p).

(* [src/src/p2p.rs 152-160 P2p::id_allowed] *)
Definition id_allowed (peer_id : option string) (p : P2p) : bool :=
  if bool_decide (allowed_ids p = ∅) then true
  else match peer_id with Some id => bool_decide (id ∈ allowed_ids p) | None => false end.

(** A link to a peer: an authenticated session or legacy plain text. *)
Inductive Link := Secure (peer_id : string) | Plain (prefix : string).
(* [src/src/transport.rs 156-161 Channel::peer_id] *)
Definition peer_id (l : Link) : option string := match l with Secure id => Some id | Plain _ => None end.
(* [src/src/transport.rs 163-165 Channel::is_encrypted] *)
Definition is_encrypted (l : Link) : bool := match l with Secure _ => true | Plain _ => false end.

(** [connect] and [handshake] are what the socket and the handshake gave: a
    handshake ends in the peer's verified identity. *)
(* [src/src/p2p.rs 164-181 P2p::dial] *)
Definition dial (peer : string) (connect : result unit) (handshake : result string) (reconnect : result unit) (p : P2p) : result Link :=
  _ ← connect;
  match handshake with
  | Ok id =>
    let l := Secure id in
    if negb (id_allowed (peer_id l) p) then Err ("peer " +:+ peer +:+ " is not on the allowlist") else Ok l
  | Err e =>
    if require_encryption p then Err ("encrypted handshake with " +:+ peer +:+ " failed: " +:+ e)
    else (_ ← reconnect; Ok (Plain ""))
  end.

(** The first bytes of an inbound connection, and the handshake when they are
    the magic. *)
(* [src/src/p2p.rs 324-354 accept_channel] *)
Definition accept_channel (head : result string) (handshake : result string) (p : P2p) : result Link :=
  head ← head;
  if String.eqb head "INSC1" then
    id ← handshake;
    let l := Secure id in
    if negb (id_allowed (peer_id l) p) then Err ("rejected peer: not on allowlist") else Ok l
  else if require_encryption p then Err "refused plaintext peer (encryption required)"
  else if negb (bool_decide (allowed_ids p = ∅)) then Err "refused plaintext peer (allowlist requires authentication)"
  else Ok (Plain head).

(** [peer.split(':').next().and_then(|h| h.parse().ok())]: no text without a
    colon is an IPv6 address. *)
Fixpoint split_on (c : ascii) (s : string) : list string :=
  match s with
  | "" => [""]
  | String d s' =>
    match split_on c s' with
    | w :: ws => if Ascii.eqb c d then "" :: w :: ws else String d w :: ws
    | [] => []
    end
  end.
Definition octet (s : string) : option N :=
  if Nat.ltb 3 (slen s) then None
  else match s with
  | "" => None
  | String "0"%char (String _ _) => None
  | _ => v ← parse_digits 0 s; if v <=? 255 then Some v else None
  end.
Definition parse_ip (s : string) : option IpAddr :=
  match split_on "."%char s with
  | [a; b; c; d] =>
    a ← octet a; b ← octet b; c ← octet c; d ← octet d;
    Some (V4 (((a * 256 + b) * 256 + c) * 256 + d))
  | _ => None
  end.
Definition peer_ip (peer : string) : option IpAddr := parse_ip (List.hd "" (split_on ":"%char peer)).

Section p2p.
Context {HC : Crypto} {HF : Fr} {HK : Compression} {HP : ChainParams} {HJ : EvidenceJson} {HW : Wasm} {HG : Groth16}.
Context {HE : Env}.

(* [src/src/p2p.rs 198-205 P2p::request] *)
Definition request (peer : string) (m : Msg) (w : World) : result Msg * World := (reply (w_tick w) peer m, ticked w).

Definition note_import (w : World) : World := ticked (with_gate (note_import_at (secs (w_tick w)) (w_gate w)) w).

Definition may_resolve_fork (w : World) : bool * World :=
  let '(ok, g) := may_resolve_fork_at (secs (w_tick w)) (w_gate w) in (ok, ticked (with_gate g w)).

Definition import (b : Block) (w : World) : result bool * World :=
  let '(r, n) := import_block cores (import_clock (w_tick w)) b (w_node w) in (r, ticked (with_node n w)).

Definition penalize_ip (ip : option IpAddr) (cost : Z) (w : World) : World :=
  match ip with Some ip => ticked (with_book (penalize (instant (w_tick w)) ip cost (w_book w)).2 w) | None => w end.

(** [node.votes.add(&node.store, vote)] *)
Definition add_vote (v : Vote) (w : World) : result VoteOutcome * World :=
  let n := w_node w in
  let '(r, t, s) := add (n_votes n) (n_store n) v in
  (r, with_node (with_votes t (with_store s n)) w).

(* [src/src/p2p.rs 217-234 vote_on] *)
Definition vote_on (b : Block) (w : World) : World :=
  let n := w_node w in
  if negb (is_bonded_validator n) || halted n then w
  else
    let vote := {| vote_height := b_height b; vote_hash := b_hash b; voter_pubkey := pubkey_hex (n_producer n); vote_signature := "" |} in
    let vote := {| vote_height := vote_height vote; vote_hash := vote_hash vote; voter_pubkey := voter_pubkey vote;
                   vote_signature := sign_hex (n_producer n) (vote_signing_bytes vote) |} in
    emit (Broadcast (msg_vote vote)) (add_vote vote w).2.

(* [src/src/p2p.rs 236-238 announce_block] *)
Definition announce_block (b : Block) (w : World) : World := emit (Broadcast (msg_block b)) w.
(* [src/src/p2p.rs 240-242 announce_tx] *)
Definition announce_tx (tx : Transaction) (w : World) : World := emit (Broadcast (msg_tx tx)) w.
(* [src/src/p2p.rs 246-251 announce_evidence] *)
Definition announce_evidence (e : Evidence) (w : World) : World :=
  emit (Broadcast (msg_evidence e)) (with_node (submit_report e (w_node w)).2 w).
(* [src/src/p2p.rs 254-258 flush_vote_evidence] *)
Definition flush_vote_evidence (w : World) : World :=
  let '(es, t) := take_evidence (n_votes (w_node w)) in
  foldl (fun w e => announce_evidence e w) (with_node (with_votes t (w_node w)) w) es.

(** ** Synchronisation *)

(* [src/src/p2p.rs 658-670 should_adopt] *)
Definition should_adopt (d : Db) (peer_block : Block) (peer_height : N) : bool :=
  let ours := tip d in
  if ours <? peer_height then true
  else if peer_height <? ours then false
  else match block (b_height peer_block) d with
  | Some local => match String.compare (b_hash peer_block) (b_hash local) with Lt => true | _ => false end
  | None => true
  end.

(* [src/src/p2p.rs 778-787 peer_block] *)
Definition peer_block (peer : string) (height : N) (w : World) : option Block * World :=
  let '(r, w) := request peer (msg_getblocks height 1) w in
  (match r with
   | Ok m => blocks ← decoded (m_blocks m); List.find (fun b => b_height b =? height) blocks
   | Err _ => None
   end, w).

(** [while check > 0 && node.store.block(check).is_none() { check -= 1 }] *)
Fixpoint highest_held (check : nat) (d : Db) : N :=
  match check with
  | O => 0
  | S check' => match block (N.of_nat check) d with Some _ => N.of_nat check | None => highest_held check' d end
  end.

(* [src/src/p2p.rs 790-835 verify_peer_claim] *)
Definition verify_peer_claim (peer : string) (peer_height : N) (w : World) : result unit * World :=
  let '(tip_block, w) := peer_block peer peer_height w in
  match tip_block with
  | None => (Err "peer cannot serve its own claimed tip", w)
  | Some t =>
    if negb (b_height t =? peer_height) then (Err "peer served the wrong height", w)
    else if negb (String.eqb (b_hash t) (compute_hash t)) then (Err "peer tip hash does not match its header", w)
    else if negb (verify_producer t) then (Err "peer tip carries no valid producer signature", w)
    else
      let d := w_db w in
      let check := highest_held (N.to_nat (N.min (finalized_height d) (tip d))) d in
      if 0 <? check then
        match block check d with
        | None => (Err "local finalized block missing", w)
        | Some ours =>
          let '(theirs, w) := peer_block peer check w in
          match theirs with
          | None => (Err "peer cannot serve our finalized height", w)
          | Some theirs =>
            if negb (String.eqb (b_hash theirs) (b_hash ours)) then
              (Err ("peer chain diverges below finalized height " +:+ dec check +:+ " (ours " +:+
                    String.substring 0 8 (b_hash ours) +:+ " theirs " +:+ String.substring 0 8 (b_hash theirs) +:+ ")"), w)
            else (Ok tt, w)
          end
        end
      else (Ok tt, w)
  end.

(** Imports a batch in order: the next height to ask for, or [None] when an
    import failed and the replay stops. *)
Fixpoint replay_blocks (bs : list Block) (next : N) (w : World) : option N * World :=
  match bs with
  | [] => (Some next, w)
  | b :: bs =>
    match import b w with
    | (Ok _, w) => replay_blocks bs (b_height b +!! 1) w
    | (Err _, w) => (None, w)
    end
  end.

(** How the replay loop ended: it gave up, or it ran to its end. *)
Inductive Replay := Gave_up | Finished.

(** The loop runs for as long as the peer makes it: [fuel] bounds its turns, and
    [None] is a replay still running. *)
(* [src/src/p2p.rs 715-767! resolve_fork] *)
Fixpoint replay (fuel : nat) (peer : string) (next target : N) (w : World) : option (Replay * World) :=
  match fuel with
  | O => None
  | S fuel =>
    if target <? next then Some (Finished, w)
    else
      match request peer (msg_getblocks next MAX_SYNC_BATCH) w with
      | (Err _, w) => Some (Gave_up, w)
      | (Ok res, w) =>
        match default [] (or_empty (m_blocks res)) with
        | [] =>
          let '(st, w) := request peer (msg "status") w in
          let live := match st with Ok s => default target (m_height s) | Err _ => target end in
          if target <? live then replay fuel peer next live w else Some (Finished, w)
        | blocks =>
          match replay_blocks blocks next w with
          | (None, w) => Some (Gave_up, w)
          | (Some next', w) => if next' =? next then Some (Finished, w) else replay fuel peer next' target w
          end
        end
      end
  end.

(** [node.store.tip_height().and_then(|h| node.store.block(h))] *)
Definition tip_block (d : Db) : option Block := h ← tip_height d; block h d.

(* [src/src/p2p.rs 673-775 resolve_fork] *)
Definition resolve_fork (fuel : nat) (peer : string) (peer_height : N) (w : World) : option World :=
  match verify_peer_claim peer peer_height w with
  | (Err _, w) => Some (penalize_ip (peer_ip peer) COST_BAD_BLOCK w)
  | (Ok _, w) =>
    let '(st, w) := request peer (msg "status") w in
    let peer_earliest := match st with Ok s => default 0 (m_earliest s) | Err _ => 0 end in
    if 1 <? peer_earliest then Some w
    else
      let w := ticked (with_gate (note_reset_at (secs (w_tick w)) (w_gate w)) w) in
      let '(r, n) := reset_to_genesis peer_height (reset_clock (w_tick w)) (w_node w) in
      let w := ticked (with_node n w) in
      match r with
      | Err _ => Some w
      | Ok _ =>
        match replay fuel peer 1 peer_height w with
        | None => None
        | Some (Gave_up, w) => Some w
        | Some (Finished, w) =>
          Some (match tip_block (w_db w) with Some b => vote_on b w | None => w end)
        end
      end
  end.

(** [e.contains(pattern)] *)
Definition mentions (pattern e : string) : bool := bool_decide (is_Some (String.index 0 pattern e)).

(** The blocks of one batch, up to the first that does not import. *)
Fixpoint sync_blocks (fuel : nat) (peer : string) (peer_height : N) (bs : list Block) (w : World) : option World :=
  match bs with
  | [] => Some w
  | b :: bs =>
    match import b w with
    | (Ok true, w) => sync_blocks fuel peer peer_height bs (vote_on b (note_import w))
    | (Ok false, w) => sync_blocks fuel peer peer_height bs w
    | (Err e, w) =>
      if mentions "parent hash mismatch" e && should_adopt (w_db w) b peer_height then
        match may_resolve_fork w with
        | (true, w) => resolve_fork fuel peer peer_height w
        | (false, w) => Some w
        end
      else Some w
    end
  end.

(** One peer of a catch-up. *)
Definition sync_peer (fuel : nat) (peer : string) (w : World) : option World :=
  let '(status, w) := request peer (msg "status") w in
  let peer_height := match status with Ok s => default 0 (m_height s) | Err _ => 0 end in
  let w := with_best_peer (note_peer_height (w_best_peer w) peer_height) w in
  let from := tip (w_db w) +!! 1 in
  if peer_height +!! 1 <? from then Some w
  else
    let peer_earliest := match status with Ok s => default 0 (m_earliest s) | Err _ => 0 end in
    if from <? peer_earliest then Some w
    else
      match request peer (msg_getblocks from MAX_SYNC_BATCH) w with
      | (Err _, w) => Some w
      | (Ok res, w) =>
        match or_empty (m_blocks res) with
        | None => Some w
        | Some bs => sync_blocks fuel peer peer_height bs w
        end
      end.

Fixpoint sync_peers (fuel : nat) (ps : list string) (w : World) : option World :=
  match ps with
  | [] => Some w
  | peer :: ps => match sync_peer fuel peer w with Some w => sync_peers fuel ps w | None => None end
  end.

(** [busy]: another thread holds the gate. *)
(* [src/src/p2p.rs 549-622 sync_once] *)
Definition sync_once (fuel : nat) (busy : bool) (p : P2p) (w : World) : option World :=
  if busy then Some w else sync_peers fuel (peers p) w.

Definition add_votes (vs : list Vote) (w : World) : World := foldl (fun w v => (add_vote v w).2) w vs.

(* [src/src/p2p.rs 629-654 sync_votes] *)
Definition sync_votes (p : P2p) (w : World) : World :=
  if n_solo (w_node w) then w
  else
    let from := finalized_height (w_db w) in
    foldl (fun w peer =>
      match request peer (msg_getvotes from) w with
      | (Err _, w) => w
      | (Ok res, w) => add_votes (default [] (decoded (m_votes res))) w
      end) w (peers p).

(** ** Serving *)

(** The loop of "getblocks": [n] heights left to look at, [h] the next one. *)
Fixpoint collect_blocks (n : nat) (h limit : N) (acc : list Block) (d : Db) : list Block :=
  match n with
  | O => acc
  | S n =>
    if N.of_nat (length acc) <? limit then
      collect_blocks n (h + 1) limit (match block h d with Some b => acc ++ [b] | None => acc end) d
    else acc
  end.

(* [src/src/p2p.rs 435-452! handle_msg] *)
Definition serve_blocks (from limit : option N) (d : Db) : list Block :=
  let from := default 0 from in
  let limit := N.min (default MAX_SYNC_BATCH limit) MAX_SYNC_BATCH in
  collect_blocks (N.to_nat (tip d + 1 - from)) from limit [] d.

(* [src/src/p2p.rs 508-545! handle_msg] *)
Definition handle_block (b : Block) (ip : option IpAddr) (w : World) : World :=
  let w := match detect_double_sign b (w_db w) with Some e => announce_evidence e w | None => w end in
  match import b w with
  | (Ok true, w) => emit (Broadcast (msg_block b)) (vote_on b (note_import w))
  | (Ok false, w) => w
  | (Err _, w) =>
    if tip (w_db w) +!! 1 <? b_height b then emit Spawn_sync w else penalize_ip ip COST_BAD_BLOCK w
  end.

(* [src/src/p2p.rs 460-491! handle_msg] *)
Definition handle_vote (v : Vote) (w : World) : World :=
  match add_vote v w with
  | (Ok outcome, w) => if fresh outcome then emit (Broadcast (msg_vote v)) w else w
  | (Err e, w) => if String.prefix "equivocating vote" e then flush_vote_evidence w else w
  end.

(* [src/src/p2p.rs 501-507! handle_msg] *)
Definition handle_evidence (e : Evidence) (w : World) : World :=
  match ev_verify e with
  | Err _ => w
  | Ok _ =>
    let '(r, n) := submit_report e (w_node w) in
    let w := with_node n w in
    if is_ok r then emit (Broadcast (msg_evidence e)) w else w
  end.

(* [src/src/p2p.rs 418-547 handle_msg] *)
Definition handle_msg (m : Msg) (ip : option IpAddr) (w : World) : option Msg * World :=
  let d := w_db w in
  if String.eqb (m_t m) "status" then
    (Some (msg_status (tip d) (tip_hash d) (finalized_height d) (pruned_below d)), w)
  else if String.eqb (m_t m) "getblocks" then (Some (msg_blocks (serve_blocks (m_from m) (m_limit m) d)), w)
  else if String.eqb (m_t m) "tx" then
    (None, match decoded (m_tx m) with
           | Some tx => with_node (accept_tx tx (w_node w)).2 w
           | None => w end)
  else if String.eqb (m_t m) "vote" then
    (None, match decoded (m_vote m) with Some v => handle_vote v w | None => w end)
  else if String.eqb (m_t m) "getvotes" then
    (Some (msg_votes (votes_above (n_votes (w_node w)) (default 0 (m_from m)) MAX_VOTE_SYNC_BATCH)), w)
  else if String.eqb (m_t m) "evidence" then
    (None, match decoded (m_evidence m) with Some e => handle_evidence e w | None => w end)
  else if String.eqb (m_t m) "block" then
    (None, match decoded (m_block m) with Some b => handle_block b ip w | None => w end)
  else (None, w).

(** What the link gives: the end, a keepalive, a message (and whether its reply
    could be sent), or bytes that do not decode. *)
Inductive Received := Closed | Keepalive | Message (m : Msg) (sent : bool) | Garbage (e : string).

(** The message loop of a connection. *)
(* [src/src/p2p.rs 390-413! handle_conn] *)
Fixpoint session (rs : list Received) (ip : option IpAddr) (w : World) : result unit * World :=
  match rs with
  | [] | Closed :: _ => (Ok tt, w)
  | Keepalive :: rs => session rs ip w
  | Message m sent :: rs =>
    let '(r, w) := handle_msg m ip w in
    if match r with Some _ => negb sent | None => false end then (Ok tt, w)
    else session rs ip (match ip with Some ip => with_book (reward ip (w_book w)) w | None => w end)
  | Garbage e :: _ => (Err e, penalize_ip ip COST_BAD_MESSAGE w)
  end.

(* [src/src/p2p.rs 356-414 handle_conn] *)
Definition handle_conn (head : result string) (handshake : result string) (rs : list Received) (p : P2p)
    (ip : option IpAddr) (w : World) : result unit * World :=
  match accept_channel head handshake p with
  | Err e => (Err e, penalize_ip ip COST_BAD_MESSAGE w)
  | Ok l =>
    let w := if is_encrypted l then w else penalize_ip ip COST_PLAINTEXT w in
    let w := match peer_id l, ip with
      | Some id, Some ip => with_book (note_identity ip id (w_book w)).2 w
      | _, _ => w end in
    session rs ip w
  end.
End p2p.

(** ** The listener *)

Record Listener := { l_rate : RateLimiter; l_conns : ConnGuard; l_per_ip : IpConnCounter }.

(* [src/src/p2p.rs 261-320 serve] *)
Definition listener_new : Listener := {|
  l_rate := limiter_new (f64_of_N 400) (f64_of_N 2000);
  l_conns := guard_new 128; l_per_ip := counter_new 8 |}.

(** What becomes of an inbound connection: dropped, or handled with the tickets
    it holds (of the table and of its host). *)
Inductive Admission := Dropped | Handled (conn_ticket ip_ticket : bool).

(* [src/src/p2p.rs 285-317! serve] *)
Definition admit_stream (now : N) (resolve : string -> list IpAddr) (p : P2p) (ip : option IpAddr) (l : Listener) (b : PeerBook) :
    Admission * Listener * PeerBook :=
  let '(banned, b) := match ip with Some ip => is_banned now ip b | None => (false, b) end in
  if banned then (Dropped, l, b)
  else
    let '(shouting, rate) := match ip with
      | Some ip => let '(ok, r) := allow 20000 60 now ip (l_rate l) in (negb ok, r)
      | None => (false, l_rate l) end in
    let l := {| l_rate := rate; l_conns := l_conns l; l_per_ip := l_per_ip l |} in
    if shouting then (Dropped, l, b)
    else
      let static_peer := match ip with Some ip => is_static_peer resolve ip p | None => false end in
      match try_acquire (l_conns l) with
      | None => if static_peer then (Handled false false, l, b) else (Dropped, l, b)
      | Some g =>
        match ip with
        | Some i =>
          if static_peer then (Handled true false, {| l_rate := rate; l_conns := g; l_per_ip := l_per_ip l |}, b)
          else
            let '(ok, c) := ip_try_acquire i (l_per_ip l) in
            if ok then (Handled true true, {| l_rate := rate; l_conns := g; l_per_ip := c |}, b)
            else (Dropped, {| l_rate := rate; l_conns := release g; l_per_ip := c |}, b)
        | None => (Handled true false, {| l_rate := rate; l_conns := g; l_per_ip := l_per_ip l |}, b)
        end
      end.
