(* ===== verification/P2pFacts.v ===== *)
(** Theorems about p2p.rs: whatever its peers answer, a node moves only through
    its own validated operations, never below its finalized height, and wipes
    its state only on a claim backed by signatures and by its own history. *)

From S2P Require Import Prelude Bytes Crypto Types Journal Store Smt SmtFacts Poseidon Shielded State StateFacts.
From S2P Require Import Fees Staking Tokens Slashing Votes VotesFacts Mempool Contracts SignGuard Circuit Exec ExecFacts Chain ChainFacts.
From S2P Require Import Limits P2p.

(** ** The finalized height through the execution of blocks *)

Definition final_key : Key := (T_META, "finalized_height").
(** [u64] heights. *)
Definition typed_vote (v : Vote) : Prop := vote_height v < 2 ^ 64.
Definition typed_block (b : Block) : Prop := b_height b < 2 ^ 64.

(** The finalized row stays, and a block row is old or typed. *)
Definition keeps_final (d d' : Db) : Prop :=
  d' !! final_key = d !! final_key /\
  forall k v, d' !! (T_BLOCKS, k) = Some v -> d !! (T_BLOCKS, k) = Some v \/ exists b, v = VBlock b /\ typed_block b.
#[export] Instance keeps_final_preorder : PreOrder keeps_final.
Proof.
  split; [intros d; split; auto|]. intros d1 d2 d3 [H1 B1] [H2 B2]. split; [congruence|].
  intros k v H. apply B2 in H as [H|H]; [now apply B1|now right].
Qed.

Definition blocks_typed (d : Db) : Prop := forall h b, block h d = Some b -> typed_block b.
Lemma keeps_final_height d d' : keeps_final d d' -> finalized_height d' = finalized_height d.
Proof. intros [E _]. unfold finalized_height, meta_u64. unfold final_key in E. now rewrite E. Qed.
Lemma keeps_blocks_typed d d' : keeps_final d d' -> blocks_typed d -> blocks_typed d'.
Proof.
  intros [_ Hb] Ht h b. unfold block. destruct (d' !! (T_BLOCKS, height_key h)) as [v|] eqn:E; [|discriminate]. cbn. intros Hv.
  apply Hb in E as [E|(b' & -> & Hb')]; [|now injection Hv as <-]. apply (Ht h). unfold block. now rewrite E.
Qed.

Lemma keeps_final_put t k v d : (t, k) <> final_key -> t <> T_BLOCKS -> keeps_final d (<[(t, k) := v]> d).
Proof. intros Hk Ht. split; [now apply lookup_insert_ne|]. intros k' v'. rewrite lookup_insert_ne by congruence. auto. Qed.
Lemma keeps_final_jput t k v : (t, k) <> final_key -> t <> T_BLOCKS -> Steps keeps_final (jput t k v).
Proof.
  intros Hk Ht d. change (keeps_final d (run (jput t k v) d).2). runs. cbn [snd]. now apply keeps_final_put.
Qed.
Lemma keeps_final_jdel t k : (t, k) <> final_key -> Steps keeps_final (jdel t k).
Proof.
  intros Hk d. change (keeps_final d (run (jdel t k) d).2). runs. cbn [snd]. split; [now apply lookup_delete_ne|].
  intros k' v' [_ H]%lookup_delete_Some. now left.
Qed.
#[local] Hint Extern 1 (Steps keeps_final (jput _ _ _)) => apply keeps_final_jput; discriminate : typeclass_instances.
#[local] Hint Extern 1 (Steps keeps_final (jdel _ _)) => apply keeps_final_jdel; discriminate : typeclass_instances.

Section frames.
Context {HC : Crypto} {HF : Fr} {HK : Compression} {HP : ChainParams} {HJ : EvidenceJson} {HW : Wasm} {HG : Groth16}.

#[local] Instance final_smt_set dom key v : Steps keeps_final (smt_set dom key v).
Proof. intros d. split; [now apply smt_set_other|]. intros k v'. rewrite smt_set_other by done. auto. Qed.
#[local] Instance final_map_err {A} f (m : M A) : Steps keeps_final m -> Steps keeps_final (map_err f m).
Proof.
  intros Hm d. replace (db_after (map_err f m) d) with (db_after m d); [apply Hm|].
  unfold db_after, map_err. now destruct (m _) as [[?|?] ?].
Qed.
#[local] Instance final_set_account addr a : Steps keeps_final (set_account addr a).
Proof. frames. Qed.
#[local] Instance final_apply_call tx s h : Steps keeps_final (apply_call tx s h).
Proof. frames. Qed.
#[local] Instance final_apply_report h r e : Steps keeps_final (apply_report h r e).
Proof. frames. Qed.
#[local] Instance final_apply_shielded tx h : Steps keeps_final (apply_shielded tx h).
Proof. frames. Qed.
#[local] Instance final_apply_tx tx h : Steps keeps_final (apply_tx tx h).
Proof. frames. Qed.
#[local] Instance final_close_block h p q f : Steps keeps_final (close_block h p q f).
Proof. frames. Qed.
Lemma final_put_block b : typed_block b -> Steps keeps_final (put_block b).
Proof.
  intros Hb. assert (Steps keeps_final (jput T_BLOCKS (height_key (b_height b)) (VBlock b))) as Hj.
  { intros d. change (keeps_final d (run (jput T_BLOCKS (height_key (b_height b)) (VBlock b)) d).2). runs. cbn [snd].
    split; [now apply lookup_insert_ne|]. intros k v. rewrite lookup_insert. case_decide; [|auto].
    intros [= <-]. right. now exists b. }
  unfold put_block. steps.
Qed.
Lemma final_store_block b : typed_block b -> Steps keeps_final (store_block b).
Proof. intros Hb. pose proof (final_put_block b Hb). unfold store_block, set_base_fee. steps. Qed.
#[local] Instance final_import_tx h f tx : Steps keeps_final (import_tx h f tx).
Proof. unfold import_tx. steps. Qed.
Lemma final_execute_block b : typed_block b -> Steps keeps_final (execute_block b).
Proof. intros Hb. pose proof (final_store_block b Hb). unfold execute_block. steps. Qed.
#[local] Instance final_allocate a : Steps keeps_final (allocate a).
Proof. unfold allocate. steps. Qed.
#[local] Instance final_genesis_block root : Steps keeps_final
  (put_block (with_block_hash (compute_hash (unsigned_block 0 zero_hash 0 root "genesis" "" [])) (unsigned_block 0 zero_hash 0 root "genesis" "" []))).
Proof. now apply final_put_block. Qed.
#[local] Instance final_init_genesis g : Steps keeps_final (init_genesis g).
Proof. unfold init_genesis. steps. Qed.
End frames.

(** ** The moves of a node *)

Section moves.
Context {HC : Crypto} {HF : Fr} {HK : Compression} {HP : ChainParams} {HJ : EvidenceJson} {HW : Wasm} {HG : Groth16}.
Context {HE : Env}.

(** What peers send is typed. *)
Definition typed_field {A} (P : A -> Prop) (f : Field A) : Prop := match f with Present a => P a | _ => True end.
Definition typed_msg (m : Msg) : Prop :=
  typed_field typed_vote (m_vote m) /\ typed_field typed_block (m_block m) /\
  typed_field (Forall typed_block) (m_blocks m) /\ typed_field (Forall typed_vote) (m_votes m).

(** Everything gossip makes a node do: the validated entry points of the chain. *)
Inductive node_step : Node -> Node -> Prop :=
| ns_import clock b n : typed_block b -> node_step n (import_block cores clock b n).2
| ns_vote v n r t s : typed_vote v -> add (n_votes n) (n_store n) v = (r, t, s) -> node_step n (with_votes t (with_store s n))
| ns_take n : node_step n (with_votes (take_evidence (n_votes n)).2 n)
| ns_report e n : node_step n (submit_report e n).2
| ns_tx tx n : node_step n (accept_tx tx n).2
| ns_reset h now n : node_step n (reset_to_genesis h now n).2.

(** The finalized height only grows, and what is stored stays typed. *)
Definition final_of (n : Node) : N := finalized_height (n_db n).
Definition waiting_typed (t : VoteTracker) : Prop := Forall typed_vote (pending t).
Definition node_typed (n : Node) : Prop := waiting_typed (n_votes n) /\ blocks_typed (n_db n).
Definition progress (n n' : Node) : Prop := node_typed n -> node_typed n' /\ final_of n <= final_of n'.
Lemma progress_same n n' : pending (n_votes n') = pending (n_votes n) -> n_db n' = n_db n -> progress n n'.
Proof. intros Hv Hd. unfold progress, node_typed, final_of, waiting_typed. rewrite Hv, Hd. intros H. split; [exact H|lia]. Qed.
#[export] Instance progress_preorder : PreOrder progress.
Proof.
  split; [intros n H; split; [done|lia]|]. intros n1 n2 n3 H12 H23 H1. destruct (H12 H1) as [H2 ?]. destruct (H23 H2) as [? ?].
  split; [done|lia].
Qed.

(** What counting votes leaves: only the finalized row moves, and only up. *)
Definition counted (d d' : Db) : Prop :=
  finalized_height d <= finalized_height d' /\ forall h, block h d' = block h d.
#[local] Instance counted_preorder : PreOrder counted.
Proof. split; [intros d; split; [lia|done]|]. intros d1 d2 d3 [? H1] [? H2]. split; [lia|]. intros h. now rewrite H2. Qed.

Lemma add_progress t s v r t' s' : typed_vote v -> add t s v = (r, t', s') -> waiting_typed t ->
  waiting_typed t' /\ counted (db s) (db s').
Proof.
  intros Hv E Ht. revert E. apply (add_cases t s v (fun out => out = (r, t', s') -> waiting_typed t' /\ counted (db s) (db s'))).
  - now intros e [= _ <- <-].
  - intros e [= _ <- <-]. split; [|done]. unfold push_evidence. now destruct (existsb _ _).
  - now intros [= _ <- <-].
  - intros addr b _ _ Hnew _ _. unfold count_vote. destruct (negb _); [now intros [= _ <- <-]|].
    destruct (_ && _); intros [= _ <- <-]; (split; [done|]); [|done].
    split; [rewrite finalized_after by exact Hv; lia|]. intros h. apply block_after_finalized.
  - intros addr. unfold buffer_vote. destruct (negb _); [now intros [= _ <- <-]|].
    destruct (existsb _ _); intros [= _ <- <-]; [done|]. split; [|done]. unfold waiting_typed in *. cbn [pending with_pending].
    apply Forall_app. split; [|now constructor]. destruct (_ <=? _); [now apply Forall_tail|done].
Qed.

Lemma replay_ready_progress ready : forall t s final out t' s', Forall typed_vote ready -> waiting_typed t ->
  replay_ready t s ready final = (out, t', s') -> waiting_typed t' /\ counted (db s) (db s').
Proof.
  induction ready as [|v ready IH]; intros t s final out t' s' Hr Ht; cbn [replay_ready].
  - now intros [= _ <- <-].
  - apply Forall_cons in Hr as [Hv Hr]. destruct (add t s v) as [[r t1] s1] eqn:E. intros E2.
    destruct (add_progress t s v r t1 s1 Hv E Ht) as [Ht1 ?]. destruct (IH _ _ _ _ _ _ Hr Ht1 E2). split; [done|].
    now transitivity (db s1).
Qed.

Lemma progress_counted n t s : (node_typed n -> waiting_typed t /\ counted (n_db n) (db s)) -> progress n (with_votes t (with_store s n)).
Proof.
  intros H Ht. destruct (H Ht) as (H1 & H2 & H3). split; [split; [exact H1|]|exact H2].
  intros h b. unfold n_db. cbn [n_store with_votes with_store]. rewrite H3. now apply Ht.
Qed.

Lemma Forall_list_filter {A} (P : A -> Prop) f (l : list A) : Forall P l -> Forall P (List.filter f l).
Proof. rewrite !Forall_forall. intros H x Hx. apply H. now apply list_elem_of_In, filter_In, proj1, list_elem_of_In in Hx. Qed.

Lemma replay_votes_progress h n : progress n (replay_votes h n).
Proof.
  unfold replay_votes, replay_pending. destruct (replay_ready _ _ _ _) as [[out t] s] eqn:E. apply progress_counted.
  intros [Ht _]. apply replay_ready_progress in E; [exact E| |]; now repeat apply Forall_list_filter.
Qed.

(** A change of the store that leaves the finalized row. *)
Lemma progress_store s n : keeps_final (n_db n) (db s) -> progress n (with_store s n).
Proof.
  intros Hk [Ht Hb]. split; [split; [exact Ht|now apply (keeps_blocks_typed (n_db n))]|].
  unfold final_of, n_db. cbn [n_store with_store]. fold (n_db n). rewrite (keeps_final_height _ _ Hk). lia.
Qed.

Lemma checkpoint_keeps h s : keeps_final (db s) (db (checkpoint_state h s)).
Proof. unfold checkpoint_state, set_state_checkpoint, raw_put. cbn [db]. now apply keeps_final_put. Qed.

Lemma import_progress cpus clock b n : typed_block b -> progress n (import_block cpus clock b n).2.
Proof.
  intros Hb. destruct (import_block cpus clock b n) as [[ok|e] n'] eqn:E; cbn [snd].
  2: apply rejected_import in E as ->; reflexivity.
  unfold import_block in E. destruct (halt_reason (n_db n)); [discriminate|].
  destruct (import_block_inner cpus clock b (with_store (begin_block (n_store n)) n)) as [[ok'|e] n1] eqn:E1; [|discriminate].
  injection E as <- <-. transitivity n1.
  - unfold import_block_inner in E1. destruct (import_checks _ _ _ _ _ _) as [[]|]; [|injection E1 as _ <-|discriminate].
    + destruct (execute_block b (n_store (with_store (begin_block (n_store n)) n))) as [[[]|e] s] eqn:Ex; [|discriminate].
      injection E1 as _ <-. transitivity (with_store s n).
      * apply progress_store. change (n_db n) with (db (begin_block (n_store n))).
        pose proof (run_db (execute_block b) (begin_block (n_store n))) as Hdb. cbn [n_store with_store] in Ex. rewrite Ex in Hdb.
        cbn [snd] in Hdb. rewrite Hdb. now apply final_execute_block.
      * transitivity (mark_tip_seen (at_seen clock) (with_store s n)); [now apply progress_same|].
        etransitivity; [apply (replay_votes_progress (b_height b))|]. now apply progress_same.
    + now apply progress_same.
  - apply progress_store. etransitivity; [|apply checkpoint_keeps]. unfold commit_block. rewrite db_commit. done.
Qed.

Lemma reset_keeps s : keeps_final (db s) (db (reset_chain s)).
Proof.
  unfold reset_chain, raw_filter. cbn [db]. split.
  - destruct (db s !! final_key) as [v|] eqn:E; [apply map_lookup_filter_Some; now split|].
    apply map_lookup_filter_None. now left.
  - intros k v [H _]%map_lookup_filter_Some. now left.
Qed.

Lemma wipe_progress h n : progress n (wipe_chain h n).2.
Proof.
  unfold wipe_chain. destruct (h <? _); [reflexivity|]. destruct (check_reorg_depth _ _); [|reflexivity].
  transitivity (with_store (reset_chain (n_store n)) n); [apply progress_store, reset_keeps|]. now apply progress_same.
Qed.

Lemma regenerate_progress now n : progress n (regenerate now n).2.
Proof.
  unfold regenerate, on_store. destruct (init_genesis (n_genesis n) (n_store n)) as [r s] eqn:E.
  assert (progress n (with_store s n)) as Hp.
  { apply progress_store. pose proof (run_db (init_genesis (n_genesis n)) (n_store n)) as Hdb. rewrite E in Hdb. cbn [snd] in Hdb.
    rewrite Hdb. apply final_init_genesis. }
  destruct r; cbn [snd]; [|exact Hp]. etransitivity; [exact Hp|]. now apply progress_same.
Qed.

(** A reset is the wipe, and the new genesis when the wipe was not refused. *)
Lemma reset_parts h now n : (reset_to_genesis h now n).2 = (wipe_chain h n).2 \/
  (reset_to_genesis h now n).2 = (regenerate now (wipe_chain h n).2).2.
Proof. unfold reset_to_genesis. destruct (wipe_chain h n) as [[] n1]; auto. Qed.
Lemma reset_progress h now n : progress n (reset_to_genesis h now n).2.
Proof.
  destruct (reset_parts h now n) as [->| ->]; [apply wipe_progress|]. etransitivity; [apply wipe_progress|apply regenerate_progress].
Qed.

Lemma accept_store tx n : n_store (accept_tx tx n).2 = n_store n /\ n_votes (accept_tx tx n).2 = n_votes n.
Proof.
  unfold accept_tx, accept_batch. destruct (halt_reason (n_db n)); [done|]. destruct (admit_all _ _ _ _) as [rs pool].
  now destruct rs.
Qed.

Lemma report_store e n : n_store (submit_report e n).2 = n_store n /\ n_votes (submit_report e n).2 = n_votes n.
Proof. unfold submit_report. destruct (check_report _ _ _); [|done]. apply accept_store. Qed.

Lemma step_progress n n' : node_step n n' -> progress n n'.
Proof.
  destruct 1 as [clock b n Hb|v n r t s Hv E|n|e n|tx n|h now n].
  - now apply import_progress.
  - apply progress_counted. intros [Ht _]. exact (add_progress _ _ v r t s Hv E Ht).
  - now apply progress_same.
  - apply progress_same; [now rewrite (proj2 (report_store e n))|unfold n_db; now rewrite (proj1 (report_store e n))].
  - apply progress_same; [now rewrite (proj2 (accept_store tx n))|unfold n_db; now rewrite (proj1 (accept_store tx n))].
  - apply reset_progress.
Qed.

(** ** Gossip moves the node only by these steps *)

Definition moved (w w' : World) : Prop := rtc node_step (w_node w) (w_node w').
#[export] Instance moved_preorder : PreOrder moved.
Proof. split; [intros w; apply rtc_refl|]. intros w1 w2 w3 H1 H2. unfold moved in *. etransitivity; eassumption. Qed.

Lemma moved_same w w' : w_node w' = w_node w -> moved w w'.
Proof. intros E. unfold moved. rewrite E. apply rtc_refl. Qed.
Lemma moved_step w w' : node_step (w_node w) (w_node w') -> moved w w'.
Proof. apply rtc_once. Qed.

Definition env_typed : Prop := forall t peer m r, reply t peer m = Ok r -> typed_msg r.

Lemma import_moved b w r w' : typed_block b -> import b w = (r, w') -> moved w w'.
Proof.
  intros Hb. unfold import. destruct (import_block cores (import_clock (w_tick w)) b (w_node w)) as [r' n] eqn:E. intros [= _ <-].
  apply moved_step. change (w_node (ticked (with_node n w))) with n.
  pose proof (ns_import (import_clock (w_tick w)) b (w_node w) Hb) as H. now rewrite E in H.
Qed.

Lemma add_vote_moved v w : typed_vote v -> moved w (add_vote v w).2.
Proof.
  intros Hv. unfold add_vote. destruct (add _ _ v) as [[r t] s] eqn:E. apply moved_step. cbn. now apply (ns_vote v _ r).
Qed.

Lemma vote_on_moved b w : typed_block b -> moved w (vote_on b w).
Proof.
  intros Hb. unfold vote_on. destruct (_ || _); [reflexivity|]. etransitivity; [|now apply moved_same]. now apply add_vote_moved.
Qed.

Lemma penalize_moved ip cost w : moved w (penalize_ip ip cost w).
Proof. destruct ip; [now apply moved_same|reflexivity]. Qed.

Lemma announce_evidence_moved e w : moved w (announce_evidence e w).
Proof. etransitivity; [|now apply moved_same]. apply (moved_step w (with_node (submit_report e (w_node w)).2 w)). apply ns_report. Qed.

Lemma flush_moved w : moved w (flush_vote_evidence w).
Proof.
  unfold flush_vote_evidence. destruct (take_evidence (n_votes (w_node w))) as [es t] eqn:E.
  transitivity (with_node (with_votes t (w_node w)) w).
  { apply moved_step. change (node_step (w_node w) (with_votes t (w_node w))).
    pose proof (ns_take (w_node w)) as H. rewrite E in H. exact H. }
  generalize (with_node (with_votes t (w_node w)) w). clear E. induction es as [|e es IH]; intros w'; [reflexivity|].
  cbn [foldl]. etransitivity; [apply (announce_evidence_moved e)|apply IH].
Qed.

Lemma peer_block_moved peer h w o w' : peer_block peer h w = (o, w') -> moved w w'.
Proof. unfold peer_block, request. intros [= _ <-]. now apply moved_same. Qed.

Lemma verify_claim_moved peer h w r w' : verify_peer_claim peer h w = (r, w') -> w_node w' = w_node w /\ w_gate w' = w_gate w.
Proof.
  unfold verify_peer_claim. destruct (peer_block peer h w) as [o w1] eqn:E1.
  assert (w_node w1 = w_node w /\ w_gate w1 = w_gate w) as [H1 H1'] by (unfold peer_block, request in E1; now injection E1 as _ <-).
  destruct o as [t|]; [|now intros [= _ <-]]. destruct (negb (b_height t =? h)); [now intros [= _ <-]|].
  destruct (negb (String.eqb _ _)); [now intros [= _ <-]|]. destruct (negb (verify_producer t)); [now intros [= _ <-]|]. cbv zeta.
  destruct (0 <? _); [|now intros [= _ <-]]. destruct (block _ (w_db w1)); [|now intros [= _ <-]].
  destruct (peer_block peer _ w1) as [o2 w2] eqn:E2.
  assert (w_node w2 = w_node w /\ w_gate w2 = w_gate w) as [H2 H2'] by (unfold peer_block, request in E2; injection E2 as _ <-; now split).
  destruct o2; [|now intros [= _ <-]]. destruct (negb _); now intros [= _ <-].
Qed.

Lemma replay_blocks_moved bs : forall next w o w', Forall typed_block bs -> replay_blocks bs next w = (o, w') -> moved w w'.
Proof.
  induction bs as [|b bs IH]; intros next w o w' Hbs; cbn [replay_blocks]; [intros [= _ <-]; reflexivity|].
  apply Forall_cons in Hbs as [Hb Hbs].
  destruct (import b w) as [[ok|e] w1] eqn:E; apply import_moved in E; try done; [|intros [= _ <-]; done].
  intros H. etransitivity; [exact E|exact (IH _ _ _ _ Hbs H)].
Qed.

Lemma served_typed t peer m r : env_typed -> reply t peer m = Ok r -> Forall typed_block (default [] (or_empty (m_blocks r))).
Proof. intros He Hr. destruct (He t peer m r Hr) as (_ & _ & Hb & _). now destruct (m_blocks r). Qed.

Lemma replay_moved fuel peer : env_typed -> forall next target w out w', replay fuel peer next target w = Some (out, w') -> moved w w'.
Proof.
  intros He. induction fuel as [|fuel IH]; intros next target w out w'; [discriminate|]. cbn [replay].
  destruct (target <? next); [intros [= _ <-]; reflexivity|]. unfold request at 1.
  destruct (reply (w_tick w) peer _) as [res|e] eqn:Er; [|intros [= _ <-]; now apply moved_same].
  pose proof (served_typed _ _ _ _ He Er) as Hbs. destruct (default [] (or_empty (m_blocks res))) as [|b bs].
  - unfold request. destruct (target <? _); [intros H; apply IH in H; exact H|intros [= _ <-]; now apply moved_same].
  - destruct (replay_blocks (b :: bs) next (ticked w)) as [[next'|] w1] eqn:E; apply replay_blocks_moved in E; try done; [|intros [= _ <-]; exact E].
    destruct (next' =? next); [intros [= _ <-]; exact E|]. intros H. etransitivity; [exact E|exact (IH _ _ _ _ _ H)].
Qed.

Lemma moved_progress w w' : moved w w' -> progress (w_node w) (w_node w').
Proof.
  unfold moved. induction 1 as [n|n1 n2 n3 Hs _ IH]; [reflexivity|]. etransitivity; [exact (step_progress _ _ Hs)|exact IH].
Qed.
Lemma moved_typed w w' : moved w w' -> node_typed (w_node w) -> node_typed (w_node w').
Proof. intros H Ht. now apply (moved_progress w w'). Qed.

Lemma tip_vote_moved w : node_typed (w_node w) ->
  moved w (match tip_block (w_db w) with Some b => vote_on b w | None => w end).
Proof.
  intros [_ Hb]. destruct (tip_block (w_db w)) as [b|] eqn:E; [|reflexivity]. apply vote_on_moved.
  unfold tip_block in E. destruct (tip_height (w_db w)) as [h|]; [|discriminate]. now apply (Hb h).
Qed.

Lemma resolve_moved fuel peer h w w' : env_typed -> node_typed (w_node w) -> resolve_fork fuel peer h w = Some w' -> moved w w'.
Proof.
  intros He Ht. unfold resolve_fork. destruct (verify_peer_claim peer h w) as [r w1] eqn:E1.
  apply verify_claim_moved in E1 as [E1 _]. apply moved_same in E1. pose proof (moved_typed _ _ E1 Ht) as Ht1.
  destruct r; [|intros [= <-]; etransitivity; [exact E1|apply penalize_moved]]. unfold request.
  destruct (1 <? _); [intros [= <-]; etransitivity; [exact E1|now apply moved_same]|].
  set (w2 := ticked (with_gate _ _)). assert (moved w w2) as E2 by (etransitivity; [exact E1|now apply moved_same]).
  destruct (reset_to_genesis h (reset_clock (w_tick w2)) (w_node w2)) as [r3 n3] eqn:E3.
  assert (moved w (ticked (with_node n3 w2))) as E4.
  { etransitivity; [exact E2|]. apply moved_step. change (node_step (w_node w2) n3).
    pose proof (ns_reset h (reset_clock (w_tick w2)) (w_node w2)) as H. rewrite E3 in H. exact H. }
  destruct r3; [|intros [= <-]; exact E4]. destruct (replay fuel peer 1 h _) as [[out w5]|] eqn:E5; [|discriminate].
  apply replay_moved in E5; [|done]. assert (moved w w5) as E6 by (etransitivity; [exact E4|exact E5]).
  destruct out; intros [= <-]; [exact E6|]. etransitivity; [exact E6|]. apply tip_vote_moved. now apply (moved_typed w).
Qed.

Lemma sync_blocks_moved fuel peer h bs : env_typed -> Forall typed_block bs -> forall w w', node_typed (w_node w) ->
  sync_blocks fuel peer h bs w = Some w' -> moved w w'.
Proof.
  intros He Hbs. induction Hbs as [|b bs Hb _ IH]; intros w w' Ht; cbn [sync_blocks]; [intros [= <-]; reflexivity|].
  destruct (import b w) as [r w1] eqn:E1. apply import_moved in E1; [|done]. destruct r as [[]|e].
  - assert (moved w (vote_on b (note_import w1))) as E2.
    { etransitivity; [exact E1|]. etransitivity; [|now apply vote_on_moved]. now apply moved_same. }
    intros H. etransitivity; [exact E2|]. apply (IH _ _ (moved_typed _ _ E2 Ht) H).
  - intros H. etransitivity; [exact E1|]. apply (IH _ _ (moved_typed _ _ E1 Ht) H).
  - destruct (_ && _); [|intros [= <-]; exact E1]. unfold may_resolve_fork.
    destruct (may_resolve_fork_at _ _) as [[] g]; [|intros [= <-]; etransitivity; [exact E1|now apply moved_same]].
    intros H. apply resolve_moved in H; [|done|now apply (moved_typed w)]. etransitivity; [exact E1|exact H].
Qed.

Lemma sync_peer_moved fuel peer w w' : env_typed -> node_typed (w_node w) -> sync_peer fuel peer w = Some w' -> moved w w'.
Proof.
  intros He Ht. unfold sync_peer, request. destruct (_ <? _); [intros [= <-]; now apply moved_same|].
  destruct (_ <? _); [intros [= <-]; now apply moved_same|].
  destruct (reply _ peer (msg_getblocks _ _)) as [res|e] eqn:Er; [|intros [= <-]; now apply moved_same].
  pose proof (served_typed _ _ _ _ He Er) as Hbs. destruct (or_empty (m_blocks res)) as [bs|]; [|intros [= <-]; now apply moved_same].
  intros H. apply sync_blocks_moved in H; try done.
Qed.

Lemma sync_once_moved fuel busy p w w' : env_typed -> node_typed (w_node w) -> sync_once fuel busy p w = Some w' -> moved w w'.
Proof.
  intros He. unfold sync_once. destruct busy; [intros _ [= <-]; reflexivity|]. revert w.
  induction (peers p) as [|peer ps IH]; intros w Ht; cbn [sync_peers]; [intros [= <-]; reflexivity|].
  destruct (sync_peer fuel peer w) as [w1|] eqn:E; [|discriminate]. apply sync_peer_moved in E; try done.
  intros H. etransitivity; [exact E|]. apply IH; [now apply (moved_typed w)|exact H].
Qed.

Lemma add_votes_moved vs w : Forall typed_vote vs -> moved w (add_votes vs w).
Proof.
  unfold add_votes. intros Hvs. revert w. induction Hvs as [|v vs Hv _ IH]; intros w; [reflexivity|]. cbn [foldl].
  etransitivity; [now apply (add_vote_moved v)|apply IH].
Qed.

Lemma sync_votes_moved p w : env_typed -> moved w (sync_votes p w).
Proof.
  intros He. unfold sync_votes. destruct (n_solo (w_node w)); [reflexivity|].
  generalize (finalized_height (w_db w)) as from. intros from. revert w.
  induction (peers p) as [|peer ps IH]; intros w; [reflexivity|]. cbn [foldl]. etransitivity; [|apply IH]. clear IH.
  unfold request. destruct (reply _ peer _) as [res|e] eqn:Er; [|now apply moved_same].
  etransitivity; [|apply add_votes_moved]; [now apply moved_same|].
  destruct (He _ _ _ _ Er) as (_ & _ & _ & Hv). destruct (m_votes res); cbn; [constructor|constructor|exact Hv].
Qed.

Lemma handle_block_moved b ip w : typed_block b -> moved w (handle_block b ip w).
Proof.
  intros Hb. unfold handle_block. cbv zeta.
  assert (moved w (match detect_double_sign b (w_db w) with Some e => announce_evidence e w | None => w end)) as E1.
  { destruct (detect_double_sign b (w_db w)); [apply announce_evidence_moved|reflexivity]. }
  destruct (import b _) as [r w2] eqn:E2. apply import_moved in E2; [|done].
  assert (moved w w2) as E3 by (etransitivity; [exact E1|exact E2]). destruct r as [[]|e].
  - etransitivity; [exact E3|]. etransitivity; [|apply moved_same; reflexivity]. etransitivity; [|now apply vote_on_moved]. now apply moved_same.
  - exact E3.
  - destruct (_ <? _); (etransitivity; [exact E3|]); [now apply moved_same|apply penalize_moved].
Qed.

Lemma handle_vote_moved v w : typed_vote v -> moved w (handle_vote v w).
Proof.
  intros Hv. unfold handle_vote. pose proof (add_vote_moved v w Hv) as H. destruct (add_vote v w) as [[o|e] w1]; cbn [snd] in H.
  - destruct (fresh o); [|exact H]. etransitivity; [exact H|now apply moved_same].
  - destruct (String.prefix _ _); [|exact H]. etransitivity; [exact H|apply flush_moved].
Qed.

Lemma handle_msg_moved m ip w : typed_msg m -> moved w (handle_msg m ip w).2.
Proof.
  intros (Hv & Hb & _). unfold handle_msg. cbv zeta. do 2 (destruct (String.eqb _ _); [reflexivity|]).
  destruct (String.eqb _ _); [cbn [snd]; destruct (m_tx m); cbn; try reflexivity; apply moved_step; apply ns_tx|].
  destruct (String.eqb _ _); [cbn [snd]; destruct (m_vote m); cbn; try reflexivity; now apply handle_vote_moved|].
  destruct (String.eqb _ _); [reflexivity|].
  destruct (String.eqb _ _).
  { cbn [snd]. destruct (m_evidence m) as [| |e]; cbn; try reflexivity. unfold handle_evidence.
    destruct (ev_verify e); [|reflexivity]. destruct (submit_report e (w_node w)) as [r n] eqn:E.
    assert (moved w (with_node n w)) as Hm.
    { apply moved_step. change (node_step (w_node w) n). pose proof (ns_report e (w_node w)) as H. rewrite E in H. exact H. }
    destruct (is_ok r); [|exact Hm]. etransitivity; [exact Hm|now apply moved_same]. }
  destruct (String.eqb _ _); [|reflexivity]. cbn [snd]. destruct (m_block m); cbn; try reflexivity. now apply handle_block_moved.
Qed.

Definition received_typed (r : Received) : Prop := match r with Message m _ => typed_msg m | _ => True end.

Lemma session_moved rs ip : Forall received_typed rs -> forall w, moved w (session rs ip w).2.
Proof.
  induction 1 as [|r rs Hr _ IH]; intros w; [reflexivity|]. destruct r as [| |m sent|e]; cbn [session].
  - reflexivity.
  - apply IH.
  - pose proof (handle_msg_moved m ip w Hr) as Hm. destruct (handle_msg m ip w) as [o w1]. cbn [snd] in Hm.
    destruct (match o with Some _ => _ | None => _ end); [exact Hm|]. etransitivity; [exact Hm|]. etransitivity; [|apply IH].
    destruct ip; now apply moved_same.
  - apply penalize_moved.
Qed.

Lemma handle_conn_moved head handshake rs p ip w : Forall received_typed rs -> moved w (handle_conn head handshake rs p ip w).2.
Proof.
  intros Hrs. unfold handle_conn. destruct (accept_channel head handshake p) as [l|e]; [|apply penalize_moved].
  etransitivity; [|now apply session_moved]. destruct (is_encrypted l); [|etransitivity; [apply (penalize_moved ip COST_PLAINTEXT)|]];
    destruct (peer_id l), ip; now apply moved_same.
Qed.

(** Peers move a node only through its own checks, and never below its
    finalized height.  Whatever its peers answer and send, a round of block
    catch-up, a round of vote catch-up and an inbound connection leave the node
    a sequence of block imports, counted votes, admitted transactions and
    guarded resets away from where it was, and its finalized height never
    decreases. *)
Theorem gossip_keeps_finality fuel busy p w head handshake rs ip (Henv : env_typed) (Htyped : node_typed (w_node w))
  (Hrs : Forall received_typed rs) :
  (forall w', w' = sync_votes p w \/ Some w' = sync_once fuel busy p w \/ w' = (handle_conn head handshake rs p ip w).2 ->
    rtc node_step (w_node w) (w_node w') /\ final_of (w_node w) <= final_of (w_node w')).
Proof.
  intros w' Hw. assert (moved w w') as H.
  { destruct Hw as [->|[Hw| ->]]; [now apply sync_votes_moved|now apply (sync_once_moved fuel busy p)|now apply handle_conn_moved]. }
  split; [exact H|]. now apply moved_progress.
Qed.
End moves.

(** ** Destructive resets need a backed claim *)

Section claims.
Context {HC : Crypto} {HF : Fr} {HK : Compression} {HP : ChainParams} {HJ : EvidenceJson} {HW : Wasm} {HG : Groth16}.
Context {HE : Env}.

(** At moment [t] the peer served block [b] when asked for height [h]. *)
Definition served (t : nat) (peer : string) (h : N) (b : Block) : Prop :=
  exists m bs, reply t peer (msg_getblocks h 1) = Ok m /\ m_blocks m = Present bs /\ b ∈ bs /\ b_height b = h.

Lemma peer_block_served peer h w b w' : peer_block peer h w = (Some b, w') -> served (w_tick w) peer h b /\ w' = ticked w.
Proof.
  unfold peer_block, request. destruct (reply (w_tick w) peer _) as [m|e] eqn:Er; [|discriminate].
  destruct (m_blocks m) as [| |bs] eqn:Em; cbn; try discriminate. intros [= Hf <-]. split; [|done].
  apply List.find_some in Hf as [Hin Hh]. apply N.eqb_eq in Hh. exists m, bs. rewrite list_elem_of_In. done.
Qed.

(** The highest height, up to the finalized one, at which a block is stored. *)
Lemma highest_held_spec n d : let h := highest_held n d in
  h <= N.of_nat n /\ (0 < h -> is_Some (block h d)) /\ forall k, h < k <= N.of_nat n -> block k d = None.
Proof.
  cbv zeta. induction n as [|n (IH1 & IH2 & IH3)]; cbn [highest_held]; [split; [lia|split; [lia|intros; lia]]|].
  destruct (block (N.of_nat (S n)) d) as [b|] eqn:E; [split; [lia|split; [intros _; rewrite E; now eexists|intros; lia]]|].
  split; [lia|split; [done|]]. intros k Hk. destruct (decide (k = N.of_nat (S n))) as [->|]; [done|]. apply IH3. lia.
Qed.

(** What [verify_peer_claim] accepts: a signed header at the claimed height, and
    the peer's agreement with the highest stored block at or below the
    finalized height. *)
Definition backed_claim (peer : string) (peer_height : N) (w : World) : Prop :=
  exists t, served (w_tick w) peer peer_height t /\ b_hash t = compute_hash t /\ verify_producer t = true /\
  forall h ours, h <= finalized_height (w_db w) -> h <= tip (w_db w) -> 0 < h -> block h (w_db w) = Some ours ->
    (forall k, h < k -> k <= finalized_height (w_db w) -> k <= tip (w_db w) -> block k (w_db w) = None) ->
    exists theirs, served (S (w_tick w)) peer h theirs /\ b_hash theirs = b_hash ours.

Lemma claim_backed peer h w w' : verify_peer_claim peer h w = (Ok tt, w') -> backed_claim peer h w.
Proof.
  unfold verify_peer_claim. destruct (peer_block peer h w) as [[t|] w1] eqn:E1; [|discriminate].
  apply peer_block_served in E1 as [Hs ->]. destruct (N.eqb_spec (b_height t) h); cbn [negb]; [|discriminate].
  destruct (String.eqb_spec (b_hash t) (compute_hash t)); cbn [negb]; [|discriminate].
  destruct (verify_producer t) eqn:Hv; cbn [negb]; [|discriminate]. cbv zeta. change (w_db (ticked w)) with (w_db w).
  set (top := N.min (finalized_height (w_db w)) (tip (w_db w))).
  destruct (highest_held_spec (N.to_nat top) (w_db w)) as (H1 & H2 & H3). set (check := highest_held (N.to_nat top) (w_db w)) in *.
  intros E. exists t. do 3 (split; [done|]). intros k ours Hk1 Hk2 Hk0 Hours Habove.
  assert (k = check) as ->.
  { destruct (N.lt_trichotomy k check) as [Hlt|[Heq|Hgt]]; [|done|].
    - destruct H2 as [b Hb]; [lia|]. rewrite Habove in Hb by lia. discriminate.
    - rewrite H3 in Hours by lia. discriminate. }
  destruct (N.ltb_spec 0 check); [|lia]. rewrite Hours in E. destruct (peer_block peer check (ticked w)) as [[theirs|] w2] eqn:E2; [|discriminate].
  apply peer_block_served in E2 as [Hs2 ->]. destruct (String.eqb_spec (b_hash theirs) (b_hash ours)); cbn [negb] in E; [|discriminate].
  exists theirs. split; [exact Hs2|done].
Qed.

(** Authenticating a claim takes one request or two. *)
Lemma verify_claim_tick peer h w r w' : verify_peer_claim peer h w = (r, w') -> (w_tick w < w_tick w' <= w_tick w + 2)%nat.
Proof.
  unfold verify_peer_claim, peer_block, request. cbn -[block highest_held]. intros H.
  repeat match type of H with context [match ?x with _ => _ end] => destruct x end; injection H as _ <-; cbn; lia.
Qed.

(** The peer does not report, at moment [t], that its history is pruned. *)
Definition keeps_history (t : nat) (peer : string) : Prop :=
  forall s, reply t peer (msg "status") = Ok s -> default 0 (m_earliest s) <= 1.

(** C19: Local state is wiped only for a backed claim.  Whatever the peer answers,
    resolving a fork does one of three things.  It ends, however long the
    replay might have been, with the node and the cooldown as they were.  Or the
    claim is backed and the peer reports no pruned history, but the claimed
    height lies below the finalized one or beyond the reorganisation limit: it
    ends with the node as it was and the cooldown started all the same.  Or the
    claim is backed, the peer reports no pruned history, and the claimed height
    is neither below the finalized one nor beyond the limit.  A claim is backed
    when the peer served a block at the claimed height with a valid hash and
    producer signature and, at the highest stored height that is not above the
    finalized one, a block with the node's own hash. *)
Theorem wipe_needs_backed_claim peer h w :
  (forall fuel, exists w', resolve_fork fuel peer h w = Some w' /\ w_node w' = w_node w /\ w_gate w' = w_gate w) \/
  (backed_claim peer h w /\ exists t, (w_tick w < t <= w_tick w + 2)%nat /\ keeps_history t peer /\
    ((h < finalized_height (w_db w) \/ is_ok (check_reorg_depth (tip (w_db w)) h) = false) /\
     (forall fuel, exists w', resolve_fork fuel peer h w = Some w' /\ w_node w' = w_node w /\
       w_gate w' = note_reset_at (secs (S t)) (w_gate w)) \/
     finalized_height (w_db w) <= h /\ is_ok (check_reorg_depth (tip (w_db w)) h) = true)).
Proof.
  unfold resolve_fork. destruct (verify_peer_claim peer h w) as [r w1] eqn:E1.
  pose proof (verify_claim_moved peer h w r w1 E1) as [Hn Hg]. pose proof (verify_claim_tick peer h w r w1 E1) as Ht.
  destruct r as [[]|e].
  2: { left. intros fuel. eexists. split; [done|]. now destruct (peer_ip peer). }
  apply claim_backed in E1. unfold request.
  destruct (N.ltb_spec 1 match reply (w_tick w1) peer (msg "status") with Ok s => default 0 (m_earliest s) | Err _ => 0 end) as [|Hearly].
  { left. intros fuel. now eexists. }
  right. split; [exact E1|]. exists (w_tick w1). split; [exact Ht|]. split; [intros s Hs; now rewrite Hs in Hearly|].
  set (w2 := ticked (with_gate _ _)). assert (w_node w2 = w_node w) as Hn2 by exact Hn. rewrite Hn2.
  unfold reset_to_genesis, wipe_chain. fold (w_db w). change (n_db (w_node w)) with (w_db w).
  destruct (N.ltb_spec h (finalized_height (w_db w))).
  { left. split; [now left|]. intros fuel. eexists. split; [done|]. split; [done|]. cbn. now rewrite Hg. }
  destruct (check_reorg_depth (tip (w_db w)) h) eqn:Ed; [now right|].
  left. split; [now right|]. intros fuel. eexists. split; [done|]. split; [done|]. cbn. now rewrite Hg.
Qed.

(** ** The fork choice *)

(** Two honest nodes that stand at the same height on different branches agree
    on which one survives: exactly one of them adopts the other's block, and a
    node never adopts a shorter chain or refuses a longer one. *)
Theorem fork_choice_agrees d1 d2 b1 b2 (Htip : tip d1 = tip d2)
  (H1 : block (b_height b2) d1 = Some b1) (H2 : block (b_height b1) d2 = Some b2) (Hne : b_hash b1 <> b_hash b2) :
  should_adopt d1 b2 (tip d2) = negb (should_adopt d2 b1 (tip d1)) /\
  forall d b h, (tip d < h -> should_adopt d b h = true) /\ (h < tip d -> should_adopt d b h = false).
Proof.
  split.
  - unfold should_adopt. rewrite <- Htip, N.ltb_irrefl, H1, H2. rewrite (String.compare_antisym (b_hash b2)).
    destruct (String.compare (b_hash b1) (b_hash b2)) eqn:E; [|done|done]. now apply String.compare_eq_iff in E.
  - intros d b h. unfold should_adopt. split; intros Hlt.
    + now destruct (N.ltb_spec (tip d) h); [|lia].
    + destruct (N.ltb_spec (tip d) h); [lia|]. now destruct (N.ltb_spec h (tip d)); [|lia].
Qed.

(** ** Serving blocks *)

(** The [n] heights from [lo]. *)
Definition heights (lo n : N) : list N := N.of_nat <$> seq (N.to_nat lo) (N.to_nat n).

(** The reply to a request for blocks is exactly the stored blocks from the
    height asked for up to the tip, in order, cut at the smaller of the limit
    asked for and [MAX_SYNC_BATCH]. *)
Theorem serve_blocks_exact from limit d :
  let lo := default 0 from in
  serve_blocks from limit d =
    take (N.to_nat (N.min (default MAX_SYNC_BATCH limit) MAX_SYNC_BATCH))
      (omap (fun h => block h d) (heights lo (tip d + 1 - lo))).
Proof.
  cbv zeta. unfold serve_blocks. set (lo := default 0 from). set (lim := N.min _ _). clearbody lim.
  unfold heights. set (n := N.to_nat (tip d + 1 - lo)).
  assert (forall n h acc, (length acc <= N.to_nat lim)%nat ->
    collect_blocks n h lim acc d = acc ++ take (N.to_nat lim - length acc) (omap (fun h => block h d) (N.of_nat <$> seq (N.to_nat h) n))) as Hc.
  { clear. induction n as [|n IH]; intros h acc Ha; cbn [collect_blocks seq fmap list_fmap omap list_omap]; [now rewrite take_nil, app_nil_r|].
    rewrite N2Nat.id. destruct (N.ltb_spec (N.of_nat (length acc)) lim).
    - rewrite IH by (case_match; rewrite ?length_app; cbn; lia). rewrite <- N2Nat.inj_succ, <- N.add_1_r.
      destruct (block h d) as [b|]; [|done]. rewrite length_app, <- app_assoc. cbn [length app].
      replace (N.to_nat lim - length acc)%nat with (S (N.to_nat lim - (length acc + 1))) by lia. done.
    - replace (N.to_nat lim - length acc)%nat with 0%nat by lia. now rewrite take_0, app_nil_r. }
  rewrite Hc by (cbn; lia). cbn [app length]. now rewrite Nat.sub_0_r.
Qed.
End claims.

(** ** How often the state can be wiped *)

(** What the statics of the file see: imports, and forks the cooldown is asked
    about, with the moment of the wipe when the claim was followed. *)
Inductive GateEvent := Imported (now : N) | Forked (now : N) (wiped : option N).

Fixpoint wipes (es : list GateEvent) (g : Gate) : list N :=
  match es with
  | [] => []
  | Imported now :: es => wipes es (note_import_at now g)
  | Forked now wiped :: es =>
    match may_resolve_fork_at now g, wiped with
    | (true, g), Some t => t :: wipes es (note_reset_at t g)
    | (_, g), _ => wipes es g
    end
  end.

(** The clock does not go back. *)
Fixpoint in_order (from : N) (es : list GateEvent) : Prop :=
  match es with
  | [] => True
  | Imported now :: es => from <= now /\ in_order now es
  | Forked now None :: es => from <= now /\ in_order now es
  | Forked now (Some t) :: es => from <= now /\ now <= t /\ in_order t es
  end.

Definition within_window (a : N) (ts : list N) : list N :=
  List.filter (fun t => (a <=? t) && (t <=? a + RESET_COOLDOWN_SECS)) ts.

Lemma window_cons a t ts : length (within_window a (t :: ts)) =
  ((if ((a <=? t) && (t <=? a + RESET_COOLDOWN_SECS))%N then 1 else 0) + length (within_window a ts))%nat.
Proof. unfold within_window. cbn [List.filter]. now destruct (_ && _). Qed.

Lemma late_wipes a es : forall g from, in_order from es -> a + RESET_COOLDOWN_SECS < from -> within_window a (wipes es g) = [].
Proof.
  induction es as [|[now|now [t|]] es IH]; intros g from Ho Hl; cbn [wipes in_order] in *; [done|..].
  - destruct Ho as [? Ho]. apply (IH _ now); [done|lia].
  - destruct Ho as (? & ? & Ho). destruct (may_resolve_fork_at now g) as [[] g']; [|apply (IH _ t); [done|lia]].
    unfold within_window. cbn [List.filter]. destruct (N.leb_spec t (a + RESET_COOLDOWN_SECS)); [lia|]. rewrite andb_false_r.
    apply (IH _ t); [done|lia].
  - destruct Ho as [? Ho]. destruct (may_resolve_fork_at now g) as [[] g']; (apply (IH _ now); [done|lia]).
Qed.

(** After a wipe in the window only overrides are left. *)
Lemma overrides_left a es : forall g from, in_order from es -> a <= last_reset g -> last_reset g <= from ->
  stall_overrides g <= MAX_STALL_OVERRIDES ->
  (length (within_window a (wipes es g)) <= N.to_nat (MAX_STALL_OVERRIDES - stall_overrides g))%nat.
Proof.
  induction es as [|[now|now wiped] es IH]; intros g from Ho Ha Hf Hs; [cbn; lia|cbn [wipes]|].
  - destruct Ho as [? Ho]. apply (IH (note_import_at now g) now); cbn; try done; lia.
  - assert (from <= now) as Hnow by (destruct wiped; apply Ho).
    destruct (N.lt_ge_cases (a + RESET_COOLDOWN_SECS) now) as [Hlate|Hin].
    + rewrite (late_wipes a (Forked now wiped :: es) g now); [cbn; lia| |done].
      destruct wiped; cbn [in_order] in *; destruct Ho as [_ Ho]; split; try done; apply N.le_refl.
    + assert (forall g', last_reset g' = last_reset g -> stall_overrides g' <= MAX_STALL_OVERRIDES ->
        stall_overrides g <= stall_overrides g' -> (length (within_window a (wipes es g')) <= N.to_nat (MAX_STALL_OVERRIDES - stall_overrides g))%nat) as Hgo.
      { intros g' E1 E2 E3. etransitivity; [apply (IH g' (match wiped with Some t => t | None => now end)); rewrite ?E1; try done|lia].
        - destruct wiped; apply Ho.
        - destruct wiped as [t|]; [destruct Ho as (_ & ? & _)|]; lia. }
      cbn [wipes]. unfold may_resolve_fork_at. destruct (N.ltb_spec RESET_COOLDOWN_SECS (sat_sub now (last_reset g))); [unfold sat_sub in *; lia|].
      destruct (_ && _) eqn:Hov; [|destruct wiped; now apply Hgo].
      apply andb_true_iff in Hov as [_ Hov%N.ltb_lt]. unfold MAX_STALL_OVERRIDES in Hov, Hs.
      assert (stall_overrides g +!! 1 = stall_overrides g + 1) as Hadd by (repeat no_wrap; lia).
      destruct wiped as [t|]; [|apply Hgo; cbn; rewrite ?Hadd; unfold MAX_STALL_OVERRIDES; lia].
      destruct Ho as (_ & Ht & Ho). rewrite window_cons.
      pose proof (IH (note_reset_at t {| last_reset := last_reset g; stall_overrides := stall_overrides g +!! 1; last_import := last_import g |}) t Ho) as Hr.
      cbn [last_reset stall_overrides note_reset_at] in Hr. rewrite Hadd in *. unfold MAX_STALL_OVERRIDES in *.
      destruct (_ && _); [|]; etransitivity; try (apply Nat.add_le_mono_l; apply Hr; lia); lia.
Qed.

(** A hostile peer set cannot make a node replay from genesis in a loop: in
    any run of imports and forks over a clock that does not go back, and for any
    moment, at most one plus [MAX_STALL_OVERRIDES] wipes fall within a
    [RESET_COOLDOWN_SECS] window. *)
Theorem wipes_rate_limited es g from a (Htime : in_order from es) (Hover : stall_overrides g <= MAX_STALL_OVERRIDES) :
  (length (within_window a (wipes es g)) <= 1 + N.to_nat MAX_STALL_OVERRIDES)%nat.
Proof.
  revert g from Htime Hover. induction es as [|[now|now wiped] es IH]; intros g from Ho Hs; cbn [wipes]; [cbn; lia|..].
  - destruct Ho as [_ Ho]. now apply (IH _ now).
  - assert (stall_overrides (may_resolve_fork_at now g).2 <= MAX_STALL_OVERRIDES) as Hs'.
    { unfold may_resolve_fork_at, MAX_STALL_OVERRIDES in *. destruct (_ <? _); cbn; [lia|]. destruct (_ && _) eqn:E; [|done]. cbn.
      apply andb_true_iff in E as [_ E%N.ltb_lt]. no_wrap. lia. }
    destruct (may_resolve_fork_at now g) as [[] g'], wiped as [t|]; cbn [snd] in Hs'; try (now apply (IH _ now); [apply Ho|]).
    + destruct Ho as (_ & _ & Ho). rewrite window_cons. destruct ((a <=? t) && _) eqn:Hin.
      * apply andb_true_iff in Hin as [Ha%N.leb_le _]. pose proof (overrides_left a es (note_reset_at t g') t Ho Ha (N.le_refl _) Hs'). lia.
      * now apply (IH _ t).
    + destruct Ho as (_ & _ & Ho). now apply (IH _ t).
Qed.

(** ** The replay loop *)

Section replay.
Context {HC : Crypto} {HF : Fr} {HK : Compression} {HP : ChainParams} {HJ : EvidenceJson} {HW : Wasm} {HG : Groth16}.
Context {HE : Env}.

(** A peer that never claims more than [top] and serves blocks at or above the
    height asked for. *)
Definition orderly (peer : string) (top : N) : Prop :=
  (forall t h m b, reply t peer (msg_getblocks h MAX_SYNC_BATCH) = Ok m -> b ∈ default [] (or_empty (m_blocks m)) -> h <= b_height b <= top) /\
  (forall t m, reply t peer (msg "status") = Ok m -> default 0 (m_height m) <= top).

(** The height to ask for after a batch that imports. *)
Lemma replay_blocks_next lo top bs : top < U64_MAX -> (forall b, b ∈ bs -> lo <= b_height b <= top) ->
  forall next w next' w', replay_blocks bs next w = (Some next', w') ->
    match bs with [] => next' = next | _ => lo < next' <= top + 1 end.
Proof.
  intros Htop. induction bs as [|b bs IH]; intros Hbs next w next' w'; cbn [replay_blocks]; [now intros [= -> _]|].
  destruct (import b w) as [[ok|e] w1]; [|discriminate]. intros H.
  assert (lo <= b_height b <= top) as Hb by (apply Hbs, list_elem_of_here). unfold U64_MAX in Htop.
  apply IH in H; [|intros b' Hb'; apply Hbs; now apply list_elem_of_further].
  destruct bs; [|exact H]. subst. no_wrap. lia.
Qed.

(** C32: Against an orderly peer the replay after a reset ends: once the fuel covers
    the heights left to fetch and the growth of the peer's tip, the loop stops,
    whatever the imports return. *)
Theorem replay_terminates peer top fuel next target w (Htop : top < U64_MAX) (Hpeer : orderly peer top)
  (Hfuel : (N.to_nat (top + 1 - next) + N.to_nat (top - target) < fuel)%nat) :
  exists out w', replay fuel peer next target w = Some (out, w').
Proof.
  destruct Hpeer as [Hblocks Hstatus]. revert next target w Hfuel. induction fuel as [|fuel IH]; intros next target w Hfuel; [lia|].
  cbn [replay]. destruct (N.ltb_spec target next); [now eexists _, _|]. unfold request at 1.
  destruct (reply (w_tick w) peer (msg_getblocks next MAX_SYNC_BATCH)) as [res|e] eqn:Er; [|now eexists _, _].
  pose proof (fun b => Hblocks _ _ _ b Er) as Hb. destruct (default [] (or_empty (m_blocks res))) as [|b bs] eqn:Ebs.
  - unfold request. set (live := match reply _ _ _ with Ok s => _ | Err _ => _ end).
    destruct (N.ltb_spec target live) as [Hlt|]; [|now eexists _, _]. apply IH.
    assert (live <= top); [|lia]. unfold live in *. destruct (reply _ peer (msg "status")) as [s|e] eqn:Es; [|lia].
    apply Hstatus in Es. destruct (m_height s); cbn in *; lia.
  - destruct (replay_blocks (b :: bs) next (ticked w)) as [[next'|] w1] eqn:E; [|now eexists _, _].
    apply (replay_blocks_next next top (b :: bs) Htop Hb) in E.
    destruct (N.eqb_spec next' next); [now eexists _, _|]. apply IH.
    assert (next <= top) by (specialize (Hb b (list_elem_of_here b bs)); lia). lia.
Qed.

(** The limit on the depth of a reorganisation never refuses what the fork choice
    adopts: it compares the two tips, not the branches. *)
Lemma reorg_limit_never_binds d b h : should_adopt d b h = true -> check_reorg_depth (tip d) h = Ok tt.
Proof.
  unfold should_adopt, check_reorg_depth, sat_sub. intros Ha.
  assert (tip d - h = 0) as ->; [|reflexivity].
  destruct (N.ltb_spec (tip d) h); [lia|]. destruct (N.ltb_spec h (tip d)); [discriminate|lia].
Qed.

(** ** Who may connect *)

Lemma id_allowed_listed id p : allowed_ids p <> ∅ -> id_allowed (Some id) p = true -> id ∈ allowed_ids p.
Proof. intros Hne. unfold id_allowed. rewrite bool_decide_false by done. now rewrite bool_decide_eq_true. Qed.

(** With an allowlist, only listed identities get a link.  Every inbound link
    that is accepted, and every link dialled by a node that requires
    encryption, is an authenticated session whose key is on a non-empty
    allowlist; and a node that requires encryption has no plain-text link. *)
Theorem allowlist_enforced p peer head connect handshake reconnect l
  (Hlink : accept_channel head handshake p = Ok l \/
           (require_encryption p = true /\ dial peer connect handshake reconnect p = Ok l)) :
  (allowed_ids p <> ∅ -> exists id, l = Secure id /\ id ∈ allowed_ids p) /\
  (require_encryption p = true -> is_encrypted l = true).
Proof.
  assert (forall id, (if negb (id_allowed (Some id) p) then Err "" else Ok (Secure id)) = Ok l ->
    (allowed_ids p <> ∅ -> exists id, l = Secure id /\ id ∈ allowed_ids p) /\ (require_encryption p = true -> is_encrypted l = true)) as Hid.
  { intros id. destruct (id_allowed (Some id) p) eqn:E; cbn [negb]; [|discriminate]. intros [= <-]. split; [|done].
    intros Hne. exists id. split; [done|]. now apply id_allowed_listed. }
  destruct Hlink as [H|[He H]].
  - unfold accept_channel in H. destruct head as [h|]; [|discriminate]. cbn [mbind result_bind] in H.
    destruct (String.eqb h "INSC1").
    + destruct handshake as [id|]; [|discriminate]. cbn [mbind result_bind peer_id] in H. apply (Hid id).
      now destruct (id_allowed (Some id) p).
    + destruct (require_encryption p); [discriminate|]. case_bool_decide; [|discriminate]. injection H as <-. now split.
  - unfold dial in H. destruct connect as [u|]; [|discriminate]. cbn [mbind result_bind] in H.
    destruct handshake as [id|e]; [|now rewrite He in H]. cbn [peer_id] in H. apply (Hid id).
    now destruct (id_allowed (Some id) p).
Qed.

(** A dialled peer that fails the handshake gets a plain link past the allowlist. *)
Lemma dial_skips_allowlist p peer e : require_encryption p = false -> dial peer (Ok tt) (Err e) (Ok tt) p = Ok (Plain "").
Proof. intros H. unfold dial. cbn. now rewrite H. Qed.
End replay.

(** ** Examples *)
Module P2p_example.
Import Toy Toy_field Exec_example.

(** A peer with nothing to serve that claims one block more at every question
    holds the replay for ever. *)
Module Held.
#[local] Instance env : Env := {|
  reply t _ m := if String.eqb (m_t m) "status" then Ok (msg_status (N.of_nat t) "" 0 0) else Ok (msg_blocks []);
  secs _ := 0; instant _ := 0; import_clock _ := {| at_check := 0; at_window := 0; at_seen := 0 |}; reset_clock _ := 0; cores := None |}.

Lemma replay_held fuel peer next target w : next <= target -> target <= N.of_nat (w_tick w) ->
  replay fuel peer next target w = None.
Proof.
  revert target w. induction fuel as [|fuel IH]; intros target w Hn Ht; [done|]. cbn [replay].
  destruct (N.ltb_spec target next); [lia|]. unfold request. cbn [reply env m_t msg_getblocks msg String.eqb Ascii.eqb Bool.eqb].
  cbn -[N.of_nat]. destruct (N.ltb_spec target (N.of_nat (S (w_tick w)))); [|lia]. apply IH; cbn -[N.of_nat]; lia.
Qed.
End Held.

(** A node at height 4, all of it final, and a genesis without allocations. *)
Definition genesis : Genesis := {|
  g_chain_id := CHAIN_ID; g_chain_name := "Inazuma"; g_symbol := "INAZ"; g_decimals := 9; g_block_time_ms := 400;
  g_alloc := []; g_slashing_activation_height := None |}.
Definition parent : Block := unsigned_block 4 zero_hash 1000 "" "genesis" "" [].
Definition d0 : Db := {[ (T_META, "tip_height") := u64_row 4; (T_META, "finalized_height") := u64_row 4;
                         (T_META, "tip_hash") := VBytes zero_hash; (T_BLOCKS, height_key 4) := VBlock parent ]}.
Definition world : World :=
  Build_World (node_new (mk d0 []) genesis key 0) (book_new 600) gate_new 0 [] 0.

(** A tip signed by a key without any stake. *)
Definition forger : Keypair := {| signing := "mallory" |}.
Definition forged : Block := Eval vm_compute in
  seal forger (unsigned_block 9 zero_hash 2000 "" (address forger) (pubkey_hex forger) []).

(** The peer relays the final block, serves the forged tip, and no history. *)
#[local] Instance env : Env := {|
  reply t _ m :=
    if String.eqb (m_t m) "status" then Ok (msg_status 9 (b_hash forged) 4 0)
    else match m_from m with
      | Some 9 => Ok (msg_blocks [forged])
      | Some 4 => Ok (msg_blocks [parent])
      | _ => Ok (msg_blocks [])
      end;
  secs _ := 5000; instant _ := 0; import_clock _ := {| at_check := 0; at_window := 0; at_seen := 0 |}; reset_clock _ := 0; cores := None |}.

(** The claim is accepted, and the node is back at its genesis. *)
Lemma forged_tip_wipes :
  staked (account (address forger) d0) = 0 /\ tip (w_db world) = 4 /\
  exists w', resolve_fork 3 "10.0.0.1:7000" 9 world = Some w' /\ tip (w_db w') = 0 /\ block 4 (w_db w') = None.
Proof.
  split; [vm_compute; reflexivity|]. split; [vm_compute; reflexivity|].
  destruct (resolve_fork 3 "10.0.0.1:7000" 9 world) as [w'|] eqn:E; [|vm_compute in E; discriminate].
  exists w'. split; [done|]. vm_compute in E. injection E as <-. split; vm_compute; reflexivity.
Qed.

Definition net : P2p := {| peers := ["10.0.0.1:7000"]; allowed_ids := {["abcd"]}; require_encryption := true |}.

Lemma answers_typed : env_typed.
Proof.
  intros t peer m r. cbn [reply env]. destruct (String.eqb _ _); [intros [= <-]; repeat split|].
  assert (typed_msg (msg_blocks [forged])) by (repeat split; repeat constructor; vm_compute; reflexivity).
  assert (typed_msg (msg_blocks [parent])) by (repeat split; repeat constructor; vm_compute; reflexivity).
  assert (typed_msg (msg_blocks [])) by (repeat split; constructor).
  destruct (m_from m) as [n|]; repeat match goal with |- context [match ?x with _ => _ end] => destruct x end;
    intros H'; injection H' as <-; done.
Qed.
Lemma world_typed : node_typed (w_node world).
Proof.
  split; [constructor|]. intros h b. unfold block, w_db, n_db. cbn [w_node world n_store node_new db]. unfold d0.
  rewrite !lookup_insert, lookup_singleton. repeat case_decide; cbn; try discriminate. intros [= <-]. vm_compute. reflexivity.
Qed.

Lemma gossip_keeps_finality_witness : exists w',
  sync_once 3 false net world = Some w' /\ rtc node_step (w_node world) (w_node w') /\ 4 <= final_of (w_node w').
Proof.
  destruct (sync_once 3 false net world) as [w'|] eqn:E; [|vm_compute in E; discriminate]. exists w'. split; [done|].
  change 4 with (final_of (w_node world)).
  apply (gossip_keeps_finality 3 false net world (Ok "") (Ok "") [] None); [exact answers_typed|exact world_typed|constructor|].
  right. left. now rewrite E.
Defined.

(** The two branches at height 4 of two nodes. *)
Definition rival : Block := with_block_hash (dec_pad 64 1) parent.
Definition d1 : Db := <[(T_BLOCKS, height_key 4) := VBlock rival]> d0.

Lemma fork_choice_agrees_witness : should_adopt d0 rival (tip d1) = negb (should_adopt d1 parent (tip d0)).
Proof.
  refine (proj1 (fork_choice_agrees d0 d1 parent rival _ _ _ _)); vm_compute; reflexivity || discriminate.
Defined.

(** Four wipes in one window, and the fifth refused. *)
Definition busy_hour : list GateEvent :=
  [Imported 5000; Forked 5100 (Some 5100); Forked 5200 (Some 5200); Forked 5300 (Some 5300); Forked 5400 (Some 5400); Forked 5500 (Some 5500)].
Lemma wipes_rate_limited_witness : wipes busy_hour gate_new = [5100; 5200; 5300; 5400] /\
  (length (within_window 5000 (wipes busy_hour gate_new)) <= 4)%nat.
Proof.
  split; [vm_compute; reflexivity|]. apply (wipes_rate_limited busy_hour gate_new 0 5000).
  - vm_compute. repeat split; discriminate.
  - vm_compute. discriminate.
Defined.

Lemma replay_terminates_witness : exists out w', replay 10 "10.0.0.1:7000" 5 9 world = Some (out, w').
Proof.
  apply (replay_terminates "10.0.0.1:7000" 9); [reflexivity| |vm_compute; lia]. split.
  - intros t h m b. cbn [reply env msg_getblocks m_t String.eqb Ascii.eqb Bool.eqb m_from].
    destruct (decide (h = 9)) as [->|]; [intros [= <-]; cbn; rewrite list_elem_of_singleton; intros ->; vm_compute; split; discriminate|].
    destruct (decide (h = 4)) as [->|]; [intros [= <-]; cbn; rewrite list_elem_of_singleton; intros ->; vm_compute; split; discriminate|].
    intros H Hb. exfalso. revert Hb. assert (m = msg_blocks []) as ->; [|cbn; apply not_elem_of_nil].
    repeat match type of H with context [match ?x with _ => _ end] => destruct x end; try done; injection H as <-; try done; exfalso; auto.
  - intros t m. cbn. intros [= <-]. vm_compute. discriminate.
Defined.

Lemma allowlist_enforced_witness : exists id, Secure "abcd" = Secure id /\ id ∈ allowed_ids net.
Proof.
  apply (allowlist_enforced net "" (Ok "INSC1") (Ok tt) (Ok "abcd") (Ok tt) (Secure "abcd")).
  - left. vm_compute. reflexivity.
  - vm_compute. discriminate.
Defined.
End P2p_example.
