(* ===== verification/Transport.v ===== *)
(** transport.rs: the encrypted and authenticated peer transport "INSC1", and
    its legacy plain-text form.

    X25519, HKDF-SHA256 and ChaCha20-Poly1305 are third-party crates: the class
    [Suite] names what the file calls of them, [SuiteLaws] what it relies on;
    [serde_json] is a codec of messages [V].  A socket is the bytes that can
    still be read from it; a read past them is the end of the stream.  The two
    sides of the handshake are split at their writes and reads: what a side
    sends is returned, what it reads is an argument. *)

From S2P Require Import Prelude Bytes Crypto.
From Stdlib Require Import Ascii.
From Stdlib Require String.

(* [src/src/transport.rs 39-39! MAGIC] *)
Definition MAGIC : string := "INSC1".
(* [src/src/transport.rs 39-40 MAX_FRAME] *)
Definition MAX_FRAME : N := 8 * 1024 * 1024.

Class Suite := {
  x25519_public : string -> string;
  x25519 : string -> string -> string;
  (** salt, input key material, info *)
  hkdf : string -> string -> string -> string;
  (** key, nonce, associated data, text *)
  aead_encrypt : string -> string -> string -> string -> option string;
  aead_decrypt : string -> string -> string -> string -> option string
}.

Class SuiteLaws `{Suite} : Prop := {
  x25519_public_len s : slen (x25519_public s) = 32%nat;
  x25519_agree a b : x25519 a (x25519_public b) = x25519 b (x25519_public a);
  aead_round_trip k n aad m ct : aead_encrypt k n aad m = Some ct -> aead_decrypt k n aad ct = Some m;
  (** Decryption accepts only what encryption under the same key and nonce gives. *)
  aead_tidy k n aad ct m : aead_decrypt k n aad ct = Some m -> aead_encrypt k n aad m = Some ct;
  (** The text and a 16-byte tag. *)
  aead_len k n aad m ct : aead_encrypt k n aad m = Some ct -> slen ct = (slen m + 16)%nat
}.

(** The first [n] bytes of a stream and the rest. *)
Fixpoint take_bytes (n : nat) (s : string) : option (string * string) :=
  match n with
  | O => Some ("", s)
  | S n => match s with "" => None | String c s => '(a, r) ← take_bytes n s; Some (String c a, r) end
  end.

(* [src/src/transport.rs 232-238 frame_len] *)
Definition frame_len (head : string) : result N :=
  let n := from_be_bytes head in
  if (n =? 0) || (MAX_FRAME <? n) then Err "bad frame length" else Ok n.

(** A JSON codec. *)
Class Json (V : Type) := {
  null : V;
  to_vec : V -> string;
  from_slice : string -> result V
}.
Class JsonLaws (V : Type) `{Json V} : Prop := {
  json_round_trip v : from_slice (to_vec v) = Ok v;
  json_compact v : contains_char "010"%char (to_vec v) = false;
  json_visible v : trim (to_vec v +:+ String "010" "") <> "";
  json_trailing v : from_slice (to_vec v +:+ String "010" "") = Ok v
}.

Section transport.
Context {HC : Crypto} {HS : Suite} {V : Type} {HV : Json V}.

(* [src/src/transport.rs 43-48 kdf] *)
Definition kdf (salt ikm info : string) : string := hkdf salt ikm info.
(* [src/src/transport.rs 50-56 transcript1] *)
Definition transcript1 (ei er : string) : string := sha256 (MAGIC +:+ ei +:+ er).
(* [src/src/transport.rs 58-64 transcript2] *)
Definition transcript2 (h1 responder_key : string) : string := sha256 (h1 +:+ responder_key +:+ "initiator").
(* [src/src/transport.rs 66-71 verify_raw] *)
Definition verify_raw (pubkey msg sig : string) : bool := ed25519_verify pubkey msg sig.

(* [src/src/transport.rs 73-77 read_exact] *)
Definition read_exact (n : nat) (stream : string) : result (string * string) :=
  ok_or (take_bytes n stream) "failed to fill whole buffer".

(* [src/src/transport.rs 91-94 Aead2] *)
Record Aead2 := { a_key : string; counter : N }.
(* [src/src/transport.rs 97-102 Aead2::new] *)
Definition aead_new (key : string) : Aead2 := {| a_key := key; counter := 0 |}.
(** Four zero bytes and the counter, little-endian. *)
Definition nonce_of (c : N) : string := zeros 4 +:+ to_le_bytes 8 c.
(* [src/src/transport.rs 104-109 Aead2::nonce] *)
Definition nonce (a : Aead2) : string * Aead2 :=
  (nonce_of (counter a), {| a_key := a_key a; counter := counter a +!! 1 |}).
(* [src/src/transport.rs 111-122 Aead2::seal] *)
Definition seal (plain : string) (a : Aead2) : result string * Aead2 :=
  let '(n, a) := nonce a in (ok_or (aead_encrypt (a_key a) n MAGIC plain) "seal failed", a).
(* [src/src/transport.rs 124-135 Aead2::open] *)
Definition open (ct : string) (a : Aead2) : result string * Aead2 :=
  let '(n, a) := nonce a in
  (ok_or (aead_decrypt (a_key a) n MAGIC ct) "decrypt failed (wrong key, replay or tampering)", a).

(** ** Handshake *)

Record Session := { s_send : Aead2; s_recv : Aead2; s_peer : string }.

(* [src/src/transport.rs 264-272! handshake_initiator] *)
Definition initiator_hello (e_secret : string) : string := MAGIC +:+ x25519_public e_secret.

(** The keys of the two directions. *)
Definition key_i2r (h1 shared : string) : string := kdf h1 shared "inazuma/p2p/v1/i2r".
Definition key_r2i (h1 shared : string) : string := kdf h1 shared "inazuma/p2p/v1/r2i".

(** What the initiator sends after the responder's message, and its session. *)
(* [src/src/transport.rs 274-299! handshake_initiator] *)
Definition handshake_initiator (e_secret : string) (id : Keypair) (stream : string) : result (string * Session) :=
  let ei := x25519_public e_secret in
  '(res, _) ← read_exact 128 stream;
  '(er, res) ← ok_or (take_bytes 32 res) "";
  '(peer_key, peer_sig) ← ok_or (take_bytes 32 res) "";
  let h1 := transcript1 ei er in
  if negb (verify_raw peer_key h1 peer_sig) then Err "peer failed to authenticate (bad handshake signature)"
  else
    let h2 := transcript2 h1 peer_key in
    let fin := pubkey_bytes id +:+ ed25519_sign (signing id) h2 in
    let shared := x25519 e_secret er in
    Ok (fin, {| s_send := aead_new (key_i2r h1 shared); s_recv := aead_new (key_r2i h1 shared); s_peer := hex_encode peer_key |}).

(* [src/src/transport.rs 303-318! handshake_responder] *)
Definition responder_hello (e_secret : string) (id : Keypair) (ei : string) : string :=
  let er := x25519_public e_secret in
  er +:+ pubkey_bytes id +:+ ed25519_sign (signing id) (transcript1 ei er).

(* [src/src/transport.rs 320-335! handshake_responder] *)
Definition handshake_responder (e_secret : string) (id : Keypair) (ei stream : string) : result Session :=
  let er := x25519_public e_secret in
  let h1 := transcript1 ei er in
  '(fin, _) ← read_exact 96 stream;
  '(peer_key, peer_sig) ← ok_or (take_bytes 32 fin) "";
  let h2 := transcript2 h1 (pubkey_bytes id) in
  if negb (verify_raw peer_key h2 peer_sig) then Err "peer failed to authenticate (bad handshake signature)"
  else
    let shared := x25519 e_secret ei in
    Ok {| s_send := aead_new (key_r2i h1 shared); s_recv := aead_new (key_i2r h1 shared); s_peer := hex_encode peer_key |}.

(** ** Frames *)

(* [src/src/transport.rs 170-182! Channel::send] *)
Definition send_secure (msg : V) (a : Aead2) : result string * Aead2 :=
  match seal (to_vec msg) a with
  | (Err e, a) => (Err e, a)
  | (Ok ct, a) =>
    if MAX_FRAME <? N.of_nat (slen ct) then (Err "frame too large", a)
    else (Ok (to_be_bytes 4 (N.of_nat (slen ct)) +:+ ct), a)
  end.

(* [src/src/transport.rs 241-248 decode_json] *)
Definition decode_json (plain : string) : result (option V) :=
  if MAX_FRAME <? N.of_nat (slen plain) then Err "oversized frame" else Some <$> from_slice plain.

(** The next message of an encrypted session, and the bytes left. *)
(* [src/src/transport.rs 195-209! Channel::recv] *)
Definition recv_secure (a : Aead2) (stream : string) : result (option V) * Aead2 * string :=
  match take_bytes 4 stream with
  | None => (Ok None, a, "")
  | Some (len, stream) =>
    match frame_len len with
    | Err e => (Err e, a, stream)
    | Ok n =>
      match read_exact (N.to_nat n) stream with
      | Err e => (Err e, a, "")
      | Ok (ct, stream) =>
        let '(plain, a) := open ct a in
        (match plain with Ok plain => decode_json plain | Err e => Err e end, a, stream)
      end
    end
  end.

(* [src/src/transport.rs 251-261 decode_line] *)
Definition decode_line (line : string) : result (option V) :=
  if MAX_FRAME <? N.of_nat (slen line) then Err "oversized line"
  else if String.eqb (trim line) "" then Ok (Some null)
  else Some <$> from_slice line.

(** [BufRead::read_line]: up to and with the newline. *)
Fixpoint read_line (s : string) : string * string :=
  match s with
  | "" => ("", "")
  | String c s' =>
    if Ascii.eqb c "010" then (String c "", s') else let '(l, r) := read_line s' in (String c l, r)
  end.

(* [src/src/transport.rs 184-188! Channel::send] *)
Definition send_plain (msg : V) : string := to_vec msg +:+ String "010" "".

(** The prefix is the bytes read while sniffing; it is consumed once. *)
(* [src/src/transport.rs 210-217! Channel::recv] *)
Definition recv_plain (prefix stream : string) : result (option V) * string :=
  let '(l, rest) := read_line stream in
  let line := prefix +:+ l in
  if String.eqb line "" then (Ok None, rest) else (decode_line line, rest).
End transport.

(** ** Agreement of the handshake *)

Lemma take_bytes_app a b : take_bytes (slen a) (a +:+ b) = Some (a, b).
Proof. induction a as [|c a IH]; [done|]. cbn. now rewrite IH. Qed.
Lemma take_bytes_len n a b : slen a = n -> take_bytes n (a +:+ b) = Some (a, b).
Proof. intros <-. apply take_bytes_app. Qed.
Lemma take_bytes_split n s a r : take_bytes n s = Some (a, r) -> s = a +:+ r /\ slen a = n.
Proof.
  revert s a r. induction n as [|n IH]; intros s a r; cbn [take_bytes]; [now intros [= <- <-]|].
  destruct s as [|c s]; [discriminate|]. destruct (take_bytes n s) as [[a' r']|] eqn:E; cbn; [|discriminate].
  intros [= <- <-]. apply IH in E as [-> <-]. done.
Qed.
Lemma read_exact_len n a b : slen a = n -> read_exact n (a +:+ b) = Ok (a, b).
Proof. intros H. unfold read_exact. now rewrite take_bytes_len. Qed.

Section facts.
Context {HC : Crypto} {HL : CryptoLaws} {HS : Suite} {HSL : SuiteLaws} {V : Type} {HV : Json V} {HVL : JsonLaws V}.
Implicit Types (a : Aead2).

(** The two ends of a session: each seals under the key the other opens with,
    and the counters of each direction agree. *)
Definition paired (s1 s2 : Session) : Prop := s_send s1 = s_recv s2 /\ s_recv s1 = s_send s2.

(** The handshake agrees.  When both sides read what the other wrote, the
    initiator and the responder both succeed, each learns the other's node key,
    and their sessions are paired: the key one side sends under is the key the
    other receives under, in both directions. *)
Theorem handshake_agrees ei_secret er_secret idi idr rest1 rest2 :
  let ei := x25519_public ei_secret in
  let hello := initiator_hello ei_secret in
  exists fin si sr,
    take_bytes 5 hello = Some (MAGIC, ei) /\
    handshake_initiator ei_secret idi (responder_hello er_secret idr ei +:+ rest1) = Ok (fin, si) /\
    handshake_responder er_secret idr ei (fin +:+ rest2) = Ok sr /\
    s_peer si = pubkey_hex idr /\ s_peer sr = pubkey_hex idi /\ paired si sr.
Proof.
  cbv zeta. unfold handshake_initiator. cbv zeta. set (ei := x25519_public ei_secret). set (er := x25519_public er_secret).
  unfold responder_hello. cbv zeta. fold er. set (sig := ed25519_sign (signing idr) (transcript1 ei er)).
  assert (slen er = 32%nat) by apply x25519_public_len. assert (slen ei = 32%nat) by apply x25519_public_len.
  assert (forall k, slen (pubkey_bytes k) = 32%nat) as Hpk by (intros; apply ed25519_pubkey_len).
  assert (slen sig = 64%nat) by apply ed25519_sign_len.
  rewrite read_exact_len by (rewrite !slen_append, Hpk; lia). cbn [mbind result_bind].
  rewrite (take_bytes_len 32 er) by done. cbn [mbind result_bind ok_or]. rewrite (take_bytes_len 32 (pubkey_bytes idr)) by done.
  cbn [mbind result_bind ok_or]. unfold verify_raw, pubkey_bytes. unfold sig. rewrite ed25519_sign_verify. cbn [negb].
  eexists _, _, _. split; [unfold initiator_hello, MAGIC; now apply (take_bytes_len 5 "INSC1")|]. split; [reflexivity|].
  unfold handshake_responder. cbv zeta. fold er. rewrite read_exact_len by (rewrite slen_append, ed25519_pubkey_len, ed25519_sign_len; lia).
  cbn [mbind result_bind]. rewrite (take_bytes_len 32) by apply ed25519_pubkey_len. cbn [mbind result_bind ok_or].
  unfold verify_raw, pubkey_bytes. rewrite ed25519_sign_verify. cbn [negb]. split; [reflexivity|]. split; [done|]. split; [done|].
  unfold paired. cbn. unfold ei, er. rewrite x25519_agree. done.
Qed.

(** C33: A man in the middle cannot splice in a key of its own.  When an initiator
    accepts a reply that carries a signature an honest responder made for a
    session [ei'], [er'], then that session is the initiator's own: same
    ephemeral keys on both sides - or the hash of the two transcripts collides,
    or one signature verifies for two different transcripts. *)
Theorem splice_rejected e_secret er_secret idi idr er ei' rest fin s
  (Her : slen er = 32%nat) (Hei : slen ei' = 32%nat)
  (Haccept : handshake_initiator e_secret idi
    (er +:+ pubkey_bytes idr +:+ ed25519_sign (signing idr) (transcript1 ei' (x25519_public er_secret)) +:+ rest) = Ok (fin, s)) :
  let ei := x25519_public e_secret in
  let er' := x25519_public er_secret in
  (ei = ei' /\ er = er') \/
  clash sha256 [MAGIC +:+ ei +:+ er] [MAGIC +:+ ei' +:+ er'] \/
  (transcript1 ei er <> transcript1 ei' er' /\
   ed25519_verify (pubkey_bytes idr) (transcript1 ei er) (ed25519_sign (signing idr) (transcript1 ei' er')) = true).
Proof.
  cbv zeta. set (ei := x25519_public e_secret) in *. set (er' := x25519_public er_secret) in *.
  set (sig := ed25519_sign (signing idr) (transcript1 ei' er')) in *.
  assert (slen ei = 32%nat) by apply x25519_public_len. assert (slen er' = 32%nat) by apply x25519_public_len.
  assert (slen (pubkey_bytes idr) = 32%nat) as Hpk by apply ed25519_pubkey_len. assert (slen sig = 64%nat) as Hsig by apply ed25519_sign_len.
  revert Haccept. unfold handshake_initiator. cbv zeta. fold ei. rewrite (append_assoc (pubkey_bytes idr)), (append_assoc er).
  rewrite read_exact_len by (rewrite !slen_append, Hpk, Her, Hsig; lia). cbn [mbind result_bind].
  rewrite (take_bytes_len 32 er) by done. cbn [mbind result_bind ok_or]. rewrite (take_bytes_len 32 (pubkey_bytes idr)) by done.
  cbn [mbind result_bind ok_or]. unfold verify_raw. destruct (ed25519_verify _ _ _) eqn:Hv; cbn [negb]; [|discriminate]. intros _.
  destruct (decide (transcript1 ei er = transcript1 ei' er')) as [E|E]; [|now right; right].
  destruct (clash_or sha256 (MAGIC +:+ ei +:+ er) (MAGIC +:+ ei' +:+ er') [MAGIC +:+ ei +:+ er] [MAGIC +:+ ei' +:+ er'])
    as [Heq|Hc]; [apply list_elem_of_here..|exact E| |now right; left].
  left. apply append_inv_head in Heq. apply append_inj_len in Heq; [exact Heq|congruence].
Qed.

(** ** Sessions *)

Lemma to_le_inj n : forall w1 w2, w1 < 256 ^ N.of_nat n -> w2 < 256 ^ N.of_nat n -> to_le_bytes n w1 = to_le_bytes n w2 -> w1 = w2.
Proof.
  induction n as [|n IH]; intros w1 w2 H1 H2; cbn [to_le_bytes]; [cbn in *; lia|]. intros [Hb Ht]%String_inv.
  apply (f_equal N_of_ascii) in Hb. rewrite !N_of_byte in Hb. rewrite Nat2N.inj_succ, N.pow_succ_r' in H1, H2.
  apply IH in Ht; [|apply N.Div0.div_lt_upper_bound; lia..]. transitivity (256 * (w1 / 256) + w1 mod 256); [apply N.Div0.div_mod|].
  rewrite Hb, Ht. symmetry. apply N.Div0.div_mod.
Qed.
Lemma nonce_inj c c' : c < 2 ^ 64 -> c' < 2 ^ 64 -> nonce_of c = nonce_of c' -> c = c'.
Proof. intros Hc Hc' E. unfold nonce_of in E. apply append_inv_head in E. now apply (to_le_inj 8). Qed.

(** A frame is accepted once and in its place.  If a receiver opens a
    ciphertext that its peer sealed under another value of the counter -
    replayed, reordered or dropped before it - then encryption gives the same
    ciphertext for two different nonces. *)
Theorem replay_rejected c p ct a plain a' (Hc : c < 2 ^ 64) (Hcount : counter a < 2 ^ 64)
  (Hsealed : aead_encrypt (a_key a) (nonce_of c) MAGIC p = Some ct) (Hopen : open ct a = (Ok plain, a')) (Hne : c <> counter a) :
  clash (fun np => aead_encrypt (a_key a) np.1 MAGIC np.2) [(nonce_of c, p)] [(nonce_of (counter a), plain)].
Proof.
  unfold open, nonce in Hopen. cbn [a_key] in Hopen. destruct (aead_decrypt _ _ _ ct) as [q|] eqn:E; [|discriminate].
  injection Hopen as -> _. apply aead_tidy in E. exists (nonce_of c, p), (nonce_of (counter a), plain).
  split; [apply list_elem_of_here|]. split; [apply list_elem_of_here|]. cbn [fst snd]. split; [|now rewrite Hsealed, E].
  intros Hn. apply (f_equal fst) in Hn. cbn [fst] in Hn. now apply nonce_inj in Hn.
Qed.

(** The frames of a list of messages, when all of them can be sent. *)
Fixpoint send_all (ms : list V) a : option (string * Aead2) :=
  match ms with
  | [] => Some ("", a)
  | m :: ms => match send_secure m a with
    | (Ok f, a) => '(fs, a) ← send_all ms a; Some (f +:+ fs, a)
    | (Err _, _) => None
    end
  end.
Fixpoint recv_all (n : nat) a (stream : string) : list (result (option V)) * Aead2 * string :=
  match n with
  | O => ([], a, stream)
  | S n => let '(r, a, stream) := recv_secure a stream in let '(rs, a, stream) := recv_all n a stream in (r :: rs, a, stream)
  end.

Lemma frame_len_ok n : 0 < n -> n <= MAX_FRAME -> frame_len (to_be_bytes 4 n) = Ok n.
Proof.
  intros H0 Hm. unfold frame_len, MAX_FRAME in *. rewrite from_to_be by (cbn; lia).
  destruct (N.eqb_spec n 0); [lia|]. destruct (N.ltb_spec (8 * 1024 * 1024) n); [lia|]. done.
Qed.

Lemma recv_send m a f a' rest : send_secure m a = (Ok f, a') -> recv_secure a (f +:+ rest) = (Ok (Some m), a', rest).
Proof.
  unfold send_secure, seal, nonce. cbn [a_key]. destruct (aead_encrypt _ _ _ _) as [ct|] eqn:E; cbn [ok_or]; [|discriminate].
  destruct (N.ltb_spec MAX_FRAME (N.of_nat (slen ct))) as [|Hlen]; [discriminate|].
  remember (to_be_bytes 4 (N.of_nat (slen ct))) as head eqn:Hhead. intros [= <- <-].
  pose proof (aead_len _ _ _ _ _ E) as Hl. apply aead_round_trip in E. unfold recv_secure.
  rewrite <- append_assoc, take_bytes_len by (subst; apply slen_be). rewrite Hhead, frame_len_ok by lia.
  rewrite Nat2N.id, read_exact_len by done. unfold open, nonce. cbn [a_key]. rewrite E. cbn [ok_or]. do 2 f_equal.
  unfold decode_json. destruct (N.ltb_spec MAX_FRAME (N.of_nat (slen (to_vec m)))); [lia|]. now rewrite json_round_trip.
Qed.

(** An encrypted session delivers.  Whatever messages one end manages to send,
    the other end - with the same key and counter - receives exactly these, in
    order, and the two counters still agree afterwards. *)
Theorem session_round_trip ms a bytes a' rest (Hsent : send_all ms a = Some (bytes, a')) :
  recv_all (length ms) a (bytes +:+ rest) = (map (fun m => Ok (Some m)) ms, a', rest).
Proof.
  revert a bytes Hsent. induction ms as [|m ms IH]; intros a bytes; cbn [send_all recv_all length map]; [now intros [= <- <-]|].
  destruct (send_secure m a) as [[f|] a1] eqn:E; [|discriminate]. destruct (send_all ms a1) as [[fs a2]|] eqn:E2; [|discriminate].
  cbn. intros [= <- <-]. rewrite <- append_assoc, (recv_send m a f a1) by done. now rewrite (IH a1 fs).
Qed.

(** The legacy form: one line per message. *)
Lemma read_line_whole (s rest : string) : contains_char "010"%char s = false -> read_line (s +:+ String "010" rest) = (s +:+ String "010" "", rest).
Proof.
  induction s as [|c s IH]; [done|]. cbn [contains_char]. intros [Hc Hs]%orb_false_iff. cbn [String.append read_line].
  rewrite Ascii.eqb_sym in Hc. rewrite Hc, IH by done. done.
Qed.

Lemma plain_round_trip m rest : N.of_nat (slen (to_vec m)) < MAX_FRAME ->
  recv_plain "" (send_plain m +:+ rest) = (Ok (Some m), rest).
Proof.
  intros Hl. unfold recv_plain, send_plain. rewrite <- append_assoc. cbn [String.append]. rewrite read_line_whole by apply json_compact.
  cbn [String.append]. destruct (String.eqb_spec (to_vec m +:+ String "010" "") "") as [E|_].
  { exfalso. apply (json_visible m). now rewrite E. }
  unfold decode_line. rewrite slen_append. cbn [slen String.length]. destruct (N.ltb_spec MAX_FRAME (N.of_nat (slen (to_vec m) + 1))); [lia|].
  destruct (String.eqb_spec (trim (to_vec m +:+ String "010" "")) "") as [E|_]; [now apply json_visible in E|]. now rewrite json_trailing.
Qed.

(** A message too long for a frame is refused after its nonce is spent: the
    session cannot go on. *)
Lemma refused_send_spends_nonce m a a' : send_secure m a = (Err "frame too large", a') ->
  MAX_FRAME < N.of_nat (slen (to_vec m)) + 16 -> counter a' = counter a +!! 1.
Proof.
  unfold send_secure, seal, nonce. cbn [a_key]. destruct (aead_encrypt _ _ _ _) as [ct|]; cbn [ok_or]; [|discriminate].
  destruct (_ <? _); [|discriminate]. now intros [= <-].
Qed.
End facts.

(** ** A computable suite *)
Module Toy_suite.
Import Toy.

Fixpoint xor_text (a b : string) : string :=
  match a, b with
  | String x a, String y b => String (ascii_of_N (N.lxor (N_of_ascii x) (N_of_ascii y))) (xor_text a b)
  | _, _ => ""
  end.
Lemma xor_text_comm a b : xor_text a b = xor_text b a.
Proof. revert b. induction a as [|x a IH]; intros [|y b]; cbn; try done. now rewrite N.lxor_comm, IH. Qed.

Definition tag_of (k n aad m : string) : string := take_pad 16 (digest (k +:+ n +:+ aad +:+ m)).

#[export] Instance toy_suite : Suite := {|
  x25519_public s := take_pad 32 s;
  x25519 a p := xor_text (take_pad 32 a) p;
  hkdf salt ikm info := digest (salt +:+ ikm +:+ info);
  aead_encrypt k n aad m := Some (tag_of k n aad m +:+ m);
  aead_decrypt k n aad ct :=
    '(t, m) ← take_bytes 16 ct; if String.eqb t (tag_of k n aad m) then Some m else None |}.

#[export] Instance toy_suite_laws : SuiteLaws.
Proof.
  split; unfold x25519_public, x25519, aead_encrypt, aead_decrypt, toy_suite.
  - intros. apply slen_take_pad.
  - intros a b. apply xor_text_comm.
  - intros k n aad m ct H. apply (inj Some) in H as <-. rewrite (take_bytes_len 16) by apply slen_take_pad.
    cbn [mbind option_bind]. now rewrite String.eqb_refl.
  - intros k n aad ct m. destruct (take_bytes 16 ct) as [[t m']|] eqn:E; cbn [mbind option_bind]; [|discriminate].
    destruct (String.eqb_spec t (tag_of k n aad m')) as [->|]; [|discriminate]. intros H. apply (inj Some) in H as ->.
    apply take_bytes_split in E as [-> _]. reflexivity.
  - intros k n aad m ct H. apply (inj Some) in H as <-. rewrite slen_append. unfold tag_of. rewrite slen_take_pad. lia.
Qed.

Lemma trim_newline s : trim (s +:+ String "010" "") = trim s.
Proof.
  unfold trim. assert (forall t, trim_end (t +:+ String "010" "") = trim_end t) as He.
  { induction t as [|c t IH]; [done|]. cbn. now rewrite IH. }
  induction s as [|c s IH]; [done|]. cbn [String.append trim_start]. destruct (is_space c); [exact IH|]. apply (He (String c s)).
Qed.

(** Messages are numbers in decimal. *)
#[export] Instance toy_json : Json N := {|
  null := 0; to_vec := dec; from_slice s := ok_or (parse_digits 0 (trim s)) "invalid json" |}.

Lemma trim_dec n : trim (dec n) = dec n.
Proof.
  apply (trim_no_space is_digit); [|apply all_digits_dec]. intros c. destruct c as [[] [] [] [] [] [] [] []]; intros Hc; try reflexivity; discriminate Hc.
Qed.

#[export] Instance toy_json_laws : JsonLaws N.
Proof.
  split; intros n; unfold from_slice, to_vec, toy_json.
  - now rewrite trim_dec, parse_digits_dec.
  - apply (all_chars_not_contains is_digit); [apply all_digits_dec|reflexivity].
  - rewrite trim_newline, trim_dec. apply dec_nonempty.
  - now rewrite trim_newline, trim_dec, parse_digits_dec.
Qed.

Definition alice : Keypair := {| signing := "alice" |}.
Definition bob : Keypair := {| signing := "bob" |}.

Lemma handshake_agrees_witness : exists fin si sr,
  handshake_initiator "x" alice (responder_hello "y" bob (x25519_public "x") +:+ "") = Ok (fin, si) /\
  handshake_responder "y" bob (x25519_public "x") (fin +:+ "") = Ok sr /\ paired si sr.
Proof.
  destruct (handshake_agrees "x" "y" alice bob "" "") as (fin & si & sr & _ & H1 & H2 & _ & _ & H3).
  exists fin, si, sr. split; [exact H1|]. split; [exact H2|exact H3].
Defined.

Definition accepted : result (string * Session) := handshake_initiator "x" alice
  (x25519_public "y" +:+ pubkey_bytes bob +:+ ed25519_sign (signing bob) (transcript1 (x25519_public "x") (x25519_public "y")) +:+ "").
Lemma splice_rejected_witness : is_ok accepted = true /\ exists fin s, accepted = Ok (fin, s) /\
  (x25519_public "x" = x25519_public "x" \/
   clash sha256 [MAGIC +:+ x25519_public "x" +:+ x25519_public "y"] [MAGIC +:+ x25519_public "x" +:+ x25519_public "y"] \/
   transcript1 (x25519_public "x") (x25519_public "y") <> transcript1 (x25519_public "x") (x25519_public "y")).
Proof.
  split; [vm_compute; reflexivity|]. destruct accepted as [[fin s]|e] eqn:E; [|vm_compute in E; discriminate].
  exists fin, s. split; [done|].
  destruct (splice_rejected "x" "y" alice bob (x25519_public "y") (x25519_public "x") "" fin s) as [[H _]|[H|[H _]]];
    [vm_compute; reflexivity|vm_compute; reflexivity|exact E|now left|now right; left|now right; right].
Defined.

Definition chan : Aead2 := aead_new "key".
Lemma session_round_trip_witness : exists bytes a',
  send_all [7; 42; 7] chan = Some (bytes, a') /\
  recv_all 3 chan (bytes +:+ "") = ([Ok (Some 7); Ok (Some 42); Ok (Some 7)], a', "").
Proof.
  destruct (send_all [7; 42; 7] chan) as [[bytes a']|] eqn:E; [|vm_compute in E; discriminate].
  exists bytes, a'. split; [done|]. exact (session_round_trip [7; 42; 7] chan bytes a' "" E).
Defined.

(** The second frame in the place of the third is refused. *)
Lemma replay_refused : (open (tag_of "key" (nonce_of 1) MAGIC "hello" +:+ "hello") {| a_key := "key"; counter := 2 |}).1
  = Err "decrypt failed (wrong key, replay or tampering)".
Proof. vm_compute. reflexivity. Qed.
End Toy_suite.
