(* ===== verification/Access.v ===== *)
(** rpcauth.rs and qos.rs: who may call, what a call costs, and whose budget
    pays; with the gates of rpc.rs and ws.rs that apply these rules before a
    request reaches the node.

    Tables keyed by secrets are maps; the code walks them and compares in
    constant time, in an order that is not specified ([map_to_list] here).  A
    request is its method and what the cost rules read of its parameters. *)

From S2P Require Import Prelude Bytes Crypto Types Journal Store Smt Poseidon Shielded State Limits.
From Stdlib Require Import Ascii.
From Stdlib Require String SpecFloat.

(** ** Stake-weighted quality of service *)

(* [src/src/qos.rs 24-25 MAX_STAKE_MULTIPLIER] *)
Definition MAX_STAKE_MULTIPLIER : f64 := f64_of_N 8.
(* [src/src/qos.rs 26-27 SHARE_GAIN] *)
Definition SHARE_GAIN : f64 := f64_of_N 20.
(* [src/src/qos.rs 28-29 CACHE_TTL] *)
Definition CACHE_TTL : N := 5 * NANOS.

Definition flt : f64 -> f64 -> bool := SpecFloat.SFltb.
(** [f64::clamp] *)
Definition clamp (x lo hi : f64) : f64 := if flt x lo then lo else if flt hi x then hi else x.

(* [src/src/qos.rs 31-35 StakeQos] *)
Record StakeQos := { bindings : gmap string string; cache : option (N * N) }.

Section qos.
Context {HC : Crypto}.

(* [src/src/qos.rs 40-56 StakeQos::new] *)
Definition bind (m : gmap string string) (pair : string) : gmap string string :=
  match split_once ":"%char pair with
  | None => m
  | Some (key, addr) =>
    let key := trim key in
    let addr := trim addr in
    if Nat.leb 16 (slen key) && is_valid_address addr then <[key := addr]> m else m
  end.
(* [src/src/qos.rs 40-56 StakeQos::new] *)
Definition qos_new (pairs : list string) : StakeQos := {| bindings := foldl bind ∅ pairs; cache := None |}.

(* [src/src/qos.rs 66-71 StakeQos::address_for] *)
Definition address_for (credential : string) (q : StakeQos) : option string :=
  snd <$> List.find (fun kv => secret_eq kv.1 credential) (map_to_list (bindings q)).

(** The cached total, refreshed when it is older than [CACHE_TTL]. *)
(* [src/src/qos.rs 73-83 StakeQos::total_staked] *)
Definition qos_total_staked (now : N) (d : Db) (q : StakeQos) : N * StakeQos :=
  let fresh := total_staked d in
  let refreshed := (fresh, {| bindings := bindings q; cache := Some (fresh, now) |}) in
  match cache q with
  | Some (total, at_) => if now - at_ <? CACHE_TTL then (total, q) else refreshed
  | None => refreshed
  end.

Definition ONE : f64 := f64_of_N 1.

(* [src/src/qos.rs 87-107 StakeQos::multiplier] *)
Definition multiplier (now : N) (d : Db) (credential : option string) (q : StakeQos) : f64 * StakeQos :=
  if bool_decide (bindings q = ∅) then (ONE, q)
  else match (c ← credential; address_for c q) with
  | None => (ONE, q)
  | Some addr =>
    let '(total, q) := qos_total_staked now d q in
    if total =? 0 then (ONE, q)
    else
      let st := staked (account addr d) in
      if st =? 0 then (ONE, q)
      else
        let share := fdiv (f64_of_N st) (f64_of_N total) in
        (clamp (fadd ONE (fmul share SHARE_GAIN)) ONE MAX_STAKE_MULTIPLIER, q)
  end.

(* [src/src/qos.rs 110-120 StakeQos::share_pct] *)
Definition share_pct (now : N) (d : Db) (credential : option string) (q : StakeQos) : f64 * StakeQos :=
  match (c ← credential; address_for c q) with
  | None => (f64_of_N 0, q)
  | Some addr =>
    let '(total, q) := qos_total_staked now d q in
    if total =? 0 then (f64_of_N 0, q)
    else (fmul (fdiv (f64_of_N (staked (account addr d))) (f64_of_N total)) (f64_of_N 100), q)
  end.
End qos.

(** ** Tiers and costs *)

(* [src/src/rpcauth.rs 26-34 Tier] *)
Inductive Tier := Anonymous | Key_tier | Admin.
#[export] Instance tier_eq_dec : EqDecision Tier.
Proof. solve_decision. Defined.

(* [src/src/rpcauth.rs 37-43 Tier::label] *)
Definition tier_label (t : Tier) : string := match t with Anonymous => "anon" | Key_tier => "key" | Admin => "admin" end.

(* [src/src/rpcauth.rs 61-62 PRIVILEGED_METHODS] *)
Definition PRIVILEGED_METHODS : list string := ["inaz_rpcLimits"; "inaz_halt"; "inaz_resume"; "inaz_prune"].

(* [src/src/rpcauth.rs 67-69 may_see_topology] *)
Definition may_see_topology (t : Tier) : bool := bool_decide (t = Admin).

(** The lengths of the arrays "txs" and "hashes", when they are there. *)
Record Params := { p_txs : option N; p_hashes : option N }.

(* [src/src/rpcauth.rs 73-103 method_cost] *)
Definition method_cost (method : string) (p : Params) : f64 :=
  if String.eqb method "inaz_sendTransactions" then
    fadd (f64_of_N 2) (fdiv (f64_of_N (default 1 (p_txs p))) (f64_of_N 50))
  else if bool_decide (method ∈ ["inaz_getProof"; "inaz_verifyProof"]) then f64_of_N 5
  else if String.eqb method "inaz_simulateTransaction" then f64_of_N 3
  else if String.eqb method "inaz_signatureStatuses" then
    fadd (f64_of_N 1) (fdiv (f64_of_N (default 1 (p_hashes p))) (f64_of_N 25))
  else if String.eqb method "inaz_subscribe" then f64_of_N 2
  else if bool_decide (method ∈ ["inaz_tokenHoldings"; "inaz_contracts"; "inaz_contractStorage"; "inaz_tokens"]) then f64_of_N 4
  else if bool_decide (method ∈ ["inaz_query"; "inaz_latestBlocks"; "inaz_validators"; "inaz_slashing"]) then f64_of_N 3
  else if bool_decide (method ∈ ["inaz_sendTransaction"; "inaz_reportEquivocation"]) then f64_of_N 2
  else f64_of_N 1.

(* [src/src/rpcauth.rs 105-117 RpcConfig] *)
Record RpcConfig := {
  keys : gmap string Tier; require_auth : bool; trust_proxy : bool;
  anon : RateLimiter; keyed : KeyedLimiter; accounts : KeyedLimiter; qos : StakeQos
}.

Definition with_anon (l : RateLimiter) (c : RpcConfig) : RpcConfig :=
  Build_RpcConfig (keys c) (require_auth c) (trust_proxy c) l (keyed c) (accounts c) (qos c).
Definition with_keyed (l : KeyedLimiter) (c : RpcConfig) : RpcConfig :=
  Build_RpcConfig (keys c) (require_auth c) (trust_proxy c) (anon c) l (accounts c) (qos c).
Definition with_accounts (l : KeyedLimiter) (c : RpcConfig) : RpcConfig :=
  Build_RpcConfig (keys c) (require_auth c) (trust_proxy c) (anon c) (keyed c) l (qos c).
Definition with_qos_state (q : StakeQos) (c : RpcConfig) : RpcConfig :=
  Build_RpcConfig (keys c) (require_auth c) (trust_proxy c) (anon c) (keyed c) (accounts c) q.

(** Keys of a tier, the short ones ignored. *)
Definition add_keys (t : Tier) (ks : list string) (m : gmap string Tier) : gmap string Tier :=
  foldl (fun m k => if Nat.leb 16 (slen k) then <[k := t]> m else m) m ks.

(* [src/src/rpcauth.rs 134-164 RpcConfig::with_qos] *)
Definition config_with_qos (user_keys admin_keys : list string) (auth proxy : bool) (q : StakeQos) : RpcConfig :=
  let m := add_keys Admin admin_keys (add_keys Key_tier user_keys ∅) in
  {| keys := m; require_auth := auth && negb (bool_decide (m = ∅)); trust_proxy := proxy;
     anon := limiter_new (f64_of_N 25) (f64_of_N 100);
     keyed := limiter_new (f64_of_N 300) (f64_of_N 1200);
     accounts := limiter_new (f64_of_N 50) (f64_of_N 200);
     qos := q |}.

(* [src/src/rpcauth.rs 166-168 RpcConfig::public] *)
Definition config_public {HC : Crypto} : RpcConfig := config_with_qos [] [] false false (qos_new []).

(* [src/src/rpcauth.rs 174-176 RpcConfig::auth_enabled] *)
Definition auth_enabled (c : RpcConfig) : bool := negb (bool_decide (keys c = ∅)).

(* [src/src/rpcauth.rs 179-190 RpcConfig::tier_for] *)
Definition tier_for (presented : option string) (c : RpcConfig) : Tier :=
  match presented with
  | None => Anonymous
  | Some p => foldl (fun found kt => if secret_eq kt.1 p then kt.2 else found) Anonymous (map_to_list (keys c))
  end.

(* [src/src/rpcauth.rs 195-203 RpcConfig::charge] *)
Definition charge (now : N) (ip : IpAddr) (t : Tier) (credential : option string) (cost : f64) (c : RpcConfig) : bool * RpcConfig :=
  match t, credential with
  | Anonymous, _ | _, None => let '(ok, l) := ip_allow_cost now ip cost (anon c) in (ok, with_anon l c)
  | _, Some k => let '(ok, l) := key_allow_cost now k cost (keyed c) in (ok, with_keyed l c)
  end.

Section access.
Context {HC : Crypto}.

(* [src/src/rpcauth.rs 209-222 RpcConfig::charge_weighted] *)
Definition charge_weighted (now : N) (d : Db) (ip : IpAddr) (t : Tier) (credential : option string) (cost : f64) (c : RpcConfig) :
    bool * RpcConfig :=
  match t with
  | Anonymous => charge now ip t credential cost c
  | _ =>
    let '(m, q) := multiplier now d credential (qos c) in
    charge now ip t credential (fdiv cost (fmax m ONE)) (with_qos_state q c)
  end.

(* [src/src/rpcauth.rs 225-227 RpcConfig::charge_account] *)
Definition charge_account (now : N) (addr : string) (txs : N) (c : RpcConfig) : bool * RpcConfig :=
  let '(ok, l) := key_allow_cost now addr (f64_of_N (N.max txs 1)) (accounts c) in (ok, with_accounts l c).

(** ** The gates *)

(** The signers a submission names: nothing for other methods. *)
Inductive Call := Submit (signer : option string) | Submit_batch (signers : list (option string)) | Other.

Inductive Refusal := Auth_required | Admin_required | Rate_limited | Account_limited (sender : string).

(** The submissions of a batch counted by signer, charged signer by signer in
    the order of the map. *)
Definition per_sender (signers : list (option string)) : gmap string N :=
  foldl (fun m s => match s with Some s => <[s := default 0 (m !! s) + 1]> m | None => m end) ∅ signers.
Fixpoint charge_senders (now : N) (l : list (string * N)) (c : RpcConfig) : option string * RpcConfig :=
  match l with
  | [] => (None, c)
  | (s, n) :: l =>
    match charge_account now s n c with
    | (true, c) => charge_senders now l c
    | (false, c) => (Some s, c)
    end
  end.

(** The checks before dispatch: privilege again, then the budget of each signer. *)
(* [src/src/rpc.rs 250-288! dispatch_metered] *)
Definition metered (now : N) (method : string) (call : Call) (t : Tier) (c : RpcConfig) : option Refusal * RpcConfig :=
  if bool_decide (method ∈ PRIVILEGED_METHODS) && negb (bool_decide (t = Admin)) then (Some Admin_required, c)
  else match call with
  | Submit (Some s) =>
    match charge_account now s 1 c with
    | (true, c) => (None, c)
    | (false, c) => (Some (Account_limited s), c)
    end
  | Submit_batch ss =>
    let '(r, c) := charge_senders now (map_to_list (per_sender ss)) c in (Account_limited <$> r, c)
  | _ => (None, c)
  end.

(** The HTTP endpoint: authentication, authorization, throttle, dispatch. *)
(* [src/src/rpc.rs 204-238! handle_conn] *)
Definition http_gate (now : N) (d : Db) (ip : IpAddr) (credential : option string) (method : string) (p : Params) (call : Call)
    (c : RpcConfig) : option Refusal * RpcConfig :=
  let t := tier_for credential c in
  if require_auth c && bool_decide (t = Anonymous) then (Some Auth_required, c)
  else if bool_decide (method ∈ PRIVILEGED_METHODS) && negb (bool_decide (t = Admin)) then (Some Admin_required, c)
  else
    match charge_weighted now d ip t credential (method_cost method p) c with
    | (false, c) => (Some Rate_limited, c)
    | (true, c) => metered now method call t c
    end.

(** A message on a socket whose tier was fixed when it was opened. *)
(* [src/src/ws.rs 293-307! handle_message] *)
Definition ws_gate (now : N) (d : Db) (ip : IpAddr) (t : Tier) (credential : option string) (method : string) (p : Params) (call : Call)
    (c : RpcConfig) : option Refusal * RpcConfig :=
  match charge_weighted now d ip t credential (method_cost method p) c with
  | (false, c) => (Some Rate_limited, c)
  | (true, c) =>
    if bool_decide (method ∈ PRIVILEGED_METHODS) && negb (bool_decide (t = Admin)) then (Some Admin_required, c)
    else if bool_decide (method ∈ ["inaz_subscribe"; "inaz_unsubscribe"; "inaz_subscriptions"]) then (None, c)
    else metered now method call t c
  end.

(** The tier a socket gets, or its refusal. *)
(* [src/src/ws.rs 151-157! handle] *)
Definition ws_open (credential : option string) (c : RpcConfig) : result Tier :=
  let t := tier_for credential c in
  if require_auth c && bool_decide (t = Anonymous) then Err "api key required" else Ok t.
End access.

(** ** Credentials *)

Lemma secret_eq_decide a b : secret_eq a b = bool_decide (a = b).
Proof. destruct (bool_decide_reflect (a = b)) as [E|E]; [now apply secret_eq_spec|]. apply not_true_iff_false. now rewrite secret_eq_spec. Qed.

(** The walk over the table finds the entry of the credential. *)
Lemma walk_finds {A} (f : A) (l : list (string * A)) p x : NoDup l.*1 -> (p, x) ∈ l ->
  foldl (fun found kt => if secret_eq kt.1 p then kt.2 else found) f l = x.
Proof.
  revert f. induction l as [|[k t] l IH]; intros f Hn Hin; [now apply elem_of_nil in Hin|]. cbn [foldl fst snd].
  rewrite fmap_cons in Hn. apply NoDup_cons in Hn as [Hk Hn]. rewrite secret_eq_decide. apply elem_of_cons in Hin as [E|Hin].
  - injection E as -> ->. rewrite bool_decide_true by done. clear IH Hn. induction l as [|[k' t'] l IH]; [done|].
    cbn [foldl fst snd]. rewrite fmap_cons, not_elem_of_cons in Hk. rewrite secret_eq_decide, bool_decide_false by (cbn in Hk; intuition congruence).
    apply IH. apply Hk.
  - case_bool_decide; apply IH; done.
Qed.
Lemma walk_misses {A} (f : A) (l : list (string * A)) p : p ∉ l.*1 ->
  foldl (fun found kt => if secret_eq kt.1 p then kt.2 else found) f l = f.
Proof.
  induction l as [|[k t] l IH]; intros Hp; [done|]. rewrite fmap_cons, not_elem_of_cons in Hp. cbn [foldl fst snd].
  rewrite secret_eq_decide, bool_decide_false by (cbn in Hp; intuition congruence). now apply IH.
Qed.

(** The tier of a credential is its entry in the table, whatever the order of
    the walk. *)
Lemma tier_lookup k c : tier_for (Some k) c = default Anonymous (keys c !! k).
Proof.
  unfold tier_for. destruct (keys c !! k) as [t|] eqn:E; cbn [default].
  - apply walk_finds; [apply NoDup_fst_map_to_list|now apply elem_of_map_to_list].
  - apply walk_misses. intros ([k' t] & -> & Hin)%list_elem_of_fmap. apply elem_of_map_to_list in Hin. cbn in E. congruence.
Qed.

Lemma address_lookup k q : address_for k q = bindings q !! k.
Proof.
  unfold address_for. destruct (List.find _ _) as [[k' a]|] eqn:E; cbn [fmap option_fmap option_map snd].
  - apply List.find_some in E as [Hin Hk]. apply secret_eq_spec in Hk. cbn in Hk. subst.
    apply list_elem_of_In, elem_of_map_to_list in Hin. done.
  - destruct (bindings q !! k) as [a|] eqn:Hk; [|done]. apply elem_of_map_to_list, list_elem_of_In in Hk.
    apply (List.find_none _ _ E) in Hk. cbn in Hk. rewrite secret_eq_decide, bool_decide_true in Hk by done. discriminate.
Qed.

Lemma add_keys_lookup t ks m k : add_keys t ks m !! k =
  if decide (k ∈ ks /\ (16 <= slen k)%nat) then Some t else m !! k.
Proof.
  revert m. induction ks as [|a ks IH]; intros m.
  - cbn. rewrite decide_False; [done|]. intros [H _]. now apply elem_of_nil in H.
  - unfold add_keys. cbn [foldl]. fold (add_keys t ks (if Nat.leb 16 (slen a) then <[a := t]> m else m)). rewrite IH.
    destruct (decide (k ∈ ks /\ (16 <= slen k)%nat)) as [H|H].
    + rewrite decide_True; [done|]. split; [apply elem_of_cons; tauto|tauto].
    + destruct (Nat.leb_spec 16 (slen a)).
      * destruct (decide (k = a)) as [->|]; [rewrite lookup_insert_eq, decide_True; [done|split; [apply list_elem_of_here|done]]|].
        rewrite lookup_insert_ne by done. rewrite decide_False; [done|]. rewrite elem_of_cons. tauto.
      * rewrite decide_False; [done|]. rewrite elem_of_cons. intros [[->|?] ?]; [lia|tauto].
Qed.

Section facts.
Context {HC : Crypto}.

Lemma admin_needs_key ks aks auth proxy q c credential :
  keys c = keys (config_with_qos ks aks auth proxy q) -> tier_for credential c = Admin ->
  exists k, credential = Some k /\ k ∈ aks /\ (16 <= slen k)%nat.
Proof.
  intros Hk. destruct credential as [k|]; [|discriminate]. rewrite tier_lookup, Hk. cbn [keys config_with_qos]. rewrite add_keys_lookup.
  destruct (decide _) as [[H1 H2]|]; [intros _; now exists k|]. rewrite add_keys_lookup. destruct (decide _); cbn; [discriminate|].
  rewrite lookup_empty. discriminate.
Qed.

(** Operator methods fail closed.  Over HTTP and over a socket alike, a
    privileged method passes the gates only for a caller that presented one of
    the configured admin keys, of at least 16 bytes: a node without admin keys
    serves them to nobody. *)
Theorem privileged_needs_admin_key ks aks auth proxy q c now d ip credential method p call t
  (Hkeys : keys c = keys (config_with_qos ks aks auth proxy q)) (Hpriv : method ∈ PRIVILEGED_METHODS)
  (Hpass : (http_gate now d ip credential method p call c).1 = None \/
           (ws_open credential c = Ok t /\ exists c', (ws_gate now d ip t credential method p call c').1 = None)) :
  exists k, credential = Some k /\ k ∈ aks /\ (16 <= slen k)%nat.
Proof.
  apply (admin_needs_key ks aks auth proxy q c); [done|]. destruct Hpass as [H|[Ho [c' H]]].
  - unfold http_gate in H. destruct (_ && _); [discriminate|]. rewrite (bool_decide_true (method ∈ PRIVILEGED_METHODS)) in H by done.
    cbn [andb] in H. case_bool_decide; [done|discriminate].
  - unfold ws_open in Ho. destruct (_ && _); [discriminate|]. injection Ho as <-.
    unfold ws_gate in H. destruct (charge_weighted _ _ _ _ _ _ c') as [[] c1]; [|discriminate].
    rewrite (bool_decide_true (method ∈ PRIVILEGED_METHODS)) in H by done. cbn [andb] in H. case_bool_decide; [done|discriminate].
Qed.

(** Requiring authentication never closes the endpoint to everybody. *)
Lemma auth_never_bricks ks aks auth proxy q : let c := config_with_qos ks aks auth proxy q in
  require_auth c = true -> exists k, tier_for (Some k) c <> Anonymous.
Proof.
  cbn zeta. unfold config_with_qos. cbn [require_auth]. set (m := add_keys Admin aks _). intros [_ H]%andb_true_iff.
  apply negb_true_iff, bool_decide_eq_false in H. apply map_choose in H as (k & t & Hk). exists k. rewrite tier_lookup. cbn [keys].
  rewrite Hk. cbn. unfold m in Hk. rewrite !add_keys_lookup, lookup_empty in Hk. repeat case_decide; congruence.
Qed.

(** Anonymous traffic and keyed traffic spend from different tables. *)
Lemma budgets_apart now d ip t credential cost c : let c' := (charge_weighted now d ip t credential cost c).2 in
  (t = Anonymous -> keyed c' = keyed c) /\ (t <> Anonymous -> is_Some credential -> anon c' = anon c) /\ accounts c' = accounts c.
Proof.
  cbv zeta. unfold charge_weighted. destruct t.
  1: unfold charge; destruct (ip_allow_cost _ _ _ _); now split_and!.
  all: destruct (multiplier _ _ _ _) as [m q]; unfold charge; destruct credential as [k|];
    [destruct (key_allow_cost _ _ _ _)|destruct (ip_allow_cost _ _ _ _)]; split_and!; try done; intros _ [? ?]; discriminate.
Qed.

(** ** The stake multiplier *)

Lemma compare_swap x y : SpecFloat.SFcompare y x = option_map CompOpp (SpecFloat.SFcompare x y).
Proof.
  destruct x as [[]|[]| |[] m1 e1], y as [[]|[]| |[] m2 e2]; try reflexivity; cbn [SpecFloat.SFcompare option_map];
    rewrite (Z.compare_antisym e1 e2); destruct (e1 ?= e2)%Z; cbn [CompOpp]; try reflexivity;
    rewrite (Pos.compare_cont_antisym m1 m2); now destruct (Pos.compare_cont Eq m1 m2).
Qed.

Lemma not_lt_le x y : is_nan x = false -> is_nan y = false -> flt x y = false -> fle y x = true.
Proof.
  intros Hx Hy. unfold flt, fle, SpecFloat.SFltb, SpecFloat.SFleb. rewrite (compare_swap x y).
  destruct (SpecFloat.SFcompare x y) as [[]|] eqn:E; try done. exfalso. destruct x, y; done.
Qed.

Lemma clamp_bounds x : is_nan x = false -> fle ONE (clamp x ONE MAX_STAKE_MULTIPLIER) = true /\
  fle (clamp x ONE MAX_STAKE_MULTIPLIER) MAX_STAKE_MULTIPLIER = true.
Proof.
  intros Hx. unfold clamp. destruct (flt x ONE) eqn:E1; [split; reflexivity|].
  destruct (flt MAX_STAKE_MULTIPLIER x) eqn:E2; [split; reflexivity|]. split; now apply not_lt_le.
Qed.

(** Stake buys a bounded advantage.  Whatever the bindings, the cached total and
    the state, the divisor a keyed call's cost is charged with is at least one -
    a bound key is never worse off than an unbound one - and at most
    [MAX_STAKE_MULTIPLIER]; and a credential that is not bound gets exactly
    one. *)
Theorem multiplier_bounded now d credential q :
  let m := fmax (multiplier now d credential q).1 ONE in
  (fle ONE m = true /\ fle m MAX_STAKE_MULTIPLIER = true) /\
  ((forall k, credential = Some k -> bindings q !! k = None) -> m = ONE).
Proof.
  assert (forall x, (is_nan x = false -> fle ONE x = true /\ fle x MAX_STAKE_MULTIPLIER = true) ->
    fle ONE (fmax x ONE) = true /\ fle (fmax x ONE) MAX_STAKE_MULTIPLIER = true) as Hmax.
  { intros x Hx. unfold fmax. destruct (is_nan x); [split; reflexivity|]. change (is_nan ONE) with false. cbn iota.
    destruct (fle x ONE); [split; reflexivity|now apply Hx]. }
  assert (forall x, is_nan (clamp x ONE MAX_STAKE_MULTIPLIER) = false -> is_nan x = false) as Hc.
  { intros x. unfold clamp. now destruct x as [| | |]. }
  cbv zeta. split.
  - apply Hmax. unfold multiplier. case_bool_decide; [now split|].
    destruct (c ← credential; address_for c q) as [addr|]; [|now split].
    destruct (qos_total_staked now d q) as [total q']. destruct (total =? 0); [now split|].
    destruct (staked (account addr d) =? 0); [now split|]. cbn [fst]. intros Hn. now apply clamp_bounds, Hc.
  - intros Hk. unfold multiplier. case_bool_decide; [reflexivity|]. destruct credential as [k|]; [|reflexivity].
    cbn [mbind option_bind]. rewrite address_lookup, (Hk k) by done. reflexivity.
Qed.
End facts.

(** ** Examples *)
Module Access_example.
Import Toy.

Definition admin_key : string := "admin-key-0123456789".
Definition conf : RpcConfig := config_with_qos ["user-key-0123456789"] [admin_key] true false (qos_new []).
Definition caller : IpAddr := V4 1.
Definition none : Params := {| p_txs := None; p_hashes := None |}.

Lemma privileged_needs_admin_key_witness :
  (http_gate 0 ∅ caller (Some admin_key) "inaz_halt" none Other conf).1 = None /\
  exists k, Some admin_key = Some k /\ k ∈ [admin_key] /\ (16 <= slen k)%nat.
Proof.
  split; [vm_compute; reflexivity|].
  apply (privileged_needs_admin_key ["user-key-0123456789"] [admin_key] true false (qos_new []) conf 0 ∅ caller
    (Some admin_key) "inaz_halt" none Other Admin).
  - reflexivity.
  - vm_compute. right. left.
  - left. vm_compute. reflexivity.
Defined.

(** A node without keys refuses operator methods to everybody. *)
Lemma keyless_refuses : (http_gate 0 ∅ caller (Some admin_key) "inaz_halt" none Other config_public).1 = Some Admin_required.
Proof. vm_compute. reflexivity. Qed.

(** A bulk submission of 5,000 transactions costs the whole anonymous burst. *)
Lemma bulk_is_refused :
  (http_gate 0 ∅ caller None "inaz_sendTransactions" {| p_txs := Some 5000; p_hashes := None |} (Submit_batch []) config_public).1
    = Some Rate_limited.
Proof. vm_compute. reflexivity. Qed.
End Access_example.
