(* ===== verification/Ws.v ===== *)
(** ws.rs: the framing of the WebSocket endpoint.

    Client frames, the reassembly of fragmented messages, and the handshake
    digest (SHA-1 and base64, implemented in the file).  A socket is what still
    arrives on it: bytes, and the reads that time out in between, each with the
    idle time the loop would see.  [await_frame] and [await_socket] read that;
    [read_frame] and [socket] are what they come to when no read times out
    (WsFacts.await_socket_arrived).  The pump thread is in Wire.v; the request
    head, and what a message does once it is whole, are in Http.v. *)

From S2P Require Import Prelude Bytes Limits Access Transport.
From Stdlib Require Import Ascii.
From Stdlib Require String.

(* [src/src/ws.rs 31-33 MAX_FRAME_BYTES] *)
Definition MAX_FRAME_BYTES : N := 2 * 1024 * 1024.
(* [src/src/ws.rs 29-29! WS_GUID] *)
Definition WS_GUID : string := "258EAFA5-E914-47DA-95CA-C5AB0DC85B11".

Definition byte_at (s : string) (i : nat) : N := match String.get i s with Some c => N_of_ascii c | None => 0 end.

(** ** Frames *)

(* [src/src/ws.rs 342-346 Frame] *)
Record Frame := { opcode : N; payload : string; fin : bool }.

(** What a read of the socket meets: a byte, a read that timed out while [since]
    milliseconds have passed since the last frame, or an error.  Past the end of
    the list the peer has closed. *)
Inductive Arrival := Arrived (c : ascii) | Lull (since : N) | Broken (e : string).

(** The loop that fills a buffer of which [n] bytes are missing.  A timeout ends
    it only while nothing has been read. *)
Fixpoint await (n : nat) (started : bool) (s : list Arrival) : result (option string * list Arrival) :=
  match n with
  | O => Ok (Some "", s)
  | S m =>
    match s with
    | [] => Err ""
    | Broken e :: _ => Err e
    | Lull _ :: s => if started then await n true s else Ok (None, s)
    | Arrived c :: s => '(r, s) ← await m true s; Ok (option_map (String c) r, s)
    end
  end.
(* [src/src/ws.rs 348-365 read_exact] *)
Definition await_exact (n : nat) (s : list Arrival) : result (option string * list Arrival) := await n false s.
(** [read_exact(stream, n)?.ok_or_else(String::new)?] *)
Definition await_more (n : nat) (s : list Arrival) : result (string * list Arrival) :=
  '(b, s) ← await_exact n s; b ← ok_or b ""; Ok (b, s).

(** The same when the bytes are there; the end of the stream is the empty error. *)
Definition ws_read (n : nat) (s : string) : result (string * string) := ok_or (take_bytes n s) "".

(** [*b ^= mask[i % 4]] over the payload, from position [i]. *)
Fixpoint unmask (mask : string) (i : nat) (s : string) : string :=
  match s with
  | "" => ""
  | String c s => String (ascii_of_N (N.lxor (N_of_ascii c) (byte_at mask (i mod 4)))) (unmask mask (S i) s)
  end.

(** The length field: seven bits, or two or eight bytes more. *)
(* [src/src/ws.rs 373-387! read_frame] *)
Definition await_length (len7 : N) (s : list Arrival) : result (N * list Arrival) :=
  if len7 =? 126 then '(b, s) ← await_more 2 s; Ok (from_be_bytes b, s)
  else if len7 =? 127 then '(b, s) ← await_more 8 s; Ok (from_be_bytes b, s)
  else Ok (len7, s).
Definition read_length (len7 : N) (s : string) : result (N * string) :=
  if len7 =? 126 then '(b, s) ← ws_read 2 s; Ok (from_be_bytes b, s)
  else if len7 =? 127 then '(b, s) ← ws_read 8 s; Ok (from_be_bytes b, s)
  else Ok (len7, s).

Definition frame_of (b0 : N) (mask payload : string) : Frame :=
  {| opcode := N.land b0 15; payload := unmask mask 0 payload; fin := negb (N.land b0 128 =? 0) |}.

(** No frame when the read of its first two bytes timed out; a timeout before
    any later field is an error. *)
(* [src/src/ws.rs 367-410 read_frame] *)
Definition await_frame (s : list Arrival) : result (option Frame * list Arrival) :=
  '(head, s) ← await_exact 2 s;
  match head with
  | None => Ok (None, s)
  | Some head =>
    let b0 := byte_at head 0 in
    let b1 := byte_at head 1 in
    '(len, s) ← await_length (N.land b1 127) s;
    if MAX_FRAME_BYTES <? len then Err "frame too large"
    else if N.land b1 128 =? 0 then Err "client frames must be masked"
    else
      '(mask, s) ← await_more 4 s;
      '(payload, s) ← (if len =? 0 then Ok ("", s) else await_more (N.to_nat len) s);
      Ok (Some (frame_of b0 mask payload), s)
  end.
Definition read_frame (s : string) : result (Frame * string) :=
  '(head, s) ← ws_read 2 s;
  let b0 := byte_at head 0 in
  let b1 := byte_at head 1 in
  '(len, s) ← read_length (N.land b1 127) s;
  if MAX_FRAME_BYTES <? len then Err "frame too large"
  else if N.land b1 128 =? 0 then Err "client frames must be masked"
  else
    '(mask, s) ← ws_read 4 s;
    '(payload, s) ← (if len =? 0 then Ok ("", s) else ws_read (N.to_nat len) s);
    Ok (frame_of b0 mask payload, s).

(* [src/src/ws.rs 412-430 send] *)
Definition send (op : N) (payload : string) : string :=
  let n := N.of_nat (slen payload) in
  String (byte (N.lor 128 op))
    ((if n <? 126 then String (byte n) ""
      else if n <=? 65535 then String (byte 126) (to_be_bytes 2 n)
      else String (byte 127) (to_be_bytes 8 n)) +:+ payload).

(** ** Messages *)

(** What the socket loop does with one frame, given the fragments so far: it
    closes, answers a ping, waits, or has a whole message. *)
Inductive Step := Close | Fail (e : string) | Pong (payload : string) (fragment : string) | Wait (fragment : string) | Whole (text : string).

(* [src/src/ws.rs 214-248! handle] *)
Definition on_frame (fragment : string) (f : Frame) : Step :=
  if opcode f =? 8 then Close
  else if opcode f =? 9 then Pong (payload f) fragment
  else if opcode f =? 10 then Wait fragment
  else if opcode f =? 2 then Fail "binary frames are not accepted"
  else if (opcode f =? 0) || (opcode f =? 1) then
    let fragment := fragment +:+ payload f in
    if MAX_FRAME_BYTES <? N.of_nat (slen fragment) then Fail "message too large"
    else if negb (fin f) then Wait fragment
    else Whole fragment
  else Fail "unsupported frame".

(** What the loop hands on: a whole message for the dispatcher, or bytes sent
    back on its own account. *)
Inductive Out := Delivered (text : string) | Sent (bytes : string).

(* [src/src/ws.rs 37-37! IDLE_TIMEOUT] *)
Definition IDLE_TIMEOUT : N := 120 * 1000.
Definition idle_for (s : list Arrival) : N := match s with Lull since :: _ => since | _ => 0 end.

(** The loop over what arrives on a socket: what it hands on, and how it ends.
    [None] is out of fuel.  A message whose reply cannot be written ends the
    loop in the code; here every write succeeds. *)
(* [src/src/ws.rs 201-257! handle] *)
Fixpoint await_socket (fuel : nat) (fragment : string) (s : list Arrival) : option (list Out * result unit) :=
  match fuel with
  | O => None
  | S fuel =>
    match await_frame s with
    | Err e => Some ([], Err e)
    | Ok (None, rest) => if IDLE_TIMEOUT <? idle_for s then Some ([], Err "idle timeout") else await_socket fuel fragment rest
    | Ok (Some f, s) =>
      match on_frame fragment f with
      | Close => Some ([], Ok ())
      | Fail e => Some ([], Err e)
      | Pong p fragment => '(outs, r) ← await_socket fuel fragment s; Some (Sent (send 10 p) :: outs, r)
      | Wait fragment => await_socket fuel fragment s
      | Whole t => '(outs, r) ← await_socket fuel "" s; Some (Delivered t :: outs, r)
      end
    end
  end.
Fixpoint socket (fuel : nat) (fragment s : string) : option (list Out * result unit) :=
  match fuel with
  | O => None
  | S fuel =>
    match read_frame s with
    | Err e => Some ([], Err e)
    | Ok (f, s) =>
      match on_frame fragment f with
      | Close => Some ([], Ok ())
      | Fail e => Some ([], Err e)
      | Pong p fragment => '(outs, r) ← socket fuel fragment s; Some (Sent (send 10 p) :: outs, r)
      | Wait fragment => socket fuel fragment s
      | Whole t => '(outs, r) ← socket fuel "" s; Some (Delivered t :: outs, r)
      end
    end
  end.

(** ** The handshake digest *)

Definition add32 (a b : N) : N := wrap 32 (a + b).
Definition rotl32 (k x : N) : N := N.lor (wrap 32 (N.shiftl x k)) (N.shiftr x (32 - k)).
Definition not32 (x : N) : N := N.lxor x 4294967295.

(** [while msg.len() % 64 != 56 { msg.push(0) }] *)
Definition pad_zeros (len : nat) : nat := ((56 + 64 - len mod 64) mod 64)%nat.
Definition sha1_pad (data : string) : string :=
  data +:+ String (byte 128) "" +:+ zeros (pad_zeros (slen data + 1)) +:+ to_be_bytes 8 (wrap 64 (N.of_nat (slen data) * 8)).

(** The schedule of a block: sixteen words, then the recurrence; newest first. *)
Fixpoint first_words (n : nat) (block : string) : list N :=
  match n with
  | O => []
  | S n => match take_bytes 4 block with Some (w, r) => from_be_bytes w :: first_words n r | None => [] end
  end.
Definition next_w (newest : list N) : N :=
  rotl32 1 (N.lxor (N.lxor (nth 2 newest 0) (nth 7 newest 0)) (N.lxor (nth 13 newest 0) (nth 15 newest 0))).
Fixpoint extend (n : nat) (newest : list N) : list N :=
  match n with O => newest | S n => extend n (next_w newest :: newest) end.
Definition schedule (block : string) : list N := rev (extend 64 (rev (first_words 16 block))).

Definition Regs : Type := N * N * N * N * N.
Definition sha1_round (i : nat) (w : N) (r : Regs) : Regs :=
  let '(a, b, c, d, e) := r in
  let '(f, k) :=
    if Nat.ltb i 20 then (N.lor (N.land b c) (N.land (not32 b) d), 1518500249)
    else if Nat.ltb i 40 then (N.lxor (N.lxor b c) d, 1859775393)
    else if Nat.ltb i 60 then (N.lor (N.lor (N.land b c) (N.land b d)) (N.land c d), 2400959708)
    else (N.lxor (N.lxor b c) d, 3395469782) in
  (add32 (add32 (add32 (add32 (rotl32 5 a) f) e) k) w, a, rotl32 30 b, c, d).
Fixpoint sha1_rounds (i : nat) (ws : list N) (r : Regs) : Regs :=
  match ws with [] => r | w :: ws => sha1_rounds (S i) ws (sha1_round i w r) end.
Definition sha1_block (h : Regs) (block : string) : Regs :=
  let '(a, b, c, d, e) := sha1_rounds 0 (schedule block) h in
  let '(h0, h1, h2, h3, h4) := h in
  (add32 h0 a, add32 h1 b, add32 h2 c, add32 h3 d, add32 h4 e).
Fixpoint sha1_blocks (n : nat) (msg : string) (h : Regs) : Regs :=
  match n with
  | O => h
  | S n => match take_bytes 64 msg with Some (b, r) => sha1_blocks n r (sha1_block h b) | None => h end
  end.

(* [src/src/ws.rs 456-509 sha1] *)
Definition sha1 (data : string) : string :=
  let msg := sha1_pad data in
  let '(a, b, c, d, e) := sha1_blocks (slen msg / 64) msg (1732584193, 4023233417, 2562383102, 271733878, 3285377520) in
  to_be_bytes 4 a +:+ to_be_bytes 4 b +:+ to_be_bytes 4 c +:+ to_be_bytes 4 d +:+ to_be_bytes 4 e.

Definition b64_table : string := "ABCDEFGHIJKLMNOPQRSTUVWXYZabcdefghijklmnopqrstuvwxyz0123456789+/".
Definition b64_char (v : N) : ascii := ascii_of_N (byte_at b64_table (N.to_nat v)).
Definition b64_group (x y z : N) : N := N.lor (N.lor (N.shiftl x 16) (N.shiftl y 8)) z.
Definition sextet (n k : N) : ascii := b64_char (N.land (N.shiftr n k) 63).

(* [src/src/ws.rs 511-536 b64] *)
Fixpoint b64 (s : string) : string :=
  match s with
  | "" => ""
  | String x "" =>
    let n := b64_group (N_of_ascii x) 0 0 in
    String (sextet n 18) (String (sextet n 12) "==")
  | String x (String y "") =>
    let n := b64_group (N_of_ascii x) (N_of_ascii y) 0 in
    String (sextet n 18) (String (sextet n 12) (String (sextet n 6) "="))
  | String x (String y (String z s)) =>
    let n := b64_group (N_of_ascii x) (N_of_ascii y) (N_of_ascii z) in
    String (sextet n 18) (String (sextet n 12) (String (sextet n 6) (String (sextet n 0) (b64 s))))
  end.

(* [src/src/ws.rs 160-160! handle] *)
Definition accept_key (key : string) : string := b64 (sha1 (trim key +:+ WS_GUID)).

(** The worked example of RFC 6455, section 1.3. *)
Lemma handshake_matches_the_rfc : accept_key "dGhlIHNhbXBsZSBub25jZQ==" = "s3pPLMBiTxaQ9kYGzzhZRbK+xOo=".
Proof. vm_compute. reflexivity. Qed.
