(* ===== verification/WsFacts.v ===== *)
(** The WebSocket endpoint: frames are read exactly as a reference encoder writes
    them, however slowly their fields come, messages survive any fragmentation,
    what the node sends a reference decoder reads back, and the buffers stay
    bounded. *)

From S2P Require Import Prelude Bytes Limits Access Transport Ws.
From Stdlib Require Import Ascii.
From Stdlib Require String.

(** ** Bytes and bits *)

(** A check of every byte decides a statement about all of them. *)
Lemma every_byte (P : N -> bool) : forallb P (map N.of_nat (List.seq 0 256)) = true -> forall b, b < 256 -> P b = true.
Proof.
  intros H b Hb. rewrite List.forallb_forall in H. apply H. apply List.in_map_iff. exists (N.to_nat b).
  split; [lia|]. apply List.in_seq. lia.
Qed.

Lemma top_bit b : b < 256 -> (N.land b 128 =? 0) = (b <? 128).
Proof. intros Hb. apply Bool.eqb_prop. revert b Hb. apply every_byte. vm_compute. reflexivity. Qed.
Lemma low_nibble b : N.land b 15 = b mod 16.
Proof. change 15 with (N.ones 4). now rewrite N.land_ones. Qed.
Lemma low_seven b : N.land b 127 = b mod 128.
Proof. change 127 with (N.ones 7). now rewrite N.land_ones. Qed.
Lemma low_six b : N.land b 63 = b mod 64.
Proof. change 63 with (N.ones 6). now rewrite N.land_ones. Qed.

Lemma byte_at_bound s i : byte_at s i < 256.
Proof. unfold byte_at. destruct (String.get i s); [apply N_ascii_bounded|lia]. Qed.

(** A fixed-width integer is written back to the bytes it was read from. *)
Lemma from_be_acc_low s : forall acc, acc * 256 ^ N.of_nat (slen s) <= from_be_acc acc s.
Proof.
  induction s as [|c s IH]; intros acc; cbn [from_be_acc slen]; [cbn; lia|]. etransitivity; [|apply IH].
  rewrite Nat2N.inj_succ, N.pow_succ_r by lia. rewrite N.mul_assoc. apply N.mul_le_mono_r. lia.
Qed.
Lemma to_from_be_acc s : forall acc, to_be_bytes (slen s) (from_be_acc acc s) = s.
Proof.
  induction s as [|c s IH]; intros acc; [done|]. cbn [from_be_acc slen to_be_bytes]. rewrite IH. f_equal.
  assert (from_be_acc (acc * 256 + N_of_ascii c) s / 256 ^ N.of_nat (slen s) = acc * 256 + N_of_ascii c) as ->.
  { symmetry. apply (N.div_unique _ _ _ (from_be_acc (acc * 256 + N_of_ascii c) s - (acc * 256 + N_of_ascii c) * 256 ^ N.of_nat (slen s)));
    pose proof (from_be_acc_low s (acc * 256 + N_of_ascii c)); pose proof (from_be_acc_bound s (acc * 256 + N_of_ascii c)); nia. }
  unfold byte. rewrite N.add_comm, N.Div0.mod_add, N.mod_small by apply N_ascii_bounded. apply ascii_N_embedding.
Qed.
Lemma to_from_be n s : slen s = n -> to_be_bytes n (from_be_bytes s) = s.
Proof. intros <-. apply to_from_be_acc. Qed.

Lemma lxor_byte a b : a < 256 -> b < 256 -> N.lxor a b < 256.
Proof.
  intros Ha Hb. assert (N.lxor a b = N.lxor a b mod 2 ^ 8) as ->; [|apply N.mod_lt; done].
  apply N.bits_inj. intros i. destruct (N.lt_ge_cases i 8) as [Hi|Hi].
  - now rewrite N.mod_pow2_bits_low.
  - rewrite N.mod_pow2_bits_high, N.lxor_spec by done.
    rewrite <- (N.mod_small a (2 ^ 8)), <- (N.mod_small b (2 ^ 8)) by done. now rewrite !N.mod_pow2_bits_high.
Qed.

(** Masking twice with the same key gives the payload back. *)
Lemma unmask_unmask mask i s : unmask mask i (unmask mask i s) = s.
Proof.
  revert i. induction s as [|c s IH]; intros i; [done|]. cbn [unmask]. rewrite IH. f_equal.
  rewrite N_ascii_embedding by (apply lxor_byte; [apply N_ascii_bounded|apply byte_at_bound]).
  rewrite N.lxor_assoc, N.lxor_nilpotent, N.lxor_0_r. apply ascii_N_embedding.
Qed.
Lemma slen_unmask mask i s : slen (unmask mask i s) = slen s.
Proof. revert i. induction s as [|c s IH]; intros i; [done|]. cbn. now rewrite IH. Qed.

(** ** A reference client *)

(** The three encodings of a length. *)
Inductive LenForm := Short | Mid | Long.
Definition form_fits (l : LenForm) (n : N) : bool :=
  match l with Short => n <? 126 | Mid => n <? 2 ^ 16 | Long => n <? 2 ^ 64 end.
Definition len_code (l : LenForm) (n : N) : N := match l with Short => n | Mid => 126 | Long => 127 end.
Definition len_bytes (l : LenForm) (n : N) : string :=
  match l with Short => "" | Mid => to_be_bytes 2 n | Long => to_be_bytes 8 n end.

(** How a frame is written: the reserved bits, the form of the length, the mask. *)
Record Wire := { w_frame : Frame; w_rsv : N; w_form : LenForm; w_mask : string }.
Definition wire_ok (w : Wire) : bool :=
  (opcode (w_frame w) <? 16) && (w_rsv w <? 8) && Nat.eqb (slen (w_mask w)) 4 &&
  form_fits (w_form w) (N.of_nat (slen (payload (w_frame w)))).
(** The two first bytes of a frame, and its four fields. *)
Definition wire_head (w : Wire) : string :=
  let f := w_frame w in
  String (byte ((if fin f then 128 else 0) + w_rsv w * 16 + opcode f))
    (String (byte (128 + len_code (w_form w) (N.of_nat (slen (payload f))))) "").
Definition fields (w : Wire) : list string :=
  [wire_head w; len_bytes (w_form w) (N.of_nat (slen (payload (w_frame w)))); w_mask w; unmask (w_mask w) 0 (payload (w_frame w))].
Definition wire (w : Wire) : string :=
  let f := w_frame w in
  let n := N.of_nat (slen (payload f)) in
  String (byte ((if fin f then 128 else 0) + w_rsv w * 16 + opcode f))
    (String (byte (128 + len_code (w_form w) n))
      (len_bytes (w_form w) n +:+ w_mask w +:+ unmask (w_mask w) 0 (payload f))).

Lemma ws_read_app n a b : slen a = n -> ws_read n (a +:+ b) = Ok (a, b).
Proof. intros H. unfold ws_read. now rewrite take_bytes_len. Qed.
Lemma ws_read_inv n s a r : ws_read n s = Ok (a, r) -> s = a +:+ r /\ slen a = n.
Proof. unfold ws_read. destruct (take_bytes n s) as [[a' r']|] eqn:E; [|discriminate]. cbn. intros [= -> ->]. now apply take_bytes_split. Qed.

Lemma read_length_wire l n s : form_fits l n = true -> read_length (len_code l n) (len_bytes l n +:+ s) = Ok (n, s).
Proof.
  destruct l; cbn [form_fits len_code len_bytes]; rewrite N.ltb_lt; intros Hn; unfold read_length.
  - destruct (N.eqb_spec n 126), (N.eqb_spec n 127); try lia. done.
  - rewrite N.eqb_refl, ws_read_app by apply slen_be. cbn [mbind result_bind]. now rewrite from_to_be by done.
  - change (127 =? 126) with false. rewrite N.eqb_refl, ws_read_app by apply slen_be. cbn [mbind result_bind]. now rewrite from_to_be by done.
Qed.
Lemma read_length_inv c s n r : c < 128 -> read_length c s = Ok (n, r) ->
  exists l, form_fits l n = true /\ c = len_code l n /\ s = len_bytes l n +:+ r.
Proof.
  intros Hc. unfold read_length. destruct (N.eqb_spec c 126) as [->|H6]; [|destruct (N.eqb_spec c 127) as [->|H7]].
  - destruct (ws_read 2 s) as [[b s']|] eqn:E; [|discriminate]. cbn [mbind result_bind]. intros [= <- <-].
    apply ws_read_inv in E as [-> Hb]. exists Mid. pose proof (from_be_bytes_bound b) as Hn. rewrite Hb in Hn.
    split; [now apply N.ltb_lt|]. split; [done|]. cbn [len_bytes]. now rewrite to_from_be.
  - destruct (ws_read 8 s) as [[b s']|] eqn:E; [|discriminate]. cbn [mbind result_bind]. intros [= <- <-].
    apply ws_read_inv in E as [-> Hb]. exists Long. pose proof (from_be_bytes_bound b) as Hn. rewrite Hb in Hn.
    split; [now apply N.ltb_lt|]. split; [done|]. cbn [len_bytes]. now rewrite to_from_be.
  - intros [= <- <-]. exists Short. cbn. rewrite N.ltb_lt. repeat split; lia.
Qed.

(** ** Frames *)

Lemma byte_at_head a b i : byte_at (String a (String b "")) i = match i with O => N_of_ascii a | 1%nat => N_of_ascii b | _ => 0 end.
Proof. now destruct i as [|[|[|i]]]. Qed.

Lemma len_code_bound l n : form_fits l n = true -> len_code l n < 128.
Proof. destruct l; cbn; rewrite N.ltb_lt; lia. Qed.

(** What the code computes from the two first bytes of a frame. *)
Lemma head_reads w : wire_ok w = true -> let h := wire_head w in
  N.land (byte_at h 1) 127 = len_code (w_form w) (N.of_nat (slen (payload (w_frame w)))) /\
  (N.land (byte_at h 1) 128 =? 0) = false /\
  N.land (byte_at h 0) 15 = opcode (w_frame w) /\ negb (N.land (byte_at h 0) 128 =? 0) = fin (w_frame w).
Proof.
  destruct w as [[op p fn] rsv form mask]. unfold wire_ok, wire_head. cbn [w_frame w_rsv w_form w_mask opcode payload fin].
  rewrite !andb_true_iff, !N.ltb_lt, Nat.eqb_eq. intros [[[Hop Hr] Hm] Hf]. pose proof (len_code_bound _ _ Hf) as Hc.
  set (n := N.of_nat (slen p)) in *. set (x := (if fn then 128 else 0) + rsv * 16 + op). assert (x < 256) as Hx by (unfold x; destruct fn; lia).
  cbv zeta. rewrite !byte_at_head, !N_of_byte, (N.mod_small x), (N.mod_small (128 + _)) by lia. rewrite low_seven, low_nibble, !top_bit by lia.
  split; [rewrite N.add_comm; change 128 with (1 * 128) at 1; rewrite N.Div0.mod_add, N.mod_small; done|].
  split; [destruct (N.ltb_spec (128 + len_code form n) 128); (done || lia)|]. split.
  - unfold x. replace ((if fn then 128 else 0) + rsv * 16 + op) with (op + ((if fn then 8 else 0) + rsv) * 16) by (destruct fn; lia).
    rewrite N.Div0.mod_add, N.mod_small; done.
  - unfold x. destruct fn; [destruct (N.ltb_spec (128 + rsv * 16 + op) 128)|destruct (N.ltb_spec (0 + rsv * 16 + op) 128)]; (done || lia).
Qed.
Lemma frame_of_wire w : wire_ok w = true ->
  frame_of (byte_at (wire_head w) 0) (w_mask w) (unmask (w_mask w) 0 (payload (w_frame w))) = w_frame w.
Proof. intros Hw. destruct (head_reads w Hw) as (_ & _ & H3 & H4). unfold frame_of. rewrite unmask_unmask, H3, H4. now destruct (w_frame w). Qed.
(** Four fields the code accepts are those of a frame. *)
Lemma fields_of_frame a b l n mask p : form_fits l n = true -> N.of_nat (slen p) = n -> slen mask = 4%nat ->
  N_of_ascii b mod 128 = len_code l n -> 128 <= N_of_ascii b ->
  exists w, w_frame w = frame_of (N_of_ascii a) mask p /\ wire_ok w = true /\ fields w = [String a (String b ""); len_bytes l n; mask; p].
Proof.
  intros Hf Hp Hm Hy Hb. pose proof (N_ascii_bounded a) as Ha. pose proof (N_ascii_bounded b) as Hb'.
  set (x := N_of_ascii a) in *. set (y := N_of_ascii b) in *.
  exists {| w_frame := frame_of x mask p; w_rsv := (x / 16) mod 8; w_form := l; w_mask := mask |}.
  unfold wire_ok, fields, wire_head, frame_of. cbn [w_frame w_rsv w_form w_mask opcode payload fin]. rewrite slen_unmask, Hp, unmask_unmask, low_nibble.
  split; [done|]. split; [rewrite Hm, Hf, !andb_true_iff, !N.ltb_lt; repeat split; now apply N.mod_lt|].
  assert (byte ((if negb (N.land x 128 =? 0) then 128 else 0) + (x / 16) mod 8 * 16 + x mod 16) = a) as ->.
  { rewrite <- (ascii_N_embedding a). fold x. unfold byte. f_equal. revert Ha. generalize x. clear. intros x Ha.
    apply N.eqb_eq. revert x Ha. apply every_byte. vm_compute. reflexivity. }
  assert (byte (128 + len_code l n) = b) as ->; [|done].
  rewrite <- Hy. rewrite <- (ascii_N_embedding b). fold y. unfold byte. f_equal.
  pose proof (N.Div0.div_mod y 128). assert (y / 128 = 1) by (symmetry; apply (N.div_unique _ _ _ (y - 128)); lia).
  rewrite N.mod_small; lia.
Qed.
Lemma wire_fields w : wire w = wire_head w +:+ len_bytes (w_form w) (N.of_nat (slen (payload (w_frame w)))) +:+ w_mask w +:+ unmask (w_mask w) 0 (payload (w_frame w)).
Proof. reflexivity. Qed.
Lemma two_bytes h : slen h = 2%nat -> exists a b, h = String a (String b "").
Proof. destruct h as [|a [|b [|]]]; try discriminate. eauto. Qed.

Lemma read_frame_wire w rest : wire_ok w = true -> N.of_nat (slen (payload (w_frame w))) <= MAX_FRAME_BYTES ->
  read_frame (wire w +:+ rest) = Ok (w_frame w, rest).
Proof.
  intros Hw Hlen. destruct (head_reads w Hw) as (H1 & H2 & _). pose proof (frame_of_wire w Hw) as Hfr. rewrite wire_fields, <- !append_assoc.
  unfold wire_ok in Hw. rewrite !andb_true_iff, Nat.eqb_eq in Hw. destruct Hw as [[_ Hm] Hf]. set (n := N.of_nat (slen (payload (w_frame w)))) in *.
  unfold read_frame. rewrite ws_read_app by done. cbn [mbind result_bind]. cbv zeta. rewrite H1, H2, read_length_wire by done. cbn [mbind result_bind].
  destruct (N.ltb_spec MAX_FRAME_BYTES n); [lia|]. rewrite ws_read_app by done. cbn [mbind result_bind].
  assert (forall u, slen u = slen (payload (w_frame w)) -> (if n =? 0 then Ok ("", u +:+ rest) else ws_read (N.to_nat n) (u +:+ rest)) = Ok (u, rest)) as Hu.
  { intros u Hu. destruct (N.eqb_spec n 0) as [Hz|]; [destruct u; [done|unfold n in Hz; cbn in Hu; lia]|]. apply ws_read_app. unfold n. lia. }
  rewrite Hu by apply slen_unmask. cbn [mbind result_bind]. now rewrite Hfr.
Qed.

(** Only written frames are read. *)
Lemma read_frame_inv s f rest : read_frame s = Ok (f, rest) ->
  exists w, w_frame w = f /\ wire_ok w = true /\ N.of_nat (slen (payload f)) <= MAX_FRAME_BYTES /\ s = wire w +:+ rest.
Proof.
  unfold read_frame. destruct (ws_read 2 s) as [[h s1]|] eqn:E; [|discriminate]. cbn [mbind result_bind]. cbv zeta.
  apply ws_read_inv in E as [-> Hh]. apply two_bytes in Hh as (a & b & ->). rewrite !byte_at_head.
  rewrite low_seven. destruct (read_length (N_of_ascii b mod 128) s1) as [[n s2]|] eqn:E; [|discriminate]. cbn [mbind result_bind].
  apply read_length_inv in E as (l & Hf & Hy & ->); [|now apply N.mod_lt].
  destruct (N.ltb_spec MAX_FRAME_BYTES n); [discriminate|]. rewrite top_bit by apply N_ascii_bounded. destruct (N.ltb_spec (N_of_ascii b) 128); [discriminate|].
  destruct (ws_read 4 s2) as [[mask s3]|] eqn:E; [|discriminate]. cbn [mbind result_bind]. apply ws_read_inv in E as [-> Hm].
  destruct (if n =? 0 then Ok ("", s3) else ws_read (N.to_nat n) s3) as [[p s4]|] eqn:E; [|discriminate]. cbn [mbind result_bind].
  assert (s3 = p +:+ s4 /\ N.of_nat (slen p) = n) as [-> Hp].
  { destruct (N.eqb_spec n 0) as [->|]; [injection E as <- <-; done|]. apply ws_read_inv in E as [-> Hp]. split; [done|]. rewrite Hp. lia. }
  intros E'. apply (f_equal (fun r => match r with Ok v => Some v | Err _ => None end)) in E'. apply (inj Some), pair_equal_spec in E' as [<- <-].
  destruct (fields_of_frame a b l n mask p) as (w & H1 & H2 & H3); [done..|]. exists w. split; [exact H1|]. split; [exact H2|].
  split; [unfold frame_of; cbn [payload]; rewrite slen_unmask; lia|]. apply (f_equal (fun x => match x with [h; k; m; q] => h +:+ k +:+ m +:+ q | _ => "" end)) in H3.
  change (wire w = String a (String b "") +:+ len_bytes l n +:+ mask +:+ p) in H3. rewrite H3. now rewrite <- !append_assoc.
Qed.

(** ** Frames as they arrive *)

(** The bytes [b] come from [s], which leaves [r]: the first at once, the others
    after any number of reads that timed out. *)
Inductive trickles : string -> list Arrival -> list Arrival -> Prop :=
| trickle_done s : trickles "" s s
| trickle_byte c b s r : trickles b s r -> trickles (String c b) (Arrived c :: s) r
| trickle_lull e c b s r : trickles (String c b) s r -> trickles (String c b) (Lull e :: s) r.
Definition comes (b : string) (s r : list Arrival) : Prop :=
  match b with "" => s = r | String c b => exists s', s = Arrived c :: s' /\ trickles b s' r end.
Fixpoint all_come (bs : list string) (s r : list Arrival) : Prop :=
  match bs with [] => s = r | b :: bs => exists s', comes b s s' /\ all_come bs s' r end.

Lemma await_trickles s : forall n b r, await n true s = Ok (Some b, r) <-> slen b = n /\ trickles b s r.
Proof.
  induction s as [|[c|e|e] s IH]; intros [|n] b r; cbn [await].
  1,3,5,7: split; [intros [= <- <-]; split; [done|constructor]|intros [Hl H]; destruct b; [now inversion H|discriminate Hl]].
  1,4: split; [discriminate|intros [Hl H]; destruct b; [discriminate Hl|inversion H]].
  - destruct (await n true s) as [[[b'|] r']|e] eqn:E; cbn [mbind result_bind option_map].
    + apply IH in E as [Hl Ht]. split; [intros [= <- <-]; split; [cbn; now rewrite Hl|now constructor]|].
      intros [Hl' H]. inversion H; subst; [discriminate Hl'|]. assert (await (slen b') true s = Ok (Some b0, r)) as E by (apply IH; split; [now injection Hl'|done]).
      assert (await (slen b') true s = Ok (Some b', r')) as E' by now apply IH. congruence.
    + split; [discriminate|]. intros [Hl' H]. inversion H; subst; [discriminate Hl'|].
      assert (await n true s = Ok (Some b0, r)) as E' by (apply IH; split; [now injection Hl'|done]). congruence.
    + split; [discriminate|]. intros [Hl' H]. inversion H; subst; [discriminate Hl'|].
      assert (await n true s = Ok (Some b0, r)) as E' by (apply IH; split; [now injection Hl'|done]). congruence.
  - rewrite IH. split; intros [Hl H]; (split; [exact Hl|]); [destruct b; [discriminate Hl|now constructor]|].
    inversion H; subst; [discriminate Hl|done].
Qed.
Lemma await_comes n b s r : await_exact n s = Ok (Some b, r) <-> slen b = n /\ comes b s r.
Proof.
  unfold await_exact. destruct n as [|n]; [destruct s; cbn [await]; (split; [intros [= <- <-]; done|intros [Hl H]; destruct b; [now rewrite H|discriminate Hl]])|].
  destruct s as [|[c|e|e] s]; cbn [await].
  1,3,4: split; [discriminate|intros [Hl H]; destruct b; [discriminate Hl|]; now destruct H as (s' & [=] & _)].
  pose proof (await_trickles s n) as H. destruct (await n true s) as [[[b'|] r']|e] eqn:E; cbn [mbind result_bind option_map].
  - destruct (proj1 (H b' r') eq_refl) as [Hl Ht]. split; [intros [= <- <-]; split; [cbn; now rewrite Hl|]; eexists; split; [done|exact Ht]|].
    intros [Hl' Hc]. destruct b as [|c' b]; [discriminate Hl'|]. destruct Hc as (s' & [= <- <-] & Ht').
    assert (Ok (Some b', r') = Ok (Some b, r)) as [= -> ->]; [|done]. apply H. split; [now injection Hl'|done].
  - split; [discriminate|]. intros [Hl' Hc]. destruct b as [|c' b]; [discriminate Hl'|]. destruct Hc as (s' & [= <- <-] & Ht').
    now assert (Ok (None, r') = Ok (Some b, r)) by (apply H; split; [now injection Hl'|done]).
  - split; [discriminate|]. intros [Hl' Hc]. destruct b as [|c' b]; [discriminate Hl'|]. destruct Hc as (s' & [= <- <-] & Ht').
    now assert (Err e = Ok (Some b, r)) by (apply H; split; [now injection Hl'|done]).
Qed.
Lemma await_more_comes n b s r : await_more n s = Ok (b, r) <-> slen b = n /\ comes b s r.
Proof.
  rewrite <- await_comes. unfold await_more. destruct (await_exact n s) as [[[b'|] r']|e]; cbn [mbind result_bind ok_or]; split; intros H; congruence.
Qed.
(** A read gives up only at its first byte. *)
Lemma await_started s : forall n b r, await n true s = Ok (b, r) -> is_Some b.
Proof.
  induction s as [|[c|e|e] s IH]; intros [|n] b r; cbn [await]; try discriminate; try (intros [= <- <-]; eauto); [|apply IH].
  destruct (await n true s) as [[b' r']|] eqn:E; [|discriminate]. cbn [mbind result_bind]. intros [= <- <-]. destruct (IH _ _ _ E) as [x ->]. cbn. eauto.
Qed.
Lemma await_gives_up n s r : await_exact (S n) s = Ok (None, r) <-> exists e, s = Lull e :: r.
Proof.
  unfold await_exact. destruct s as [|[c|e|e] s]; cbn [await].
  - split; [discriminate|]. now intros [e [=]].
  - split; [|now intros [e [=]]]. destruct (await n true s) as [[b r']|] eqn:E; [|discriminate]. cbn [mbind result_bind].
    destruct (await_started s n b r' E) as [x ->]. discriminate.
  - split; [intros [= <-]; now exists e|intros [e' [= _ <-]]; done].
  - split; [discriminate|]. now intros [e' [=]].
Qed.

Lemma await_number k n s r : ('(b, s) ← await_more k s; Ok (from_be_bytes b, s)) = Ok (n, r) <->
  n < 256 ^ N.of_nat k /\ comes (to_be_bytes k n) s r.
Proof.
  split.
  - destruct (await_more k s) as [[b s']|] eqn:E; [|discriminate]. cbn [mbind result_bind]. apply await_more_comes in E as [Hb Hc].
    intros [= <- <-]. pose proof (from_be_bytes_bound b) as Hn. rewrite Hb in Hn. split; [exact Hn|]. now rewrite to_from_be.
  - intros [Hn Hc]. rewrite (proj2 (await_more_comes k (to_be_bytes k n) s r) (conj (slen_be k n) Hc)). cbn [mbind result_bind].
    now rewrite from_to_be.
Qed.
Lemma await_length_comes c s n r : c < 128 -> await_length c s = Ok (n, r) <->
  exists l, form_fits l n = true /\ c = len_code l n /\ comes (len_bytes l n) s r.
Proof.
  intros Hc. unfold await_length. destruct (N.eqb_spec c 126) as [->|H6]; [|destruct (N.eqb_spec c 127) as [->|H7]].
  - rewrite await_number. split.
    + intros [Hn H]. exists Mid. split; [now apply N.ltb_lt|done].
    + intros ([] & Hf%N.ltb_lt & Hl & H); cbn [len_code len_bytes] in *; [lia|done|lia].
  - rewrite await_number. split.
    + intros [Hn H]. exists Long. split; [now apply N.ltb_lt|done].
    + intros ([] & Hf%N.ltb_lt & Hl & H); cbn [len_code len_bytes] in *; [lia|lia|done].
  - split; [intros [= <- <-]; exists Short; cbn; rewrite N.ltb_lt; repeat split; lia|].
    intros ([] & Hf & -> & H); cbn [form_fits len_code len_bytes comes] in *; [congruence|done..].
Qed.

Lemma await_frame_wire w s rest : wire_ok w = true -> N.of_nat (slen (payload (w_frame w))) <= MAX_FRAME_BYTES -> all_come (fields w) s rest ->
  await_frame s = Ok (Some (w_frame w), rest).
Proof.
  intros Hw Hlen (s1 & C1 & s2 & C2 & s3 & C3 & s4 & C4 & ->). destruct (head_reads w Hw) as (H1 & H2 & _). pose proof (frame_of_wire w Hw) as Hfr.
  unfold wire_ok in Hw. rewrite !andb_true_iff, Nat.eqb_eq in Hw. destruct Hw as [[_ Hm] Hf]. set (n := N.of_nat (slen (payload (w_frame w)))) in *.
  unfold await_frame. rewrite (proj2 (await_comes 2 (wire_head w) s s1) (conj eq_refl C1)). cbn [mbind result_bind]. cbv zeta. rewrite H1, H2.
  assert (await_length (len_code (w_form w) n) s1 = Ok (n, s2)) as -> by (apply await_length_comes; [now apply len_code_bound|eauto]). cbn [mbind result_bind].
  destruct (N.ltb_spec MAX_FRAME_BYTES n); [lia|]. rewrite (proj2 (await_more_comes 4 (w_mask w) s2 s3) (conj Hm C3)). cbn [mbind result_bind].
  assert (forall u, slen u = slen (payload (w_frame w)) -> comes u s3 rest -> (if n =? 0 then Ok ("", s3) else await_more (N.to_nat n) s3) = Ok (u, rest)) as Hu.
  { intros u Hu Hc. destruct (N.eqb_spec n 0) as [Hz|]; [destruct u; [now rewrite Hc|unfold n in Hz; cbn in Hu; lia]|]. apply await_more_comes. split; [unfold n; lia|done]. }
  rewrite (Hu _ (slen_unmask _ _ _) C4). cbn [mbind result_bind]. now rewrite Hfr.
Qed.
Lemma await_frame_inv s f rest : await_frame s = Ok (Some f, rest) ->
  exists w, w_frame w = f /\ wire_ok w = true /\ N.of_nat (slen (payload f)) <= MAX_FRAME_BYTES /\ all_come (fields w) s rest.
Proof.
  unfold await_frame. destruct (await_exact 2 s) as [[[h|] s1]|] eqn:E; [|discriminate..]. cbn [mbind result_bind]. cbv zeta.
  apply await_comes in E as [Hh C1]. apply two_bytes in Hh as (a & b & ->). rewrite !byte_at_head.
  rewrite low_seven. destruct (await_length (N_of_ascii b mod 128) s1) as [[n s2]|] eqn:E; [|discriminate]. cbn [mbind result_bind].
  apply await_length_comes in E as (l & Hf & Hy & C2); [|now apply N.mod_lt].
  destruct (N.ltb_spec MAX_FRAME_BYTES n); [discriminate|]. rewrite top_bit by apply N_ascii_bounded. destruct (N.ltb_spec (N_of_ascii b) 128); [discriminate|].
  destruct (await_more 4 s2) as [[mask s3]|] eqn:E; [|discriminate]. cbn [mbind result_bind]. apply await_more_comes in E as [Hm C3].
  destruct (if n =? 0 then Ok ("", s3) else await_more (N.to_nat n) s3) as [[p s4]|] eqn:E; [|discriminate]. cbn [mbind result_bind].
  assert (comes p s3 s4 /\ N.of_nat (slen p) = n) as [C4 Hp].
  { destruct (N.eqb_spec n 0) as [->|]; [injection E as <- <-; done|]. apply await_more_comes in E as [Hp Hc]. split; [done|]. rewrite Hp. lia. }
  intros E'. apply (f_equal (fun r => match r with Ok v => Some v | Err _ => None end)) in E'. apply (inj Some), pair_equal_spec in E' as [E' <-]. injection E' as <-.
  destruct (fields_of_frame a b l n mask p) as (w & H1 & H2 & H3); [done..|]. exists w. split; [exact H1|]. split; [exact H2|].
  split; [unfold frame_of; cbn [payload]; rewrite slen_unmask; lia|]. rewrite H3. exists s1. split; [exact C1|]. exists s2. split; [exact C2|].
  exists s3. split; [exact C3|]. now exists s4.
Qed.

(** C36: The frame reader is exact.  What arrives on a socket yields a frame
    exactly when it brings the four fields of a client frame - two bytes with
    the final bit, three reserved bits that are ignored, and an opcode; a length
    in any of its three forms that fits, minimal or not; a mask; and a masked
    payload of at most [MAX_FRAME_BYTES] - each field starting at once, with
    any time-outs inside it; it yields the unmasked payload and leaves what
    arrives after.  The caller gets its turn without a frame exactly when the
    first read times out before its first byte. *)
Theorem frames_exact s f rest :
  (await_frame s = Ok (Some f, rest) <->
    exists w, w_frame w = f /\ wire_ok w = true /\ N.of_nat (slen (payload f)) <= MAX_FRAME_BYTES /\ all_come (fields w) s rest) /\
  (await_frame s = Ok (None, rest) <-> exists e, s = Lull e :: rest).
Proof.
  split; [split; [apply await_frame_inv|intros (w & <- & Hw & Hl & H); now apply await_frame_wire]|].
  rewrite <- (await_gives_up 1). unfold await_frame. destruct (await_exact 2 s) as [[[h|] s1]|] eqn:E; cbn [mbind result_bind]; [|split; intros [= <-]; done|split; discriminate].
  split; [|discriminate]. cbv zeta. destruct (await_length _ _) as [[n s2]|]; [|discriminate]. cbn [mbind result_bind].
  destruct (_ <? n); [discriminate|]. destruct (_ =? 0); [discriminate|]. destruct (await_more 4 s2) as [[m s3]|]; [|discriminate]. cbn [mbind result_bind].
  destruct (if n =? 0 then _ else _) as [[p s4]|]; [|discriminate]. cbn [mbind result_bind]. discriminate.
Qed.

(** A time-out between two fields closes the connection, although the frame has
    begun: only inside a field is the rest waited for. *)
Lemma lull_between_fields w e rest : wire_ok w = true -> N.of_nat (slen (payload (w_frame w))) <= MAX_FRAME_BYTES ->
  w_form w = Short -> forall s, comes (wire_head w) s (Lull e :: rest) -> await_frame s = Err "".
Proof.
  intros Hw Hlen Hform s Hc. destruct (head_reads w Hw) as (H1 & H2 & _). unfold await_frame.
  rewrite (proj2 (await_comes 2 (wire_head w) s _) (conj eq_refl Hc)). cbn [mbind result_bind]. cbv zeta. rewrite H1, H2.
  unfold wire_ok in Hw. rewrite !andb_true_iff, Nat.eqb_eq in Hw. destruct Hw as [_ Hf]. rewrite Hform in *. set (n := N.of_nat _) in *. cbn [form_fits len_code] in *. apply N.ltb_lt in Hf.
  unfold await_length. destruct (N.eqb_spec n 126), (N.eqb_spec n 127); try lia. cbn [mbind result_bind]. destruct (N.ltb_spec MAX_FRAME_BYTES n); [lia|]. reflexivity.
Qed.

(** ** When no read times out *)

Fixpoint arrived (s : string) : list Arrival := match s with "" => [] | String c s => Arrived c :: arrived s end.
Lemma await_arrived n : forall b s, await n b (arrived s) = match ws_read n s with Ok (b, r) => Ok (Some b, arrived r) | Err e => Err e end.
Proof.
  unfold ws_read. induction n as [|n IH]; intros b s; [destruct s; reflexivity|]. destruct s as [|c s]; [reflexivity|]. cbn [arrived await take_bytes].
  rewrite IH. destruct (take_bytes n s) as [[a r]|]; reflexivity.
Qed.
Lemma await_more_arrived n s : await_more n (arrived s) = match ws_read n s with Ok (b, r) => Ok (b, arrived r) | Err e => Err e end.
Proof. unfold await_more, await_exact. rewrite await_arrived. destruct (ws_read n s) as [[b r]|e]; reflexivity. Qed.
Lemma await_length_arrived c s : await_length c (arrived s) = match read_length c s with Ok (n, r) => Ok (n, arrived r) | Err e => Err e end.
Proof.
  unfold await_length, read_length. destruct (c =? 126); [|destruct (c =? 127); [|done]]; rewrite await_more_arrived; destruct (ws_read _ s) as [[b r]|e]; reflexivity.
Qed.
Lemma await_frame_arrived s : await_frame (arrived s) = match read_frame s with Ok (f, r) => Ok (Some f, arrived r) | Err e => Err e end.
Proof.
  unfold await_frame, read_frame, await_exact. rewrite await_arrived. destruct (ws_read 2 s) as [[h s1]|e]; [|done]. cbn [mbind result_bind]. cbv zeta.
  rewrite await_length_arrived. destruct (read_length _ s1) as [[n s2]|e]; [|done]. cbn [mbind result_bind].
  destruct (_ <? n); [done|]. destruct (_ =? 0); [done|]. rewrite await_more_arrived. destruct (ws_read 4 s2) as [[m s3]|e]; [|done]. cbn [mbind result_bind].
  destruct (n =? 0); [done|]. rewrite await_more_arrived. now destruct (ws_read _ s3) as [[p s4]|e].
Qed.
(** Without time-outs the loop over arrivals is the loop over bytes. *)
Lemma await_socket_arrived fuel : forall fr s, await_socket fuel fr (arrived s) = socket fuel fr s.
Proof.
  induction fuel as [|fuel IH]; intros fr s; [done|]. cbn [await_socket socket]. rewrite await_frame_arrived.
  destruct (read_frame s) as [[f r]|e]; [|done]. destruct (on_frame fr f); rewrite ?IH; reflexivity.
Qed.

(** ** Messages *)

Lemma on_frame_bounded fr f : N.of_nat (slen fr) <= MAX_FRAME_BYTES ->
  match on_frame fr f with
  | Pong _ fr' | Wait fr' | Whole fr' => N.of_nat (slen fr') <= MAX_FRAME_BYTES
  | Close | Fail _ => True
  end.
Proof.
  intros H. unfold on_frame. repeat case_match; try done.
  all: repeat match goal with Hb : (_ <? _) = false |- _ => apply N.ltb_ge in Hb end; simplify_eq; done.
Qed.

Lemma slen_wire w : (6 <= slen (wire w))%nat \/ slen (w_mask w) <> 4%nat.
Proof.
  destruct (decide (slen (w_mask w) = 4%nat)) as [Hm|]; [left|now right]. unfold wire. cbn [slen String.length].
  rewrite !slen_append. lia.
Qed.
Lemma read_frame_shrinks s f rest : read_frame s = Ok (f, rest) -> (slen rest < slen s)%nat.
Proof.
  intros (w & _ & Hw & _ & ->)%read_frame_inv. rewrite slen_append. unfold wire_ok in Hw.
  rewrite !andb_true_iff, Nat.eqb_eq in Hw. destruct (slen_wire w); [lia|tauto].
Qed.

(** What may be handed on: messages within the limit. *)
Definition within (o : Out) : Prop :=
  match o with Delivered t => N.of_nat (slen t) <= MAX_FRAME_BYTES | Sent _ => True end.

(** The socket loop ends and stays within its buffers.  On any bytes it
    ends after as many steps as there are bytes, and whatever the fragments, no
    message it hands to the dispatcher, nor the buffer it keeps between frames,
    exceeds [MAX_FRAME_BYTES]. *)
Theorem socket_bounded fuel fr s (Hfuel : (slen s < fuel)%nat) (Hfr : N.of_nat (slen fr) <= MAX_FRAME_BYTES) :
  exists outs r, socket fuel fr s = Some (outs, r) /\ Forall within outs.
Proof.
  revert fr s Hfuel Hfr. induction fuel as [|fuel IH]; intros fr s Hfuel Hfr; [lia|]. cbn [socket].
  destruct (read_frame s) as [[f rest]|e] eqn:E; [|eexists _, _; split; [done|constructor]]. apply read_frame_shrinks in E.
  pose proof (on_frame_bounded fr f Hfr) as Hb. destruct (on_frame fr f) as [|e|p fr'|fr'|t].
  - eexists _, _. split; [done|constructor].
  - eexists _, _. split; [done|constructor].
  - destruct (IH fr' rest) as (outs & r & -> & Ho); [lia|done|]. eexists _, _. split; [done|now constructor].
  - apply IH; [lia|done].
  - destruct (IH "" rest) as (outs & r & -> & Ho); [lia|cbn; lia|]. eexists _, _. split; [done|now constructor].
Qed.

(** A text carried by a list of frames: data frames of which only the last is
    final, with pings and pongs in between. *)
Inductive Carries : string -> list Wire -> list Out -> Prop :=
| carries_last w : opcode (w_frame w) < 2 -> fin (w_frame w) = true -> Carries (payload (w_frame w)) [w] []
| carries_more w t ws os : opcode (w_frame w) < 2 -> fin (w_frame w) = false -> Carries t ws os ->
    Carries (payload (w_frame w) +:+ t) (w :: ws) os
| carries_ping w t ws os : opcode (w_frame w) = 9 -> Carries t ws os ->
    Carries t (w :: ws) (Sent (send 10 (payload (w_frame w))) :: os)
| carries_pong w t ws os : opcode (w_frame w) = 10 -> Carries t ws os -> Carries t (w :: ws) os.

Fixpoint wires (ws : list Wire) : string := match ws with [] => "" | w :: ws => wire w +:+ wires ws end.
(** A frame a client may send: well formed, and no larger than the node reads. *)
Definition sendable (w : Wire) : bool := wire_ok w && (N.of_nat (slen (payload (w_frame w))) <=? MAX_FRAME_BYTES).

Definition prepend (os : list Out) (r : option (list Out * result unit)) : option (list Out * result unit) :=
  '(outs, e) ← r; Some (os ++ outs, e).
Lemma prepend_nil r : prepend [] r = r.
Proof. now destruct r as [[]|]. Qed.
Lemma prepend_cons o os r : ('(outs, e) ← prepend os r; Some (o :: outs, e)) = prepend (o :: os) r.
Proof. now destruct r as [[]|]. Qed.

Lemma data_frame fr f : opcode f < 2 -> N.of_nat (slen (fr +:+ payload f)) <= MAX_FRAME_BYTES ->
  on_frame fr f = if fin f then Whole (fr +:+ payload f) else Wait (fr +:+ payload f).
Proof.
  intros Ho Hl. unfold on_frame. destruct (N.ltb_spec MAX_FRAME_BYTES (N.of_nat (slen (fr +:+ payload f)))); [lia|].
  destruct (fin f); assert (opcode f = 0 \/ opcode f = 1) as [-> | ->] by lia; done.
Qed.

Lemma socket_step fuel fr w s : sendable w = true -> socket (S fuel) fr (wire w +:+ s) =
  match on_frame fr (w_frame w) with
  | Close => Some ([], Ok ())
  | Fail e => Some ([], Err e)
  | Pong p fr => '(outs, r) ← socket fuel fr s; Some (Sent (send 10 p) :: outs, r)
  | Wait fr => socket fuel fr s
  | Whole t => '(outs, r) ← socket fuel "" s; Some (Delivered t :: outs, r)
  end.
Proof. intros [Hw Hl%N.leb_le]%andb_true_iff. cbn [socket]. now rewrite read_frame_wire. Qed.

Lemma socket_carries t ws os : Carries t ws os -> forallb sendable ws = true ->
  forall fuel fr rest, N.of_nat (slen (fr +:+ t)) <= MAX_FRAME_BYTES ->
  socket (length ws + fuel) fr (wires ws +:+ rest) = prepend (os ++ [Delivered (fr +:+ t)]) (socket fuel "" rest).
Proof.
  induction 1 as [w Ho Hf|w t ws os Ho Hf _ IH|w t ws os Ho _ IH|w t ws os Ho _ IH]; cbn [forallb];
    intros [Hs Hws]%andb_true_iff fuel fr rest Hl; cbn [wires length Nat.add];
    rewrite <- append_assoc, socket_step by done.
  - rewrite data_frame, Hf by done. cbn. now destruct (socket fuel "" rest) as [[]|].
  - rewrite append_assoc, slen_append in Hl. rewrite data_frame, Hf by (done || lia). rewrite IH by (done || (rewrite slen_append; lia)).
    now rewrite append_assoc.
  - unfold on_frame. rewrite Ho. change (9 =? 8) with false. rewrite N.eqb_refl, IH by done. now rewrite prepend_cons.
  - unfold on_frame. rewrite Ho. change (10 =? 8) with false. change (10 =? 9) with false. rewrite N.eqb_refl. now apply IH.
Qed.

(** Fragmentation is invisible.  However a client cuts a text of at most
    [MAX_FRAME_BYTES] into frames, masks them, encodes their lengths and
    interleaves pings, the dispatcher gets exactly that text, every ping is
    echoed in order before it, and the loop goes on with the bytes that follow
    and an empty buffer. *)
Theorem fragmentation_invisible t ws os fuel rest (Hc : Carries t ws os) (Hs : forallb sendable ws = true)
  (Hl : N.of_nat (slen t) <= MAX_FRAME_BYTES) :
  socket (length ws + fuel) "" (wires ws +:+ rest) = prepend (os ++ [Delivered t]) (socket fuel "" rest).
Proof. now rewrite (socket_carries t ws os). Qed.

(** ** What the node sends *)

Lemma send_forms op p : op < 16 -> N.of_nat (slen p) < 2 ^ 64 -> let n := N.of_nat (slen p) in
  exists l, form_fits l n = true /\ send op p = String (byte (128 + op)) (String (byte (len_code l n)) (len_bytes l n +:+ p)).
Proof.
  intros Hop Hp n. assert (N.lor 128 op = 128 + op) as Hor.
  { apply N.eqb_eq. assert (implb (op <? 16) (N.lor 128 op =? 128 + op) = true) as H.
    - apply (every_byte (fun b => implb (b <? 16) (N.lor 128 b =? 128 + b))); [vm_compute; reflexivity|lia].
    - destruct (N.ltb_spec op 16); [exact H|lia]. }
  unfold send. rewrite Hor. fold n. destruct (N.ltb_spec n 126); [|destruct (N.leb_spec n 65535)].
  - exists Short. split; [now apply N.ltb_lt|reflexivity].
  - exists Mid. split; [apply N.ltb_lt; lia|reflexivity].
  - exists Long. split; [now apply N.ltb_lt|reflexivity].
Qed.

(** A reference client reads a frame of the server: unmasked and final. *)
Definition client_read (s : string) : result (N * string * string) :=
  '(head, s) ← ws_read 2 s;
  if (byte_at head 0 <? 128) || negb (byte_at head 1 <? 128) then Err "not a final server frame"
  else
    '(n, s) ← read_length (byte_at head 1) s;
    '(p, s) ← ws_read (N.to_nat n) s;
    Ok (byte_at head 0 - 128, p, s).

(** Every frame the node sends reads back: a client decodes the opcode and
    the payload of [send], whichever of the three length encodings it chose,
    and is left at the next frame. *)
Theorem sent_frames_read op p rest (Hop : op < 16) (Hp : N.of_nat (slen p) < 2 ^ 64) :
  client_read (send op p +:+ rest) = Ok (op, p, rest).
Proof.
  destruct (send_forms op p Hop Hp) as (l & Hf & ->). pose proof (len_code_bound _ _ Hf) as Hc. unfold client_read.
  set (n := N.of_nat (slen p)) in *. cbn [String.append].
  change (String (byte (128 + op)) (String (byte (len_code l n)) ((len_bytes l n +:+ p) +:+ rest)))
    with (String (byte (128 + op)) (String (byte (len_code l n)) "") +:+ ((len_bytes l n +:+ p) +:+ rest)).
  rewrite ws_read_app by done. cbn [mbind result_bind]. rewrite !byte_at_head, !N_of_byte, !N.mod_small by lia.
  destruct (N.ltb_spec (128 + op) 128); [lia|]. destruct (N.ltb_spec (len_code l n) 128); [|lia]. cbn [negb orb].
  rewrite <- append_assoc, read_length_wire by done. cbn [mbind result_bind]. rewrite ws_read_app by (unfold n; lia).
  cbn [mbind result_bind]. repeat f_equal. lia.
Qed.

(** ** Base64 *)

Fixpoint index_of (c : ascii) (s : string) : option N :=
  match s with "" => None | String d s => if Ascii.eqb c d then Some 0 else N.succ <$> index_of c s end.
Definition b64_value (c : ascii) : option N := index_of c b64_table.

(** A reference decoder: groups of four, the last one padded. *)
Fixpoint b64_decode (s : string) : option string :=
  match s with
  | "" => Some ""
  | String a (String b (String c (String d s))) =>
    va ← b64_value a; vb ← b64_value b;
    if Ascii.eqb c "=" then if Ascii.eqb d "=" then if String.eqb s "" then Some (String (byte ((va * 64 + vb) / 16)) "") else None else None
    else
      vc ← b64_value c;
      if Ascii.eqb d "=" then
        if String.eqb s "" then let n := (va * 64 + vb) * 64 + vc in Some (String (byte (n / 1024)) (String (byte (n / 4)) "")) else None
      else
        vd ← b64_value d; rest ← b64_decode s;
        let n := ((va * 64 + vb) * 64 + vc) * 64 + vd in
        Some (String (byte (n / 65536)) (String (byte (n / 256)) (String (byte n) rest)))
  | _ => None
  end.

(** The check of one value, to run on all of them. *)
Definition b64_known (v : N) : bool :=
  match b64_value (b64_char v) with Some w => w =? v | None => false end && negb (Ascii.eqb (b64_char v) "=").
Lemma b64_char_value v : v < 64 -> b64_value (b64_char v) = Some v /\ Ascii.eqb (b64_char v) "=" = false.
Proof.
  intros Hv. assert (b64_known v = true) as H.
  - assert (implb (v <? 64) (b64_known v) = true) as H; [|destruct (N.ltb_spec v 64); [exact H|lia]].
    apply (every_byte (fun v => implb (v <? 64) (b64_known v))); [vm_compute; reflexivity|lia].
  - unfold b64_known in H. destruct (b64_value (b64_char v)) as [w|]; [|discriminate]. apply andb_true_iff in H as [<-%N.eqb_eq H].
    split; [done|]. now apply negb_true_iff in H.
Qed.
Lemma sextet_value n k : b64_value (sextet n k) = Some (n / 2 ^ k mod 64) /\ Ascii.eqb (sextet n k) "=" = false.
Proof. unfold sextet. rewrite low_six, N.shiftr_div_pow2. apply b64_char_value. now apply N.mod_lt. Qed.

Lemma lor_low a b k : b < 2 ^ k -> N.lor (N.shiftl a k) b = a * 2 ^ k + b.
Proof.
  intros Hb. rewrite N.shiftl_mul_pow2. assert (N.land (a * 2 ^ k) b = 0) as H.
  { apply N.bits_inj. intros i. rewrite N.land_spec, N.bits_0. destruct (N.lt_ge_cases i k); [now rewrite N.mul_pow2_bits_low|].
    rewrite <- (N.mod_small b (2 ^ k)) by done. now rewrite N.mod_pow2_bits_high, andb_false_r. }
  now rewrite (N.add_nocarry_lxor _ _ H), (N.lxor_lor _ _ H).
Qed.
Lemma b64_group_value x y z : x < 256 -> y < 256 -> z < 256 -> b64_group x y z = x * 65536 + y * 256 + z.
Proof.
  intros Hx Hy Hz. unfold b64_group.
  replace (N.lor (N.shiftl x 16) (N.shiftl y 8)) with (N.shiftl (x * 256 + y) 8).
  - rewrite lor_low by done. lia.
  - change 16 with (8 + 8). rewrite <- N.shiftl_shiftl, <- N.shiftl_lor. f_equal. now rewrite lor_low.
Qed.

(** The four values of a group, and the bytes they give back. *)
Lemma group_values n : n < 2 ^ 24 ->
  let a := n / 2 ^ 18 mod 64 in let b := n / 2 ^ 12 mod 64 in let c := n / 2 ^ 6 mod 64 in let d := n / 2 ^ 0 mod 64 in
  ((a * 64 + b) * 64 + c) * 64 + d = n /\ (a * 64 + b) / 16 = n / 65536 /\
  ((a * 64 + b) * 64 + c) / 1024 = n / 65536 /\ ((a * 64 + b) * 64 + c) / 4 = n / 256.
Proof.
  intros Hn. change (2 ^ 18) with (64 * (64 * 64)). change (2 ^ 12) with (64 * 64). change (2 ^ 6) with 64. change (2 ^ 0) with 1.
  rewrite <- !N.Div0.div_div, N.div_1_r.
  pose proof (N.Div0.div_mod n 64) as H1. pose proof (N.Div0.div_mod (n / 64) 64) as H2. pose proof (N.Div0.div_mod (n / 64 / 64) 64) as H3.
  assert (n / 64 / 64 / 64 < 64) as H4 by (rewrite !N.Div0.div_div; apply N.Div0.div_lt_upper_bound; lia).
  cbv zeta. rewrite (N.mod_small (n / 64 / 64 / 64)) by done.
  assert (n / 64 / 64 / 64 * 64 + n / 64 / 64 mod 64 = n / 64 / 64) as -> by lia.
  assert (n / 64 / 64 * 64 + n / 64 mod 64 = n / 64) as -> by lia.
  rewrite !N.Div0.div_div. repeat split. lia.
Qed.

Lemma group_bytes x y z (n := x * 65536 + y * 256 + z) : x < 256 -> y < 256 -> z < 256 ->
  n / 65536 = x /\ n / 256 mod 256 = y /\ n mod 256 = z.
Proof.
  intros Hx Hy Hz. split; [|split].
  - symmetry. apply (N.div_unique _ _ _ (y * 256 + z)); unfold n; lia.
  - assert (n / 256 = x * 256 + y) as -> by (symmetry; apply (N.div_unique _ _ _ z); unfold n; lia).
    rewrite N.add_comm, N.Div0.mod_add. now apply N.mod_small.
  - unfold n. replace (x * 65536 + y * 256 + z) with (z + (x * 256 + y) * 256) by lia. rewrite N.Div0.mod_add. now apply N.mod_small.
Qed.

Lemma byte_is c n : n mod 256 = N_of_ascii c -> byte n = c.
Proof. unfold byte. intros ->. apply ascii_N_embedding. Qed.

(** Base64 as the handshake sends it is decodable: a reference decoder gives
    back the bytes, for every length and padding. *)
Theorem b64_round_trip s : b64_decode (b64 s) = Some s.
Proof.
  remember (slen s) as k eqn:Hk. assert (slen s <= k)%nat as Hle by lia. clear Hk. revert s Hle.
  induction k as [|k IH]; intros [|x [|y [|z s]]] Hle; cbn [slen String.length] in Hle; try lia; try done.
  all: pose proof (N_ascii_bounded x) as Hx; try pose proof (N_ascii_bounded y) as Hy; try pose proof (N_ascii_bounded z) as Hz.
  all: cbn [b64]; rewrite b64_group_value by lia.
  all: match goal with |- context [sextet ?n 18] =>
    destruct (sextet_value n 18) as [Ea Na], (sextet_value n 12) as [Eb Nb], (sextet_value n 6) as [Ec Nc], (sextet_value n 0) as [Ed Nd];
    destruct (group_values n) as (V1 & V2 & V3 & V4); [lia|] end.
  - destruct (group_bytes (N_of_ascii x) 0 0) as (B1 & B2 & B3); [lia..|]. cbn [b64_decode]. rewrite Ea, Eb. cbn [mbind option_bind].
    cbn [Ascii.eqb Bool.eqb String.eqb]. rewrite V2, B1. do 2 f_equal. apply byte_is. now apply N.mod_small.
  - destruct (group_bytes (N_of_ascii x) (N_of_ascii y) 0) as (B1 & B2 & B3); [lia..|]. cbn [b64_decode]. rewrite Ea, Eb. cbn [mbind option_bind].
    rewrite Nc, Ec. cbn [mbind option_bind Ascii.eqb Bool.eqb String.eqb]. cbv zeta. rewrite V3, V4, B1. do 2 f_equal; [|f_equal]; apply byte_is; [now apply N.mod_small|done].
  - destruct (group_bytes (N_of_ascii x) (N_of_ascii y) (N_of_ascii z)) as (B1 & B2 & B3); [lia..|]. cbn [b64_decode]. rewrite Ea, Eb. cbn [mbind option_bind].
    rewrite Nc, Ec. cbn [mbind option_bind]. rewrite Nd, Ed. cbn [mbind option_bind]. rewrite IH by lia. cbn [mbind option_bind]. cbv zeta.
    rewrite V1, B1. do 2 f_equal; [apply byte_is; now apply N.mod_small|]. f_equal; [now apply byte_is|]. f_equal. now apply byte_is.
Qed.

(** ** The padding of SHA-1 *)

(** The message is padded to whole blocks, so every block is read. *)
Lemma sha1_pad_blocks data : (slen (sha1_pad data) mod 64 = 0)%nat.
Proof.
  unfold sha1_pad, pad_zeros. rewrite !slen_append, slen_zeros, slen_be. cbn [slen String.length]. set (n := slen data).
  pose proof (Nat.mod_upper_bound (n + 1) 64 ltac:(lia)) as Hr. pose proof (Nat.div_mod_eq (n + 1) 64) as Hd.
  pose proof (Nat.div_mod_eq (56 + 64 - (n + 1) mod 64) 64) as Hp.
  replace (n + (1 + ((56 + 64 - (n + 1) mod 64) mod 64 + 8)))%nat
    with (((n + 1) / 64 + 2 - (56 + 64 - (n + 1) mod 64) / 64) * 64)%nat; [apply Nat.Div0.mod_mul|].
  pose proof (Nat.mod_upper_bound (56 + 64 - (n + 1) mod 64) 64 ltac:(lia)). lia.
Qed.
Lemma sha1_len data : slen (sha1 data) = 20%nat.
Proof. unfold sha1. destruct (sha1_blocks _ _ _) as [[[[a b] c] d] e]. rewrite !slen_append, !slen_be. done. Qed.

Module Ws_example.
(** A text in two frames with a ping between them, then a close. *)
Definition part (op : N) (f : bool) (t mask : string) (l : LenForm) : Wire :=
  {| w_frame := {| opcode := op; payload := t; fin := f |}; w_rsv := 0; w_form := l; w_mask := mask |}.
Definition chat : list Wire := [part 1 false "Ina" "abcd" Short; part 9 true "?" "wxyz" Mid; part 0 true "zuma" "1234" Long].
Definition close : string := wire (part 8 true "" "zzzz" Short).

Lemma chat_carries : Carries "Inazuma" chat [Sent (send 10 "?")].
Proof.
  apply (carries_more (part 1 false "Ina" "abcd" Short) "zuma"); [reflexivity..|].
  apply (carries_ping (part 9 true "?" "wxyz" Mid)); [reflexivity|]. now apply (carries_last (part 0 true "zuma" "1234" Long)).
Qed.

Lemma fragmentation_invisible_witness :
  socket (length chat + 1) "" (wires chat +:+ close) = Some ([Sent (send 10 "?"); Delivered "Inazuma"], Ok ()).
Proof.
  rewrite (fragmentation_invisible "Inazuma" chat [Sent (send 10 "?")] 1 close chat_carries);
    [vm_compute; reflexivity|vm_compute; reflexivity|vm_compute; discriminate].
Defined.

Lemma socket_bounded_witness : exists outs r, socket 100 "" (wires chat +:+ close) = Some (outs, r) /\ Forall within outs.
Proof. apply (socket_bounded 100 "" (wires chat +:+ close)); [vm_compute; lia|vm_compute; discriminate]. Defined.

Lemma sent_frames_read_witness : client_read (send 1 "Inazuma" +:+ "next") = Ok (1, "Inazuma", "next").
Proof. apply (sent_frames_read 1 "Inazuma" "next"); vm_compute; reflexivity. Defined.

(** Frames RFC 6455 forbids and the code reads: a reserved bit, a length longer
    than needed, a ping that is fragmented and larger than 125 bytes. *)
Definition forbidden : list Wire := [
  {| w_frame := {| opcode := 1; payload := "a"; fin := true |}; w_rsv := 4; w_form := Short; w_mask := "abcd" |};
  part 1 true "a" "abcd" Long;
  part 9 false (zeros 200) "abcd" Mid].
Lemma forbidden_read : Forall (fun w => read_frame (wire w) = Ok (w_frame w, "")) forbidden.
Proof. repeat (apply Forall_cons; split; [vm_compute; reflexivity|]). now apply Forall_nil. Qed.

(** A time-out inside the payload is waited out, one before it is not. *)
Definition slow (i : nat) : list Arrival :=
  let bytes := arrived (wire (part 1 true "ab" "wxyz" Short)) in take i bytes ++ Lull 10000 :: drop i bytes.
Lemma slow_payload : await_frame (slow 7) = Ok (Some {| opcode := 1; payload := "ab"; fin := true |}, []) /\
  await_frame (slow 6) = Err "" /\ await_frame (slow 2) = Err "".
Proof. repeat split; vm_compute; reflexivity. Qed.

Example unmasked_refused : read_frame (send 1 "Inazuma") = Err "client frames must be masked".
Proof. vm_compute. reflexivity. Qed.
Example sha1_abc : sha1 "abc" = String.string_of_list_ascii (map ascii_of_N
  [169;153;62;54;71;6;129;106;186;62;37;113;120;80;194;108;156;208;216;157]).
Proof. vm_compute. reflexivity. Qed.
End Ws_example.
