(* ===== verification/Rpc.v ===== *)
(** rpc.rs: the JSON-RPC methods, from decoded parameters to the reply value.

    A JSON value is the [Value] of serde_json: numbers are integers or doubles,
    an object is the list of its fields.  The derived decoders of transactions
    and evidence and the rendering of a payload are parameters ([Serde]).  A
    method maps the node to its answer, the node it leaves and the transactions
    it hands to gossip.  What concerns the process rather than the chain (the
    clocks, the core count, the gossip handle, the live subscriptions) is
    [Process]; Access.v has the gates in front of the dispatch, and Http.v the
    bytes around a call. *)

From S2P Require Import Prelude Bytes Crypto Types Journal Store Smt Poseidon Shielded State Fees Staking Tokens Slashing Votes.
From S2P Require Import Mempool Contracts SignGuard Circuit Exec Chain Simulate Limits Access.
From Stdlib Require Import Ascii.
From Stdlib Require String.

(** ** JSON values *)

#[warnings="-register-all"]
Inductive JValue :=
| JNull
| JBool (b : bool)
| JNum (n : Z)
| JFloat (f : f64)
| JStr (s : string)
| JArr (l : list JValue)
| JObj (fields : list (string * JValue)).

(** [Value::get] with a string. *)
Fixpoint field_of (k : string) (l : list (string * JValue)) : option JValue :=
  match l with [] => None | (k', v) :: l => if String.eqb k k' then Some v else field_of k l end.
Definition get (k : string) (v : JValue) : option JValue := match v with JObj l => field_of k l | _ => None end.
Definition as_str (v : JValue) : option string := match v with JStr s => Some s | _ => None end.
Definition as_u64 (v : JValue) : option N :=
  match v with JNum n => if ((0 <=? n) && (n <=? Z.of_N U64_MAX))%Z then Some (Z.to_N n) else None | _ => None end.
Definition as_array (v : JValue) : option (list JValue) := match v with JArr l => Some l | _ => None end.

Definition jn (n : N) : JValue := JNum (Z.of_N n).
Definition jlen {A : Type} (l : list A) : JValue := JNum (Z.of_nat (length l)).
Definition jopt {A : Type} (f : A -> JValue) (o : option A) : JValue := match o with Some a => f a | None => JNull end.
(** An amount as decimal text, and in coins. *)
Definition jamt (n : N) : JValue := JStr (dec n).
Definition jinaz (n : N) : JValue := JStr (format_inaz n).
(** [v["k"] = x] on an object that has no such field. *)
Definition with_field (k : string) (x v : JValue) : JValue := match v with JObj l => JObj (l ++ [(k, x)]) | _ => v end.

(** [params.get(k).and_then(|v| v.as_str())] and its kin. *)
Definition str_param (k : string) (p : JValue) : option string := v ← get k p; as_str v.
Definition u64_param (k : string) (p : JValue) : option N := v ← get k p; as_u64 v.
Definition arr_param (k : string) (p : JValue) : option (list JValue) := v ← get k p; as_array v.

(** ** Rows by prefix (state.rs) *)

(** [key.split(':').nth(1)] *)
Definition second_part (key : string) : option string :=
  '(_, r) ← split_once ":"%char key; Some match split_once ":"%char r with Some (x, _) => x | None => r end.
(** [key.splitn(2, ':').nth(1)] *)
Definition after_colon (key : string) : option string := snd <$> split_once ":"%char key.
Definition scan_prefix (t : TreeId) (prefix : string) (d : Db) : list (string * string) :=
  List.filter (fun kv => match strip_prefix prefix kv.1 with Some _ => true | None => false end) (parsed as_bytes (rows t d)).

(* [src/src/state.rs 704-720 Store::token_holders] *)
Definition token_holders (id : string) (limit : nat) (d : Db) : list (string * N) :=
  take limit (sort_by (fun a b => (b.2 <? a.2) || ((a.2 =? b.2) && String.leb a.1 b.1))
    (omap (fun kv => addr ← second_part kv.1; bal ← parse_u128 kv.2; Some (addr, bal))
      (scan_prefix T_TOKEN_BALANCES (id +:+ ":") d))).
(* [src/src/state.rs 557-569 Store::contract_entries] *)
Definition contract_entries (address : string) (limit : nat) (d : Db) : list (string * string) :=
  take limit (omap (fun kv => short ← after_colon kv.1; Some (short, kv.2)) (scan_prefix T_CONTRACT_STORAGE (address +:+ ":") d)).

(** ** Parameters of the model *)

Class Serde := {
  tx_of_json : JValue -> result Transaction;
  evidence_of_json : JValue -> result Evidence;
  payload_json : option Payload -> JValue;
  (** [IpAddr] as text. *)
  ip_text : IpAddr -> string
}.

(** What the methods read of the gossip layer. *)
(* [src/src/p2p.rs 105-117 P2p] *)
Record Gossip := {
  net_listen : string; net_peers : list string; net_book : PeerBook; net_id : Keypair;
  net_allowed : gset string; net_encryption : bool
}.

(** The process around the node: the wall clock, the monotonic clock, the core
    count, the gossip handle, the live subscriptions. *)
Record Process := { x_now : N; x_instant : N; x_cpus : option nat; x_net : option Gossip; x_subs : nat }.
(* [src/src/chain.rs 331-338 Node::peer_count] *)
Definition x_peers (x : Process) : N := match x_net x with Some g => N.of_nat (length (net_peers g)) | None => 0 end.

Record Reply := { answer : result JValue; left_node : Node; gossiped : list Transaction }.

(* [src/src/rpc.rs 29-29 MAX_BATCH_TXS] *)
Definition MAX_BATCH_TXS : nat := 5000.
(* [src/src/lib.rs 50-50 DEFAULT_PRUNE_KEEP] *)
Definition DEFAULT_PRUNE_KEEP : N := 400000.

Section rpc.
Context {HC : Crypto} {HF : Fr} {HK : Compression} {HP : ChainParams} {HJ : EvidenceJson} {HW : Wasm} {HG : Groth16} {HS : Serde}.

(** ** Rendering *)

(* [src/src/rpc.rs 440-452 tx_json] *)
Definition tx_json (t : Transaction) : JValue := JObj [
  ("hash", JStr (tx_hash t)); ("kind", JStr (tag (tx_kind t))); ("from", JStr (default "" (sender t))); ("to", JStr (tx_to t));
  ("amount", jamt (tx_amount t)); ("amountInaz", jinaz (tx_amount t)); ("fee", jamt (tx_fee t)); ("nonce", jn (tx_nonce t));
  ("payload", payload_json (tx_payload t))].
(* [src/src/rpc.rs 426-438 block_json] *)
Definition block_json (b : Block) : JValue := JObj [
  ("height", jn (b_height b)); ("hash", JStr (b_hash b)); ("parentHash", JStr (b_parent_hash b));
  ("timestamp", jamt (b_timestamp_ms b)); ("stateRoot", JStr (b_state_root b)); ("txsRoot", JStr (b_txs_root b));
  ("producer", JStr (b_producer b)); ("txCount", jlen (b_transactions b)); ("transactions", JArr (map tx_json (b_transactions b)))].
(* [src/src/rpc.rs 454-467 token_json] *)
Definition token_json (t : Token) : JValue := JObj [
  ("id", JStr (t_id t)); ("symbol", JStr (t_symbol t)); ("name", JStr (t_name t)); ("decimals", jn (t_decimals t));
  ("supply", jamt (t_supply t)); ("supplyFormatted", JStr (format_units (t_supply t) (t_decimals t))); ("creator", JStr (t_creator t));
  ("mintable", JBool (t_mintable t)); ("createdHeight", jn (t_created_height t)); ("holders", jn (t_holders t))].
(* [src/src/rpc.rs 469-478 contract_json] *)
Definition contract_json (c : Contract) : JValue := JObj [
  ("address", JStr (c_address c)); ("codeHash", JStr (c_code_hash c)); ("codeSize", jn (c_code_size c)); ("creator", JStr (c_creator c));
  ("createdHeight", jn (c_created_height c)); ("calls", jn (c_calls c))].

(** ** The chain *)

(* [src/src/rpc.rs 482-519! dispatch] *)
Definition chain_info (x : Process) (n : Node) : JValue :=
  let d := n_db n in let g := n_genesis n in
  JObj [("chain", JStr (g_chain_name g)); ("chainId", jn (g_chain_id g)); ("symbol", JStr (g_symbol g)); ("decimals", jn (g_decimals g));
  ("blockTimeMs", jn (g_block_time_ms g)); ("height", jn (tip d)); ("tipHash", JStr (tip_hash d));
  ("finalizedHeight", jn (finalized_height d)); ("peers", jn (x_peers x)); ("mode", JStr (if n_solo n then "solo" else "networked"));
  ("accounts", JNum (Z.of_nat (account_count d))); ("totalTxs", JNum (Z.of_nat (tx_count d))); ("mempool", jn (mempool_size n));
  ("baseFee", jamt (node_base_fee n)); ("feeFloor", jamt (fee_floor n)); ("stateRoot", JStr (state_root_at (tip d) d));
  ("totalSupply", jinaz (total_supply d)); ("totalStaked", jinaz (total_staked d)); ("producer", JStr (address (n_producer n)));
  ("validators", jlen (validators n)); ("nextLeader", jopt JStr (next_leader (x_now x) n)); ("minStake", jinaz MIN_STAKE);
  ("blockReward", jinaz BLOCK_REWARD); ("tokens", JNum (Z.of_nat (token_count d))); ("tokenCreationFee", jinaz TOKEN_CREATION_FEE);
  ("contracts", JNum (Z.of_nat (contract_count d))); ("deployFee", jinaz DEPLOY_FEE); ("vm", JStr "wasm"); ("halted", JBool (halted n));
  ("haltReason", jopt JStr (halt_reason d)); ("prunedBelow", jn (pruned_below d)); ("maxValidators", JNum (Z.of_nat MAX_VALIDATORS));
  ("validatorCapHeight", jn VALIDATOR_CAP_ACTIVATION_HEIGHT)].
(* [src/src/rpc.rs 521-528! dispatch] *)
Definition halt_status (n : Node) : JValue :=
  let d := n_db n in
  JObj [("halted", JBool (halted n)); ("reason", jopt JStr (halt_reason d)); ("height", jn (tip d));
  ("finalizedHeight", jn (finalized_height d)); ("prunedBelow", jn (pruned_below d)); ("archive", JBool (pruned_below d =? 0))].
(* [src/src/rpc.rs 602-616! dispatch] *)
Definition fee_market (n : Node) : JValue := JObj [
  ("baseFee", jamt (node_base_fee n)); ("feeFloor", jamt (fee_floor n)); ("minFee", jamt MIN_FEE);
  ("targetTxsPerBlock", jn TARGET_TXS_PER_BLOCK); ("maxChangePct", jn MAX_CHANGE_PCT); ("maxBaseFee", jamt MAX_BASE_FEE);
  ("active", JBool (FEE_MARKET_ACTIVATION_HEIGHT <=? tip (n_db n) +!! 1)); ("activationHeight", jn FEE_MARKET_ACTIVATION_HEIGHT);
  ("mempool", jn (mempool_size n))].
(* [src/src/rpc.rs 687-698! dispatch] *)
Definition state_root_info (d : Db) : JValue := JObj [
  ("height", jn (tip d)); ("stateRoot", JStr (state_root_at (tip d) d)); ("merkleRoot", JStr (merkle_root d));
  ("merkleReady", JBool (merkle_ready d)); ("activationHeight", jn STATE_ROOT_V2_ACTIVATION_HEIGHT);
  ("active", JBool (STATE_ROOT_V2_ACTIVATION_HEIGHT <=? tip d)); ("depth", JNum (Z.of_nat DEPTH))].
(* [src/src/rpc.rs 1221-1233! dispatch] *)
Definition node_status (x : Process) (n : Node) : JValue :=
  let d := n_db n in
  JObj [("role", JStr (if n_serving_only n then "replica" else "validator")); ("height", jn (tip d));
  ("finalizedHeight", jn (finalized_height d)); ("peers", jn (x_peers x)); ("mempool", jn (mempool_size n));
  ("liveSubscriptions", JNum (Z.of_nat (x_subs x))); ("chainId", jn (g_chain_id (n_genesis n)));
  ("syncing", JBool ((0 <? x_peers x) && behind_tip (x_now x) n))].

(** ** Tokens *)

(* [src/src/rpc.rs 529-536! dispatch] *)
Definition tokens_list (d : Db) : JValue := JObj [
  ("count", jlen (tokens d)); ("creationFeeInaz", jinaz TOKEN_CREATION_FEE); ("tokens", JArr (map token_json (tokens d)))].
(* [src/src/rpc.rs 537-559! dispatch] *)
Definition get_token (p : JValue) (d : Db) : result JValue :=
  id ← ok_or (str_param "token" p) "missing token";
  Ok match token id d with
     | None => JNull
     | Some t => with_field "topHolders" (JArr (map (fun ab => JObj [
         ("address", JStr ab.1); ("balance", jamt ab.2); ("balanceFormatted", JStr (format_units ab.2 (t_decimals t)))])
         (token_holders (t_id t) 20 d))) (token_json t)
     end.
(* [src/src/rpc.rs 560-578! dispatch] *)
Definition get_token_balance (p : JValue) (d : Db) : result JValue :=
  id ← ok_or (str_param "token" p) "missing token";
  addr ← ok_or (str_param "address" p) "missing address";
  t ← ok_or (token id d) "unknown token";
  let bal := token_balance id addr d in
  Ok (JObj [("token", JStr (t_id t)); ("symbol", JStr (t_symbol t)); ("address", JStr addr); ("balance", jamt bal);
    ("balanceFormatted", JStr (format_units bal (t_decimals t)))]).
(* [src/src/rpc.rs 579-598! dispatch] *)
Definition get_token_holdings (p : JValue) (d : Db) : result JValue :=
  addr ← ok_or (str_param "address" p) "missing address";
  if negb (is_valid_address addr) then Err "invalid address" else
  Ok (JObj [("address", JStr addr); ("holdings", JArr (map (fun tb => JObj [
    ("token", JStr (t_id tb.1)); ("symbol", JStr (t_symbol tb.1)); ("name", JStr (t_name tb.1)); ("decimals", jn (t_decimals tb.1));
    ("balance", jamt tb.2); ("balanceFormatted", JStr (format_units tb.2 (t_decimals tb.1)))]) (token_holdings addr d)))]).

(** ** Proofs *)

(* [src/src/rpc.rs 618-644! dispatch] *)
Definition get_proof (p : JValue) (d : Db) : result JValue :=
  let domain := default "acct" (str_param "domain" p) in
  key ← ok_or (v ← match get "key" p with Some v => Some v | None => get "address" p end; as_str v) "key required";
  let '(root, (leaf_key, siblings, bitmap)) := merkle_proof domain key d in
  let value := merkle_leaf_value domain key d in
  Ok (JObj [("domain", JStr domain); ("key", JStr key); ("root", JStr root); ("leafKey", JStr leaf_key);
    ("value", jopt (fun v => JStr (hex_encode v)) value); ("exists", JBool (bool_decide (is_Some value)));
    ("siblings", JArr (map JStr siblings)); ("siblingBitmap", JStr bitmap); ("depth", JNum (Z.of_nat DEPTH));
    ("activationHeight", jn STATE_ROOT_V2_ACTIVATION_HEIGHT); ("height", jn (tip d)); ("finalizedHeight", jn (finalized_height d))]).
(** The value to verify: absent when missing or empty. *)
Definition value_param (p : JValue) : result (option string) :=
  match str_param "value" p with
  | Some h => if String.eqb h "" then Ok None else match hex_decode h with Some v => Ok (Some v) | None => Err "bad value hex" end
  | None => Ok None
  end.
(* [src/src/rpc.rs 646-685! dispatch] *)
Definition check_proof (p : JValue) : result JValue :=
  let domain := default "acct" (str_param "domain" p) in
  key ← ok_or (str_param "key" p) "key required";
  root ← ok_or (str_param "root" p) "root required";
  let bitmap := default "" (str_param "siblingBitmap" p) in
  let siblings := match arr_param "siblings" p with Some l => omap as_str l | None => [] end in
  value ← value_param p;
  Ok (JObj [("valid", JBool (Smt.verify_proof root domain key value siblings bitmap))]).

(** ** The shielded pool *)

(** The note commitments that parse. *)
Definition pool_leaves (d : Db) : list F := omap fr_from_hex (shielded_leaves d).
(* [src/src/rpc.rs 701-720! dispatch] *)
Definition shielded_info (d : Db) : JValue := JObj [
  ("active", JBool (shielded_activation <=? tip d +!! 1)); ("activationHeight", jn shielded_activation);
  ("noteCount", jn (shielded_leaf_count d)); ("treeRoot", JStr (fr_to_hex (root_from_leaves (pool_leaves d))));
  ("poolBalance", jamt (shielded_pool_balance d)); ("verifyingKeyInstalled", JBool (bool_decide (is_Some (shielded_verifying_key d))));
  ("height", jn (tip d))].
(* [src/src/rpc.rs 723-742! dispatch] *)
Definition shielded_path (p : JValue) (d : Db) : result JValue :=
  pos ← ok_or (u64_param "position" p) "position required";
  path ← merkle_path (pool_leaves d) (N.to_nat pos);
  Ok (JObj [("position", jn pos); ("root", JStr (fr_to_hex (root_from_leaves (pool_leaves d))));
    ("path", JArr (map (fun f => JStr (fr_to_hex f)) path))]).

(** ** Finality, accounts and validators *)

(** [(v * 10_000 / total) as f64 / 100.0] *)
Definition pct_of (v total : N) : f64 := if 0 <? total then fdiv (f64_of_N (v *! 10000 / total)) (f64_of_N 100) else f64_of_N 0.
(* [src/src/rpc.rs 744-765! dispatch] *)
Definition finality (x : Process) (p : JValue) (n : Node) : JValue :=
  let d := n_db n in
  let height := default (tip d) (u64_param "height" p) in
  let '(voted, total) := tally (n_votes n) d height in
  let final := height <=? finalized_height d in
  let voted := if final && (voted =? 0) then total else voted in
  JObj [("height", jn height); ("tipHeight", jn (tip d)); ("finalizedHeight", jn (finalized_height d)); ("isFinal", JBool final);
    ("votes", if final then jlen (validators n) else JNum (Z.of_nat (seen (n_votes n) height)));
    ("votedStakeInaz", jinaz voted); ("totalStakeInaz", jinaz total); ("thresholdPct", JFloat (fdiv (f64_of_N 6667) (f64_of_N 100)));
    ("votedPct", JFloat (pct_of voted total)); ("validators", jlen (validators n)); ("peers", jn (x_peers x))].
(* [src/src/rpc.rs 766-800! dispatch] *)
Definition get_account (p : JValue) (n : Node) : result JValue :=
  let d := n_db n in
  addr ← ok_or (str_param "address" p) "missing address";
  if negb (is_valid_address addr) then Err "invalid address" else
  let a := account addr d in let pen := penalties a in
  Ok (JObj [("address", JStr addr); ("balance", jamt (balance a)); ("balanceInaz", jinaz (balance a)); ("staked", jamt (staked a));
    ("stakedInaz", jinaz (staked a)); ("unbonding", jamt (unbonding_total a)); ("unbondingInaz", jinaz (unbonding_total a));
    ("unbonds", JArr (map (fun u => JObj [("amountInaz", jinaz (u_amount u)); ("releaseHeight", jn (release_height u))]) (unbonding a)));
    ("rewardsInaz", jinaz (rewards a)); ("isValidator", JBool (is_validator a)); ("isJailed", JBool (is_jailed a (tip d +!! 1)));
    ("jailedUntil", jn (jailed_until pen)); ("tombstoned", JBool (tombstoned pen)); ("slashedInaz", jinaz (slashed pen));
    ("missedSlots", jn (missed_slots pen)); ("missedStreak", jn (missed_streak pen)); ("downtimeJails", jn (downtime_jails pen));
    ("blocksProduced", jn (blocks_produced a)); ("nonce", jn (nonce a)); ("pendingNonce", jn (pending_nonce addr n))]).
(* [src/src/rpc.rs 801-838! dispatch] *)
Definition validators_info (x : Process) (n : Node) : JValue :=
  let d := n_db n in let set := validators n in let total := total_stake set in let h := tip d +!! 1 in
  JObj [("count", jlen set); ("totalStakeInaz", jinaz total); ("minStakeInaz", jinaz MIN_STAKE); ("unbondingBlocks", jn UNBONDING_BLOCKS);
    ("blockRewardInaz", jinaz BLOCK_REWARD); ("leaderCommissionPct", jn LEADER_COMMISSION_PCT);
    ("nextLeader", jopt JStr (next_leader (x_now x) n));
    ("validators", JArr (map (fun v => JObj [("address", JStr (v_address v)); ("stakeInaz", jinaz (v_stake v));
      ("sharePct", JFloat (pct_of (v_stake v) total)); ("rewardsInaz", jinaz (v_rewards v)); ("blocksProduced", jn (v_blocks_produced v));
      ("missedSlots", jn (v_missed_slots v)); ("slashedInaz", jinaz (v_slashed v)); ("jailed", JBool false)]) set));
    ("jailed", JArr (map (fun v => JObj [("address", JStr (v_address v)); ("stakeInaz", jinaz (v_stake v));
      ("jailedUntil", jn (v_jailed_until v)); ("tombstoned", JBool (v_tombstoned v)); ("missedSlots", jn (v_missed_slots v));
      ("slashedInaz", jinaz (v_slashed v))])
      (List.filter (fun v => v_tombstoned v || (downtime_jail_enabled h && (h <? v_jailed_until v))) (bonded_set d))))].

(** ** Slashing *)

Definition slash_json (r : SlashRecord) : JValue := JObj [
  ("id", JStr (s_id r)); ("offence", JStr (s_offence r)); ("offender", JStr (s_offender r)); ("offenceHeight", jn (s_offence_height r));
  ("appliedHeight", jn (s_applied_height r)); ("burnedInaz", jinaz (s_burned r)); ("bountyInaz", jinaz (s_bounty r));
  ("reporter", JStr (s_reporter r)); ("tombstoned", JBool (s_tombstoned r));
  ("jailedUntil", if s_jailed_until r =? TOMBSTONE_HEIGHT then JNull else jn (s_jailed_until r))].
(* [src/src/rpc.rs 841-879! dispatch] *)
Definition slashing_info (p : JValue) (d : Db) : JValue :=
  let height := tip d +!! 1 in
  let limit := N.min (default 50 (u64_param "limit" p)) 500 in
  let records := slashes d in
  JObj [("height", jn height); ("activationHeight", jn slashing_activation); ("active", JBool (slashing_activation <=? height));
    ("params", JObj [("equivocationMinBurnPct", jn EQUIVOCATION_MIN_BURN_PCT);
      ("equivocationCorrelationFactor", jn EQUIVOCATION_CORRELATION_FACTOR); ("reporterBountyPct", jn REPORTER_BOUNTY_PCT);
      ("downtimeJailStreak", jn DOWNTIME_JAIL_STREAK); ("downtimeJailBlocks", jn DOWNTIME_JAIL_BLOCKS);
      ("downtimeRepeatBurnBps", jn DOWNTIME_REPEAT_BURN_BPS); ("evidenceMaxAgeBlocks", jn EVIDENCE_MAX_AGE_BLOCKS);
      ("unbondingBlocks", jn UNBONDING_BLOCKS)]);
    ("totalBurnedInaz", jinaz (sum_wrapping (map s_burned records))); ("slashCount", jlen records);
    ("slashes", JArr (map slash_json (take (N.to_nat limit) records)))].

(** [params["evidence"]], decoded. *)
Definition evidence_param (p : JValue) : result Evidence :=
  raw ← ok_or (get "evidence" p) "missing evidence";
  match evidence_of_json raw with Ok e => Ok e | Err e => Err ("bad evidence: " +:+ e) end.
(* [src/src/rpc.rs 891-910! dispatch] *)
Definition preview_slash (p : JValue) (d : Db) : result JValue :=
  e ← evidence_param p;
  offender ← ev_verify e;
  let a := account offender d in
  let pct := equivocation_burn_pct (staked a) (total_staked d) in
  let burn := staked a *! pct / 100 in
  Ok (JObj [("offender", JStr offender); ("offence", JStr (ev_label e)); ("offenceHeight", jn (ev_height e));
    ("stakeInaz", jinaz (staked a)); ("burnPct", jn pct); ("burnInaz", jinaz burn);
    ("bountyInaz", jinaz (burn *! REPORTER_BOUNTY_PCT / 100)); ("tombstone", JBool true)]).

(** ** Blocks and transactions *)

(* [src/src/rpc.rs 911-921! dispatch] *)
Definition block_by_number (p : JValue) (d : Db) : result JValue :=
  h ← ok_or (match u64_param "height" p with Some h => Some h | None => tip_height d end) "missing height";
  Ok (jopt block_json (block h d)).

(** [while h >= 0 && out.len() < limit], from the height below [k]. *)
Fixpoint newest_blocks (k limit : nat) (d : Db) : list Block :=
  match k, limit with
  | S k, S limit' =>
    match block (N.of_nat k) d with
    | Some b => b :: newest_blocks k limit' d
    | None => newest_blocks k limit d
    end
  | _, _ => []
  end.
(* [src/src/rpc.rs 922-938! dispatch] *)
Definition latest_blocks (p : JValue) (d : Db) : JValue :=
  let limit := N.min (default 10 (u64_param "limit" p)) 100 in
  JArr (if tip d <=? I64_MAX then map block_json (newest_blocks (S (N.to_nat (tip d))) (N.to_nat limit) d) else []).

(* [src/src/rpc.rs 939-960! dispatch] *)
Definition get_transaction (p : JValue) (d : Db) : result JValue :=
  hash ← ok_or (str_param "hash" p) "missing hash";
  match tx_height hash d with
  | None => Ok JNull
  | Some h =>
    b ← ok_or (block h d) "block missing";
    t ← ok_or (List.find (fun t => String.eqb (tx_hash t) hash) (b_transactions b)) "tx missing in block";
    Ok (with_field "status" (JStr "confirmed") (with_field "blockHash" (JStr (b_hash b)) (with_field "blockHeight" (jn h) (tx_json t))))
  end.

(** ** Contracts *)

(* [src/src/rpc.rs 961-968! dispatch] *)
Definition contracts_list (d : Db) : JValue := JObj [
  ("count", jlen (contracts d)); ("deployFeeInaz", jinaz DEPLOY_FEE); ("contracts", JArr (map contract_json (contracts d)))].
(* [src/src/rpc.rs 969-993! dispatch] *)
Definition get_contract (p : JValue) (d : Db) : result JValue :=
  addr ← ok_or (str_param "address" p) "missing address";
  Ok match contract addr d with
     | None => JNull
     | Some c =>
       with_field "storage" (JArr (map (fun kv => JObj [("key", JStr kv.1); ("valueHex", JStr (hex_encode kv.2));
         ("valueText", JStr (from_utf8_lossy kv.2))]) (contract_entries (c_address c) 50 d)))
         (with_field "balanceInaz" (jinaz (balance (account (c_address c) d))) (contract_json c))
     end.
(* [src/src/rpc.rs 994-1011! dispatch] *)
Definition get_contract_storage (p : JValue) (d : Db) : result JValue :=
  addr ← ok_or (str_param "address" p) "missing address";
  key ← ok_or (str_param "key" p) "missing key";
  let v := contract_storage addr key d in
  Ok (JObj [("address", JStr addr); ("key", JStr key); ("found", JBool (bool_decide (is_Some v)));
    ("valueHex", JStr (default "" (hex_encode <$> v))); ("valueText", JStr (default "" (from_utf8_lossy <$> v)))]).
(* [src/src/rpc.rs 1012-1032! dispatch] *)
Definition get_receipt (p : JValue) (d : Db) : result JValue :=
  hash ← ok_or (str_param "hash" p) "missing hash";
  Ok match receipt hash d with
     | None => JNull
     | Some r => JObj [("hash", JStr hash); ("contract", JStr (r_contract r)); ("caller", JStr (r_caller r)); ("ok", JBool (r_ok r));
         ("fuelUsed", jn (r_fuel_used r)); ("height", jn (r_height r)); ("returnHex", JStr (r_return_hex r));
         ("returnText", JStr (default "" (from_utf8_lossy <$> hex_decode (r_return_hex r)))); ("logs", JArr (map JStr (r_logs r)));
         ("error", jopt JStr (r_error r))]
     end.
(* [src/src/rpc.rs 1034-1075! dispatch] *)
Definition query_contract (p : JValue) (d : Db) : result JValue :=
  addr ← ok_or (str_param "address" p) "missing address";
  c ← check_call d addr;
  code ← ok_or (code (c_code_hash c) d) "contract code missing";
  input ← decode_args (Some (Build_Payload "" "" "" 0 false "" (default "" (str_param "args" p))));
  let caller := default addr (str_param "caller" p) in
  let out := execute d addr caller code input 0 (tip d) QUERY_FUEL in
  Ok (JObj [("address", JStr addr); ("ok", JBool (o_ok out)); ("returnHex", JStr (hex_encode (o_ret out)));
    ("returnText", JStr (from_utf8_lossy (o_ret out))); ("logs", JArr (map JStr (o_logs out))); ("fuelUsed", jn (o_fuel_used out));
    ("error", jopt JStr (o_error out)); ("writesDiscarded", jlen (o_writes out))]).

(** ** Status lookups *)

(* [src/src/rpc.rs 1162-1192! dispatch] *)
Definition signature_statuses (p : JValue) (n : Node) : result JValue :=
  hashes ← ok_or (arr_param "hashes" p) "missing hashes array";
  if Nat.ltb 256 (length hashes) then Err "too many hashes (max 256)" else
  let d := n_db n in
  let finalized := finalized_height d in
  let status h :=
    let hash := map_string ascii_lower (default "" (as_str h)) in
    match tx_height hash d with
    | Some height => JObj [("hash", JStr hash); ("status", JStr (if height <=? finalized then "finalized" else "confirmed"));
        ("height", jn height); ("confirmations", jn (sat_sub (tip d) height +!! 1))]
    | None => JObj [("hash", JStr hash); ("status", JStr (if Mempool.contains hash (n_mempool n) then "pending" else "unknown"))]
    end in
  Ok (JObj [("statuses", JArr (map status hashes)); ("finalizedHeight", jn finalized)]).

(** The fee at a percentile of the sorted pool, no lower than the floor. *)
Definition fee_at (floor : N) (fees : list N) (pct : nat) : N :=
  match fees with [] => floor | _ => N.max (nth ((length fees - 1) * pct / 100) fees 0) floor end.
(* [src/src/rpc.rs 1195-1218! dispatch] *)
Definition priority_fee (n : Node) : JValue :=
  let floor := fee_floor n in
  let fees := sort_by N.leb (pool_fees (n_mempool n)) in
  JObj [("baseFee", jamt (base_fee (n_db n))); ("floor", jamt floor); ("queued", jlen fees); ("slow", jamt floor);
    ("normal", jamt (fee_at floor fees 50)); ("fast", jamt (fee_at floor fees 90)); ("urgent", jamt (sat_mul128 (fee_at floor fees 90) 2))].

(** ** Submissions *)

(** [params["tx"]], or the parameters themselves. *)
Definition raw_tx (p : JValue) : JValue := default p (get "tx" p).
Definition tx_param (p : JValue) : result Transaction :=
  match tx_of_json (raw_tx p) with Ok t => Ok t | Err e => Err ("bad tx: " +:+ e) end.

(** The address a deployment will have. *)
Definition predicted_contract (t : Transaction) : result (option string) :=
  match tx_kind t with
  | DeployContract =>
    match decode_code (tx_payload t) with
    | Ok code => Ok ((fun s => contract_address s (tx_nonce t) (code_hash code)) <$> sender t)
    | Err e => Err e
    end
  | _ => Ok None
  end.
(* [src/src/rpc.rs 1076-1092! dispatch] *)
Definition send_transaction (p : JValue) (n : Node) : Reply :=
  match (t ← tx_param p; c ← predicted_contract t; Ok (t, c)) with
  | Err e => Build_Reply (Err e) n []
  | Ok (t, c) =>
    match accept_tx t n with
    | (Err e, n) => Build_Reply (Err e) n []
    | (Ok hash, n) => Build_Reply (Ok (JObj [("hash", JStr hash); ("status", JStr "pending"); ("contract", jopt JStr c)])) n [t]
    end
  end.

(** At most twenty errors are reported. *)
Definition bulk_error (i : nat) (msg : string) (errors : list JValue) : list JValue :=
  if Nat.ltb (length errors) 20 then errors ++ [JObj [("index", JNum (Z.of_nat i)); ("error", JStr msg)]] else errors.
(** The transactions that decode, with their positions. *)
Fixpoint decode_bulk (i : nat) (l : list JValue) (errors : list JValue) : list JValue * list (nat * Transaction) :=
  match l with
  | [] => (errors, [])
  | raw :: l =>
    match tx_of_json raw with
    | Ok t => let '(errors, txs) := decode_bulk (S i) l errors in (errors, (i, t) :: txs)
    | Err e => decode_bulk (S i) l (bulk_error i ("bad tx: " +:+ e) errors)
    end
  end.
Record Bulk := { b_accepted : nat; b_rejected : nat; b_errors : list JValue; b_hashes : list string; b_sent : list Transaction }.
Definition settle_bulk (b : Bulk) (item : (nat * Transaction) * result string) : Bulk :=
  let '((i, t), r) := item in
  match r with
  | Ok hash =>
    {| b_accepted := S (b_accepted b); b_rejected := b_rejected b; b_errors := b_errors b;
       b_hashes := if Nat.ltb (length (b_hashes b)) 1000 then b_hashes b ++ [hash] else b_hashes b; b_sent := b_sent b ++ [t] |}
  | Err e =>
    {| b_accepted := b_accepted b; b_rejected := S (b_rejected b); b_errors := bulk_error i e (b_errors b);
       b_hashes := b_hashes b; b_sent := b_sent b |}
  end.
(* [src/src/rpc.rs 1095-1150! dispatch] *)
Definition send_transactions (x : Process) (p : JValue) (n : Node) : Reply :=
  match arr_param "txs" p with
  | None => Build_Reply (Err "missing txs array") n []
  | Some list =>
    if Nat.ltb MAX_BATCH_TXS (length list) then Build_Reply (Err ("batch too large (max " +:+ dec (N.of_nat MAX_BATCH_TXS) +:+ ")")) n []
    else
      let '(errors, txs) := decode_bulk 0 list [] in
      let '(results, n) := accept_batch (x_cpus x) (map snd txs) n in
      let b := foldl settle_bulk (Build_Bulk 0 (length errors) errors [] []) (zip txs results) in
      Build_Reply (Ok (JObj [("accepted", JNum (Z.of_nat (b_accepted b))); ("rejected", JNum (Z.of_nat (b_rejected b)));
        ("errors", JArr (b_errors b)); ("hashes", JArr (map JStr (b_hashes b))); ("mempool", jn (mempool_size n))])) n (b_sent b)
  end.

(** ** Dispatch *)

(* [src/src/simulate.rs 166-186! preflight] *)
Definition preflight_json (p : Preflight) : JValue := JObj [
  ("ok", JBool (pf_ok p)); ("hash", JStr (pf_hash p)); ("kind", JStr (pf_kind p)); ("from", jopt JStr (pf_from p)); ("to", JStr (pf_to p));
  ("signatureValid", JBool (pf_signature_valid p)); ("chainId", jn (pf_chain_id p)); ("height", jn (pf_height p));
  ("expectedNonce", jopt jn (pf_expected_nonce p)); ("baseFee", jamt (pf_base_fee p)); ("feeFloor", jamt (pf_fee_floor p));
  ("fee", jamt (pf_fee p)); ("totalDebit", jamt (pf_total_debit p)); ("totalDebitInaz", jinaz (pf_total_debit p));
  ("balance", jamt (pf_balance p)); ("balanceAfter", jopt jamt (pf_balance_after p)); ("balanceAfterInaz", jopt jinaz (pf_balance_after p));
  ("errors", JArr (map JStr (pf_errors p))); ("warnings", JArr (map JStr (pf_warnings p)))].

(* [src/src/rpc.rs 882-889! dispatch] *)
Definition report_equivocation (p : JValue) (n : Node) : result JValue * Node :=
  match (e ← evidence_param p; o ← ev_verify e; Ok (e, o)) with
  | Err err => (Err err, n)
  | Ok (e, offender) =>
    match submit_report e n with
    | (Err err, n) => (Err err, n)
    | (Ok hash, n) => (Ok (JObj [("hash", JStr hash); ("offender", JStr offender); ("offence", JStr (ev_label e))]), n)
    end
  end.

(** The methods that read the node. *)
Definition reads (x : Process) (method : string) (p : JValue) (n : Node) : option (result JValue) :=
  let d := n_db n in
  let m := String.eqb method in
  if m "inaz_chainInfo" then Some (Ok (chain_info x n))
  else if m "inaz_haltStatus" then Some (Ok (halt_status n))
  else if m "inaz_tokens" then Some (Ok (tokens_list d))
  else if m "inaz_getToken" then Some (get_token p d)
  else if m "inaz_tokenBalance" then Some (get_token_balance p d)
  else if m "inaz_tokenHoldings" then Some (get_token_holdings p d)
  else if m "inaz_blockNumber" then Some (Ok (jn (tip d)))
  else if m "inaz_feeMarket" then Some (Ok (fee_market n))
  else if m "inaz_getProof" then Some (get_proof p d)
  else if m "inaz_verifyProof" then Some (check_proof p)
  else if m "inaz_stateRoot" then Some (Ok (state_root_info d))
  else if m "inaz_shieldedInfo" then Some (Ok (shielded_info d))
  else if m "inaz_shieldedPath" then Some (shielded_path p d)
  else if m "inaz_finalizedBlockNumber" then Some (Ok (jn (finalized_height d)))
  else if m "inaz_finality" then Some (Ok (finality x p n))
  else if m "inaz_getBalance" || m "inaz_getAccount" then Some (get_account p n)
  else if m "inaz_validators" then Some (Ok (validators_info x n))
  else if m "inaz_slashing" then Some (Ok (slashing_info p d))
  else if m "inaz_previewSlash" then Some (preview_slash p d)
  else if m "inaz_getBlockByNumber" then Some (block_by_number p d)
  else if m "inaz_latestBlocks" then Some (Ok (latest_blocks p d))
  else if m "inaz_getTransaction" then Some (get_transaction p d)
  else if m "inaz_contracts" then Some (Ok (contracts_list d))
  else if m "inaz_getContract" then Some (get_contract p d)
  else if m "inaz_contractStorage" then Some (get_contract_storage p d)
  else if m "inaz_getReceipt" then Some (get_receipt p d)
  else if m "inaz_query" then Some (query_contract p d)
  else if m "inaz_simulateTransaction" then Some (t ← tx_param p; Ok (preflight_json (preflight n t)))
  else if m "inaz_signatureStatuses" then Some (signature_statuses p n)
  else if m "inaz_priorityFee" then Some (Ok (priority_fee n))
  else if m "inaz_nodeStatus" then Some (Ok (node_status x n))
  else None.
(** The report that a submission of evidence hands to gossip is the transaction
    it pooled; it is not listed among [gossiped]. *)
(* [src/src/rpc.rs 480-1236 dispatch] *)
Definition dispatch (x : Process) (method : string) (p : JValue) (n : Node) : Reply :=
  match reads x method p n with
  | Some r => Build_Reply r n []
  | None =>
    if String.eqb method "inaz_reportEquivocation" then let '(r, n) := report_equivocation p n in Build_Reply r n []
    else if String.eqb method "inaz_sendTransaction" then send_transaction p n
    else if String.eqb method "inaz_sendTransactions" then send_transactions x p n
    else Build_Reply (Err ("unknown method " +:+ method)) n []
  end.

(** ** Operator methods, and the metered entry point *)

(** The limits in force; asking also refreshes the cached total stake. *)
(* [src/src/rpc.rs 289-311! dispatch_metered] *)
Definition rpc_limits (x : Process) (t : Tier) (p : JValue) (d : Db) (c : RpcConfig) : JValue * RpcConfig :=
  let '(share, q) := share_pct (x_instant x) d (str_param "key" p) (qos c) in
  let '(mult, q) := multiplier (x_instant x) d (str_param "key" p) q in
  (JObj [("tier", JStr (tier_label t)); ("authEnabled", JBool (auth_enabled c)); ("authRequired", JBool (require_auth c));
    ("trustProxy", JBool (trust_proxy c)); ("anonRatePerSec", JFloat (f64_of_N 25)); ("anonBurst", JFloat (f64_of_N 100));
    ("keyRatePerSec", JFloat (f64_of_N 300)); ("keyBurst", JFloat (f64_of_N 1200)); ("accountTxPerSec", JFloat (f64_of_N 50));
    ("maxConnsPerIp", JNum 32); ("maxLiveConns", JNum 512); ("stakeWeighted", JBool (negb (bool_decide (bindings q = ∅))));
    ("boundKeys", JNum (Z.of_nat (size (bindings q)))); ("stakeSharePct", JFloat share); ("stakeMultiplier", JFloat mult);
    ("maxStakeMultiplier", JFloat MAX_STAKE_MULTIPLIER); ("liveSubscriptions", JNum (Z.of_nat (x_subs x)));
    ("trackedKeys", JNum (Z.of_nat (tracked (keyed c)))); ("trackedAccounts", JNum (Z.of_nat (tracked (accounts c))))],
   with_qos_state q c).
(* [src/src/rpc.rs 313-325! dispatch_metered] *)
Definition halt_node (p : JValue) (n : Node) : JValue * Node :=
  let n := halt (default "operator halt" (str_param "reason" p)) n in
  let d := n_db n in
  (JObj [("halted", JBool true); ("reason", jopt JStr (halt_reason d)); ("height", jn (tip d)); ("finalizedHeight", jn (finalized_height d))], n).
(* [src/src/rpc.rs 326-329! dispatch_metered] *)
Definition resume_node (n : Node) : JValue * Node :=
  let n := resume n in (JObj [("halted", JBool false); ("height", jn (tip (n_db n)))], n).
(* [src/src/rpc.rs 330-342! dispatch_metered] *)
Definition prune_node (p : JValue) (n : Node) : JValue * Node :=
  let keep := default DEFAULT_PRUNE_KEEP (u64_param "keep" p) in
  let finalized := finalized_height (n_db n) in
  let '(removed, s) := prune_blocks (sat_sub finalized keep) (n_store n) in
  (JObj [("removedBlocks", jn removed); ("prunedBelow", jn (pruned_below (db s))); ("keep", jn keep); ("finalizedHeight", jn finalized)],
   with_store s n).
(* [src/src/rpc.rs 350-383! dispatch_metered] *)
Definition net_info (x : Process) (t : Tier) : JValue :=
  match x_net x with
  | None => JObj [("transport", JStr "disabled"); ("peerCount", JNum 0)]
  | Some g =>
    let full := may_see_topology t in
    let ids := known_identities (net_book g) in
    JObj ([("transport", JStr "INSC1 (X25519 + ed25519 auth + ChaCha20-Poly1305)"); ("encryptionRequired", JBool (net_encryption g));
      ("nodeKey", JStr (pubkey_hex (net_id g))); ("peerCount", jlen (net_peers g)); ("authenticatedPeerCount", jlen ids);
      ("allowlistEnforced", JBool (negb (bool_decide (net_allowed g = ∅)))); ("bannedHosts", JNum (Z.of_nat (banned_count (x_instant x) (net_book g))));
      ("detailVisibility", JStr (if full then "admin" else "redacted"))] ++
      (if full then
        [("listen", JStr (net_listen g)); ("peers", JArr (map JStr (net_peers g))); ("allowlist", JArr (map JStr (elements (net_allowed g))));
         ("authenticatedPeers", JArr (map (fun '(ip, id) => JObj [("ip", JStr (ip_text ip)); ("nodeKey", JStr id)]) ids))]
       else []))
  end.

(** What a call names as its signers. *)
Definition call_of (method : string) (p : JValue) : Call :=
  if String.eqb method "inaz_sendTransaction" then Submit (str_param "from_pubkey" (raw_tx p))
  else if String.eqb method "inaz_sendTransactions" then
    match arr_param "txs" p with Some l => Submit_batch (map (str_param "from_pubkey") l) | None => Other end
  else Other.
Definition refusal_text (r : Refusal) : string :=
  match r with
  | Auth_required => "api key required" | Admin_required => "admin key required" | Rate_limited => "rate limited"
  | Account_limited s => "account " +:+ s +:+ " is submitting too fast"
  end.
(* [src/src/rpc.rs 250-387 dispatch_metered] *)
Definition dispatch_metered (x : Process) (method : string) (p : JValue) (t : Tier) (c : RpcConfig) (n : Node) : Reply * RpcConfig :=
  match metered (x_instant x) method (call_of method p) t c with
  | (Some r, c) => (Build_Reply (Err (refusal_text r)) n [], c)
  | (None, c) =>
    if String.eqb method "inaz_rpcLimits" then let '(v, c) := rpc_limits x t p (n_db n) c in (Build_Reply (Ok v) n [], c)
    else if String.eqb method "inaz_halt" then let '(v, n) := halt_node p n in (Build_Reply (Ok v) n [], c)
    else if String.eqb method "inaz_resume" then let '(v, n) := resume_node n in (Build_Reply (Ok v) n [], c)
    else if String.eqb method "inaz_prune" then let '(v, n) := prune_node p n in (Build_Reply (Ok v) n [], c)
    else if String.eqb method "inaz_netInfo" then (Build_Reply (Ok (net_info x t)) n [], c)
    else (dispatch x method p n, c)
  end.
End rpc.
