(* ===== verification/RpcFacts.v ===== *)
(** What a caller of rpc.rs can rely on: no call changes the chain state, the
    proofs and paths it serves verify, bulk submissions account for every
    transaction, listings are what they say, and topology stays private. *)

From S2P Require Import Prelude Bytes Crypto Types Journal Store Smt SmtFacts Poseidon Shielded State StateFacts Fees Staking Tokens.
From S2P Require Import Slashing Votes Mempool Contracts SignGuard Circuit Exec ExecFacts Chain ChainFacts Mirror Simulate Limits Access Rpc.
From Stdlib Require Import Ascii.
From Stdlib Require String.

(** A number of 64 bits is read as itself. *)
Lemma jn_reads h : h <= U64_MAX -> Rpc.as_u64 (jn h) = Some h.
Proof.
  intros H. unfold Rpc.as_u64, jn. destruct (Z.leb_spec 0 (Z.of_N h)); [|lia]. destruct (Z.leb_spec (Z.of_N h) (Z.of_N U64_MAX)); [|lia].
  cbn [andb]. now rewrite N2Z.id.
Qed.

Section facts.
Context {HC : Crypto} {HF : Fr} {HK : Compression} {HP : ChainParams} {HJ : EvidenceJson} {HW : Wasm} {HG : Groth16} {HS : Serde}.

(** ** What a call leaves alone *)

(** Same node but for the mempool. *)
Definition same_but_pool (n n' : Node) : Prop := n' = with_mempool (n_mempool n') n.

Lemma pool_refl n : same_but_pool n n.
Proof. now destruct n. Qed.
Lemma batch_pool cpus txs n : same_but_pool n (accept_batch cpus txs n).2.
Proof.
  unfold accept_batch. destruct txs; [apply pool_refl|]. destruct (halt_reason (n_db n)); [apply pool_refl|].
  destruct (admit_all _ _ _ _) as [rs pool]. now destruct n.
Qed.
Lemma accept_pool t n : same_but_pool n (accept_tx t n).2.
Proof. unfold accept_tx. pose proof (batch_pool None [t] n) as H. now destruct (accept_batch None [t] n). Qed.
Lemma report_pool e n : same_but_pool n (submit_report e n).2.
Proof. unfold submit_report. destruct (check_report _ _ _); [apply accept_pool|apply pool_refl]. Qed.

Lemma send_pool p n : same_but_pool n (left_node (send_transaction p n)).
Proof.
  unfold send_transaction. destruct (_ : result (Transaction * option string)) as [[t c]|e]; [|apply pool_refl].
  pose proof (accept_pool t n) as H. now destruct (accept_tx t n) as [[h|e] n'].
Qed.
Lemma bulk_pool x p n : same_but_pool n (left_node (send_transactions x p n)).
Proof.
  unfold send_transactions. destruct (arr_param "txs" p) as [l|]; [|apply pool_refl]. destruct (Nat.ltb _ _); [apply pool_refl|].
  destruct (decode_bulk 0 l []) as [errors txs]. pose proof (batch_pool (x_cpus x) (map snd txs) n) as H.
  now destruct (accept_batch (x_cpus x) (map snd txs) n) as [rs n'].
Qed.
Lemma equivocation_pool p n : same_but_pool n (report_equivocation p n).2.
Proof.
  unfold report_equivocation. destruct (_ : result (Evidence * string)) as [[e o]|err]; [|apply pool_refl].
  pose proof (report_pool e n) as H. now destruct (submit_report e n) as [[h|err] n'].
Qed.
Lemma dispatch_pool x method p n : same_but_pool n (left_node (dispatch x method p n)).
Proof.
  unfold dispatch. destruct (reads x method p n); [apply pool_refl|]. destruct (String.eqb _ _).
  - pose proof (equivocation_pool p n) as H. now destruct (report_equivocation p n).
  - destruct (String.eqb _ _); [apply send_pool|]. destruct (String.eqb _ _); [apply bulk_pool|apply pool_refl].
Qed.

(** The rows an operator may touch: the halt mark, and pruned history. *)
Definition operator_row (k : Key) : Prop :=
  k.1 = T_BLOCKS \/ k.1 = T_TXS \/ k.1 = T_RECEIPTS \/ k = (T_META, "halt_reason") \/ k = (T_META, "pruned_below").
Definition kept (d d' : Db) : Prop := forall k, ~ operator_row k -> d' !! k = d !! k.
#[local] Instance kept_preorder : PreOrder kept.
Proof. split; [done|]. intros d1 d2 d3 H1 H2 k Hk. now rewrite H2, H1. Qed.

Lemma kept_delete k d : operator_row k -> kept d (delete k d).
Proof. intros Ho k' Hk. rewrite lookup_delete_ne; [done|]. intros ->. contradiction. Qed.
Lemma kept_insert k v d : operator_row k -> kept d (<[k := v]> d).
Proof. intros Ho k' Hk. rewrite lookup_insert_ne; [done|]. intros ->. contradiction. Qed.
Ltac op_row := unfold operator_row; cbn; tauto.

Lemma prune_one_kept h acc : kept (db acc.2) (db (prune_one acc h).2).
Proof.
  destruct acc as [r s]. unfold prune_one. destruct (db s !! _) as [v|]; [|reflexivity]. cbn [snd].
  etransitivity; [|apply kept_delete; op_row]. destruct (as_block v) as [b|]; [|reflexivity].
  generalize (b_transactions b). intros txs. clear v b. revert s. induction txs as [|t txs IH]; intros s; [reflexivity|]. cbn [foldl].
  etransitivity; [|apply IH]. unfold raw_del. cbn [db]. etransitivity; apply kept_delete; op_row.
Qed.
Lemma prune_kept below s : kept (db s) (db (prune_blocks below s).2).
Proof.
  unfold prune_blocks. cbv zeta. destruct (_ <=? 1); [reflexivity|]. generalize (heights_from (N.max (pruned_below (db s)) 1)
    (N.to_nat (N.min below (finalized_height (db s)) - N.max (pruned_below (db s)) 1))). intros hs.
  assert (forall acc, kept (db acc.2) (db (foldl prune_one acc hs).2)) as Hf.
  { induction hs as [|h hs IH]; intros acc; [reflexivity|]. cbn [foldl]. etransitivity; [apply (prune_one_kept h)|apply IH]. }
  match goal with |- context [let '(_, _) := ?r in _] =>
    assert (kept (db s) (db r.2)) as H by exact (Hf (0, s)); destruct r as [removed s'] end.
  cbn [snd] in *. destruct (0 <? removed); [|exact H]. cbn [snd].
  etransitivity; [exact H|]. unfold put. cbn [db]. rewrite db_record. apply kept_insert. op_row.
Qed.

Lemma halt_kept reason n : kept (n_db n) (n_db (halt reason n)).
Proof. unfold n_db, halt, on_store, set_halt, jput, put. cbn. rewrite db_record. apply kept_insert. op_row. Qed.
Lemma resume_kept n : kept (n_db n) (n_db (resume n)).
Proof. unfold n_db, resume, on_store, clear_halt, jdel, del. cbn. rewrite db_record. apply kept_delete. op_row. Qed.
Lemma kept_pool n n' : same_but_pool n n' -> kept (n_db n) (n_db n').
Proof. intros ->. reflexivity. Qed.

Lemma not_privileged t c now method call c' : metered now method call t c = (None, c') -> t <> Admin -> method ∉ PRIVILEGED_METHODS.
Proof.
  unfold metered. intros H Ht Hm. rewrite (bool_decide_true _ Hm), (bool_decide_false _ Ht) in H. discriminate.
Qed.

Lemma nothing_moved n (P : Prop) :
  kept (n_db n) (n_db n) /\ n_votes n = n_votes n /\ n_sign_guard n = n_sign_guard n /\ (P -> same_but_pool n n).
Proof. repeat split. intros _. apply pool_refl. Qed.

(** No call changes the chain: whatever the method and its parameters, a call
    of any tier leaves every row of the store as it was, but for the operator's
    halt mark and the history that pruning removes, and a call without an admin
    key changes nothing of the node but the mempool. *)
Lemma calls_keep_chain_state x method p t c n :
  let n' := left_node (dispatch_metered x method p t c n).1 in
  kept (n_db n) (n_db n') /\ n_votes n' = n_votes n /\ n_sign_guard n' = n_sign_guard n /\
  (t <> Admin -> same_but_pool n n').
Proof.
  cbv zeta. unfold dispatch_metered. destruct (metered _ _ _ _ _) as [[r|] c'] eqn:E; [apply nothing_moved|].
  assert (t <> Admin -> method ∉ PRIVILEGED_METHODS) as Hp by (intros Ht; exact (not_privileged _ _ _ _ _ _ E Ht)).
  destruct (String.eqb_spec method "inaz_rpcLimits") as [->|_].
  { destruct (rpc_limits x t p (n_db n) c') as [v c'']. apply nothing_moved. }
  destruct (String.eqb_spec method "inaz_halt") as [->|_].
  { split; [apply halt_kept|]. repeat split. intros Ht. destruct (Hp Ht). unfold PRIVILEGED_METHODS. set_solver. }
  destruct (String.eqb_spec method "inaz_resume") as [->|_].
  { split; [apply resume_kept|]. repeat split. intros Ht. destruct (Hp Ht). unfold PRIVILEGED_METHODS. set_solver. }
  destruct (String.eqb_spec method "inaz_prune") as [->|_].
  { unfold prune_node. pose proof (prune_kept (sat_sub (finalized_height (n_db n)) (default DEFAULT_PRUNE_KEEP (u64_param "keep" p))) (n_store n)) as H.
    destruct (prune_blocks _ _) as [removed s]. split; [exact H|]. repeat split. intros Ht. destruct (Hp Ht). unfold PRIVILEGED_METHODS. set_solver. }
  destruct (String.eqb_spec method "inaz_netInfo"); [apply nothing_moved|].
  pose proof (dispatch_pool x method p n) as H. cbn [fst]. split; [now apply kept_pool|]. rewrite H. now repeat split.
Qed.

(** ** Served proofs *)

Lemma siblings_back (l : list string) : omap as_str (map JStr l) = l.
Proof. induction l as [|a l IH]; [done|]. cbn. now rewrite IH. Qed.
Lemma field_obj k l : get k (JObj l) = field_of k l.
Proof. reflexivity. Qed.

Lemma value_back {HL : CryptoLaws} domain key root leaf_key value siblings bitmap more :
  value <> Some "" ->
  check_proof (JObj ([("domain", JStr domain); ("key", JStr key); ("root", JStr root); ("leafKey", JStr leaf_key);
    ("value", jopt (fun v => JStr (hex_encode v)) value); ("exists", JBool (bool_decide (is_Some value)));
    ("siblings", JArr (map JStr siblings)); ("siblingBitmap", JStr bitmap)] ++ more)) =
  Ok (JObj [("valid", JBool (Smt.verify_proof root domain key value siblings bitmap))]).
Proof.
  intros Hv. unfold check_proof, str_param, arr_param, value_param, str_param. rewrite !field_obj.
  cbn [field_of app String.eqb Ascii.eqb Bool.eqb mbind option_bind as_str as_array default ok_or result_bind]. rewrite siblings_back.
  destruct value as [v|]; cbn [jopt as_str mbind option_bind result_bind]; [|reflexivity].
  destruct (String.eqb_spec (hex_encode v) "") as [E|_].
  - destruct Hv. f_equal. pose proof (hex_len v) as Hl. rewrite E in Hl. cbn in Hl. destruct v; [done|]. cbn in Hl. lia.
  - now rewrite hex_round_trip.
Qed.

(** C13: Proofs round-trip through the wire.  The reply of [inaz_getProof], handed
    back as it is to [inaz_verifyProof] of any node, is judged valid, for a row
    present or absent of a committed table in a state with a history of updates
    to keys of distinct paths. *)
Theorem served_proofs_verify {HL : CryptoLaws} x x' us n n' domain key p
  (Hus : history us (n_db n)) (Hsep : separated ((domain, key) :: us.*1)) (Hdom : is_Some (domain_tree domain))
  (Hd : default "acct" (str_param "domain" p) = domain) (Hk : str_param "key" p = Some key)
  (Hv : merkle_leaf_value domain key (n_db n) <> Some "") :
  exists v, answer (dispatch x "inaz_getProof" p n) = Ok v /\
    answer (dispatch x' "inaz_verifyProof" v n') = Ok (JObj [("valid", JBool true)]).
Proof.
  change (exists v, get_proof p (n_db n) = Ok v /\ check_proof v = Ok (JObj [("valid", JBool true)])).
  pose proof (history_leaf us (n_db n) domain key Hus Hsep Hdom) as Hl. destruct Hus as (Hc & _ & _).
  pose proof (proof_verifies (n_db n) domain key (merkle_leaf_value domain key (n_db n)) Hc Hl) as Hok.
  unfold get_proof. rewrite Hd. assert ((v ← match get "key" p with Some v => Some v | None => get "address" p end; as_str v) = Some key) as ->.
  { unfold str_param in Hk. destruct (get "key" p); [exact Hk|discriminate]. }
  cbn [ok_or mbind result_bind]. unfold merkle_proof. destruct (smt_proof (n_db n) domain key) as [[lk siblings] bitmap].
  eexists. split; [reflexivity|]. etransitivity; [apply (value_back _ _ _ _ _ _ _ [_; _; _; _]); exact Hv|]. now rewrite Hok.
Qed.

(** ** Note paths *)

(** A client reads the path and the root of a reply. *)
Definition read_path (v : JValue) : option (list F * F) :=
  path ← arr_param "path" v; root ← str_param "root" v; root ← fr_from_hex root;
  path ← mapM (fun j => s ← as_str j; fr_from_hex s) path; Some (path, root).

Lemma path_back {HL : CryptoLaws} {HFL : FrLaws} (l : list F) :
  mapM (fun j => s ← as_str j; fr_from_hex s) (map (fun f => JStr (fr_to_hex f)) l) = Some l.
Proof.
  induction l as [|f l IH]; [done|]. cbn [map mapM]. cbn [as_str mbind option_bind]. now rewrite fr_hex_round_trip, IH.
Qed.

(** Wallets get usable paths.  For every note in the pool, the path
    [inaz_shieldedPath] serves decodes to a path that leads from the note's
    commitment to the pool's root, and no path is served for a position past the
    last note. *)
Theorem served_paths_lead_to_root {HL : CryptoLaws} {HFL : FrLaws} x n p pos (Hp : u64_param "position" p = Some pos)
  (Hl : N.of_nat (length (pool_leaves (n_db n))) <= 2 ^ N.of_nat TREE_DEPTH) :
  let leaves := pool_leaves (n_db n) in
  match answer (dispatch x "inaz_shieldedPath" p n) with
  | Ok v => pos < N.of_nat (length leaves) /\ exists path, read_path v = Some (path, root_from_leaves leaves) /\
      verify_path (nth (N.to_nat pos) leaves (f_of 0)) pos path (root_from_leaves leaves) = true
  | Err _ => N.of_nat (length leaves) <= pos
  end.
Proof.
  change (answer (dispatch x "inaz_shieldedPath" p n)) with (shielded_path p (n_db n)). cbv zeta. unfold shielded_path. rewrite Hp.
  set (leaves := pool_leaves (n_db n)) in *. cbn [ok_or mbind result_bind]. destruct (Nat.ltb_spec (N.to_nat pos) (length leaves)) as [H|H].
  - rewrite merkle_path_siblings by done. cbn [mbind result_bind]. split; [lia|]. exists (siblings leaves 0 TREE_DEPTH (N.to_nat pos)). split.
    + unfold read_path, arr_param, str_param. rewrite !field_obj. cbn [field_of String.eqb Ascii.eqb Bool.eqb mbind option_bind as_array as_str].
      rewrite fr_hex_round_trip. cbn [mbind option_bind]. now rewrite path_back.
    + pose proof (verify_path_siblings leaves (N.to_nat pos)) as Hv. rewrite N2Nat.id in Hv. apply Hv. lia.
  - unfold merkle_path. rewrite (proj2 (Nat.leb_le _ _)) by lia. cbn [mbind result_bind]. lia.
Qed.

(** ** Bulk submission *)

Definition ok_of {A : Type} (r : result A) : option A := match r with Ok a => Some a | Err _ => None end.

Lemma length_admit_all d floor items : forall pool, length (admit_all d floor items pool).1 = length items.
Proof.
  induction items as [|item items IH]; intros pool; [done|]. cbn [admit_all].
  destruct (match item with Ok _ => _ | Err _ => _ end) as [r pool']. specialize (IH pool'). destruct (admit_all d floor items pool') as [rs p].
  cbn in *. now rewrite IH.
Qed.
Lemma length_batch cpus txs n : length (accept_batch cpus txs n).1 = length txs.
Proof.
  unfold accept_batch. destruct txs as [|t txs]; [done|]. destruct (halt_reason (n_db n)); [apply length_map|].
  rewrite precheck_batch_map. pose proof (length_admit_all (n_db n) (fee_floor n) (map (precheck_tx (g_chain_id (n_genesis n))) (t :: txs)) (n_mempool n)) as H.
  rewrite length_map in H. destruct (admit_all _ _ _ _) as [rs pool]. exact H.
Qed.

Lemma bulk_error_len i msg errors : (length errors <= 20)%nat -> length (bulk_error i msg errors) = Nat.min 20 (S (length errors)).
Proof. intros H. unfold bulk_error. destruct (Nat.ltb_spec (length errors) 20); [rewrite length_app; cbn [length]; lia|lia]. Qed.

Lemma decode_bulk_spec l : forall i errors, (length errors <= 20)%nat ->
  let '(errors', txs) := decode_bulk i l errors in
  map snd txs = omap (fun j => ok_of (tx_of_json j)) l /\
  length errors' = Nat.min 20 (length errors + (length l - length txs)) /\ (length txs <= length l)%nat.
Proof.
  induction l as [|j l IH]; intros i errors He; [cbn [decode_bulk length]; split; [done|split; lia]|]. cbn [decode_bulk omap list_omap]. destruct (tx_of_json j) as [t|e]; cbn [ok_of].
  - specialize (IH (S i) errors He). destruct (decode_bulk (S i) l errors) as [errors' txs]. destruct IH as (H1 & H2 & H3).
    cbn [map snd length]. split; [now f_equal|]. split; lia.
  - pose proof (bulk_error_len i ("bad tx: " +:+ e) errors He) as Hb. specialize (IH (S i) (bulk_error i ("bad tx: " +:+ e) errors) ltac:(lia)).
    destruct (decode_bulk _ _ _) as [errors' txs]. destruct IH as (H1 & H2 & H3). cbn [length]. split; [done|]. split; lia.
Qed.

Lemma settle_spec items : forall b, (length (b_errors b) <= 20)%nat -> (length (b_hashes b) <= 1000)%nat ->
  let b' := foldl settle_bulk b items in
  let oks := omap (fun x => ok_of x.2) items in
  b_accepted b' = (b_accepted b + length oks)%nat /\ b_rejected b' = (b_rejected b + (length items - length oks))%nat /\
  b_hashes b' = take 1000 (b_hashes b ++ oks) /\ b_sent b' = b_sent b ++ omap (fun x => _ ← ok_of x.2; Some x.1.2) items /\
  (length (b_errors b') <= 20)%nat /\ (length oks <= length items)%nat.
Proof.
  induction items as [|[[i t] r] items IH]; intros b He Hh.
  - cbn. rewrite !app_nil_r, firstn_all2 by done. repeat split; lia.
  - cbn [foldl omap list_omap fst snd]. destruct r as [h|e]; cbn [ok_of mbind option_bind].
    + assert (take 1000 (b_hashes (settle_bulk b (i, t, Ok h)) ++ omap (fun x => ok_of x.2) items) =
              take 1000 (b_hashes b ++ h :: omap (fun x => ok_of x.2) items) /\ (length (b_hashes (settle_bulk b (i, t, Ok h))) <= 1000)%nat) as [Ht Hlen].
      { cbn [settle_bulk b_hashes]. destruct (Nat.ltb_spec (length (b_hashes b)) 1000).
        - rewrite <- app_assoc. split; [done|]. rewrite length_app. cbn. lia.
        - split; [|done]. now rewrite !take_app_le by lia. }
      destruct (IH (settle_bulk b (i, t, Ok h)) He Hlen) as (H1 & H2 & H3 & H4 & H5 & H6). change (b_accepted (settle_bulk b (i, t, Ok h))) with (S (b_accepted b)) in H1.
      change (b_rejected (settle_bulk b (i, t, Ok h))) with (b_rejected b) in H2. change (b_sent (settle_bulk b (i, t, Ok h))) with (b_sent b ++ [t]) in H4.
      rewrite H1, H2, H3, Ht, H4. cbn [length]. rewrite <- app_assoc. repeat split; lia.
    + destruct (IH (settle_bulk b (i, t, Err e))) as (H1 & H2 & H3 & H4 & H5 & H6); [|done|].
      { cbn [settle_bulk b_errors]. rewrite bulk_error_len by done. lia. }
      change (b_accepted (settle_bulk b (i, t, Err e))) with (b_accepted b) in H1. change (b_rejected (settle_bulk b (i, t, Err e))) with (S (b_rejected b)) in H2.
      change (b_hashes (settle_bulk b (i, t, Err e))) with (b_hashes b) in H3. change (b_sent (settle_bulk b (i, t, Err e))) with (b_sent b) in H4. rewrite H1, H2, H3, H4. cbn [length]. repeat split; lia.
Qed.

(** The transactions of a request that decode, and the verdicts on them. *)
Definition decoded (l : list JValue) : list Transaction := omap (fun j => ok_of (tx_of_json j)) l.

Lemma omap_same {A B : Type} (f g : A -> option B) (l : list A) : (forall a, f a = g a) -> omap f l = omap g l.
Proof. intros H. induction l as [|a l IH]; [done|]. cbn. now rewrite H, IH. Qed.
Lemma zip_snd {A B C : Type} (f : C -> option B) (l : list A) (rs : list C) : length rs = length l ->
  omap (fun x : A * C => f x.2) (zip l rs) = omap f rs.
Proof.
  revert rs. induction l as [|a l IH]; intros [|r rs] H; try discriminate; [done|]. cbn [zip zip_with omap list_omap snd]. rewrite IH by (cbn in H; lia). done.
Qed.
Lemma zip_fst {A C : Type} (p : C -> bool) (l : list (nat * A)) (rs : list C) :
  omap (fun x : (nat * A) * C => if p x.2 then Some x.1.2 else None) (zip l rs) = omap (fun x : A * C => if p x.2 then Some x.1 else None) (zip (map snd l) rs).
Proof. revert rs. induction l as [|[i a] l IH]; intros [|r rs]; try done. cbn. destruct (p r); now rewrite IH. Qed.

(** A bulk submission accounts for every transaction.  The transactions that
    decode are admitted in one batch, in order; the reply counts those admitted,
    lists the first thousand of their hashes, counts as rejected those refused
    and the first twenty that do not decode, reports at most twenty errors, and
    exactly the admitted ones go to gossip. *)
Theorem bulk_accounts_for_each x p n l (Hl : arr_param "txs" p = Some l) (Hn : (length l <= MAX_BATCH_TXS)%nat) :
  let txs := decoded l in
  let rs := (accept_batch (x_cpus x) txs n).1 in
  let oks := omap ok_of rs in
  let reply := dispatch x "inaz_sendTransactions" p n in
  (length oks <= length txs)%nat /\ left_node reply = (accept_batch (x_cpus x) txs n).2 /\
  gossiped reply = omap (fun x => if is_ok x.2 then Some x.1 else None) (zip txs rs) /\
  exists errors, (length errors <= 20)%nat /\ answer reply = Ok (JObj [
    ("accepted", JNum (Z.of_nat (length oks)));
    ("rejected", JNum (Z.of_nat (Nat.min 20 (length l - length txs) + (length txs - length oks))));
    ("errors", JArr errors); ("hashes", JArr (map JStr (take 1000 oks))); ("mempool", jn (mempool_size (left_node reply)))]).
Proof.
  change (dispatch x "inaz_sendTransactions" p n) with (send_transactions x p n). unfold send_transactions. rewrite Hl.
  destruct (Nat.ltb_spec MAX_BATCH_TXS (length l)); [lia|]. pose proof (decode_bulk_spec l 0 [] ltac:(cbn; lia)) as Hd.
  destruct (decode_bulk 0 l []) as [errors items]. destruct Hd as (Ht & He & Hi). fold (decoded l) in Ht. rewrite Ht.
  assert (length (decoded l) = length items) as Hlen by (rewrite <- Ht; apply length_map).
  pose proof (length_batch (x_cpus x) (decoded l) n) as Hb. destruct (accept_batch (x_cpus x) (decoded l) n) as [rs n']. cbn [fst snd] in *.
  pose proof (settle_spec (zip items rs) (Build_Bulk 0 (length errors) errors [] [])) as Hs. cbn [b_errors b_hashes b_accepted b_rejected b_sent length app] in Hs.
  destruct Hs as (H1 & H2 & H3 & H4 & H5 & H6); [cbn [length] in He; lia|lia|].
  rewrite zip_snd in H1, H2, H3, H6 by lia. assert (length (zip items rs) = length (decoded l)) as Hz by (rewrite length_zip_with; lia).
  cbn [left_node gossiped answer]. split; [lia|]. split; [done|]. split.
  - rewrite H4, <- Ht, <- (zip_fst is_ok). apply omap_same. intros [[i t] [h|e]]; done.
  - exists (b_errors (foldl settle_bulk (Build_Bulk 0 (length errors) errors [] []) (zip items rs))). split; [exact H5|].
    rewrite H1, H2, H3. do 3 f_equal. f_equal. f_equal. f_equal. f_equal. cbn [length] in He. lia.
Qed.

(** ** Listings *)

(** The stored blocks below a height, newest first. *)
Definition blocks_below (k : nat) (d : Db) : list Block := omap (fun h => block h d) (rev (map N.of_nat (seq 0 k))).

Lemma blocks_below_S k d : blocks_below (S k) d = match block (N.of_nat k) d with Some b => b :: blocks_below k d | None => blocks_below k d end.
Proof.
  unfold blocks_below. rewrite seq_S, map_app, rev_app_distr. cbn [Nat.add map rev app omap list_omap]. now destruct (block (N.of_nat k) d).
Qed.
Lemma newest_blocks_spec k d : forall limit, newest_blocks k limit d = take limit (blocks_below k d).
Proof.
  induction k as [|k IH]; intros limit; [now destruct limit|]. rewrite blocks_below_S. destruct limit as [|limit]; [done|].
  cbn [newest_blocks]. destruct (block (N.of_nat k) d); [cbn [firstn]; now rewrite IH|apply IH].
Qed.

(** The block list is the newest stored blocks.  [inaz_latestBlocks] returns
    the first [limit] (ten by default, at most a hundred) of the stored blocks
    from the tip down, skipping the heights that are not stored. *)
Theorem latest_blocks_exact x p n (Htip : tip (n_db n) <= I64_MAX) :
  answer (dispatch x "inaz_latestBlocks" p n) =
  Ok (JArr (map block_json (take (N.to_nat (N.min (default 10 (u64_param "limit" p)) 100)) (blocks_below (S (N.to_nat (tip (n_db n)))) (n_db n))))).
Proof.
  change (answer (dispatch x "inaz_latestBlocks" p n)) with (Ok (A := JValue) (latest_blocks p (n_db n))). unfold latest_blocks.
  destruct (N.leb_spec (tip (n_db n)) I64_MAX); [|lia]. cbv zeta. now rewrite newest_blocks_spec.
Qed.

(** ** Topology *)

(** What anyone may learn of the gossip layer. *)
Definition public_view (now : N) (g : Gossip) : bool * string * nat * nat * bool * nat :=
  (net_encryption g, pubkey_hex (net_id g), length (net_peers g), length (known_identities (net_book g)),
   bool_decide (net_allowed g = ∅), banned_count now (net_book g)).

(** Topology is operator data.  To a caller without an admin key the network
    report is a function of the transport's settings, the node key and four
    counts: two nodes that agree on these answer alike, whatever their
    listening address, their peers, their allowlist and their identities. *)
Theorem topology_redacted x x' g g' t (Ht : t <> Admin) (Hx : x_net x = Some g) (Hx' : x_net x' = Some g')
  (Hview : public_view (x_instant x) g = public_view (x_instant x') g') :
  net_info x t = net_info x' t.
Proof.
  unfold net_info. rewrite Hx, Hx'. injection Hview as He Hk Hp Hi Ha Hb. unfold may_see_topology. rewrite (bool_decide_false (t = Admin)) by done.
  unfold jlen. now rewrite He, Hk, Hp, Hi, Ha, Hb.
Qed.

(** ** Fee guidance *)

Lemma fee_at_bounds floor fees p : floor <= fee_at floor fees p.
Proof. unfold fee_at. destruct fees; [done|]. lia. Qed.

Lemma sorted_nth (l : list N) i j : StronglySorted N.le l -> (i <= j)%nat -> (j < length l)%nat -> nth i l 0 <= nth j l 0.
Proof.
  intros Hs. revert i j. induction Hs as [|a l Hs IH Ha]; intros i j Hij Hj; [cbn in Hj; lia|]. destruct j as [|j].
  - now replace i with 0%nat by lia.
  - destruct i as [|i]; [|apply IH; cbn in Hj; lia]. cbn [nth]. rewrite List.Forall_forall in Ha. apply Ha, nth_In. cbn in Hj. lia.
Qed.
Lemma sort_fees_sorted l : StronglySorted N.le (sort_by N.leb l).
Proof.
  apply Sorted_StronglySorted; [intros a b c; apply N.le_trans|].
  pose proof (sort_by_sorted N.leb (fun a b (H : (a <=? b) = false) => proj2 (N.leb_le b a) (N.lt_le_incl _ _ (proj1 (N.leb_gt a b) H))) l) as H.
  induction H as [|a l' Hs IH Hh]; constructor; [exact IH|]. destruct Hh; constructor. now apply N.leb_le.
Qed.

Lemma fee_at_mono floor fees p q : StronglySorted N.le fees -> (p <= q)%nat -> (q <= 100)%nat -> fee_at floor fees p <= fee_at floor fees q.
Proof.
  intros Hs Hp Hq. unfold fee_at. destruct fees as [|f fees]; [done|]. apply N.max_le_compat_r. set (m := (length (f :: fees) - 1)%nat).
  apply sorted_nth; [exact Hs|apply Nat.Div0.div_le_mono; nia|]. apply (Nat.le_lt_trans _ m); [|unfold m; cbn; lia].
  apply Nat.Div0.div_le_upper_bound. nia.
Qed.

(** Fee guidance is ordered and never too low.  Each quote is at least the
    floor a transaction must pay now, a faster one is at least as high, and a
    quote above the floor is a fee some queued transaction pays. *)
Theorem fee_quotes_ordered n p q (Hp : (p <= q)%nat) (Hq : (q <= 100)%nat) :
  let fees := sort_by N.leb (pool_fees (n_mempool n)) in
  let quote := fee_at (fee_floor n) fees in
  fee_floor n <= quote p /\ quote p <= quote q /\ (fee_floor n < quote p -> quote p ∈ pool_fees (n_mempool n)).
Proof.
  cbv zeta. split; [apply fee_at_bounds|]. split; [apply fee_at_mono; [apply sort_fees_sorted|done|done]|].
  pose proof (sort_by_perm N.leb (pool_fees (n_mempool n))) as Hperm. unfold fee_at. destruct (sort_by N.leb (pool_fees (n_mempool n))) as [|f fees] eqn:E; [lia|].
  intros Hlt. rewrite N.max_l by lia. rewrite <- Hperm. apply list_elem_of_In, nth_In.
  assert ((length (f :: fees) - 1) * p / 100 <= length (f :: fees) - 1)%nat; [apply Nat.Div0.div_le_upper_bound; nia|]. cbn [length] in *. lia.
Qed.

(** A confirmed transaction is reported with the hash asked for, from the block
    of the height its index names. *)
Lemma transaction_found p d hash v : str_param "hash" p = Some hash -> get_transaction p d = Ok v -> v <> JNull ->
  exists h b t, tx_height hash d = Some h /\ block h d = Some b /\ t ∈ b_transactions b /\ tx_hash t = hash /\
    get "hash" v = Some (JStr hash) /\ get "blockHeight" v = Some (jn h) /\ get "blockHash" v = Some (JStr (b_hash b)).
Proof.
  intros Hh Hv Hn. unfold get_transaction in Hv. rewrite Hh in Hv. cbn [ok_or mbind result_bind] in Hv.
  destruct (tx_height hash d) as [h|]; [|congruence]. destruct (block h d) as [b|] eqn:Eb; [|discriminate]. cbn [ok_or mbind result_bind] in Hv.
  destruct (List.find _ _) as [t|] eqn:Et; [|discriminate]. cbn [ok_or mbind result_bind] in Hv.
  apply List.find_some in Et as [Hin Heq%String.eqb_eq]. exists h, b, t. split; [done|]. split; [done|]. split; [now apply list_elem_of_In|].
  split; [done|]. apply (f_equal (fun r => match r with Ok v => v | Err _ => JNull end)) in Hv. rewrite <- Hv.
  unfold tx_json, with_field. rewrite !field_obj. cbn [app field_of String.eqb Ascii.eqb Bool.eqb]. now rewrite Heq.
Qed.
End facts.

Module Rpc_example.
Import Toy Toy_field Exec_example Simulate_example.

(** A decoder that knows one transaction, by name. *)
#[local] Instance toy_serde : Serde := {|
  tx_of_json j := match as_str j with Some s => if String.eqb s "transfer" then Ok transfer else Err "unknown" | None => Err "invalid type" end;
  evidence_of_json j := Err "invalid type"; payload_json p := JNull;
  ip_text ip := match ip with V4 b => dec b | V6 b => dec b end |}.
Definition proc : Process := {| x_now := 0; x_instant := 0; x_cpus := None; x_net := None; x_subs := 0 |}.

(** One transaction twice, and a value that is no transaction. *)
Definition bulk : JValue := JObj [("txs", JArr [JStr "transfer"; JNull; JStr "transfer"])].
Lemma bulk_accounts_for_each_witness :
  gossiped (dispatch proc "inaz_sendTransactions" bulk (node transfer)) = [transfer] /\
  exists errors, answer (dispatch proc "inaz_sendTransactions" bulk (node transfer)) = Ok (JObj [
    ("accepted", JNum 1); ("rejected", JNum 2); ("errors", JArr errors); ("hashes", JArr [JStr (tx_hash transfer)]); ("mempool", JNum 1)]).
Proof.
  destruct (bulk_accounts_for_each proc bulk (node transfer) [JStr "transfer"; JNull; JStr "transfer"]) as (_ & _ & Hg & errors & _ & Ha);
    [reflexivity|vm_compute; lia|]. split; [rewrite Hg; vm_compute; reflexivity|]. exists errors. rewrite Ha. vm_compute. reflexivity.
Defined.

(** Twenty-five values that are no transactions count as twenty rejections. *)
Definition garbage : JValue := JObj [("txs", JArr (repeat JNull 25))].
Lemma malformed_undercounted : exists errors, answer (dispatch proc "inaz_sendTransactions" garbage (node transfer)) = Ok (JObj [
    ("accepted", JNum 0); ("rejected", JNum 20); ("errors", JArr errors); ("hashes", JArr []); ("mempool", JNum 0)]).
Proof. eexists. vm_compute. reflexivity. Qed.

(** The account of the Mirror example. *)
Definition ledger : Node := node_new (mk Mirror_example.d0 []) genesis key 0.
Definition ask : JValue := JObj [("domain", JStr "acct"); ("address", JStr alice); ("key", JStr alice)].
Lemma served_proofs_verify_witness : exists v, answer (dispatch proc "inaz_getProof" ask ledger) = Ok v /\
  answer (dispatch proc "inaz_verifyProof" v (node transfer)) = Ok (JObj [("valid", JBool true)]).
Proof.
  apply (served_proofs_verify proc proc Mirror_example.us0 ledger (node transfer) "acct" alice ask).
  - exact Mirror_example.d0_history.
  - exact Mirror_example.d0_separated.
  - now exists T_ACCOUNTS.
  - reflexivity.
  - reflexivity.
  - change (n_db ledger) with Mirror_example.d0. rewrite Mirror_example.d0_value. vm_compute. discriminate.
Defined.

Definition pool : Node := node_new (mk {[ (T_SHIELDED_LEAVES, to_be_bytes 8 0) := VBytes (fr_to_hex (f_of 7)) ]} []) genesis key 0.
Definition at_zero : JValue := JObj [("position", JNum 0)].
Lemma served_paths_lead_to_root_witness : exists v path, answer (dispatch proc "inaz_shieldedPath" at_zero pool) = Ok v /\
  read_path v = Some (path, root_from_leaves [f_of 7]) /\ verify_path (f_of 7) 0 path (root_from_leaves [f_of 7]) = true.
Proof.
  assert (shielded_leaves (n_db pool) = [fr_to_hex (f_of 7)]) as Hl by (vm_compute; reflexivity).
  apply (f_equal (omap fr_from_hex)) in Hl. cbn [omap list_omap] in Hl. rewrite fr_hex_round_trip in Hl. fold (pool_leaves (n_db pool)) in Hl.
  pose proof (served_paths_lead_to_root proc pool at_zero 0) as H. rewrite Hl in H. specialize (H eq_refl ltac:(vm_compute; discriminate)).
  destruct (answer (dispatch proc "inaz_shieldedPath" at_zero pool)) as [v|e]; [|cbn in H; lia].
  destruct H as (_ & path & H1 & H2). exists v, path. split; [reflexivity|]. split; [exact H1|exact H2].
Defined.

Lemma latest_blocks_exact_witness :
  answer (dispatch proc "inaz_latestBlocks" JNull pool) = Ok (JArr []).
Proof. rewrite (latest_blocks_exact proc JNull pool); vm_compute; (reflexivity || discriminate). Defined.

Lemma fee_quotes_ordered_witness :
  let quote := fee_at (fee_floor ledger) (sort_by N.leb (pool_fees (n_mempool ledger))) in quote 50%nat <= quote 90%nat.
Proof. apply (fee_quotes_ordered ledger 50 90); lia. Defined.

(** Two nodes with different peers and addresses. *)
Definition gossip (listen peer : string) : Gossip :=
  {| net_listen := listen; net_peers := [peer]; net_book := book_new 100; net_id := key; net_allowed := {[ peer ]}; net_encryption := true |}.
Definition with_gossip (g : Gossip) : Process := {| x_now := 0; x_instant := 0; x_cpus := None; x_net := Some g; x_subs := 0 |}.
Lemma topology_redacted_witness :
  net_info (with_gossip (gossip "a:1" "b:2")) Anonymous = net_info (with_gossip (gossip "c:3" "d:4")) Anonymous /\
  net_info (with_gossip (gossip "a:1" "b:2")) Admin <> net_info (with_gossip (gossip "c:3" "d:4")) Admin.
Proof.
  split; [|vm_compute; discriminate].
  apply (topology_redacted _ _ (gossip "a:1" "b:2") (gossip "c:3" "d:4")); [discriminate|reflexivity|reflexivity|vm_compute; reflexivity].
Defined.
End Rpc_example.
