(* ===== verification/Wire.v ===== *)
(** Small machines between the threads of a node and the wire: the pump that
    writes the queued frames of a socket (ws.rs), a request to one peer and a
    message to all (p2p.rs), and amounts inside tagged JSON values (types.rs). *)

From S2P Require Import Prelude Bytes Crypto Types Journal Store Smt Poseidon Shielded State Fees Staking Tokens Slashing Votes.
From S2P Require Import Mempool Contracts SignGuard Circuit Exec Chain Simulate Limits Access Rpc RpcFacts Ws Events P2p.
From Stdlib Require Import Ascii.
From Stdlib Require String.

(** ** The pump of a socket *)

(** What the queue gave within the ping interval. *)
Inductive Awaited := Queued (text : string) | Quiet | Disconnected.
(** One turn of the loop: whether the reader had stopped the socket, what the
    queue gave, and whether the write went through. *)
Record Turn := { t_stopped : bool; t_got : Awaited; t_written : bool }.
(** The frame a turn writes: a text frame, or a ping in a quiet interval. *)
Definition turn_frame (t : Turn) : option string :=
  match t_got t with Queued text => Some (send 1 text) | Quiet => Some (send 9 "inaz") | Disconnected => None end.
(** The frames that reached the socket. *)
(* [src/src/ws.rs 175-199! handle] *)
Fixpoint pump (turns : list Turn) : list string :=
  match turns with
  | [] => []
  | t :: turns =>
    if t_stopped t then []
    else match turn_frame t with
    | Some f => if t_written t then f :: pump turns else []
    | None => []
    end
  end.

Definition queued (turns : list Turn) : list string := omap (fun t => match t_got t with Queued s => Some (send 1 s) | _ => None end) turns.
Definition is_ping (f : string) : bool := String.eqb f (send 9 "inaz").
Lemma text_not_ping s : is_ping (send 1 s) = false.
Proof. apply String.eqb_neq. unfold send. intros H. injection H. discriminate. Qed.
Lemma queued_prefix turns : filter (fun f => is_ping f = false) (pump turns) `prefix_of` queued turns.
Proof.
  induction turns as [|t turns IH]; [apply prefix_nil|]. cbn [pump]. destruct (t_stopped t); [apply prefix_nil|]. unfold turn_frame, queued in *. cbn [omap list_omap].
  destruct (t_got t) as [s| |].
  - destruct (t_written t); [|apply prefix_nil]. rewrite filter_cons_True by apply text_not_ping. now apply prefix_cons.
  - destruct (t_written t); [|apply prefix_nil]. rewrite filter_cons_False; [exact IH|]. unfold is_ping. rewrite String.eqb_refl. discriminate.
  - apply prefix_nil.
Qed.
(** A subscriber gets its frames in order, with none missing: what the pump has
    written, pings apart, is at any time the first of the queued frames, and all
    of them while the socket is open and its writes go through. *)
Theorem pump_in_order turns :
  filter (fun f => is_ping f = false) (pump turns) `prefix_of` queued turns /\
  (Forall (fun t => t_stopped t = false /\ t_written t = true /\ t_got t <> Disconnected) turns ->
    filter (fun f => is_ping f = false) (pump turns) = queued turns).
Proof.
  split; [apply queued_prefix|]. induction 1 as [|t turns (Hs & Hw & Hg) _ IH]; [done|]. cbn [pump]. rewrite Hs. unfold turn_frame, queued in *. cbn [omap list_omap].
  destruct (t_got t) as [s| |]; rewrite ?Hw; [| |done].
  - rewrite filter_cons_True by apply text_not_ping. now rewrite IH.
  - rewrite filter_cons_False; [exact IH|]. unfold is_ping. rewrite String.eqb_refl. discriminate.
Qed.

(** ** Peers *)

Section peers.
Context {HC : Crypto} {HF : Fr} {HK : Compression} {HP : ChainParams} {HJ : EvidenceJson} {HW : Wasm} {HG : Groth16}.

(** A request over a fresh link: dialling, sending and one reply, each of which
    may fail. *)
(* [src/src/p2p.rs 198-206 P2p::request] *)
Definition request_over {A : Type} (dialled : result Link) (sent : Link -> result unit) (received : Link -> result (option A)) : result A :=
  ch ← dialled; _ ← sent ch; v ← received ch; ok_or v "empty reply".
(** A message to every peer: the peers it reached. *)
(* [src/src/p2p.rs 184-195 P2p::broadcast] *)
Definition broadcast (dialled : string -> result Link) (sent : Link -> result unit) (p : P2p) : list string :=
  List.filter (fun peer => is_ok (ch ← dialled peer; sent ch)) (peers p).
(** [n] rounds of the background catch-up; [busy] says in which of them another
    thread holds the gate. *)
Context {HE : Env} {HS : Serde}.
(* [src/src/p2p.rs 838-843 sync_loop] *)
Fixpoint sync_loop (fuel n : nat) (busy : nat -> bool) (p : P2p) (w : World) : option World :=
  match n with O => Some w | S n => w ← sync_once fuel (busy n) p w; sync_loop fuel n busy p w end.
End peers.

(** ** Amounts in tagged values *)

(* [src/src/types.rs 131-133 serialize] *)
Definition u128_serialize (v : N) : JValue := JStr (dec v).
(* [src/src/types.rs 135-151 deserialize] *)
Definition u128_deserialize (j : JValue) : result N :=
  match j with
  | JStr s => ok_or (parse_u128 s) "invalid amount"
  | JNum _ => ok_or (Rpc.as_u64 j) "data did not match any variant of untagged enum Either"
  | _ => Err "data did not match any variant of untagged enum Either"
  end.
(** An amount of 128 bits survives as text, and a number of older peers is read
    as itself. *)
Theorem u128_round_trip v :
  (v <= U128_MAX -> u128_deserialize (u128_serialize v) = Ok v) /\ (v <= U64_MAX -> u128_deserialize (jn v) = Ok v).
Proof.
  split; intros H.
  - unfold u128_deserialize, u128_serialize. unfold parse_u128. now rewrite parse_uint_dec.
  - cbn [u128_deserialize jn]. change (JNum (Z.of_N v)) with (jn v). now rewrite jn_reads.
Qed.
