(* ===== verification/Text.v ===== *)
(** Text as the entry points of the node read it: the lines of a request head or
    of a file, lists separated by commas, the address of a peer.  What the
    standard library of the source does with [lines], [split], [starts_with] and
    [IpAddr::from_str] is written out.  Text is bytes; white space and letters
    outside ASCII have no special meaning. *)

From S2P Require Import Prelude Bytes Limits Events P2p.
From Stdlib Require Import Ascii.
From Stdlib Require String.

Definition LF : ascii := ascii_of_N 10.
Definition CR : ascii := ascii_of_N 13.
Definition CRLF : string := String CR (String LF "").
Definition QUOTE : string := String (ascii_of_N 34) "".

(** [str::lines]: a carriage return goes with the newline it precedes. *)
Definition cons_char (c : ascii) (ls : list string) : list string :=
  match ls with [] => [String c ""] | l :: ls => String c l :: ls end.
Fixpoint lines (s : string) : list string :=
  match s with
  | "" => []
  | String c s' =>
    if Ascii.eqb c LF then "" :: lines s'
    else match s' with
    | String d s'' => if Ascii.eqb c CR && Ascii.eqb d LF then "" :: lines s'' else cons_char c (lines s')
    | "" => [String c ""]
    end
  end.

(** [to_ascii_lowercase], [starts_with] *)
Definition lower (s : string) : string := map_string ascii_lower s.
Definition starts_with (p s : string) : bool := match strip_prefix p s with Some _ => true | None => false end.

(** [s.split_whitespace()] *)
Fixpoint words_go (fuel : nat) (s : string) : list string :=
  match fuel with
  | O => []
  | S fuel => match trim_start s with "" => [] | t => let '(w, r) := next_word t in w :: words_go fuel r end
  end.
Definition split_whitespace (s : string) : list string := words_go (slen s) s.

(** [s.split(',').map(trim).filter(not empty)], the form of every list flag. *)
Definition comma_list (s : string) : list string :=
  List.filter (fun k => negb (String.eqb k "")) (map trim (split_on ","%char s)).

(** ** [IpAddr::from_str] *)

Definition radix_digit (radix : N) (c : ascii) : option N :=
  let v := N_of_ascii c in
  let d := if (48 <=? v) && (v <=? 57) then Some (v - 48)
    else if (97 <=? v) && (v <=? 122) then Some (v - 87)
    else if (65 <=? v) && (v <=? 90) then Some (v - 55) else None in
  d ← d; if d <? radix then Some d else None.
(** The digits at the head of the text, their number and their value. *)
Fixpoint read_digits (radix : N) (n : nat) (acc : N) (s : string) : nat * N * string :=
  match s with
  | "" => (n, acc, s)
  | String c s' => match radix_digit radix c with Some d => read_digits radix (S n) (acc * radix + d) s' | None => (n, acc, s) end
  end.
Definition read_number (radix : N) (max_digits : nat) (zero_prefix : bool) (max : N) (s : string) : option (N * string) :=
  let '(n, v, r) := read_digits radix 0 0 s in
  if Nat.eqb n 0 || Nat.ltb max_digits n || (max <? v) then None
  else if negb zero_prefix && starts_with "0" s && Nat.ltb 1 n then None
  else Some (v, r).
Definition given (c : ascii) (s : string) : option string :=
  match s with String d s' => if Ascii.eqb c d then Some s' else None | "" => None end.

Definition read_octet : string -> option (N * string) := read_number 10 3 false 255.
Definition read_ipv4 (s : string) : option (N * string) :=
  '(a, s) ← read_octet s; s ← given "."%char s; '(b, s) ← read_octet s; s ← given "."%char s;
  '(c, s) ← read_octet s; s ← given "."%char s; '(d, s) ← read_octet s;
  Some (((a * 256 + b) * 256 + c) * 256 + d, s).

(** Up to [limit] groups of sixteen bits, with a trailing IPv4 address as two
    of them; whether there was one, and the rest of the text. *)
Fixpoint read_groups (limit : nat) (first : bool) (s : string) : list N * bool * string :=
  match limit with
  | O => ([], false, s)
  | S limit =>
    let after_sep := if first then Some s else given ":"%char s in
    let v4 := match limit with O => None | S _ => s ← after_sep; read_ipv4 s end in
    match v4 with
    | Some (v, s) => ([v / 65536; v mod 65536], true, s)
    | None =>
      match (s ← after_sep; read_number 16 4 true 65535 s) with
      | Some (g, s) => let '(gs, v4, s) := read_groups limit false s in (g :: gs, v4, s)
      | None => ([], false, s)
      end
    end
  end.
Definition groups_value (gs : list N) : N := foldl (fun acc g => acc * 65536 + g) 0 gs.
Definition read_ipv6 (s : string) : option (N * string) :=
  let '(head, head_v4, s) := read_groups 8 true s in
  if Nat.eqb (length head) 8 then Some (groups_value head, s)
  else if head_v4 then None
  else
    s ← given ":"%char s; s ← given ":"%char s;
    let '(tail, _, s) := read_groups (7 - length head) true s in
    Some (groups_value (head ++ repeat 0 (8 - length head - length tail) ++ tail), s).

Definition ip_of_text (s : string) : option IpAddr :=
  match read_ipv4 s with
  | Some (v, "") => Some (V4 v)
  | Some _ => None
  | None => match read_ipv6 s with Some (v, "") => Some (V6 v) | _ => None end
  end.

Lemma ip_examples :
  ip_of_text "127.0.0.1" = Some (V4 2130706433) /\ ip_of_text "::1" = Some (V6 1) /\ ip_of_text "1:2:3:4:5:6:7:8" <> None /\
  ip_of_text "::ffff:1.2.3.4" = Some (V6 (65535 * 4294967296 + 16909060)) /\
  ip_of_text "01.2.3.4" = None /\ ip_of_text "1.2.3.256" = None /\ ip_of_text "1::2::3" = None /\ ip_of_text "1:2:3:4:5:6:7::" <> None.
Proof. vm_compute. repeat split; discriminate. Qed.

(** ** Facts *)

Lemma starts_with_app p s : starts_with p (p +:+ s) = true.
Proof.
  unfold starts_with. replace (strip_prefix p (p +:+ s)) with (Some s); [done|].
  induction p as [|c p IH]; [done|]. cbn. now rewrite Ascii.eqb_refl.
Qed.

Lemma lines_cons c s l ls : c <> LF -> lines s = l :: ls ->
  (forall s', s = String LF s' -> c <> CR) -> lines (String c s) = String c l :: ls.
Proof.
  intros Hc Hs Hcr. cbn [lines]. rewrite (proj2 (Ascii.eqb_neq c LF) Hc). destruct s as [|d s]; [discriminate|].
  destruct (Ascii.eqb_spec c CR) as [->|]; [destruct (Ascii.eqb_spec d LF) as [->|]|]; cbn [andb]; [now destruct (Hcr s)| |]; now rewrite Hs.
Qed.

(** A line without control characters, with either ending. *)
Definition no_breaks (s : string) : bool := all_chars (fun c => negb (Ascii.eqb c LF) && negb (Ascii.eqb c CR)) s.

Lemma lines_crlf a s : no_breaks a = true -> lines (a +:+ CRLF +:+ s) = a :: lines s.
Proof.
  unfold no_breaks. induction a as [|c a IH]; [reflexivity|]. cbn [all_chars]. intros (Hc & Ha)%andb_prop. apply andb_prop in Hc as [H1 H2].
  apply negb_true_iff, Ascii.eqb_neq in H1, H2. change (String c a +:+ CRLF +:+ s) with (String c (a +:+ CRLF +:+ s)).
  now apply lines_cons; [|apply IH|].
Qed.
Lemma lines_lf a s : no_breaks a = true -> lines (a +:+ String LF s) = a :: lines s.
Proof.
  unfold no_breaks. induction a as [|c a IH]; [reflexivity|]. cbn [all_chars]. intros (Hc & Ha)%andb_prop. apply andb_prop in Hc as [H1 H2].
  apply negb_true_iff, Ascii.eqb_neq in H1, H2. change (String c a +:+ String LF s) with (String c (a +:+ String LF s)).
  now apply lines_cons; [|apply IH|].
Qed.
