(* ===== verification/Log.v ===== *)
(** log.rs: the lines a node writes while it runs, as text.  A line is a
    function of its level, the time, the message and its fields; [plain] says
    that the output is not coloured.  The date is computed from the seconds since
    1970 without a library, and is proved to be the civil calendar. *)

From S2P Require Import Prelude Bytes SignGuard Limits Events P2p Text.
From Stdlib Require Import Ascii.
From Stdlib Require String.

Definition ESC : string := String (ascii_of_N 27) "".
(** [println!] *)
Definition put_line (s : string) : string := s +:+ newline.

(** ** Padding

    [{:<width$}] counts characters: the bytes that do not continue one. *)
Definition continues (c : ascii) : bool := let v := N_of_ascii c in (128 <=? v) && (v <? 192).
Fixpoint chars (s : string) : nat :=
  match s with "" => O | String c s' => (if continues c then 0 else 1) + chars s' end%nat.
Fixpoint repeat_text (n : nat) (s : string) : string := match n with O => "" | S n => s +:+ repeat_text n s end.
Definition pad (width : nat) (s : string) : string := s +:+ repeat_text (width - chars s) " ".
Definition pad_start (width : nat) (s : string) : string := repeat_text (width - chars s) " " +:+ s.
Fixpoint join (sep : string) (l : list string) : string :=
  match l with [] => "" | [x] => x | x :: l => x +:+ sep +:+ join sep l end.

(** ** Levels *)

(* [src/src/log.rs 21-27 Level] *)
Inductive Level := Info | Warn | Error | Debug.
(* [src/src/log.rs 30-37 Level::tag] *)
Definition tag (l : Level) : string := match l with Info => "INFO " | Warn => "WARN " | Error => "ERROR" | Debug => "DEBUG" end.
(* [src/src/log.rs 14-14 GRAY] *)
Definition GRAY : string := ESC +:+ "[2m".
(* [src/src/log.rs 15-15 GREEN] *)
Definition GREEN : string := ESC +:+ "[32m".
(* [src/src/log.rs 16-16 YELLOW] *)
Definition YELLOW : string := ESC +:+ "[33m".
(* [src/src/log.rs 17-17 RED] *)
Definition RED : string := ESC +:+ "[31m".
(* [src/src/log.rs 18-18 RESET] *)
Definition RESET : string := ESC +:+ "[0m".
(* [src/src/log.rs 38-45 Level::color] *)
Definition color (l : Level) : string := match l with Info => GREEN | Warn => YELLOW | Error => RED | Debug => GRAY end.
(* [src/src/log.rs 48-52 plain] *)
Definition plain (var : string -> option string) (terminal : bool) : bool :=
  bool_decide (is_Some (var "INAZ_NO_COLOR")) || bool_decide (is_Some (var "NO_COLOR")) || negb terminal.

(** ** Dates *)

(* [src/src/log.rs 65-65! stamp] *)
Definition leap (year : N) : bool := ((year mod 4 =? 0) && negb (year mod 100 =? 0)) || (year mod 400 =? 0).
(* [src/src/log.rs 66-66! stamp] *)
Definition year_len (year : N) : N := if leap year then 366 else 365.
(** The day in the year, and the year; the days of a number of seconds fit an
    i64, and every year takes at least 365 of them. *)
(* [src/src/log.rs 64-72! stamp] *)
Fixpoint year_loop (fuel : nat) (days year : N) : N * N :=
  match fuel with
  | O => (days, year)
  | S fuel => if days <? year_len year then (days, year) else year_loop fuel (days - year_len year) (year + 1)
  end.
(* [src/src/log.rs 73-87! stamp] *)
Definition months (year : N) : list N := [31; if leap year then 29 else 28; 31; 30; 31; 30; 31; 31; 30; 31; 30; 31].
(* [src/src/log.rs 88-95! stamp] *)
Fixpoint month_loop (lens : list N) (days month : N) : N * N :=
  match lens with
  | [] => (days, month)
  | len :: lens => if days <? len then (days, month) else month_loop lens (days - len) (month + 1)
  end.
(** Year, month and day of a number of days since 1970. *)
Definition civil (days : N) : N * N * N :=
  let '(in_year, year) := year_loop (S (N.to_nat (days / 365))) days 1970 in
  let '(in_month, month) := month_loop (months year) in_year 1 in
  (year, month, in_month + 1).
(* [src/src/log.rs 55-104 stamp] *)
Definition stamp (secs ms : N) : string :=
  let '(_, month, day) := civil (secs / 86400) in
  dec_pad 2 month +:+ "-" +:+ dec_pad 2 day +:+ "|" +:+ dec_pad 2 ((secs / 3600) mod 24) +:+ ":" +:+
  dec_pad 2 ((secs / 60) mod 60) +:+ ":" +:+ dec_pad 2 (secs mod 60) +:+ "." +:+ dec_pad 3 ms.

(** ** Numbers and hashes *)

(** A character at every index but the first has a comma before it when the
    characters from it on are a multiple of three. *)
Fixpoint group (first : bool) (s : string) : string :=
  match s with
  | "" => ""
  | String c s' => (if negb first && Nat.eqb (slen s mod 3) 0 then "," else "") +:+ String c (group false s')
  end.
(* [src/src/log.rs 108-118 num] *)
Definition num (n : N) : string := group true (dec n).
(* [src/src/log.rs 121-126 short] *)
Definition short (hash : string) : string :=
  if Nat.leb (slen hash) 10 then hash
  else String.substring 0 8 hash +:+ ".." +:+ String.substring (slen hash - 4) 4 hash.

(** ** Lines *)

Definition Fields : Type := list (string * string).
(* [src/src/log.rs 12-12 MSG_WIDTH] *)
Definition MSG_WIDTH : nat := 38.
Definition fields_text (kv : Fields) : string := join " " (map (fun '(k, v) => k +:+ "=" +:+ v) kv).
(** A process writes at [secs] seconds and [ms] milliseconds. *)
Record Clock := { at_secs : N; at_ms : N }.
Definition clock_text (t : Clock) : string := stamp (at_secs t) (at_ms t).
(* [src/src/log.rs 128-162 log] *)
Definition log (p : bool) (t : Clock) (level : Level) (msg : string) (kv : Fields) : string :=
  let line :=
    if p then tag level +:+ " [" +:+ clock_text t +:+ "] " +:+ pad MSG_WIDTH msg +:+ " " +:+ fields_text kv
    else color level +:+ tag level +:+ RESET +:+ " " +:+ GRAY +:+ "[" +:+ clock_text t +:+ "]" +:+ RESET +:+ " " +:+
      pad MSG_WIDTH msg +:+ " " +:+ GRAY +:+ fields_text kv +:+ RESET in
  put_line (trim_end line).
(* [src/src/log.rs 164-166 info] *)
Definition info (p : bool) (t : Clock) : string -> Fields -> string := log p t Info.
(* [src/src/log.rs 168-170 warn] *)
Definition warn (p : bool) (t : Clock) : string -> Fields -> string := log p t Warn.
(* [src/src/log.rs 172-174 error] *)
Definition error (p : bool) (t : Clock) : string -> Fields -> string := log p t Error.
(** [platform]: the operating system and the architecture of the build. *)
(* [src/src/log.rs 177-198 welcome] *)
Definition welcome (p : bool) (t : Clock) (platform version : string) (chain_id : N) (data address : string) : string :=
  newline +:+ put_line ("Inazuma/v" +:+ version +:+ "/" +:+ platform +:+ " — sovereign L1, INAZ native coin") +:+ newline +:+
  info p t "Starting Inazuma node" [("chain", dec chain_id); ("datadir", data); ("validator", short address)].

(** ** The calendar *)

(** The Gregorian calendar, by its rule: the days before a year are 365 for each
    year since 1970 and one for each leap year of them. *)
Definition before_year (year : N) : N := 
  365 * (year - 1970) + ((year - 1) / 4 - 492) + ((year - 1) / 400 - 4) - ((year - 1) / 100 - 19).
Definition total (l : list N) : N := sumN (fun n => n) l.
Definition before_month (year month : N) : N := total (take (N.to_nat (month - 1)) (months year)).
Definition month_len (year month : N) : N := default 0 (months year !! N.to_nat (month - 1)).
Definition day_number (year month day : N) : N := before_year year + before_month year month + (day - 1).
Definition is_date (year month day : N) : Prop :=
  1970 <= year /\ 1 <= month <= 12 /\ 1 <= day <= month_len year month.

Lemma year_lengths y : year_len y = 365 \/ year_len y = 366.
Proof. unfold year_len. destruct (leap y); auto. Qed.
Lemma quotient_step k y : 0 < k -> 1 <= y -> y / k = (y - 1) / k + (if y mod k =? 0 then 1 else 0).
Proof.
  intros Hk Hy. pose proof (N.div_mod y k ltac:(lia)) as Hd. pose proof (N.mod_lt y k ltac:(lia)) as Hm.
  destruct (N.eqb_spec (y mod k) 0) as [E|E].
  - destruct (N.zero_or_succ (y / k)) as [Hq|[q Hq]]; rewrite Hq in Hd |- *; [lia|]. rewrite N.mul_succ_r in Hd.
    rewrite <- (N.div_unique (y - 1) k q (k - 1)); lia.
  - revert Hd Hm E. generalize (y / k) (y mod k). intros q r Hd Hm E. rewrite <- (N.div_unique (y - 1) k q (r - 1)); lia.
Qed.
Lemma multiple_divides a b y : y mod (a * b) = 0 -> y mod a = 0.
Proof. rewrite !N.Lcm0.mod_divide. intros H. etransitivity; [|exact H]. exists b. apply N.mul_comm. Qed.
Lemma before_year_step y : 1970 <= y -> before_year (y + 1) = before_year y + year_len y.
Proof.
  intros Hy. unfold before_year, year_len, leap. rewrite N.add_sub.
  rewrite (quotient_step 4 y), (quotient_step 100 y), (quotient_step 400 y) by lia.
  assert (forall k, 0 < k -> 1969 / k <= (y - 1) / k) as Hge by (intros; apply N.Div0.div_le_mono; lia).
  pose proof (Hge 4 ltac:(lia)) as G4. pose proof (Hge 100 ltac:(lia)) as G100. pose proof (Hge 400 ltac:(lia)) as G400.
  change (1969 / 4) with 492 in G4. change (1969 / 100) with 19 in G100. change (1969 / 400) with 4 in G400.
  pose proof (N.Div0.mul_div_le (y - 1) 100) as H1.
  pose proof (multiple_divides 4 25 y) as H2. pose proof (multiple_divides 100 4 y) as H3. change (4 * 25) with 100 in H2. change (100 * 4) with 400 in H3.
  destruct (N.eqb_spec (y mod 4) 0), (N.eqb_spec (y mod 100) 0), (N.eqb_spec (y mod 400) 0); cbn [negb andb orb]; try (exfalso; tauto); lia.
Qed.
Lemma before_year_mono y k : 1970 <= y -> before_year y + 365 * k <= before_year (y + k).
Proof.
  intros Hy. induction k as [|k IH] using N.peano_ind; [rewrite N.mul_0_r, !N.add_0_r; done|].
  rewrite <- N.add_1_r, N.add_assoc, before_year_step by lia. destruct (year_lengths (y + k)); lia.
Qed.
Lemma year_unique y y' r r' : 1970 <= y -> 1970 <= y' -> r < year_len y -> r' < year_len y' ->
  before_year y + r = before_year y' + r' -> y = y' /\ r = r'.
Proof.
  assert (forall y y' r r', 1970 <= y -> r < year_len y -> before_year y + r = before_year y' + r' -> y' <= y) as H.
  { intros a b r1 r2 Ha Hr E. destruct (N.le_gt_cases b a) as [|Hl]; [done|].
    pose proof (before_year_mono (a + 1) (b - (a + 1)) ltac:(lia)) as Hm. rewrite before_year_step in Hm by done.
    replace (a + 1 + (b - (a + 1))) with b in Hm by lia. lia. }
  intros Hy Hy' Hr Hr' E. assert (y = y') as -> by (apply N.le_antisymm; [exact (H y' y r' r Hy' Hr' (eq_sym E))|exact (H y y' r r' Hy Hr E)]).
  split; [done|lia].
Qed.

Lemma fuel_enough q : q < N.of_nat (S (N.to_nat q)).
Proof. lia. Qed.
Lemma year_loop_exact fuel : forall days year, 1970 <= year -> days / 365 < N.of_nat fuel ->
  let '(in_year, y) := year_loop fuel days year in 1970 <= y /\ in_year < year_len y /\ before_year y + in_year = before_year year + days.
Proof.
  induction fuel as [|fuel IH]; intros days year Hy Hf; [now apply N.nlt_0_r in Hf|]. cbn [year_loop]. destruct (N.ltb_spec days (year_len year)) as [Hl|Hl]; [auto|].
  assert (365 <= year_len year) as Hlen by (destruct (year_lengths year); lia).
  specialize (IH (days - year_len year) (year + 1)). destruct (year_loop fuel _ _) as [r y]. destruct IH as (H1 & H2 & H3); [lia| |].
  - assert ((days - year_len year) / 365 <= (days - 365) / 365) as Hle by (apply N.Div0.div_le_mono; lia).
    replace days with (days - 365 + 1 * 365) in Hf by lia. rewrite N.div_add in Hf by lia. lia.
  - rewrite before_year_step in H3 by done. split; [done|]. split; [done|lia].
Qed.

(** Where a number falls in a row of intervals of the given lengths. *)
Lemma month_loop_exact lens : forall days m, days < total lens -> 1 <= m ->
  let '(r, m') := month_loop lens days m in exists i, m' = m + N.of_nat i /\ days = total (take i lens) + r /\ exists len, lens !! i = Some len /\ r < len.
Proof.
  induction lens as [|len lens IH]; intros days m Hd Hm; [cbn in Hd; lia|]. cbn [month_loop]. destruct (N.ltb_spec days len) as [Hl|Hl].
  - exists O. rewrite N.add_0_r. split; [done|]. split; [done|]. now exists len.
  - unfold total in Hd. cbn [sumN foldr] in Hd. specialize (IH (days - len) (m + 1)). destruct (month_loop _ _ _) as [r m'].
    destruct IH as (i & -> & Hr & len' & Hi & Hlt); [unfold total, sumN; lia|lia|]. exists (S i). split; [lia|]. split; [|now exists len'].
    unfold total in *. cbn [take sumN foldr]. fold (sumN (fun n : N => n) (take i lens)). lia.
Qed.
Lemma month_loop_finds lens : forall i r len m, lens !! i = Some len -> r < len -> month_loop lens (total (take i lens) + r) m = (r, m + N.of_nat i).
Proof.
  induction lens as [|l lens IH]; intros i r len m Hi Hr; [discriminate|]. destruct i as [|i]; cbn [lookup list_lookup] in Hi; cbn [month_loop take].
  - injection Hi as ->. unfold total, sumN. cbn [foldr]. rewrite N.add_0_l, (proj2 (N.ltb_lt _ _) Hr). f_equal. lia.
  - unfold total in *. cbn [sumN foldr]. fold (sumN (fun n : N => n) (take i lens)). rewrite (proj2 (N.ltb_ge _ _)) by lia.
    replace (l + sumN (fun n : N => n) (take i lens) + r - l) with (sumN (fun n : N => n) (take i lens) + r) by lia. rewrite (IH i r len) by done. f_equal. lia.
Qed.
Lemma months_total y : total (months y) = year_len y.
Proof. unfold months, year_len. now destruct (leap y). Qed.

(** The date of a day is a date of the calendar, and its number is the day. *)
Lemma civil_number days : let '(y, m, d) := civil days in is_date y m d /\ day_number y m d = days.
Proof.
  unfold civil. pose proof (year_loop_exact (S (N.to_nat (days / 365))) days 1970 ltac:(lia) (fuel_enough _)) as H.
  destruct (year_loop _ _ _) as [r y]. destruct H as (Hy & Hr & E). change (before_year 1970) with 0 in E.
  pose proof (month_loop_exact (months y) r 1) as Hm. rewrite months_total in Hm. destruct (month_loop _ _ _) as [d m].
  destruct (Hm Hr ltac:(lia)) as (i & -> & -> & len & Hi & Hd). pose proof (lookup_lt_Some _ _ _ Hi) as Hl. change (length (months y)) with 12%nat in Hl.
  unfold is_date, day_number, before_month, month_len. replace (N.to_nat (1 + N.of_nat i - 1)) with i by lia. rewrite Hi. unfold default, id. lia.
Qed.
(** The date of the number of a date is that date. *)
Lemma civil_date y m d : is_date y m d -> civil (day_number y m d) = (y, m, d).
Proof.
  intros (Hy & Hm & Hd). pose proof (civil_number (day_number y m d)) as H. unfold civil in *.
  pose proof (year_loop_exact (S (N.to_nat (day_number y m d / 365))) (day_number y m d) 1970 ltac:(lia) (fuel_enough _)) as Hyear.
  destruct (year_loop _ _ _) as [r y']. destruct Hyear as (Hy' & Hr & E). change (before_year 1970) with 0 in E. unfold day_number in E.
  assert (exists len, months y !! N.to_nat (m - 1) = Some len /\ d - 1 < len) as (len & Hi & Hlt).
  { unfold month_len in Hd. destruct (months y !! N.to_nat (m - 1)) as [len|]; unfold default in Hd; [exists len; unfold id in Hd; split; [done|lia]|lia]. }
  assert (before_month y m + (d - 1) < year_len y) as Hin.
  { rewrite <- months_total. pose proof (f_equal total (take_drop_middle _ _ _ Hi)) as Ht. unfold before_month, total in *. rewrite sumN_app, sumN_cons in Ht. lia. }
  destruct (year_unique y y' (before_month y m + (d - 1)) r) as [<- <-]; [done..|lia|].
  unfold before_month in *. rewrite (month_loop_finds _ _ _ len) by done. f_equal; [f_equal|]; lia.
Qed.

Lemma clock_part a b s : a <> 0 -> s mod (a * b) / a = s / a mod b.
Proof. intros Ha. rewrite N.Div0.mod_mul_r, (N.mul_comm a), N.div_add by done. now rewrite N.div_small by (now apply N.mod_lt). Qed.

(** Log lines carry civil dates.  The loops of the time stamp take the number of
    days since 1970 to a date of the Gregorian calendar, and no other date has
    that number: the stamp prints month and day of that date, and the hour,
    minute and second of the day. *)
Theorem stamp_civil secs ms :
  exists y m d, stamp secs ms = dec_pad 2 m +:+ "-" +:+ dec_pad 2 d +:+ "|" +:+ dec_pad 2 (secs mod 86400 / 3600) +:+ ":" +:+
      dec_pad 2 (secs mod 3600 / 60) +:+ ":" +:+ dec_pad 2 (secs mod 60) +:+ "." +:+ dec_pad 3 ms /\
    is_date y m d /\ day_number y m d = secs / 86400 /\
    forall y' m' d', is_date y' m' d' -> day_number y' m' d' = secs / 86400 -> (y', m', d') = (y, m, d).
Proof.
  pose proof (civil_number (secs / 86400)) as H. unfold stamp. destruct (civil (secs / 86400)) as [[y m] d] eqn:E. exists y, m, d.
  destruct H as [Hd Hn]. split; [|split; [done|]; split; [done|]].
  - change 86400 with (3600 * 24) at 1. change (secs mod 3600 / 60) with (secs mod (60 * 60) / 60). now rewrite !clock_part by lia.
  - intros y' m' d' Hd' Hn'. rewrite <- E, <- Hn'. symmetry. now apply civil_date.
Qed.

Example stamp_leap_day : stamp 951782399 7 = "02-28|23:59:59.007" /\ stamp 951782400 0 = "02-29|00:00:00.000" /\ stamp 1755566625 123 = "08-19|01:23:45.123".
Proof. vm_compute. auto. Qed.

(** ** Numbers *)

Lemma log2_tenth n : 10 <= n -> N.log2 (n / 10) < N.log2 n.
Proof.
  intros Hn. apply N.le_lt_trans with (N.log2 (n / 2)); [apply N.log2_le_mono, N.div_le_compat_l; lia|].
  change (n / 2) with (n / 2 ^ 1). rewrite <- N.shiftr_div_pow2, N.log2_shiftr.
  assert (N.log2 2 <= N.log2 n) by (apply N.log2_le_mono; lia). change (N.log2 2) with 1 in *. lia.
Qed.
Lemma dec_go_enough f : forall f' n, (N.to_nat (N.log2 n) < f)%nat -> (N.to_nat (N.log2 n) < f')%nat -> dec_go f n "" = dec_go f' n "".
Proof.
  induction f as [|f IH]; intros f' n Hf Hf'; [lia|]. destruct f' as [|f']; [lia|]. cbn [dec_go]. destruct (N.ltb_spec n 10) as [|Hn]; [done|].
  rewrite (dec_go_acc f), (dec_go_acc f'). f_equal. pose proof (log2_tenth n Hn). apply IH; lia.
Qed.
(** The digits of a number are those of its tenth and the last one. *)
Lemma dec_step n : 10 <= n -> dec n = dec (n / 10) +:+ String (digit (n mod 10)) "".
Proof.
  intros Hn. unfold dec at 1. cbn [dec_go]. rewrite (proj2 (N.ltb_ge _ _) Hn), dec_go_acc. f_equal. pose proof (log2_tenth n Hn). apply dec_go_enough; lia.
Qed.

(** What holds of every number below a bound, checked one by one. *)
Lemma below_all (P : N -> bool) n : forallb P (map N.of_nat (seq 0 n)) = true -> forall r, r < N.of_nat n -> P r = true.
Proof.
  intros H r Hr. rewrite forallb_forall in H. apply H. apply in_map_iff. exists (N.to_nat r). split; [lia|]. apply in_seq. lia.
Qed.
Definition three (r : N) : string := String (digit (r / 100)) (String (digit (r / 10 mod 10)) (String (digit (r mod 10)) "")).
Lemma small_pads r : r < 1000 -> dec_pad 3 r = three r.
Proof. intros Hr. apply String.eqb_eq. revert r Hr. apply (below_all _ 1000). vm_compute. reflexivity. Qed.
Lemma small_groups r : r < 1000 -> num r = dec r.
Proof. intros Hr. apply String.eqb_eq. revert r Hr. apply (below_all _ 1000). vm_compute. reflexivity. Qed.
Lemma dec_thousands n : 1000 <= n -> dec n = dec (n / 1000) +:+ three (n mod 1000).
Proof.
  intros Hn. assert (100 <= n / 10 /\ 10 <= n / 100) as [H1 H2] by (split; apply N.div_le_lower_bound; lia).
  rewrite (dec_step n), (dec_step (n / 10)) by lia. rewrite N.Div0.div_div. change (10 * 10) with 100.
  rewrite (dec_step (n / 100)), N.Div0.div_div by lia. change (100 * 10) with 1000. rewrite <- !append_assoc. f_equal. unfold three. cbn [String.append].
  change 1000 with (100 * 10) at 1. rewrite clock_part by lia. change 1000 with (10 * 100). rewrite clock_part by lia.
  change (n / 10 mod 100) with (n / 10 mod (10 * 10)). rewrite !(N.Div0.mod_mul_r _ 10), !(N.mul_comm 10), !N.Div0.mod_add, !N.Div0.mod_mod. reflexivity.
Qed.

Lemma group_app a b : (slen b mod 3 = 0)%nat -> group false (a +:+ b) = group false a +:+ group false b.
Proof.
  intros Hb. induction a as [|c a IH]; [done|]. change (String c a +:+ b) with (String c (a +:+ b)). cbn [group].
  rewrite IH, <- append_assoc. change (String c (a +:+ b)) with (String c a +:+ b). rewrite slen_append, <- Nat.Div0.add_mod_idemp_r, Hb, Nat.add_0_r. reflexivity.
Qed.
(** Numbers are grouped by thousands: below one thousand the digits, and from
    there on the grouped thousands, a comma, and three digits for the rest. *)
Theorem num_thousands n : num n = if n <? 1000 then dec n else num (n / 1000) +:+ "," +:+ dec_pad 3 (n mod 1000).
Proof.
  destruct (N.ltb_spec n 1000) as [H|H]; [now apply small_groups|]. rewrite small_pads by (apply N.mod_lt; lia).
  unfold num. rewrite dec_thousands by done. pose proof (dec_nonempty (n / 1000)) as Hd. destruct (dec (n / 1000)) as [|c s]; [done|].
  change (String c s +:+ three (n mod 1000)) with (String c (s +:+ three (n mod 1000))). cbn [group negb andb String.append]. f_equal. now rewrite group_app.
Qed.
