(* ===== verification/Ui.v ===== *)
(** ui.rs: what a terminal gets from the banner, the panels and the live status
    line, as text.  [p] says that the output is plain; the clock is an argument,
    and the rate of the status line is a state passed from one beat to the next.
    Doubles are IEEE 754. *)

From S2P Require Import Prelude Bytes SignGuard Limits Events P2p Access Text Log.
From Stdlib Require Import Ascii.
From Stdlib Require String SpecFloat.

(** ** Doubles as integers and as text *)

(** [f64::round]: what is not finite stays, and a double that is whole is an
    integer. *)
Inductive Whole := NotANumber | Infinite (negative : bool) | Integer (z : Z).
Definition magnitude (m : positive) (e : Z) (half : Z) : Z :=
  if (0 <=? e)%Z then (Z.pos m * 2 ^ e)%Z else ((Z.pos m + half * 2 ^ (- e - 1)) / 2 ^ (- e))%Z.
Definition whole (half : Z) (x : f64) : Whole :=
  match x with
  | SpecFloat.S754_zero _ => Integer 0
  | SpecFloat.S754_infinity s => Infinite s
  | SpecFloat.S754_nan => NotANumber
  | SpecFloat.S754_finite s m e => Integer (if s then - magnitude m e half else magnitude m e half)%Z
  end.
Definition fround : f64 -> Whole := whole 1.
Definition ftrunc : f64 -> Whole := whole 0.
Definition clamp_whole (lo hi : Z) (w : Whole) : Whole :=
  match w with
  | NotANumber => NotANumber
  | Infinite s => Integer (if s then lo else hi)
  | Integer z => Integer (Z.min (Z.max z lo) hi)
  end.
(** [as u64]: saturating, and zero for what is not a number. *)
Definition saturated (w : Whole) : N :=
  match w with
  | NotANumber => 0
  | Infinite s => if s then 0 else U64_MAX
  | Integer z => N.min (Z.to_N z) U64_MAX
  end.

(** [{:.n}]: the decimal nearest to the value, ties to the even digit. *)
Definition nearest_even (num den : Z) : Z :=
  let q := (num / den)%Z in
  match (2 * (num mod den) ?= den)%Z with Lt => q | Gt => (q + 1)%Z | Eq => if Z.even q then q else (q + 1)%Z end.
Definition scaled (digits : nat) (m : positive) (e : Z) : N :=
  let v := (Z.pos m * 10 ^ Z.of_nat digits)%Z in
  Z.to_N (if (0 <=? e)%Z then v * 2 ^ e else nearest_even v (2 ^ (- e)))%Z.
Definition decimal (digits : nat) (v : N) : string :=
  let p := 10 ^ N.of_nat digits in
  dec (v / p) +:+ (if Nat.eqb digits 0 then "" else "." +:+ dec_pad digits (v mod p)).
Definition fixed (digits : nat) (x : f64) : string :=
  match x with
  | SpecFloat.S754_nan => "NaN"
  | SpecFloat.S754_infinity s => if s then "-inf" else "inf"
  | SpecFloat.S754_zero s => (if s then "-" else "") +:+ decimal digits 0
  | SpecFloat.S754_finite s m e => (if s then "-" else "") +:+ decimal digits (scaled digits m e)
  end.
Definition ratio (a b : N) : f64 := fdiv (f64_of_N a) (f64_of_N b).

(** ** Colours *)

(* [src/src/ui.rs 9-9 DASHBOARD] *)
Definition DASHBOARD : string := "https://inazuma.network/validators".
(* [src/src/ui.rs 11-11 MAGENTA] *)
Definition MAGENTA : string := ESC +:+ "[38;5;198m".
(* [src/src/ui.rs 12-12 DIM] *)
Definition DIM : string := ESC +:+ "[2m".
(* [src/src/ui.rs 13-13 BOLD] *)
Definition BOLD : string := ESC +:+ "[1m".
(* [src/src/ui.rs 14-14 GREEN] *)
Definition GREEN : string := ESC +:+ "[38;5;120m".
(* [src/src/ui.rs 23-29 c] *)
Definition c (p : bool) (code : string) : string := if p then "" else code.
Definition coloured (p : bool) (code s : string) : string := c p code +:+ s +:+ c p RESET.

(** ** The banner *)

(* [src/src/ui.rs 31-38 WORDMARK] *)
Definition WORDMARK : list string := [
  "  ___ _  _   _   ____  _   _ __  __   _    ";
  " |_ _| \| | / \ |_  / | | | |  \/  | / \   ";
  "  | || .` |/ _ \ / /  | |_| | |\/| |/ _ \  ";
  " |___|_|\_/_/ \_\/___| \___/|_|  |_/_/ \_\ ";
  "                                           ";
  "   s o v e r e i g n   L 1   ·   I N A Z    "].
(** The first [n] characters. *)
Fixpoint first_chars (n : nat) (s : string) : string :=
  match s with
  | "" => ""
  | String a s' => if continues a then String a (first_chars n s') else match n with O => "" | S n => String a (first_chars n s') end
  end.
Definition carriage : string := String CR "".
(** Each row wipes in, six characters at a time. *)
Definition wiped (row color : string) : string :=
  foldr (fun k out => carriage +:+ color +:+ first_chars (6 * k) row +:+ RESET +:+ out) "" (seq 0 (S (chars row / 6))) +:+
  carriage +:+ color +:+ row +:+ RESET +:+ newline.
(* [src/src/ui.rs 42-61 banner] *)
Definition banner (p : bool) : string :=
  let row i r := if p then put_line r else wiped r (if Nat.leb 4 i then DIM else MAGENTA) in
  newline +:+ foldr (fun ir out => row ir.1 ir.2 +:+ out) "" (combine (seq 0 (length WORDMARK)) WORDMARK) +:+ newline.

(** ** Panels *)

Definition WIDTH : nat := 62.
Definition bottom_border (p : bool) : string := put_line (coloured p MAGENTA ("└" +:+ repeat_text (WIDTH - 1) "─" +:+ "┘")).
Definition side (p : bool) : string := coloured p MAGENTA "│".
(** The rule of the top border is as long as the title has bytes less. *)
Definition top_border (p : bool) (title : string) : string :=
  put_line (coloured p MAGENTA ("┌─ " +:+ title +:+ " " +:+ repeat_text (WIDTH - (slen title + 5)) "─" +:+ "┐")).
(* [src/src/ui.rs 64-90 panel] *)
Definition panel (p : bool) (title : string) (rows : list (string * string)) : string :=
  top_border p title +:+
  foldr (fun kv out => put_line (side p +:+ " " +:+ coloured p DIM (pad 13 kv.1) +:+ " " +:+ kv.2) +:+ out) "" rows +:+
  bottom_border p.

(** [code]: the QR code of a text as lines, when it fits one. *)
(* [src/src/ui.rs 114-134 qr] *)
Definition qr (p : bool) (code : string -> option (list string)) (url : string) : string :=
  if p then "" else
  match code url with
  | Some rendered =>
    foldr (fun l out => put_line ("  " +:+ l) +:+ out) "" rendered +:+
    put_line ("  " +:+ coloured p DIM "scan to open your validator page on your phone") +:+ newline
  | None => ""
  end.
(* [src/src/ui.rs 93-110 dashboard_link] *)
Definition dashboard_link (p : bool) (code : string -> option (list string)) (address : string) : string :=
  let url := DASHBOARD +:+ "?node=" +:+ address in
  newline +:+
  put_line ("  " +:+ c p BOLD +:+ coloured p MAGENTA "Your validator dashboard") +:+
  put_line ("  " +:+ coloured p GREEN url) +:+
  put_line ("  " +:+ coloured p DIM "cmd+click (macOS) or ctrl+click to open it in your browser") +:+
  newline +:+ qr p code url.

(* [src/src/ui.rs 270-274 StatusRow] *)
Record StatusRow := { label : string; value : string; good : option bool }.
(* [src/src/ui.rs 276-308 status_table] *)
Definition status_table (p : bool) (rows : list StatusRow) : string :=
  let mark r := match good r with
    | Some true => coloured p GREEN "●" | Some false => coloured p MAGENTA "●" | None => coloured p DIM "·" end in
  put_line (coloured p MAGENTA ("┌─ status " +:+ repeat_text (WIDTH - 12) "─" +:+ "┐")) +:+
  foldr (fun r out => put_line (side p +:+ " " +:+ mark r +:+ " " +:+ coloured p DIM (pad 16 (label r)) +:+ " " +:+ value r) +:+ out) "" rows +:+
  bottom_border p +:+ newline.

(** ** Hints *)

(* [src/src/ui.rs 249-266 next_steps] *)
Definition next_steps (p : bool) (address : string) (staked : bool) : string :=
  put_line ("  " +:+ coloured p BOLD "Next steps") +:+
  (if negb staked then
    put_line ("   1. fund " +:+ address +:+ " (faucet: https://inazuma.network/faucet)") +:+
    put_line "   2. wait for 100% sync below" +:+
    put_line "   3. in a second terminal: inazuma stake --amount 1000"
  else
    put_line "   • inazuma stake   --amount N     add stake" +:+
    put_line "   • inazuma unstake --amount N     unbond part of your stake" +:+
    put_line "   • inazuma exit                   unbond everything and leave the set") +:+
  newline.
(* [src/src/ui.rs 311-353 commands] *)
Definition commands (p : bool) (staked : bool) : string :=
  let list := if staked then [
      ("inazuma wallet", "address, balance, stake, points");
      ("inazuma stake   --amount 1000", "add stake");
      ("inazuma unstake --amount 1000", "unbond part of your stake");
      ("inazuma exit", "unbond everything, leave the validator set");
      ("inazuma status", "chain height, peers, validator set")]
    else [
      ("inazuma wallet", "address, balance, stake, points");
      ("inazuma wallet-new", "create a fresh validator wallet");
      ("inazuma wallet-import --key <hex>", "import an existing wallet");
      ("inazuma stake --amount 1000", "join the validator set (min 1000 INAZ)");
      ("inazuma status", "chain height, peers, validator set")] in
  put_line ("  " +:+ c p BOLD +:+ coloured p MAGENTA "Commands — copy & paste") +:+
  foldr (fun cw out => put_line ("   " +:+ coloured p GREEN (pad 34 cw.1) +:+ " " +:+ coloured p DIM cw.2) +:+ out) "" list +:+
  newline.

(** ** The live status line *)

(* [src/src/ui.rs 137-145 Beat] *)
Record Beat := {
  height : N; target : N; beat_peers : N; finalized : N; beat_staked : N; validating : bool; jailed : bool
}.
(* [src/src/ui.rs 147-150 bar] *)
Definition bar (pct : f64) : string :=
  let filled := N.to_nat (saturated (clamp_whole 0 18 (fround (fmul (fdiv pct (f64_of_N 100)) (f64_of_N 18))))) in
  repeat_text filled "█" +:+ repeat_text (18 - filled) "·".
(* [src/src/ui.rs 152-152 SPIN] *)
Definition SPIN : list string := ["▖"; "▘"; "▝"; "▗"].
(** The statics of the rate: the last sample, and blocks per second times 1000. *)
(* [src/src/ui.rs 154-157! LAST_H] *)
Record Rate := { last_h : N; last_ms : N; rate_milli : N }.
Definition no_rate : Rate := {| last_h := 0; last_ms := 0; rate_milli := 0 |}.
(* [src/src/ui.rs 166-178 human_eta] *)
Definition human_eta (secs : N) : string :=
  if secs =? 0 then "done"
  else if secs <? 60 then dec secs +:+ "s"
  else if secs <? 3600 then dec (secs / 60) +:+ "m" +:+ dec_pad 2 (secs mod 60) +:+ "s"
  else if secs <? 86400 then dec (secs / 3600) +:+ "h" +:+ dec_pad 2 (secs mod 3600 / 60) +:+ "m"
  else dec (secs / 86400) +:+ "d" +:+ dec_pad 2 (secs mod 86400 / 3600) +:+ "h".
Definition THOUSAND : f64 := f64_of_N 1000.
(* [src/src/ui.rs 182-196! sync_rate_eta] *)
Definition sample (now height : N) (r : Rate) : Rate :=
  let measured :=
    if (0 <? last_ms r) && (last_ms r <? now) && (last_h r <=? height) then
      let dt := fdiv (f64_of_N (now - last_ms r)) THOUSAND in
      let inst := fdiv (f64_of_N (height - last_h r)) dt in
      let old := fdiv (f64_of_N (rate_milli r)) THOUSAND in
      let smoothed := if flt (f64_of_N 0) old then fadd (fmul old (ratio 7 10)) (fmul inst (ratio 3 10)) else inst in
      saturated (ftrunc (fmul smoothed THOUSAND))
    else rate_milli r in
  {| last_h := height; last_ms := now; rate_milli := measured |}.
(* [src/src/ui.rs 181-207 sync_rate_eta] *)
Definition sync_rate_eta (now height target : N) (r : Rate) : f64 * string * Rate :=
  let r := sample now height r in
  let rate := fdiv (f64_of_N (rate_milli r)) THOUSAND in
  let remaining := sat_sub target height in
  (rate,
   if remaining =? 0 then "done"
   else if flt (ratio 5 100) rate then human_eta (saturated (fround (fdiv (f64_of_N remaining) rate)))
   else "--",
   r).
Definition progress (height target : N) : f64 := fmul (ratio height target) (f64_of_N 100).
(* [src/src/ui.rs 215-227! heartbeat] *)
Definition beat_state (b : Beat) (pct : f64) : string :=
  if jailed b then "JAILED — will auto-rejoin"
  else if beat_peers b =? 0 then "waiting for peers"
  else if flt pct (ratio 199 2) then "syncing"
  else if validating b then "VALIDATING — producing blocks"
  else if 0 <? beat_staked b then "staked, joining active set"
  else "synced — stake to validate".
(* [src/src/ui.rs 211-248 heartbeat] *)
Definition heartbeat (p : bool) (now : N) (tick : nat) (b : Beat) (staked_fmt : string) (r : Rate) : string * Rate :=
  let goal := N.max (N.max (target b) (height b)) 1 in
  let pct := progress (height b) goal in
  let '(rate, eta, r) := sync_rate_eta now (height b) goal r in
  let line := default "" (SPIN !! (tick mod 4)%nat) +:+ " " +:+ bar pct +:+ " " +:+ pad_start 5 (fixed 1 pct) +:+ "%  height " +:+
    dec (height b) +:+ "/" +:+ dec goal +:+ "  final " +:+ dec (finalized b) +:+ "  " +:+ pad_start 5 (fixed 1 rate) +:+ " blk/s  eta " +:+
    eta +:+ "  peers " +:+ dec (beat_peers b) +:+ "  staked " +:+ staked_fmt +:+ "  " +:+ beat_state b pct in
  (if p then put_line line else carriage +:+ ESC +:+ "[2K" +:+ coloured p MAGENTA line, r).

(** ** Facts *)

Lemma chars_append a b : chars (a +:+ b) = (chars a + chars b)%nat.
Proof. induction a as [|x a IH]; [done|]. change (String x a +:+ b) with (String x (a +:+ b)). cbn [chars]. rewrite IH. lia. Qed.
Lemma chars_repeat n s : chars (repeat_text n s) = (n * chars s)%nat.
Proof. induction n as [|n IH]; [done|]. cbn [repeat_text]. rewrite chars_append, IH. lia. Qed.

(** The bar is eighteen cells wide, whatever the percentage. *)
Lemma bar_width pct : chars (bar pct) = 18%nat.
Proof.
  unfold bar. set (w := fround _). assert (saturated (clamp_whole 0 18 w) <= 18) as H.
  { destruct w as [|[]|z]; cbn [clamp_whole saturated]; unfold U64_MAX; lia. }
  rewrite chars_append, !chars_repeat. change (chars "█") with 1%nat. change (chars "·") with 1%nat. lia.
Qed.

(** Padding never shortens, and fills up to the width. *)
Lemma pad_width w s : chars (pad w s) = Nat.max w (chars s).
Proof. unfold pad. rewrite chars_append, chars_repeat. change (chars " ") with 1%nat. lia. Qed.
Lemma pad_start_width w s : chars (pad_start w s) = Nat.max w (chars s).
Proof. unfold pad_start. rewrite chars_append, chars_repeat. change (chars " ") with 1%nat. lia. Qed.

(** The bottom border of a panel is one column wider than its top, and two wider
    than that of the status table. *)
Lemma panel_borders_differ title : chars title = slen title -> (slen title <= 57)%nat ->
  chars ("┌─ " +:+ title +:+ " " +:+ repeat_text (WIDTH - (slen title + 5)) "─" +:+ "┐") = 62%nat /\
  chars ("└" +:+ repeat_text (WIDTH - 1) "─" +:+ "┘") = 63%nat /\
  chars ("┌─ status " +:+ repeat_text (WIDTH - 12) "─" +:+ "┐") = 61%nat.
Proof.
  intros Ht Hl. split; [|split; reflexivity]. rewrite !chars_append, chars_repeat, Ht.
  change (chars "┌─ ") with 3%nat. change (chars " ") with 1%nat. change (chars "─") with 1%nat. change (chars "┐") with 1%nat. unfold WIDTH. lia.
Qed.

(** Estimates are made of the gap: done exactly when nothing is missing, and no
    estimate before a rate was measured. *)
Lemma eta_done now h t r : t <= h -> (sync_rate_eta now h t r).1.2 = "done".
Proof. intros H. unfold sync_rate_eta, sat_sub. cbn [fst snd]. now replace (t - h) with 0 by lia. Qed.
Lemma eta_unknown now h t : h < t -> (sync_rate_eta now h t no_rate).1.2 = "--".
Proof.
  intros H. unfold sync_rate_eta, sat_sub. cbn [fst snd]. rewrite (proj2 (N.eqb_neq _ 0)) by lia. reflexivity.
Qed.
(** Percentages, estimates, and ties to the even digit. *)
Lemma progress_examples :
  fixed 1 (progress 0 1) = "0.0" /\ fixed 1 (progress 5 5) = "100.0" /\ fixed 1 (progress 1 3) = "33.3" /\ fixed 2 (progress 2 3) = "66.67" /\
  fixed 1 (ratio 1 4) = "0.2" /\ fixed 1 (ratio 3 4) = "0.8" /\ fixed 0 (ratio 5 2) = "2" /\ human_eta 86399 = "23h59m" /\ human_eta 3661 = "1h01m".
Proof. vm_compute. auto 20. Qed.
(** Three beats: the first takes a sample, the second measures, and later ones
    weigh the measured rate with three tenths. *)
Lemma smoothing_example :
  let r := sample 1000 100 no_rate in let r := sample 2000 110 r in let r := sample 3000 130 r in
  r = {| last_h := 130; last_ms := 3000; rate_milli := 13000 |} /\ (sync_rate_eta 3400 136 1136 r).1.2 = "1m14s".
Proof. vm_compute. auto. Qed.
