(* ===== verification/Metrics.v ===== *)
(** metrics.rs: the health of a node in the text format of Prometheus. *)

From S2P Require Import Prelude Bytes Crypto Types Journal Store Smt Poseidon Shielded State Fees Staking Tokens Slashing Votes.
From S2P Require Import Mempool Contracts SignGuard Circuit Exec Chain Simulate Limits Access Rpc Events P2p Text.
From Stdlib Require Import Ascii.
From Stdlib Require String.

(* [src/src/metrics.rs 11-15 line] *)
Definition line (name help kind value : string) : string :=
  "# HELP " +:+ name +:+ " " +:+ help +:+ newline +:+ "# TYPE " +:+ name +:+ " " +:+ kind +:+ newline +:+
  name +:+ " " +:+ value +:+ newline.

Definition flag (b : bool) : string := if b then "1" else "0".
Definition nat_text (n : nat) : string := dec (N.of_nat n).
Definition quoted (s : string) : string := QUOTE +:+ s +:+ QUOTE.

Section metrics.
Context {HC : Crypto} {HF : Fr} {HK : Compression} {HP : ChainParams} {HJ : EvidenceJson} {HW : Wasm} {HG : Groth16} {HS : Serde}.

(** The samples: name, help, kind and value. *)
Definition samples (x : Process) (n : Node) : list (string * string * string * string) :=
  let d := n_db n in [
  ("inazuma_block_height", "Height of the local chain tip.", "gauge", dec (tip d));
  ("inazuma_finalized_height", "Highest finalized block height.", "gauge", dec (finalized_height d));
  ("inazuma_finality_lag_blocks", "Blocks between the tip and the last finalized block.", "gauge", dec (sat_sub (tip d) (finalized_height d)));
  ("inazuma_peer_count", "Connected P2P peers.", "gauge", dec (x_peers x));
  ("inazuma_mempool_txs", "Transactions queued in the mempool.", "gauge", dec (mempool_size n));
  ("inazuma_validators", "Active validators in the set.", "gauge", nat_text (length (validators n)));
  ("inazuma_accounts", "Accounts in state.", "gauge", nat_text (account_count d));
  ("inazuma_txs_total", "Transactions executed since genesis.", "counter", nat_text (tx_count d));
  ("inazuma_tokens", "Tokens created.", "gauge", nat_text (token_count d));
  ("inazuma_contracts", "Contracts deployed.", "gauge", nat_text (contract_count d));
  ("inazuma_pruned_below", "Lowest retained block height.", "gauge", dec (pruned_below d));
  ("inazuma_halted", "1 when the node is halted by an operator.", "gauge", flag (halted n));
  ("inazuma_solo_mode", "1 when running without peers.", "gauge", flag (n_solo n));
  ("inazuma_base_fee_rai", "Current base fee in rai.", "gauge", dec (node_base_fee n));
  ("inazuma_total_supply_rai", "Total supply in rai.", "gauge", dec (total_supply d));
  ("inazuma_total_staked_rai", "Total bonded stake in rai.", "gauge", dec (total_staked d))].

(** The state root and the tip hash, as labels of a constant gauge. *)
Definition root_info (n : Node) : string :=
  let d := n_db n in
  "# HELP inazuma_state_root_info State root and tip hash at the local tip." +:+ newline +:+
  "# TYPE inazuma_state_root_info gauge" +:+ newline +:+
  "inazuma_state_root_info{height=" +:+ quoted (dec (tip d)) +:+ ",state_root=" +:+ quoted (state_root_at (tip d) d) +:+
  ",tip_hash=" +:+ quoted (tip_hash d) +:+ ",chain_id=" +:+ quoted (dec (g_chain_id (n_genesis n))) +:+ "} 1" +:+ newline.

(* [src/src/metrics.rs 18-150 render] *)
Definition render (x : Process) (n : Node) : string :=
  foldr (fun '(name, help, kind, value) out => line name help kind value +:+ out) (root_info n) (samples x n).

(** A scrape shows of the gossip layer how many peers it has, and nothing else. *)
Lemma scrape_hides_topology x x' n : x_peers x = x_peers x' -> render x n = render x' n.
Proof. intros H. unfold render, samples. now rewrite H. Qed.

(** Every sample is the third of three lines. *)
Lemma line_lines name help kind value s :
  no_breaks name = true -> no_breaks help = true -> no_breaks kind = true -> no_breaks value = true ->
  lines (line name help kind value +:+ s) =
    ("# HELP " +:+ name +:+ " " +:+ help) :: ("# TYPE " +:+ name +:+ " " +:+ kind) :: (name +:+ " " +:+ value) :: lines s.
Proof.
  intros Hn Hh Hk Hv. unfold line, newline. fold LF.
  rewrite <- !append_assoc.
  replace ("# HELP " +:+ name +:+ " " +:+ help +:+ String LF "" +:+ "# TYPE " +:+ name +:+ " " +:+ kind +:+ String LF "" +:+
    name +:+ " " +:+ value +:+ String LF "" +:+ s)
    with (("# HELP " +:+ name +:+ " " +:+ help) +:+ String LF (("# TYPE " +:+ name +:+ " " +:+ kind) +:+ String LF
      ((name +:+ " " +:+ value) +:+ String LF s))) by (rewrite <- !append_assoc; reflexivity).
  unfold no_breaks in *. rewrite !lines_lf; [reflexivity|..]; unfold no_breaks; rewrite !all_chars_app, ?Hn, ?Hh, ?Hk, ?Hv; reflexivity.
Qed.
End metrics.
