(* ===== verification/Http.v ===== *)
(** rpc.rs and ws.rs, from the bytes of a connection to the bytes of its answer:
    the request head and its credentials, the body, the HTTP methods, the JSON-RPC
    envelope, the opening handshake of a socket and what a socket does with one
    message.

    A connection is the chunks its reads return and what follows them: the end
    of the stream, or an error.  Reading and printing JSON are parameters
    ([JsonText]); a head is taken to be UTF-8; every write succeeds; the clock is
    read once per request.  Threads, timeouts and the accept loop are left out. *)

From S2P Require Import Prelude Bytes Crypto Types Journal Store Smt Poseidon Shielded State Fees Staking Tokens Slashing Votes.
From S2P Require Import Mempool Contracts SignGuard Circuit Exec Chain Simulate Limits Access Rpc Transport Ws Events P2p Text Metrics.
From Stdlib Require Import Ascii.
From Stdlib Require String.

(** serde_json on bytes. *)
Class JsonText := { json_of_text : string -> option JValue; json_text : JValue -> string }.

(* [src/src/rpc.rs 27-27! RPC_MAX_BODY] *)
Definition RPC_MAX_BODY : N := 4 * 1024 * 1024.
Definition HEADER_END : string := CRLF +:+ CRLF.

(* [src/src/rpc.rs 393-395 find_header_end] *)
Fixpoint find_header_end (buf : string) : option nat :=
  if starts_with HEADER_END buf then Some O
  else match buf with "" => None | String _ buf => S <$> find_header_end buf end.

(** ** Request heads *)

Record Heads := { h_length : N; h_key : option string; h_credential : option string; h_forwarded : option IpAddr }.
Definition no_heads : Heads := {| h_length := 0; h_key := None; h_credential := None; h_forwarded := None |}.
Definition with_length (v : N) (h : Heads) : Heads := Build_Heads v (h_key h) (h_credential h) (h_forwarded h).
Definition with_key (v : option string) (h : Heads) : Heads := Build_Heads (h_length h) v (h_credential h) (h_forwarded h).
Definition with_credential (v : option string) (h : Heads) : Heads := Build_Heads (h_length h) (h_key h) v (h_forwarded h).
Definition with_forwarded (v : option IpAddr) (h : Heads) : Heads := Build_Heads (h_length h) (h_key h) (h_credential h) v.

(** [line[line.find(':').map(|i| i + 1).unwrap_or(0)..].trim()] *)
Definition header_value (l : string) : string := match split_once ":"%char l with Some (_, v) => trim v | None => trim l end.
Definition bearer (v : string) : string :=
  match strip_prefix "Bearer " v with Some t => t | None => default v (strip_prefix "bearer " v) end.
(** A value that is not empty replaces the credential. *)
Definition present (v : string) (h : Heads) : Heads := if String.eqb v "" then h else with_credential (Some v) h.
Definition first_ip (v : string) : option IpAddr := ip_of_text (trim (List.hd "" (split_on ","%char v))).

Definition credential_line (trust : bool) (l : string) (h : Heads) : Heads :=
  let low := lower l in
  if starts_with "authorization:" low then present (bearer (header_value l)) h
  else if starts_with "x-api-key:" low then present (header_value l) h
  else if starts_with "x-forwarded-for:" low && trust then with_forwarded (first_ip (header_value l)) h
  else h.
(* [src/src/rpc.rs 113-136! handle_conn] *)
Definition http_line (trust : bool) (h : Heads) (l : string) : Heads :=
  let h := match strip_prefix "content-length:" (lower l) with
    | Some v => with_length (default 0 (parse_u64 (trim v))) h | None => h end in
  credential_line trust l h.
(* [src/src/ws.rs 96-124! handle] *)
Definition ws_line (trust : bool) (h : Heads) (l : string) : Heads :=
  if starts_with "sec-websocket-key:" (lower l) then with_key (Some (header_value l)) h else credential_line trust l h.

Record Head := { hd_line : string; hd_heads : Heads }.
Definition read_head_with (f : Heads -> string -> Heads) (head : string) : Head :=
  {| hd_line := List.hd "" (lines head); hd_heads := foldl f no_heads (List.tl (lines head)) |}.

(** ** Reading a request *)

(** What follows the chunks: the end of the stream or an error. *)
Definition After : Type := result unit.

Inductive Headed := Gone | Broken (e : string) | Found (buf : string) (he : nat) (rest : list string).
(* [src/src/rpc.rs 92-106! handle_conn] *)
Fixpoint read_until_head (buf : string) (chunks : list string) (after : After) : Headed :=
  match chunks with
  | [] => match after with Ok _ => Gone | Err e => Broken e end
  | "" :: _ => Gone
  | c :: chunks =>
    let buf := buf +:+ c in
    let he := find_header_end buf in
    if RPC_MAX_BODY <? N.of_nat (slen buf) then Broken "request too large"
    else match he with Some he => Found buf he chunks | None => read_until_head buf chunks after end
  end.
(* [src/src/rpc.rs 145-151! handle_conn] *)
Fixpoint read_body (need : N) (body : string) (chunks : list string) (after : After) : result string :=
  if need <=? N.of_nat (slen body) then Ok body
  else match chunks with
  | [] => match after with Ok _ => Ok body | Err e => Err e end
  | "" :: _ => Ok body
  | c :: chunks => read_body need (body +:+ c) chunks after
  end.

Record Request := { rq_head : Head; rq_body : string }.
Inductive Incoming := Hung_up | Failed (e : string) | Oversize | Received (r : Request).
(* [src/src/rpc.rs 92-151! handle_conn] *)
Definition receive (trust : bool) (chunks : list string) (after : After) : Incoming :=
  match read_until_head "" chunks after with
  | Gone => Hung_up
  | Broken e => Failed e
  | Found buf he rest =>
    let head := read_head_with (http_line trust) (String.substring 0 he buf) in
    let body := String.substring (he + 4) (slen buf - (he + 4)) buf in
    let need := h_length (hd_heads head) in
    if RPC_MAX_BODY <? need then Oversize
    else match read_body need body rest after with
    | Ok body => Received {| rq_head := head; rq_body := body |}
    | Err e => Failed e
    end
  end.

(* [src/src/ws.rs 432-450 read_head] *)
Fixpoint ws_read_head (buf : string) (chunks : list string) (after : After) : result string :=
  match chunks with
  | [] => match after with Ok _ => Err "closed during handshake" | Err e => Err e end
  | "" :: _ => Err "closed during handshake"
  | c :: chunks =>
    let buf := buf +:+ c in
    if bool_decide (is_Some (find_header_end buf)) then Ok buf
    else if 16 * 1024 <? N.of_nat (slen buf) then Err "handshake too large"
    else ws_read_head buf chunks after
  end.

(** ** Answers *)

Definition reason_text (status : N) : string :=
  if status =? 200 then "OK" else if status =? 204 then "No Content" else if status =? 413 then "Payload Too Large"
  else if status =? 429 then "Too Many Requests" else "Error".
Definition header (name value : string) : string := name +:+ ": " +:+ value +:+ CRLF.
(* [src/src/rpc.rs 401-429 respond_typed] *)
Definition respond_typed (status : N) (content_type body : string) : string :=
  ("HTTP/1.1 " +:+ dec status +:+ " " +:+ reason_text status +:+ CRLF) +:+ header "Content-Type" content_type +:+
  header "Content-Length" (dec (N.of_nat (slen body))) +:+ header "Access-Control-Allow-Origin" "*" +:+
  header "Access-Control-Allow-Headers" "*" +:+ header "Access-Control-Allow-Methods" "POST, GET, OPTIONS" +:+
  header "Connection" "close" +:+ CRLF +:+ body.
(* [src/src/rpc.rs 397-399 respond] *)
Definition respond (status : N) (body : string) : string := respond_typed status "application/json" body.

Definition envelope (id : JValue) (k : string) (v : JValue) : JValue := JObj [("jsonrpc", JStr "2.0"); ("id", id); (k, v)].
Definition rpc_error (id : JValue) (code : Z) (msg : string) : JValue :=
  envelope id "error" (JObj [("code", JNum code); ("message", JStr msg)]).
(** [match dispatch_metered(..) { Ok(result) => .., Err(msg) => .. }] *)
Definition rpc_reply (id : JValue) (r : result JValue) : JValue :=
  match r with Ok v => envelope id "result" v | Err msg => rpc_error id (-32000) msg end.

(** The members of a call, with what stands for those that are missing. *)
Definition req_id (req : JValue) : JValue := default JNull (get "id" req).
Definition req_method (req : JValue) : string := default "" (str_param "method" req).
Definition req_params (req : JValue) : JValue := default (JObj []) (get "params" req).
Definition params_of (p : JValue) : Params := {|
  p_txs := (fun l => N.of_nat (length l)) <$> arr_param "txs" p; p_hashes := (fun l => N.of_nat (length l)) <$> arr_param "hashes" p |}.

Definition LOCALHOST : IpAddr := V4 2130706433.
(** [forwarded.or(peer_ip).unwrap_or(LOCALHOST)] *)
Definition client_ip (h : Heads) (peer : option IpAddr) : IpAddr :=
  match h_forwarded h with Some ip => ip | None => default LOCALHOST peer end.

Section http.
Context {HC : Crypto} {HF : Fr} {HK : Compression} {HP : ChainParams} {HJ : EvidenceJson} {HW : Wasm} {HG : Groth16} {HS : Serde} {HT : JsonText}.

(** What a connection leaves behind. *)
Record Served := { sv_bytes : string; sv_end : result unit; sv_node : Node; sv_cfg : RpcConfig; sv_gossip : list Transaction }.
Definition plainly (bytes : string) (c : RpcConfig) (n : Node) : Served := Build_Served bytes (Ok ()) n c [].

(* [src/src/rpc.rs 169-198! handle_conn] *)
Definition serve_get (x : Process) (path : string) (ip : IpAddr) (credential : option string) (c : RpcConfig) (n : Node) : Served :=
  match charge (x_instant x) ip (tier_for credential c) credential ONE c with
  | (false, c) => plainly (respond 429 (json_text (JObj [("error", JStr "rate limited")]))) c n
  | (true, c) =>
    if String.eqb path "/metrics" then plainly (respond_typed 200 "text/plain; version=0.0.4" (render x n)) c n
    else
      let payload :=
        if String.eqb path "/health" then JObj [("ok", JBool true); ("height", jn (tip (n_db n)))]
        else let g := n_genesis n in
          JObj [("chain", JStr (g_chain_name g)); ("chainId", jn (g_chain_id g)); ("symbol", JStr (g_symbol g));
            ("rpc", JStr "POST JSON-RPC 2.0 to /"); ("auth", JStr (if require_auth c then "api key required" else "open"))] in
      plainly (respond 200 (json_text payload)) c n
  end.

(** A call with its status, the node and the configuration it leaves. *)
(* [src/src/rpc.rs 200-245! handle_conn] *)
Definition serve_call (x : Process) (req : JValue) (ip : IpAddr) (credential : option string) (c : RpcConfig) (n : Node) :
    N * JValue * Node * RpcConfig * list Transaction :=
  let id := req_id req in let method := req_method req in let p := req_params req in
  let t := tier_for credential c in
  if require_auth c && bool_decide (t = Anonymous) then (401, rpc_error id (-32001) "api key required", n, c, [])
  else if bool_decide (method ∈ PRIVILEGED_METHODS) && negb (bool_decide (t = Admin)) then
    (403, rpc_error id (-32002) "admin key required", n, c, [])
  else
    let cost := method_cost method (params_of p) in
    match charge_weighted (x_instant x) (n_db n) ip t credential cost c with
    | (false, c) => (429, envelope id "error" (JObj [("code", JNum (-32005)); ("message", JStr "rate limited");
        ("data", JObj [("tier", JStr (tier_label t)); ("cost", JFloat cost)])]), n, c, [])
    | (true, c) =>
      let '(r, c) := dispatch_metered x method p t c n in
      (200, rpc_reply id (answer r), left_node r, c, gossiped r)
    end.

(* [src/src/rpc.rs 85-246 handle_conn] *)
Definition handle_conn (x : Process) (peer : option IpAddr) (chunks : list string) (after : After) (c : RpcConfig) (n : Node) : Served :=
  match receive (trust_proxy c) chunks after with
  | Hung_up => plainly "" c n
  | Failed e => Build_Served "" (Err e) n c []
  | Oversize => plainly (respond 413 (json_text (JObj [("error", JStr "body too large")]))) c n
  | Received rq =>
    let h := hd_heads (rq_head rq) in
    let words := split_whitespace (hd_line (rq_head rq)) in
    let verb := List.hd "" words in
    if String.eqb verb "OPTIONS" then plainly (respond 204 "") c n
    else
      let ip := client_ip h peer in
      if String.eqb verb "GET" then serve_get x (List.nth 1 words "/") ip (h_credential h) c n
      else
        let '(status, v, n, c, txs) := serve_call x (default JNull (json_of_text (rq_body rq))) ip (h_credential h) c n in
        Build_Served (respond status (json_text v)) (Ok ()) n c txs
  end.

(** ** Sockets *)

(** The key of a query string, for browsers. *)
(* [src/src/ws.rs 127-143! handle] *)
Definition query_credential (request_line : string) : option string :=
  '(_, q) ← split_once "?"%char (List.nth 1 (split_whitespace request_line) "/");
  foldl (fun found part =>
    match (match strip_prefix "key=" part with Some v => Some v | None => strip_prefix "apikey=" part end) with
    | Some v => if String.eqb v "" then found else Some v
    | None => found
    end) None (split_on "&"%char q).

Record Opened := { op_tier : Tier; op_credential : option string; op_ip : IpAddr }.
(** The handshake: the bytes written, and the socket or the reason there is none. *)
(* [src/src/ws.rs 79-173! handle] *)
Definition ws_handshake (peer : option IpAddr) (chunks : list string) (after : After) (c : RpcConfig) : string * result Opened :=
  match ws_read_head "" chunks after with
  | Err e => ("", Err e)
  | Ok text =>
    let head := read_head_with (ws_line (trust_proxy c)) text in
    let h := hd_heads head in
    let credential := match h_credential h with Some k => Some k | None => query_credential (hd_line head) end in
    match h_key h with
    | None => ("HTTP/1.1 400 Bad Request" +:+ CRLF +:+ "Content-Length: 0" +:+ HEADER_END, Err "not a websocket upgrade")
    | Some key =>
      match ws_open credential c with
      | Err e => ("HTTP/1.1 401 Unauthorized" +:+ CRLF +:+ "Content-Length: 0" +:+ HEADER_END, Err e)
      | Ok t =>
        ("HTTP/1.1 101 Switching Protocols" +:+ CRLF +:+ "Upgrade: websocket" +:+ CRLF +:+ "Connection: Upgrade" +:+ CRLF +:+
         "Sec-WebSocket-Accept: " +:+ accept_key key +:+ HEADER_END,
         Ok {| op_tier := t; op_credential := credential; op_ip := client_ip h peer |})
      end
    end
  end.

(** What the messages of all sockets share. *)
Record Shared := { sh_node : Node; sh_cfg : RpcConfig; sh_bus : EventBus; sh_gossip : list Transaction }.
Definition with_cfg (c : RpcConfig) (s : Shared) : Shared := Build_Shared (sh_node s) c (sh_bus s) (sh_gossip s).
Definition with_bus (b : EventBus) (s : Shared) : Shared := Build_Shared (sh_node s) (sh_cfg s) b (sh_gossip s).

(** The methods about subscriptions, on the bus. *)
(* [src/src/ws.rs 309-328! handle_message] *)
Definition subscription_call (conn pipe : N) (method : string) (p : JValue) (b : EventBus) : option (result JValue * EventBus) :=
  if String.eqb method "inaz_subscribe" then
    let channel := default "heads" (str_param "channel" p) in
    Some match channel_parse channel (fun k => str_param k p) with
    | Err e => (Err e, b)
    | Ok ch =>
      let '(r, b) := subscribe conn ch pipe b in
      (id ← r; Ok (JObj [("subscription", jn id); ("channel", JStr channel); ("maxPerConnection", JNum (Z.of_nat MAX_SUBS_PER_CONN))]), b)
    end
  else if String.eqb method "inaz_unsubscribe" then
    Some match u64_param "subscription" p with
    | Some s => let '(gone, b) := unsubscribe conn s b in (Ok (JObj [("unsubscribed", JBool gone)]), b)
    | None => (Err "subscription id required", b)
    end
  else if String.eqb method "inaz_subscriptions" then Some (Ok (JObj [("live", JNum (Z.of_nat (bus_len b)))]), b)
  else None.

(* [src/src/ws.rs 266-338 handle_message] *)
Definition handle_message (x : Process) (text : string) (o : Opened) (conn pipe : N) (s : Shared) : JValue * Shared :=
  match json_of_text text with
  | None => (rpc_error JNull (-32700) "invalid json", s)
  | Some req =>
    let id := req_id req in let method := req_method req in let p := req_params req in
    match charge_weighted (x_instant x) (n_db (sh_node s)) (op_ip o) (op_tier o) (op_credential o) (method_cost method (params_of p)) (sh_cfg s) with
    | (false, c) => (rpc_error id (-32005) "rate limited", with_cfg c s)
    | (true, c) =>
      let s := with_cfg c s in
      if bool_decide (method ∈ PRIVILEGED_METHODS) && negb (bool_decide (op_tier o = Admin)) then
        (rpc_error id (-32002) "admin key required", s)
      else match subscription_call conn pipe method p (sh_bus s) with
      | Some (r, b) => (rpc_reply id r, with_bus b s)
      | None =>
        let '(r, c) := dispatch_metered x method p (op_tier o) c (sh_node s) in
        (rpc_reply id (answer r), Build_Shared (left_node r) c (sh_bus s) (sh_gossip s ++ gossiped r))
      end
    end
  end.

(** The messages of one socket in order, the [i]th handled by [x i]: the bytes
    sent back, and what is shared afterwards. *)
Fixpoint serve_outs (x : nat -> Process) (i : nat) (o : Opened) (conn pipe : N) (outs : list Ws.Out) (s : Shared) : string * Shared :=
  match outs with
  | [] => ("", s)
  | Ws.Sent bytes :: outs => let '(sent, s) := serve_outs x i o conn pipe outs s in (bytes +:+ sent, s)
  | Ws.Delivered t :: outs =>
    let '(v, s) := handle_message (x i) t o conn pipe s in
    let '(sent, s) := serve_outs x (S i) o conn pipe outs s in
    (Ws.send 1 (json_text v) +:+ sent, s)
  end.
(** A socket from its handshake to its end, when its subscriptions go. *)
(* [src/src/ws.rs 201-264! handle] *)
Definition serve_socket (fuel : nat) (x : nat -> Process) (o : Opened) (conn pipe : N) (arrivals : list Ws.Arrival) (s : Shared) :
    option (string * Shared * result unit) :=
  '(outs, r) ← Ws.await_socket fuel "" arrivals;
  let '(sent, s) := serve_outs x 0 o conn pipe outs s in
  Some (sent, with_bus (drop_conn conn (sh_bus s)) s, r).
End http.

(** ** The accept loops *)

Record Gatekeeper := { g_conns : ConnGuard; g_per_ip : IpConnCounter }.
(* [src/src/rpc.rs 36-58! serve_with] *)
Definition http_gatekeeper : Gatekeeper := {| g_conns := guard_new 512; g_per_ip := counter_new 32 |}.
(* [src/src/ws.rs 42-47! serve] *)
Definition ws_gatekeeper : Gatekeeper := {| g_conns := guard_new 2048; g_per_ip := counter_new 16 |}.

(** A connection takes a place in the table and one of its host's; without
    either it is dropped, and gives back what it took. *)
(* [src/src/rpc.rs 59-82! serve_with] *)
Definition accept (ip : option IpAddr) (g : Gatekeeper) : bool * Gatekeeper :=
  match try_acquire (g_conns g) with
  | None => (false, g)
  | Some conns =>
    match ip with
    | None => (true, {| g_conns := conns; g_per_ip := g_per_ip g |})
    | Some ip =>
      let '(ok, per_ip) := ip_try_acquire ip (g_per_ip g) in
      if ok then (true, {| g_conns := conns; g_per_ip := per_ip |})
      else (false, {| g_conns := release conns; g_per_ip := per_ip |})
    end
  end.
(** The tickets are dropped when the connection ends. *)
Definition leave (ip : option IpAddr) (g : Gatekeeper) : Gatekeeper := {|
  g_conns := release (g_conns g);
  g_per_ip := match ip with Some ip => ip_release ip (g_per_ip g) | None => g_per_ip g end |}.
