(* ===== verification/HttpFacts.v ===== *)
(** What a client of the HTTP and WebSocket endpoints can rely on: requests are
    read the same however the network cuts them, answers are framed, the two
    endpoints give one answer to one call, and no connection changes the chain. *)

From S2P Require Import Prelude Bytes Crypto Types Journal Store Smt Poseidon Shielded State Fees Staking Tokens Slashing Votes.
From S2P Require Import Mempool Contracts SignGuard Circuit Exec ExecFacts Chain ChainFacts Mirror Simulate Limits Access Rpc RpcFacts Transport Ws WsFacts Events P2p Text Metrics Http.
From Stdlib Require Import Ascii.
From Stdlib Require String.

(** ** Cutting text *)

Fixpoint joined (chunks : list string) : string := match chunks with [] => "" | c :: cs => c +:+ joined cs end.

Lemma substring_prefix a b : String.substring 0 (slen a) (a +:+ b) = a.
Proof. induction a as [|c a IH]; cbn; [now destruct b|now rewrite IH]. Qed.
Lemma substring_suffix a b : String.substring (slen a) (slen b) (a +:+ b) = b.
Proof. induction a as [|c a IH]; [apply substring_all|exact IH]. Qed.

Lemma append_split a b c d : a +:+ b = c +:+ d -> (slen a <= slen c)%nat -> exists e, c = a +:+ e /\ b = e +:+ d.
Proof.
  revert c. induction a as [|x a IH]; intros c H Hl; [now exists c|]. destruct c as [|y c]; [cbn in Hl; lia|].
  apply String_inv in H as [-> H]. destruct (IH c H) as (e & -> & ->); [cbn in Hl; lia|]. now exists e.
Qed.

Lemma starts_long p a b : (slen p <= slen a)%nat -> starts_with p (a +:+ b) = starts_with p a.
Proof.
  unfold starts_with. revert a. induction p as [|c p IH]; intros a Hl; [reflexivity|]. destruct a as [|d a]; [cbn in Hl; lia|].
  cbn [String.append strip_prefix]. destruct (Ascii.eqb c d); [|reflexivity]. apply IH. cbn in Hl. lia.
Qed.
Lemma starts_short p s : starts_with p s = true -> (slen p <= slen s)%nat.
Proof.
  unfold starts_with. revert s. induction p as [|c p IH]; intros s; [cbn; lia|]. destruct s as [|d s]; [discriminate|].
  cbn [strip_prefix]. destruct (Ascii.eqb c d); [|discriminate]. intros H. apply IH in H. cbn. lia.
Qed.

Lemma find_cons c s : find_header_end (String c s) =
  if starts_with HEADER_END (String c s) then Some O else S <$> find_header_end s.
Proof. reflexivity. Qed.
Lemma find_bound s i : find_header_end s = Some i -> (i + 4 <= slen s)%nat.
Proof.
  revert i. induction s as [|c s IH]; intros i; [discriminate|]. rewrite find_cons. destruct (starts_with HEADER_END (String c s)) eqn:E.
  - intros H. apply (inj Some) in H as <-. apply starts_short in E. exact E.
  - destruct (find_header_end s) as [j|]; [|discriminate]. intros H. apply (inj Some) in H as <-. specialize (IH j eq_refl). cbn. lia.
Qed.
(** The end of the head does not move as more bytes arrive. *)
Lemma find_app a b i : (i + 4 <= slen a)%nat -> find_header_end (a +:+ b) = Some i <-> find_header_end a = Some i.
Proof.
  revert i. induction a as [|c a IH]; intros i Hl; [cbn in Hl; lia|]. change (String c a +:+ b) with (String c (a +:+ b)). rewrite !find_cons.
  change (String c (a +:+ b)) with (String c a +:+ b). rewrite starts_long by (cbn in *; lia).
  destruct (starts_with HEADER_END (String c a)); [done|]. destruct i as [|i].
  - destruct (find_header_end (a +:+ b)), (find_header_end a); cbn; split; congruence.
  - specialize (IH i ltac:(cbn in Hl; lia)). destruct (find_header_end (a +:+ b)) as [j|], (find_header_end a) as [k|]; cbn; split; intros H;
      try discriminate H; apply (inj Some) in H; injection H as ->; (f_equal; f_equal); destruct IH as [IH1 IH2];
      (pose proof (IH1 eq_refl) as E || pose proof (IH2 eq_refl) as E); congruence.
Qed.

(** A line at the head of the text. *)
Lemma find_line a s : no_breaks a = true ->
  find_header_end (a +:+ CRLF +:+ s) =
  if starts_with CRLF s then Some (slen a) else (fun i => (slen a + 2 + i)%nat) <$> find_header_end s.
Proof.
  unfold no_breaks. induction a as [|c a IH]; cbn [all_chars].
  - intros _. change ("" +:+ CRLF +:+ s) with (String CR (String LF s)). rewrite !find_cons. unfold starts_with, HEADER_END, CRLF. cbn.
    destruct (match s with "" => None | String b s' => _ end); [reflexivity|]. now destruct (find_header_end s).
  - intros (Hc & Ha)%andb_prop. change (String c a +:+ CRLF +:+ s) with (String c (a +:+ CRLF +:+ s)). rewrite find_cons, (IH Ha).
    replace (starts_with HEADER_END _) with false; [destruct (starts_with CRLF s), (find_header_end s); reflexivity|].
    unfold starts_with, HEADER_END, CRLF. cbn [strip_prefix String.append]. destruct (Ascii.eqb_spec CR c) as [<-|]; [discriminate Hc|reflexivity].
Qed.

(** ** Requests *)

Lemma until_head chunks after : forall buf i, Forall (fun c => c <> "") chunks -> find_header_end (buf +:+ joined chunks) = Some i ->
  find_header_end buf = None -> N.of_nat (slen (buf +:+ joined chunks)) <= RPC_MAX_BODY ->
  exists buf' rest, read_until_head buf chunks after = Found buf' i rest /\ buf' +:+ joined rest = buf +:+ joined chunks /\
    (i + 4 <= slen buf')%nat /\ Forall (fun c => c <> "") rest.
Proof.
  induction chunks as [|c chunks IH]; intros buf i Hne Hf Hn Hl; cbn [joined] in *; [rewrite append_nil_r in Hf; congruence|].
  apply Forall_cons in Hne as [Hc Hne]. rewrite append_assoc in Hf, Hl.
  assert ((RPC_MAX_BODY <? N.of_nat (slen (buf +:+ c))) = false) as Hs by (rewrite slen_append in Hl; apply N.ltb_ge; lia).
  assert (read_until_head buf (c :: chunks) after =
    match find_header_end (buf +:+ c) with Some he => Found (buf +:+ c) he chunks | None => read_until_head (buf +:+ c) chunks after end) as ->.
  { cbn [read_until_head]. rewrite Hs. now destruct c. }
  destruct (find_header_end (buf +:+ c)) as [j|] eqn:E.
  - pose proof (find_bound _ _ E) as Hb. assert (j = i) as -> by (apply (find_app _ (joined chunks) _ Hb) in E; congruence).
    exists (buf +:+ c), chunks. now rewrite append_assoc.
  - destruct (IH _ _ Hne Hf E Hl) as (buf' & rest & H1 & H2 & H3). exists buf', rest. rewrite H2, append_assoc. tauto.
Qed.
Lemma body_whole chunks after : forall body, Forall (fun c => c <> "") chunks ->
  read_body (N.of_nat (slen (body +:+ joined chunks))) body chunks after = Ok (body +:+ joined chunks).
Proof.
  induction chunks as [|c chunks IH]; intros body Hne.
  - cbn [joined read_body]. rewrite append_nil_r. destruct (N.leb_spec (N.of_nat (slen body)) (N.of_nat (slen body))); [done|lia].
  - apply Forall_cons in Hne as [Hc Hne]. cbn [joined]. rewrite append_assoc. cbn [read_body].
    destruct (N.leb_spec (N.of_nat (slen ((body +:+ c) +:+ joined chunks))) (N.of_nat (slen body))) as [H|_].
    + rewrite !slen_append in H. destruct c; [done|cbn in H; lia].
    + destruct c as [|a c]; [done|]. apply IH. exact Hne.
Qed.

Lemma request_exact trust head body chunks after
  (Hcut : joined chunks = head +:+ HEADER_END +:+ body) (Hne : Forall (fun c => c <> "") chunks)
  (Hhead : find_header_end (head +:+ HEADER_END) = Some (slen head))
  (Hlen : h_length (hd_heads (read_head_with (http_line trust) head)) = N.of_nat (slen body))
  (Hmax : N.of_nat (slen (head +:+ HEADER_END +:+ body)) <= RPC_MAX_BODY) :
  receive trust chunks after = Received {| rq_head := read_head_with (http_line trust) head; rq_body := body |}.
Proof.
  assert (find_header_end ("" +:+ joined chunks) = Some (slen head)) as Hf.
  { cbn. rewrite Hcut, append_assoc. apply find_app; [now rewrite slen_append|exact Hhead]. }
  destruct (until_head chunks after "" _ Hne Hf eq_refl) as (buf & rest & Hu & Hr & Hb & Hne'); [cbn; now rewrite Hcut|].
  cbn in Hr. rewrite Hcut, append_assoc in Hr.
  assert (exists b, buf = (head +:+ HEADER_END) +:+ b /\ b +:+ joined rest = body) as (b & -> & <-).
  { destruct (append_split _ _ _ _ (eq_sym Hr)) as (b & -> & ->); [now rewrite slen_append|]. now exists b. }
  unfold receive. rewrite Hu. rewrite <- append_assoc, substring_prefix.
  replace (slen head + 4)%nat with (slen (head +:+ HEADER_END)) by now rewrite slen_append.
  rewrite append_assoc, (slen_append (head +:+ HEADER_END) b), Nat.add_comm, Nat.add_sub, substring_suffix, Hlen, body_whole by done.
  destruct (N.ltb_spec RPC_MAX_BODY (N.of_nat (slen (b +:+ joined rest)))); [|done]. rewrite !slen_append in *. lia.
Qed.

(** A request survives its segmentation.  However a head, a blank line and
    exactly the announced number of body bytes are cut into reads, the endpoint
    reads that head and that body, so what it answers does not depend on the
    network. *)
Theorem request_survives_segmentation trust head body chunks after
  (Hcut : joined chunks = head +:+ HEADER_END +:+ body) (Hne : Forall (fun c => c <> "") chunks)
  (Hhead : find_header_end (head +:+ HEADER_END) = Some (slen head))
  (Hlen : h_length (hd_heads (read_head_with (http_line trust) head)) = N.of_nat (slen body))
  (Hmax : N.of_nat (slen (head +:+ HEADER_END +:+ body)) <= RPC_MAX_BODY) :
  receive trust chunks after = Received {| rq_head := read_head_with (http_line trust) head; rq_body := body |}.
Proof. now apply request_exact. Qed.

(** ** Answers *)

Lemma all_dec_no_breaks n : no_breaks (dec n) = true.
Proof.
  unfold no_breaks. pose proof (all_digits_dec n) as H. induction (dec n) as [|c s IH]; [done|]. cbn in *. apply andb_prop in H as [Hc H].
  rewrite IH by done. clear - Hc. destruct c as [[] [] [] [] [] [] [] []]; try discriminate Hc; reflexivity.
Qed.
Lemma lower_dec n : lower (dec n) = dec n.
Proof.
  unfold lower. pose proof (all_digits_dec n) as H. induction (dec n) as [|c s IH]; [done|]. cbn in *. apply andb_prop in H as [Hc H].
  rewrite IH by done. f_equal. clear - Hc. destruct c as [[] [] [] [] [] [] [] []]; try discriminate Hc; reflexivity.
Qed.

(** Lines as a head carries them: a break between two, none after the last. *)
Fixpoint join_lines (ls : list string) : string :=
  match ls with [] => "" | [l] => l | l :: ls => l +:+ CRLF +:+ join_lines ls end.
Definition proper_line (l : string) : Prop := no_breaks l = true /\ l <> "".

Lemma proper_no_break l s : proper_line l -> starts_with CRLF (l +:+ s) = false.
Proof.
  intros [Hb Hn]. destruct l as [|c l]; [done|]. cbn in Hb. apply andb_prop in Hb as [Hc _]. unfold starts_with, CRLF. cbn [strip_prefix String.append].
  destruct (Ascii.eqb_spec CR c) as [<-|]; [discriminate Hc|reflexivity].
Qed.
Lemma join_lines_end ls : ls <> [] -> Forall proper_line ls ->
  find_header_end (join_lines ls +:+ HEADER_END) = Some (slen (join_lines ls)).
Proof.
  induction ls as [|l ls IH]; [done|]. intros _ H. apply Forall_cons in H as [Hl H]. destruct ls as [|l' ls].
  - cbn [join_lines]. unfold HEADER_END. rewrite find_line by apply Hl. reflexivity.
  - specialize (IH ltac:(done) H). change (join_lines (l :: l' :: ls)) with (l +:+ CRLF +:+ join_lines (l' :: ls)).
    rewrite <- !append_assoc, find_line by apply Hl. apply Forall_cons in H as [Hl' H].
    assert (exists s, join_lines (l' :: ls) = l' +:+ s) as [s Hs]
      by (destruct ls; [exists ""; cbn; now rewrite append_nil_r|now eexists]).
    rewrite Hs, <- append_assoc, (proper_no_break l' _ Hl'), append_assoc, <- Hs, IH. cbn [fmap option_fmap option_map]. rewrite !slen_append. f_equal. cbn. lia.
Qed.
Lemma lines_join ls : Forall proper_line ls -> lines (join_lines ls) = ls.
Proof.
  induction ls as [|l ls IH]; [done|]. intros H. apply Forall_cons in H as [[Hb Hn] H]. destruct ls as [|l' ls].
  - cbn [join_lines]. clear IH H. induction l as [|c l IH]; [done|]. cbn in Hb. apply andb_prop in Hb as [Hc Hb]. apply andb_prop in Hc as [Hc _].
    apply negb_true_iff, Ascii.eqb_neq in Hc. destruct l as [|d l]; [cbn [lines]; now rewrite (proj2 (Ascii.eqb_neq c LF) Hc)|].
    apply lines_cons; [done|now apply IH|]. intros s E. injection E as -> ->. discriminate Hb.
  - change (join_lines (l :: l' :: ls)) with (l +:+ CRLF +:+ join_lines (l' :: ls)). now rewrite lines_crlf, IH.
Qed.

(** The lines of an answer's head. *)
Definition answer_lines (status : N) (ctype : string) (len : N) : list string := [
  "HTTP/1.1 " +:+ dec status +:+ " " +:+ reason_text status; "Content-Type: " +:+ ctype; "Content-Length: " +:+ dec len;
  "Access-Control-Allow-Origin: *"; "Access-Control-Allow-Headers: *"; "Access-Control-Allow-Methods: POST, GET, OPTIONS"; "Connection: close"].
Lemma respond_split status ctype body :
  respond_typed status ctype body = join_lines (answer_lines status ctype (N.of_nat (slen body))) +:+ HEADER_END +:+ body.
Proof. unfold respond_typed, header, HEADER_END. cbn [join_lines answer_lines]. rewrite <- !append_assoc. reflexivity. Qed.
Lemma answer_lines_proper status ctype len : no_breaks ctype = true -> Forall proper_line (answer_lines status ctype len).
Proof.
  intros Hc. assert (no_breaks (reason_text status) = true) as Hr.
  { unfold reason_text. repeat (destruct (_ =? _); [reflexivity|]). reflexivity. }
  unfold no_breaks in *. pose proof (all_dec_no_breaks status) as Hs. pose proof (all_dec_no_breaks len) as Hl. unfold no_breaks in *.
  repeat (apply Forall_cons; split; [split; [unfold no_breaks; rewrite ?all_chars_app, ?Hc, ?Hr, ?Hs, ?Hl; reflexivity|discriminate]|]). apply Forall_nil. done.
Qed.

Lemma credential_keeps_length trust l h : h_length (credential_line trust l h) = h_length h.
Proof. unfold credential_line, present. repeat case_match; reflexivity. Qed.

(** What the request reader makes of the header lines of an answer. *)
Lemma answer_length status ctype len : len <= U64_MAX ->
  h_length (foldl (http_line false) no_heads (List.tl (answer_lines status ctype len))) = len.
Proof.
  intros H. cbn [List.tl answer_lines foldl].
  assert (forall h, h_length (http_line false h ("Content-Length: " +:+ dec len)) = len) as Hl.
  { intros h. unfold http_line. change (strip_prefix "content-length:" (lower ("Content-Length: " +:+ dec len))) with (Some (String " " (lower (dec len)))).
    rewrite credential_keeps_length, lower_dec. cbn [h_length with_length]. change (trim (String " " (dec len))) with (trim (dec len)).
    rewrite Toy_suite.trim_dec. unfold parse_u64. now rewrite parse_uint_dec. }
  change (h_length (http_line false (http_line false no_heads ("Content-Type: " +:+ ctype)) ("Content-Length: " +:+ dec len)) = len).
  apply Hl.
Qed.

(** Answers are framed.  Whatever the status, the type and the body, a reader
    that follows the same rules as the endpoint itself takes an answer apart
    again: the announced length is the length of the body, the head ends where the
    body begins, and the body arrives whole however it was cut. *)
Theorem answers_framed status ctype body chunks after (Htype : no_breaks ctype = true)
  (Hmax : N.of_nat (slen (respond_typed status ctype body)) <= RPC_MAX_BODY)
  (Hcut : joined chunks = respond_typed status ctype body) (Hne : Forall (fun c => c <> "") chunks) :
  exists head, receive false chunks after = Received {| rq_head := head; rq_body := body |} /\
    hd_line head = "HTTP/1.1 " +:+ dec status +:+ " " +:+ reason_text status /\ h_length (hd_heads head) = N.of_nat (slen body).
Proof.
  pose proof (answer_lines_proper status ctype (N.of_nat (slen body)) Htype) as Hp.
  rewrite respond_split in Hcut, Hmax. eexists. split.
  - apply request_exact; [exact Hcut|exact Hne|now apply join_lines_end| |exact Hmax].
    unfold read_head_with. cbn [hd_heads]. rewrite lines_join by exact Hp. apply answer_length.
    rewrite !slen_append in Hmax. unfold RPC_MAX_BODY, U64_MAX in *. lia.
  - unfold read_head_with. cbn [hd_line hd_heads]. rewrite lines_join by exact Hp. split; [reflexivity|]. apply answer_length.
    rewrite !slen_append in Hmax. unfold RPC_MAX_BODY, U64_MAX in *. lia.
Qed.

Section facts.
Context {HC : Crypto} {HF : Fr} {HK : Compression} {HP : ChainParams} {HJ : EvidenceJson} {HW : Wasm} {HG : Groth16} {HS : Serde} {HT : JsonText}.

(** ** One call, two endpoints *)

Definition about_subscriptions (method : string) : Prop :=
  method ∈ ["inaz_subscribe"; "inaz_unsubscribe"; "inaz_subscriptions"].
Lemma subscription_other conn pipe method p b : ~ about_subscriptions method -> subscription_call conn pipe method p b = None.
Proof.
  intros H. unfold subscription_call, about_subscriptions in *. rewrite !elem_of_cons in H.
  now rewrite !(proj2 (String.eqb_neq _ _)) by (intros ->; tauto).
Qed.

(** One call, one answer.  A message on a socket and an HTTP request that
    carry the same call for the same credential, from the same address and with
    the same budgets, leave the same node, the same budgets and the same
    transactions for gossip, and get the same reply, except that HTTP adds the
    price to a refusal for lack of budget. *)
Theorem endpoints_agree x text req o conn pipe c n b g status v n' c' txs
  (Hparse : json_of_text text = Some req) (Htier : op_tier o = tier_for (op_credential o) c)
  (Hauth : require_auth c = true -> op_tier o <> Anonymous)
  (Hpriv : req_method req ∈ PRIVILEGED_METHODS -> op_tier o = Admin) (Hsubs : ~ about_subscriptions (req_method req))
  (Hhttp : serve_call x req (op_ip o) (op_credential o) c n = (status, v, n', c', txs)) :
  exists v', handle_message x text o conn pipe (Build_Shared n c b g) = (v', Build_Shared n' c' b (g ++ txs)) /\
    get "id" v' = get "id" v /\ (status = 200 -> v' = v) /\ (status <> 200 -> status = 429 /\ v' = rpc_error (req_id req) (-32005) "rate limited").
Proof.
  unfold serve_call in Hhttp. unfold handle_message. rewrite Hparse, <- Htier in *. cbn [sh_node sh_cfg sh_bus sh_gossip].
  replace (require_auth c && bool_decide (op_tier o = Anonymous)) with false in Hhttp
    by (symmetry; destruct (require_auth c); [apply bool_decide_eq_false; auto|reflexivity]).
  replace (bool_decide (req_method req ∈ PRIVILEGED_METHODS) && negb (bool_decide (op_tier o = Admin))) with false in *
    by (symmetry; case_bool_decide as Hm; [now rewrite bool_decide_true by auto|reflexivity]).
  destruct (charge_weighted _ _ _ _ _ _ c) as [[] c1].
  - rewrite subscription_other by exact Hsubs. cbn [with_cfg sh_node sh_cfg sh_bus sh_gossip].
    destruct (dispatch_metered _ _ _ _ c1 n) as [r c2]. apply pair_equal_spec in Hhttp as [Hhttp <-]. apply pair_equal_spec in Hhttp as [Hhttp <-].
    apply pair_equal_spec in Hhttp as [Hhttp <-]. apply pair_equal_spec in Hhttp as [<- <-]. eexists. split; [reflexivity|]. repeat split; done.
  - apply pair_equal_spec in Hhttp as [Hhttp <-]. apply pair_equal_spec in Hhttp as [Hhttp <-].
    apply pair_equal_spec in Hhttp as [Hhttp <-]. apply pair_equal_spec in Hhttp as [<- <-]. eexists.
    split; [unfold with_cfg; cbn [sh_node sh_bus sh_gossip]; now rewrite app_nil_r|]. repeat split; done.
Qed.

(** ** What a connection leaves alone *)

Definition contained (admin : Prop) (n n' : Node) : Prop :=
  kept (n_db n) (n_db n') /\ n_votes n' = n_votes n /\ n_sign_guard n' = n_sign_guard n /\ (~ admin -> same_but_pool n n').
Lemma contained_refl admin n : contained admin n n.
Proof. apply nothing_moved. Qed.
Lemma contained_dispatch (admin : Prop) x method p t c n : (t = Admin -> admin) ->
  contained admin n (left_node (dispatch_metered x method p t c n).1).
Proof.
  intros Ha. destruct (calls_keep_chain_state x method p t c n) as (H1 & H2 & H3 & H4). repeat split; [done..|].
  intros Hn. apply H4. intros ->. auto.
Qed.
Lemma charge_keeps_keys now ip t k cost c : keys (charge now ip t k cost c).2 = keys c.
Proof. unfold charge. destruct t, k; repeat case_match; reflexivity. Qed.

(** The credential is an admin key of the configuration. *)
Definition admin_presented (c : RpcConfig) (credential : option string) : Prop :=
  exists k, credential = Some k /\ keys c !! k = Some Admin.
Lemma admin_tier c credential : tier_for credential c = Admin -> admin_presented c credential.
Proof.
  destruct credential as [k|]; [|discriminate]. rewrite tier_lookup. intros H. exists k. split; [done|]. now destruct (keys c !! k) as [t|]; cbn in H; subst.
Qed.

Lemma served_call_contained x req ip credential c n status v n' c' txs :
  serve_call x req ip credential c n = (status, v, n', c', txs) -> contained (admin_presented c credential) n n' /\
  (require_auth c = true -> ~ (exists k, credential = Some k /\ is_Some (keys c !! k)) -> n' = n).
Proof.
  unfold serve_call. intros H. assert (forall m, (status, v, n', c', txs) = m -> n' = m.1.1.2) as Hn by now intros _ <-.
  apply eq_sym, Hn in H as ->. clear Hn.
  match goal with |- context [if require_auth c && _ then _ else ?m] => assert (contained (admin_presented c credential) n m.1.1.2) as Hm end.
  { destruct (_ && _); [apply contained_refl|]. destruct (charge_weighted _ _ _ _ _ _ c) as [[] c1]; [|apply contained_refl].
    pose proof (contained_dispatch (admin_presented c credential) x (req_method req) (req_params req) (tier_for credential c) c1 n (admin_tier c credential)) as Hd.
    now destruct (dispatch_metered _ _ _ _ c1 n) as [r c2]. }
  destruct (require_auth c) eqn:Ea; cbn [andb]; [|split; [exact Hm|discriminate]].
  destruct (bool_decide_reflect (tier_for credential c = Anonymous)) as [Ht|Ht]; [split; [apply contained_refl|done]|].
  split; [exact Hm|]. intros _ Hk. destruct Hk.
  destruct credential as [k|]; [|now destruct Ht]. exists k. split; [done|]. rewrite tier_lookup in Ht. destruct (keys c !! k); [done|now destruct Ht].
Qed.

(** The credential a connection presents in its head. *)
Definition presented (c : RpcConfig) (chunks : list string) (after : After) : option string :=
  match receive (trust_proxy c) chunks after with Received rq => h_credential (hd_heads (rq_head rq)) | _ => None end.

(** C12: No connection changes the chain.  Whatever bytes arrive on an HTTP
    connection, however they are cut and however the connection ends, every row of
    the store stays, but for the halt mark and the history that pruning removes;
    without an admin key in the head nothing of the node changes but the mempool;
    and on a closed endpoint nothing at all changes for a caller whose head does
    not carry a configured key. *)
Theorem connections_keep_chain_state x peer chunks after c n :
  let n' := sv_node (handle_conn x peer chunks after c n) in
  kept (n_db n) (n_db n') /\ n_votes n' = n_votes n /\ n_sign_guard n' = n_sign_guard n /\
  (~ admin_presented c (presented c chunks after) -> same_but_pool n n') /\
  (require_auth c = true -> ~ (exists k, presented c chunks after = Some k /\ is_Some (keys c !! k)) -> n' = n).
Proof.
  cbv zeta. unfold handle_conn, presented. destruct (receive (trust_proxy c) chunks after) as [| | |rq];
    try (destruct (contained_refl (admin_presented c None) n) as (H1 & H2 & H3 & H4); repeat split; done).
  pose proof (contained_refl (admin_presented c (h_credential (hd_heads (rq_head rq)))) n) as (R1 & R2 & R3 & R4).
  destruct (String.eqb _ "OPTIONS"); [repeat split; done|]. destruct (String.eqb _ "GET").
  - assert (sv_node (serve_get x (List.nth 1 (split_whitespace (hd_line (rq_head rq))) "/") (client_ip (hd_heads (rq_head rq)) peer)
      (h_credential (hd_heads (rq_head rq))) c n) = n) as ->; [|repeat split; done].
    unfold serve_get. destruct (charge _ _ _ _ _ c) as [[] c1]; [|reflexivity]. now destruct (String.eqb _ "/metrics").
  - destruct (serve_call _ _ _ _ c n) as [[[[status v] n'] c'] txs] eqn:E. apply served_call_contained in E as [(C1 & C2 & C3 & C4) C5].
    cbn [sv_node]. repeat split; [done..|]. exact C5.
Qed.

(** ** Sockets *)

(** Frames sent without a message between them. *)
Fixpoint sent_bytes (outs : list Ws.Out) : string :=
  match outs with Ws.Sent b :: outs => b +:+ sent_bytes outs | _ => "" end.
Lemma pings_first t ws os : Carries t ws os -> forall x i o conn pipe more s,
  serve_outs x i o conn pipe (os ++ more) s = let '(sent, s') := serve_outs x i o conn pipe more s in (sent_bytes os +:+ sent, s').
Proof.
  induction 1 as [w Ho Hf|w t ws os Ho Hf H IH|w t ws os Ho H IH|w t ws os Ho H IH]; intros x i o conn pipe more s;
    [cbn; now destruct (serve_outs _ _ _ _ _ more s)|apply IH| |apply IH].
  cbn [app serve_outs sent_bytes]. rewrite IH. destruct (serve_outs _ _ _ _ _ more s). now rewrite append_assoc.
Qed.

(** A call over a socket.  However a client cuts the text of a call into
    frames and mixes pings in, the socket echoes the pings, handles exactly that
    call, sends one text frame with its reply, and goes on with what follows. *)
Theorem socket_answers_call x i o conn pipe t ws os fuel rest outs r s (Hc : Carries t ws os) (Hs : forallb sendable ws = true)
  (Hl : N.of_nat (slen t) <= MAX_FRAME_BYTES) (Hrest : Ws.socket fuel "" rest = Some (outs, r)) :
  exists all, Ws.socket (length ws + fuel) "" (wires ws +:+ rest) = Some (all, r) /\
    serve_outs x i o conn pipe all s =
    let '(v, s1) := handle_message (x i) t o conn pipe s in
    let '(more, s2) := serve_outs x (S i) o conn pipe outs s1 in
    (sent_bytes os +:+ Ws.send 1 (json_text v) +:+ more, s2).
Proof.
  exists ((os ++ [Ws.Delivered t]) ++ outs). split.
  - rewrite (socket_carries t ws os Hc Hs) by done. now rewrite Hrest.
  - rewrite <- app_assoc, (pings_first t ws os Hc). cbn [app serve_outs]. destruct (handle_message (x i) t o conn pipe s) as [v s1].
    now destruct (serve_outs x (S i) o conn pipe outs s1).
Qed.

(** When a socket ends, none of its subscriptions is left. *)
Lemma socket_drops_subscriptions fuel x o conn pipe arrivals s sent s' r :
  serve_socket fuel x o conn pipe arrivals s = Some (sent, s', r) -> forall id sub, subs (sh_bus s') !! id = Some sub -> sub_conn sub <> conn.
Proof.
  unfold serve_socket. destruct (Ws.await_socket fuel "" arrivals) as [[outs e]|]; cbn [mbind option_bind]; [|discriminate].
  destruct (serve_outs x 0 o conn pipe outs s) as [b s1]. intros H id sub Hs. apply (inj Some) in H.
  apply pair_equal_spec in H as [H _]. apply pair_equal_spec in H as [_ <-]. unfold with_bus, drop_conn, with_subs in Hs. cbn [sh_bus subs] in Hs.
  apply map_lookup_filter_Some in Hs as [_ Hs]. exact Hs.
Qed.
End facts.

(** ** The accept loops *)

Lemma ip_given_back i j c : live_for i c + 1 < 2 ^ 64 ->
  live_for j (ip_release i (with_ips (<[i:=live_for i c +!! 1]> (live_ips c)) c)) = live_for j c.
Proof.
  intros Hb. unfold ip_release. cbn [live_ips with_ips]. rewrite lookup_insert_eq, wadd_small by lia. unfold sat_sub. rewrite N.add_sub.
  unfold live_for at 1. cbn [live_ips with_ips]. destruct (N.eqb_spec (live_for i c) 0) as [E|E]; (destruct (decide (i = j)) as [<-|Hj]).
  - now rewrite lookup_delete_eq.
  - now rewrite lookup_delete_ne, lookup_insert_ne.
  - now rewrite lookup_insert_eq.
  - now rewrite !lookup_insert_ne.
Qed.

(** Places are balanced: a refused connection gives back what it took, an
    accepted one does when it ends, and nobody is let in beyond the limits. *)
Theorem places_balanced ip g ok g' (Hlive : live (g_conns g) < 2 ^ 64 - 1) (Hhost : forall i, live_for i (g_per_ip g) < 2 ^ 64 - 1)
  (H : accept ip g = (ok, g')) :
  let g2 := if ok then leave ip g' else g' in
  live (g_conns g2) = live (g_conns g) /\ (forall i, live_for i (g_per_ip g2) = live_for i (g_per_ip g)) /\
  (ok = true -> live (g_conns g) < max_live (g_conns g) /\ forall i, ip = Some i -> live_for i (g_per_ip g) < max_per_ip (g_per_ip g)).
Proof.
  unfold accept, try_acquire, attempt in H. rewrite N.eqb_refl in H.
  destruct (N.leb_spec (max_live (g_conns g)) (live (g_conns g))) as [Hm|Hm]; [apply pair_equal_spec in H as [<- <-]; repeat split; done|].
  assert (forall c, release (with_live (live (g_conns g) +!! 1) c) = with_live (live (g_conns g)) c) as Hr.
  { intros c. unfold release, with_live. cbn [live max_live]. f_equal. rewrite wadd_small, wsub_small by lia. lia. }
  destruct ip as [i|]; [|apply pair_equal_spec in H as [<- <-]; cbv zeta; unfold leave; cbn [g_conns g_per_ip]; rewrite Hr; repeat split; done].
  unfold ip_try_acquire in H. specialize (Hhost i).
  destruct (N.leb_spec (max_per_ip (g_per_ip g)) (live_for i (g_per_ip g))) as [Hi|Hi]; apply pair_equal_spec in H as [<- <-]; cbv zeta;
    unfold leave; cbn [g_conns g_per_ip]; rewrite Hr; (split; [reflexivity|]).
  - split; [|done]. intros j. unfold live_for at 1. cbn [live_ips with_ips]. destruct (decide (i = j)) as [<-|Hj]; [now rewrite lookup_insert_eq|now rewrite lookup_insert_ne].
  - split; [|intros _; split; [exact Hm|]; intros j Hj; apply (inj Some) in Hj as <-; exact Hi]. intros j. apply ip_given_back. lia.
Qed.

(** ** Concrete inputs *)

Module Http_example.
Import Toy Toy_field Exec_example Simulate_example Rpc_example Access_example.
#[local] Existing Instance toy_serde.

(** A reader that knows two texts. *)
Definition call_tip : JValue := JObj [("id", JNum 7); ("method", JStr "inaz_blockNumber")].
Definition call_halt : JValue := JObj [("id", JNum 8); ("method", JStr "inaz_halt")].
#[local] Instance toy_text : JsonText := {|
  json_of_text s := if String.eqb s "tip" then Some call_tip else if String.eqb s "halt" then Some call_halt else None;
  json_text v := match get "result" v with Some (JNum n) => dec (Z.to_N n) | _ => "error" end |}.

Definition request_head : string := join_lines ["POST / HTTP/1.1"; "Host: node"; "X-API-Key: " +:+ admin_key; "Content-Length: 3"].
(** The request in two reads, cut inside the blank line. *)
Definition cut : nat := (slen request_head + 2)%nat.
Definition whole : string := request_head +:+ HEADER_END +:+ "tip".
Definition pieces : list string := [String.substring 0 cut whole; String.substring cut 5 whole].
Lemma pieces_nonempty : Forall (fun c => c <> "") pieces.
Proof. unfold pieces. repeat (apply Forall_cons; split; [intros E; vm_compute in E; discriminate E|]). apply Forall_nil. exact I. Qed.

Lemma request_survives_segmentation_witness :
  receive false pieces (Ok ()) = Received {| rq_head := read_head_with (http_line false) request_head; rq_body := "tip" |}.
Proof. apply (request_survives_segmentation false request_head "tip" pieces (Ok ())); [vm_compute; reflexivity|exact pieces_nonempty|vm_compute; reflexivity|vm_compute; reflexivity|vm_compute; discriminate]. Defined.

Lemma answers_framed_witness : exists head,
  receive false [respond 429 "slow down"] (Err "reset") = Received {| rq_head := head; rq_body := "slow down" |} /\
  hd_line head = "HTTP/1.1 429 Too Many Requests".
Proof.
  destruct (answers_framed 429 "application/json" "slow down" [respond 429 "slow down"] (Err "reset")) as (head & H1 & H2 & _);
    [reflexivity|vm_compute; discriminate|vm_compute; reflexivity|apply Forall_cons; split; [vm_compute; discriminate|now apply Forall_nil]|].
  exists head. split; [exact H1|]. rewrite H2. vm_compute. reflexivity.
Defined.

Definition opened : Opened := {| op_tier := Admin; op_credential := Some admin_key; op_ip := caller |}.
Lemma endpoints_agree_witness : exists v s,
  handle_message proc "tip" opened 1 1 (Build_Shared pool conf bus_new []) = (v, s) /\ v = envelope (JNum 7) "result" (JNum 0) /\ sh_bus s = bus_new.
Proof.
  destruct (serve_call proc call_tip caller (Some admin_key) conf pool) as [[[[status v] n'] c'] txs] eqn:E.
  destruct (endpoints_agree proc "tip" call_tip opened 1 1 conf pool bus_new [] status v n' c' txs) as (v' & H1 & _ & H2 & _);
    [reflexivity|vm_compute; reflexivity|discriminate|reflexivity| |exact E|].
  - unfold about_subscriptions. rewrite !elem_of_cons. intros [H|[H|[H|H]]]; [discriminate H..|]. now apply elem_of_nil in H.
  - assert ((serve_call proc call_tip caller (Some admin_key) conf pool).1.1.1 = (200, envelope (JNum 7) "result" (JNum 0))) as Hv by (vm_compute; reflexivity).
    rewrite E in Hv. apply pair_equal_spec in Hv as [Hs Hv]. cbn [fst] in Hs, Hv. subst status v.
    exists v', (Build_Shared n' c' bus_new ([] ++ txs)). split; [exact H1|]. split; [now apply H2|reflexivity].
Defined.

(** The call cut into three frames, with a ping before the last. *)
Definition tip_frames : list Wire := [Ws_example.part 1 false "t" "abcd" Short; Ws_example.part 0 false "i" "efgh" Short;
  Ws_example.part 9 true "?" "wxyz" Mid; Ws_example.part 0 true "p" "1234" Long].
Lemma tip_carried : Carries "tip" tip_frames [Ws.Sent (Ws.send 10 "?")].
Proof.
  apply (carries_more (Ws_example.part 1 false "t" "abcd" Short) "ip"); [reflexivity..|].
  apply (carries_more (Ws_example.part 0 false "i" "efgh" Short) "p"); [reflexivity..|].
  apply (carries_ping (Ws_example.part 9 true "?" "wxyz" Mid)); [reflexivity|]. now apply (carries_last (Ws_example.part 0 true "p" "1234" Long)).
Qed.
Lemma socket_answers_call_witness : exists all,
  Ws.socket (4 + 1) "" (wires tip_frames +:+ Ws_example.close) = Some (all, Ok ()) /\
  (serve_outs (fun _ => proc) 0 opened 1 1 all (Build_Shared pool conf bus_new [])).1 = Ws.send 10 "?" +:+ Ws.send 1 "0".
Proof.
  destruct (socket_answers_call (fun _ => proc) 0 opened 1 1 "tip" tip_frames _ 1 Ws_example.close [] (Ok ()) (Build_Shared pool conf bus_new []) tip_carried)
    as (all & H1 & H2); [vm_compute; reflexivity|vm_compute; discriminate|vm_compute; reflexivity|].
  exists all. split; [exact H1|]. rewrite H2.
  assert (json_text (handle_message proc "tip" opened 1 1 (Build_Shared pool conf bus_new [])).1 = "0") as Hv by (vm_compute; reflexivity).
  destruct (handle_message proc "tip" opened 1 1 (Build_Shared pool conf bus_new [])) as [v s1]. cbn [fst] in Hv. cbn [serve_outs fst]. rewrite Hv.
  vm_compute. reflexivity.
Defined.

Lemma places_balanced_witness : let g := (accept (Some caller) ws_gatekeeper).2 in
  live (g_conns (leave (Some caller) g)) = 0 /\ live_for caller (g_per_ip (leave (Some caller) g)) = 0.
Proof.
  cbv zeta. destruct (places_balanced (Some caller) ws_gatekeeper true (accept (Some caller) ws_gatekeeper).2) as (H1 & H2 & _);
    [vm_compute; reflexivity|intros i; unfold live_for; cbn; rewrite lookup_empty; vm_compute; reflexivity|vm_compute; reflexivity|].
  split; [exact H1|exact (H2 caller)].
Defined.

(** A closed node: without a key nothing happens, with the admin key it halts. *)
Definition halting (key : string) : list string := [join_lines ["POST / HTTP/1.1"; "X-API-Key: " +:+ key; "Content-Length: 4"] +:+ HEADER_END +:+ "halt"].
Lemma stranger_refused : sv_node (handle_conn proc None (halting "guess-guess-guess") (Ok ()) conf pool) = pool.
Proof. apply connections_keep_chain_state; [reflexivity|]. intros (k & Hk & H). vm_compute in Hk. injection Hk as <-. vm_compute in H. now destruct H. Qed.
Lemma operator_halts : halted (sv_node (handle_conn proc None (halting admin_key) (Ok ()) conf pool)) = true.
Proof. vm_compute. reflexivity. Qed.
End Http_example.
