(* ===== verification/Publish.v ===== *)
(** chain.rs, what the node tells its subscribers: the events of an admitted
    transaction and of a sealed or imported block, and what each subscription
    hears of them.

    The payloads are the JSON values of Rpc.v.  The bus walks its table in an
    order that is not specified; the receipt of a contract call is rendered as
    its derived encoding does. *)

From S2P Require Import Prelude Bytes Crypto Types Journal Store Smt Poseidon Shielded State StateFacts Fees Staking Tokens Slashing Votes.
From S2P Require Import Mempool Contracts SignGuard Circuit Exec ExecFacts Chain Simulate Limits Access Rpc RpcFacts Events.
From Stdlib Require Import Ascii.
From Stdlib Require String.

Section publish.
Context {HC : Crypto} {HF : Fr} {HK : Compression} {HP : ChainParams} {HJ : EvidenceJson} {HW : Wasm} {HG : Groth16} {HS : Serde}.

(* [src/src/contracts.rs 57-69 Receipt] *)
Definition receipt_json (r : Receipt) : JValue := JObj [
  ("contract", JStr (r_contract r)); ("caller", JStr (r_caller r)); ("ok", JBool (r_ok r)); ("fuel_used", jn (r_fuel_used r));
  ("height", jn (r_height r)); ("return_hex", JStr (r_return_hex r)); ("logs", JArr (map JStr (r_logs r))); ("error", jopt JStr (r_error r))].

(* [src/src/chain.rs 614-621! Node::admit] *)
Definition mempool_event (tx : Transaction) (hash sender : string) (pool : Mempool.Mempool) : Event JValue :=
  event_new "mempool" None (JObj [("hash", JStr hash); ("from", JStr sender); ("kind", JStr (tag (tx_kind tx)));
    ("fee", jamt (tx_fee tx)); ("poolSize", jn (pool_len pool))]).

(** The events of a batch, one transaction after the other. *)
Fixpoint admit_events (d : Db) (floor : N) (items : list (result (Transaction * string * string))) (pool : Mempool.Mempool) : list (Event JValue) :=
  match items with
  | [] => []
  | Err _ :: rest => admit_events d floor rest pool
  | Ok (tx, hash, sender) :: rest =>
    match admit_tx d pool tx hash sender floor with
    | (Ok h, pool) => mempool_event tx h sender pool :: admit_events d floor rest pool
    | (Err _, pool) => admit_events d floor rest pool
    end
  end.

(* [src/src/chain.rs 1317-1332! Node::publish_block] *)
Definition head_event (b : Block) (d : Db) : Event JValue :=
  event_new "heads" None (JObj [("height", jn (b_height b)); ("hash", JStr (b_hash b)); ("parentHash", JStr (b_parent_hash b));
    ("timestamp", jamt (b_timestamp_ms b)); ("stateRoot", JStr (b_state_root b)); ("txsRoot", JStr (b_txs_root b));
    ("producer", JStr (b_producer b)); ("txCount", jlen (b_transactions b)); ("finalizedHeight", jn (finalized_height d));
    ("baseFee", jamt (base_fee d))]).
Definition from_of (tx : Transaction) : string := default "" (sender tx).
(* [src/src/chain.rs 1338-1346! Node::publish_block] *)
Definition signature_event (b : Block) (d : Db) (tx : Transaction) : Event JValue :=
  event_new "signature" (Some (tx_hash tx)) (JObj [("hash", JStr (tx_hash tx)); ("status", JStr "confirmed"); ("height", jn (b_height b));
    ("finalized", JBool (b_height b <=? finalized_height d)); ("kind", JStr (tag (tx_kind tx))); ("from", JStr (from_of tx));
    ("to", JStr (tx_to tx)); ("fee", jamt (tx_fee tx))]).
(** The contract of a call, or the one a deployment created. *)
Definition contract_of (d : Db) (tx : Transaction) : string :=
  if bool_decide (tx_kind tx = CallContract) then tx_to tx else default "" (r_contract <$> receipt (tx_hash tx) d).
(* [src/src/chain.rs 1352-1370! Node::publish_block] *)
Definition logs_events (b : Block) (d : Db) (tx : Transaction) : list (Event JValue) :=
  if bool_decide (tx_kind tx = CallContract \/ tx_kind tx = DeployContract) then
    [event_new "logs" (Some (contract_of d tx)) (JObj [("contract", JStr (contract_of d tx)); ("tx", JStr (tx_hash tx));
      ("height", jn (b_height b)); ("caller", JStr (from_of tx)); ("receipt", jopt receipt_json (receipt (tx_hash tx) d))])]
  else [].
(** [if !addr.is_empty() && !touched.contains(&addr) { touched.push(addr) }] *)
Definition touch (touched : list string) (addr : string) : list string :=
  if String.eqb addr "" || bool_decide (addr ∈ touched) then touched else touched ++ [addr].
(* [src/src/chain.rs 1347-1351! Node::publish_block] *)
Definition touched_by (txs : list Transaction) : list string :=
  foldl (fun touched tx => touch (touch touched (from_of tx)) (tx_to tx)) [] txs.
(* [src/src/chain.rs 1373-1384! Node::publish_block] *)
Definition account_event (b : Block) (d : Db) (addr : string) : Event JValue :=
  let a := account addr d in
  event_new "account" (Some addr) (JObj [("address", JStr addr); ("height", jn (b_height b)); ("balance", jamt (balance a));
    ("balanceInaz", jinaz (balance a)); ("staked", jamt (staked a)); ("nonce", jn (nonce a))]).
(* [src/src/chain.rs 1387-1400! Node::publish_block] *)
Definition finality_events (b : Block) (d : Db) (announced : N) : list (Event JValue) :=
  if announced <? finalized_height d then
    [event_new "finality" None (JObj [("finalizedHeight", jn (finalized_height d)); ("height", jn (b_height b))])]
  else [].

(** Everything a block has to say, in order. *)
(* [src/src/chain.rs 1312-1401 Node::publish_block] *)
Definition block_events (b : Block) (d : Db) (announced : N) : list (Event JValue) :=
  head_event b d :: concat (map (fun tx => signature_event b d tx :: logs_events b d tx) (b_transactions b)) ++
  map (account_event b d) (touched_by (b_transactions b)) ++ finality_events b d announced.

(** [announced_final] afterwards: an empty bus leaves it. *)
Definition announced_after (d : Db) (bus : EventBus) (announced : N) : N :=
  if bool_decide (subs bus = ∅) then announced else N.max announced (finalized_height d).

(** The publication of a block: the table and the queues before and after, the
    height announced as final before and after. *)
(* [src/src/chain.rs 1312-1401 Node::publish_block] *)
Definition publish_block (b : Block) (d : Db) (st st' : EventBus * gmap N (Pipe JValue)) (announced announced' : N) : Prop :=
  announced' = announced_after d st.1 announced /\
  if bool_decide (subs st.1 = ∅) then st' = st else publications (block_events b d announced) st st'.
End publish.

(** ** A run of publications, seen by one subscription *)

Section listening.
Context {V : Type}.
Implicit Types (ev : Event V) (ps : gmap N (Pipe V)).

(** What subscription [id] is owed of a list of events. *)
Definition wanted (id : N) (s : Sub) (evs : list (Event V)) : list (Frame V) :=
  omap (fun ev => if matches (sub_channel s) ev then Some (frame_of id s ev) else None) evs.

Lemma wanted_one id s ev : wanted id s [ev] = if matches (sub_channel s) ev then [frame_of id s ev] else [].
Proof. unfold wanted. cbn [omap list_omap]. now destruct (matches (sub_channel s) ev). Qed.
Lemma wanted_one_len id s ev : (length (wanted id s [ev]) <= 1)%nat.
Proof. rewrite wanted_one. destruct (matches (sub_channel s) ev); cbn; lia. Qed.

(** No other subscription uses the queue. *)
Definition alone (id : N) (s : Sub) (b : EventBus) : Prop :=
  forall i s', subs b !! i = Some s' -> sub_pipe s' = sub_pipe s -> i = id.

Lemma owed_alone order ev b id s : NoDup order -> id ∈ order -> subs b !! id = Some s -> alone id s b ->
  owed (sub_pipe s) ev (subs b) order = wanted id s [ev].
Proof.
  intros Hn Hin Hs Ha. unfold owed, wanted. cbn [omap list_omap].
  assert (forall l, id ∉ l -> omap (fun i => s' ← subs b !! i; if matches (sub_channel s') ev && (sub_pipe s' =? sub_pipe s)
    then Some (frame_of i s' ev) else None) l = []) as Hno.
  { induction l as [|i l IH]; [done|]. intros [Hne Hl]%not_elem_of_cons. cbn [omap list_omap]. destruct (subs b !! i) as [s'|] eqn:E; cbn; [|now apply IH].
    destruct (N.eqb_spec (sub_pipe s') (sub_pipe s)) as [Hp|Hp]; [destruct Hne; symmetry; now apply (Ha i s')|]. rewrite andb_false_r. now apply IH. }
  apply list_elem_of_split in Hin as (l1 & l2 & ->). apply NoDup_app in Hn as (_ & Hd & Hn). apply NoDup_cons in Hn as [H2 _].
  rewrite omap_app. cbn [omap list_omap]. rewrite Hs. cbn [mbind option_bind]. rewrite N.eqb_refl, andb_true_r.
  rewrite Hno by (intros H; apply (Hd id H), list_elem_of_here). rewrite (Hno l2 H2). now destruct (matches (sub_channel s) ev).
Qed.

(** One publication into a queue with room. *)
Lemma heard_once order ev b ps id s : order ≡ₚ map fst (map_to_list (subs b)) -> subs b !! id = Some s -> alone id s b ->
  open (pipe_of (sub_pipe s) ps) = true -> (length (frames (pipe_of (sub_pipe s) ps)) < QUEUE_DEPTH)%nat ->
  exists n, subs (publish order ev b ps).1 !! id = Some (with_strikes n s) /\ alone id s (publish order ev b ps).1 /\
    pipe_of (sub_pipe s) (publish order ev b ps).2 =
      {| frames := frames (pipe_of (sub_pipe s) ps) ++ wanted id s [ev]; open := true |}.
Proof.
  intros Ho Hs Ha Hop Hl. assert (NoDup order) as Hn by (rewrite Ho; apply NoDup_fst_map_to_list).
  assert (id ∈ order) as Hin by (rewrite Ho; apply list_elem_of_fmap; exists (id, s); split; [done|now apply elem_of_map_to_list]).
  pose proof (publish_evicts order ev b ps id s Ho Hs) as He. pose proof (publish_pipes order ev b ps (sub_pipe s) Ho) as Hp.
  rewrite (owed_alone order ev b id s) in Hp by done. unfold take_in in Hp. rewrite Hop in Hp.
  rewrite firstn_all2 in Hp by (pose proof (wanted_one_len id s ev); lia).
  assert (alone id s (publish order ev b ps).1) as Ha'.
  { intros i s' Hi Hpipe. destruct (subs b !! i) as [s0|] eqn:E.
    - pose proof (publish_evicts order ev b ps i s0 Ho E) as H. rewrite Hi in H. destruct H as [k ->]. now apply (Ha i s0).
    - now rewrite (publish_keeps_none order ev b ps i Ho E) in Hi. }
  destruct (publish_outcome order ev b ps id s Ho Hs) as (l1 & l2 & El & Hout).
  assert (owed (sub_pipe s) ev (subs b) l1 = []) as Hl1.
  { subst order. apply NoDup_app in Hn as (_ & Hd & _). assert (id ∉ l1) as Hni by (intros H; apply (Hd id H), list_elem_of_here).
    clear - Ha Hni. unfold owed. induction l1 as [|i l IH]; [done|]. apply not_elem_of_cons in Hni as [Hne Hni]. cbn [omap list_omap].
    destruct (subs b !! i) as [s'|] eqn:E; cbn; [|now apply IH]. destruct (N.eqb_spec (sub_pipe s') (sub_pipe s)) as [Hp|Hp];
      [destruct Hne; symmetry; now apply (Ha i s')|]. rewrite andb_false_r. now apply IH. }
  rewrite Hl1, take_in_nil in Hout. unfold outcome in Hout. rewrite Hop in Hout. cbn [negb] in Hout.
  rewrite (proj2 (Nat.ltb_lt _ _) Hl) in Hout. destruct (matches (sub_channel s) ev); cbn [negb] in Hout.
  - exists 0. now rewrite Hout.
  - exists (sub_strikes s). rewrite Hout. split; [now destruct s|]. now split.
Qed.

(** A run of publications into a queue with room for all of them. *)
Lemma heard_all evs b ps st id s : publications evs (b, ps) st -> subs b !! id = Some s -> alone id s b ->
  open (pipe_of (sub_pipe s) ps) = true -> (length (frames (pipe_of (sub_pipe s) ps)) + length evs <= QUEUE_DEPTH)%nat ->
  (exists n, subs st.1 !! id = Some (with_strikes n s)) /\
  pipe_of (sub_pipe s) st.2 = {| frames := frames (pipe_of (sub_pipe s) ps) ++ wanted id s evs; open := true |}.
Proof.
  revert b ps s. induction evs as [|ev evs IH]; intros b ps s Hrun Hs Ha Hop Hl; inversion Hrun as [|order ? ? ? ? ? Ho Hrest]; subst.
  - cbn [fst snd wanted omap list_omap]. split; [exists (sub_strikes s); rewrite Hs; now destruct s|]. rewrite app_nil_r, <- Hop. now destruct (pipe_of _ ps).
  - cbn [length] in Hl. destruct (heard_once order ev b ps id s Ho Hs Ha Hop) as (n & H1 & H2 & H3); [lia|].
    destruct (publish order ev b ps) as [b1 ps1]. cbn [fst snd] in *.
    pose proof (wanted_one_len id s ev) as Hw.
    destruct (IH b1 ps1 (with_strikes n s) Hrest H1) as [(m & H4) H5]; [exact H2|cbn [sub_pipe with_strikes]; now rewrite H3| |].
    { cbn [sub_pipe with_strikes]. rewrite H3. cbn [frames]. rewrite length_app. lia. }
    cbn [sub_pipe with_strikes] in H5. rewrite H3 in H5. cbn [frames] in H5. split; [now exists m|]. rewrite H5, <- app_assoc. do 2 f_equal.
    unfold wanted. cbn [omap list_omap sub_channel with_strikes]. unfold frame_of. cbn [sub_channel with_strikes].
    now destruct (matches (sub_channel s) ev).
Qed.
End listening.

(** ** What a subscription hears of a block *)

Section facts.
Context {HC : Crypto} {HF : Fr} {HK : Compression} {HP : ChainParams} {HJ : EvidenceJson} {HW : Wasm} {HG : Groth16} {HS : Serde}.

Lemma touch_spec l a x : x ∈ touch l a <-> x ∈ l \/ (x = a /\ a <> "").
Proof.
  unfold touch. destruct (String.eqb_spec a "") as [->|Hn]; cbn [orb]; [intuition congruence|].
  case_bool_decide as Hm; [intuition congruence|]. rewrite elem_of_app, list_elem_of_singleton. intuition.
Qed.
Lemma touch_NoDup l a : NoDup l -> NoDup (touch l a).
Proof.
  intros H. unfold touch. destruct (String.eqb a ""); [done|]. cbn [orb]. case_bool_decide as Hm; [done|].
  apply NoDup_app. split; [done|]. split; [|apply NoDup_singleton]. intros x Hx [->|Hx']%elem_of_cons; [done|now apply elem_of_nil in Hx'].
Qed.
Lemma touched_fold txs : forall l, NoDup l -> let l' := foldl (fun touched tx => touch (touch touched (from_of tx)) (tx_to tx)) l txs in
  NoDup l' /\ forall a, a ∈ l' <-> a ∈ l \/ (a <> "" /\ exists tx, tx ∈ txs /\ (a = from_of tx \/ a = tx_to tx)).
Proof.
  induction txs as [|tx txs IH]; intros l Hl; cbv zeta; cbn [foldl].
  - split; [done|]. intros a. split; [tauto|]. intros [H|(_ & tx & Htx & _)]; [done|]. now apply elem_of_nil in Htx.
  - destruct (IH (touch (touch l (from_of tx)) (tx_to tx))) as [H1 H2]; [now repeat apply touch_NoDup|]. split; [exact H1|].
    intros a. rewrite H2, !touch_spec. setoid_rewrite elem_of_cons. split.
    + intros [[[H|[-> H]]|[-> H]]|(H & tx' & Ht & He)]; [tauto|right; split; [done|]; exists tx; tauto..|right; split; [done|]; exists tx'; tauto].
    + intros [H|(Ha & tx' & [->|Htx] & [-> | ->])]; [tauto|tauto|tauto|right; split; [done|]; exists tx'; tauto..].
Qed.
(** The accounts a block touches: each sender and each recipient, once. *)
Lemma touched_spec txs : NoDup (touched_by txs) /\
  forall a, a ∈ touched_by txs <-> a <> "" /\ exists tx, tx ∈ txs /\ (a = from_of tx \/ a = tx_to tx).
Proof.
  destruct (touched_fold txs [] (NoDup_nil_2)) as [H1 H2]. split; [exact H1|]. intros a. etransitivity; [apply H2|].
  split; [intros [H|H]; [now apply elem_of_nil in H|exact H]|tauto].
Qed.

(** The events of a block that concern a channel. *)
Definition relevant (c : Channel) (b : Block) (d : Db) (announced : N) : list (Event JValue) :=
  match c with
  | Heads => [head_event b d]
  | Finality => finality_events b d announced
  | Mempool => []
  | Signature h => map (signature_event b d) (List.filter (fun tx => String.eqb (tx_hash tx) h) (b_transactions b))
  | Account a => if bool_decide (a ∈ touched_by (b_transactions b)) then [account_event b d a] else []
  | Logs None => concat (map (logs_events b d) (b_transactions b))
  | Logs (Some a) => concat (map (logs_events b d) (List.filter (fun tx => String.eqb (contract_of d tx) a) (b_transactions b)))
  end.

Definition wants (c : Channel) (evs : list (Event JValue)) : list (Event JValue) := List.filter (matches c) evs.
Lemma wanted_wants id s evs : wanted id s evs = map (frame_of id s) (wants (sub_channel s) evs).
Proof.
  unfold wanted, wants. induction evs as [|ev evs IH]; [done|]. cbn [omap list_omap List.filter].
  destruct (matches (sub_channel s) ev); cbn [map]; now rewrite <- IH.
Qed.
Lemma wants_app c a b : wants c (a ++ b) = wants c a ++ wants c b.
Proof. apply List.filter_app. Qed.
Lemma wants_all c l : (forall ev, ev ∈ l -> matches c ev = true) -> wants c l = l.
Proof.
  unfold wants. induction l as [|ev l IH]; intros H; [done|]. cbn [List.filter]. rewrite (H ev) by apply list_elem_of_here.
  rewrite IH; [done|]. intros e He. apply H. now apply list_elem_of_further.
Qed.
Lemma wants_none c l : (forall ev, ev ∈ l -> matches c ev = false) -> wants c l = [].
Proof.
  unfold wants. induction l as [|ev l IH]; intros H; [done|]. cbn [List.filter]. rewrite (H ev) by apply list_elem_of_here.
  apply IH. intros e He. apply H. now apply list_elem_of_further.
Qed.

(** The part about transactions, per channel. *)
Lemma wants_transactions c b d txs :
  wants c (concat (map (fun tx => signature_event b d tx :: logs_events b d tx) txs)) =
  match c with
  | Signature h => map (signature_event b d) (List.filter (fun tx => String.eqb (tx_hash tx) h) txs)
  | Logs None => concat (map (logs_events b d) txs)
  | Logs (Some a) => concat (map (logs_events b d) (List.filter (fun tx => String.eqb (contract_of d tx) a) txs))
  | _ => []
  end.
Proof.
  assert (forall tx, logs_events b d tx = [] \/ exists v, logs_events b d tx = [event_new "logs" (Some (contract_of d tx)) v]) as Hlogs.
  { intros tx. unfold logs_events. case_bool_decide; [right; eauto|now left]. }
  assert (forall x y : string, bool_decide (Some x = Some y) = String.eqb x y) as He.
  { intros x y. destruct (String.eqb_spec x y) as [->|H]; [now rewrite bool_decide_true|]. rewrite bool_decide_false; [done|]. congruence. }
  induction txs as [|tx txs IH]; [now destruct c as [| | | | |[]]|]. cbn [map concat]. rewrite wants_app, IH. clear IH.
  unfold wants. destruct (Hlogs tx) as [E|[v E]]; destruct c as [| | |h|a|[a|]]; unfold matches;
    cbn [ev_channel ev_key signature_event event_new List.filter String.eqb Ascii.eqb Bool.eqb andb]; rewrite ?E;
    cbn [ev_channel ev_key event_new List.filter String.eqb Ascii.eqb Bool.eqb andb]; rewrite ?He; cbn [app]; try reflexivity;
    match goal with
    | |- context [String.eqb (tx_hash tx) ?x] => now destruct (String.eqb (tx_hash tx) x)
    | |- context [String.eqb (contract_of d tx) ?x] => destruct (String.eqb (contract_of d tx) x); cbn [map concat]; now rewrite ?E
    end.
Qed.

Lemma wants_accounts c b d l : NoDup l ->
  wants c (map (account_event b d) l) = match c with Account a => if bool_decide (a ∈ l) then [account_event b d a] else [] | _ => [] end.
Proof.
  intros Hn. destruct c as [| | |h|a|[a|]]; try (apply wants_none; intros ev (x & -> & _)%list_elem_of_fmap; reflexivity).
  induction Hn as [|x l Hx Hn IH]; [now rewrite bool_decide_false by apply not_elem_of_nil|]. cbn [map]. change (?e :: ?l) with ([e] ++ l).
  rewrite wants_app, IH. unfold wants. cbn [List.filter]. unfold matches. cbn [ev_channel ev_key account_event event_new String.eqb Ascii.eqb Bool.eqb andb].
  destruct (decide (x = a)) as [->|Hxa].
  - rewrite (bool_decide_true (Some a = Some a)) by done. rewrite (bool_decide_false (a ∈ l)) by done.
    now rewrite (bool_decide_true (a ∈ a :: l)) by apply list_elem_of_here.
  - rewrite (bool_decide_false (Some x = Some a)) by congruence. cbn [app].
    now rewrite (bool_decide_ext (a ∈ x :: l) (a ∈ l)) by (rewrite elem_of_cons; intuition congruence).
Qed.
Lemma wants_finality c b d announced :
  wants c (finality_events b d announced) = match c with Finality => finality_events b d announced | _ => [] end.
Proof. unfold finality_events. destruct (announced <? finalized_height d); now destruct c as [| | | | |[]]. Qed.

Lemma block_events_relevant c b d announced : wants c (block_events b d announced) = relevant c b d announced.
Proof.
  unfold block_events. change (?e :: ?l ++ ?m) with ([e] ++ (l ++ m)). rewrite !wants_app, wants_transactions, wants_finality, wants_accounts
    by apply touched_spec. destruct c as [| | |h|a|[a|]]; cbn [relevant]; rewrite ?app_nil_r; cbn [app]; reflexivity.
Qed.

(** C28: Subscribers hear of a block exactly what they asked for.  A subscription
    alone on its connection's queue, with room for the block, finds there, in
    order and nothing else: the header for [heads]; one entry per transaction of
    that hash for [signature]; the new balance once for a touched [account], and
    nothing for another; one entry per call or deployment of the contract for
    [logs]; and the finalized height, when it moved, for [finality].  It stays
    subscribed. *)
Theorem subscribers_hear_block b d bus ps st announced announced' id s
  (Hpub : publish_block b d (bus, ps) st announced announced') (Hid : subs bus !! id = Some s) (Halone : alone id s bus)
  (Hopen : open (pipe_of (sub_pipe s) ps) = true)
  (Hroom : (length (frames (pipe_of (sub_pipe s) ps)) + length (block_events b d announced) <= QUEUE_DEPTH)%nat) :
  pipe_of (sub_pipe s) st.2 =
    {| frames := frames (pipe_of (sub_pipe s) ps) ++ map (frame_of id s) (relevant (sub_channel s) b d announced); open := true |} /\
  (exists n, subs st.1 !! id = Some (with_strikes n s)).
Proof.
  destruct Hpub as [_ Hpub]. cbn [fst] in Hpub. rewrite bool_decide_false in Hpub by (intros E; now rewrite E, lookup_empty in Hid).
  destruct (heard_all _ _ _ _ _ _ Hpub Hid Halone Hopen Hroom) as [Hs Hp]. split; [|exact Hs].
  now rewrite Hp, wanted_wants, block_events_relevant.
Qed.

(** Nothing is announced as final twice: the announced height never falls, and
    an announcement is of a greater one. *)
Lemma finality_announced_once b d bus announced : subs bus <> ∅ ->
  announced <= announced_after d bus announced /\
  (finality_events b d announced = [] -> announced_after d bus announced = announced) /\
  finality_events b d (announced_after d bus announced) = [].
Proof.
  intros H. unfold announced_after, finality_events. rewrite bool_decide_false by done. destruct (N.ltb_spec announced (finalized_height d)).
  - split; [lia|]. split; [discriminate|]. destruct (N.ltb_spec (N.max announced (finalized_height d)) (finalized_height d)); [lia|done].
  - split; [lia|]. split; [lia|]. destruct (N.ltb_spec (N.max announced (finalized_height d)) (finalized_height d)); [lia|done].
Qed.

(** ** What a subscription hears of the pool *)

Definition hash_field (ev : Event JValue) : option string := str_param "hash" (ev_payload ev).
(** One event for each transaction that was pooled, in the order of the batch,
    under the hash the caller gets. *)
Lemma admitted_announced d floor items pool :
  omap hash_field (admit_events d floor items pool) =
  omap (fun r => match r with Ok h => Some h | Err _ => None end) (admit_all d floor items pool).1 /\
  (forall ev, ev ∈ admit_events d floor items pool -> matches Mempool ev = true).
Proof.
  revert pool. induction items as [|[[[tx hash] sender]|e] items IH]; intros pool; cbn [admit_events admit_all].
  - split; [done|]. intros ev H. now apply elem_of_nil in H.
  - destruct (admit_tx d pool tx hash sender floor) as [[h|e] pool'].
    + destruct (IH pool') as [H1 H2]. destruct (admit_all d floor items pool') as [rs pool2]. cbn [omap list_omap fst] in *.
      change (hash_field (mempool_event tx h sender pool')) with (Some h). cbn iota. rewrite H1. split; [done|].
      intros ev [->|H]%elem_of_cons; [reflexivity|now apply H2].
    + destruct (IH pool') as [H1 H2]. destruct (admit_all d floor items pool') as [rs pool2]. cbn [omap list_omap fst] in *. now split.
  - destruct (IH pool) as [H1 H2]. destruct (admit_all d floor items pool) as [rs pool2]. cbn [omap list_omap fst] in *. now split.
Qed.
End facts.

(** ** A concrete run *)

(** The publications of a bus that walks its table as the map lists it. *)
Definition publish_all {V : Type} (evs : list (Event V)) (st : EventBus * gmap N (Pipe V)) : EventBus * gmap N (Pipe V) :=
  foldl (fun st ev => publish (map fst (map_to_list (subs st.1))) ev st.1 st.2) st evs.
Lemma publish_all_runs {V : Type} (evs : list (Event V)) : forall st, publications evs st (publish_all evs st).
Proof. induction evs as [|ev evs IH]; intros [b ps]; [constructor|]. cbn [publish_all foldl]. econstructor; [done|]. apply IH. Qed.

Module Publish_example.
Import Toy Toy_field Exec_example Simulate_example Rpc_example.
#[local] Existing Instance toy_serde.

(** A block with one transfer of alice to herself, watched on two channels. *)
Definition blk : Block := unsigned_block 1 zero_hash 5 "root" alice "" [transfer].
Definition chain_db : Db := n_db (node transfer).
Definition watch (c : Channel) : EventBus := (subscribe 1 c 5 bus_new).2.
Definition quiet : gmap N (Pipe JValue) := queue 5 ∅.
Definition heard (c : Channel) : list JValue := map f_result (frames (pipe_of 5 (publish_all (block_events blk chain_db 0) (watch c, quiet)).2)).

Lemma subscribers_hear_block_witness : heard (Account alice) = map ev_payload (relevant (Account alice) blk chain_db 0) /\
  length (heard (Account alice)) = 1%nat /\ heard (Account "bob") = [].
Proof.
  assert (forall c, heard c = map ev_payload (relevant c blk chain_db 0)) as H.
  { intros c. unfold heard. destruct (subscribers_hear_block blk chain_db (watch c) quiet (publish_all (block_events blk chain_db 0) (watch c, quiet)) 0
      (announced_after chain_db (watch c) 0) 1 {| sub_channel := c; sub_conn := 1; sub_pipe := 5; sub_strikes := 0 |}) as [Hp _].
    - split; [reflexivity|]. rewrite bool_decide_false; [apply publish_all_runs|]. intros E.
      apply (f_equal (fun m => m !! 1)) in E. vm_compute in E. discriminate E.
    - reflexivity.
    - intros i s' Hi _. replace (subs (watch c)) with ({[ 1 := {| sub_channel := c; sub_conn := 1; sub_pipe := 5; sub_strikes := 0 |} ]} : gmap N Sub) in Hi
        by (vm_compute; reflexivity). now apply lookup_singleton_Some in Hi as [<- _].
    - reflexivity.
    - change (length (frames (pipe_of (sub_pipe _) quiet))) with 0%nat. vm_compute. lia.
    - cbn [sub_pipe sub_channel] in Hp. rewrite Hp. change (frames (pipe_of 5 quiet)) with (@nil (Frame JValue)). cbn [app frames]. rewrite map_map. reflexivity. }
  rewrite !H. split; [reflexivity|]. split; vm_compute; reflexivity.
Defined.
End Publish_example.
