(* ===== verification/Byzantine.v ===== *)
(** byzantine.rs: the adversarial build of the node, which forges a conflicting
    block after each one it seals, and why an honest node that holds the first
    block has evidence against it as soon as it sees the second.

    The environment variable that selects the attack is an argument; the
    banner and the messages on the terminal are left out. *)

From S2P Require Import Prelude Bytes Crypto Types TypesFacts Journal Store Smt Poseidon Shielded State StateFacts Fees Staking Tokens Slashing SlashingFacts.
From S2P Require Import Votes Mempool Contracts SignGuard Circuit Exec ExecFacts Chain Limits P2p.
From Stdlib Require Import Ascii.
From Stdlib Require String.

(* [src/src/byzantine.rs 29-35 Mode] *)
Inductive Mode := DoubleSign | Equivocate | Invalid | Withhold.
#[export] Instance mode_eq_dec : EqDecision Mode.
Proof. solve_decision. Defined.

(** An unknown name behaves honestly. *)
(* [src/src/byzantine.rs 38-49 mode] *)
Definition mode (var : option string) : option Mode :=
  v ← var;
  let v := trim v in
  if String.eqb v "double-sign" || String.eqb v "doublesign" then Some DoubleSign
  else if String.eqb v "equivocate" then Some Equivocate
  else if String.eqb v "invalid" || String.eqb v "propose-invalid" then Some Invalid
  else if String.eqb v "withhold" || String.eqb v "withhold-vote" then Some Withhold
  else None.

(* [src/src/byzantine.rs 52-54 should_vote] *)
Definition should_vote (var : option string) : bool := negb (bool_decide (mode var = Some Withhold)).

Definition with_timestamp (t : N) (b : Block) : Block :=
  Build_Block (b_height b) (b_parent_hash b) t (b_state_root b) (b_txs_root b) (b_producer b) (b_producer_pubkey b)
    (b_transactions b) (b_signature b) (b_hash b).
Definition with_state_root (r : string) (b : Block) : Block :=
  Build_Block (b_height b) (b_parent_hash b) (b_timestamp_ms b) r (b_txs_root b) (b_producer b) (b_producer_pubkey b)
    (b_transactions b) (b_signature b) (b_hash b).
(** ["de".repeat(32)] *)
Definition garbage_root : string := String.concat "" (repeat "de" 32).

Section byzantine.
Context {HC : Crypto} {HF : Fr} {HK : Compression} {HP : ChainParams} {HJ : EvidenceJson} {HW : Wasm} {HG : Groth16}.

Definition with_body (txs : list Transaction) (b : Block) : Block :=
  Build_Block (b_height b) (b_parent_hash b) (b_timestamp_ms b) (b_state_root b) (txs_root txs) (b_producer b) (b_producer_pubkey b)
    txs (b_signature b) (b_hash b).

(* [src/src/byzantine.rs 65-69 reseal] *)
Definition reseal (k : Keypair) (b : Block) : Block := seal k b.

(** The forged block of an attack; withholding forges none. *)
(* [src/src/byzantine.rs 73-115! after_seal] *)
Definition forge (k : Keypair) (m : Mode) (honest : Block) : option Block :=
  let evil := with_timestamp (b_timestamp_ms honest +! 1) honest in
  match m with
  | Withhold => None
  | DoubleSign => Some (reseal k evil)
  | Equivocate => Some (reseal k (with_body (removelast (b_transactions evil)) evil))
  | Invalid => Some (reseal k (with_state_root garbage_root evil))
  end.

(* [src/src/byzantine.rs 71-116 after_seal] *)
Definition after_seal (var : option string) (honest : Block) (w : World) : World :=
  match (m ← mode var; forge (n_producer (w_node w)) m honest) with
  | Some evil => announce_block evil w
  | None => w
  end.

(** ** The forgery is evidence *)

Context {HL : CryptoLaws}.

Lemma sealed_verifies k b : b_producer b = address k -> b_producer_pubkey b = pubkey_hex k -> verify_producer (seal k b) = true.
Proof.
  intros Ha Hk. unfold verify_producer. change (b_producer_pubkey (seal k b)) with (b_producer_pubkey b). rewrite Hk.
  assert (hex_bytes 32 (pubkey_hex k) = Some (pubkey_bytes k)) as ->.
  { unfold hex_bytes, pubkey_hex. rewrite hex_round_trip. cbn [mbind option_bind]. unfold pubkey_bytes. now rewrite ed25519_pubkey_len. }
  change (b_producer (seal k b)) with (b_producer b). rewrite Ha. unfold address. rewrite String.eqb_refl. cbn [negb].
  replace (compute_hash (seal k b)) with (b_hash (seal k b)) by reflexivity. rewrite String.eqb_refl. cbn [negb].
  change (b_signature (seal k b)) with (sign_hex k (header_bytes b)). change (header_bytes (seal k b)) with (header_bytes b). apply verify_sign.
Qed.

(** What a forged block keeps of the honest one. *)
Lemma forge_keeps k m honest evil : forge k m honest = Some evil ->
  b_height evil = b_height honest /\ b_parent_hash evil = b_parent_hash honest /\ b_producer evil = b_producer honest /\
  b_producer_pubkey evil = b_producer_pubkey honest /\ b_timestamp_ms evil = b_timestamp_ms honest +! 1 /\
  b_hash evil = compute_hash evil /\ exists b, evil = seal k b /\ b_producer b = b_producer honest /\ b_producer_pubkey b = b_producer_pubkey honest.
Proof. destruct m; cbn [forge]; try discriminate; intros H; apply (inj Some) in H as <-; repeat split; eexists; repeat split. Qed.

(** The bytes that the hash of a block covers. *)
Definition preimage (b : Block) : string := header_bytes b +:+ b_signature b.

Lemma dec_before_bar a b s t : dec a +:+ String "|" s = dec b +:+ String "|" t -> a = b.
Proof.
  intros E. apply dec_inj. apply (f_equal (split_once "|"%char)) in E.
  assert (forall n, contains_char "|"%char (dec n) = false) as H by (intros n; apply (all_chars_not_contains is_digit); [apply all_digits_dec|reflexivity]).
  rewrite !split_once_app in E by apply H. congruence.
Qed.
Lemma preimage_timestamp a b : b_height a = b_height b -> b_parent_hash a = b_parent_hash b -> preimage a = preimage b ->
  b_timestamp_ms a = b_timestamp_ms b.
Proof.
  unfold preimage, header_bytes. intros -> -> E. rewrite <- !append_assoc in E. repeat apply append_inv_head in E.
  cbn [String.append] in E. exact (dec_before_bar _ _ _ _ E).
Qed.
Lemma next_ms_differs t : t < 2 ^ 128 -> t +! 1 <> t.
Proof.
  intros Ht. destruct (N.eq_dec t (2 ^ 128 - 1)) as [->|Hn]; [vm_compute; discriminate|]. rewrite wadd_small by (rewrite pow_128 in *; lia). lia.
Qed.

(** Every forgery is its own evidence.  A node that holds the honest block and
    receives any of the forged ones finds two authentic headers of one height by
    one producer: evidence that verifies and names the attacker - unless the two
    headers collide under the hash. *)
Theorem forgery_is_evidence k m honest evil d (Hforge : forge k m honest = Some evil)
  (Hhonest : verify_producer honest = true) (Hproducer : b_producer honest = address k) (Hkey : b_producer_pubkey honest = pubkey_hex k)
  (Hheight : b_height honest <> 0) (Htime : b_timestamp_ms honest < 2 ^ 128) (Hstored : block (b_height honest) d = Some honest) :
  (exists evidence, detect_double_sign evil d = Some evidence /\ ev_verify evidence = Ok (address k)) \/
  clash sha256 [preimage honest] [preimage evil].
Proof.
  destruct (forge_keeps _ _ _ _ Hforge) as (Eh & Ep & Epr & Epk & Et & Ehash & b & -> & Hb1 & Hb2).
  assert (verify_producer (seal k b) = true) as Hv by (apply sealed_verifies; congruence).
  assert (b_hash honest = compute_hash honest) as Hh.
  { unfold verify_producer in Hhonest. destruct (hex_bytes 32 _); [|done]. destruct (String.eqb _ (b_producer honest)); [|done]. cbn [negb] in Hhonest.
    destruct (String.eqb_spec (b_hash honest) (compute_hash honest)); [done|discriminate]. }
  destruct (String.eqb_spec (b_hash honest) (b_hash (seal k b))) as [E|Hne].
  - right. exists (preimage honest), (preimage (seal k b)). split; [apply list_elem_of_here|]. split; [apply list_elem_of_here|]. split.
    + intros E'. apply preimage_timestamp in E'; [|done..]. rewrite Et in E'. now destruct (next_ms_differs _ Htime).
    + rewrite Hh, Ehash in E. unfold compute_hash, hash_hex in E. now apply hex_encode_inj in E.
  - left. assert (ev_verify (EvBlock (from_block honest) (from_block (seal k b))) = Ok (address k)) as Hev.
    { apply ev_verify_block. rewrite <- Hproducer. repeat split; [done..|exact (eq_sym Epr)|exact (eq_sym Epk)|exact Hhonest|exact Hv]. }
    exists (EvBlock (from_block honest) (from_block (seal k b))). split; [|exact Hev]. unfold detect_double_sign.
    rewrite Eh, Hstored. cbn [mbind option_bind]. rewrite (proj2 (String.eqb_neq _ _) Hne), Epr, String.eqb_refl, Hv, Hhonest. cbn [negb orb].
    now rewrite Hev.
Qed.

(** An honest build announces nothing after it sealed a block. *)
Lemma honest_after_seal honest w : after_seal None honest w = w.
Proof. reflexivity. Qed.
End byzantine.

Module Byz_example.
Import Toy Toy_field Exec_example.

Definition honest : Block := seal key (unsigned_block 3 zero_hash 1000 "root" (address key) (pubkey_hex key) [pay]).
Definition holder : Db := {[ (T_BLOCKS, to_be_bytes 8 3) := VBlock honest ]}.
Lemma forgery_is_evidence_witness : exists evil, forge key Equivocate honest = Some evil /\ b_transactions evil = [] /\
  ((exists evidence, detect_double_sign evil holder = Some evidence /\ ev_verify evidence = Ok alice) \/ clash sha256 [preimage honest] [preimage evil]).
Proof.
  eexists. split; [reflexivity|]. split; [reflexivity|].
  change alice with (address key). apply (forgery_is_evidence key Equivocate honest _ holder); first [reflexivity|vm_compute; reflexivity|vm_compute; discriminate].
Defined.
End Byz_example.
