(* ===== verification/Cli.v ===== *)
(** main.rs, what the command line reads and keeps: flags, the genesis file, the
    operator's wallet and the node key.

    A host is its environment variables and its files; a freshly generated key
    and the failure of a write are arguments; genesis JSON is a parameter. *)

From S2P Require Import Prelude Bytes Crypto Types Limits Events P2p Text.
From Stdlib Require Import Ascii.
From Stdlib Require String.

(** ** Flags *)

Abbreviation Flags := (gmap string string).
(** A switch has no value; the next token is one only when it is not a flag. *)
(* [src/src/main.rs 30-47! args] *)
Fixpoint parse_flags (raw : list string) (flags : Flags) : Flags :=
  match raw with
  | [] => flags
  | a :: rest =>
    match strip_prefix "--" a with
    | Some name =>
      match rest with
      | v :: rest' => if starts_with "--" v then parse_flags rest (<[name := ""]> flags) else parse_flags rest' (<[name := v]> flags)
      | [] => <[name := ""]> flags
      end
    | None => parse_flags rest flags
    end
  end.
(* [src/src/main.rs 26-50 args] *)
Definition args (raw : list string) : string * Flags := (List.hd "help" raw, parse_flags (List.tl raw) ∅).

Definition has (name : string) (f : Flags) : bool := bool_decide (is_Some (f !! name)).

(** ** The host *)

Record Host := { vars : gmap string string; files : gmap string string }.
Definition with_file (path text : string) (h : Host) : Host := {| vars := vars h; files := <[path := text]> (files h) |}.

Class GenesisJson := { genesis_of_text : string -> result Genesis; genesis_text : Genesis -> string }.

(** The genesis, and the slashing activation it sets for the process. *)
(* [src/src/main.rs 52-75 load_genesis] *)
Definition load_genesis {HG : GenesisJson} (path : string) (flags : Flags) (write : result unit) (h : Host) :
    result (Genesis * option N) * Host :=
  match files h !! path with
  | Some text =>
    match genesis_of_text text with
    | Ok g => (Ok (g, g_slashing_activation_height g), h)
    | Err e => (Err ("bad genesis: " +:+ e), h)
    end
  | None =>
    match flags !! "admin" with
    | None => (Err ("genesis file " +:+ path +:+ " not found; pass --admin <inz address> to create one"), h)
    | Some admin =>
      let g := default_devnet admin in
      match write with
      | Ok _ => (Ok (g, None), with_file path (genesis_text g) h)
      | Err e => (Err e, h)
      end
    end
  end.

(** ** The wallet *)

(** [trim_matches] and [trim_end_matches] with a set of characters. *)
Fixpoint drop_while (p : ascii -> bool) (s : string) : string :=
  match s with "" => "" | String c s' => if p c then drop_while p s' else s end.
Fixpoint drop_end (p : ascii -> bool) (s : string) : string :=
  match s with
  | "" => ""
  | String c s' => match drop_end p s' with "" => if p c then "" else String c "" | t => String c t end
  end.
Definition one_of (cs : string) (c : ascii) : bool := contains_char c cs.
Definition trim_matches (cs s : string) : string := drop_end (one_of cs) (drop_while (one_of cs) s).
(** [split(cs).last()] *)
Fixpoint last_part (cs s : string) : string :=
  match s with
  | "" => ""
  | String c s' => if existsb (fun d => contains_char d cs) (String.list_ascii_of_string s) then last_part cs s' else s
  end.

Definition SEPARATORS : string := "=:".
Definition QUOTES : string := "'" +:+ QUOTE +:+ " ".

(* [src/src/main.rs 2077-2083 wallet_path] *)
Definition wallet_path (h : Host) : string :=
  match vars h !! "INAZ_WALLET" with
  | Some p => p
  | None => default "." (vars h !! "HOME") +:+ "/.inazuma/validator.env"
  end.

(** The secret a line holds, once its decoration is taken off. *)
(* [src/src/main.rs 2099-2110! wallet_secret] *)
Definition line_secret (l : string) : option string :=
  let cleaned := trim_matches QUOTES (trim (last_part SEPARATORS (trim_start_matches "export " (trim l)))) in
  if Nat.eqb (slen cleaned) 64 && all_chars hexdigit cleaned then Some (lower cleaned) else None.
Fixpoint first_secret (ls : list string) : option string :=
  match ls with [] => None | l :: ls => match line_secret l with Some s => Some s | None => first_secret ls end end.
(* [src/src/main.rs 2089-2116 wallet_secret] *)
Definition wallet_secret (h : Host) : result string :=
  match (k ← vars h !! "INAZ_KEY"; if Nat.eqb (slen (trim k)) 64 then Some (trim k) else None) with
  | Some k => Ok k
  | None =>
    let path := wallet_path h in
    match files h !! path with
    | None => Err ("no wallet at " +:+ path +:+ " — run `inazuma wallet-new`")
    | Some text =>
      ok_or (first_secret (lines text))
        (path +:+ " has no 64-hex secret key — run `inazuma wallet-new` or `inazuma wallet-import --key HEX`")
    end
  end.

Section keys.
Context {HC : Crypto}.

(* [src/src/crypto.rs 65-67 Keypair::secret_hex] *)
Definition secret_hex (k : Keypair) : string := hex_encode (signing k).

(** The steps of writing a wallet, down to the byte; a crash or an error stops
    between two of them. *)
Inductive FileOp := Remove (path : string) | Create (path : string) | Append (path : string) (c : ascii) | Rename (path target : string).
Definition apply_op (fs : gmap string string) (op : FileOp) : gmap string string :=
  match op with
  | Remove p => delete p fs
  | Create p => <[p := ""]> fs
  | Append p c => <[p := default "" (fs !! p) +:+ String c ""]> fs
  | Rename p q => match fs !! p with Some t => <[q := t]> (delete p fs) | None => fs end
  end.
Definition wallet_body (k : Keypair) : string :=
  "# Inazuma validator wallet — keep this file private" +:+ String LF ("export INAZ_KEY='" +:+ secret_hex k +:+ "'" +:+
  String LF ("export INAZ_ADDRESS='" +:+ address k +:+ "'" +:+ String LF "")).
Definition wallet_ops (path : string) (k : Keypair) : list FileOp :=
  let tmp := path +:+ ".tmp" in
  [Remove tmp; Create tmp] ++ map (Append tmp) (String.list_ascii_of_string (wallet_body k)) ++ [Rename tmp path].
(** [stop]: after how many steps an error stopped the write, and its text. *)
(* [src/src/main.rs 2124-2162 write_wallet] *)
Definition write_wallet (stop : option (nat * string)) (k : Keypair) (h : Host) : result unit * Host :=
  let ops := wallet_ops (wallet_path h) k in
  match stop with
  | None => (Ok tt, {| vars := vars h; files := foldl apply_op (files h) ops |})
  | Some (n, e) => (Err e, {| vars := vars h; files := foldl apply_op (files h) (take n ops) |})
  end.

(* [src/src/main.rs 1344-1368! run] *)
Definition wallet_new (flags : Flags) (fresh : Keypair) (stop : option (nat * string)) (h : Host) : result unit * Host :=
  if is_ok (wallet_secret h) && negb (has "force" flags) then
    (Err (wallet_path h +:+ " already holds a wallet. Pass --force to overwrite (funds are lost if you have no backup)"), h)
  else write_wallet stop fresh h.
(* [src/src/main.rs 1369-1376! run] *)
Definition wallet_import (flags : Flags) (stop : option (nat * string)) (h : Host) : result unit * Host :=
  match (s ← ok_or (flags !! "key") "--key <64 hex chars> required"; from_secret_hex s) with
  | Ok k => write_wallet stop k h
  | Err e => (Err e, h)
  end.

(** ** The key of a node *)

Definition nodekey_path (data : string) : string := drop_end (Ascii.eqb "/") data +:+ ".nodekey".
(* [src/src/main.rs 2054-2074 producer_key] *)
Definition producer_key (flags : Flags) (data : string) (fresh : Keypair) (write : result unit) (h : Host) : result Keypair * Host :=
  match (k ← flags !! "key"; if String.eqb k "" then None else Some k) with
  | Some k => (from_secret_hex k, h)
  | None =>
    match wallet_secret h with
    | Ok k => (from_secret_hex k, h)
    | Err _ =>
      match (k ← vars h !! "INAZUMA_KEY"; if String.eqb (trim k) "" then None else Some k) with
      | Some k => (from_secret_hex k, h)
      | None =>
        match files h !! nodekey_path data with
        | Some existing => (from_secret_hex existing, h)
        | None =>
          match write with
          | Err e => (Err e, h)
          | Ok _ => (Ok fresh, with_file (nodekey_path data) (secret_hex fresh) h)
          end
        end
      end
    end
  end.
(** Where the commands of a validator take their key from. *)
Definition operator_key (flags : Flags) (h : Host) : result Keypair :=
  s ← match (k ← flags !! "key"; if String.eqb k "" then None else Some k) with Some k => Ok k | None => wallet_secret h end;
  from_secret_hex s.
End keys.
