(* ===== verification/CliFacts.v ===== *)
(** What an operator can rely on: flags are read as they were given, a wallet
    reads back, a write never tears it, and a node keeps its key. *)

From S2P Require Import Prelude Bytes Crypto Types Limits Events P2p Text Http HttpFacts Cli.
From Stdlib Require Import Ascii.
From Stdlib Require String.

(** ** Flags *)

(** A command line as one writes it: a flag with its value, or a switch. *)
Definition token_ok (v : string) : bool := negb (starts_with "--" v).
Definition render (f : string * option string) : list string :=
  match f.2 with Some v => ["--" +:+ f.1; v] | None => ["--" +:+ f.1] end.
Definition given_value (f : string * option string) : string * string := (f.1, default "" f.2).

Lemma strip_dashes n : strip_prefix "--" ("--" +:+ n) = Some n.
Proof. reflexivity. Qed.

Lemma parse_rendered fs : Forall (fun f => match f.2 with Some v => token_ok v = true | None => True end) fs -> forall flags,
  parse_flags (concat (map render fs)) flags = foldl (fun m f => <[(given_value f).1 := (given_value f).2]> m) flags fs.
Proof.
  induction 1 as [|[n [v|]] fs Hf Hfs IH]; intros flags; [done| |]; cbn [map concat render fst snd app foldl given_value].
  - cbn [parse_flags]. rewrite strip_dashes. unfold token_ok in Hf. cbn [snd] in Hf. apply negb_true_iff in Hf. rewrite Hf. apply IH.
  - specialize (IH (<[n := ""]> flags)). destruct fs as [|[m o] fs]; [cbn; reflexivity|].
    assert (exists l, concat (map render ((m, o) :: fs)) = ("--" +:+ m) :: l) as [l Hl] by (cbn [map concat render fst snd]; destruct o; now eexists).
    rewrite Hl in *. change (parse_flags (("--" +:+ n) :: ("--" +:+ m) :: l) flags) with (parse_flags (("--" +:+ m) :: l) (<[n := ""]> flags)).
    exact IH.
Qed.

(** Flags are read as given.  However switches and flags with values follow
    each other, each flag keeps its own value, the last one given, and a switch
    never swallows the flag behind it; the command is the first word. *)
Theorem flags_read_back cmd fs name
  (Hvalues : Forall (fun f => match f.2 with Some v => token_ok v = true | None => True end) fs) :
  (args (cmd :: concat (map render fs))).1 = cmd /\
  (args (cmd :: concat (map render fs))).2 !! name =
    snd <$> List.find (fun f => String.eqb f.1 name) (rev (map given_value fs)).
Proof.
  split; [reflexivity|]. unfold args. cbn [List.tl snd]. rewrite (parse_rendered fs Hvalues). clear Hvalues.
  induction fs as [|f fs IH] using rev_ind; [apply lookup_empty|]. rewrite foldl_app, map_app, rev_app_distr. cbn [foldl map rev app List.find].
  destruct (String.eqb_spec (given_value f).1 name) as [<-|Hn]; [now rewrite lookup_insert_eq|]. now rewrite lookup_insert_ne.
Qed.

(** ** The wallet reads back *)

Lemma drop_end_none p s : all_chars (fun c => negb (p c)) s = true -> drop_end p s = s.
Proof.
  induction s as [|c s IH]; [done|]. cbn [all_chars drop_end]. intros (Hc & Hs)%andb_prop. rewrite IH by done. apply negb_true_iff in Hc.
  destruct s; [now rewrite Hc|done].
Qed.
Lemma drop_end_last p s c : p c = true -> drop_end p (s +:+ String c "") = drop_end p s.
Proof. intros Hc. induction s as [|d s IH]; [cbn; now rewrite Hc|]. cbn [String.append drop_end]. now rewrite IH. Qed.

Lemma trim_keeps a s b : is_space a = false -> is_space b = false -> trim (String a (s +:+ String b "")) = String a (s +:+ String b "").
Proof.
  intros Ha Hb. unfold trim. cbn [trim_start]. rewrite Ha.
  assert (forall t, trim_end (t +:+ String b "") = t +:+ String b "") as H.
  { induction t as [|c t IH]; [cbn; now rewrite Hb|]. cbn [String.append trim_end]. rewrite IH. now destruct (t +:+ String b "") eqn:E; [destruct t|]. }
  apply (H (String a s)).
Qed.

Lemma weaken_chars p q s : (forall c, p c = true -> q c = true) -> all_chars p s = true -> all_chars q s = true.
Proof. intros H. induction s as [|c s IH]; [done|]. cbn. intros (H1 & H2)%andb_prop. now rewrite H, IH. Qed.

(** A character of the hexadecimal encoding is plain. *)
Definition plain (c : ascii) : bool :=
  negb (is_space c) && negb (one_of QUOTES c) && negb (contains_char c SEPARATORS) && hexdigit c && Ascii.eqb (ascii_lower c) c &&
  negb (Ascii.eqb c LF) && negb (Ascii.eqb c CR).
Lemma hex_plain c : is_hex c = true -> plain c = true.
Proof. destruct c as [[] [] [] [] [] [] [] []]; intros H; try discriminate H; reflexivity. Qed.

Ltac by_plain H := apply (weaken_chars plain); [|exact H]; let c := fresh in let Hc := fresh in intros c Hc; unfold plain in Hc;
  repeat (apply andb_prop in Hc as [Hc ?]); assumption.

Lemma lower_plain s : all_chars plain s = true -> lower s = s.
Proof.
  unfold lower. induction s as [|c s IH]; [done|]. cbn. intros (Hc & Hs)%andb_prop. rewrite IH by done. f_equal.
  unfold plain in Hc. repeat (apply andb_prop in Hc as [Hc ?]). now apply Ascii.eqb_eq.
Qed.
Lemma no_separator s c : all_chars plain s = true -> contains_char c SEPARATORS = false ->
  existsb (fun d => contains_char d SEPARATORS) (String.list_ascii_of_string (s +:+ String c "")) = false.
Proof.
  intros Hs Hc. induction s as [|d s IH]; cbn [String.append String.list_ascii_of_string existsb]; [now rewrite Hc|].
  cbn [all_chars] in Hs. apply andb_prop in Hs as [Hd Hs]. rewrite IH by done. unfold plain in Hd. repeat (apply andb_prop in Hd as [Hd ?]).
  rewrite orb_false_r. now apply negb_true_iff.
Qed.

(** The secret line of the one format the commands write. *)
Lemma wallet_line hex : all_chars plain hex = true -> slen hex = 64%nat -> line_secret ("export INAZ_KEY='" +:+ hex +:+ "'") = Some hex.
Proof.
  intros Hp Hl. unfold line_secret.
  assert (trim ("export INAZ_KEY='" +:+ hex +:+ "'") = "export INAZ_KEY='" +:+ hex +:+ "'") as ->.
  { change ("export INAZ_KEY='" +:+ hex +:+ "'") with (String "e" (("xport INAZ_KEY='" +:+ hex) +:+ String "'" "")). now apply trim_keeps. }
  change (trim_start_matches "export " ("export INAZ_KEY='" +:+ hex +:+ "'")) with ("INAZ_KEY='" +:+ hex +:+ "'").
  assert (last_part SEPARATORS ("INAZ_KEY='" +:+ hex +:+ "'") = String "'" (hex +:+ "'")) as ->.
  { change (last_part SEPARATORS (String "'" (hex +:+ "'")) = String "'" (hex +:+ "'")). unfold last_part at 1.
    cbn [String.list_ascii_of_string existsb]. rewrite (no_separator hex "'") by done. reflexivity. }
  rewrite (trim_keeps "'" hex "'") by done. unfold trim_matches. change (drop_while (one_of QUOTES) (String "'" (hex +:+ "'"))) with (drop_while (one_of QUOTES) (hex +:+ "'")).
  assert (drop_while (one_of QUOTES) (hex +:+ "'") = hex +:+ String "'" "") as ->.
  { destruct hex as [|c hex]; [discriminate Hl|]. cbn [String.append drop_while]. cbn in Hp. apply andb_prop in Hp as [Hc _].
    unfold plain in Hc. repeat (apply andb_prop in Hc as [Hc ?]). match goal with H : negb (one_of QUOTES c) = true |- _ => apply negb_true_iff in H; now rewrite H end. }
  rewrite drop_end_last by reflexivity. rewrite drop_end_none by by_plain Hp. rewrite Hl. cbn [Nat.eqb andb].
  assert (all_chars hexdigit hex = true) as -> by by_plain Hp. now rewrite lower_plain.
Qed.

Section facts.
Context {HC : Crypto} {HL : CryptoLaws}.

Lemma secret_plain k : all_chars plain (secret_hex k) = true.
Proof. apply (weaken_chars is_hex); [exact hex_plain|apply hex_chars]. Qed.
Lemma wallet_body_secret k : slen (signing k) = 32%nat -> first_secret (lines (wallet_body k)) = Some (secret_hex k).
Proof.
  intros Hk. unfold wallet_body. rewrite lines_lf by reflexivity.
  replace ("export INAZ_KEY='" +:+ secret_hex k +:+ "'" +:+ String LF ("export INAZ_ADDRESS='" +:+ address k +:+ "'" +:+ String LF ""))
    with (("export INAZ_KEY='" +:+ secret_hex k +:+ "'") +:+ String LF ("export INAZ_ADDRESS='" +:+ address k +:+ "'" +:+ String LF ""))
    by (rewrite <- !append_assoc; reflexivity).
  rewrite lines_lf.
  - change (first_secret (?a :: ?b :: ?l)) with (match line_secret b with Some s => Some s | None => first_secret l end).
    rewrite wallet_line; [done|apply secret_plain|]. unfold secret_hex. now rewrite hex_len, Hk.
  - unfold no_breaks. change ("export INAZ_KEY='" +:+ secret_hex k +:+ "'") with ("export INAZ_KEY='" +:+ (secret_hex k +:+ "'")). rewrite !all_chars_app.
    rewrite (weaken_chars plain _ (secret_hex k)); [reflexivity| |apply secret_plain]. intros c Hc. unfold plain in Hc.
    apply andb_prop in Hc as [Hc H1]. apply andb_prop in Hc as [_ H2]. now rewrite H1, H2.
Qed.
Lemma strip_0x s : all_chars is_hex s = true -> trim_start_matches "0x" s = s.
Proof.
  intros H. unfold trim_start_matches. destruct s as [|a [|b s]]; [done|destruct a as [[] [] [] [] [] [] [] []]; reflexivity|].
  cbn [slen String.length trim_matches_go strip_prefix]. cbn [all_chars] in H. apply andb_prop in H as [_ H]. apply andb_prop in H as [Hb _].
  destruct (Ascii.eqb "0" a); [|done]. destruct (Ascii.eqb_spec "x" b) as [<-|]; [discriminate Hb|done].
Qed.
Lemma from_secret_of_hex k : slen (signing k) = 32%nat -> from_secret_hex (secret_hex k) = Ok k.
Proof.
  intros Hk. unfold from_secret_hex.
  rewrite (Toy.trim_no_space is_hex (secret_hex k)); [|intros c Hc; destruct c as [[] [] [] [] [] [] [] []]; first [reflexivity|discriminate Hc]|apply hex_chars].
  rewrite strip_0x by apply hex_chars. unfold secret_hex. rewrite hex_round_trip, Hk. now destruct k.
Qed.

(** ** Writing a wallet *)

Lemma append_bytes tmp body : forall fs t, fs !! tmp = Some t ->
  forall n, let fs' := foldl apply_op fs (take n (map (Append tmp) (String.list_ascii_of_string body))) in
  (forall p, p <> tmp -> fs' !! p = fs !! p) /\ (length (String.list_ascii_of_string body) <= n -> fs' !! tmp = Some (t +:+ body))%nat.
Proof.
  induction body as [|c body IH]; intros fs t Ht n; cbv zeta; cbn [String.list_ascii_of_string map].
  - rewrite take_nil. cbn [foldl]. split; [done|]. intros _. now rewrite append_nil_r.
  - destruct n as [|n]; cbn [take foldl]; [split; [done|cbn; lia]|].
    assert (apply_op fs (Append tmp c) !! tmp = Some (t +:+ String c "")) as Ht' by (cbn; rewrite lookup_insert_eq, Ht; done).
    destruct (IH _ _ Ht' n) as [H1 H2]. split.
    + intros p Hp. rewrite H1 by done. cbn [apply_op]. now rewrite lookup_insert_ne.
    + cbn [length]. intros Hn. rewrite H2 by lia. rewrite <- append_assoc. reflexivity.
Qed.

Lemma tmp_differs path : path +:+ ".tmp" <> path.
Proof. intros E. apply (f_equal slen) in E. rewrite slen_append in E. cbn in E. lia. Qed.

Lemma wallet_never_torn_lemma k h path n (fs := foldl apply_op h (take n (wallet_ops path k))) :
  (fs !! path = h !! path \/ fs !! path = Some (wallet_body k)) /\
  (forall p, p <> path -> p <> path +:+ ".tmp" -> fs !! p = h !! p) /\
  (length (wallet_ops path k) <= n -> fs !! path = Some (wallet_body k))%nat.
Proof.
  subst fs. unfold wallet_ops. set (tmp := path +:+ ".tmp"). set (bytes := map (Append tmp) (String.list_ascii_of_string (wallet_body k))).
  assert (tmp <> path) as Hne by apply tmp_differs. set (fs0 := <[tmp := ""]> (delete tmp h)).
  destruct n as [|[|n]]; cbn [app take foldl apply_op].
  - split; [now left|]. split; [done|cbn; lia].
  - split; [left; now rewrite lookup_delete_ne|]. split; [intros p _ Hp; now rewrite lookup_delete_ne|cbn; lia].
  - fold fs0. rewrite take_app, foldl_app.
    assert (fs0 !! tmp = Some "") as Ht by apply lookup_insert_eq.
    destruct (append_bytes tmp (wallet_body k) fs0 "" Ht n) as [H1 H2]. fold bytes in H1, H2.
    set (fs1 := foldl apply_op fs0 (take n bytes)) in *.
    assert (forall p, p <> tmp -> fs1 !! p = h !! p) as H1' by (intros p Hp; rewrite H1 by done; unfold fs0; now rewrite lookup_insert_ne, lookup_delete_ne).
    assert (length bytes = length (String.list_ascii_of_string (wallet_body k))) as Hb by (unfold bytes; now rewrite length_map).
    destruct (n - length bytes)%nat as [|m] eqn:E.
    + cbn [take foldl]. split; [left; now apply H1'|]. split; [intros p _ Hp; now apply H1'|]. cbn [length]. rewrite length_app. cbn [length]. lia.
    + cbn [take foldl apply_op]. rewrite take_nil. cbn [foldl]. rewrite H2 by lia. cbn [String.append].
      split; [right; apply lookup_insert_eq|]. split; [|intros _; apply lookup_insert_eq].
      intros p Hp Ht'. rewrite lookup_insert_ne, lookup_delete_ne by done. now apply H1'.
Qed.

(** A wallet is never torn.  Wherever a crash or an error stops the write -
    after any number of its steps, down to a single byte - the wallet file is
    either what it was or the complete new wallet, and no other file than the
    temporary one changed; a write that is not stopped installs the new wallet. *)
Theorem wallet_never_torn k h path n (fs := foldl apply_op h (take n (wallet_ops path k))) :
  (fs !! path = h !! path \/ fs !! path = Some (wallet_body k)) /\
  (forall p, p <> path -> p <> path +:+ ".tmp" -> fs !! p = h !! p) /\
  (length (wallet_ops path k) <= n -> fs !! path = Some (wallet_body k))%nat.
Proof. exact (wallet_never_torn_lemma k h path n). Qed.

Definition not_in_env (h : Host) : Prop := forall v, vars h !! "INAZ_KEY" = Some v -> slen (trim v) <> 64%nat.
Lemma secret_from_file h : not_in_env h -> wallet_secret h =
  match files h !! wallet_path h with
  | None => Err ("no wallet at " +:+ wallet_path h +:+ " — run `inazuma wallet-new`")
  | Some text => ok_or (first_secret (lines text))
      (wallet_path h +:+ " has no 64-hex secret key — run `inazuma wallet-new` or `inazuma wallet-import --key HEX`")
  end.
Proof.
  intros Hv. unfold wallet_secret. destruct (vars h !! "INAZ_KEY") as [v|] eqn:E; [|done]. cbn [mbind option_bind].
  destruct (Nat.eqb_spec (slen (trim v)) 64) as [Hl|]; [now destruct (Hv v E)|done].
Qed.

(** A wallet reads back.  The key that [wallet-new] or [wallet-import] writes is
    the key every later command reads from the file, and a second [wallet-new]
    refuses to replace it. *)
Theorem wallet_round_trip k h h' (Hlen : slen (signing k) = 32%nat) (Henv : not_in_env h) (Hwrite : write_wallet None k h = (Ok tt, h')) :
  wallet_secret h' = Ok (secret_hex k) /\ operator_key ∅ h' = Ok k /\
  forall fresh stop, is_ok (wallet_new ∅ fresh stop h').1 = false /\ (wallet_new ∅ fresh stop h').2 = h'.
Proof.
  assert (vars h' = vars h /\ files h' !! wallet_path h' = Some (wallet_body k)) as [Hvars Hfile].
  { unfold write_wallet in Hwrite. apply pair_equal_spec in Hwrite as [_ <-]. cbn [vars files]. split; [done|].
    destruct (wallet_never_torn_lemma k (files h) (wallet_path h) (length (wallet_ops (wallet_path h) k))) as (_ & _ & H).
    rewrite firstn_all in H. now apply H. }
  assert (wallet_secret h' = Ok (secret_hex k)) as Hs.
  { rewrite secret_from_file by (unfold not_in_env; now rewrite Hvars). rewrite Hfile, wallet_body_secret by done. reflexivity. }
  split; [exact Hs|]. split.
  - unfold operator_key. rewrite lookup_empty. cbn [mbind option_bind]. rewrite Hs. cbn [mbind result_bind]. now apply from_secret_of_hex.
  - intros fresh stop. unfold wallet_new, has. rewrite Hs, lookup_empty, bool_decide_false by (intros [? H]; discriminate H). split; reflexivity.
Qed.

(** ** The key of a node *)

(** A node keeps its key.  Whatever the key came from - a flag, the wallet, the
    environment, the key file or a fresh one - the next start finds the same key,
    so a validator does not change identity by restarting. *)
Theorem node_key_stable flags data fresh write h k h' fresh' write' (Hlen : slen (signing fresh) = 32%nat)
  (Hpath : nodekey_path data <> wallet_path h) (Hfirst : producer_key flags data fresh write h = (Ok k, h')) :
  producer_key flags data fresh' write' h' = (Ok k, h').
Proof.
  unfold producer_key in *. destruct (flags !! "key" ≫= _); [now apply pair_equal_spec in Hfirst as [-> ->]|].
  destruct (wallet_secret h) as [s|e] eqn:Ew; [apply pair_equal_spec in Hfirst as [Hk <-]; now rewrite Ew, Hk|].
  destruct (vars h !! "INAZUMA_KEY" ≫= _) as [s|] eqn:Ev; [apply pair_equal_spec in Hfirst as [Hk <-]; now rewrite Ew, Ev, Hk|].
  destruct (files h !! nodekey_path data) as [s|] eqn:Ef; [apply pair_equal_spec in Hfirst as [Hk <-]; now rewrite Ew, Ev, Ef, Hk|].
  destruct write as [[]|e']; [|discriminate Hfirst]. apply pair_equal_spec in Hfirst as [Hk <-]. injection Hk as <-.
  assert (wallet_secret (with_file (nodekey_path data) (secret_hex fresh) h) = Err e) as ->.
  { rewrite <- Ew. unfold wallet_secret. change (wallet_path (with_file _ _ h)) with (wallet_path h). cbn [vars files with_file].
    now rewrite (lookup_insert_ne _ _ _ _ Hpath). }
  cbn [vars files with_file]. rewrite Ev, lookup_insert_eq. f_equal. now apply from_secret_of_hex.
Qed.

(** The wallet comes before the variable that the comment names first. *)
Lemma wallet_shadows_env data fresh write h s : wallet_secret h = Ok s ->
  producer_key ∅ data fresh write h = (from_secret_hex s, h).
Proof. intros H. unfold producer_key. rewrite lookup_empty. cbn [mbind option_bind]. now rewrite H. Qed.
End facts.

Module Cli_example.
Import Toy.

Lemma flags_read_back_witness :
  (args ["run"; "--replica"; "--data"; "./d"; "--prune"; "--data"; "./e"]).1 = "run" /\
  (args ["run"; "--replica"; "--data"; "./d"; "--prune"; "--data"; "./e"]).2 !! "data" = Some "./e".
Proof.
  pose proof (flags_read_back "run" [("replica", None); ("data", Some "./d"); ("prune", None); ("data", Some "./e")] "data") as H.
  destruct H as [H1 H2]; [repeat (apply Forall_cons; split; [exact I || reflexivity|]); apply Forall_nil; exact I|]. split; [exact H1|].
  change (args ["run"; "--replica"; "--data"; "./d"; "--prune"; "--data"; "./e"]) with
    (args ("run" :: concat (map render [("replica", None); ("data", Some "./d"); ("prune", None); ("data", Some "./e")]))).
  rewrite H2. reflexivity.
Defined.

Definition key : Keypair := {| signing := "0123456789abcdef0123456789abcdef" |}.
Definition other : Keypair := {| signing := "fedcba9876543210fedcba9876543210" |}.
Definition home : Host := {| vars := {[ "HOME" := "/home/op" ]}; files := ∅ |}.
Lemma home_env : not_in_env home.
Proof. intros v H. cbn in H. rewrite lookup_singleton_ne in H by discriminate. discriminate H. Qed.

Lemma wallet_round_trip_witness : wallet_secret (write_wallet None key home).2 = Ok (secret_hex key) /\
  operator_key ∅ (write_wallet None key home).2 = Ok key.
Proof.
  destruct (wallet_round_trip key home (write_wallet None key home).2) as (H1 & H2 & _); [reflexivity|exact home_env|reflexivity|].
  split; [exact H1|exact H2].
Defined.

Definition first_start : result Keypair * Host := producer_key ∅ "./data/" key (Ok tt) home.
Lemma node_key_stable_witness : first_start.1 = Ok key /\ producer_key ∅ "./data/" other (Ok tt) first_start.2 = (Ok key, first_start.2).
Proof.
  assert (producer_key ∅ "./data/" key (Ok tt) home = (Ok key, with_file "./data.nodekey" (secret_hex key) home)) as H.
  { unfold producer_key. rewrite lookup_empty. cbn [mbind option_bind]. rewrite (secret_from_file home home_env). vm_compute. reflexivity. }
  unfold first_start. rewrite H. split; [reflexivity|].
  apply (node_key_stable ∅ "./data/" key (Ok tt) home key _ other (Ok tt)); [reflexivity|vm_compute; discriminate|exact H].
Defined.

(** A wallet whose secret carries the prefix 0x - which a key given as a flag may
    carry - holds no wallet in the eyes of [wallet-new], and is overwritten. *)
Definition prefixed : Host := {| vars := {[ "HOME" := "/home/op" ]};
  files := {[ "/home/op/.inazuma/validator.env" := "export INAZ_KEY='0x" +:+ secret_hex key +:+ "'" +:+ String LF "" ]} |}.
Lemma prefixed_wallet_overwritten :
  from_secret_hex ("0x" +:+ secret_hex key) = Ok key /\
  (wallet_new ∅ other None prefixed).1 = Ok tt /\
  files (wallet_new ∅ other None prefixed).2 !! wallet_path prefixed = Some (wallet_body other).
Proof. vm_compute. repeat split. Qed.
End Cli_example.
