(* ===== verification/Client.v ===== *)
(** main.rs, the commands that talk to a node: the JSON-RPC client, the
    transactions the commands build and sign, and what a node makes of them.

    A command runs against a server [post]: a method that takes the URL and the
    body of a request, and returns the parsed reply or why there is none (no
    connection, a status of 400 and above, a body that is not JSON).  What a
    command returns is the line it prints last; the other lines, the assembly of
    .wat files and the encoding of a transaction as JSON are parameters or left
    out. *)

From S2P Require Import Prelude Bytes Crypto Types TypesFacts Journal Store Smt Poseidon Shielded State Fees Staking Tokens Slashing Votes.
From S2P Require Import Mempool Contracts SignGuard Circuit Exec Chain Simulate Limits Access Rpc Events P2p Text Http Cli.
From Stdlib Require Import Ascii.
From Stdlib Require String.

Class TxJson := { tx_to_json : Transaction -> JValue }.

(** A computation that talks to a server with state [S]. *)
Definition Io (S A : Type) : Type := S -> result A * S.
#[export] Instance Io_ret (S : Type) : MRet (Io S) := fun A a s => (Ok a, s).
#[export] Instance Io_bind (S : Type) : MBind (Io S) := fun A B k m s =>
  match m s with (Ok a, s') => k a s' | (Err e, s') => (Err e, s') end.
Definition io {S A : Type} (r : result A) : Io S A := fun s => (r, s).

Definition no_payload : Payload := Build_Payload "" "" "" 0 false "" "".
Definition token_payload (token : string) : Payload := Build_Payload token "" "" 0 false "" "".

(** [tx.signature = kp.sign_hex(&tx.canonical_signing_bytes())] *)
Definition signed_by {HC : Crypto} (k : Keypair) (tx : Transaction) : Transaction :=
  with_signature (sign_hex k (canonical_signing_bytes tx)) tx.
(** The transactions of the command line: everything but kind, recipient,
    amount, fee, nonce and payload is the same. *)
Definition cli_tx {HC : Crypto} (k : Keypair) (kind : TxKind) (to : string) (amount fee nonce : N) (p : option Payload) : Transaction :=
  signed_by k (Build_Transaction kind (pubkey_hex k) to amount fee nonce CHAIN_ID p None "").

(** [flags.get("fee").map(parse_inaz).transpose()?.unwrap_or(..)] *)
Definition amount_flag (name : string) (dflt : N) (f : Flags) : result N :=
  match f !! name with Some s => parse_inaz s | None => Ok dflt end.
Definition need (name msg : string) (f : Flags) : result string := ok_or (f !! name) msg.
(** [acct["pendingNonce"].as_u64().or_else(|| acct["nonce"].as_u64()).unwrap_or(0)] *)
Definition nonce_of_account (acct : JValue) : N :=
  match u64_param "pendingNonce" acct with Some n => n | None => default 0 (u64_param "nonce" acct) end.
Definition hash_of (res : JValue) : string := default "?" (str_param "hash" res).
Definition rpc_url (f : Flags) : string := default "http://127.0.0.1:9933" (f !! "rpc").

Section client.
Context {HC : Crypto} {HX : TxJson} {S : Type} (post : string -> JValue -> Io S JValue).

(* [src/src/main.rs 2165-2192 rpc_call] *)
Definition rpc_call (url method : string) (params : JValue) : Io S JValue :=
  let endpoint := if starts_with "http://" url || starts_with "https://" url then url else "http://" +:+ url in
  parsed ← post endpoint (JObj [("jsonrpc", JStr "2.0"); ("id", JNum 1); ("method", JStr method); ("params", params)]);
  match get "error" parsed with
  | Some err => io (Err (default "rpc error" (str_param "message" err)))
  | None => mret (default JNull (get "result" parsed))
  end.

Definition account_of (f : Flags) (k : Keypair) : Io S JValue :=
  rpc_call (rpc_url f) "inaz_getAccount" (JObj [("address", JStr (address k))]).
Definition submit (f : Flags) (tx : Transaction) : Io S JValue :=
  rpc_call (rpc_url f) "inaz_sendTransaction" (JObj [("tx", tx_to_json tx)]).

(* [src/src/main.rs 1515-1572! run] *)
Definition transfer_cmd (cmd : string) (f : Flags) (h : Host) : Io S string :=
  k ← io (operator_key f h);
  amount ← io (s ← need "amount" "--amount required" f; parse_inaz s);
  to ← io (if String.eqb cmd "send" then need "to" "--to required" f else Ok (address k));
  acct ← account_of f k;
  fee ← io (amount_flag "fee" MIN_FEE f);
  let kind := if String.eqb cmd "stake" then Stake else if String.eqb cmd "unstake" then Unstake else Transfer in
  res ← submit f (cli_tx k kind to amount fee (nonce_of_account acct) None);
  mret (hash_of res).

(* [src/src/main.rs 1456-1513! run] *)
Definition exit_cmd (f : Flags) (h : Host) : Io S string :=
  k ← io (operator_key f h);
  acct ← account_of f k;
  let staked := match u64_param "staked" acct with
    | Some n => n | None => default 0 (s ← str_param "staked" acct; parse_u128 s) end in
  if staked =? 0 then io (Err "nothing staked on this account")
  else
    res ← submit f (cli_tx k Unstake (address k) staked MIN_FEE (nonce_of_account acct) None);
    mret (hash_of res).

(* [src/src/main.rs 1297-1337! run] *)
Definition unjail_cmd (f : Flags) : Io S string :=
  k ← io (s ← need "key" "--key required" f; from_secret_hex s);
  acct ← account_of f k;
  fee ← io (amount_flag "fee" MIN_FEE f);
  res ← submit f (cli_tx k Unjail (address k) 0 fee (nonce_of_account acct) None);
  mret (hash_of res).

(** [text] is the evidence file as parsed JSON. *)
(* [src/src/main.rs 1256-1294! run] *)
Definition report_cmd (f : Flags) (evidence : result JValue) : Io S string :=
  _ ← io (need "evidence" "--evidence <file.json> required" f);
  e ← io evidence;
  _ ← rpc_call (rpc_url f) "inaz_previewSlash" (JObj [("evidence", e)]);
  res ← rpc_call (rpc_url f) "inaz_reportEquivocation" (JObj [("evidence", e)]);
  mret (hash_of res).

(** The token transaction of a command: its kind, payload, amount and recipient. *)
(* [src/src/main.rs 1654-1710! run] *)
Definition token_parts (cmd : string) (f : Flags) (k : Keypair) : Io S (TxKind * Payload * N * string) :=
  if String.eqb cmd "token-create" then
    symbol ← io (s ← need "symbol" "--symbol required" f; normalize_symbol s);
    let decimals := default 9 (d ← f !! "decimals"; parse_uint 255 d) in
    let mintable := match f !! "mintable" with Some v => negb (String.eqb v "false") | None => false end in
    supply ← io (parse_units (default "0" (f !! "supply")) decimals);
    mret (CreateToken, Build_Payload "" symbol (default symbol (f !! "name")) decimals mintable "" "", supply, address k)
  else
    token ← io (need "token" "--token required" f);
    info ← rpc_call (rpc_url f) "inaz_getToken" (JObj [("token", JStr token)]);
    let decimals := wrap 8 (default 9 (u64_param "decimals" info)) in
    amount ← io (s ← need "amount" "--amount required" f; parse_units s decimals);
    to ← io (if String.eqb cmd "token-burn" then Ok (address k) else need "to" "--to required" f);
    let kind := if String.eqb cmd "token-mint" then MintToken else if String.eqb cmd "token-burn" then BurnToken else TokenTransfer in
    mret (kind, token_payload token, amount, to).
(* [src/src/main.rs 1632-1737! run] *)
Definition token_cmd (cmd : string) (f : Flags) : Io S string :=
  k ← io (s ← need "key" "--key required" f; from_secret_hex s);
  fee ← io (amount_flag "fee" MIN_FEE f);
  acct ← account_of f k;
  parts ← token_parts cmd f k;
  let '(kind, p, amount, to) := parts in
  res ← submit f (cli_tx k kind to amount fee (nonce_of_account acct) (Some p));
  mret (hash_of res).

(** [assemble]: the code in the file, a .wat source already assembled. *)
(* [src/src/main.rs 1739-1828! run] *)
Definition contract_cmd (cmd : string) (f : Flags) (assemble : string -> result string) : Io S string :=
  k ← io (s ← need "key" "--key required" f; from_secret_hex s);
  value ← io (amount_flag "value" 0 f);
  fee ← io (amount_flag "fee" (MIN_FEE *! 200) f);
  acct ← account_of f k;
  parts ← io (if String.eqb cmd "deploy" then
      path ← need "wasm" "--wasm FILE required" f;
      code ← assemble path;
      Ok (DeployContract, address k, Build_Payload "" "" "" 0 false (hex_encode code) "")
    else
      addr ← need "contract" "--contract ADDR required" f;
      Ok (CallContract, addr, Build_Payload "" "" "" 0 false "" (default "" (f !! "args"))));
  let '(kind, to, p) := parts in
  res ← submit f (cli_tx k kind to value fee (nonce_of_account acct) (Some p));
  mret (hash_of res).
End client.

(** ** A node as the server *)

Section node.
Context {HC : Crypto} {HF : Fr} {HK : Compression} {HP : ChainParams} {HJ : EvidenceJson} {HW : Wasm} {HG : Groth16} {HS : Serde}.

(** The call as the endpoint serves it; the client library turns a status of 400
    and above into an error. *)
Definition node_post (x : Process) (ip : IpAddr) (credential : option string) (url : string) (body : JValue) : Io (Node * RpcConfig) JValue :=
  fun '(n, c) =>
    let '(status, v, n, c, _) := serve_call x body ip credential c n in
    (if status <? 400 then Ok v else Err ("RPC request to " +:+ url +:+ " failed: status code " +:+ dec status), (n, c)).
End node.
