(* ===== verification/Console.v ===== *)
(** main.rs, the commands that show what a node answers, as text.  Each makes
    one call and prints after it, so it either fails or returns all it printed;
    [report] and the commands that send a transaction are in Client.  The text of
    a JSON value is a parameter, [json_text] on one line and [pretty] on several;
    so is the QR code of a link. *)

From S2P Require Import Prelude Bytes Crypto Types TypesFacts Journal Store Smt Poseidon Shielded State Fees Staking Tokens Slashing Votes.
From S2P Require Import Mempool Contracts SignGuard Circuit Exec Chain Simulate Limits Access Rpc Events P2p Text Http Cli Client Log Ui.
From Stdlib Require Import Ascii.
From Stdlib Require String SpecFloat.

(** ** Text to double

    [str::parse::<f64>] on a decimal: an optional sign, digits with at most one
    point among or around them, an optional exponent; or one of the names of what
    is not finite.  The value is the nearest double. *)
Definition digits_of (s : string) : N * nat * string := let '(n, v, r) := read_digits 10 0 0 s in (v, n, r).
Definition signed_text (s : string) : bool * string :=
  match s with String "-" s' => (true, s') | String "+" s' => (false, s') | _ => (false, s) end.
Definition exponent_of (s : string) : option Z :=
  match s with
  | "" => Some 0%Z
  | String c s' =>
    if Ascii.eqb (ascii_lower c) "e" then
      let '(neg, t) := signed_text s' in
      match digits_of t with (v, S _, "") => Some (if neg then - Z.of_N v else Z.of_N v)%Z | _ => None end
    else None
  end.
(** The double nearest to [m * 10 ^ e]. *)
Definition f64_decimal (neg : bool) (m : N) (e : Z) : f64 :=
  match m with
  | 0 => SpecFloat.S754_zero neg
  | N.pos p =>
    if (0 <=? e)%Z then SpecFloat.binary_normalize 53 1024 ((if neg then Z.neg p else Z.pos p) * 10 ^ e) 0 neg
    else fdiv (SpecFloat.S754_finite neg p 0) (SpecFloat.S754_finite false (Z.to_pos (10 ^ (- e))) 0)
  end.
Definition parse_f64 (s : string) : option f64 :=
  let '(neg, t) := signed_text s in
  if bool_decide (lower t ∈ ["inf"; "infinity"]) then Some (SpecFloat.S754_infinity neg)
  else if String.eqb (lower t) "nan" then Some SpecFloat.S754_nan
  else
    let '(i, ni, r) := digits_of t in
    let '(f, nf, r) := match given "."%char r with Some r => digits_of r | None => (0, O, r) end in
    if Nat.eqb (ni + nf) 0 then None
    else e ← exponent_of r; Some (f64_decimal neg (i * 10 ^ N.of_nat nf + f) (e - Z.of_nat nf)).
(** [s.replace(',', "")] *)
Fixpoint without (a : ascii) (s : string) : string :=
  match s with "" => "" | String b s' => if Ascii.eqb a b then without a s' else String b (without a s') end.
Fixpoint contains_text (p s : string) : bool :=
  starts_with p s || match s with "" => false | String _ s' => contains_text p s' end.

(** A line for every element of an array. *)
Definition each (k : string) (line : JValue -> string) (v : JValue) : string :=
  match arr_param k v with Some l => foldr (fun x out => put_line (line x) +:+ out) "" l | None => "" end.
Definition text_or (dflt k : string) (v : JValue) : string := default dflt (str_param k v).
Definition holds_true (k : string) (v : JValue) : bool := match get k v with Some (JBool b) => b | _ => false end.

(** What the state shows, now. *)
Definition reading {S A : Type} (g : S -> A) : Io S A := fun s => (Ok (g s), s).
(** [if let Ok(x) = call]: a failure is an answer. *)
Definition tried {S A : Type} (m : Io S A) : Io S (result A) := fun s => let '(r, s) := m s in (Ok r, s).

Section console.
Context {HC : Crypto} {HT : JsonText} {S : Type} (post : string -> JValue -> Io S JValue) (pretty : JValue -> string).
Context (p : bool) (code : string -> option (list string)).

(** [println!("{}", v[k])]: an absent field is null. *)
Definition shown (k : string) (v : JValue) : string := json_text (default JNull (get k v)).
Definition asked (f : Flags) (method : string) (params : list (string * JValue)) : Io S JValue := rpc_call post (rpc_url f) method (JObj params).

(* [src/src/main.rs 96-103! run] *)
Definition keygen_cmd (k : Keypair) : string :=
  put_line ("address:    " +:+ address k) +:+ put_line ("public key: " +:+ pubkey_hex k) +:+ put_line ("secret key: " +:+ secret_hex k) +:+
  newline +:+ put_line "Keep the secret key safe. It controls this account.".
(* [src/src/main.rs 105-109! run] *)
Definition address_cmd (f : Flags) : result string :=
  k ← (s ← need "key" "--key required" f; from_secret_hex s); Ok (put_line (address k)).

Definition balance_line (addr : string) (res : JValue) : string :=
  addr +:+ " => " +:+ text_or "0" "balanceInaz" res +:+ " INAZ (staked " +:+ text_or "0" "stakedInaz" res +:+ ", unbonding " +:+
  text_or "0" "unbondingInaz" res +:+ ", rewards " +:+ text_or "0" "rewardsInaz" res +:+ ", nonce " +:+ shown "nonce" res +:+ ")".
(* [src/src/main.rs 1066-1087! run] *)
Definition balance_cmd (f : Flags) : Io S string :=
  addr ← io (need "address" "--address required" f);
  res ← asked f "inaz_getAccount" [("address", JStr addr)];
  mret (put_line (balance_line addr res)).

Definition status_lines (url : string) (res : JValue) : string :=
  put_line ("rpc            " +:+ url) +:+
  put_line ("chain id       " +:+ shown "chainId" res) +:+
  put_line ("role           " +:+ text_or "node" "role" res) +:+
  put_line ("height         " +:+ dec (default 0 (u64_param "height" res))) +:+
  put_line ("finalized      " +:+ dec (default 0 (u64_param "finalizedHeight" res))) +:+
  put_line ("peers          " +:+ shown "peers" res) +:+
  put_line ("mempool        " +:+ shown "mempool" res) +:+
  put_line ("sync           " +:+ (if holds_true "syncing" res then "syncing — do not stake yet" else "in sync")).
(** The comparison with a public endpoint, whose failure is not one of the
    command. *)
Definition network_tip (url : string) (f : Flags) (height : N) : Io S string := fun s =>
  let remote := match f !! "compare" with Some v => if starts_with "http" v then v else "https://rpc.inazuma.network" | None => "https://rpc.inazuma.network" end in
  match rpc_call post remote "inaz_nodeStatus" (JObj []) s with
  | (Ok net, s) =>
    let tip := default 0 (u64_param "height" net) in
    (Ok (if (0 <? tip) && negb (contains_text (trim_start_matches "https://" remote) url) then
          put_line ("network tip    " +:+ dec tip +:+ " (behind by " +:+ dec (sat_sub tip height) +:+ ", via " +:+ remote +:+ ")")
        else ""), s)
  | (Err _, s) => (Ok "", s)
  end.
(* [src/src/main.rs 1089-1139! run] *)
Definition status_cmd (f : Flags) (h : Host) : Io S string :=
  res ← asked f "inaz_nodeStatus" [];
  let compare := has "compare" f || match vars h !! "INAZ_STATUS_COMPARE" with Some v => negb (String.eqb v "0") | None => false end in
  tip ← if compare then network_tip (rpc_url f) f (default 0 (u64_param "height" res))
        else mret (put_line "network tip    (skipped — pass --compare to query the public RPC)");
  mret (status_lines (rpc_url f) res +:+ tip).

Definition validator_line (v : JValue) : string :=
  "  " +:+ text_or "" "address" v +:+ "  " +:+ text_or "0" "stakeInaz" v +:+ " INAZ  " +:+ shown "sharePct" v +:+ "%  blocks " +:+
  shown "blocksProduced" v +:+ "  rewards " +:+ text_or "0" "rewardsInaz" v +:+ " INAZ".
Definition validators_lines (res : JValue) : string :=
  put_line ("validators   " +:+ shown "count" res) +:+
  put_line ("total stake  " +:+ text_or "0" "totalStakeInaz" res +:+ " INAZ") +:+
  put_line ("min stake    " +:+ text_or "0" "minStakeInaz" res +:+ " INAZ") +:+
  put_line ("next leader  " +:+ text_or "(bootstrap)" "nextLeader" res) +:+
  each "validators" validator_line res.
(* [src/src/main.rs 1141-1173! run] *)
Definition validators_cmd (f : Flags) : Io S string := res ← asked f "inaz_validators" []; mret (validators_lines res).

Definition finality_lines (res : JValue) : string :=
  put_line ("tip height        " +:+ shown "tipHeight" res) +:+
  put_line ("finalized height  " +:+ shown "finalizedHeight" res) +:+
  put_line ("queried height    " +:+ shown "height" res +:+ " (final: " +:+ shown "isFinal" res +:+ ")") +:+
  put_line ("precommits        " +:+ shown "votes" res +:+ " of " +:+ shown "validators" res +:+ " validators") +:+
  put_line ("voted stake       " +:+ text_or "0" "votedStakeInaz" res +:+ " INAZ (" +:+ shown "votedPct" res +:+ "% of " +:+
    text_or "0" "totalStakeInaz" res +:+ " INAZ, need >66.67%)") +:+
  put_line ("peers             " +:+ shown "peers" res).
(* [src/src/main.rs 1175-1203! run] *)
Definition finality_cmd (f : Flags) : Io S string :=
  let params := match (h ← f !! "height"; parse_u64 h) with Some h => [("height", jn h)] | None => [] end in
  res ← asked f "inaz_finality" params; mret (finality_lines res).

Definition slash_line (s : JValue) : string :=
  "  #" +:+ shown "appliedHeight" s +:+ " " +:+ pad 12 (text_or "" "offence" s) +:+ " " +:+ text_or "" "offender" s +:+ "  burned " +:+
  text_or "0" "burnedInaz" s +:+ " INAZ  bounty " +:+ text_or "0" "bountyInaz" s +:+ " INAZ  reporter " +:+ text_or "-" "reporter" s.
Definition slashing_lines (res : JValue) : string :=
  let q := default JNull (get "params" res) in
  put_line ("height              " +:+ shown "height" res) +:+
  put_line ("enforcement         " +:+ (if holds_true "active" res then "active" else "pending") +:+ " (from #" +:+ shown "activationHeight" res +:+ ")") +:+
  put_line ("equivocation burn   max(" +:+ shown "equivocationMinBurnPct" q +:+ "%, " +:+ shown "equivocationCorrelationFactor" q +:+
    "x stake share) of stake + permanent tombstone") +:+
  put_line ("reporter bounty     " +:+ shown "reporterBountyPct" q +:+ "% of the burn") +:+
  put_line ("downtime jail       " +:+ shown "downtimeJailStreak" q +:+ " consecutive missed slots -> " +:+ shown "downtimeJailBlocks" q +:+ " blocks in jail") +:+
  put_line ("total burned        " +:+ text_or "0" "totalBurnedInaz" res +:+ " INAZ across " +:+ shown "slashCount" res +:+ " slashes") +:+
  each "slashes" slash_line res.
(* [src/src/main.rs 1205-1253! run] *)
Definition slashing_cmd (f : Flags) : Io S string := res ← asked f "inaz_slashing" []; mret (slashing_lines res).

Definition token_line (t : JValue) : string :=
  "  " +:+ text_or "" "id" t +:+ "  " +:+ pad 10 (text_or "" "symbol" t) +:+ " " +:+ pad 24 (text_or "" "name" t) +:+ " supply " +:+
  text_or "0" "supplyFormatted" t +:+ "  holders " +:+ shown "holders" t +:+ "  " +:+ (if holds_true "mintable" t then "mintable" else "fixed supply").
(* [src/src/main.rs 1574-1603! run] *)
Definition tokens_cmd (f : Flags) : Io S string :=
  res ← asked f "inaz_tokens" [];
  mret (put_line ("tokens        " +:+ shown "count" res) +:+ put_line ("creation fee  " +:+ text_or "0" "creationFeeInaz" res +:+ " INAZ") +:+
    each "tokens" token_line res).
Definition holding_line (h : JValue) : string :=
  "  " +:+ text_or "0" "balanceFormatted" h +:+ " " +:+ text_or "" "symbol" h +:+ "  (" +:+ text_or "" "token" h +:+ ")".
(* [src/src/main.rs 1605-1630! run] *)
Definition token_balance_cmd (f : Flags) : Io S string :=
  addr ← io (need "address" "--address required" f);
  res ← asked f "inaz_tokenHoldings" [("address", JStr addr)];
  let empty := match arr_param "holdings" res with Some (_ :: _) => false | _ => true end in
  mret ((if empty then put_line (addr +:+ " holds no native tokens") else "") +:+ each "holdings" holding_line res).

(* [src/src/main.rs 1830-1858! run] *)
Definition query_cmd (f : Flags) : Io S string :=
  addr ← io (need "contract" "--contract ADDR required" f);
  res ← asked f "inaz_query" [("address", JStr addr); ("args", JStr (default "" (f !! "args")))];
  mret (put_line ("ok         " +:+ shown "ok" res) +:+ put_line ("return     " +:+ text_or "" "returnHex" res) +:+
    put_line ("as text    " +:+ text_or "" "returnText" res) +:+ put_line ("fuel used  " +:+ shown "fuelUsed" res) +:+
    each "logs" (fun l => "  log: " +:+ default "" (as_str l)) res +:+
    match str_param "error" res with Some e => put_line ("error      " +:+ e) | None => "" end).
(* [src/src/main.rs 1860-1873! run] *)
Definition receipt_cmd (f : Flags) : Io S string :=
  hash ← io (need "hash" "--hash required" f);
  res ← asked f "inaz_getReceipt" [("hash", JStr hash)];
  mret (put_line (pretty res)).
Definition contract_line (c : JValue) : string :=
  "  " +:+ text_or "" "address" c +:+ "  " +:+ shown "codeSize" c +:+ " bytes  calls " +:+ shown "calls" c +:+ "  height " +:+
  shown "createdHeight" c +:+ "  by " +:+ text_or "" "creator" c.
(* [src/src/main.rs 1875-1895! run] *)
Definition contracts_cmd (f : Flags) : Io S string :=
  res ← asked f "inaz_contracts" [];
  mret (put_line ("contracts " +:+ shown "count" res) +:+ each "contracts" contract_line res).

(** ** The wallet *)

(** The first of two fields that is text. *)
Definition either (k k' : string) (v : JValue) : option string := match str_param k v with Some s => Some s | None => str_param k' v end.
Definition at_least (x : f64) (n : N) : bool := fle (f64_of_N n) x.
(** What the screen of the wallet takes from the node: whether it answered, the
    rows of the panel, and the bonded stake. *)
Definition wallet_rows (url : string) (answer : result JValue) : bool * list (string * string) * f64 :=
  match answer with
  | Ok acct =>
    (true, [("balance", default "?" (either "balanceInaz" "balanceFormatted" acct) +:+ " INAZ");
            ("staked", default "?" (either "stakedInaz" "stakedFormatted" acct) +:+ " INAZ")],
     default (f64_of_N 0) (s ← either "stakedInaz" "stakedFormatted" acct; parse_f64 (without "," s)))
  | Err _ => (false, [("node", "offline at " +:+ url)], f64_of_N 0)
  end.
Definition wallet_table (url : string) (online bonded : bool) : list StatusRow := [
  {| label := "local node"; value := (if online then "reachable at " else "unreachable at ") +:+ url; good := Some online |};
  {| label := "validating"; good := Some bonded;
     value := if bonded then "yes — stake meets the 1000 INAZ minimum" else "no — stake at least 1000 INAZ" |}].
(* [src/src/main.rs 1377-1451! run] *)
Definition wallet_cmd (f : Flags) (h : Host) : Io S string :=
  k ← io (s ← wallet_secret h; from_secret_hex s);
  let url := rpc_url f in
  answer ← tried (account_of post f k);
  let '(online, rows, staked_now) := wallet_rows url answer in
  let bonded := at_least staked_now 1000 in
  mret (panel p "wallet" ([("address", address k); ("key file", wallet_path h)] ++ rows ++
      (if has "reveal" f then [("secret", secret_hex k)] else [])) +:+
    status_table p (wallet_table url online bonded) +:+ dashboard_link p code (address k) +:+ commands p bonded).
(** What the commands that write a wallet print when they succeed. *)
(* [src/src/main.rs 1353-1366! run] *)
Definition wallet_new_text (k : Keypair) (h : Host) : string :=
  banner p +:+
  panel p "new wallet" [("address", address k); ("saved to", wallet_path h); ("backup", "print the secret with: inazuma wallet --reveal")] +:+
  newline +:+ put_line "Fund it, then run `inazuma stake --amount 1000`." +:+ put_line "Faucet: https://inazuma.network/faucet".
(* [src/src/main.rs 1374-1374! run] *)
Definition wallet_import_text (k : Keypair) (h : Host) : string := put_line ("imported " +:+ address k +:+ " -> " +:+ wallet_path h).

(** ** Operators' commands *)

(* [src/src/main.rs 371-377! run] *)
Definition init_text (b : Block) (d : Db) : string :=
  put_line "[init] genesis sealed" +:+ put_line ("  height 0 hash " +:+ b_hash b) +:+ put_line ("  state root    " +:+ b_state_root b) +:+
  put_line ("  supply        " +:+ format_inaz (total_supply d) +:+ " INAZ").
(* [src/src/main.rs 426-431! run] *)
Definition prune_text (keep removed : N) (d : Db) : string :=
  put_line ("[prune] removed " +:+ dec removed +:+ " block bodies below " +:+ dec (pruned_below d)) +:+
  put_line ("[prune] finalized " +:+ dec (finalized_height d) +:+ " keep " +:+ dec keep +:+ " blocks").
(* [src/src/main.rs 442-446! run] *)
Definition halt_text (reason : string) : string :=
  put_line ("[halt] node will stop producing, voting and importing: " +:+ reason) +:+
  put_line "[halt] restart is not enough to clear this; run `inazuma resume`.".
(* [src/src/main.rs 453-453! run] *)
Definition resume_text : string := put_line "[halt] cleared; restart the node to resume consensus".

(* [src/src/main.rs 2012-2050! run] *)
Definition help_text : string :=
  banner p +:+ put_line ("Inazuma node (chain id " +:+ dec CHAIN_ID +:+ ")") +:+ newline +:+
  foldr (fun l out => put_line l +:+ out) "" [
  "  wallet-new                                create + save a validator wallet";
  "  wallet-import --key HEX                   import an existing secret key";
  "  wallet [--reveal]                         show address, balance and stake";
  "  exit                                      unbond everything and leave the set";
  "  keygen                                    create a new INAZ keypair";
  "  init    --data DIR --genesis FILE         seal genesis block 0";
  "  run     --data DIR --key HEX --rpc ADDR   run the node + JSON-RPC";
  "          [--rpc-keys K1,K2] [--rpc-admin-keys K] [--rpc-require-auth] [--rpc-trust-proxy]";
  "  send    --key HEX --to ADDR --amount N    send INAZ";
  "  stake   --key HEX --amount N              stake INAZ";
  "  unstake --key HEX --amount N              unstake INAZ";
  "  status  [--rpc URL]                       node height, peers and sync state";
  "  validators                                show the validator set";
  "  balance --address ADDR                    read an account";
  "  token-create --key HEX --symbol S --name N --supply N [--decimals 9] [--mintable true]";
  "  token-mint   --key HEX --token ID --to ADDR --amount N";
  "  token-send   --key HEX --token ID --to ADDR --amount N";
  "  token-burn   --key HEX --token ID --amount N";
  "  tokens                                    list native tokens";
  "  token-balance --address ADDR              token holdings of an address";
  "  deploy  --key HEX --wasm FILE [--value N]  deploy a wasm contract";
  "  call    --key HEX --contract ADDR [--args HEX] [--value N] [--fee N]";
  "  query   --contract ADDR [--args HEX]      read-only contract call";
  "  contracts                                 list deployed contracts";
  "  bench   --key HEX --count N               submit N txs and measure throughput"].
End console.

(** ** The benchmark

    [now] reads the monotonic clock of the process in milliseconds and [sleep]
    lets fifty of them pass.  What a command printed before a call failed is not
    part of its answer. *)
Section bench.
Context {HC : Crypto} {HX : TxJson} {St : Type} (post : string -> JValue -> Io St JValue) (now : St -> N) (sleep : St -> St).

Definition bench_tx (k : Keypair) (to : string) (nonce : N) : Transaction := cli_tx k Transfer to 1000 MIN_FEE nonce None.
(* [src/src/main.rs 1919-1938! run] *)
Fixpoint bench_txs (count : nat) (k : Keypair) (to : string) (nonce : N) : list Transaction :=
  match count with O => [] | S count => bench_tx k to nonce :: bench_txs count k to (nonce +!! 1) end.
(** [slice::chunks] *)
Fixpoint chunks {A : Type} (fuel size : nat) (l : list A) : list (list A) :=
  match fuel, l with
  | O, _ | _, [] => []
  | S fuel, _ => take size l :: chunks fuel size (drop size l)
  end.
(** A batch that is rejected counts for nothing. *)
(* [src/src/main.rs 1952-1962! run] *)
Fixpoint submit_chunks (url : string) (batches : list (list Transaction)) (ok : N) : Io St N :=
  match batches with
  | [] => mret ok
  | b :: batches =>
    answer ← tried (rpc_call post url "inaz_sendTransactions" (JObj [("txs", JArr (map tx_to_json b))]));
    submit_chunks url batches (match answer with Ok res => ok +!! default 0 (u64_param "accepted" res) | Err _ => ok end)
  end.
Definition since (start : N) (s : St) : N := N.max (now s - start) 1.
Definition per_second (n ms : N) : string := fixed 0 (fdiv (fmul (f64_of_N n) (f64_of_N 1000)) (f64_of_N ms)).
Definition bench_report (done blocks ms mempool : N) (timeout : bool) : string :=
  put_line ("executed   " +:+ dec done +:+ " txs across " +:+ dec blocks +:+ " blocks in " +:+ fixed 0 (f64_of_N ms) +:+ " ms") +:+
  put_line ("throughput " +:+ per_second done ms +:+ " tx/s (executed and finalised)") +:+
  (if 0 <? blocks then put_line ("density    " +:+ dec (done / blocks) +:+ " txs per block avg") else "") +:+
  (if timeout then put_line ("note       stopped at the 120s cap, " +:+ dec mempool +:+ " still queued") else "").
(** No answer: the loop was not over within [fuel] turns. *)
(* [src/src/main.rs 1973-2008! run] *)
Fixpoint bench_wait (fuel : nat) (url : string) (start ok start_txs start_height : N) (s : St) : option (result string * St) :=
  match fuel with
  | O => None
  | S fuel =>
    match rpc_call post url "inaz_chainInfo" (JObj []) (sleep s) with
    | (Err e, s) => Some (Err e, s)
    | (Ok info, s) =>
      let done := sat_sub (default 0 (u64_param "totalTxs" info)) start_txs in
      let mempool := default 0 (u64_param "mempool" info) in
      let timeout := 120 <? (now s - start) / 1000 in
      if ((ok <=? done) && (mempool =? 0)) || timeout then
        let blocks := sat_sub (default 0 (u64_param "height" info)) start_height in
        Some (Ok (bench_report done blocks (since start s) mempool timeout), s)
      else bench_wait fuel url start ok start_txs start_height s
    end
  end.
(** What comes before the loop: what was printed, the transactions accepted, and
    the counters of the chain when they were sent. *)
(* [src/src/main.rs 1897-1970! run] *)
Definition bench_send (f : Flags) : Io St (string * (N * N * N)) :=
  k ← io (s ← need "key" "--key required" f; from_secret_hex s);
  let count := default 1000 (c ← f !! "count"; parse_u64 c) in
  let batch := default 500 (c ← f !! "batch"; parse_u64 c) in
  let to := default (address k) (f !! "to") in
  acct ← account_of post f k;
  let nonce := default 0 (u64_param "pendingNonce" acct) in
  t0 ← reading now;
  let txs := bench_txs (N.to_nat count) k to nonce in
  sign_ms ← reading (since t0);
  info ← rpc_call post (rpc_url f) "inaz_chainInfo" (JObj []);
  t1 ← reading now;
  ok ← submit_chunks (rpc_url f) (chunks (length txs) (Nat.max (N.to_nat batch) 1) txs) 0;
  submit_ms ← reading (since t1);
  mret (put_line ("signed     " +:+ dec count +:+ " txs in " +:+ fixed 0 (f64_of_N sign_ms) +:+ " ms (" +:+ per_second count sign_ms +:+ " sig/s client side)") +:+
    put_line ("submitted  " +:+ dec ok +:+ "/" +:+ dec count +:+ " txs in " +:+ fixed 0 (f64_of_N submit_ms) +:+ " ms (" +:+ per_second ok submit_ms +:+ " tx/s into mempool)"),
    (ok, default 0 (u64_param "totalTxs" info), default 0 (u64_param "height" info))).
(* [src/src/main.rs 1897-2010! run] *)
Definition bench_cmd (fuel : nat) (f : Flags) (s : St) : option (result string * St) :=
  match bench_send f s with
  | (Err e, s) => Some (Err e, s)
  | (Ok (out, (ok, start_txs, start_height)), s) =>
    match bench_wait fuel (rpc_url f) (now s) ok start_txs start_height s with
    | Some (r, s) => Some (report ← r; Ok (out +:+ report), s)
    | None => None
    end
  end.
End bench.
