(* ===== verification/ClientFacts.v ===== *)
(** From a command to the pool: what a command builds verifies, and a command
    that reports success has put exactly that transaction in the pool of the node
    and changed nothing else. *)

From S2P Require Import Prelude Bytes Crypto Types TypesFacts Journal Store Smt Poseidon Shielded State Fees Staking Tokens Slashing Votes.
From S2P Require Import Mempool MempoolFacts Contracts SignGuard Circuit Exec ExecFacts Chain ChainFacts Simulate Limits Access Rpc RpcFacts Ws Events P2p Text.
From S2P Require Import Http HttpFacts Cli CliFacts Client.
From Stdlib Require Import Ascii.
From Stdlib Require String.

Section facts.
Context {HC : Crypto} {HL : CryptoLaws}.

Lemma signed_verifies k kind to amount fee nonce chain p s :
  verify_signature (signed_by k (Build_Transaction kind (pubkey_hex k) to amount fee nonce chain p s "")) = true.
Proof.
  unfold verify_signature, signed_by. cbn [tx_kind from_pubkey tx_signature with_signature].
  match goal with |- context [canonical_signing_bytes (with_signature ?s ?t)] => change (canonical_signing_bytes (with_signature s t)) with (canonical_signing_bytes t) end.
  rewrite verify_sign. now destruct (is_shielded kind).
Qed.
Lemma signed_sender k kind to amount fee nonce chain p s :
  sender (signed_by k (Build_Transaction kind (pubkey_hex k) to amount fee nonce chain p s "")) = Some (address k).
Proof.
  unfold sender, signed_by, address_of_hex_key. cbn [from_pubkey with_signature]. unfold hex_bytes, pubkey_hex.
  rewrite hex_round_trip. cbn [mbind option_bind]. unfold pubkey_bytes at 1. now rewrite ed25519_pubkey_len.
Qed.
Lemma cli_tx_verifies k kind to amount fee nonce p : verify_signature (cli_tx k kind to amount fee nonce p) = true.
Proof. apply signed_verifies. Qed.
Lemma cli_tx_sender k kind to amount fee nonce p : sender (cli_tx k kind to amount fee nonce p) = Some (address k).
Proof. apply signed_sender. Qed.
End facts.

Section node.
Context {HC : Crypto} {HF : Fr} {HK : Compression} {HP : ChainParams} {HJ : EvidenceJson} {HW : Wasm} {HG : Groth16} {HS : Serde} {HX : TxJson}.

(** The transaction sits in the pool, under its hash and its sender. *)
Definition pooled (tx : Transaction) (n : Node) : Prop :=
  exists e, e ∈ entries (n_mempool n) /\ e_tx e = tx /\ e_hash e = tx_hash tx /\ sender tx = Some (e_sender e).

Lemma accepted_is_pooled tx n hash n' : accept_tx tx n = (Ok hash, n') -> hash = tx_hash tx /\ pooled tx n'.
Proof.
  unfold accept_tx, accept_batch. destruct (halt_reason (n_db n)); [discriminate|]. unfold precheck_batch. cbn [length].
  change (Nat.ltb 1 VERIFY_PARALLEL_THRESHOLD) with true. cbn [map admit_all]. pose proof (precheck_tx_ok (g_chain_id (n_genesis n)) tx) as Hp.
  destruct (precheck_tx _ tx) as [[[tx' h] s]|e]; [|discriminate]. destruct Hp as (-> & -> & Hs & _).
  unfold admit_tx. destruct (admit_checks _ _ _ _ _ _) as [[]|e]; [|discriminate].
  assert (forall p, pooled tx (with_mempool (pool_insert tx (tx_hash tx) s p) n)) as Hin.
  { intros p. eexists. split; [cbn; apply elem_of_app; right; apply list_elem_of_here|]. repeat split. exact Hs. }
  destruct (is_full (n_mempool n)).
  - destruct (evict_cheapest_below _ _) as [[e|] p]; [|discriminate]. cbn. intros H. apply pair_equal_spec in H as [H <-]. injection H as <-. split; [done|apply Hin].
  - cbn. intros H. apply pair_equal_spec in H as [H <-]. injection H as <-. split; [done|apply Hin].
Qed.

Lemma io_bind_inv {S A B : Type} (m : Io S A) (k : A -> Io S B) s b s' : (m ≫= k) s = (Ok b, s') -> exists a s1, m s = (Ok a, s1) /\ k a s1 = (Ok b, s').
Proof. unfold mbind, Io_bind. destruct (m s) as [[a|e] s1]; [|discriminate]. intros H. now exists a, s1. Qed.
Lemma io_inv {S A : Type} (r : result A) (s : S) a s' : io r s = (Ok a, s') -> r = Ok a /\ s' = s.
Proof. unfold io. intros H. now apply pair_equal_spec in H as [-> <-]. Qed.

Ltac not_listed := apply (bool_decide_eq_true_1 _); vm_compute; reflexivity.

Lemma io_step {S A B : Type} (r : result A) a (k : A -> Io S B) s b s' : r = Ok a -> (io r ≫= k) s = (Ok b, s') -> k a s = (Ok b, s').
Proof. now intros ->. Qed.

(** A call that succeeds went through the dispatch. *)
Lemma call_served x ip credential url method params n c v n' c' : method ∉ PRIVILEGED_METHODS ->
  rpc_call (node_post x ip credential) url method params (n, c) = (Ok v, (n', c')) ->
  exists c1 r c2, dispatch_metered x method params (tier_for credential c) c1 n = (r, c2) /\ answer r = Ok v /\ left_node r = n' /\ c' = c2.
Proof.
  intros Hm. unfold rpc_call. intros H. apply io_bind_inv in H as (parsed & [n1 c1] & Hp & H). unfold node_post, serve_call in Hp.
  set (req := JObj _) in Hp. change (req_method req) with method in Hp. change (req_params req) with params in Hp.
  rewrite (bool_decide_false _ Hm) in Hp. cbn [andb] in Hp.
  destruct (require_auth c && _); [discriminate Hp|]. destruct (charge_weighted _ _ _ _ _ _ c) as [[] c2]; [|discriminate Hp].
  destruct (dispatch_metered x method params (tier_for credential c) c2 n) as [r c3] eqn:Ed. apply pair_equal_spec in Hp as [Hp Hs].
  apply pair_equal_spec in Hs as [<- <-]. injection Hp as <-. destruct (answer r) as [w|e] eqn:Ea.
  - cbn in H. apply pair_equal_spec in H as [H Hs]. apply pair_equal_spec in Hs as [<- <-]. injection H as <-. now exists c2, r, c3.
  - cbn in H. discriminate H.
Qed.

(** The methods that only read give their answer and leave the node. *)
Lemma read_served x t method params c n r c' : method ∉ ["inaz_rpcLimits"; "inaz_halt"; "inaz_resume"; "inaz_prune"; "inaz_netInfo"] ->
  dispatch_metered x method params t c n = (r, c') -> is_ok (answer r) = true -> answer r = answer (dispatch x method params n) /\
  left_node r = left_node (dispatch x method params n).
Proof.
  intros Hm. unfold dispatch_metered. destruct (metered _ _ _ _ c) as [[e|] c1].
  - intros H. apply pair_equal_spec in H as [<- _]. discriminate.
  - rewrite !elem_of_cons in Hm. rewrite !(proj2 (String.eqb_neq _ _)) by (intros ->; tauto). intros H. now apply pair_equal_spec in H as [<- _].
Qed.

Lemma pending_nonce_u64 a n : pending_nonce a n <= U64_MAX.
Proof. unfold pending_nonce. pose proof (wrap_lt 64 (nonce (account a (n_db n)) + pending_for a (n_mempool n))). unfold wadd. change (2 ^ 64) with 18446744073709551616 in *. unfold U64_MAX. lia. Qed.

Lemma account_answer x ip credential f k n c acct n' c' : account_of (node_post x ip credential) f k (n, c) = (Ok acct, (n', c')) ->
  n' = n /\ nonce_of_account acct = pending_nonce (address k) n.
Proof.
  intros H. apply call_served in H as (c1 & r & c2 & Hd & Ha & <- & _); [|not_listed].
  apply read_served in Hd as [H1 H2]; [|not_listed|now rewrite Ha].
  rewrite H2. rewrite Ha in H1. cbn [dispatch reads] in *. split; [reflexivity|].
  change (Ok acct = get_account (JObj [("address", JStr (address k))]) n) in H1. unfold get_account in H1. cbn [str_param get field_of String.eqb] in H1.
  change (str_param "address" (JObj [("address", JStr (address k))])) with (Some (address k)) in H1. cbn [ok_or mbind result_bind] in H1.
  destruct (negb (is_valid_address (address k))); [discriminate H1|]. injection H1 as ->.
  unfold nonce_of_account.
  match goal with |- context [u64_param "pendingNonce" ?j] => change (u64_param "pendingNonce" j) with (as_u64 (jn (pending_nonce (address k) n))) end.
  now rewrite jn_reads by apply pending_nonce_u64.
Qed.

Lemma submit_pooled x ip credential f tx n c res n' c' : tx_of_json (tx_to_json tx) = Ok tx ->
  submit (node_post x ip credential) f tx (n, c) = (Ok res, (n', c')) ->
  hash_of res = tx_hash tx /\ pooled tx n' /\ same_but_pool n n'.
Proof.
  intros Hj H. apply call_served in H as (c1 & r & c2 & Hd & Ha & <- & _); [|not_listed].
  apply read_served in Hd as [H1 H2]; [|not_listed|now rewrite Ha].
  rewrite H2. rewrite Ha in H1. set (p := JObj [("tx", tx_to_json tx)]) in *.
  change (dispatch x "inaz_sendTransaction" p n) with (send_transaction p n) in *. pose proof (send_pool p n) as Hsame.
  split; [|split; [|exact Hsame]]; unfold send_transaction, tx_param in H1, H2 |- *; change (raw_tx p) with (tx_to_json tx) in *; rewrite Hj in *;
    cbn [mbind result_bind] in *; (destruct (predicted_contract tx) as [pc|e]; cbn [mbind result_bind] in *; [|discriminate H1]);
    destruct (accept_tx tx n) as [[hash|e] n1] eqn:E; cbn [answer left_node] in *; try discriminate H1.
  - injection H1 as ->. apply accepted_is_pooled in E as [-> _]. reflexivity.
  - now apply accepted_is_pooled in E.
Qed.

(** ** A busy network *)

Lemma low_fee_refused tx n : tx_fee tx < fee_floor n -> is_ok (accept_tx tx n).1 = false.
Proof.
  intros Hf. destruct (halt_reason (n_db n)) as [r|] eqn:Hh; [unfold accept_tx, accept_batch; now rewrite Hh|].
  rewrite accept_tx_single by done. pose proof (precheck_tx_ok (g_chain_id (n_genesis n)) tx) as Hp.
  destruct (precheck_tx _ tx) as [[[tx' h] s]|e]; [|done]. destruct Hp as (-> & _).
  unfold admit_tx, admit_checks. now rewrite (proj2 (N.ltb_lt _ _) Hf).
Qed.
(** Reports of equivocation pay the minimum whatever the base fee: while the
    floor is above it, the node refuses its own. *)
Lemma report_refused_when_busy e n : MIN_FEE < fee_floor n -> is_ok (submit_report e n).1 = false.
Proof. intros Hf. unfold submit_report. destruct (check_report _ _ _); [|done]. now apply low_fee_refused. Qed.

Lemma submit_low_fee x ip credential f tx s : tx_of_json (tx_to_json tx) = Ok tx -> tx_fee tx < fee_floor s.1 ->
  is_ok (submit (node_post x ip credential) f tx s).1 = false.
Proof.
  intros Hj Hf. destruct s as [n c]. destruct (submit _ f tx (n, c)) as [[res|e] [n' c']] eqn:E; [|done]. exfalso.
  apply call_served in E as (c1 & r & c2 & Hd & Ha & _ & _); [|not_listed].
  apply read_served in Hd as [H1 _]; [|not_listed|now rewrite Ha]. rewrite Ha in H1. set (p := JObj [("tx", tx_to_json tx)]) in *.
  change (dispatch x "inaz_sendTransaction" p n) with (send_transaction p n) in *. unfold send_transaction, tx_param in H1.
  change (raw_tx p) with (tx_to_json tx) in *. rewrite Hj in H1. cbn [mbind result_bind] in H1.
  destruct (predicted_contract tx); cbn [mbind result_bind] in H1; [|discriminate H1]. pose proof (low_fee_refused tx n Hf) as Hr.
  destruct (accept_tx tx n) as [[hash|e] n1]; [discriminate Hr|discriminate H1].
Qed.
(** [exit] pays the minimum too, and has no flag to pay more. *)
Lemma exit_refused_when_busy x ip credential f h s : (forall tx, tx_of_json (tx_to_json tx) = Ok tx) -> MIN_FEE < fee_floor s.1 ->
  is_ok (exit_cmd (node_post x ip credential) f h s).1 = false.
Proof.
  intros Hj Hf. destruct (exit_cmd _ f h s) as [[res|e] s'] eqn:E; [|done]. exfalso. unfold exit_cmd in E.
  apply io_bind_inv in E as (k & s1 & H1 & E). apply io_inv in H1 as [_ ->].
  apply io_bind_inv in E as (acct & [n1 c1] & H1 & E). destruct s as [n c]. apply account_answer in H1 as [-> _]. cbn [fst] in Hf.
  destruct (_ =? 0); [discriminate E|]. apply io_bind_inv in E as (v & [n2 c2] & H1 & _).
  match type of H1 with submit _ _ ?tx _ = _ => pose proof (submit_low_fee x ip credential f tx (n, c1) (Hj tx) Hf) as Hr end.
  now rewrite H1 in Hr.
Qed.

Context {HL : CryptoLaws}.

(** C26: A command that reports success has sent what it was asked to.  When
    [send], [stake] or [unstake] prints a hash, it is the hash of the
    transaction of that kind with the recipient, the amount and the fee of the
    flags, signed by the operator's key with the next nonce of the account; this
    transaction is in the pool of the node, and nothing else of the node changed. *)
Theorem sent_is_pooled cmd f h k amount to fee x ip credential n c hash n' c'
  (kind := if String.eqb cmd "stake" then Stake else if String.eqb cmd "unstake" then Unstake else Transfer)
  (tx := cli_tx k kind to amount fee (pending_nonce (address k) n) None)
  (Hkey : operator_key f h = Ok k) (Hamount : (s ← need "amount" "--amount required" f; parse_inaz s) = Ok amount)
  (Hto : (if String.eqb cmd "send" then need "to" "--to required" f else Ok (address k)) = Ok to) (Hfee : amount_flag "fee" MIN_FEE f = Ok fee)
  (Hjson : tx_of_json (tx_to_json tx) = Ok tx)
  (Hrun : transfer_cmd (node_post x ip credential) cmd f h (n, c) = (Ok hash, (n', c'))) :
  hash = tx_hash tx /\ verify_signature tx = true /\ sender tx = Some (address k) /\ pooled tx n' /\ same_but_pool n n'.
Proof.
  unfold transfer_cmd in Hrun.
  apply (io_step _ _ _ _ _ _ Hkey), (io_step _ _ _ _ _ _ Hamount), (io_step _ _ _ _ _ _ Hto) in Hrun.
  apply io_bind_inv in Hrun as (acct & [n1 c1] & H1 & Hrun). apply account_answer in H1 as [-> Hn].
  apply (io_step _ _ _ _ _ _ Hfee) in Hrun. rewrite Hn in Hrun. cbv zeta in Hrun. fold kind in Hrun. fold tx in Hrun.
  apply io_bind_inv in Hrun as (res & [n2 c3] & H1 & Hrun). apply (submit_pooled _ _ _ _ _ _ _ _ _ _ Hjson) in H1 as (H1 & H2 & H3).
  apply pair_equal_spec in Hrun as [Hrun Hs]. apply pair_equal_spec in Hs as [-> ->]. injection Hrun as <-.
  split; [exact H1|]. split; [apply cli_tx_verifies|]. split; [apply cli_tx_sender|]. now split.
Qed.
End node.

Module Client_example.
Import Toy Toy_field Exec_example Cli_example.

(** An operator with a wallet of five thousand rai asks for a transfer of seven
    hundred. *)
Definition mine : string := address key.
Definition ledger : Node := node_new (mk {[ (T_ACCOUNTS, mine) := VAccount (with_balance 5000 default_account) ]} []) (default_devnet mine) key 0.
Definition asked : Flags := {[ "key" := secret_hex key; "amount" := "0.0000007"; "to" := mine ]}.
Definition expected : Transaction := Eval vm_compute in cli_tx key Transfer (address key) 700 MIN_FEE 0 None.
#[local] Instance toy_tx : TxJson := {| tx_to_json t := if String.eqb (tx_hash t) (tx_hash expected) then JStr "expected" else JNull |}.
#[local] Instance toy_serde : Serde := {|
  tx_of_json j := match as_str j with Some "expected" => Ok expected | _ => Err "unknown" end;
  evidence_of_json j := Err "invalid type"; payload_json p := JNull; ip_text ip := "" |}.
Definition proc : Process := {| x_now := 0; x_instant := 0; x_cpus := None; x_net := None; x_subs := 0 |}.
Definition served : result string * (Node * RpcConfig) :=
  transfer_cmd (node_post proc (V4 1) None) "send" asked home (ledger, config_public).

Lemma sent_is_pooled_witness : served.1 = Ok (tx_hash expected) /\ pooled expected served.2.1.
Proof.
  assert (served.1 = Ok (tx_hash expected)) as H by (vm_compute; reflexivity). split; [exact H|]. unfold served in *.
  destruct (transfer_cmd (node_post proc (V4 1) None) "send" asked home (ledger, config_public)) as [r [n' c']] eqn:E. cbn [fst snd] in *. subst r.
  destruct (sent_is_pooled "send" asked home key 700 mine MIN_FEE proc (V4 1) None ledger config_public (tx_hash expected) n' c') as (_ & _ & _ & Hp & _).
  - vm_compute. reflexivity.
  - vm_compute. reflexivity.
  - vm_compute. reflexivity.
  - vm_compute. reflexivity.
  - vm_compute. reflexivity.
  - exact E.
  - exact Hp.
Defined.
End Client_example.
