(* ===== verification/Daemon.v ===== *)
(** main.rs, the node as a process: the settings of `run`, how a node is put
    together and started, the offline commands of its operator, and what the
    threads of a running node do.

    A running node is its world ([P2p.World]), the configuration of its RPC
    endpoints and its event bus.  Its threads share them behind locks, so what
    happens is a sequence of [Act]s: a slot of the main loop, a round of
    catch-up, an inbound connection, a call, a pass of the pruner or of the
    unjail thread, in any order.  Clocks, sockets, files and snapshots in JSON
    are arguments.  Panels and log lines are in Screen; sleeps are left out. *)

From S2P Require Import Prelude Bytes Crypto Types Journal Store Smt Poseidon Shielded State Fees Staking Tokens Slashing Votes.
From S2P Require Import Mempool Contracts SignGuard Circuit Exec Chain Snapshot Simulate Limits Access Rpc Transport Ws Events P2p Text.
From S2P Require Import Http Byzantine Cli.
From Stdlib Require Import Ascii.
From Stdlib Require String.

(** ** Settings *)

Definition flag_or_var (name var : string) (f : Flags) (h : Host) : option string :=
  match f !! name with Some v => Some v | None => vars h !! var end.
Definition switch (name var : string) (f : Flags) (h : Host) : bool := has name f || bool_decide (is_Some (vars h !! var)).

Record Settings := {
  s_block_time : N; s_rpc : string; s_ws : string; s_replica : bool; s_p2p : string;
  s_peers : list string; s_peer_ids : gset string; s_require_encryption : bool; s_prune : option N
}.
Definition peer_ids (s : string) : list string :=
  List.filter (fun k => Nat.eqb (slen k) 64) (map (fun k => lower (trim k)) (split_on ","%char s)).
(* [src/src/main.rs 459-503! run] *)
Definition settings (g : Genesis) (f : Flags) (h : Host) : Settings := {|
  s_block_time := default (g_block_time_ms g) (v ← f !! "block-time"; parse_u64 v);
  s_rpc := default "0.0.0.0:9933" (f !! "rpc");
  s_ws := default "0.0.0.0:9955" (flag_or_var "ws" "INAZ_WS_ADDR" f h);
  s_replica := switch "replica" "INAZ_REPLICA" f h;
  s_p2p := default "0.0.0.0:9944" (f !! "p2p");
  s_peers := default [] (comma_list <$> f !! "peers");
  s_peer_ids := list_to_set (default [] (peer_ids <$> f !! "peer-ids"));
  s_require_encryption := switch "require-encrypted-p2p" "INAZ_REQUIRE_ENCRYPTED_P2P" f h;
  s_prune := (fun v => default DEFAULT_PRUNE_KEEP (parse_u64 v)) <$> f !! "prune" |}.
(* [src/src/main.rs 505-509! run] *)
Definition network (s : Settings) : P2p :=
  {| peers := s_peers s; allowed_ids := s_peer_ids s; require_encryption := s_require_encryption s |}.

(* [src/src/main.rs 755-768! run] *)
Definition key_list (name var : string) (f : Flags) (h : Host) : list string :=
  default [] (comma_list <$> flag_or_var name var f h).

(** The file of the guard: beside the data directory. *)
Definition guard_path (data : string) : string := drop_end (Ascii.eqb "/") data +:+ ".signguard".

Class SnapshotJson := { snapshot_of_text : string -> result Snapshot; snapshot_text : Snapshot -> string }.

Section daemon.
Context {HC : Crypto} {HF : Fr} {HK : Compression} {HP : ChainParams} {HJ : EvidenceJson} {HW : Wasm} {HG : Groth16}.

(* [src/src/main.rs 771-787! run] *)
Definition rpc_config (f : Flags) (h : Host) : RpcConfig :=
  config_with_qos (key_list "rpc-keys" "INAZ_RPC_KEYS" f h) (key_list "rpc-admin-keys" "INAZ_RPC_ADMIN_KEYS" f h)
    (switch "rpc-require-auth" "INAZ_RPC_REQUIRE_AUTH" f h) (switch "rpc-trust-proxy" "INAZ_RPC_TRUST_PROXY" f h)
    (qos_new (key_list "rpc-stake-keys" "INAZ_RPC_STAKE_KEYS" f h)).

(** ** Starting *)

(** A node wired to its network: a replica has no guard and never seals. *)
(* [src/src/main.rs 504-528! run] *)
Definition assemble (now : N) (replica : bool) (net : P2p) (guard_file : option string) (store : Store) (g : Genesis) (k : Keypair) : Node :=
  let n := node_new store g k now in
  let n := if replica then n else attach_sign_guard (SignGuard.open guard_file (address (n_producer n))) n in
  let n := set_serving_only replica n in
  set_solo (negb replica && bool_decide (peers net = [])) n.

(** What a node does to its database before it touches the network. *)
(* [src/src/main.rs 530-564! run] *)
Definition open_chain (n : Node) : result unit * Node :=
  let '(r, n) := if is_initialized (n_db n) then (Ok tt, n)
    else match on_store (init_genesis (n_genesis n)) n with (Err e, n) => (Err e, n) | (Ok _, n) => (Ok tt, n) end in
  match r with
  | Err e => (Err e, n)
  | Ok _ =>
    let '(r, s) := startup_state_root_check (n_store n) in
    let n := with_store s n in
    match r with
    | Err _ => (Err "state divergence", (on_store (set_halt "state divergence detected at startup") n).2)
    | Ok _ =>
      if merkle_ready (n_db n) then (Ok tt, n)
      else (Ok tt, with_store (build_merkle_state (tip (n_db n)) (n_store n)).2 n)
    end
  end.

(** A process that started. *)
Record Started := { st_node : Node; st_net : P2p; st_id : Keypair; st_settings : Settings; st_cfg : RpcConfig }.
(** `run` up to its threads: the database at [store] is what the files hold. *)
(* [src/src/main.rs 457-566! run] *)
Definition start {HN : GenesisJson} (genesis_path data : string) (f : Flags) (fresh : Keypair) (write : result unit) (now : N)
    (store : Store) (h : Host) : result Started * Store * Host :=
  match load_genesis genesis_path f write h with
  | (Err e, h) => (Err e, store, h)
  | (Ok (g, _), h) =>
    let s := settings g f h in
    match producer_key f data fresh write h with
    | (Err e, h) => (Err e, store, h)
    | (Ok k, h) =>
      match from_secret_hex (secret_hex k) with
      | Err e => (Err e, store, h)
      | Ok id =>
        let net := network s in
        match open_chain (assemble now (s_replica s) net (files h !! guard_path data) store g k) with
        | (Err e, n) => (Err e, n_store n, h)
        | (Ok _, n) =>
          (Ok {| st_node := n; st_net := net; st_id := id; st_settings := s; st_cfg := rpc_config f h |}, n_store n, h)
        end
      end
    end
  end.

(** ** Offline commands *)

(* [src/src/main.rs 365-379! run] *)
Definition init_cmd {HN : GenesisJson} (genesis_path data : string) (f : Flags) (fresh : Keypair) (write : result unit) (now : N)
    (store : Store) (h : Host) : result Block * Store * Host :=
  match load_genesis genesis_path f write h with
  | (Err e, h) => (Err e, store, h)
  | (Ok (g, _), h) =>
    match producer_key f data fresh write h with
    | (Err e, h) => (Err e, store, h)
    | (Ok k, h) => let '(r, n) := on_store (init_genesis g) (node_new store g k now) in (r, n_store n, h)
    end
  end.
(* [src/src/main.rs 382-399! run] *)
Definition snapshot_export_cmd {HN : GenesisJson} {HS : SnapshotJson} (genesis_path : string) (f : Flags) (write : result unit)
    (store : Store) (h : Host) : result Snapshot * Host :=
  let out := default "./snapshot.json" (f !! "out") in
  match load_genesis genesis_path f write h with
  | (Err e, h) => (Err e, h)
  | (Ok (g, _), h) =>
    match (sn ← Snapshot.export (db store) (g_chain_id g); _ ← write; Ok sn) with
    | Ok sn => (Ok sn, with_file out (snapshot_text sn) h)
    | Err e => (Err e, h)
    end
  end.
(* [src/src/main.rs 401-416! run] *)
Definition snapshot_import_cmd {HN : GenesisJson} {HS : SnapshotJson} (genesis_path : string) (f : Flags) (write : result unit)
    (store : Store) (h : Host) : result N * Store * Host :=
  match ok_or (f !! "in") "--in <snapshot.json> required" with
  | Err e => (Err e, store, h)
  | Ok file =>
    match load_genesis genesis_path f write h with
    | (Err e, h) => (Err e, store, h)
    | (Ok (g, _), h) =>
      match files h !! file with
      | None => (Err "No such file or directory (os error 2)", store, h)
      | Some raw =>
        match snapshot_of_text raw with
        | Err e => (Err ("bad snapshot: " +:+ e), store, h)
        | Ok sn => let '(r, s) := Snapshot.import sn (g_chain_id g) store in (r, s, h)
        end
      end
    end
  end.
(* [src/src/main.rs 418-433! run] *)
Definition prune_cmd (f : Flags) (s : Store) : N * Store :=
  let keep := default DEFAULT_PRUNE_KEEP (v ← f !! "keep"; parse_u64 v) in
  prune_blocks (sat_sub (finalized_height (db s)) keep) s.
(* [src/src/main.rs 435-448! run] *)
Definition halt_cmd (f : Flags) (s : Store) : Store := do_ (set_halt (default "operator halt" (f !! "reason"))) s.
(* [src/src/main.rs 450-455! run] *)
Definition resume_cmd (s : Store) : Store := do_ clear_halt s.

(** ** Running *)

Context {HS : Serde} {HT : JsonText} {HE : Env}.

(** One slot of the main loop: the block sealed, if any, is announced and voted
    on.  The best height heard from peers is the world's. *)
(* [src/src/main.rs 870-920! run] *)
Definition slot (now now_ts now_seen : N) (io : Progress) (w : World) : result (option Block) * World :=
  let '(r, n) := produce_block now now_ts now_seen (w_best_peer w) io (w_node w) in
  let w := with_node n w in
  (r, match r with Ok (Some b) => vote_on b (announce_block b w) | _ => w end).
(** The same slot in the adversarial build. *)
(* [src/src/main.rs 871-911! run] *)
Definition byzantine_slot (var : option string) (now now_ts now_seen : N) (io : Progress) (w : World) : result (option Block) * World :=
  let '(r, n) := produce_block now now_ts now_seen (w_best_peer w) io (w_node w) in
  let w := with_node n w in
  (r, match r with
      | Ok (Some b) =>
        let w := after_seal var b (announce_block b w) in
        if should_vote var then vote_on b w else w
      | _ => w end).
(* [src/src/main.rs 828-841! run] *)
Definition prune_pass (keep : N) (w : World) : World :=
  let n := w_node w in
  with_node (with_store (prune_blocks (sat_sub (finalized_height (n_db n)) keep) (n_store n)).2 n) w.
(* [src/src/main.rs 851-858! run] *)
Definition unjail_pass (w : World) : World := with_node (try_self_unjail (w_node w)).2 w.
(** The vote reconciliation of every fourth heartbeat. *)
(* [src/src/main.rs 924-935! run] *)
Definition heartbeat (p : P2p) (tick : nat) (w : World) : World :=
  if Nat.eqb (tick mod 4) 1 && negb (n_solo (w_node w)) then sync_votes p w else w.

Record Daemon := { d_world : World; d_cfg : RpcConfig; d_bus : EventBus }.
Definition on_world (f : World -> World) (d : Daemon) : Daemon :=
  {| d_world := f (d_world d); d_cfg := d_cfg d; d_bus := d_bus d |}.
Definition announce_all (txs : list Transaction) (w : World) : World := foldl (fun w tx => announce_tx tx w) w txs.

Inductive Act :=
| A_slot (now now_ts now_seen : N) (io : Progress)
| A_heartbeat (tick : nat)
| A_catch_up (busy : bool)
| A_inbound (head handshake : result string) (rs : list P2p.Received) (ip : option IpAddr)
| A_request (x : Process) (peer : option IpAddr) (chunks : list string) (after : After)
| A_socket_message (x : Process) (text : string) (o : Opened) (conn pipe : N)
| A_prune
| A_unjail.

(** The block the act sealed, and the node after it; no answer when a catch-up
    does not come to an end within [fuel]. *)
Definition act (fuel : nat) (s : Settings) (a : Act) (d : Daemon) : option (option Block * Daemon) :=
  let quiet f := Some (None, on_world f d) in
  match a with
  | A_slot now now_ts now_seen io =>
    let '(r, w) := slot now now_ts now_seen io (d_world d) in
    Some (match r with Ok b => b | Err _ => None end, on_world (fun _ => w) d)
  | A_heartbeat tick => quiet (heartbeat (network s) tick)
  | A_catch_up busy => w ← sync_once fuel busy (network s) (d_world d); Some (None, on_world (fun _ => w) d)
  | A_inbound head handshake rs ip => quiet (fun w => (P2p.handle_conn head handshake rs (network s) ip w).2)
  | A_request x peer chunks after =>
    let v := Http.handle_conn x peer chunks after (d_cfg d) (w_node (d_world d)) in
    Some (None, {| d_world := announce_all (sv_gossip v) (with_node (sv_node v) (d_world d)); d_cfg := sv_cfg v; d_bus := d_bus d |})
  | A_socket_message x text o conn pipe =>
    let sh := (handle_message x text o conn pipe (Build_Shared (w_node (d_world d)) (d_cfg d) (d_bus d) [])).2 in
    Some (None, {| d_world := announce_all (sh_gossip sh) (with_node (sh_node sh) (d_world d)); d_cfg := sh_cfg sh; d_bus := sh_bus sh |})
  | A_prune => match s_prune s with Some keep => quiet (prune_pass keep) | None => Some (None, d) end
  | A_unjail => quiet unjail_pass
  end.
(** A run of the node: the blocks it sealed, in order. *)
Fixpoint run_acts (fuel : nat) (s : Settings) (acts : list Act) (d : Daemon) : option (list Block * Daemon) :=
  match acts with
  | [] => Some ([], d)
  | a :: acts =>
    '(b, d) ← act fuel s a d;
    '(bs, d) ← run_acts fuel s acts d;
    Some (match b with Some b => b :: bs | None => bs end, d)
  end.

(** The daemon a started process enters its loop with. *)
Definition daemon_of (st : Started) : Daemon := {|
  d_world := Build_World (st_node st) (book_new 600) gate_new 0 [] 0; d_cfg := st_cfg st; d_bus := bus_new |}.
End daemon.
