(* ===== verification/Screen.v ===== *)
(** main.rs, what an operator sees of a running node: the lines of its start,
    of every slot and of every beat of the status clock.  [p] says that the
    output is plain and [hud] that the panels were asked for; the wall clock, the
    monotonic clock in milliseconds and the number of peers are arguments. *)

From S2P Require Import Prelude Bytes Crypto Types Journal Store Smt Poseidon Shielded State Fees Staking Tokens Slashing Votes.
From S2P Require Import Mempool Contracts SignGuard Circuit Exec Chain Snapshot Simulate Limits Access Rpc Transport Ws Events P2p Text.
From S2P Require Import Http Byzantine Cli Log Ui Daemon.
From Stdlib Require Import Ascii.
From Stdlib Require String.

Definition inaz (n : N) : string := format_inaz n +:+ " INAZ".
Definition nat_dec (n : nat) : string := dec (N.of_nat n).
Definition CLEAR : string := carriage +:+ ESC +:+ "[2K".

(** The build and the machine. *)
Record Build := { version : string; platform : string }.

Section screen.
Context {HC : Crypto} {HF : Fr} {HK : Compression} {HP : ChainParams} {HJ : EvidenceJson} {HW : Wasm} {HG : Groth16}.
Context (p : bool) (code : string -> option (list string)).

(* [src/src/main.rs 586-589! run] *)
Definition wants_hud (f : Flags) (h : Host) : bool :=
  match f !! "ui" with Some v => String.eqb v "hud" | None => bool_decide (vars h !! "INAZ_UI" = Some "hud") end.
Definition me_of (n : Node) : string := address (n_producer n).
Definition local_height (n : Node) : N := default 0 (tip_height (n_db n)).
(* [src/src/main.rs 572-582! run] *)
Definition pending_text (best : N) (n : Node) : string :=
  if local_height n + 2 <? best then " — local view at #" +:+ dec (local_height n) +:+ ", syncing to #" +:+ dec best else "".
Definition encryption_text (net : P2p) : string := if require_encryption net then "required" else "preferred".
Definition stake_text (stake : N) : string := if MIN_STAKE <=? stake then "bonded" else "unbonded (stake " +:+ inaz MIN_STAKE +:+ " to validate)".

(** The log lines of a start. *)
(* [src/src/main.rs 590-670! run] *)
Definition boot_log (t : Clock) (bd : Build) (data : string) (best : N) (st : Started) : string :=
  let n := st_node st in let d := n_db n in let s := st_settings st in let me := me_of n in let chain := g_chain_id (n_genesis n) in
  let stake := staked (account me d) in
  welcome p t (platform bd) (version bd) chain data me +:+
  info p t "Initialised chain configuration" [("chain", "inazuma-" +:+ dec chain); ("blocktime", dec (s_block_time s) +:+ "ms");
    ("engine", "pos (min stake " +:+ inaz MIN_STAKE +:+ ")")] +:+
  info p t "Loaded local state database" [("height", num (local_height n)); ("finalized", num (finalized_height d)); ("root", short (merkle_root d))] +:+
  info p t "Started P2P networking" [("self", short (pubkey_hex (st_id st))); ("peers", nat_dec (length (peers (st_net st))));
    ("transport", "INSC1-" +:+ encryption_text (st_net st))] +:+
  info p t "HTTP server started" [("endpoint", "http://" +:+ s_rpc s)] +:+
  (if String.eqb (s_ws s) "" then "" else info p t "WebSocket server started" [("endpoint", "ws://" +:+ s_ws s)]) +:+
  info p t "Validator account ready" [("address", me); ("stake", inaz stake); ("state", stake_text stake)] +:+
  (if local_height n + 2 <? best then
    info p t "Starting chain synchronisation" [("from", num (local_height n)); ("target", num best)] else "") +:+
  info p t "Validator dashboard" [("url", DASHBOARD +:+ "?node=" +:+ me)].
Definition mode_text (replica solo : bool) : string :=
  if replica then "replica (serving only)" else if solo then "solo (no peers yet)" else "networked".
Definition stake_line (stake : N) : string := inaz stake +:+ " (min " +:+ format_inaz MIN_STAKE +:+ " to validate)".
Definition network_line (n : Node) : string :=
  inaz (total_staked (n_db n)) +:+ " staked across " +:+ nat_dec (length (validators n)) +:+ " validators".
(** The panels of a start. *)
(* [src/src/main.rs 671-752! run] *)
Definition boot_hud (best : N) (st : Started) : string :=
  let n := st_node st in let d := n_db n in let s := st_settings st in let net := st_net st in let me := me_of n in
  let stake := staked (account me d) in
  banner p +:+
  panel p "node" [
    ("chain id", dec (g_chain_id (n_genesis n)) +:+ " (Inazuma)"); ("validator", me); ("node key", pubkey_hex (st_id st));
    ("p2p", "INSC1 encrypted (" +:+ encryption_text net +:+ "), allowlist " +:+
      (if bool_decide (allowed_ids net = ∅) then "off" else nat_dec (size (allowed_ids net)) +:+ " keys"));
    ("block time", dec (s_block_time s) +:+ " ms"); ("mode", mode_text (s_replica s) (n_solo n));
    ("your stake", stake_line stake +:+ pending_text best n); ("network", network_line n +:+ pending_text best n);
    ("supply", inaz (total_supply d)); ("rpc", "http://" +:+ s_rpc s);
    ("ws", if String.eqb (s_ws s) "" then "disabled" else "ws://" +:+ s_ws s);
    ("state root", "merkle from height " +:+ dec STATE_ROOT_V2_ACTIVATION_HEIGHT)] +:+
  dashboard_link p code me +:+ next_steps p me (MIN_STAKE <=? stake) +:+ commands p (MIN_STAKE <=? stake).
(** What the threads announce before the first slot. *)
(* [src/src/main.rs 771-778! run] *)
Definition qos_text (q : StakeQos) : string :=
  if bool_decide (bindings q = ∅) then ""
  else put_line ("qos          " +:+ nat_dec (size (bindings q)) +:+ " keys weighted by stake (cap " +:+ fixed 0 MAX_STAKE_MULTIPLIER +:+ "x)").
(* [src/src/main.rs 822-826! run] *)
Definition prune_intro (s : Settings) : string :=
  match s_prune s with Some keep => put_line ("prune        keeping " +:+ dec keep +:+ " blocks behind finality") | None => "" end.
(* [src/src/main.rs 834-840! run] *)
Definition prune_note (removed : N) (d : Db) : string :=
  if 0 <? removed then put_line ("[prune] removed " +:+ dec removed +:+ " blocks, history starts at " +:+ dec (pruned_below d)) else "".
(* [src/src/main.rs 844-849! run] *)
Definition halted_text (d : Db) : string :=
  match halt_reason d with
  | Some reason => put_line ("HALTED       " +:+ reason +:+ " — serving reads only, run `inazuma resume` to clear")
  | None => ""
  end.

(** ** The main loop *)

(** What the loop remembers for its output: the turns of the status clock and
    when the last one was, the rate, when an empty block was last logged (at the
    start, more than ten seconds ago), and whether the summary was shown. *)
Record Console := { k_tick : nat; k_beat_at : N; k_rate : Rate; k_empty_at : option N; k_synced : bool }.
(* [src/src/main.rs 863-868! run] *)
Definition console_new (now : N) : Console := {| k_tick := 0; k_beat_at := now; k_rate := no_rate; k_empty_at := None; k_synced := false |}.
Definition show_empty (now : N) (k : Console) : bool := match k_empty_at k with Some t => 10000 <=? now - t | None => true end.
Definition logged_empty (now : N) (k : Console) : Console :=
  {| k_tick := k_tick k; k_beat_at := k_beat_at k; k_rate := k_rate k; k_empty_at := Some now; k_synced := k_synced k |}.
(* [src/src/main.rs 871-920! run] *)
Definition slot_text (hud : bool) (t : Clock) (now elapsed : N) (npeers : nat) (r : result (option Block)) (k : Console) : string * Console :=
  match r with
  | Ok (Some b) =>
    let ntxs := length (b_transactions b) in
    let empty := Nat.eqb ntxs 0 in
    if negb hud && (negb empty || show_empty now k) then
      (info p t (if empty then "Sealed new block" else "Imported new chain segment")
         [("number", num (b_height b)); ("hash", short (b_hash b)); ("txs", nat_dec ntxs); ("peers", nat_dec npeers); ("elapsed", dec elapsed +:+ "ms")],
       if empty then logged_empty now k else k)
    else if negb empty then
      (put_line (CLEAR +:+ "[block] #" +:+ dec (b_height b) +:+ " txs=" +:+ nat_dec ntxs +:+ " hash=" +:+ String.substring 0 16 (b_hash b)), k)
    else ("", k)
  | Ok None => ("", k)
  | Err e => ((if hud then put_line (CLEAR +:+ "[block] error: " +:+ e) else error p t "Block production failed" [("err", e)]), k)
  end.

(* [src/src/main.rs 936-947! run] *)
Definition beat_of (npeers : nat) (best : N) (n : Node) : Beat :=
  let d := n_db n in
  let v := List.find (fun v => String.eqb (v_address v) (me_of n)) (validators n) in {|
  height := local_height n; target := best; beat_peers := N.of_nat npeers; finalized := finalized_height d;
  beat_staked := staked (account (me_of n) d);
  validating := match v with Some v => v_jailed_until v =? 0 | None => false end;
  jailed := match v with Some v => local_height n <? v_jailed_until v | None => false end |}.
Definition role_text (b : Beat) : string := if jailed b then "jailed" else if validating b then "validator" else "full".
(** The line of a beat in the log. *)
(* [src/src/main.rs 950-989! run] *)
Definition beat_log (t : Clock) (solo : bool) (b : Beat) : string :=
  if (beat_peers b =? 0) && negb solo then warn p t "Looking for peers" [("peercount", "0")]
  else if height b + 2 <? target b then
    info p t "Syncing chain segment" [("number", num (height b)); ("target", num (target b));
      ("progress", fixed 2 (progress (height b) (N.max (target b) 1)) +:+ "%"); ("peers", dec (beat_peers b))]
  else
    info p t "Chain head updated" [("number", num (height b)); ("finalized", num (finalized b)); ("peers", dec (beat_peers b));
      ("stake", inaz (beat_staked b)); ("role", role_text b)].
(** The numbers of the start, once they are no longer stale. *)
(* [src/src/main.rs 995-1056! run] *)
Definition synced_text (hud : bool) (t : Clock) (b : Beat) (n : Node) : string :=
  let bonded := MIN_STAKE <=? beat_staked b in
  if hud then
    panel p "synced" [
      ("height", "#" +:+ dec (height b) +:+ " (finalized #" +:+ dec (finalized b) +:+ ")");
      ("your stake", stake_line (beat_staked b)); ("network", network_line n);
      ("status", if validating b then "validating — producing blocks" else if bonded then "staked, joining the active set"
        else "not staked yet — run: inazuma stake --amount " +:+ format_inaz MIN_STAKE)]
  else
    info p t "Chain synchronisation finished" [("height", num (height b)); ("validators", nat_dec (length (validators n)));
      ("netstake", inaz (total_staked (n_db n)));
      ("you", if validating b then "producing blocks" else if bonded then "joining active set" else "not staked")].
Definition BEAT_EVERY (hud : bool) : N := if hud then 1500 else 8000.
(** [unix_ms] is the clock of the rate. *)
(* [src/src/main.rs 921-1058! run] *)
Definition beat_text (hud : bool) (t : Clock) (now unix_ms : N) (npeers : nat) (best : N) (n : Node) (k : Console) : string * Console :=
  if now - k_beat_at k <? BEAT_EVERY hud then ("", k)
  else
    let tick := S (k_tick k) in
    let b := beat_of npeers best n in
    let '(line, r) := if hud then Ui.heartbeat p unix_ms tick b (inaz (beat_staked b)) (k_rate k) else (beat_log t (n_solo n) b, k_rate k) in
    let first := (target b <=? height b + 2) && negb (k_synced k) in
    (line +:+ (if first then synced_text hud t b n else ""),
     {| k_tick := tick; k_beat_at := now; k_rate := r; k_empty_at := k_empty_at k; k_synced := k_synced k || first |}).
(** What the loop sleeps for the rest of a slot. *)
(* [src/src/main.rs 1059-1062! run] *)
Definition slot_rest (block_time elapsed : N) : N := if elapsed <? block_time then block_time - elapsed else 0.
End screen.
