(* ===== verification/DaemonFacts.v ===== *)
(** What holds of a node from its start to its end: it starts on a whole
    database or not at all, each act of its threads keeps its finalized height
    and seals at most one block above all it sealed before, and its key never
    seals a height twice across restarts.  Threads has finer interleavings. *)

From S2P Require Import Prelude Bytes Crypto Types TypesFacts Journal Store Smt SmtFacts Poseidon Shielded State StateFacts Fees Staking Tokens.
From S2P Require Import Slashing Votes VotesFacts Mempool Contracts SignGuard Circuit Exec ExecFacts Chain ChainFacts Mirror Snapshot SnapshotFacts Simulate.
From S2P Require Import Limits Access Rpc RpcFacts Transport Ws Events P2p P2pFacts Text Http HttpFacts Byzantine Cli Daemon.
From Stdlib Require Import Ascii.
From Stdlib Require String.

Section steps.
Context {HC : Crypto} {HF : Fr} {HK : Compression} {HP : ChainParams} {HJ : EvidenceJson} {HW : Wasm} {HG : Groth16} {HS : Serde}.

(** ** Calls, as steps of the node *)

(** Everything a call makes a node do. *)
Inductive call_step : Node -> Node -> Prop :=
| cs_pool n n' : same_but_pool n n' -> call_step n n'
| cs_halt reason n : call_step n (halt reason n)
| cs_resume n : call_step n (resume n)
| cs_prune below n : call_step n (with_store (prune_blocks below (n_store n)).2 n).
Lemma call_nothing n : call_step n n.
Proof. apply cs_pool, pool_refl. Qed.

Lemma dispatch_step x method p t c n : call_step n (left_node (dispatch_metered x method p t c n).1).
Proof.
  unfold dispatch_metered. destruct (metered _ _ _ _ _) as [[r|] c']; [apply call_nothing|].
  destruct (String.eqb _ _). { destruct (rpc_limits x t p (n_db n) c') as [v c'']. apply call_nothing. }
  destruct (String.eqb _ _); [apply cs_halt|]. destruct (String.eqb _ _); [apply cs_resume|].
  destruct (String.eqb _ _).
  { unfold prune_node. pose proof (cs_prune (sat_sub (finalized_height (n_db n)) (default DEFAULT_PRUNE_KEEP (u64_param "keep" p))) n) as H.
    now destruct (prune_blocks _ _) as [removed s]. }
  destruct (String.eqb _ _); [apply call_nothing|]. apply cs_pool, dispatch_pool.
Qed.

Context {HT : JsonText}.

Lemma serve_call_step x req ip credential c n : call_step n (serve_call x req ip credential c n).1.1.2.
Proof.
  unfold serve_call. destruct (require_auth c && _); [apply call_nothing|]. destruct (charge_weighted _ _ _ _ _ _ c) as [[] c1];
    (destruct (_ && _); [apply call_nothing|]); [|apply call_nothing].
  pose proof (dispatch_step x (req_method req) (req_params req) (tier_for credential c) c1 n) as Hd.
  now destruct (dispatch_metered _ _ _ _ c1 n) as [r c2].
Qed.
Lemma request_step x peer chunks after c n : call_step n (sv_node (Http.handle_conn x peer chunks after c n)).
Proof.
  unfold Http.handle_conn. destruct (receive (trust_proxy c) chunks after) as [| | |rq]; try apply call_nothing.
  destruct (String.eqb _ "OPTIONS"); [apply call_nothing|]. destruct (String.eqb _ "GET").
  - unfold serve_get. destruct (charge _ _ _ _ _ c) as [[] c1]; [|apply call_nothing]. destruct (String.eqb _ "/metrics"); apply call_nothing.
  - match goal with |- context [serve_call ?x ?r ?i ?k ?c ?n] => pose proof (serve_call_step x r i k c n) as H end.
    now destruct (serve_call _ _ _ _ _ _) as [[[[status v] n'] c'] txs].
Qed.
Lemma message_step x text o conn pipe s : call_step (sh_node s) (sh_node (handle_message x text o conn pipe s).2).
Proof.
  unfold handle_message. destruct (json_of_text text) as [req|]; [|apply call_nothing].
  destruct (charge_weighted _ _ _ _ _ _ _) as [[] c1]; [|apply call_nothing].
  destruct (_ && _); [apply call_nothing|]. destruct (subscription_call _ _ _ _ _) as [[r b]|]; [apply call_nothing|].
  cbn [sh_node sh_cfg with_cfg]. match goal with |- context [dispatch_metered ?x ?m ?p ?t ?c ?n] => pose proof (dispatch_step x m p t c n) as H end.
  now destruct (dispatch_metered _ _ _ _ _ _) as [r c2].
Qed.

(** ** What every step keeps *)

(** The identity of a node: its key, its chain and its mode. *)
Definition same_identity (n n' : Node) : Prop :=
  n_producer n' = n_producer n /\ n_genesis n' = n_genesis n /\ n_solo n' = n_solo n /\ n_serving_only n' = n_serving_only n.
(** And the memory of what its key signed. *)
Definition unsigning (n n' : Node) : Prop := same_identity n n' /\ n_sign_guard n' = n_sign_guard n.
#[export] Instance unsigning_preorder : PreOrder unsigning.
Proof.
  split; [intros n; repeat split|]. intros n1 n2 n3 [(? & ? & ? & ?) ?] [(? & ? & ? & ?) ?]. repeat split; congruence.
Qed.

Lemma unsigning_pool n n' : same_but_pool n n' -> unsigning n n'.
Proof. intros ->. repeat split. Qed.
Lemma unsigning_store s n : unsigning n (with_store s n).
Proof. repeat split. Qed.
Lemma unsigning_replay h n : unsigning n (replay_votes h n).
Proof. unfold replay_votes. destruct (replay_pending _ _ _) as [[? ?] ?]. repeat split. Qed.
Lemma unsigning_import cpus clock b n : unsigning n (import_block cpus clock b n).2.
Proof.
  destruct (import_block cpus clock b n) as [[ok|e] n'] eqn:E; cbn [snd].
  2: apply rejected_import in E as ->; reflexivity.
  unfold import_block in E. destruct (halt_reason (n_db n)); [discriminate|].
  destruct (import_block_inner cpus clock b (with_store (begin_block (n_store n)) n)) as [[ok'|e] n1] eqn:E1; [|discriminate].
  injection E as <- <-. transitivity n1; [|apply unsigning_store].
  unfold import_block_inner in E1. destruct (import_checks _ _ _ _ _ _) as [[]|]; [|injection E1 as _ <-|discriminate].
  - destruct (execute_block b (n_store (with_store (begin_block (n_store n)) n))) as [[[]|e] s]; [|discriminate]. injection E1 as _ <-.
    transitivity (mark_tip_seen (at_seen clock) (with_store s n)); [repeat split|].
    etransitivity; [apply (unsigning_replay (b_height b))|]. repeat split.
  - repeat split.
Qed.
Lemma unsigning_wipe h n : unsigning n (wipe_chain h n).2.
Proof. unfold wipe_chain. destruct (h <? _); [reflexivity|]. destruct (check_reorg_depth _ _); [repeat split|reflexivity]. Qed.
Lemma unsigning_regenerate now n : unsigning n (regenerate now n).2.
Proof. unfold regenerate, on_store. destruct (init_genesis _ _) as [[?|?] s]; repeat split. Qed.
Lemma unsigning_reset h now n : unsigning n (reset_to_genesis h now n).2.
Proof.
  destruct (reset_parts h now n) as [->| ->]; [apply unsigning_wipe|]. etransitivity; [apply unsigning_wipe|apply unsigning_regenerate].
Qed.
Context {HE : Env}.
Lemma unsigning_node_step n n' : node_step n n' -> unsigning n n'.
Proof.
  destruct 1 as [clock b n Hb|v n r t s Hv E|n|e n|tx n|h now n]; [apply unsigning_import|repeat split|repeat split| | |apply unsigning_reset].
  - apply unsigning_pool, report_pool.
  - apply unsigning_pool, accept_pool.
Qed.
Lemma unsigning_moved w w' : moved w w' -> unsigning (w_node w) (w_node w').
Proof. unfold moved. induction 1 as [|n1 n2 n3 H _ IH]; [reflexivity|]. transitivity n2; [now apply unsigning_node_step|exact IH]. Qed.
Lemma unsigning_call n n' : call_step n n' -> unsigning n n'.
Proof. destruct 1; [now apply unsigning_pool|repeat split..]. Qed.

(** ** Progress of every step *)

Lemma keeps_final_delete k d : k <> final_key -> keeps_final d (delete k d).
Proof.
  intros Hk. split; [now apply lookup_delete_ne|]. intros k' v' H. left.
  destruct (decide (k = (T_BLOCKS, k'))) as [->|Hne]; [now rewrite lookup_delete_eq in H|now rewrite lookup_delete_ne in H].
Qed.
Lemma prune_one_final acc h : keeps_final (db acc.2) (db (prune_one acc h).2).
Proof.
  destruct acc as [r s]. unfold prune_one. destruct (db s !! _) as [v|]; [|reflexivity]. cbn [snd].
  etransitivity; [|apply keeps_final_delete; discriminate]. destruct (as_block v) as [b|]; [|reflexivity].
  generalize (b_transactions b). intros txs. clear v b. revert s. induction txs as [|t txs IH]; intros s; [reflexivity|]. cbn [foldl].
  etransitivity; [|apply IH]. unfold raw_del. cbn [db]. etransitivity; apply keeps_final_delete; discriminate.
Qed.
Lemma prune_final below s : keeps_final (db s) (db (prune_blocks below s).2).
Proof.
  unfold prune_blocks. cbv zeta. destruct (_ <=? 1); [reflexivity|].
  generalize (heights_from (N.max (pruned_below (db s)) 1) (N.to_nat (N.min below (finalized_height (db s)) - N.max (pruned_below (db s)) 1))). intros hs.
  assert (forall acc, keeps_final (db acc.2) (db (foldl prune_one acc hs).2)) as Hf.
  { induction hs as [|h hs IH]; intros acc; [reflexivity|]. cbn [foldl]. etransitivity; [apply (prune_one_final acc h)|apply IH]. }
  match goal with |- context [let '(_, _) := ?r in _] =>
    assert (keeps_final (db s) (db r.2)) as H by exact (Hf (0, s)); destruct r as [removed s'] end.
  cbn [snd] in *. destruct (0 <? removed); [|exact H]. cbn [snd].
  etransitivity; [exact H|]. unfold put. cbn [db]. rewrite db_record. now apply keeps_final_put.
Qed.

Lemma call_progress n n' : call_step n n' -> progress n n'.
Proof.
  destruct 1 as [n n' ->|reason n|n|below n].
  - now apply progress_same.
  - apply progress_store. unfold set_halt, jput, put. cbn. rewrite db_record. now apply keeps_final_put.
  - apply progress_store. unfold clear_halt, jdel, del. cbn. rewrite db_record. now apply keeps_final_delete.
  - apply progress_store, prune_final.
Qed.

Lemma seal_progress k ts batch n : let h := tip (n_db n) +!! 1 in
  progress n (with_store (seal_batch k h (tip_hash (n_db n)) ts batch (n_store n)).2 n).
Proof.
  intros h. apply progress_store. pose proof (sealed_replays k h (tip_hash (n_db n)) ts batch (n_store n)) as Hr.
  pose proof (seal_batch_height k h (tip_hash (n_db n)) ts batch (n_store n)) as Hb.
  destruct (seal_batch _ _ _ _ _ _) as [b s]. cbn [fst snd] in *. unfold run in Hr. apply pair_equal_spec in Hr as [_ <-].
  apply final_execute_block. unfold typed_block. rewrite Hb. unfold h, wadd, wrap. apply N.mod_lt. discriminate.
Qed.

(** ** One act *)

(** What an act may do to the key of the node: nothing, or seal one block above
    all it sealed before, and never on a replica. *)
Definition sealed_above (b : Block) (n n' : Node) : Prop :=
  n_serving_only n = false /\
  forall g, n_sign_guard n = Some g -> highest_signed g < b_height b /\
    exists g', n_sign_guard n' = Some g' /\ highest_signed g' = b_height b.
Definition outcome (b : option Block) (n n' : Node) : Prop :=
  same_identity n n' /\ match b with None => n_sign_guard n' = n_sign_guard n | Some b => sealed_above b n n' end.
Lemma quiet_outcome n n' : unsigning n n' -> outcome None n n'.
Proof. now intros [H1 H2]. Qed.

Lemma may_produce_seals now best n : may_produce now best n = Ok true -> n_serving_only n = false.
Proof. unfold may_produce. now destruct (n_serving_only n). Qed.
Lemma produce_step now ts seen best io n r n' : produce_block now ts seen best io n = (r, n') ->
  let b := match r with Ok b => b | Err _ => None end in
  progress n n' /\ outcome b n n' /\ (forall b', b = Some b' -> typed_block b').
Proof.
  intros E b. destruct r as [[b'|]|e]; subst b.
  2,3: assert (n' = n) as -> by (revert E; unfold produce_block; destruct (may_produce now best n) as [[]|]; [destruct (take_batch _ _);
         destruct (seal_batch _ _ _ _ _ _)|..]; congruence); (split; [reflexivity|split; [now apply quiet_outcome|discriminate]]).
  assert (n_serving_only n = false) as Hserve.
  { apply (may_produce_seals now best). revert E. unfold produce_block. now destruct (may_produce now best n) as [[]|]. }
  pose proof (fun g Hg => guarded_heights_increase now ts seen best io n b' n' g Hg E) as Hg.
  unfold produce_block in E. destruct (may_produce now best n) as [[]|]; [|discriminate..].
  destruct (take_batch _ _) as [batch pool].
  pose proof (seal_progress (n_producer n) ts batch n) as Hp.
  pose proof (seal_batch_height (n_producer n) (tip (n_db n) +!! 1) (tip_hash (n_db n)) ts batch (n_store n)) as Hb.
  cbv zeta in Hp. destruct (seal_batch _ _ _ _ _ _) as [b2 s]. cbn [fst snd] in Hb, Hp.
  injection E as <- <-. split; [|split; [split|]].
  - etransitivity; [exact Hp|]. match goal with |- progress ?m (replay_votes ?h (with_store ?s2 ?m2)) =>
      transitivity m2; [now apply progress_same|]; transitivity (with_store s2 m2); [apply progress_store, checkpoint_keeps|apply replay_votes_progress] end.
  - match goal with |- same_identity n (replay_votes ?h ?m) => destruct (unsigning_replay h m) as [(? & ? & ? & ?) _] end. repeat split; assumption.
  - split; [exact Hserve|]. intros g H. destruct (Hg g H) as (H1 & g' & H2 & H3 & _). eauto.
  - intros b' H. injection H as <-. unfold typed_block. rewrite Hb. unfold wadd, wrap. apply N.mod_lt. discriminate.
Qed.

(** The messages of an inbound connection carry machine integers. *)
Definition act_typed (a : Act) : Prop := match a with A_inbound _ _ rs _ => Forall received_typed rs | _ => True end.

Lemma announce_all_node txs : forall w, w_node (announce_all txs w) = w_node w.
Proof. induction txs as [|t txs IH]; intros w; [reflexivity|]. unfold announce_all in *. cbn [foldl]. now rewrite IH. Qed.

Definition d_node (d : Daemon) : Node := w_node (d_world d).
Lemma moved_outcome w w' : moved w w' -> progress (w_node w) (w_node w') /\ outcome None (w_node w) (w_node w').
Proof. intros H. split; [now apply moved_progress|now apply quiet_outcome, unsigning_moved]. Qed.
Lemma call_outcome n n' : call_step n n' -> progress n n' /\ outcome None n n'.
Proof. intros H. split; [now apply call_progress|now apply quiet_outcome, unsigning_call]. Qed.

Lemma slot_step now ts seen io w r w' : slot now ts seen io w = (r, w') ->
  progress (w_node w) (w_node w') /\ outcome (match r with Ok b => b | Err _ => None end) (w_node w) (w_node w').
Proof.
  unfold slot. destruct (produce_block _ _ _ _ _ _) as [r2 n] eqn:E. intros H. apply pair_equal_spec in H as [<- <-].
  destruct (produce_step _ _ _ _ _ _ _ _ E) as (Hp & Ho & Ht). destruct r2 as [[b|]|e]; [|now split..].
  set (w1 := announce_block b (with_node n w)).
  assert (moved w1 (vote_on b w1)) as Hm by (apply vote_on_moved; now apply Ht).
  destruct (moved_outcome _ _ Hm) as [Hp2 [(? & ? & ? & ?) Hg2]]. change (w_node w1) with n in *. split; [now transitivity n|].
  destruct Ho as [(? & ? & ? & ?) [Hs Hg]]. split; [repeat split; congruence|]. split; [exact Hs|].
  intros g Hq. rewrite Hg2. now apply Hg.
Qed.

Lemma unjail_outcome w : progress (w_node w) (w_node (unjail_pass w)) /\ outcome None (w_node w) (w_node (unjail_pass w)).
Proof.
  apply call_outcome, cs_pool. unfold unjail_pass. cbn [w_node with_node]. unfold try_self_unjail.
  destruct (_ || _); [apply pool_refl|]. destruct (_ && _); [apply pool_refl|].
  match goal with |- context [accept_tx ?t ?n] => pose proof (accept_pool t n) as H; now destruct (accept_tx t n) as [[h|e] n'] end.
Qed.

Lemma act_step fuel s a d b d' : env_typed -> act_typed a -> node_typed (d_node d) -> act fuel s a d = Some (b, d') ->
  progress (d_node d) (d_node d') /\ outcome b (d_node d) (d_node d').
Proof.
  intros He Ha Hn. unfold act, d_node. destruct a; cbn [act_typed] in Ha.
  - destruct (slot _ _ _ _ _) as [r w] eqn:E. intros H. injection H as <- <-. apply (slot_step _ _ _ _ _ _ _ E).
  - intros H. injection H as <- <-. cbn [d_world on_world]. apply moved_outcome. unfold heartbeat.
    destruct (_ && _); [now apply sync_votes_moved|reflexivity].
  - destruct (sync_once _ _ _ _) as [w|] eqn:E; [|discriminate]. intros H. injection H as <- <-. apply moved_outcome.
    exact (sync_once_moved _ _ _ _ _ He Hn E).
  - intros H. injection H as <- <-. apply moved_outcome. now apply handle_conn_moved.
  - intros H. injection H as <- <-. cbn [d_world]. rewrite announce_all_node. apply call_outcome, request_step.
  - intros H. injection H as <- <-. cbn [d_world]. rewrite announce_all_node.
    apply call_outcome. apply (message_step x text o conn pipe (Build_Shared (w_node (d_world d)) (d_cfg d) (d_bus d) [])).
  - destruct (s_prune s) as [keep|]; intros H; injection H as <- <-; [|apply call_outcome, call_nothing].
    apply call_outcome. apply (cs_prune (sat_sub (finalized_height (n_db (w_node (d_world d)))) keep)).
  - intros H. injection H as <- <-. apply unjail_outcome.
Qed.

(** ** Runs *)

(** What a run does that sealed the blocks [bs]. *)
Definition safe_run (n : Node) (bs : list Block) (n' : Node) : Prop := node_typed n ->
  node_typed n' /\ final_of n <= final_of n' /\ same_identity n n' /\
  (n_serving_only n = true -> bs = [] /\ n_sign_guard n' = n_sign_guard n) /\
  forall g, n_sign_guard n = Some g ->
    StronglySorted N.lt (map b_height bs) /\ Forall (fun b => highest_signed g < b_height b) bs.
Lemma safe_nil n : safe_run n [] n.
Proof. intros Hn. repeat split; [apply Hn..|lia|constructor|constructor]. Qed.
Lemma safe_cons b n n1 bs n' : progress n n1 -> outcome b n n1 -> safe_run n1 bs n' -> safe_run n (option_list b ++ bs) n'.
Proof.
  intros Hp [(P1 & P2 & P3 & P4) Ho] Hrun Hn. destruct (Hp Hn) as [Hn1 Hf].
  destruct (Hrun Hn1) as (Hn2 & Hf2 & (Q1 & Q2 & Q3 & Q4) & Hr & Hg).
  split; [exact Hn2|]. split; [lia|]. split; [repeat split; congruence|]. split.
  { intros Hs. destruct Hr as [-> Hr]; [congruence|]. destruct b as [b|]; [destruct Ho as [Ho _]; congruence|]. split; [done|congruence]. }
  intros g Hguard. destruct b as [b|]; cbn [option_list option_rect app].
  - destruct Ho as [_ Ho]. destruct (Ho g Hguard) as (Hlt & g' & Hg' & Hh). destruct (Hg g' Hg') as [Hs Hall].
    split; cbn [map]; [constructor; [exact Hs|]|constructor; [exact Hlt|]].
    + apply Forall_map. apply (Forall_impl _ _ _ Hall). intros b0. now rewrite Hh.
    + apply (Forall_impl _ _ _ Hall). intros b0. rewrite Hh. apply N.lt_trans. exact Hlt.
  - apply Hg. congruence.
Qed.

Lemma run_step fuel s : env_typed -> forall acts d bs d', Forall act_typed acts -> node_typed (d_node d) ->
  run_acts fuel s acts d = Some (bs, d') -> safe_run (d_node d) bs (d_node d').
Proof.
  intros He. induction acts as [|a acts IH]; intros d bs d' Ha Hn; cbn [run_acts]; [intros H; injection H as <- <-; apply safe_nil|].
  apply Forall_cons in Ha as [Ha Hacts]. destruct (act fuel s a d) as [[b d1]|] eqn:E; [|discriminate]. cbn [mbind option_bind].
  destruct (run_acts fuel s acts d1) as [[bs1 d2]|] eqn:E1; [|discriminate]. cbn [mbind option_bind]. intros H. injection H as <- <-.
  destruct (act_step fuel s a d b d1 He Ha Hn E) as [Hp Ho]. pose proof (IH d1 bs1 d2 Hacts (proj1 (Hp Hn)) E1) as Hr.
  pose proof (safe_cons b _ _ bs1 _ Hp Ho Hr) as H. now destruct b.
Qed.

(** ** Starting *)

Lemma open_cases n r n' : open_chain n = (r, n') ->
  (exists e n1, is_initialized (n_db n) = false /\ on_store (init_genesis (n_genesis n)) n = (Err e, n1) /\ r = Err e /\ n' = n1) \/
  exists n1, (is_initialized (n_db n) = true /\ n1 = n \/
              is_initialized (n_db n) = false /\ exists b, on_store (init_genesis (n_genesis n)) n = (Ok b, n1)) /\
    match startup_state_root_check (n_store n1) with
    | (Err _, s) => r = Err "state divergence" /\ n' = (on_store (set_halt "state divergence detected at startup") (with_store s n1)).2
    | (Ok _, s) => r = Ok tt /\
        n' = if merkle_ready (db s) then with_store s n1 else with_store (build_merkle_state (tip (db s)) s).2 (with_store s n1)
    end.
Proof.
  unfold open_chain. destruct (is_initialized (n_db n)) eqn:Ei.
  - intros H. right. exists n. split; [auto|]. destruct (startup_state_root_check (n_store n)) as [[[]|e] s];
      [destruct (merkle_ready (n_db (with_store s n))) eqn:Em; change (n_db (with_store s n)) with (db s) in *; rewrite ?Em in *|];
      apply pair_equal_spec in H as [<- <-]; auto.
  - destruct (on_store (init_genesis (n_genesis n)) n) as [[b|e] n1] eqn:E; intros H.
    + right. exists n1. split; [right; eauto|]. destruct (startup_state_root_check (n_store n1)) as [[[]|e] s];
        [destruct (merkle_ready (n_db (with_store s n1))) eqn:Em; change (n_db (with_store s n1)) with (db s) in *; rewrite ?Em in *|];
        apply pair_equal_spec in H as [<- <-]; auto.
    + left. apply pair_equal_spec in H as [<- <-]. eauto 10.
Qed.

(** The genesis block is the tip it leaves. *)
Lemma genesis_tip n b n1 : on_store (init_genesis (n_genesis n)) n = (Ok b, n1) -> tip_height (n_db n1) = Some 0.
Proof.
  unfold on_store. destruct (init_genesis (n_genesis n) (n_store n)) as [r s] eqn:E. intros H. apply pair_equal_spec in H as [-> <-].
  change (n_db (with_store s n)) with (db s).
  assert (run (init_genesis (n_genesis n)) (db (n_store n)) = (Ok b, db s)) as Hrun by (unfold run; now rewrite <- run_db, <- run_res, E by apply _).
  clear E. unfold init_genesis in Hrun.
  apply run_bind_ok in Hrun as (x1 & s1 & _ & Hrun); [|intros; journaled].
  apply run_bind_ok in Hrun as (x2 & s2 & _ & Hrun); [|intros; journaled].
  apply run_bind_ok in Hrun as (x3 & s3 & _ & Hrun); [|intros; journaled].
  apply run_bind_ok in Hrun as (x4 & s4 & _ & Hrun); [|intros; journaled].
  apply run_bind_ok in Hrun as (x5 & s5 & Hput & Hrun); [|intros; journaled].
  apply run_ret_ok in Hrun as [_ ->]. unfold run in Hput. apply pair_equal_spec in Hput as [_ <-].
  match goal with |- context [put_block ?b] => destruct (put_block_rows b s4) as (_ & Htip & _) end.
  unfold tip_height, meta_u64. rewrite Htip. now apply u64_row_reads.
Qed.

(** Heights in the meta table are eight bytes long. *)
Lemma meta_bound key d : match meta_u64 key d with Some h => h | None => 0 end <= U64_MAX.
Proof.
  unfold meta_u64. destruct (d !! _) as [v|]; [|apply N.le_0_l]. cbn [mbind option_bind]. unfold State.as_u64.
  destruct (as_bytes v) as [b|]; [|apply N.le_0_l]. cbn [mbind option_bind]. destruct (Nat.eqb_spec (slen b) 8) as [Hl|]; [|apply N.le_0_l].
  pose proof (from_be_bytes_bound b) as H. rewrite Hl in H. change U64_MAX with (256 ^ N.of_nat 8 - 1). lia.
Qed.
Lemma tip_bound d : tip d <= U64_MAX.
Proof. exact (meta_bound "tip_height" d). Qed.
Lemma finalized_bound d : finalized_height d <= U64_MAX.
Proof. exact (meta_bound "finalized_height" d). Qed.

(** A database whose checkpoint is the root of its state at its tip. *)
Definition checkpointed (d : Db) : Prop := state_checkpoint d = Some (tip d, state_root d).

Lemma same_state_root d d' : (forall t k, t <> T_SMT -> (t, k) <> (T_META, "smt_version") -> (t, k) <> (T_META, "state_checkpoint") ->
    d' !! (t, k) = d !! (t, k)) -> tip_height d' = tip_height d /\ state_root d' = state_root d.
Proof.
  intros H. split; [unfold tip_height, meta_u64; now rewrite H|]. apply state_root_ext.
  - intros t k Hs Ht. apply H; [exact Hs|intros E; injection E as -> _; discriminate..].
  - unfold shielded_pool_balance, meta_number. now rewrite H.
Qed.
Lemma same_tip d d' : tip_height d' = tip_height d -> tip d' = tip d.
Proof. unfold tip. now intros ->. Qed.

Lemma checkpoint_same h s : let d' := db (checkpoint_state h s) in tip_height d' = tip_height (db s) /\ state_root d' = state_root (db s).
Proof. apply same_state_root. intros t k _ _ Hk. unfold checkpoint_state, set_state_checkpoint, raw_put. cbn [db]. rewrite lookup_insert_ne; [done|congruence]. Qed.
Lemma startup_ok s s' : startup_state_root_check s = (Ok tt, s') ->
  checkpointed (db s') /\ tip_height (db s') = tip_height (db s) /\ state_root (db s') = state_root (db s).
Proof.
  unfold startup_state_root_check. cbv zeta.
  assert (checkpointed (db (checkpoint_state (tip (db s)) s))) as Hc.
  { destruct (checkpoint_same (tip (db s)) s) as [Ht Hr]. unfold checkpointed. rewrite (same_tip _ _ Ht), Hr.
    apply checkpoint_reads, tip_bound. }
  assert ((Ok (), checkpoint_state (tip (db s)) s) = (Ok (), s') ->
    checkpointed (db s') /\ tip_height (db s') = tip_height (db s) /\ state_root (db s') = state_root (db s)) as Hnew.
  { intros H. apply pair_equal_spec in H as [_ <-]. split; [exact Hc|apply checkpoint_same]. }
  destruct (state_checkpoint (db s)) as [[h expected]|] eqn:E; [|exact Hnew].
  destruct (N.eqb_spec h (tip (db s))) as [->|]; [|exact Hnew]. cbn [negb].
  destruct (String.eqb_spec (state_root (db s)) expected) as [<-|]; [|discriminate]. cbn [negb].
  intros H. apply pair_equal_spec in H as [_ <-]. split; [exact E|done].
Qed.
Lemma startup_err s e s' : startup_state_root_check s = (Err e, s') ->
  s' = s /\ exists expected, state_checkpoint (db s) = Some (tip (db s), expected) /\ expected <> state_root (db s).
Proof.
  unfold startup_state_root_check. cbv zeta. destruct (state_checkpoint (db s)) as [[h expected]|]; [|discriminate].
  destruct (N.eqb_spec h (tip (db s))) as [->|]; [|discriminate]. cbn [negb].
  destruct (String.eqb_spec (state_root (db s)) expected) as [|Hne]; [discriminate|]. cbn [negb].
  intros H. apply pair_equal_spec in H as [_ <-]. eauto.
Qed.

(** A database a node may run on. *)
Definition whole (d : Db) : Prop := is_initialized d = true /\ merkle_ready d = true /\ checkpointed d.
Lemma build_whole h s : is_initialized (db s) = true -> checkpointed (db s) -> whole (db (build_merkle_state h s).2).
Proof.
  intros Hi Hc. destruct (same_state_root (db s) (db (build_merkle_state h s).2)) as [Ht Hr].
  { intros t k Hs Hk _. now apply build_rows. }
  split; [|split].
  - unfold is_initialized. now rewrite Ht.
  - unfold merkle_ready. rewrite rebuild_trees, lookup_insert_eq. reflexivity.
  - unfold checkpointed. rewrite (same_tip _ _ Ht), Hr, <- Hc. unfold state_checkpoint. now rewrite build_rows.
Qed.

Definition DIVERGED : string := "state divergence detected at startup".

(** C16: A node starts on a whole database or not at all.  When the opening of a
    database succeeds, the chain has a genesis, the Merkle tree is built and the
    checkpoint is the root of the state at the tip.  When it fails, either the
    genesis of an empty database was refused, or the state no longer hashes to
    its checkpoint; then nothing but the halt mark is written. *)
Theorem opened_whole_or_halted n :
  match open_chain n with
  | (Ok _, n') => whole (n_db n')
  | (Err e, n') => is_initialized (n_db n) = false \/
      (exists expected, state_checkpoint (n_db n) = Some (tip (n_db n), expected) /\ expected <> state_root (n_db n)) /\
      n_db n' = <[(T_META, "halt_reason") := VBytes DIVERGED]> (n_db n) /\ halted n' = true
  end.
Proof.
  destruct (open_chain n) as [r n'] eqn:E. apply open_cases in E as [(e & n1 & Hi & _ & -> & _)|(n1 & Hn1 & E)]; [now left|].
  assert (is_initialized (n_db n1) = true) as Hi.
  { destruct Hn1 as [[Hi ->]|[_ [b Hg]]]; [exact Hi|]. unfold is_initialized. now rewrite (genesis_tip _ _ _ Hg). }
  destruct (startup_state_root_check (n_store n1)) as [[[]|e] s] eqn:Es.
  - destruct E as [-> ->]. destruct (startup_ok _ _ Es) as (Hc & Ht & _).
    assert (is_initialized (db s) = true) as His by (unfold is_initialized; rewrite Ht; exact Hi).
    destruct (merkle_ready (db s)) eqn:Em; [repeat split; assumption|]. now apply build_whole.
  - destruct E as [-> ->]. destruct (startup_err _ _ _ Es) as [-> He]. destruct Hn1 as [[_ ->]|[Hf _]]; [|now left].
    right. split; [exact He|]. unfold halted, n_db, on_store, set_halt, jput, put, halt_reason. cbn. rewrite db_record.
    split; [reflexivity|]. now rewrite lookup_insert_eq.
Qed.

(** What opening keeps: the node's identity and guard, and typed rows. *)
Lemma genesis_progress n : progress n (on_store (init_genesis (n_genesis n)) n).2 /\ unsigning n (on_store (init_genesis (n_genesis n)) n).2.
Proof.
  unfold on_store. destruct (init_genesis (n_genesis n) (n_store n)) as [r s] eqn:E. split; [|repeat split]. apply progress_store.
  pose proof (run_db (init_genesis (n_genesis n)) (n_store n)) as Hdb. rewrite E in Hdb. cbn [snd] in Hdb. rewrite Hdb. apply final_init_genesis.
Qed.
Lemma startup_final s : keeps_final (db s) (db (startup_state_root_check s).2).
Proof.
  unfold startup_state_root_check. cbv zeta. destruct (state_checkpoint _) as [[h x]|]; [|apply checkpoint_keeps].
  destruct (negb _); [apply checkpoint_keeps|]. destruct (negb _); reflexivity.
Qed.
Lemma build_final h s : keeps_final (db s) (db (build_merkle_state h s).2).
Proof. split; [now apply build_rows|]. intros k v. rewrite build_rows by done. auto. Qed.
Lemma open_keeps n : progress n (open_chain n).2 /\ unsigning n (open_chain n).2.
Proof.
  destruct (open_chain n) as [r n'] eqn:E. cbn [snd].
  destruct (genesis_progress n) as [Hp Hu]. apply open_cases in E as [(e & n1 & _ & Hg & _ & ->)|(n1 & Hn1 & E)]; [now rewrite Hg in Hp, Hu|].
  assert (progress n n1 /\ unsigning n n1) as [Hp1 Hu1]
    by (destruct Hn1 as [[_ ->]|[_ [b Hg]]]; [split; reflexivity|now rewrite Hg in Hp, Hu]).
  pose proof (startup_final (n_store n1)) as Hs.
  destruct (startup_state_root_check (n_store n1)) as [[[]|e] s]; cbn [snd] in Hs; destruct E as [_ ->].
  - pose proof (progress_store s n1 Hs) as Hps. destruct (merkle_ready (db s)).
    + split; [now transitivity n1|]. transitivity n1; [exact Hu1|apply unsigning_store].
    + split; [|transitivity n1; [exact Hu1|repeat split]]. transitivity n1; [exact Hp1|].
      transitivity (with_store s n1); [exact Hps|]. apply progress_store, build_final.
  - split; [|transitivity n1; [exact Hu1|repeat split]]. transitivity n1; [exact Hp1|].
    transitivity (with_store s n1); [now apply progress_store|]. apply progress_store.
    unfold set_halt, jput, put. cbn. rewrite db_record. now apply keeps_final_put.
Qed.

(** The guard a process opens. *)
Definition opened_guard (data : string) (h : Host) (k : Keypair) : SignGuard := SignGuard.open (files h !! guard_path data) (address k).

Lemma started_node {HN : GenesisJson} gp data f fresh write now store h st s' h' :
  start gp data f fresh write now store h = (Ok st, s', h') -> let n := st_node st in
  n_serving_only n = s_replica (st_settings st) /\
  n_sign_guard n = (if s_replica (st_settings st) then None else Some (opened_guard data h' (n_producer n))) /\
  whole (n_db n) /\ (blocks_typed (db store) -> node_typed n).
Proof.
  unfold start. destruct (load_genesis gp f write h) as [[[g a]|e] h1]; [|discriminate].
  destruct (producer_key f data fresh write h1) as [[k|e] h2]; [|discriminate].
  destruct (from_secret_hex (secret_hex k)) as [id|e]; [|discriminate].
  set (s := settings g f h1). set (n0 := assemble now (s_replica s) (network s) (files h2 !! guard_path data) store g k).
  pose proof (open_keeps n0) as [Hp [(H1 & _ & _ & H4) H5]]. pose proof (opened_whole_or_halted n0) as Hw.
  destruct (open_chain n0) as [[[]|e] n]; [|discriminate]. cbn [snd] in *.
  intros H. apply pair_equal_spec in H as [H <-]. apply pair_equal_spec in H as [H _]. injection H as <-.
  cbn [st_node st_settings]. unfold assemble in n0. split; [|split; [|split; [exact Hw|]]].
  - rewrite H4. reflexivity.
  - rewrite H5, H1. subst n0. unfold opened_guard. destruct (s_replica s); reflexivity.
  - intros Hb. apply Hp. split; [|subst n0; destruct (s_replica s); exact Hb].
    subst n0. unfold waiting_typed. destruct (s_replica s); constructor.
Qed.

(** ** The whole life of a key *)

(** The file of a guard says what the guard knows. *)
Definition current (g : SignGuard) : Prop :=
  no_space (sg_address g) = true /\ sg_address g <> "" /\
  (highest g = 0 \/ (raw ← sg_file g; parse raw (sg_address g)) = Some (highest g)).
(** The updates of the guard's file complete. *)
Definition durable (addr : string) (a : Act) : Prop :=
  match a with
  | A_slot _ _ _ (Wrote n) => forall h, h <= U64_MAX -> (slen (guard_body addr h) <= n)%nat
  | A_slot _ _ _ Not_created => False
  | _ => True
  end.
Lemma record_current n h g : current g -> h <= U64_MAX -> (slen (guard_body (sg_address g) h) <= n)%nat -> current (record_height (Wrote n) h g).
Proof.
  intros (Ha & Hne & Hc) Hh Hn. unfold record_height. destruct (h <=? highest g); [repeat split; assumption|].
  split; [exact Ha|]. split; [exact Hne|]. right. cbn [sg_file sg_address highest mbind option_bind].
  rewrite substring_long by exact Hn. now apply parse_body.
Qed.
Lemma reopen_current g : current g -> highest_signed g <= highest_signed (SignGuard.open (sg_file g) (sg_address g)).
Proof.
  unfold highest_signed. intros (_ & _ & [->|E]); [apply N.le_0_l|]. unfold SignGuard.open. rewrite E. apply N.le_refl.
Qed.
Lemma open_current file addr : no_space addr = true -> addr <> "" -> current (SignGuard.open file addr).
Proof.
  intros Ha Hne. split; [exact Ha|]. split; [exact Hne|]. unfold SignGuard.open. cbn [sg_file sg_address highest].
  destruct (raw ← file; parse raw addr) as [h|]; auto.
Qed.

(** A slot in which the node may seal: the block, and the guard after it. *)
Lemma slot_seals now ts seen io w : may_produce now (w_best_peer w) (w_node w) = Ok true ->
  exists b w', slot now ts seen io w = (Ok (Some b), w') /\ b_height b = tip (n_db (w_node w)) +!! 1 /\
    n_sign_guard (w_node w') = record_height io (b_height b) <$> n_sign_guard (w_node w).
Proof.
  intros Hmay. unfold slot, produce_block. rewrite Hmay. destruct (take_batch _ _) as [batch pool].
  pose proof (seal_batch_height (n_producer (w_node w)) (tip (n_db (w_node w)) +!! 1) (tip_hash (n_db (w_node w))) ts batch (n_store (w_node w))) as Hb.
  destruct (seal_batch _ _ _ _ _ _) as [b s]. cbn [fst] in Hb. eexists b, _. split; [reflexivity|]. split; [exact Hb|].
  match goal with |- n_sign_guard (w_node (vote_on b ?w1)) = _ =>
    assert (moved w1 (vote_on b w1)) as Hm by (apply vote_on_moved; unfold typed_block; rewrite Hb; unfold wadd, wrap; apply N.mod_lt; discriminate);
    destruct (unsigning_moved _ _ Hm) as [_ ->] end.
  cbn [w_node announce_block emit with_node]. rewrite replay_votes_guard, Hb.
  cbn [n_sign_guard with_store with_guard with_mempool mark_tip_seen]. now destruct (n_sign_guard (w_node w)).
Qed.
Lemma slot_guard now ts seen io w r w' g : slot now ts seen io w = (r, w') -> n_sign_guard (w_node w) = Some g ->
  (n_sign_guard (w_node w') = Some g \/
   exists h, h <= U64_MAX /\ n_sign_guard (w_node w') = Some (record_height io h g)).
Proof.
  intros E Hg. destruct (may_produce now (w_best_peer w) (w_node w)) as [[]|e] eqn:Hmay.
  - destruct (slot_seals now ts seen io w Hmay) as (b & w2 & E2 & Hb & Hg2). rewrite E in E2. apply pair_equal_spec in E2 as [_ <-].
    rewrite Hg in Hg2. right. exists (b_height b). split; [|exact Hg2]. rewrite Hb. unfold wadd, wrap.
    pose proof (N.mod_lt (tip (n_db (w_node w)) + 1) (2 ^ 64)) as H. change U64_MAX with (2 ^ 64 - 1). lia.
  - left. revert E. unfold slot, produce_block. rewrite Hmay. intros E. apply pair_equal_spec in E as [_ <-]. exact Hg.
  - left. revert E. unfold slot, produce_block. rewrite Hmay. intros E. apply pair_equal_spec in E as [_ <-]. exact Hg.
Qed.
Lemma act_guard fuel s a d b d' g : env_typed -> act_typed a -> node_typed (d_node d) -> act fuel s a d = Some (b, d') ->
  n_sign_guard (d_node d) = Some g -> current g -> durable (sg_address g) a ->
  exists g', n_sign_guard (d_node d') = Some g' /\ current g' /\ sg_address g' = sg_address g.
Proof.
  intros He Ha Hn E Hg Hc Hd. destruct (act_step _ _ _ _ _ _ He Ha Hn E) as [_ [_ Ho]].
  destruct a; try (assert (b = None) as -> by (unfold act in E; try destruct (s_prune s); try destruct (sync_once _ _ _ _); cbn in E; congruence);
    exists g; rewrite Ho; auto; fail).
  unfold act in E. destruct (slot _ _ _ _ _) as [r w] eqn:Es. injection E as <- <-.
  destruct (slot_guard _ _ _ _ _ _ _ _ Es Hg) as [H|(h & Hh & H)]; [exists g; auto|].
  exists (record_height io h g). split; [exact H|]. destruct io as [|n]; [destruct Hd|]. split; [|unfold record_height; now destruct (_ <=? _)].
  apply record_current; [exact Hc|exact Hh|now apply Hd].
Qed.
Lemma run_guard fuel s : env_typed -> forall acts d bs d' g, Forall act_typed acts -> node_typed (d_node d) ->
  run_acts fuel s acts d = Some (bs, d') -> n_sign_guard (d_node d) = Some g -> current g -> Forall (durable (sg_address g)) acts ->
  exists g', n_sign_guard (d_node d') = Some g' /\ current g' /\ sg_address g' = sg_address g /\
    Forall (fun b => b_height b <= highest_signed g') bs /\ highest_signed g <= highest_signed g'.
Proof.
  intros He. induction acts as [|a acts IH]; intros d bs d' g Ha Hn; cbn [run_acts].
  - intros H Hg Hc _. injection H as <- <-. exists g. repeat split; try apply Hc; [exact Hg|constructor|apply N.le_refl].
  - apply Forall_cons in Ha as [Ha Hacts]. destruct (act fuel s a d) as [[b d1]|] eqn:E; [|discriminate]. cbn [mbind option_bind].
    destruct (run_acts fuel s acts d1) as [[bs1 d2]|] eqn:E1; [|discriminate]. cbn [mbind option_bind]. intros H Hg Hc Hd. injection H as <- <-.
    apply Forall_cons in Hd as [Hda Hd].
    destruct (act_guard _ _ _ _ _ _ _ He Ha Hn E Hg Hc Hda) as (g1 & Hg1 & Hc1 & Hs1).
    destruct (act_step _ _ _ _ _ _ He Ha Hn E) as [Hp [_ Ho]]. rewrite <- Hs1 in Hd.
    destruct (IH d1 bs1 d2 g1 Hacts (proj1 (Hp Hn)) E1 Hg1 Hc1 Hd) as (g2 & Hg2 & Hc2 & Hs2 & Hb & Hle).
    exists g2. split; [exact Hg2|]. split; [exact Hc2|]. split; [congruence|]. destruct b as [b|].
    + destruct Ho as [_ Ho]. destruct (Ho g Hg) as (Hlt & g' & Hg' & Hh). assert (g' = g1) as -> by congruence.
      split; [constructor; [rewrite <- Hh; exact Hle|exact Hb]|]. lia.
    + split; [exact Hb|]. assert (g1 = g) as -> by congruence. exact Hle.
Qed.

(** A process from its start, with [file] for its guard, to the daemon it is
    left in: the blocks it sealed. *)
Inductive life {HN : GenesisJson} (fuel : nat) (file : option string) : Started -> list Act -> list Block -> Daemon -> Prop :=
| life_of gp data f fresh write now store h st s' h' acts bs d' :
    start gp data f fresh write now store h = (Ok st, s', h') -> files h' !! guard_path data = file ->
    blocks_typed (db store) -> Forall act_typed acts ->
    run_acts fuel (st_settings st) acts (daemon_of st) = Some (bs, d') -> life fuel file st acts bs d'.

Lemma life_seals {HN : GenesisJson} fuel file st acts bs d' : env_typed -> life fuel file st acts bs d' ->
  let addr := address (n_producer (st_node st)) in
  StronglySorted N.lt (map b_height bs) /\ Forall (fun b => highest_signed (SignGuard.open file addr) < b_height b) bs /\
  forall g, n_sign_guard (d_node d') = Some g -> no_space addr = true -> addr <> "" -> Forall (durable addr) acts ->
    sg_address g = addr /\ current g /\ Forall (fun b => b_height b <= highest_signed g) bs.
Proof.
  intros He [gp data f fresh write now store h st0 s' h' acts0 bs0 d0 Hs Hf Hb Ha Hr] addr.
  destruct (started_node _ _ _ _ _ _ _ _ _ _ _ Hs) as (Hserve & Hg & _ & Ht). specialize (Ht Hb).
  change (st_node st0) with (d_node (daemon_of st0)) in Hserve, Hg, Ht.
  destruct (run_step fuel _ He _ _ _ _ Ha Ht Hr Ht) as (_ & _ & _ & Hreplica & Hseal).
  destruct (s_replica (st_settings st0)).
  - destruct (Hreplica Hserve) as [-> Hsame]. split; [constructor|]. split; [constructor|]. congruence.
  - unfold opened_guard in Hg. rewrite Hf in Hg. destruct (Hseal _ Hg) as [H1 H2]. split; [exact H1|]. split; [exact H2|].
    intros g Hg' Hns Hne Hd.
    destruct (run_guard fuel _ He _ _ _ _ _ Ha Ht Hr Hg) as (g2 & Hg2 & Hc & Hs2 & Hall & _); [now apply open_current|exact Hd|].
    assert (g2 = g) as <- by congruence. split; [exact Hs2|]. split; [exact Hc|exact Hall].
Qed.

(** ** What a replica still does *)

(** A replica whose key is bonded votes on the blocks it imports all the same. *)
Lemma replica_votes b w : n_serving_only (w_node w) = true -> is_bonded_validator (w_node w) = true -> halted (w_node w) = false ->
  exists v, vote_hash v = b_hash b /\ voter_pubkey v = pubkey_hex (n_producer (w_node w)) /\
    w_sent (vote_on b w) = w_sent w ++ [Broadcast (msg_vote v)].
Proof.
  intros _ Hbond Hhalt. unfold vote_on. rewrite Hbond, Hhalt. cbn [negb orb]. cbv zeta.
  match goal with |- context [Broadcast (msg_vote ?v)] => exists v end. split; [reflexivity|]. split; [reflexivity|].
  unfold add_vote. destruct (add _ _ _) as [[r t] s]. reflexivity.
Qed.
End steps.

(** ** Examples *)

Module Daemon_example.
Import Toy Toy_field Exec_example P2p_example.
#[local] Existing Instance P2p_example.env.
#[local] Existing Instance Rpc_example.toy_serde.
#[local] Existing Instance Http_example.toy_text.
#[local] Instance toy_genesis : GenesisJson := {| genesis_of_text _ := Ok genesis; genesis_text _ := "genesis" |}.

Definition validator : Keypair := {| signing := "0123456789abcdef0123456789abcdef" |}.
Definition flags : Flags := {[ "key" := secret_hex validator ]}.
Definition disk (guard : option string) : Host := {| vars := ∅;
  files := match guard with Some t => {[ "genesis.json" := "genesis"; "./data.signguard" := t ]} | None => {[ "genesis.json" := "genesis" ]} end |}.
Definition boot (store : Store) (guard : option string) : result Started * Store * Host :=
  start "genesis.json" "./data" flags validator (Ok tt) 1000 store (disk guard).
(** A database restored at height 4. *)
Definition restored : Store := mk P2p_example.d0 [].

Definition slots : list Act := [A_slot 1000 1001 1002 (Wrote 200); A_unjail].
Definition left_file : string := guard_body (address validator) 1.

Lemma empty_typed : blocks_typed (db empty_store).
Proof. intros h b. unfold block, empty_store. cbn [db]. rewrite lookup_empty. discriminate. Qed.
Lemma slots_typed : Forall act_typed slots.
Proof. repeat (apply Forall_cons; split; [exact I|]). apply Forall_nil. exact I. Qed.

Lemma restored_typed : blocks_typed (db restored).
Proof. exact (proj2 world_typed). Qed.
Lemma slots_durable : Forall (durable (address validator)) slots.
Proof.
  assert (forall h, h <= U64_MAX -> (slen (guard_body (address validator) h) <= 200)%nat) as H.
  { intros h Hh. unfold guard_body. rewrite !slen_append. assert (slen (dec h) <= 20)%nat as Hd.
    { apply slen_dec_le; [|lia]. apply (N.le_lt_trans _ _ _ Hh). reflexivity. }
    replace (slen (address validator)) with 64%nat by (vm_compute; reflexivity). change (slen " ") with 1%nat. change (slen newline) with 1%nat. lia. }
  repeat (apply Forall_cons; split; [exact I || exact H|]). apply Forall_nil. exact I.
Qed.

(** A process on an empty disk, and one on a restored database with the guard
    the first leaves, may seal at once. *)
Lemma ready store guard height : store = empty_store /\ guard = None /\ height = 1 \/ store = restored /\ guard = Some left_file /\ height = 5 ->
  exists st s' h', boot store guard = (Ok st, s', h') /\ may_produce 1000 0 (st_node st) = Ok true /\ tip (n_db (st_node st)) +!! 1 = height.
Proof.
  intros H. assert (match (boot store guard).1.1 with Ok st => may_produce 1000 0 (st_node st) = Ok true /\ tip (n_db (st_node st)) +!! 1 = height | Err _ => False end) as Hb
    by (destruct H as [(-> & -> & ->)|(-> & -> & ->)]; vm_compute; split; reflexivity).
  destruct (boot store guard) as [[[st|e] s'] h']; [|destruct Hb]. exists st, s', h'. split; [reflexivity|exact Hb].
Qed.

(** The host a start leaves, and the node it starts. *)
Lemma boot_host store guard st s' h' : boot store guard = (Ok st, s', h') -> h' = disk guard /\ n_producer (st_node st) = validator /\
  n_sign_guard (st_node st) = Some (SignGuard.open guard (address validator)).
Proof.
  intros Hb. assert (h' = disk guard /\ n_producer (st_node st) = validator /\ s_replica (st_settings st) = false) as (-> & Hk & Hr).
  { revert Hb. unfold boot, start. replace (load_genesis "genesis.json" flags (Ok ()) (disk guard)) with (Ok (genesis, None : option N) : result (Genesis * option N), disk guard)
      by (unfold load_genesis; destruct guard; reflexivity).
    replace (producer_key flags "./data" validator (Ok ()) (disk guard)) with (Ok validator : result Keypair, disk guard) by reflexivity.
    replace (from_secret_hex (secret_hex validator)) with (Ok validator : result Keypair) by (vm_compute; reflexivity). cbv zeta.
    match goal with |- context [open_chain ?n] => pose proof (open_keeps n) as [_ [(Hk & _) _]]; destruct (open_chain n) as [[[]|e] n1] end; [|discriminate].
    intros H. apply pair_equal_spec in H as [H <-]. apply pair_equal_spec in H as [H _]. injection H as <-. repeat split. exact Hk. }
  split; [reflexivity|]. split; [exact Hk|]. destruct (started_node _ _ _ _ _ _ _ _ _ _ _ Hb) as (_ & Hg & _). rewrite Hr in Hg.
  rewrite Hg, Hk. unfold opened_guard. destruct guard; reflexivity.
Qed.

(** Both lives seal one block: the first height 1, the second height 5. *)
Lemma lived store guard height : store = empty_store /\ guard = None /\ height = 1 \/ store = restored /\ guard = Some left_file /\ height = 5 ->
  exists st s' h' bs d', boot store guard = (Ok st, s', h') /\ run_acts 3 (st_settings st) slots (daemon_of st) = Some (bs, d') /\
    map b_height bs = [height] /\ life 3 guard st slots bs d' /\ n_producer (st_node st) = validator /\
    n_sign_guard (d_node d') = Some (record_height (Wrote 200) height (SignGuard.open guard (address validator))).
Proof.
  intros Hc. destruct (ready store guard height Hc) as (st & s' & h' & Hb & Hmay & Htip).
  destruct (boot_host _ _ _ _ _ Hb) as (Hh & Hk & Hg).
  destruct (slot_seals 1000 1001 1002 (Wrote 200) (d_world (daemon_of st)) Hmay) as (b & w & Es & Hheight & Hguard).
  change (w_node (d_world (daemon_of st))) with (st_node st) in *. rewrite Htip in Hheight. rewrite Hg, Hheight in Hguard.
  set (d' := on_world unjail_pass (on_world (fun _ => w) (daemon_of st))).
  assert (run_acts 3 (st_settings st) slots (daemon_of st) = Some ([b], d')) as Hr.
  { unfold slots. cbn [run_acts act]. rewrite Es. reflexivity. }
  exists st, s', h', [b], d'. split; [exact Hb|]. split; [exact Hr|]. split; [cbn [map]; now rewrite Hheight|]. split; [|split; [exact Hk|]].
  - apply (life_of _ _ "genesis.json" "./data" flags validator (Ok tt) 1000 store (disk guard) st s' h'); [exact Hb| | |exact slots_typed|exact Hr].
    + rewrite Hh. destruct guard; reflexivity.
    + destruct Hc as [(-> & _)|(-> & _)]; [exact empty_typed|exact restored_typed].
  - destruct (unjail_outcome w) as [_ [_ Hu]]. change (d_node d') with (w_node (unjail_pass w)). now rewrite Hu.
Qed.

End Daemon_example.
