(* ===== verification/Threads.v ===== *)
(** The threads of a running node, at the grain of its locks: what one thread
    does between taking and dropping [exec_lock], and what it does without it,
    are the steps; every order of them is a run. *)

From S2P Require Import Prelude Bytes Crypto Types TypesFacts Journal Store Smt SmtFacts Poseidon Shielded State StateFacts Fees Staking Tokens.
From S2P Require Import Slashing Votes VotesFacts Mempool Contracts SignGuard Circuit Exec ExecFacts Chain ChainFacts Mirror Snapshot SnapshotFacts Simulate.
From S2P Require Import Limits Access Rpc RpcFacts Transport Ws Events P2p P2pFacts Text Http HttpFacts Byzantine Cli Daemon DaemonFacts.
From Stdlib Require Import Ascii.
From Stdlib Require String.

Section threads.
Context {HC : Crypto} {HF : Fr} {HK : Compression} {HP : ChainParams} {HJ : EvidenceJson} {HW : Wasm} {HG : Groth16} {HS : Serde}.
Context {HT : JsonText} {HE : Env}.

(** ** Sections *)

(** A store whose mark of pruned history an aborted block put back. *)
Definition unmarked (d : Db) (s : Store) : Store :=
  mk (partial_alter (fun _ => d !! (T_META, "pruned_below")) (T_META, "pruned_below") (db s)) (Journal.frames s).

(** One section, with the block it sealed.  Sealing, importing, wiping and
    admitting hold [exec_lock]; writing a genesis, counting a vote, halting,
    resuming and pruning do not, and the latter four may fall inside the
    execution of a block by another thread.  Then a vote is counted against the
    half-executed store, any store [s0] here, and the finalized height it writes
    is kept with the block or, when the block is rejected, undone with it; so is
    the mark of a pruning.  A halt or a resume that is undone is no step at all. *)
Inductive section : option Block -> Node -> Node -> Prop :=
| sec_slot now ts seen best io n r n' : produce_block now ts seen best io n = (r, n') ->
    section (match r with Ok b => b | Err _ => None end) n n'
| sec_gossip n n' : node_step n n' -> section None n n'
| sec_call n n' : call_step n n' -> section None n n'
| sec_wipe h n : section None n (wipe_chain h n).2
| sec_regenerate now n : section None n (regenerate now n).2
| sec_vote_amid v (kept : bool) n r t s0 s0' : typed_vote v -> add (n_votes n) s0 v = (r, t, s0') ->
    section None n (with_votes t (with_store (if kept then (set_finalized_height (vote_height v) (n_store n)).2 else n_store n) n))
| sec_prune_undone below n :
    section None n (with_store (unmarked (n_db n) (prune_blocks below (n_store n)).2) n).

(** Any number of sections, in any order, with the blocks they sealed. *)
Inductive interleaved : Node -> list Block -> Node -> Prop :=
| il_nil n : interleaved n [] n
| il_cons b n n1 bs n' : section b n n1 -> interleaved n1 bs n' -> interleaved n (option_list b ++ bs) n'.

Lemma il_app n1 bs1 n2 bs2 n3 : interleaved n1 bs1 n2 -> interleaved n2 bs2 n3 -> interleaved n1 (bs1 ++ bs2) n3.
Proof. induction 1 as [n|b n n1 bs n' Hs _ IH]; [done|]. intros H. rewrite <- app_assoc. exact (il_cons b _ _ _ _ Hs (IH H)). Qed.
Lemma il_one b n n' : section b n n' -> interleaved n (option_list b) n'.
Proof. intros H. rewrite <- (app_nil_r (option_list b)). exact (il_cons _ _ _ _ _ H (il_nil _)). Qed.
Lemma il_moved w w' : moved w w' -> interleaved (w_node w) [] (w_node w').
Proof. unfold moved. induction 1 as [n|n1 n2 n3 H _ IH]; [constructor|]. exact (il_cons None _ _ _ _ (sec_gossip _ _ H) IH). Qed.

(** ** What the threads do is made of sections *)

Lemma slot_sections now ts seen io w r w' : slot now ts seen io w = (r, w') ->
  interleaved (w_node w) (option_list (match r with Ok b => b | Err _ => None end)) (w_node w').
Proof.
  unfold slot. destruct (produce_block _ _ _ _ _ _) as [r2 n] eqn:E. intros H. apply pair_equal_spec in H as [<- <-].
  destruct (produce_step _ _ _ _ _ _ _ _ E) as (_ & _ & Ht). apply sec_slot in E. destruct r2 as [[b|]|e]; [|now apply il_one..].
  apply (il_cons (Some b) _ n []); [exact E|]. apply (il_moved (announce_block b (with_node n w))), vote_on_moved. now apply Ht.
Qed.
Lemma unjail_sections w : section None (w_node w) (w_node (unjail_pass w)).
Proof.
  apply sec_call, cs_pool. unfold unjail_pass. cbn [w_node with_node]. unfold try_self_unjail.
  destruct (_ || _); [apply pool_refl|]. destruct (_ && _); [apply pool_refl|].
  match goal with |- context [accept_tx ?t ?n] => pose proof (accept_pool t n) as H; now destruct (accept_tx t n) as [[h|e] n'] end.
Qed.

(** Every act that finishes is a sequence of sections. *)
Lemma act_sections fuel s a d b d' : env_typed -> act_typed a -> node_typed (d_node d) -> act fuel s a d = Some (b, d') ->
  interleaved (d_node d) (option_list b) (d_node d').
Proof.
  intros He Ha Hn. unfold act, d_node. destruct a; cbn [act_typed] in Ha.
  - destruct (slot _ _ _ _ _) as [r w] eqn:E. intros H. injection H as <- <-. exact (slot_sections _ _ _ _ _ _ _ E).
  - intros H. injection H as <- <-. cbn [d_world on_world]. apply il_moved. unfold heartbeat.
    destruct (_ && _); [now apply sync_votes_moved|reflexivity].
  - destruct (sync_once _ _ _ _) as [w|] eqn:E; [|discriminate]. intros H. injection H as <- <-. apply il_moved.
    exact (sync_once_moved _ _ _ _ _ He Hn E).
  - intros H. injection H as <- <-. apply il_moved. now apply handle_conn_moved.
  - intros H. injection H as <- <-. cbn [d_world]. rewrite announce_all_node. apply (il_one None), sec_call, request_step.
  - intros H. injection H as <- <-. cbn [d_world]. rewrite announce_all_node.
    apply (il_one None), sec_call. apply (message_step x text o conn pipe (Build_Shared (w_node (d_world d)) (d_cfg d) (d_bus d) [])).
  - destruct (s_prune s) as [keep|]; intros H; injection H as <- <-; [|constructor].
    apply (il_one None), sec_call. apply (cs_prune (sat_sub (finalized_height (n_db (w_node (d_world d)))) keep)).
  - intros H. injection H as <- <-. apply (il_one None), unjail_sections.
Qed.
Lemma acts_sections fuel s : env_typed -> forall acts d bs d', Forall act_typed acts -> node_typed (d_node d) ->
  run_acts fuel s acts d = Some (bs, d') -> interleaved (d_node d) bs (d_node d').
Proof.
  intros He. induction acts as [|a acts IH]; intros d bs d' Ha Hn; cbn [run_acts]; [intros H; injection H as <- <-; constructor|].
  apply Forall_cons in Ha as [Ha Hacts]. destruct (act fuel s a d) as [[b d1]|] eqn:E; [|discriminate]. cbn [mbind option_bind].
  destruct (run_acts fuel s acts d1) as [[bs1 d2]|] eqn:E1; [|discriminate]. cbn [mbind option_bind]. intros H. injection H as <- <-.
  destruct (act_step fuel s a d b d1 He Ha Hn E) as [Hp _]. pose proof (act_sections _ _ _ _ _ _ He Ha Hn E) as H1.
  pose proof (il_app _ _ _ _ _ H1 (IH d1 bs1 d2 Hacts (proj1 (Hp Hn)) E1)) as H. now destruct b.
Qed.

(** ** Every section is safe *)

Lemma counted_raise h s : h < 2 ^ 64 -> counted (db s) (db (set_finalized_height h s).2).
Proof. intros Hh. split; [rewrite finalized_after by exact Hh; lia|]. intros k. apply block_after_finalized. Qed.
Lemma amid_progress v (kept : bool) n r t s0 s0' : typed_vote v -> add (n_votes n) s0 v = (r, t, s0') ->
  progress n (with_votes t (with_store (if kept then (set_finalized_height (vote_height v) (n_store n)).2 else n_store n) n)).
Proof.
  intros Hv E. apply progress_counted. intros [Hw _]. split; [exact (proj1 (add_progress _ _ _ _ _ _ Hv E Hw))|].
  destruct kept; [now apply counted_raise|done].
Qed.
Lemma unmarked_final d s : keeps_final (db s) (db (unmarked d s)).
Proof.
  unfold unmarked. cbn [db]. split; [now apply lookup_partial_alter_ne|].
  intros k v. rewrite lookup_partial_alter_ne by discriminate. auto.
Qed.

Lemma section_step b n n' : section b n n' -> progress n n' /\ outcome b n n'.
Proof.
  destruct 1 as [now ts seen best io n r n' E|n n' H|n n' H|h n|now n|v kept n r t s0 s0' Hv E|below n].
  - apply produce_step in E as (H1 & H2 & _). now split.
  - split; [now apply step_progress|now apply quiet_outcome, unsigning_node_step].
  - now apply call_outcome.
  - split; [apply wipe_progress|apply quiet_outcome, unsigning_wipe].
  - split; [apply regenerate_progress|apply quiet_outcome, unsigning_regenerate].
  - split; [exact (amid_progress v kept n r t s0 s0' Hv E)|apply quiet_outcome; repeat split].
  - split; [|apply quiet_outcome; repeat split]. apply progress_store. etransitivity; [apply prune_final|apply unmarked_final].
Qed.
Lemma interleaved_run n bs n' : interleaved n bs n' -> safe_run n bs n'.
Proof. induction 1 as [n|b n n1 bs n' H _ IH]; [apply safe_nil|]. destruct (section_step _ _ _ H). now apply (safe_cons b n n1). Qed.

(** C11: However the threads of a node interleave, its key signs each height once.
    Threads take turns at the grain of [exec_lock]: between any two sections of
    one thread any sections of others may run, so a connection or a catch-up,
    even one that never ends, is interleaved with sealing, votes, prunings,
    halts and the two halves of a reset.  Along any such run the heights the
    node seals strictly increase and are all above what its guard had recorded;
    key, genesis and mode stay; a replica seals nothing; and the finalized
    height read while no block is being executed only grows (a height finalized
    while an import is under way is undone with the import if that fails, see
    [vote_undone]).  Every act of the daemon that finishes is such a run. *)
Theorem interleavings_safe n bs n' (Htyped : node_typed n) (Hrun : interleaved n bs n') :
  (forall g, n_sign_guard n = Some g ->
    StronglySorted N.lt (map b_height bs) /\ Forall (fun b => highest_signed g < b_height b) bs) /\
  final_of n <= final_of n' /\ same_identity n n' /\ (n_serving_only n = true -> bs = []) /\
  (forall fuel s acts d sealed d', env_typed -> Forall act_typed acts -> d_node d = n' ->
    run_acts fuel s acts d = Some (sealed, d') -> interleaved n (bs ++ sealed) (d_node d')).
Proof.
  destruct (interleaved_run n bs n' Hrun Htyped) as (H0 & H1 & H2 & H3 & H4). split; [exact H4|]. split; [exact H1|]. split; [exact H2|].
  split; [intros Hs; now apply H3|]. intros fuel s acts d sealed d' He Ha <- E. exact (il_app _ _ _ _ _ Hrun (acts_sections fuel s He acts d sealed d' Ha H0 E)).
Qed.

(** ** Writes outside the lock *)

(** What a thread writes without the lock while another executes a block that is
    then rejected is undone with the block: the journal is one for the store. *)
Definition quietly {A} (m : M A) : M unit := fun s => (Ok tt, (m s).2).
#[local] Instance journaled_quietly {A} (m : M A) : Journaled m -> Journaled (quietly m).
Proof. intros Hm d. destruct (Hm d) as (r & ws & Hr). exists (Ok tt), ws. intros fr. unfold quietly. now rewrite Hr. Qed.
Lemma abort_undoes {A B} (w : M A) (m : M B) `{!Journaled w} `{!Journaled m} s : abort_block (m (w (begin_block s)).2).2 = s.
Proof. exact (journaled_rollback (quietly w ;; m) s). Qed.

(** A height finalized by a vote that arrives while an import runs is finalized
    no more once the import fails. *)
Lemma vote_undone h (import : M unit) `{!Journaled import} s : h < 2 ^ 64 -> finalized_height (db s) < h ->
  let s1 := (set_finalized_height h (begin_block s)).2 in
  finalized_height (db s1) = h /\ finalized_height (db (abort_block (import s1).2)) < h.
Proof.
  intros Hh Hlt s1. unfold s1. rewrite finalized_after by exact Hh. change (db (begin_block s)) with (db s).
  split; [lia|]. now rewrite abort_undoes by apply _.
Qed.
(** An operator's halt that arrives while an import runs is gone once it fails. *)
Lemma halt_undone reason (import : M unit) `{!Journaled import} s : halt_reason (db s) = None ->
  let s1 := (set_halt reason (begin_block s)).2 in
  halt_reason (db s1) = Some reason /\ halt_reason (db (abort_block (import s1).2)) = None.
Proof.
  intros Hn s1. split; [|unfold s1; now rewrite abort_undoes by apply _].
  unfold s1, set_halt, jput, put, halt_reason. cbn. now rewrite lookup_insert_eq.
Qed.
(** The genesis a reset writes without the lock is gone once the import of any
    block by another thread, open at that moment, fails; and on a store without a
    chain every import fails. *)
Lemma genesis_undone g s : abort_block (init_genesis g (begin_block s)).2 = s.
Proof. exact (abort_undoes (init_genesis g) (mret tt) s). Qed.
Lemma blank_rejects cpus clock b n : tip_height (n_db n) = None -> halted n = false -> exists e, import_block cpus clock b n = (Err e, n).
Proof.
  intros Ht Hh. destruct (import_block cpus clock b n) as [[ok|e] n'] eqn:E; [|exists e; f_equal; now apply rejected_import in E].
  exfalso. unfold import_block in E. unfold halted in Hh. destruct (halt_reason (n_db n)); [discriminate|].
  unfold import_block_inner, import_checks in E. change (n_db (with_store (begin_block (n_store n)) n)) with (n_db n) in E. now rewrite Ht in E.
Qed.
End threads.

(** ** Examples *)

Module Threads_example.
Import Toy Toy_field Exec_example P2p_example Daemon_example.
#[local] Existing Instance P2p_example.env.
#[local] Existing Instance Rpc_example.toy_serde.
#[local] Existing Instance Http_example.toy_text.
#[local] Existing Instance Daemon_example.toy_genesis.

(** A process on a restored database seals height 5, a vote arrives while an
    import of another thread is under way and is undone with it, a caller prunes
    and a peer's claim wipes the chain; then the thread of the reset is still to
    write its genesis. *)
Definition late_vote : Vote := Build_Vote 5 "" (pubkey_hex validator) "".
Lemma interleavings_safe_witness : exists st s' h' bs n', boot restored (Some left_file) = (Ok st, s', h') /\
  interleaved (st_node st) bs n' /\ map b_height bs = [5] /\ Forall (fun b => 1 < b_height b) bs /\ final_of (st_node st) <= final_of n'.
Proof.
  destruct (lived restored (Some left_file) 5) as (st & s' & h' & bs & d' & Hb & Hr & Hh & _); [auto|].
  destruct (started_node _ _ _ _ _ _ _ _ _ _ _ Hb) as (_ & _ & _ & Ht). destruct (boot_host _ _ _ _ _ Hb) as (_ & _ & Hg). specialize (Ht restored_typed).
  pose proof (acts_sections 3 _ answers_typed slots (daemon_of st) bs d' slots_typed Ht Hr) as H1. change (d_node (daemon_of st)) with (st_node st) in H1.
  destruct (add (n_votes (d_node d')) (n_store (d_node d')) late_vote) as [[r t] s0'] eqn:Ea.
  assert (typed_vote late_vote) as Hv by reflexivity. pose proof (sec_vote_amid late_vote false (d_node d') r t _ s0' Hv Ea) as H2.
  match type of H2 with section _ _ ?x => set (n2 := x) in *; pose proof (sec_call n2 _ (cs_prune 5 n2)) as H3 end.
  match type of H3 with section _ _ ?x => set (n3 := x) in *; pose proof (sec_wipe 9 n3) as H4 end.
  exists st, s', h', (bs ++ []), (wipe_chain 9 n3).2.
  assert (interleaved (st_node st) (bs ++ []) (wipe_chain 9 n3).2) as Hrun.
  { apply (il_app _ _ _ _ _ H1). apply (il_cons None _ n2 []); [exact H2|]. apply (il_cons None _ n3 []); [exact H3|]. exact (il_one None _ _ H4). }
  destruct (interleavings_safe (st_node st) (bs ++ []) _ Ht Hrun) as (Hs & Hf & _). destruct (Hs _ Hg) as [_ Habove].
  replace (highest_signed (SignGuard.open (Some left_file) (address validator))) with 1 in Habove by (vm_compute; reflexivity).
  split; [exact Hb|]. split; [exact Hrun|]. split; [now rewrite app_nil_r|]. split; [exact Habove|exact Hf].
Defined.
End Threads_example.
