(* ===== verification/ConsoleFacts.v ===== *)
(** What the commands of the operator show is what the node has: from the reply
    of a node to the text on the terminal.  The benchmark comes to an end.  Where
    the screen of a running node says something else than the chain. *)

From S2P Require Import Prelude Bytes Crypto Types TypesFacts Journal Store Smt Poseidon Shielded State StateFacts Fees Staking StakingFacts Tokens Slashing Votes.
From S2P Require Import Mempool MempoolFacts Contracts SignGuard Circuit Exec ExecFacts Chain ChainFacts Simulate Limits Access Rpc RpcFacts Ws Events P2p Text.
From S2P Require Import Http HttpFacts Cli CliFacts Client ClientFacts Log Ui Console Daemon DaemonFacts Screen.
From Stdlib Require Import Ascii.
From Stdlib Require String.

Ltac listed_not := apply (bool_decide_eq_true_1 _); vm_compute; reflexivity.

(** ** Reading commands *)

Section node.
Context {HC : Crypto} {HF : Fr} {HK : Compression} {HP : ChainParams} {HJ : EvidenceJson} {HW : Wasm} {HG : Groth16} {HS : Serde} {HT : JsonText}.
Context (x : Process) (ip : IpAddr) (credential : option string).

(** A call that only reads brings the reply of the dispatch and leaves the node. *)
Lemma asked_reads f method params r n c v s' :
  method ∉ PRIVILEGED_METHODS -> method ∉ ["inaz_rpcLimits"; "inaz_halt"; "inaz_resume"; "inaz_prune"; "inaz_netInfo"] ->
  reads x method (JObj params) n = Some r -> asked (node_post x ip credential) f method params (n, c) = (Ok v, s') ->
  r = Ok v /\ s'.1 = n.
Proof.
  intros H1 H2 Hr H. destruct s' as [n' c']. unfold asked in H. apply call_served in H as (c1 & r1 & c2 & Hd & Ha & <- & _); [|done].
  apply read_served in Hd as [E1 E2]; [|done|now rewrite Ha]. rewrite E2. unfold dispatch in *. rewrite Hr in *. cbn [answer left_node] in *.
  split; [congruence|reflexivity].
Qed.

Lemma each_line {A : Type} k (line : JValue -> string) (g : A -> JValue) l v : arr_param k v = Some (map g l) ->
  each k line v = foldr (fun a out => put_line (line (g a)) +:+ out) "" l.
Proof. unfold each. intros ->. induction l as [|a l IH]; [done|]. cbn [map foldr]. now rewrite IH. Qed.
Definition account_line (n : Node) (addr : string) : string :=
  let a := account addr (n_db n) in
  addr +:+ " => " +:+ format_inaz (balance a) +:+ " INAZ (staked " +:+ format_inaz (staked a) +:+ ", unbonding " +:+
  format_inaz (unbonding_total a) +:+ ", rewards " +:+ format_inaz (rewards a) +:+ ", nonce " +:+ json_text (jn (Types.nonce a)) +:+ ")".
Lemma balance_shows f addr n c out s' : f !! "address" = Some addr ->
  balance_cmd (node_post x ip credential) f (n, c) = (Ok out, s') -> s'.1 = n /\ out = put_line (account_line n addr).
Proof.
  intros Ha H. unfold balance_cmd in H. apply (io_step _ addr) in H; [|unfold need; now rewrite Ha].
  apply io_bind_inv in H as (v & s1 & H1 & H). apply pair_equal_spec in H as [H <-]. injection H as <-.
  apply (asked_reads _ _ _ (get_account (JObj [("address", JStr addr)]) n)) in H1 as [H1 Hn]; [|listed_not|listed_not|reflexivity].
  split; [exact Hn|]. f_equal. unfold get_account in H1. change (str_param "address" (JObj [("address", JStr addr)])) with (Some addr) in H1.
  cbn [ok_or mbind result_bind] in H1. destruct (negb (is_valid_address addr)); [discriminate H1|]. injection H1 as <-. reflexivity.
Qed.

Definition status_shown (url : string) (n : Node) : string :=
  let d := n_db n in
  (put_line ("rpc            " +:+ url) +:+
  put_line ("chain id       " +:+ json_text (jn (g_chain_id (n_genesis n)))) +:+
  put_line ("role           " +:+ (if n_serving_only n then "replica" else "validator")) +:+
  put_line ("height         " +:+ dec (tip d)) +:+
  put_line ("finalized      " +:+ dec (finalized_height d)) +:+
  put_line ("peers          " +:+ json_text (jn (x_peers x))) +:+
  put_line ("mempool        " +:+ json_text (jn (mempool_size n))) +:+
  put_line ("sync           " +:+ (if (0 <? x_peers x) && behind_tip (x_now x) n then "syncing — do not stake yet" else "in sync"))) +:+
  put_line "network tip    (skipped — pass --compare to query the public RPC)".
Lemma status_shows f h n c out s' : has "compare" f = false -> vars h !! "INAZ_STATUS_COMPARE" = None ->
  status_cmd (node_post x ip credential) f h (n, c) = (Ok out, s') -> s'.1 = n /\ out = status_shown (rpc_url f) n.
Proof.
  intros Hf Hh H. unfold status_cmd in H. apply io_bind_inv in H as (v & s1 & H1 & H). rewrite Hf, Hh in H. cbn [orb] in H.
  apply pair_equal_spec in H as [H <-]. injection H as <-.
  apply (asked_reads _ _ _ (Ok (node_status x n))) in H1 as [H1 Hn]; [|listed_not|listed_not|reflexivity]. injection H1 as <-.
  split; [exact Hn|]. unfold status_lines, status_shown.
  change (u64_param "height" (node_status x n)) with (Rpc.as_u64 (jn (tip (n_db n)))).
  change (u64_param "finalizedHeight" (node_status x n)) with (Rpc.as_u64 (jn (finalized_height (n_db n)))).
  rewrite !jn_reads by (apply tip_bound || apply finalized_bound). reflexivity.
Qed.

Definition validators_shown (n : Node) : string :=
  let set := validators n in
  put_line ("validators   " +:+ json_text (jlen set)) +:+
  put_line ("total stake  " +:+ format_inaz (total_stake set) +:+ " INAZ") +:+
  put_line ("min stake    " +:+ format_inaz MIN_STAKE +:+ " INAZ") +:+
  put_line ("next leader  " +:+ default "(bootstrap)" (next_leader (x_now x) n)) +:+
  foldr (fun v out => put_line ("  " +:+ v_address v +:+ "  " +:+ format_inaz (v_stake v) +:+ " INAZ  " +:+
    json_text (JFloat (pct_of (v_stake v) (total_stake set))) +:+ "%  blocks " +:+ json_text (jn (v_blocks_produced v)) +:+ "  rewards " +:+
    format_inaz (v_rewards v) +:+ " INAZ") +:+ out) "" set.
Lemma validators_shows f n c out s' : validators_cmd (node_post x ip credential) f (n, c) = (Ok out, s') -> s'.1 = n /\ out = validators_shown n.
Proof.
  intros H. unfold validators_cmd in H. apply io_bind_inv in H as (v & s1 & H1 & H). apply pair_equal_spec in H as [H <-]. injection H as <-.
  apply (asked_reads _ _ _ (Ok (validators_info x n))) in H1 as [H1 Hn]; [|listed_not|listed_not|reflexivity]. injection H1 as <-.
  split; [exact Hn|]. unfold validators_lines, validators_shown. erewrite (each_line "validators" _ _ (validators n) (validators_info x n)); [|reflexivity].
  replace (text_or "(bootstrap)" "nextLeader" (validators_info x n)) with (default "(bootstrap)" (next_leader (x_now x) n)); [reflexivity|].
  unfold text_or. change (str_param "nextLeader" (validators_info x n)) with (as_str (jopt JStr (next_leader (x_now x) n))). now destruct (next_leader _ n).
Qed.

(** C27: The commands of an operator show what the node has.  Whatever [balance],
    [status] and [validators] print when they succeed is the account, the heights
    and the validator set in the store of the node that answered, and the node
    keeps the state it had. *)
Theorem commands_show_state f h n c (post := node_post x ip credential) :
  (forall addr out s', f !! "address" = Some addr -> balance_cmd post f (n, c) = (Ok out, s') ->
    s'.1 = n /\ out = put_line (account_line n addr)) /\
  (forall out s', has "compare" f = false -> vars h !! "INAZ_STATUS_COMPARE" = None -> status_cmd post f h (n, c) = (Ok out, s') ->
    s'.1 = n /\ out = status_shown (rpc_url f) n) /\
  (forall out s', validators_cmd post f (n, c) = (Ok out, s') -> s'.1 = n /\ out = validators_shown n).
Proof.
  split; [|split].
  - intros addr out s'. apply balance_shows.
  - intros out s'. apply status_shows.
  - intros out s'. apply validators_shows.
Qed.

(** ** The screen of a running node *)

Lemma jailed_inactive a h : is_jailed a h = true -> h < TOMBSTONE_HEIGHT -> is_active_validator a h = false.
Proof.
  unfold is_jailed, is_active_validator. intros Hj Hh. destruct (is_validator a); [|now destruct (tombstoned _)].
  destruct (tombstoned (penalties a)); [done|]. cbn [andb orb negb] in *. destruct (N.eqb_spec (jailed_until (penalties a)) TOMBSTONE_HEIGHT) as [->|Hne].
  - destruct (downtime_jail_enabled h); [|done]. cbn [negb]. now apply N.leb_gt.
  - apply andb_prop in Hj as [-> Hj]. apply N.ltb_lt in Hj. cbn [negb]. now apply N.leb_gt.
Qed.
Lemma validator_active v n : v ∈ validators n ->
  v = to_validator (v_address v, account (v_address v) (n_db n)) /\ is_active_validator (account (v_address v) (n_db n)) (next_height (n_db n)) = true.
Proof. intros H. apply set_member, elem_of_active in H as (addr & -> & _ & Ha). split; [reflexivity|exact Ha]. Qed.
Lemma find_me n v : List.find (fun v => String.eqb (v_address v) (me_of n)) (validators n) = Some v ->
  v = to_validator (me_of n, account (me_of n) (n_db n)) /\ is_active_validator (account (me_of n) (n_db n)) (next_height (n_db n)) = true.
Proof.
  intros H. apply find_some in H as [Hin He]. apply String.eqb_eq in He. apply list_elem_of_In, validator_active in Hin. now rewrite He in Hin.
Qed.

(** A jailed node never reports that it is jailed: the beat looks for it in the
    active set, which has no jailed validators.  And once a jail is over, the
    node is active again but is not reported to be validating. *)
Theorem jail_not_shown npeers best n (a := account (me_of n) (n_db n)) : next_height (n_db n) < TOMBSTONE_HEIGHT ->
  (is_jailed a (next_height (n_db n)) = true -> jailed (beat_of npeers best n) = false) /\
  (jailed_until (penalties a) <> 0 -> validating (beat_of npeers best n) = false).
Proof.
  intros Hh. unfold beat_of. cbn [jailed validating]. destruct (List.find _ (validators n)) as [v|] eqn:E; [|done].
  apply find_me in E as [-> Ha]. fold a in Ha |- *. split.
  - intros Hj. rewrite (jailed_inactive a _ Hj Hh) in Ha. discriminate Ha.
  - intros Hj. now apply N.eqb_neq.
Qed.
(** Before a peer is heard of, the first beat reports that the chain is in sync. *)
Lemma synced_before_peers p hud t now ms npeers n k : k_synced k = false -> BEAT_EVERY hud <= now - k_beat_at k ->
  exists line, (beat_text p hud t now ms npeers 0 n k).1 = line +:+ synced_text p hud t (beat_of npeers 0 n) n /\
    k_synced (beat_text p hud t now ms npeers 0 n k).2 = true.
Proof.
  intros Hk Hn. unfold beat_text. rewrite (proj2 (N.ltb_ge _ _)) by done.
  assert ((target (beat_of npeers 0 n) <=? height (beat_of npeers 0 n) + 2) = true) as -> by (apply N.leb_le; cbn [beat_of target]; lia).
  rewrite Hk. cbn [andb negb]. match goal with |- context [if hud then Ui.heartbeat ?a ?b ?c ?e ?f ?g else ?h] => destruct (if hud then Ui.heartbeat a b c e f g else h) as [line r] end.
  now exists line.
Qed.
End node.

(** ** The benchmark ends *)

Section bench.
Context {HC : Crypto} {HX : TxJson} {St : Type} (post : string -> JValue -> Io St JValue) (now : St -> N) (sleep : St -> St).
Context (Hsleep : forall s, now s + 50 <= now (sleep s)) (Hpost : forall url b s, now s <= now (post url b s).2).

Lemma call_forward url method params s : now s <= now (rpc_call post url method params s).2.
Proof.
  unfold rpc_call, mbind, Io_bind. match goal with |- context [post ?e ?b s] => pose proof (Hpost e b s) as H; set (endpoint := e) in *; set (body := b) in * end.
  destruct (post endpoint body s) as [[v|err] s']; [|exact H]. cbn [snd] in H. now destruct (get "error" v).
Qed.
Lemma wait_over k : forall url start ok t0 h0 s, start + 121000 <= now s + 50 * N.of_nat (S k) -> start <= now s ->
  is_Some (bench_wait post now sleep (S k) url start ok t0 h0 s).
Proof.
  induction k as [|k IH]; intros url start ok t0 h0 s Hk Hs; cbn [bench_wait]; pose proof (Hsleep s) as H1;
    pose proof (call_forward url "inaz_chainInfo" (JObj []) (sleep s)) as H2; destruct (rpc_call _ _ _ _ _) as [[info|e] s']; [|eauto| |eauto]; cbn [snd] in H2.
  - assert (121 <= (now s' - start) / 1000) as H by (apply N.div_le_lower_bound; lia).
    rewrite (proj2 (N.ltb_lt 120 _)) by lia. rewrite orb_true_r. eauto.
  - destruct (_ || _); [eauto|]. apply IH; lia.
Qed.
(** The benchmark ends.  It gives up two minutes after its transactions were
    sent: when a turn of the loop takes fifty milliseconds or more and the clock
    never goes back, it has an answer after at most 2420 turns, whatever the node
    replies. *)
Theorem bench_ends f s : is_Some (bench_cmd post now sleep 2420 f s).
Proof.
  unfold bench_cmd. destruct (bench_send post now f s) as [[[out [[ok t0] h0]]|e] s']; [|eauto].
  destruct (wait_over 2419 (rpc_url f) (now s') ok t0 h0 s') as [[r s''] E]; [lia|lia|]. rewrite E. eauto.
Qed.
End bench.

Module Console_example.
Import Toy Toy_field Exec_example Cli_example Client_example.
#[local] Existing Instance Rpc_example.toy_serde.
#[local] Existing Instance Client_example.toy_tx.
(** Numbers as they are, and nothing else. *)
#[local] Instance toy_json : JsonText := {| json_of_text _ := None; json_text v := match v with JNum z => dec (Z.to_N z) | JNull => "null" | _ => "" end |}.

Definition look : Flags := {[ "address" := mine ]}.
Definition shown_balance : result string * (Node * RpcConfig) := balance_cmd (node_post proc (V4 1) None) look (ledger, config_public).
Lemma commands_show_state_witness :
  shown_balance.1 = Ok (put_line (mine +:+ " => 0.000005000 INAZ (staked 0.000000000, unbonding 0.000000000, rewards 0.000000000, nonce 0)")) /\ shown_balance.2.1 = ledger.
Proof.
  destruct shown_balance as [r s'] eqn:E. assert (is_ok r = true) as H by (change r with (r, s').1; rewrite <- E; vm_compute; reflexivity).
  destruct r as [out|e]; [|discriminate H]. unfold shown_balance in E.
  destruct (commands_show_state proc (V4 1) None look home ledger config_public) as (Hb & _).
  destruct (Hb mine out s' ltac:(vm_compute; reflexivity) E) as [Hn ->]. split; [vm_compute; reflexivity|exact Hn].
Defined.

(** A node whose operator signed two blocks of one height. *)
Definition convict : Types.Account :=
  with_penalties {| jailed_until := TOMBSTONE_HEIGHT; tombstoned := true; slashed := 0; missed_slots := 0; missed_streak := 0; downtime_jails := 0; jail_fault := false; leaked := 0 |}
    (with_staked MIN_STAKE default_account).
Definition prison : Node := node_new (mk {[ (T_ACCOUNTS, mine) := VAccount convict; (T_STAKERS, mine) := VBytes "" ]} []) (default_devnet mine) key 0.
Lemma jail_not_shown_witness : is_jailed (account mine (n_db prison)) 1 = true /\ jailed (beat_of 3 0 prison) = false.
Proof.
  split; [vm_compute; reflexivity|]. destruct (jail_not_shown 3 0 prison) as [H _]; [vm_compute; reflexivity|].
  apply H. vm_compute. reflexivity.
Defined.

(** A node that always answers nothing, one millisecond later. *)
Definition silent (url : string) (body : JValue) : Io N JValue := fun s => (Ok JNull, s + 1).
Definition spend : Flags := {[ "key" := secret_hex key; "count" := "2" ]}.
Lemma bench_ends_witness : is_Some (bench_cmd silent (fun s => s) (fun s => s + 50) 2420 spend 1000).
Proof. apply bench_ends; [intros s; lia|intros url b s; cbn; lia]. Defined.
End Console_example.
