(* ===== verification/ShieldFacts.v ===== *)
(** The tail of chain.rs that settles a spend from the shielded pool: when it
    runs to its end, and what it leaves. *)

From S2P Require Import Prelude Bytes Crypto Types Journal Store Smt SmtFacts Poseidon Shielded State StateFacts.
From S2P Require Import Fees Staking Slashing Contracts SignGuard Circuit Exec ExecFacts Chain ChainFacts.
From Stdlib Require String.

Section spends.
Context {HC : Crypto} {HF : Fr} {HK : Compression} {HP : ChainParams} {HJ : EvidenceJson} {HW : Wasm} {HG : Groth16}.

(** ** The note table *)

(** The notes of the pool, in order: position [i] is the row of key [i]. *)
Definition note_row (i : nat) (c : string) : string * value := (to_be_bytes 8 (N.of_nat i), VBytes c).
Definition note_table (cs : list string) (d : Db) : Prop := rows T_SHIELDED_LEAVES d = imap note_row cs.

Lemma note_count cs d : note_table cs d -> shielded_leaf_count d = N.of_nat (length cs).
Proof. intros H. unfold shielded_leaf_count. now rewrite H, length_imap. Qed.
Lemma parsed_imap cs : forall f : nat -> string, map snd (parsed as_bytes (imap (fun i c => (f i, VBytes c)) cs)) = cs.
Proof. unfold parsed. induction cs as [|c cs IH]; intros f; [done|]. cbn. f_equal. apply (IH (fun i => f (S i))). Qed.
Lemma note_leaves cs d : note_table cs d -> shielded_leaves d = cs.
Proof. intros H. unfold shielded_leaves. rewrite H. exact (parsed_imap cs (fun i => to_be_bytes 8 (N.of_nat i))). Qed.
Lemma note_table_ext cs d d' : (forall k, d' !! (T_SHIELDED_LEAVES, k) = d !! (T_SHIELDED_LEAVES, k)) -> note_table cs d -> note_table cs d'.
Proof. intros H Hd. unfold note_table. now rewrite (rows_ext _ _ _ H). Qed.

(** A note is appended at the position of the count, and the others stay. *)
Lemma note_append cs c d : N.of_nat (length cs) < 2 ^ 64 -> note_table cs d -> note_table (cs ++ [c]) (db_after (shielded_append c) d).
Proof.
  intros Hl Hd. unfold note_table, shielded_append. change (db_after ?m ?x) with (run m x).2. runs. cbn [snd]. rewrite (note_count _ _ Hd), rows_append.
  - rewrite Hd, imap_app. cbn [imap length]. unfold note_row at 2. now rewrite Nat.add_0_r.
  - rewrite Hd, Forall_forall. intros r (i & c' & -> & Hi)%elem_of_lookup_imap. apply lookup_lt_Some in Hi. cbn [fst note_row].
    change (2 ^ 64) with (256 ^ N.of_nat 8) in Hl. split.
    + apply be_order. rewrite !N.mod_small by lia. lia.
    + intros E. apply be_inj in E; lia.
Qed.
Lemma notes_append l : forall cs d, N.of_nat (length cs + length l) <= 2 ^ 64 -> note_table cs d ->
  note_table (cs ++ l) (db_after (append_commitments l) d).
Proof.
  induction l as [|c l IH]; intros cs d Hl Hd; [now rewrite app_nil_r|]. cbn [length] in Hl.
  assert (db_after (append_commitments (c :: l)) d = db_after (append_commitments l) (db_after (shielded_append c) d)) as ->.
  { unfold append_commitments at 1. cbn [for_each]. fold (append_commitments l). rewrite db_after_bind by (intros; unfold append_commitments, shielded_append; journaled).
    rewrite db_after_bind by (intros; journaled). reflexivity. }
  rewrite cons_middle, app_assoc. apply IH; [rewrite length_app; cbn [length]; lia|]. apply note_append; [lia|exact Hd].
Qed.

(** ** Settling a spend *)

(** Rows of the shielded pool a spend does not touch. *)
Definition same_pool_setup (d d' : Db) : Prop :=
  (forall r, d !! (T_SHIELDED_ROOTS, r) = d' !! (T_SHIELDED_ROOTS, r)) /\
  d !! (T_META, "shielded_vk") = d' !! (T_META, "shielded_vk").
#[local] Instance same_pool_setup_preorder : PreOrder same_pool_setup.
Proof. split; [done|]. intros d1 d2 d3 [H1 H2] [H3 H4]. split; [intros r; now rewrite H1|congruence]. Qed.
#[local] Instance setup_append l : Steps same_pool_setup (append_commitments l).
Proof.
  unfold append_commitments, shielded_append. steps. intros d. split; [intros r|]; now rewrite db_after_jput, lookup_insert_ne.
Qed.
#[local] Instance setup_burn h l : Steps same_pool_setup (burn_nullifiers h l).
Proof.
  unfold burn_nullifiers, shielded_burn_nullifier. steps. intros d.
  split; [intros r|]; now rewrite db_after_jput, lookup_insert_ne.
Qed.

(** A table a step leaves alone. *)
Definition same_rows (t : TreeId) (d d' : Db) : Prop := forall k, d' !! (t, k) = d !! (t, k).
#[local] Instance same_rows_preorder t : PreOrder (same_rows t).
Proof. split; [done|]. intros d1 d2 d3 H1 H2 k. now rewrite H2, H1. Qed.
Lemma same_rows_put t t' k v d : t <> t' -> same_rows t d (<[(t', k) := v]> d).
Proof. intros Ht k'. now rewrite lookup_insert_ne by congruence. Qed.
Lemma same_rows_account t d d' a : t = T_ACCOUNTS -> same_rows t d d' -> account a d' = account a d.
Proof. intros -> H. unfold account. now rewrite H. Qed.

(** Burned nullifiers stay burned. *)
Definition nulls_kept (d d' : Db) : Prop := forall n, shielded_nullifier_seen n d = true -> shielded_nullifier_seen n d' = true.
#[local] Instance nulls_kept_preorder : PreOrder nulls_kept.
Proof. split; [intros d n H; exact H|]. intros d1 d2 d3 H1 H2 n H. now apply H2, H1. Qed.
Lemma nulls_kept_put t k v d : t <> T_SHIELDED_NULLS -> nulls_kept d (<[(t, k) := v]> d).
Proof. intros Ht n. unfold shielded_nullifier_seen. rewrite lookup_insert_ne by congruence. auto. Qed.
#[local] Instance nulls_append l : Steps nulls_kept (append_commitments l).
Proof. unfold append_commitments, shielded_append. steps. intros d. rewrite db_after_jput. now apply nulls_kept_put. Qed.

(** Burning succeeds exactly when no string was burned before. *)
Lemma burn_two h n1 n2 d : n1 <> n2 ->
  shielded_nullifier_seen n1 d = false -> shielded_nullifier_seen n2 d = false ->
  run (burn_nullifiers h [n1; n2]) d =
  (Ok tt, <[(T_SHIELDED_NULLS, n2) := u64_row h]> (<[(T_SHIELDED_NULLS, n1) := u64_row h]> d)).
Proof.
  intros Hne H1 H2. unfold burn_nullifiers. cbn [for_each]. unfold shielded_burn_nullifier.
  runs. rewrite H1. runs. cbn [negb].
  assert (shielded_nullifier_seen n2 (<[(T_SHIELDED_NULLS, n1) := u64_row h]> d) = false) as ->.
  { unfold shielded_nullifier_seen in *. now rewrite lookup_insert_ne by congruence. }
  runs. done.
Qed.

Lemma run_append cs d : run (append_commitments cs) d = (Ok tt, db_after (append_commitments cs) d).
Proof.
  apply run_total. unfold append_commitments, shielded_append. total.
Qed.

Definition is_unshield (tx : Transaction) (data : ShieldedData) (out : N) : Prop :=
  tx_kind tx = Unshield /\ parse_u128 (public_unshield data) = Some out /\ 0 < out.

(** The tail of an unshield: the pool pays the recipient. *)
Definition pay_unshield (to : string) (out : N) : M unit :=
  bal ← gets shielded_pool_balance; shielded_set_pool_balance (bal -! out) ;; add_balance to out.

Lemma pool_pay_unshield to out d : out <= shielded_pool_balance d -> shielded_pool_balance d <= U128_MAX ->
  exists d', run (pay_unshield to out) d = (Ok tt, d') /\ shielded_pool_balance d' + out = shielded_pool_balance d /\
    same_pool_setup d d' /\ nulls_kept d d' /\ same_rows T_SHIELDED_LEAVES d d' /\
    forall a, account a d' = if decide (a = to) then with_balance (balance (account to d) +! out) (account to d) else account a d.
Proof.
  intros Ho Hm. unfold pay_unshield. runs. rewrite wsub_small by (assert (U128_MAX < 2 ^ 128) by reflexivity; lia).
  set (n := shielded_pool_balance d - out).
  assert (run (shielded_set_pool_balance n) d = (Ok tt, <[(T_META, "shielded_pool") := text_row n]> d)) as -> by reflexivity.
  rewrite run_add_balance. eexists. split; [done|].
  set (d1 := <[(T_META, "shielded_pool") := text_row n]> d). unfold add_balance.
  assert (forall a, account a d1 = account a d) as Hsame by (intros a; unfold account, d1; now rewrite lookup_insert_ne).
  change (db_after ?m ?x) with (run m x).2. runs. rewrite run_set_account. cbn [snd]. split; [|split; [|split; [|split]]].
  - rewrite pool_set_account. assert (shielded_pool_balance d1 = n) as ->; [|subst n; lia].
    unfold shielded_pool_balance, meta_number, d1. rewrite lookup_insert_eq. unfold text_row.
    cbn [mbind option_bind as_bytes]. rewrite parse_uint_dec; [done|subst n; lia].
  - split; [intros r|]; rewrite set_account_rows, !decide_False by done; unfold d1; now rewrite lookup_insert_ne.
  - intros n0. unfold shielded_nullifier_seen. rewrite set_account_rows, decide_False by done. unfold d1. now rewrite lookup_insert_ne.
  - intros k. rewrite set_account_rows, decide_False by done. unfold d1. now rewrite lookup_insert_ne.
  - intros a. rewrite account_set_account, !Hsame. reflexivity.
Qed.

(** The key proofs are checked with: the stored one, or the one the first spend
    installs. *)
Definition installed_key (d : Db) : option gKey :=
  match shielded_verifying_key d with Some bytes => vk_from_hex (hex_encode bytes) | None => Some devnet_setup end.
Lemma run_spend_key vk d : installed_key d = Some vk ->
  exists d', run spend_key d = (Ok vk, d') /\ shielded_pool_balance d' = shielded_pool_balance d /\
    forall t, t <> T_META -> same_rows t d d'.
Proof.
  unfold installed_key, spend_key. intros H. destruct (shielded_verifying_key d) as [bytes|] eqn:E.
  - exists d. runs. rewrite E. runs. rewrite H. split; [reflexivity|]. split; [reflexivity|done].
  - injection H as <-. unfold shielded_set_verifying_key. eexists. runs. rewrite E. runs. split; [reflexivity|].
    split; [unfold shielded_pool_balance, meta_number; now rewrite lookup_insert_ne|].
    intros t Ht. now apply same_rows_put.
Qed.

(** What a spend checks before it burns. *)
Record spendable (tx : Transaction) (data : ShieldedData) (out : N) (d : Db) : Prop := {
  sp_recipient : out = 0 \/ is_valid_address (tx_to tx) = true;
  sp_pool : out <= shielded_pool_balance d;
  sp_root : shielded_root_known (anchor data) d = true;
  sp_proof : exists proof vk inputs,
    proof_from_hex (sh_proof data) = Some proof /\ installed_key d = Some vk /\
    spend_inputs data out = Ok inputs /\ spend_verify vk proof inputs = true
}.
(** The amount a spend pays out. *)
Definition pays (tx : Transaction) (data : ShieldedData) (out : N) : Prop :=
  is_unshield tx data out \/ tx_kind tx = PrivateTransfer /\ out = 0.

Lemma spendable_inv tx data out h d bytes d' : is_unshield tx data out -> shielded_verifying_key d = Some bytes ->
  run (apply_spend tx data h) d = (Ok tt, d') -> spendable tx data out d.
Proof.
  intros (Hk & Hp & Ho) Hkey. unfold apply_spend. rewrite (bool_decide_true _ Hk), Hp. cbn [ok_or].
  intros E. step_ok E H1 e1. injection H1 as <-. step_ok E H2 e2. step_ok E H3 d1.
  apply run_when_ok in H3. rewrite (proj2 (N.ltb_lt _ _) Ho) in H3.
  step_ok H3 H4 e4. apply run_fail_ok in H3 as [H3 ->]. apply negb_false_iff in H4. apply N.ltb_ge in H3.
  step_ok E H5 e5. step_ok E H6 e6. apply negb_false_iff in H6. step_ok E H7 e7. step_ok E H8 d2.
  unfold spend_key in H8. rewrite run_bind, run_gets, Hkey in H8 by (intros; journaled).
  apply run_lift_ok in H8 as [H8 ->]. step_ok E H9 e9. step_ok E H10 e10. apply negb_false_iff in H10.
  split; [now right|done..|]. destruct (proof_from_hex _) as [proof|]; [|done]. destruct (vk_from_hex _) as [vk|] eqn:Ev; [|done].
  injection H7 as ->. injection H8 as ->. exists a, a0, a1. repeat split; try done. unfold installed_key. now rewrite Hkey.
Qed.

(** What a settled spend leaves: the pool has paid [out], to the recipient only;
    the nullifiers are burned; the output notes follow those of the tree. *)
Record settled (tx : Transaction) (data : ShieldedData) (out : N) (d d' : Db) : Prop := {
  st_pool : shielded_pool_balance d' + out = shielded_pool_balance d;
  st_nulls : forall n, n ∈ nullifiers data -> shielded_nullifier_seen n d' = true;
  st_notes : forall cs, note_table cs d -> N.of_nat (length cs + length (commitments data)) <= 2 ^ 64 -> note_table (cs ++ commitments data) d';
  st_paid : forall a, account a d' = if decide (0 < out /\ a = tx_to tx) then with_balance (balance (account a d) +! out) (account a d) else account a d
}.

(** Burning and appending, then the payment. *)
Lemma finish_spend tx data out h d n1 n2 : out <= shielded_pool_balance d ->
  nullifiers data = [n1; n2] -> n1 <> n2 -> shielded_nullifier_seen n1 d = false -> shielded_nullifier_seen n2 d = false ->
  exists d', run (burn_nullifiers h (nullifiers data) ;; append_commitments (commitments data) ;;
    when_ (0 <? out) (pay_unshield (tx_to tx) out)) d = (Ok tt, d') /\ settled tx data out d d'.
Proof.
  intros Hpool Hn Hne Hs1 Hs2. rewrite Hn. unfold pay_unshield, add_balance. runs. rewrite burn_two by done. runs. rewrite run_append. runs.
  set (db := <[(T_SHIELDED_NULLS, n2) := _]> _). set (d1 := db_after _ db).
  assert (same_ledger db d1) as L1 by apply (ledger_append_commitments (commitments data)).
  assert (shielded_pool_balance d1 = shielded_pool_balance d) as Hpool1.
  { rewrite (same_ledger_pool _ _ L1). unfold shielded_pool_balance, meta_number, db. now rewrite !lookup_insert_ne by done. }
  assert (forall a, account a d1 = account a d) as Ha.
  { intros a. rewrite (same_ledger_account _ _ a L1). unfold account, db. now rewrite !lookup_insert_ne by done. }
  assert (forall n, n ∈ [n1; n2] -> shielded_nullifier_seen n d1 = true) as Hb.
  { intros n Hin. apply nulls_append. unfold shielded_nullifier_seen, db. rewrite !elem_of_cons in Hin.
    destruct Hin as [->|[->|Hin]]; [rewrite lookup_insert_ne by congruence| |inversion Hin]; now rewrite lookup_insert_eq. }
  assert (forall cs, note_table cs d -> N.of_nat (length cs + length (commitments data)) <= 2 ^ 64 -> note_table (cs ++ commitments data) d1) as Hnotes.
  { intros cs Hd Hl. apply notes_append; [exact Hl|]. apply (note_table_ext _ d); [|exact Hd].
    intros k. unfold db. now rewrite !lookup_insert_ne by done. }
  destruct (N.ltb_spec 0 out) as [Ho|Ho].
  - destruct (pool_pay_unshield (tx_to tx) out d1) as (d' & E & Hd & _ & Hnulls & Hleaves & Hpaid); [congruence|now apply meta_number_bound|].
    exists d'. unfold pay_unshield, add_balance in E. split; [exact E|]. split; [congruence|rewrite Hn; auto| |].
    + intros cs Hcs Hl. exact (note_table_ext _ _ _ Hleaves (Hnotes cs Hcs Hl)).
    + intros a. rewrite Hpaid, !Ha. repeat case_decide; subst; tauto || reflexivity.
  - exists d1. split; [reflexivity|]. split; [lia|rewrite Hn; exact Hb|exact Hnotes|]. intros a. rewrite Ha, decide_False by lia. reflexivity.
Qed.

(** A spend that passes the checks, with fresh nullifiers, is settled. *)
Lemma spendable_runs tx data out h d n1 n2 : pays tx data out -> spendable tx data out d ->
  nullifiers data = [n1; n2] -> n1 <> n2 ->
  shielded_nullifier_seen n1 d = false -> shielded_nullifier_seen n2 d = false ->
  exists d', run (apply_spend tx data h) d = (Ok tt, d') /\ settled tx data out d d'.
Proof.
  intros Hpays [Hto Hpool Hroot (proof & vk & inputs & H1 & H2 & H4 & H5)] Hn Hne Hs1 Hs2.
  unfold apply_spend.
  assert ((if bool_decide (tx_kind tx = Unshield) then ok_or (parse_u128 (public_unshield data)) "bad public unshield amount" else Ok 0) = Ok out) as ->
    by (destruct Hpays as [(Hk & Hp & _)|[Hk ->]]; rewrite Hk; [rewrite bool_decide_true, Hp by done|]; done).
  runs. match goal with |- context [let (_, _) := ?e in _] => assert (e = (Ok tt, d)) as -> end.
  { destruct (N.ltb_spec 0 out) as [Ho|]; [|reflexivity]. destruct Hto as [->|Hto]; [lia|].
    now rewrite Hto, (proj2 (N.ltb_ge _ _) Hpool). }
  runs. rewrite Hroot. cbn [negb]. rewrite H1. cbn [ok_or]. runs.
  destruct (run_spend_key vk d H2) as (dk & -> & Hk & Hsame). rewrite H4. runs. rewrite H5. cbn [negb].
  assert (forall n, shielded_nullifier_seen n dk = shielded_nullifier_seen n d) as Hseen by (intros n; unfold shielded_nullifier_seen; now rewrite Hsame).
  destruct (finish_spend tx data out h dk n1 n2) as (d' & E & [F1 F2 F3 F4]); [rewrite ?Hk, ?Hseen; done..|].
  exists d'. split; [revert E; unfold pay_unshield; runs; intros E; exact E|]. split; [congruence|exact F2| |].
  - intros cs Hcs. apply F3. apply (note_table_ext _ d); [now apply Hsame|exact Hcs].
  - intros a. rewrite F4. rewrite (same_rows_account T_ACCOUNTS d dk) by auto. reflexivity.
Qed.

Lemma pool_after_unshield tx data out h d bytes d' : is_unshield tx data out ->
  shielded_verifying_key d = Some bytes -> run (apply_spend tx data h) d = (Ok tt, d') ->
  same_pool_setup d d'.
Proof.
  intros (Hk & Hp & Ho) Hkey. unfold apply_spend. rewrite (bool_decide_true _ Hk), Hp. cbn [ok_or].
  intros E. step_ok E H1 e1. injection H1 as <-. step_ok E H2 e2. step_ok E H3 d1.
  apply run_when_ok in H3. rewrite (proj2 (N.ltb_lt _ _) Ho) in H3.
  step_ok H3 H4 e4. apply run_fail_ok in H3 as [H3 ->]. apply N.ltb_ge in H3.
  step_ok E H5 e5. step_ok E H6 e6. step_ok E H7 e7. step_ok E H8 d2.
  unfold spend_key in H8. rewrite run_bind, run_gets, Hkey in H8 by (intros; journaled).
  apply run_lift_ok in H8 as [H8 ->]. step_ok E H9 e9. step_ok E H10 e10.
  step_ok E H11 d3. step_ok E H12 d4. rewrite (proj2 (N.ltb_lt _ _) Ho) in E. fold (pay_unshield (tx_to tx) out) in E.
  assert (same_ledger d d3) as L1 by (apply (run_neutral (burn_nullifiers h (nullifiers data)) d (Ok tt)); exact H11).
  assert (same_ledger d3 d4) as L2 by (apply (run_neutral (append_commitments (commitments data)) d3 (Ok tt)); exact H12).
  assert (same_pool_setup d d3) as S1 by (injection H11 as _ <-; apply setup_burn).
  assert (same_pool_setup d3 d4) as S2 by (injection H12 as _ <-; apply setup_append).
  destruct (pool_pay_unshield (tx_to tx) out d4) as (d5 & E5 & _ & S3 & _ & _).
  - now rewrite (same_ledger_pool d3 d4), (same_ledger_pool d d3).
  - now apply meta_number_bound.
  - cbn [when_] in E. rewrite E5 in E. injection E as <-. etransitivity; [exact S1|]. etransitivity; [exact S2|exact S3].
Qed.

End spends.
