(* ===== verification/NoteTree.v ===== *)
(** The note tree of the chain: blocks append the commitments of their shielded
    transactions, in order, and every block leaves the root of the tree among
    the anchors a spend may use. *)

From S2P Require Import Prelude Bytes Crypto Types Journal Store Smt SmtFacts Poseidon Shielded State StateFacts.
From S2P Require Import Fees Staking Tokens Slashing Contracts SignGuard Circuit Exec ExecFacts Chain ChainFacts ShieldFacts.
From Stdlib Require String.

(** The rows the pool's sealing reads and writes. *)
Definition pool_key (k : Key) : bool := bool_decide (k.1 = T_SHIELDED_LEAVES) || bool_decide (k.1 = T_SHIELDED_ROOTS) || bool_decide (k = (T_META, "shielded_sealed")).
Definition same_tree (d d' : Db) : Prop := forall k, pool_key k = true -> d' !! k = d !! k.
#[export] Instance same_tree_preorder : PreOrder same_tree.
Proof. split; [done|]. intros d1 d2 d3 H12 H23 k Hk. now rewrite H23, H12. Qed.
Lemma tree_jput t k v : pool_key (t, k) = false -> Steps same_tree (jput t k v).
Proof. intros Hk d k' Hk'. rewrite db_after_jput, lookup_insert_ne by congruence. done. Qed.
Lemma tree_jdel t k : pool_key (t, k) = false -> Steps same_tree (jdel t k).
Proof. intros Hk d k' Hk'. rewrite db_after_jdel, lookup_delete_ne by congruence. done. Qed.
#[local] Hint Extern 1 (Steps same_tree (jput _ _ _)) => apply tree_jput; reflexivity : typeclass_instances.
#[local] Hint Extern 1 (Steps same_tree (jdel _ _)) => apply tree_jdel; reflexivity : typeclass_instances.

Section frames.
Context {HC : Crypto} {HF : Fr} {HK : Compression} {HP : ChainParams} {HJ : EvidenceJson} {HW : Wasm} {HG : Groth16}.

#[local] Instance tree_smt_set dom key v : Steps same_tree (smt_set dom key v).
Proof. intros d [t k] Hk. apply smt_set_other. now intros ->. Qed.
#[local] Instance tree_set_account a x : Steps same_tree (set_account a x).
Proof. frames. Qed.
#[local] Instance tree_apply_call tx s h : Steps same_tree (apply_call tx s h).
Proof. frames. Qed.
#[local] Instance tree_apply_report h r e : Steps same_tree (apply_report h r e).
Proof. frames. Qed.
Lemma tree_apply_kind tx s f h : is_shielded (tx_kind tx) = false -> Steps same_tree (apply_kind tx s f h).
Proof. intros Hk. unfold apply_kind. destruct (tx_kind tx); try discriminate Hk; frames. Qed.
#[local] Instance tree_release_unbonded h : Steps same_tree (release_unbonded h).
Proof. frames. Qed.
#[local] Instance tree_record_liveness h p q : Steps same_tree (record_liveness h p q).
Proof. frames. Qed.
#[local] Instance tree_pay_rewards l f : Steps same_tree (pay_rewards l f).
Proof. frames. Qed.
#[local] Instance tree_seal_into_state r : Steps same_tree (shielded_seal_into_state r).
Proof. frames. Qed.
#[local] Instance tree_burn h l : Steps same_tree (burn_nullifiers h l).
Proof. frames. Qed.
#[local] Instance tree_spend_key : Steps same_tree spend_key.
Proof. frames. Qed.
#[local] Instance tree_store_block b : Steps same_tree (store_block b).
Proof. frames. Qed.
#[export] Instance tree_init_genesis g : Steps same_tree (init_genesis g).
Proof. frames. Qed.

(** ** What an operation appends *)

Record grown (l : list string) (d d' : Db) : Prop := {
  gr_notes : forall cs, note_table cs d -> N.of_nat (length cs + length l) <= 2 ^ 64 -> note_table (cs ++ l) d';
  gr_roots : same_rows T_SHIELDED_ROOTS d d';
  gr_sealed : d' !! (T_META, "shielded_sealed") = d !! (T_META, "shielded_sealed")
}.
Lemma grown_trans l1 l2 d1 d2 d3 : grown l1 d1 d2 -> grown l2 d2 d3 -> grown (l1 ++ l2) d1 d3.
Proof.
  intros [N1 R1 S1] [N2 R2 S2]. split; [|intros k; now rewrite R2, R1|congruence].
  intros cs Hcs Hl. rewrite length_app in Hl. rewrite app_assoc. apply N2; [apply N1; [exact Hcs|lia]|]. rewrite length_app. lia.
Qed.
Lemma grown_same d d' : same_tree d d' -> grown [] d d'.
Proof.
  intros H. split; [|intros k; now apply H|now apply H]. intros cs Hcs _. rewrite app_nil_r. apply (note_table_ext _ d); [|exact Hcs].
  intros k. now apply H.
Qed.
Lemma grown_step {A : Type} (m : M A) `{!Steps same_tree m} d r d' : run m d = (r, d') -> grown [] d d'.
Proof. intros E. apply grown_same. injection E as _ <-. apply Steps0. Qed.
Ltac by_frame H := apply grown_step in H; [exact H|frames].

(** Appending writes notes only. *)
Definition off_leaves (d d' : Db) : Prop := forall k, k.1 <> T_SHIELDED_LEAVES -> d' !! k = d !! k.
#[local] Instance off_leaves_preorder : PreOrder off_leaves.
Proof. split; [done|]. intros d1 d2 d3 H12 H23 k Hk. now rewrite H23, H12. Qed.
#[local] Instance off_leaves_append l : Steps off_leaves (append_commitments l).
Proof. unfold append_commitments, shielded_append. steps. intros d k Hk. rewrite db_after_jput. apply lookup_insert_ne. now intros <-. Qed.
Lemma grown_append l d r d' : run (append_commitments l) d = (r, d') -> grown l d d'.
Proof.
  intros [= _ <-]. pose proof (off_leaves_append l d) as H. split; [intros cs Hcs Hl; now apply notes_append|intros k|]; now apply H.
Qed.

(** The commitments of a shielded transaction. *)
Definition notes_of (tx : Transaction) : list string :=
  if is_shielded (tx_kind tx) then match tx_shielded tx with Some data => commitments data | None => [] end else [].
Definition block_notes (b : Block) : list string := concat (map notes_of (b_transactions b)).

Lemma shield_shape tx data : tx_shielded tx = Some data -> tx_kind tx = Shield -> check_shielded_shape tx = Ok tt ->
  commitments data = [nth 0 (commitments data) ""].
Proof.
  intros Hd Hk. unfold check_shielded_shape. rewrite Hd, Hk. cbn [ok_or mbind result_bind].
  destruct (Nat.ltb 512 _); [discriminate|]. destruct (existsb _ _); [discriminate|]. destruct (public_amount _) as [u|]; [|discriminate]. cbn [mbind result_bind].
  destruct (commitments data) as [|c [|]]; [discriminate|reflexivity|discriminate].
Qed.
Lemma grown_shield tx data d d' : commitments data = [nth 0 (commitments data) ""] ->
  run (apply_shield tx data) d = (Ok tt, d') -> grown (commitments data) d d'.
Proof.
  intros Hc. unfold apply_shield. intros E. step_ok E H1 e1. step_ok E H2 e2. step_ok E H3 d1. step_ok E H4 e4. step_ok E H5 e5.
  rewrite Hc. apply (grown_trans [nth 0 (commitments data) ""] [] d d1 d'); [|by_frame E].
  apply (grown_append [nth 0 (commitments data) ""] d (Ok tt)). unfold append_commitments. cbn [for_each]. runs. rewrite H3. runs. reflexivity.
Qed.
Lemma grown_spend tx data h d d' : run (apply_spend tx data h) d = (Ok tt, d') -> grown (commitments data) d d'.
Proof.
  unfold apply_spend. intros E. step_ok E H1 e1. step_ok E H2 e2. step_ok E H3 d1. step_ok E H4 e4. step_ok E H5 e5. step_ok E H6 e6.
  step_ok E H7 d2. step_ok E H8 e8. step_ok E H9 e9. step_ok E H10 d3. step_ok E H11 d4.
  apply (grown_trans [] (commitments data) d d1 d'); [by_frame H3|].
  apply (grown_trans [] (commitments data) d1 d2 d'); [by_frame H7|].
  apply (grown_trans [] (commitments data) d2 d3 d'); [by_frame H10|].
  rewrite <- (app_nil_r (commitments data)). apply (grown_trans _ [] d3 d4 d'); [now apply grown_append in H11|by_frame E].
Qed.
Lemma grown_tx tx h d fee d' : run (apply_tx tx h) d = (Ok fee, d') -> grown (notes_of tx) d d'.
Proof.
  unfold apply_tx. intros E. step_ok E H1 e1. step_ok E H2 e2. step_ok E H3 e3. step_ok E H4 e4. step_ok E H5 e5. step_ok E H6 e6. step_ok E H7 d1.
  apply run_ret_ok in E as [_ ->]. unfold notes_of. destruct (is_shielded (tx_kind tx)) eqn:Ek.
  2: { pose proof (tree_apply_kind tx a (with_nonce (nonce (account a d) +!! 1) (with_balance (balance (account a d) -! debit_of tx) (account a d))) h Ek). by_frame H7. }
  assert (run (set_account a (with_nonce (nonce (account a d) +!! 1) (with_balance (balance (account a d) -! debit_of tx) (account a d))) ;; apply_shielded tx h) d = (Ok tt, d1)) as E
    by (revert H7; unfold apply_kind; destruct (tx_kind tx); try discriminate Ek; auto).
  clear H7. apply run_bind_ok in E as (u & d2 & H7 & E); [|intros; journaled]. apply grown_step in H7; [|frames].
  unfold apply_shielded in E. step_ok E H8 e8. step_ok E H9 e9. step_ok E H10 e10. destruct (tx_shielded tx) as [data|] eqn:Ed; [|discriminate H9].
  injection H9 as <-. apply (grown_trans [] (commitments data) d d2 d1); [exact H7|].
  destruct (tx_kind tx) eqn:Ek2; try discriminate Ek; [|now apply grown_spend in E..].
  apply (grown_shield tx); [|exact E]. now apply (shield_shape tx).
Qed.

(** ** Sealing *)

Definition root_of (cs : list string) : string := fr_to_hex (root_from_leaves (omap fr_from_hex cs)).
Lemma root_of_notes cs d : note_table cs d -> shielded_root d = root_of cs.
Proof. intros H. unfold shielded_root. now rewrite (note_leaves cs d H). Qed.

(** The note table, and the last seal: its root is an anchor. *)
Record pool_sealed (cs : list string) (d : Db) : Prop := {
  pl_notes : note_table cs d;
  pl_count : (N.to_nat (shielded_last_sealed_count d) <= length cs)%nat;
  pl_root : 0 < shielded_last_sealed_count d -> shielded_root_known (root_of (take (N.to_nat (shielded_last_sealed_count d)) cs)) d = true
}.
Lemma pool_grown cs l d d' : pool_sealed cs d -> N.of_nat (length cs + length l) < 2 ^ 64 -> grown l d d' -> pool_sealed (cs ++ l) d'.
Proof.
  intros [Hn Hc Hr] Hl [Gn Gr Gs]. assert (shielded_last_sealed_count d' = shielded_last_sealed_count d) as Hs
    by (unfold shielded_last_sealed_count, meta_number; now rewrite Gs).
  split; [apply Gn; [exact Hn|lia]|rewrite Hs, length_app; lia|]. rewrite Hs. intros Hpos. unfold shielded_root_known. rewrite (Gr _), take_app_le by lia. now apply Hr.
Qed.

Lemma run_seal root h n d : exists d',
  run (shielded_seal_root root h ;; shielded_set_last_sealed_count n ;; shielded_seal_into_state root) d = (Ok tt, d') /\
  same_tree (<[(T_META, "shielded_sealed") := text_row n]> (<[(T_SHIELDED_ROOTS, root) := u64_row h]> d)) d'.
Proof.
  unfold shielded_seal_root, shielded_set_last_sealed_count. rewrite run_bind, run_jput by (intros; journaled). rewrite run_bind, run_jput by (intros; journaled).
  eexists. split; [apply run_total; unfold shielded_seal_into_state; total|apply tree_seal_into_state].
Qed.

(** Sealing leaves the root of all notes among the anchors. *)
Lemma seal_spec cs d h : pool_sealed cs d -> N.of_nat (length cs) < 2 ^ 64 ->
  exists d', run (seal_shielded_root h) d = (Ok tt, d') /\ pool_sealed cs d' /\
    (shielded_activation <= h -> shielded_root_known (root_of cs) d' = true).
Proof.
  intros [Hn Hc Hr] Hl. unfold seal_shielded_root. destruct (N.ltb_spec h shielded_activation) as [Hh|Hh].
  { exists d. runs. split; [reflexivity|]. split; [now split|lia]. }
  rewrite run_bind, run_gets by (intros; journaled). rewrite run_bind, run_gets by (intros; journaled). rewrite (note_count _ _ Hn).
  destruct (_ && _) eqn:Esame.
  - apply andb_prop in Esame as [He%N.eqb_eq Hp%N.ltb_lt]. exists d. runs. split; [reflexivity|]. split; [now split|].
    intros _. rewrite <- He, Nat2N.id, firstn_all in Hr. now apply Hr.
  - rewrite run_bind, run_gets by (intros; journaled). rewrite (root_of_notes _ _ Hn).
    destruct (run_seal (root_of cs) h (N.of_nat (length cs)) d) as (d' & E & Hs). exists d'. split; [exact E|].
    assert (shielded_last_sealed_count d' = N.of_nat (length cs)) as Hcount.
    { unfold shielded_last_sealed_count, meta_number. rewrite Hs, lookup_insert_eq by reflexivity. unfold text_row. cbn [mbind option_bind as_bytes].
      rewrite parse_uint_dec; [reflexivity|]. change U64_MAX with (2 ^ 64 - 1). lia. }
    assert (shielded_root_known (root_of cs) d' = true) as Hk
      by (unfold shielded_root_known; rewrite Hs, lookup_insert_ne, lookup_insert_eq by (reflexivity || discriminate); reflexivity).
    split; [|intros _; exact Hk]. split; [|rewrite Hcount; lia|rewrite Hcount, Nat2N.id, firstn_all; intros _; exact Hk].
    apply (note_table_ext _ d); [|exact Hn]. intros k. rewrite Hs by reflexivity. now rewrite !lookup_insert_ne by discriminate.
Qed.

(** ** Blocks *)

Lemma grown_txs h txs : forall fees d total d', run (execute_txs h txs fees) d = (Ok total, d') -> grown (concat (map notes_of txs)) d d'.
Proof.
  induction txs as [|tx txs IH]; intros fees d total d' E; unfold execute_txs in E; cbn [fold_m] in E.
  - apply run_ret_ok in E as [_ ->]. now apply grown_same.
  - step_ok E H1 d1. cbn [map concat]. apply (grown_trans _ _ d d1 d'); [|exact (IH _ _ _ _ E)].
    apply import_tx_ok in H1 as (fee & H1 & _). exact (grown_tx _ _ _ _ _ H1).
Qed.

Lemma pool_same cs d d' : pool_sealed cs d -> same_tree d d' -> pool_sealed cs d'.
Proof.
  intros [Hn Hc Hr] H. assert (shielded_last_sealed_count d' = shielded_last_sealed_count d) as Hs
    by (unfold shielded_last_sealed_count, meta_number; now rewrite H).
  split; [apply (note_table_ext _ d); [intros k; now apply H|exact Hn]|now rewrite Hs|].
  rewrite Hs. unfold shielded_root_known. now rewrite H.
Qed.
Lemma pool_step {A : Type} (m : M A) cs d r d' `{!Steps same_tree m} : run m d = (r, d') -> pool_sealed cs d -> pool_sealed cs d'.
Proof. intros [= _ <-] H. now apply (pool_same cs d). Qed.
Lemma close_spec cs h p q f d d' : pool_sealed cs d -> N.of_nat (length cs) < 2 ^ 64 -> run (close_block h p q f) d = (Ok tt, d') ->
  pool_sealed cs d' /\ (shielded_activation <= h -> shielded_root_known (root_of cs) d' = true).
Proof.
  intros Hd Hl. unfold close_block. intros E. step_ok E H1 e1. step_ok E H2 e2. step_ok E H3 e3.
  pose proof (pool_step _ _ _ _ _ H1 Hd) as P1. pose proof (pool_step _ _ _ _ _ H2 P1) as P2. pose proof (pool_step _ _ _ _ _ H3 P2) as P3.
  destruct (seal_spec cs e3 h P3 Hl) as (d2 & E2 & H). rewrite E2 in E. injection E as <-. exact H.
Qed.

Lemma block_appends b d d' cs (notes := cs ++ block_notes b) : pool_sealed cs d -> N.of_nat (length notes) < 2 ^ 64 -> run (execute_block b) d = (Ok tt, d') ->
  pool_sealed notes d' /\ shielded_leaves d' = notes /\
  (shielded_activation <= b_height b -> shielded_root_known (shielded_root d') d' = true).
Proof.
  intros Hpool Hroom Hrun.
  apply execute_block_ok in Hrun as (d1 & fees & d2 & Htxs & Hclose & _ & Hstore).
  apply grown_txs, (pool_grown cs _ _ _ Hpool) in Htxs; [|revert Hroom; unfold notes, block_notes; rewrite length_app; lia]. fold (block_notes b) in Htxs. fold notes in Htxs.
  apply (close_spec notes _ _ _ _ _ _ Htxs Hroom) in Hclose as [H2 Hroot].
  pose proof (tree_store_block b d2) as Hs. injection Hstore as _ <-. pose proof (pool_same _ _ _ H2 Hs) as H3.
  split; [exact H3|]. split; [apply note_leaves, H3|]. intros Hh. rewrite (root_of_notes _ _ (pl_notes _ _ H3)).
  unfold shielded_root_known in *. rewrite Hs by reflexivity. now apply Hroot.
Qed.

(** C24: The note tree is the list of the chain's notes.  Executing a block appends
    the commitments of its shielded transactions to the note table, in the order
    of the block, and moves no note that was there; and from the activation
    height on the root of the resulting tree is among the anchors a spend may
    use, so whatever path a wallet is served next can be used. *)
Theorem blocks_extend_note_tree b d d' cs (notes := cs ++ block_notes b)
  (Hpool : pool_sealed cs d) (Hroom : N.of_nat (length notes) < 2 ^ 64) (Hrun : run (execute_block b) d = (Ok tt, d')) :
  pool_sealed notes d' /\ shielded_leaves d' = notes /\
  (shielded_activation <= b_height b -> shielded_root_known (shielded_root d') d' = true).
Proof. exact (block_appends b d d' cs Hpool Hroom Hrun). Qed.

(** A store without rows of the pool has no notes. *)
Lemma pool_blank d : (forall k, pool_key k = true -> d !! k = None) -> pool_sealed [] d.
Proof.
  intros H. assert (shielded_last_sealed_count d = 0) as Hs by (unfold shielded_last_sealed_count, meta_number; now rewrite H).
  split; [|rewrite Hs; reflexivity|rewrite Hs; lia]. unfold note_table. rewrite (rows_ext T_SHIELDED_LEAVES d ∅).
  - unfold rows. now rewrite map_to_list_empty.
  - intros k. rewrite lookup_empty. now apply H.
Qed.
End frames.

Section sealing_one.
Context {HC : Crypto} {HF : Fr} {HK : Compression} {HP : ChainParams} {HJ : EvidenceJson} {HW : Wasm} {HG : Groth16}.
Lemma run_batch_one height tx fee d' s : run (apply_tx tx height) (db s) = (Ok fee, d') ->
  (run_batch height [tx] [] 0 s).1.1 = [tx].
Proof.
  intros E. cbn [run_batch]. pose proof (journaled_commit (apply_tx tx height) s) as [Hr _].
  unfold begin_tx. rewrite (run_res (apply_tx tx height) s) in Hr.
  assert (res_after (apply_tx tx height) (db s) = Ok fee) as Ef by now injection E. rewrite Ef in Hr.
  destruct (apply_tx tx height (begin s)) as [[f|] s1]; [done|discriminate Hr].
Qed.
(** A batch of one transaction that executes is sealed whole. *)
Lemma seal_one k height parent now tx fee d' s : run (apply_tx tx height) (db s) = (Ok fee, d') ->
  b_transactions (seal_batch k height parent now [tx] s).1 = [tx] /\ b_height (seal_batch k height parent now [tx] s).1 = height.
Proof.
  intros E. unfold seal_batch. pose proof (run_batch_one height tx fee d' (begin_block s) E) as Hone.
  destruct (run_batch _ _ _ _ _) as [[txs fees] s1]. cbn in Hone. now subst txs.
Qed.
End sealing_one.

Section shielding.
Context {HC : Crypto} {HF : Fr} {HK : Compression} {HP : ChainParams} {HJ : EvidenceJson} {HW : Wasm} {HG : Groth16}.

(** A deposit whose guards pass executes. *)
Lemma shield_executes tx data h d addr cm : tx_kind tx = Shield -> tx_shielded tx = Some data -> sender tx = Some addr ->
  tx_nonce tx = nonce (account addr d) -> debit_of tx <= balance (account addr d) -> shielded_activation <= h ->
  check_shielded_shape tx = Ok tt -> fr_from_hex (nth 0 (commitments data) "") = Some cm -> cm <> f_of 0 ->
  shielded_pool_balance d + tx_amount tx <= U128_MAX -> exists d', run (apply_tx tx h) d = (Ok (collected_of tx), d').
Proof.
  intros Hk Hdata Hs Hn Hd Hh Hshape Hcm Hnz Hpool. unfold apply_tx. rewrite Hs. cbn [ok_or]. runs.
  unfold precheck_kind. rewrite Hk. runs. rewrite Hn, N.eqb_refl. cbn [negb]. runs. rewrite (proj2 (N.ltb_ge _ _) Hd). runs.
  unfold apply_kind. rewrite Hk. runs. rewrite run_set_account. runs. set (d1 := db_after _ _).
  assert (shielded_pool_balance d1 = shielded_pool_balance d) as Hp by apply pool_set_account.
  unfold apply_shielded. rewrite (proj2 (N.ltb_ge _ _) Hh), Hdata, Hk. cbn [ok_or]. runs. rewrite Hshape. runs.
  unfold apply_shield. rewrite Hcm. cbn [ok_or]. runs. rewrite bool_decide_false by done. runs. unfold shielded_append. runs.
  set (d2 := <[_ := _]> d1). assert (shielded_pool_balance d2 = shielded_pool_balance d) as Hp2.
  { rewrite <- Hp. unfold d2, shielded_pool_balance, meta_number. now rewrite lookup_insert_ne. }
  unfold checked_add128. rewrite Hp2, (proj2 (N.leb_le _ _) Hpool). cbn [ok_or]. runs. unfold shielded_set_pool_balance. runs. eauto.
Qed.
End shielding.

(** Alice shields seven hundred at the activation height. *)
Module Tree_example.
Import Toy Toy_field Exec_example.

Definition note : string := fr_to_hex (f_of 7).
Definition shield : Transaction := Build_Transaction Shield (pubkey_hex key) alice 700 1000 0 CHAIN_ID None
  (Some {| anchor := ""; nullifiers := []; commitments := [note]; sh_proof := ""; public_unshield := "" |}) "".
Lemma shield_runs : exists d', run (apply_tx shield 1000) Exec_example.d0 = (Ok (collected_of shield), d').
Proof.
  apply (shield_executes shield {| anchor := ""; nullifiers := []; commitments := [note]; sh_proof := ""; public_unshield := "" |} 1000 Exec_example.d0 alice (f_of 7)).
  - reflexivity.
  - reflexivity.
  - vm_compute. reflexivity.
  - vm_compute. reflexivity.
  - vm_compute. discriminate.
  - vm_compute. discriminate.
  - vm_compute. reflexivity.
  - apply fr_hex_round_trip.
  - intros E. apply (f_equal f_to) in E. vm_compute in E. discriminate E.
  - vm_compute. discriminate.
Qed.
Definition sealed : Block * Store := seal_batch key 1000 zero_hash 2000 [shield] (mk Exec_example.d0 []).
Lemma deposit_executes : run (execute_block sealed.1) Exec_example.d0 = (Ok tt, db sealed.2).
Proof.
  pose proof (sealed_replays key 1000 zero_hash 2000 [shield] (mk Exec_example.d0 [])) as Hs. fold sealed in Hs. now destruct sealed.
Qed.
Lemma deposit_notes : block_notes sealed.1 = [note] /\ b_height sealed.1 = 1000.
Proof.
  destruct shield_runs as (d' & E). apply (seal_one key 1000 zero_hash 2000 shield _ d' (mk Exec_example.d0 [])) in E as [H Hh].
  split; [|exact Hh]. unfold block_notes, sealed. now rewrite H.
Qed.
Lemma d0_sealed : pool_sealed [] Exec_example.d0.
Proof.
  split; [|reflexivity|intros Hp; exfalso; revert Hp; vm_compute; discriminate].
  unfold note_table, rows, Exec_example.d0. now rewrite map_to_list_singleton.
Qed.
Lemma blocks_extend_note_tree_witness :
  shielded_leaves (db sealed.2) = [note] /\ shielded_root_known (shielded_root (db sealed.2)) (db sealed.2) = true.
Proof.
  destruct deposit_notes as [Hn Hh].
  destruct (blocks_extend_note_tree sealed.1 Exec_example.d0 (db sealed.2) [] d0_sealed) as (_ & H1 & H2);
    [rewrite Hn; reflexivity|exact deposit_executes|]. rewrite Hn in H1. split; [exact H1|]. apply H2. rewrite Hh. vm_compute. discriminate.
Defined.
End Tree_example.
