(* ===== verification/History.v ===== *)
(** The chain as a whole: what holds of the state after any list of blocks from
    the genesis, for the supply, the nonces, the links and the notes. *)

From S2P Require Import Prelude Bytes Crypto Types Journal Store Smt SmtFacts Poseidon Shielded State StateFacts.
From S2P Require Import Fees Staking Tokens Slashing Contracts SignGuard Circuit Exec ExecFacts Chain ChainFacts Mirror Snapshot SnapshotFacts ShieldFacts NoteTree.
From Stdlib Require String.

(** ** Histories *)

(** The marks of a node beside its chain: the halt mark, the pruning mark, the
    checkpoint and the finalized height.  And the history an operator may prune. *)
Definition side_mark (k : Key) : bool :=
  bool_decide (k.1 = T_META /\ k.2 ∈ ["halt_reason"; "pruned_below"; "state_checkpoint"; "finalized_height"]).
Definition prunable (t : TreeId) : bool := bool_decide (t ∈ [T_BLOCKS; T_TXS; T_RECEIPTS]).
(** What happens beside the chain: marks change, history rows are deleted. *)
Definition aside (d d' : Db) : Prop :=
  forall k, d' !! k = d !! k \/ side_mark k = true \/ prunable k.1 = true /\ d' !! k = None.
#[export] Instance aside_preorder : PreOrder aside.
Proof.
  split; [intros d k; now left|]. intros d1 d2 d3 H1 H2 k. destruct (H2 k) as [E|H]; [|now right].
  destruct (H1 k) as [E1|[H|[H E1]]]; [left; congruence|now right; left|right; right; split; congruence].
Qed.
Lemma aside_put k v d : side_mark k = true -> aside d (<[k := v]> d).
Proof. intros Hk k'. destruct (decide (k' = k)) as [->|]; [now right; left|left; now apply lookup_insert_ne]. Qed.
Lemma aside_delete k d : side_mark k = true \/ prunable k.1 = true -> aside d (delete k d).
Proof.
  intros Hk k'. destruct (decide (k' = k)) as [->|]; [|left; now apply lookup_delete_ne].
  destruct Hk as [Hk|Hk]; [now right; left|right; right; split; [exact Hk|apply lookup_delete_eq]].
Qed.

(** What neither that nor a rebuild of the Merkle tree touches: every row that is
    not a mark, prunable or of the tree; and no history row is added. *)
Definition side_key (k : Key) : bool :=
  side_mark k || prunable k.1 || bool_decide (k.1 = T_SMT \/ k = (T_META, "smt_version")).
Definition beside (d d' : Db) : Prop := forall k, side_key k = false -> d' !! k = d !! k.
Definition thinned (d d' : Db) : Prop := forall k v, prunable k.1 = true -> d' !! k = Some v -> d !! k = Some v.
Lemma aside_beside d d' : aside d d' -> beside d d' /\ thinned d d'.
Proof.
  intros H. split.
  - intros k Hk. unfold side_key in Hk. apply orb_false_iff in Hk as [[H1 H2]%orb_false_iff _].
    destruct (H k) as [E|[E|[E _]]]; [exact E|congruence..].
  - intros k v Hk E. destruct (H k) as [E'|[E'|[_ E']]]; [congruence| |congruence].
    unfold side_mark in E'. apply bool_decide_eq_true in E' as [E' _]. rewrite E' in Hk. discriminate.
Qed.

(** A store a chain starts on: empty, or what a reset leaves. *)
Definition blank (d : Db) : Prop := forall k, is_Some (d !! k) -> survives_reset k = true.
Lemma blank_empty : blank ∅.
Proof. intros k [v H]. now rewrite lookup_empty in H. Qed.
Lemma blank_reset s : blank (db (reset_chain s)).
Proof. intros k [v H]. unfold reset_chain, raw_filter in H. cbn [db] in H. now apply map_lookup_filter_Some in H as [_ H]. Qed.
Lemma blank_none k d : blank d -> survives_reset k = false -> d !! k = None.
Proof. intros H Hk. destruct (d !! k) eqn:E; [|done]. rewrite (H k) in Hk; [discriminate|eauto]. Qed.

Section chains.
Context {HC : Crypto} {HF : Fr} {HK : Compression} {HP : ChainParams} {HJ : EvidenceJson} {HW : Wasm} {HG : Groth16}.

(** The blocks a store came from, by the operations of the node: the genesis, a
    block that passes the checks of an import and executes, a block the node seals
    on its tip, marks and prunings, and a rebuild of the Merkle tree. *)
Inductive chained (g : Genesis) : list Block -> Db -> Prop :=
| ch_genesis d0 b d : blank d0 -> run (init_genesis g) d0 = (Ok b, d) -> chained g [] d
| ch_import cpus now now_w bs b d d' : chained g bs d -> import_checks cpus g now now_w b d = Ok true ->
    run (execute_block b) d = (Ok tt, d') -> chained g (bs ++ [b]) d'
| ch_seal k ts batch bs s (sealed := seal_batch k (tip (db s) +!! 1) (tip_hash (db s)) ts batch s) :
    chained g bs (db s) -> chained g (bs ++ [sealed.1]) (db sealed.2)
| ch_aside bs d d' : chained g bs d -> aside d d' -> chained g bs d'
| ch_rebuild h bs s : chained g bs (db s) -> chained g bs (db (build_merkle_state h s).2).

(** ** What the checks of an import and the sealing of a block have in common *)

(** A block that follows a store: the next height, its parent the tip, its hash
    that of its header, which carries the root of its transactions. *)
Record extends (b : Block) (d : Db) : Prop := {
  ex_height : b_height b = tip d +!! 1;
  ex_parent : b_parent_hash b = tip_hash d;
  ex_hash : b_hash b = compute_hash b;
  ex_txs : b_txs_root b = txs_root (b_transactions b)
}.
Lemma verified_hash b : verify_producer b = true -> b_hash b = compute_hash b.
Proof.
  unfold verify_producer. destruct (hex_bytes 32 _) as [raw|]; [|discriminate].
  destruct (negb (String.eqb (address_from_pubkey _) _)); [discriminate|]. destruct (String.eqb_spec (b_hash b) (compute_hash b)); [done|discriminate].
Qed.
Lemma import_checks_ok cpus g now now_w b d : import_checks cpus g now now_w b d = Ok true -> extends b d.
Proof.
  unfold import_checks, tip. destruct (tip_height d) as [t|] eqn:Et; [|discriminate]. cbn [ok_or mbind result_bind].
  destruct (_ <=? _); [discriminate|]. destruct (N.eqb_spec (b_height b) (t +!! 1)) as [Hh|]; [|discriminate]. cbn [negb].
  destruct (String.eqb_spec (b_parent_hash b) (tip_hash d)) as [Hp|]; [|discriminate]. cbn [negb].
  destruct (verify_producer b) eqn:Hv; [|discriminate]. cbn [negb]. destruct (_ <? _); [discriminate|].
  destruct (String.eqb_spec (txs_root (b_transactions b)) (b_txs_root b)) as [Hr|]; [|discriminate]. intros _.
  split; [unfold tip; now rewrite Et|exact Hp|now apply verified_hash|done].
Qed.
Lemma sealed_extends k ts batch s (sealed := seal_batch k (tip (db s) +!! 1) (tip_hash (db s)) ts batch s) :
  extends sealed.1 (db s) /\ run (execute_block sealed.1) (db s) = (Ok tt, db sealed.2).
Proof.
  split; [|pose proof (sealed_replays k (tip (db s) +!! 1) (tip_hash (db s)) ts batch s) as H; unfold sealed; now destruct (seal_batch _ _ _ _ _ _)].
  unfold sealed, seal_batch. destruct (run_batch _ _ _ _ _) as [[txs fees] s1]. now split.
Qed.
Lemma build_beside h s : beside (db s) (db (build_merkle_state h s).2) /\ thinned (db s) (db (build_merkle_state h s).2).
Proof.
  split; intros [t k].
  - intros Hk. unfold side_key in Hk. apply orb_false_iff in Hk as [_ Hk%bool_decide_eq_false].
    apply build_rows; intros E; apply Hk; [left; exact E|right; exact E].
  - intros v Hk. rewrite build_rows; [done| |]; [intros ->; discriminate Hk|intros [= -> _]; discriminate Hk].
Qed.

(** Induction over a chain, block by block, and over what happens between. *)
Lemma chained_blocks_ind (g : Genesis) (P : list Block -> Db -> Prop) :
  (forall d0 b d, blank d0 -> run (init_genesis g) d0 = (Ok b, d) -> P [] d) ->
  (forall bs b d d', chained g bs d -> P bs d -> extends b d -> run (execute_block b) d = (Ok tt, d') -> P (bs ++ [b]) d') ->
  (forall bs d d', chained g bs d -> P bs d -> beside d d' -> thinned d d' -> P bs d') ->
  forall bs d, chained g bs d -> P bs d.
Proof.
  intros H0 H1 H2 bs d. induction 1 as [d0 b d Hb E|cpus now now_w bs b d d' H IH Hc E|k ts batch bs s sealed H IH|bs d d' H IH Ha|h bs s H IH].
  - exact (H0 d0 b d Hb E).
  - exact (H1 bs b d d' H IH (import_checks_ok _ _ _ _ _ _ Hc) E).
  - destruct (sealed_extends k ts batch s) as [He E]. exact (H1 bs _ _ _ H IH He E).
  - destruct (aside_beside d d' Ha) as [Hn Ht]. exact (H2 bs d d' H IH Hn Ht).
  - destruct (build_beside h s) as [Hn Ht]. exact (H2 bs _ _ H IH Hn Ht).
Qed.

Definition txs_of_chain (bs : list Block) : list Transaction := concat (map b_transactions bs).
Lemma txs_snoc bs b : txs_of_chain (bs ++ [b]) = txs_of_chain bs ++ b_transactions b.
Proof. unfold txs_of_chain. rewrite map_app, concat_app. cbn [map concat]. now rewrite app_nil_r. Qed.

(** ** Tips *)

Lemma u64_row_some h : is_Some (as_u64 (u64_row h)).
Proof. unfold as_u64, u64_row. cbn [as_bytes mbind option_bind]. rewrite slen_be. cbn [Nat.eqb]. eauto. Qed.
Lemma tip_of_row h d : h <= U64_MAX -> d !! (T_META, "tip_height") = Some (u64_row h) -> tip d = h.
Proof. intros Hh H. unfold tip, tip_height, meta_u64. rewrite H. cbn [mbind option_bind]. now rewrite u64_row_reads. Qed.
#[export] Instance total_put_block b : Total (put_block b).
Proof. unfold put_block. total. Qed.
Lemma store_block_tip b d r d' : run (store_block b) d = (r, d') ->
  d' !! (T_META, "tip_height") = Some (u64_row (b_height b)) /\ d' !! (T_META, "tip_hash") = Some (VBytes (b_hash b)).
Proof.
  destruct (put_block_rows b d) as (_ & H1 & H2 & _). unfold store_block. runs. rewrite run_total by apply _. runs.
  unfold set_base_fee. rewrite run_jput. intros [= _ <-]. rewrite !lookup_insert_ne by discriminate. now split.
Qed.

Lemma execute_tip b d d' : b_height b <= U64_MAX -> run (execute_block b) d = (Ok tt, d') -> tip d' = b_height b /\ tip_hash d' = b_hash b.
Proof.
  intros Hh (d1 & fees & d2 & _ & _ & _ & Hstore)%execute_block_ok. apply store_block_tip in Hstore as [H1 H2].
  split; [now apply tip_of_row|]. unfold tip_hash. now rewrite H2.
Qed.

(** ** The genesis *)

Lemma genesis_ok g b d0 d : run (init_genesis g) d0 = (Ok b, d) ->
  exists d1, run (for_each (g_alloc g) allocate) d0 = (Ok tt, d1) /\ b_height b = 0 /\ run (put_block b) d1 = (Ok tt, d).
Proof.
  unfold init_genesis. intros E. step_ok E H1 e1. step_ok E H2 e2. step_ok E H3 d1. step_ok E H4 e4. step_ok E H5 d2.
  apply run_ret_ok in E as [-> ->]. exists d1. split; [exact H3|]. split; [reflexivity|exact H5].
Qed.

Lemma genesis_no_txs g b d0 d : run (init_genesis g) d0 = (Ok b, d) -> b_transactions b = [].
Proof.
  unfold init_genesis. intros E. step_ok E H1 e1. step_ok E H2 e2. step_ok E H3 d1. step_ok E H4 e4. step_ok E H5 d2.
  now apply run_ret_ok in E as [-> _].
Qed.

(** The coins a line of the genesis file grants. *)
Definition allocation (a : GenesisAlloc) : N :=
  default 0 (match parse_inaz (ga_balance a) with Ok n => Some n | Err _ => None end) +
  match ga_stake a with Some st => default 0 (match parse_inaz st with Ok n => Some n | Err _ => None end) | None => 0 end.
Definition allocated (g : Genesis) : N := sumN allocation (g_alloc g).

Lemma allocate_ok ga d d' : coins d + allocation ga < 2 ^ 128 -> run (allocate ga) d = (Ok tt, d') ->
  coins d' = coins d + allocation ga /\ evolved d d'.
Proof.
  unfold allocate, allocation. intros Hb E. step_ok E H1 e1. step_ok E H2 e2. step_ok E H3 e3. step_ok E H4 e4.
  pose proof (account_funds_le_coins (ga_address ga) d) as Hle. rewrite H3 in *. change (default 0 (Some a)) with a in *.
  rewrite run_set_account in E. injection E as <-. rename a0 into acct'. set (acct := account (ga_address ga) d) in *.
  assert (account_funds acct' = account_funds acct + (a + match ga_stake ga with Some st => default 0 (match parse_inaz st with Ok n => Some n | Err _ => None end) | None => 0 end) /\
    evolved_account acct acct') as [Hf He].
  { unfold account_funds in *. destruct (ga_stake ga) as [st|].
    - destruct (parse_inaz st) as [n|]; [|discriminate H4]. cbn in H4. injection H4 as <-. unfold default, id in *. cbn [with_staked with_balance balance staked unbonding] in *.
      rewrite (wadd_small 128 (balance acct)), (wadd_small 128 (staked acct)) by lia. split; [lia|done].
    - injection H4 as <-. unfold default, id in *. cbn [with_balance balance staked unbonding] in *. rewrite (wadd_small 128 (balance acct)) by lia. split; [lia|done]. }
  pose proof (coins_set_account (ga_address ga) acct' d) as Hs. fold acct in Hs. split; [lia|]. now apply evolved_set.
Qed.
Lemma allocations_ok l : forall d d', coins d + sumN allocation l < 2 ^ 128 -> run (for_each l allocate) d = (Ok tt, d') ->
  coins d' = coins d + sumN allocation l /\ evolved d d'.
Proof.
  induction l as [|a l IH]; intros d d' Hb E; cbn [for_each] in E.
  - apply run_ret_ok in E as [_ ->]. split; [cbn; lia|reflexivity].
  - step_ok E H1 d1. cbn [sumN foldr] in Hb. change (foldr _ 0 l) with (sumN allocation l) in Hb.
    apply allocate_ok in H1 as [H1 H2]; [|lia]. apply IH in E as [H3 H4]; [|lia].
    split; [|etransitivity; eassumption]. cbn [sumN foldr]. change (foldr _ 0 l) with (sumN allocation l). lia.
Qed.

Lemma blank_account a d : blank d -> account a d = default_account.
Proof. intros H. unfold account. now rewrite (blank_none _ _ H). Qed.
Lemma blank_coins d : blank d -> coins d = 0.
Proof.
  intros H. unfold coins. assert (funds d = 0) as ->.
  { rewrite <- (msum_empty row_funds). apply (msum_agree _ (fun k => k.1 = T_ACCOUNTS)).
    - intros [t k] v Ht. destruct t; done.
    - intros [t k] Ht. cbn in Ht. subst t. rewrite lookup_empty. now apply blank_none. }
  unfold shielded_pool_balance, meta_number. now rewrite (blank_none _ _ H).
Qed.

(** ** What the rows beside the state do not touch *)

Lemma beside_ledger d d' : beside d d' -> same_ledger d d'.
Proof. intros H [t k] Hk. apply H. unfold ledger_key in Hk. apply orb_true_iff in Hk as [Hk%bool_decide_eq_true|Hk%bool_decide_eq_true]; [cbn in Hk; now subst t|now injection Hk as -> ->]. Qed.
Lemma beside_tree d d' : beside d d' -> same_tree d d'.
Proof.
  intros H [t k] Hk. apply H. unfold pool_key in Hk. rewrite !orb_true_iff, !bool_decide_eq_true in Hk. cbn [fst] in Hk.
  destruct Hk as [[->| ->]|[= -> ->]]; reflexivity.
Qed.
Lemma beside_tip d d' : beside d d' -> tip d' = tip d /\ tip_hash d' = tip_hash d.
Proof. intros H. unfold tip, tip_height, meta_u64, tip_hash. now rewrite !H by reflexivity. Qed.

(** ** Supply *)

Lemma block_supply b d d' : coins d < 2 ^ 99 -> run (execute_block b) d = (Ok tt, d') ->
  exists burned, coins d' + burned = coins d + BLOCK_REWARD /\
    (no_reports (b_transactions b) /\ b_height b < slashing_activation -> burned = 0).
Proof.
  intros Hs (d1 & fees & d2 & Htxs & Hclose & _ & Hstore)%execute_block_ok.
  apply coins_execute_txs in Htxs as (burned1 & Hc1 & Hn1); [|lia].
  apply coins_close in Hclose as (burned2 & Hc2 & Hn2); [|lia].
  apply run_neutral in Hstore; [|apply _]. apply same_ledger_coins in Hstore.
  exists (burned1 + burned2). split; [lia|]. intros [Hr Hh]. rewrite Hn1, Hn2 by done. lia.
Qed.

(** Blocks that burn nothing: no reports, below the slashing fork. *)
Definition harmless (b : Block) : Prop := no_reports (b_transactions b) /\ b_height b < slashing_activation.
Lemma chain_supply g bs d : chained g bs d -> allocated g + N.of_nat (length bs) * BLOCK_REWARD < 2 ^ 99 ->
  exists burned, coins d + burned = allocated g + N.of_nat (length bs) * BLOCK_REWARD /\ (Forall harmless bs -> burned = 0).
Proof.
  induction 1 as [d0 b d Hblank E|bs b d d' _ IH _ E|bs d d' _ IH Ha _] using chained_blocks_ind; intros Hb.
  - apply genesis_ok in E as (d1 & E & _ & Hput). assert (2 ^ 99 < 2 ^ 128) by reflexivity.
    pose proof (blank_coins d0 Hblank) as H0. apply allocations_ok in E as [E _]; [|unfold allocated in *; cbn in *; lia].
    apply run_neutral in Hput; [|frames]. apply same_ledger_coins in Hput. exists 0. cbn [length]. fold (allocated g) in E. split; [lia|done].
  - rewrite length_app in *. cbn [length] in *. assert (1 <= BLOCK_REWARD) by (vm_compute; discriminate).
    destruct IH as (burned & IH & Hz); [lia|]. apply block_supply in E as (burned2 & E & Hz2); [|lia].
    exists (burned + burned2). split; [lia|]. intros [Hall [Hlast _]%Forall_cons]%Forall_app. rewrite Hz, Hz2 by done. lia.
  - rewrite (same_ledger_coins d d' (beside_ledger _ _ Ha)). now apply IH.
Qed.

(** ** Nonces *)

(** The transactions of one sender. *)
Definition sent_by (a : string) (txs : list Transaction) : list Transaction := filter (fun tx => sender tx = Some a) txs.
Definition sends (bs : list Block) (a : string) : list Transaction := sent_by a (txs_of_chain bs).

(** [n], [n + 1], … *)
Definition counting (n : N) (l : list Transaction) : Prop := forall i tx, l !! i = Some tx -> tx_nonce tx = n + N.of_nat i.
Lemma counting_nil n : counting n [].
Proof. intros [|i] t Hi; discriminate Hi. Qed.
Lemma counting_app n l1 l2 : counting n l1 -> counting (n + N.of_nat (length l1)) l2 -> counting n (l1 ++ l2).
Proof.
  intros H1 H2 i tx Hi. apply lookup_app_Some in Hi as [Hi|[Hl Hi]]; [now apply H1|]. apply H2 in Hi. lia.
Qed.

(** Nonces of an account after a list of its transactions. *)
Definition advanced (a : string) (txs : list Transaction) (d d' : Db) : Prop :=
  nonce (account a d) + N.of_nat (length (sent_by a txs)) < 2 ^ 64 ->
  nonce (account a d') = nonce (account a d) + N.of_nat (length (sent_by a txs)) /\ counting (nonce (account a d)) (sent_by a txs).

Lemma apply_tx_advances a tx h d fee d' : run (apply_tx tx h) d = (Ok fee, d') -> advanced a [tx] d d'.
Proof.
  intros (s & Hs & _ & Hn & _ & _ & E)%run_apply_tx. apply evolved_apply_kind in E. destruct (E a) as [En _]. unfold advanced, sent_by.
  rewrite account_set_account in En. destruct (decide (a = s)) as [->|Hne].
  - rewrite filter_cons_True by exact Hs. cbn [length filter list_filter]. intros Hb. rewrite En. unfold debited. cbn [nonce with_nonce].
    split; [unfold wadd; rewrite wrap_small by lia; lia|]. intros [|i] t Hi; [injection Hi as <-; lia|discriminate Hi].
  - rewrite filter_cons_False by congruence. cbn [length]. intros _. rewrite En. split; [cbn; lia|]. apply counting_nil.
Qed.
Lemma advanced_app a l1 l2 d1 d2 d3 : advanced a l1 d1 d2 -> advanced a l2 d2 d3 -> advanced a (l1 ++ l2) d1 d3.
Proof.
  unfold advanced, sent_by. rewrite filter_app, length_app. intros H1 H2 Hb. destruct H1 as [N1 C1]; [lia|]. rewrite N1 in H2.
  destruct H2 as [N2 C2]; [lia|]. split; [lia|]. now apply counting_app.
Qed.
Lemma advanced_still a d d' : nonce (account a d') = nonce (account a d) -> advanced a [] d d'.
Proof. intros E Hb. cbn. split; [rewrite E; lia|]. apply counting_nil. Qed.

Lemma execute_txs_advance a h txs : forall fees d total d', run (execute_txs h txs fees) d = (Ok total, d') -> advanced a txs d d'.
Proof.
  induction txs as [|tx txs IH]; intros fees d total d' E; unfold execute_txs in E; cbn [fold_m] in E.
  - apply run_ret_ok in E as [_ ->]. now apply advanced_still.
  - step_ok E H1 d1. apply import_tx_ok in H1 as (fee & H1 & ->). apply (advanced_app a [tx] txs d d1 d'); [exact (apply_tx_advances _ _ _ _ _ _ H1)|].
    exact (IH _ _ _ _ E).
Qed.
Lemma block_advances a b d d' : coins d < 2 ^ 99 -> run (execute_block b) d = (Ok tt, d') -> advanced a (b_transactions b) d d'.
Proof.
  intros Hs (d1 & fees & d2 & Htxs & Hclose & _ & Hstore)%execute_block_ok. rewrite <- (app_nil_r (b_transactions b)).
  apply (advanced_app a _ [] d d1 d'); [exact (execute_txs_advance _ _ _ _ _ _ _ Htxs)|]. apply advanced_still.
  apply coins_execute_txs in Htxs as (burned1 & Hc1 & _); [|lia]. assert (2 ^ 99 < 2 ^ 128) by reflexivity.
  apply evolved_close in Hclose; [|unfold coins in *; lia]. apply run_neutral in Hstore; [|apply _].
  rewrite (same_ledger_account d2 d') by done. now destruct (Hclose a).
Qed.

Lemma chain_nonces g bs d a : chained g bs d -> allocated g + N.of_nat (length bs) * BLOCK_REWARD < 2 ^ 99 ->
  N.of_nat (length (sends bs a)) < 2 ^ 64 ->
  nonce (account a d) = N.of_nat (length (sends bs a)) /\ counting 0 (sends bs a).
Proof.
  induction 1 as [d0 b d Hblank E|bs b d d' Hh IH _ E|bs d d' _ IH Ha _] using chained_blocks_ind; intros Hb Hn.
  - apply genesis_ok in E as (d1 & E & _ & Hput). assert (2 ^ 99 < 2 ^ 128) by reflexivity.
    apply allocations_ok in E as [_ E]; [|rewrite (blank_coins d0 Hblank); unfold allocated in *; cbn in *; lia].
    apply run_neutral in Hput; [|frames]. rewrite (same_ledger_account d1 d a Hput). destruct (E a) as [-> _].
    rewrite (blank_account a d0 Hblank). split; [reflexivity|]. apply counting_nil.
  - rewrite length_app in Hb. cbn [length] in Hb. assert (1 <= BLOCK_REWARD) by (vm_compute; discriminate).
    unfold sends in *. rewrite txs_snoc in *. unfold sent_by in *. rewrite filter_app in *. rewrite length_app in *.
    destruct IH as [IH1 IH2]; [lia..|]. destruct (chain_supply g bs d Hh) as (burned & Hc & _); [lia|].
    apply (block_advances a) in E; [|lia]. unfold advanced, sent_by in E. rewrite IH1 in E. destruct E as [E1 E2]; [lia|].
    split; [lia|]. now apply counting_app.
  - rewrite (same_ledger_account d d' a (beside_ledger _ _ Ha)). now apply IH.
Qed.

(** Distinct nonces, sender by sender, make a list without repetition. *)
Lemma counting_NoDup n l : counting n l -> NoDup l.
Proof.
  intros H. apply NoDup_alt. intros i j tx Hi Hj. apply H in Hi. apply H in Hj. lia.
Qed.
Lemma NoDup_by_sender l : Forall (fun tx => is_Some (sender tx)) l -> (forall a, NoDup (sent_by a l)) -> NoDup l.
Proof.
  induction l as [|tx l IH]; intros Hs Hn; [constructor|]. apply Forall_cons in Hs as [[a Ha] Hs]. constructor.
  - specialize (Hn a). unfold sent_by in Hn. rewrite filter_cons_True in Hn by done. apply NoDup_cons in Hn as [Hn _].
    intros Hin. apply Hn, list_elem_of_filter. done.
  - apply IH; [done|]. intros b. specialize (Hn b). unfold sent_by in *. rewrite filter_cons in Hn. case_decide; [now apply NoDup_cons in Hn as [_ Hn]|done].
Qed.
Lemma execute_txs_senders h txs : forall fees d total d', run (execute_txs h txs fees) d = (Ok total, d') -> Forall (fun tx => is_Some (sender tx)) txs.
Proof.
  induction txs as [|tx txs IH]; intros fees d total d' E; [constructor|]. unfold execute_txs in E; cbn [fold_m] in E.
  step_ok E H1 d1. apply import_tx_ok in H1 as (fee & H1 & ->). apply run_apply_tx in H1 as (s & Hs & _). constructor; [now exists s|].
  exact (IH _ _ _ _ E).
Qed.
Lemma chain_senders g bs d : chained g bs d -> Forall (fun tx => is_Some (sender tx)) (txs_of_chain bs).
Proof.
  induction 1 as [| bs b d d' _ IH _ E|bs d d' _ IH _ _] using chained_blocks_ind; [constructor| |exact IH]. rewrite txs_snoc. apply Forall_app. split; [exact IH|].
  apply execute_block_ok in E as (d1 & fees & d2 & Htxs & _). exact (execute_txs_senders _ _ _ _ _ _ Htxs).
Qed.
Lemma sent_by_length a l : (length (sent_by a l) <= length l)%nat.
Proof. apply length_filter. Qed.

(** ** Links *)

Record linked (bs : list Block) (d : Db) : Prop := {
  lk_heights : forall i b, bs !! i = Some b -> b_height b = N.of_nat (S i);
  lk_hashes : forall i b, bs !! i = Some b -> b_hash b = compute_hash b /\ b_txs_root b = txs_root (b_transactions b);
  lk_parents : forall i b1 b2, bs !! i = Some b1 -> bs !! S i = Some b2 -> b_parent_hash b2 = compute_hash b1;
  lk_tip : tip d = N.of_nat (length bs);
  lk_hash : forall b, last bs = Some b -> tip_hash d = compute_hash b
}.
Lemma linked_snoc bs b d d' : N.of_nat (S (length bs)) < 2 ^ 64 -> linked bs d -> extends b d ->
  run (execute_block b) d = (Ok tt, d') -> linked (bs ++ [b]) d'.
Proof.
  intros Hb [L1 L5 L2 L3 L4] [Hheight Hparent Hhash Hroot] E.
  rewrite L3 in Hheight. unfold wadd in Hheight. rewrite wrap_small in Hheight by lia.
  apply execute_tip in E as [T1 T2]; [|change U64_MAX with (2 ^ 64 - 1); lia]. split.
  - intros i x [Hi|[Hge Hi]]%lookup_app_Some; [now apply L1|].
    apply list_lookup_singleton_Some in Hi as [Hi <-]. rewrite Hheight. lia.
  - intros i x [Hi|[_ Hi]]%lookup_app_Some; [exact (L5 i x Hi)|]. apply list_lookup_singleton_Some in Hi as [_ <-]. split; [exact Hhash|exact Hroot].
  - intros i x y Hx Hy. destruct (decide (S i < length bs)%nat) as [Hl|Hl].
    + rewrite lookup_app_l in Hx, Hy by lia. exact (L2 i x y Hx Hy).
    + assert (S i = length bs) as Hi by (apply lookup_lt_Some in Hy; rewrite length_app in Hy; cbn [length] in Hy; lia).
      rewrite lookup_app_r, Hi, Nat.sub_diag in Hy by lia. injection Hy as <-. rewrite lookup_app_l in Hx by lia.
      rewrite Hparent. apply L4. rewrite last_lookup, <- Hi. exact Hx.
  - rewrite T1, Hheight, length_app. cbn [length]. lia.
  - intros x Hx. rewrite last_snoc in Hx. injection Hx as <-. rewrite T2. exact Hhash.
Qed.
Lemma chain_linked g bs d : chained g bs d -> N.of_nat (length bs) < 2 ^ 64 -> linked bs d.
Proof.
  induction 1 as [d0 b d Hblank E|bs b d d' _ IH Hx E|bs d d' _ IH Ha _] using chained_blocks_ind; intros Hb.
  - apply genesis_ok in E as (d1 & _ & Hz & Hput). injection Hput as _ <-. split; [done..| |done].
    destruct (put_block_rows b d1) as (_ & Htip & _). rewrite Hz in Htip. now apply tip_of_row.
  - rewrite length_app in Hb. cbn [length] in Hb. apply (linked_snoc bs b d d'); [lia|apply IH; clear -Hb; lia|exact Hx|exact E].
  - destruct (IH Hb) as [L1 L2 L3 L4 L5]. destruct (beside_tip _ _ Ha) as [H1 H2]. split; [done..|now rewrite H1|]. intros x Hx. rewrite H2. now apply L5.
Qed.

(** ** What is filed *)

(** The rows of the blocks and of the index of transactions that storing [b] adds. *)
Definition enters (b : Block) (d d' : Db) : Prop :=
  (forall k v, d' !! (T_BLOCKS, k) = Some v -> d !! (T_BLOCKS, k) = Some v \/ k = height_key (b_height b) /\ v = VBlock b) /\
  (forall k v, d' !! (T_TXS, k) = Some v ->
    d !! (T_TXS, k) = Some v \/ v = u64_row (b_height b) /\ exists tx, tx ∈ b_transactions b /\ tx_hash tx = k).
#[local] Instance enters_preorder b : PreOrder (enters b).
Proof.
  split; [intros d; split; auto|]. intros d1 d2 d3 [B1 X1] [B2 X2].
  split; intros k v H; [apply B2 in H as [H|H]; [now apply B1|now right]|apply X2 in H as [H|H]; [now apply X1|now right]].
Qed.
Lemma enters_other b t k o d d' : t <> T_BLOCKS -> t <> T_TXS -> d' = partial_alter (fun _ => o) (t, k) d -> enters b d d'.
Proof. intros H1 H2 ->. split; intros k' v; rewrite lookup_partial_alter_ne by congruence; auto. Qed.
Lemma enters_jput b t k v : t <> T_BLOCKS -> t <> T_TXS -> Steps (enters b) (jput t k v).
Proof. intros H1 H2 d. rewrite db_after_jput. now apply (enters_other b t k (Some v)). Qed.
Lemma enters_jdel b t k : t <> T_BLOCKS -> t <> T_TXS -> Steps (enters b) (jdel t k).
Proof. intros H1 H2 d. rewrite db_after_jdel. now apply (enters_other b t k None). Qed.
#[local] Hint Extern 1 (Steps (enters _) (jput _ _ _)) => apply enters_jput; discriminate : typeclass_instances.
#[local] Hint Extern 1 (Steps (enters _) (jdel _ _)) => apply enters_jdel; discriminate : typeclass_instances.
#[local] Instance enters_smt_set b dom key v : Steps (enters b) (smt_set dom key v).
Proof. intros d. split; intros k v'; rewrite smt_set_other by done; auto. Qed.
#[local] Instance enters_map_err b {A} f (m : M A) : Steps (enters b) m -> Steps (enters b) (map_err f m).
Proof.
  intros Hm d. replace (db_after (map_err f m) d) with (db_after m d); [apply Hm|].
  unfold db_after, map_err. now destruct (m _) as [[?|?] ?].
Qed.
#[local] Instance enters_set_account b addr a : Steps (enters b) (set_account addr a).
Proof. frames. Qed.
#[local] Instance enters_apply_call b tx s h : Steps (enters b) (apply_call tx s h).
Proof. frames. Qed.
#[local] Instance enters_apply_report b h r e : Steps (enters b) (apply_report h r e).
Proof. frames. Qed.
#[local] Instance enters_apply_shielded b tx h : Steps (enters b) (apply_shielded tx h).
Proof. frames. Qed.
#[local] Instance enters_apply_tx b tx h : Steps (enters b) (apply_tx tx h).
Proof. frames. Qed.
#[local] Instance enters_import_tx b h f tx : Steps (enters b) (import_tx h f tx).
Proof. unfold import_tx. steps. Qed.
#[local] Instance enters_close_block b h p q f : Steps (enters b) (close_block h p q f).
Proof. frames. Qed.
#[local] Instance enters_allocate b a : Steps (enters b) (allocate a).
Proof. frames. Qed.
#[local] Instance enters_put_block b : Steps (enters b) (put_block b).
Proof.
  assert (Steps (enters b) (jput T_BLOCKS (height_key (b_height b)) (VBlock b))) as Hj.
  { intros d. rewrite db_after_jput. split; intros k v; [|rewrite lookup_insert_ne by discriminate; auto].
    rewrite lookup_insert. case_decide as Hk; [|auto]. injection Hk as <-. intros [= <-]. auto. }
  assert (forall l, (forall tx, tx ∈ l -> tx ∈ b_transactions b) ->
    Steps (enters b) (for_each l (fun tx => jput T_TXS (tx_hash tx) (u64_row (b_height b))))) as Hx.
  { induction l as [|tx l IH]; intros Hl; cbn [for_each]; [apply _|]. apply steps_bind; [apply _|intros; journaled| |intros _].
    - intros d. rewrite db_after_jput. split; intros k v; [rewrite lookup_insert_ne by discriminate; auto|].
      rewrite lookup_insert. case_decide as Hk; [|auto]. injection Hk as <-. intros [= <-]. right. split; [done|].
      exists tx. split; [apply Hl, list_elem_of_here|done].
    - apply IH. intros x Hin. apply Hl. now apply list_elem_of_further. }
  specialize (Hx _ (fun tx H => H)). unfold put_block. steps.
Qed.
#[local] Instance enters_execute_block b : Steps (enters b) (execute_block b).
Proof. unfold execute_block, store_block, set_base_fee. steps. Qed.

(** Every block on file is the block of the chain at its height, and every
    transaction the index knows is in the block the index names. *)
Record filed (bs : list Block) (d : Db) : Prop := {
  fl_blocks : forall k v, d !! (T_BLOCKS, k) = Some v -> exists b, v = VBlock b /\ k = height_key (b_height b) /\
    (b_height b = 0 \/ exists i, bs !! i = Some b);
  fl_txs : forall k v, d !! (T_TXS, k) = Some v -> exists i b tx, bs !! i = Some b /\ tx ∈ b_transactions b /\ tx_hash tx = k /\ v = u64_row (b_height b)
}.
Lemma filed_enters bs b d d' : filed bs d -> enters b d d' -> filed (bs ++ [b]) d'.
Proof.
  intros [F1 F2] [B X]. assert (forall i x, bs !! i = Some x -> (bs ++ [b]) !! i = Some x) as Hl by (intros; now apply lookup_app_l_Some).
  assert ((bs ++ [b]) !! length bs = Some b) as Hb by now apply list_lookup_middle. split; intros k v H.
  - apply B in H as [H|[-> ->]].
    + destruct (F1 k v H) as (x & -> & -> & Hx). exists x. split; [done|]. split; [done|]. destruct Hx as [|[i Hi]]; [now left|right]. eauto.
    + exists b. split; [done|]. split; [done|]. right. eauto.
  - apply X in H as [H|(-> & tx & Htx & <-)].
    + destruct (F2 k v H) as (i & x & tx & Hi & Hx). exists i, x, tx. split; [now apply Hl|exact Hx].
    + exists (length bs), b, tx. done.
Qed.
Lemma chain_filed g bs d : chained g bs d -> filed bs d.
Proof.
  induction 1 as [d0 b d Hblank E|bs b d d' _ IH _ E|bs d d' _ IH _ Ht] using chained_blocks_ind.
  - pose proof (genesis_no_txs g b d0 d E) as Hn. apply genesis_ok in E as (d1 & E & Hz & Hput). assert (enters b d0 d) as [B X].
    { transitivity d1; [|injection Hput as _ <-; apply (enters_put_block b)]. injection E as _ <-.
      pose proof (fun a => enters_allocate b a) as Ha. apply (steps_for_each (enters b) (g_alloc g) allocate); intros; apply _. }
    split; intros k v H.
    + apply B in H as [H|[-> ->]]; [|exists b; auto]. rewrite (blank_none _ _ Hblank) in H by reflexivity. discriminate.
    + apply X in H as [H|(-> & tx & Htx & <-)]; [rewrite (blank_none _ _ Hblank) in H by reflexivity; discriminate|].
      rewrite Hn in Htx. now apply elem_of_nil in Htx.
  - apply (filed_enters bs b d d' IH). injection E as _ <-. apply (enters_execute_block b).
  - destruct IH as [F1 F2]. split; intros k v H; [apply F1|apply F2]; now apply (Ht (_, k)).
Qed.

Lemma chain_initialized g bs d : chained g bs d -> is_initialized d = true.
Proof.
  unfold is_initialized, tip_height, meta_u64. induction 1 as [d0 b d _ E|bs b d d' _ _ _ E|bs d d' _ IH Ha _] using chained_blocks_ind.
  - apply genesis_ok in E as (d1 & _ & _ & Hput). injection Hput as _ <-. destruct (put_block_rows b d1) as (_ & H & _). rewrite H.
    apply bool_decide_eq_true. cbn [mbind option_bind]. apply u64_row_some.
  - apply execute_block_ok in E as (d1 & fees & d2 & _ & _ & _ & Hstore). apply store_block_tip in Hstore as [H _]. rewrite H.
    apply bool_decide_eq_true. cbn [mbind option_bind]. apply u64_row_some.
  - now rewrite Ha by reflexivity.
Qed.

(** ** Notes *)

Definition notes_of_chain (bs : list Block) : list string := concat (map block_notes bs).
Lemma chain_notes g bs d : chained g bs d -> N.of_nat (length (notes_of_chain bs)) < 2 ^ 64 -> pool_sealed (notes_of_chain bs) d.
Proof.
  induction 1 as [d0 b d Hblank E|bs b d d' _ IH _ E|bs d d' _ IH Ha _] using chained_blocks_ind; intros Hb.
  - apply (pool_same [] d0); [|injection E as _ <-; apply tree_init_genesis]. apply pool_blank. intros k Hk. apply blank_none; [exact Hblank|].
    destruct k as [t k]. unfold pool_key in Hk. rewrite !orb_true_iff, !bool_decide_eq_true in Hk. cbn [fst] in Hk. destruct Hk as [[->| ->]|[= -> ->]]; reflexivity.
  - unfold notes_of_chain in *. rewrite map_app, concat_app in *. cbn [map concat] in *. rewrite app_nil_r in *. rewrite length_app in Hb.
    destruct (block_appends b d d' (concat (map block_notes bs))) as (H & _); [apply IH; lia|rewrite length_app; exact Hb|exact E|exact H].
  - apply (pool_same _ d); [now apply IH|now apply beside_tree].
Qed.

Lemma chain_unique g bs d : chained g bs d -> allocated g + N.of_nat (length bs) * BLOCK_REWARD < 2 ^ 99 ->
  N.of_nat (length (txs_of_chain bs)) < 2 ^ 64 ->
  NoDup (txs_of_chain bs) /\ forall a, nonce (account a d) = N.of_nat (length (sends bs a)) /\ counting 0 (sends bs a).
Proof.
  intros Hchain Hcap Hcount.
  assert (forall a, nonce (account a d) = N.of_nat (length (sends bs a)) /\ counting 0 (sends bs a)) as H.
  { intros a. apply (chain_nonces g bs d a Hchain Hcap). pose proof (sent_by_length a (txs_of_chain bs)). unfold sends. lia. }
  split; [|exact H]. apply NoDup_by_sender; [exact (chain_senders g bs d Hchain)|]. intros a. apply (counting_NoDup 0). apply H.
Qed.

(** ** Theorems *)

(** C5: Supply follows the schedule.  After any number of blocks from the genesis,
    the coins of all accounts and of the shielded pool, with what penalties
    burned, are exactly the coins of the genesis file and one reward per block;
    blocks without reports below the slashing fork burn nothing. *)
Theorem supply_schedule g bs d (Hchain : chained g bs d) (Hcap : allocated g + N.of_nat (length bs) * BLOCK_REWARD < 2 ^ 99) :
  exists burned, coins d + burned = allocated g + N.of_nat (length bs) * BLOCK_REWARD /\ (Forall harmless bs -> burned = 0).
Proof. exact (chain_supply g bs d Hchain Hcap). Qed.

(** C6: No transaction is in a chain twice.  The transactions of an account carry
    the nonces 0, 1, 2 and so on in the order of the chain, the nonce of the
    account is their number, and so no transaction is executed a second time,
    in the same block or in any later one. *)
Theorem no_transaction_twice g bs d (Hchain : chained g bs d) (Hcap : allocated g + N.of_nat (length bs) * BLOCK_REWARD < 2 ^ 99)
  (Hcount : N.of_nat (length (txs_of_chain bs)) < 2 ^ 64) :
  NoDup (txs_of_chain bs) /\
  forall a, nonce (account a d) = N.of_nat (length (sends bs a)) /\ forall i tx, sends bs a !! i = Some tx -> tx_nonce tx = N.of_nat i.
Proof. exact (chain_unique g bs d Hchain Hcap Hcount). Qed.

(** C7: Blocks form a chain, and the store files them.  Whatever blocks a node
    imported and sealed since its genesis: they have the heights 1, 2, 3 and so
    on, the hash of each is that of its header, which carries the root of its
    transactions, and names the hash of the one before it as its parent; the tip
    of the store is the last of them.  A block the store returns for a height
    above the genesis is the block of the chain at that height, and the height
    the store returns for a transaction is that of a block that contains it. *)
Theorem blocks_form_chain g bs d (Hchain : chained g bs d) (Hlen : N.of_nat (length bs) < 2 ^ 64) :
  linked bs d /\
  (forall h b, 0 < h < 2 ^ 64 -> block h d = Some b -> bs !! N.to_nat (h - 1) = Some b) /\
  (forall hash h, tx_height hash d = Some h -> exists b tx, bs !! N.to_nat (h - 1) = Some b /\ b_height b = h /\
     tx ∈ b_transactions b /\ tx_hash tx = hash).
Proof.
  pose proof (chain_linked g bs d Hchain Hlen) as Hl. destruct (chain_filed g bs d Hchain) as [F1 F2]. split; [exact Hl|].
  assert (forall i b, bs !! i = Some b -> bs !! N.to_nat (b_height b - 1) = Some b /\ 0 < b_height b < 2 ^ 64) as Hat.
  { intros i b Hi. pose proof (lookup_lt_Some _ _ _ Hi). rewrite (lk_heights _ _ Hl i b Hi). replace (N.to_nat _) with i by lia. split; [exact Hi|lia]. }
  split.
  - intros h b Hh. unfold block. destruct (d !! _) as [v|] eqn:E; [|discriminate]. cbn. intros Hv. apply F1 in E as (x & -> & Hk & Hx).
    injection Hv as ->. unfold height_key in Hk. destruct Hx as [Hz|[i Hi]].
    + rewrite Hz in Hk. apply to_be_inj in Hk; [lia|exact (proj2 Hh)|reflexivity].
    + destruct (Hat i b Hi) as [Hb H]. apply to_be_inj in Hk; [now subst h|exact (proj2 Hh)|exact (proj2 H)].
  - intros hash h. unfold tx_height. destruct (d !! _) as [v|] eqn:E; [|discriminate]. cbn [mbind option_bind]. intros Hv.
    apply F2 in E as (i & b & tx & Hi & Htx & Hh & ->). destruct (Hat i b Hi) as [Hb ?].
    rewrite u64_row_reads in Hv by (change U64_MAX with (2 ^ 64 - 1); lia). injection Hv as <-. exists b, tx. auto.
Qed.
End chains.

(** The devnet genesis and one block with a payment. *)
Module History_example.
Import Toy Toy_field Exec_example Mirror_example.

Definition g : Genesis := default_devnet alice.
Lemma genesis_chain : chained g [] genesis_db.
Proof. destruct genesis_runs as [b Hb]. exact (ch_genesis g ∅ b genesis_db blank_empty Hb). Qed.
Lemma genesis_capped n : N.of_nat n <= 1 -> allocated g + N.of_nat n * BLOCK_REWARD < 2 ^ 99.
Proof.
  intros Hn. assert (allocated g = 1000000000000000) as -> by (vm_compute; reflexivity).
  assert (BLOCK_REWARD = 10000000) as -> by (vm_compute; reflexivity). assert (2 ^ 99 = 633825300114114700748351602688) as -> by reflexivity. lia.
Qed.

(** Alice has the whole supply, and pays Bob. *)
Lemma alice_at_genesis : account alice genesis_db = funded.
Proof.
  destruct genesis_runs as [b Hb]. apply genesis_ok in Hb as (d1 & Hd1 & _ & Hput). cbn [default_devnet g_alloc for_each] in Hd1.
  apply run_bind_ok in Hd1 as (u & d2 & H1 & Hd1); [|intros; journaled]. apply run_ret_ok in Hd1 as [_ ->]. pose proof (eq_trans (eq_sym H1) allocate_runs) as Ha. apply pair_equal_spec in Ha as [_ ->].
  apply run_neutral in Hput; [|frames]. rewrite (same_ledger_account _ _ alice Hput), account_set_account. now rewrite decide_True.
Qed.
Definition first : Block * Store := seal_batch key 1 (tip_hash genesis_db) 2000 [pay] (mk genesis_db []).
Lemma pay_runs : exists d', run (apply_tx pay 1) genesis_db = (Ok (collected_of pay), d').
Proof.
  apply (transfer_executes pay 1 genesis_db alice); [reflexivity|vm_compute; reflexivity|rewrite alice_at_genesis; reflexivity|].
  rewrite alice_at_genesis. vm_compute. discriminate.
Qed.
Lemma genesis_tip_zero : tip genesis_db = 0.
Proof. exact (lk_tip _ _ (chain_linked g [] genesis_db genesis_chain eq_refl)). Qed.
Lemma seal_one_on k h parent now tx fee d d' : run (apply_tx tx h) d = (Ok fee, d') ->
  b_transactions (seal_batch k h parent now [tx] (mk d [])).1 = [tx] /\ b_height (seal_batch k h parent now [tx] (mk d [])).1 = h.
Proof. exact (seal_one k h parent now tx fee d' (mk d [])). Qed.
Lemma first_sealed : b_transactions first.1 = [pay] /\ b_height first.1 = 1.
Proof. destruct pay_runs as (d' & E). exact (seal_one_on key 1 (tip_hash genesis_db) 2000 pay _ genesis_db d' E). Qed.
(** The node seals it on the genesis. *)
Lemma seal_first g k ts batch d (sealed := seal_batch k 1 (tip_hash d) ts batch (mk d [])) : chained g [] d -> tip d = 0 ->
  chained g [sealed.1] (db sealed.2).
Proof.
  intros Hc Ht. pose proof (ch_seal g k ts batch [] (mk d []) Hc) as H. cbv zeta in H. cbn [db app] in H.
  rewrite Ht in H. replace (0 +!! 1) with 1 in H by reflexivity. exact H.
Qed.
Lemma first_chain : chained g [first.1] (db first.2).
Proof. exact (seal_first g key 2000 [pay] genesis_db genesis_chain genesis_tip_zero). Qed.
Lemma first_txs : txs_of_chain [first.1] = [pay].
Proof. unfold txs_of_chain. cbn [map concat]. rewrite (proj1 first_sealed). reflexivity. Qed.
Lemma supply_schedule_witness : exists burned, coins (db first.2) + burned = allocated g + 1 * BLOCK_REWARD.
Proof. destruct (supply_schedule g [first.1] (db first.2) first_chain (genesis_capped 1 ltac:(cbn; lia))) as (burned & H & _). exists burned. exact H. Defined.
Lemma no_transaction_twice_witness : nonce (account alice (db first.2)) = 1 /\ NoDup (txs_of_chain [first.1]).
Proof.
  destruct (no_transaction_twice g [first.1] (db first.2) first_chain (genesis_capped 1 ltac:(cbn; lia))) as [H1 H2]; [rewrite first_txs; reflexivity|].
  split; [|exact H1]. destruct (H2 alice) as [-> _]. unfold sends. rewrite first_txs. vm_compute. reflexivity.
Defined.
Lemma blocks_form_chain_witness : linked [first.1] (db first.2) /\
  forall h, tx_height (tx_hash pay) (db first.2) = Some h -> b_height first.1 = h.
Proof.
  destruct (blocks_form_chain g [first.1] (db first.2) first_chain eq_refl) as (H1 & _ & H3).
  split; [exact H1|]. intros h Hh. destruct (H3 _ _ Hh) as (b & tx & Hb & Hbh & _). apply list_lookup_singleton_Some in Hb as [_ E].
  exact (eq_trans (f_equal b_height E) Hbh).
Defined.
End History_example.
