(* ===== verification/Lifetime.v ===== *)
(** The life of a node, against the chain it executed: however its threads
    interleave, with whatever peers and callers send, its store is the execution
    of a list of blocks from the genesis, or blank while it is being reset. *)

From S2P Require Import Prelude Bytes Crypto Types TypesFacts Journal Store Smt SmtFacts Poseidon Shielded State StateFacts Fees Staking Tokens.
From S2P Require Import Slashing Votes VotesFacts Mempool Contracts SignGuard Circuit Exec ExecFacts Chain ChainFacts Mirror Snapshot SnapshotFacts Simulate.
From S2P Require Import Limits Access Rpc RpcFacts Transport Ws Events P2p P2pFacts Text Http HttpFacts Byzantine Cli Daemon DaemonFacts Threads ShieldFacts NoteTree History.
From Stdlib Require Import Ascii.
From Stdlib Require String.

Section lifetime.
Context {HC : Crypto} {HF : Fr} {HK : Compression} {HP : ChainParams} {HJ : EvidenceJson} {HW : Wasm} {HG : Groth16} {HS : Serde}.

(** The abstract state of a node: the list of blocks it executed. *)
Definition tracks (n : Node) (bs : list Block) : Prop := chained (n_genesis n) bs (n_db n).
Definition tracked (n : Node) : Prop := exists bs, tracks n bs.
Definition simulates (n n' : Node) : Prop := n_genesis n' = n_genesis n /\ (tracked n -> tracked n').
#[export] Instance simulates_preorder : PreOrder simulates.
Proof. split; [intros n; now split|]. intros n1 n2 n3 [G1 S1] [G2 S2]. split; [congruence|auto]. Qed.

(** What moves the trees of a node, as a chain counts it. *)
Inductive move (g : Genesis) : Db -> Db -> Prop :=
| mv_import cpus now now_w b d d' : import_checks cpus g now now_w b d = Ok true -> run (execute_block b) d = (Ok tt, d') -> move g d d'
| mv_seal k ts batch s : move g (db s) (db (seal_batch k (tip (db s) +!! 1) (tip_hash (db s)) ts batch s).2)
| mv_aside d d' : aside d d' -> move g d d'.
Lemma move_chained g bs d d' : chained g bs d -> move g d d' -> exists bs', chained g bs' d'.
Proof.
  intros Hc Hm. revert Hc. destruct Hm as [cpus now now_w b d d' Hck E|k ts batch s|d d' Ha]; intros Hc.
  - eexists. exact (ch_import _ _ _ _ _ _ _ _ Hc Hck E).
  - eexists. exact (ch_seal _ k ts batch _ s Hc).
  - eexists. exact (ch_aside _ _ _ _ Hc Ha).
Qed.
Definition advances (n n' : Node) : Prop := n_genesis n' = n_genesis n /\ rtc (move (n_genesis n)) (n_db n) (n_db n').
#[export] Instance advances_preorder : PreOrder advances.
Proof.
  split; [intros n; split; [done|apply rtc_refl]|]. intros n1 n2 n3 [G1 S1] [G2 S2]. split; [congruence|].
  rewrite G1 in S2. etransitivity; eassumption.
Qed.
Lemma advances_simulates n n' : advances n n' -> simulates n n'.
Proof.
  intros [Hg Hm]. split; [exact Hg|]. unfold tracked, tracks. rewrite Hg. generalize (n_genesis n) as g, Hm. clear.
  intros g. induction 1 as [d|d1 d2 d3 H _ IH]; [done|]. intros [bs Hc]. exact (IH (move_chained g bs d1 d2 Hc H)).
Qed.

Lemma advances_db n n' : n_genesis n' = n_genesis n -> aside (n_db n) (n_db n') -> advances n n'.
Proof. intros Hg Ha. split; [exact Hg|]. apply rtc_once. now apply mv_aside. Qed.
Lemma advances_same n n' : n_genesis n' = n_genesis n -> n_db n' = n_db n -> advances n n'.
Proof. intros Hg Hd. apply advances_db; [exact Hg|]. rewrite Hd. reflexivity. Qed.
Lemma advances_store s n : aside (n_db n) (db s) -> advances n (with_store s n).
Proof. intros Ha. now apply advances_db. Qed.
Lemma simulates_db n n' : n_genesis n' = n_genesis n -> aside (n_db n) (n_db n') -> simulates n n'.
Proof. intros Hg Ha. apply advances_simulates. now apply advances_db. Qed.
Lemma simulates_same n n' : n_genesis n' = n_genesis n -> n_db n' = n_db n -> simulates n n'.
Proof. intros Hg Hd. apply advances_simulates. now apply advances_same. Qed.
Lemma simulates_store s n : aside (n_db n) (db s) -> simulates n (with_store s n).
Proof. intros Ha. now apply simulates_db. Qed.

(** ** Votes *)

(** A vote leaves the trees, or raises the finalized height. *)
Lemma finalize_cases h s : db (set_finalized_height h s).2 = db s \/
  db (set_finalized_height h s).2 = <[(T_META, "finalized_height") := u64_row h]> (db s).
Proof.
  rewrite (run_db (set_finalized_height h) s). change (db_after (set_finalized_height h) (db s)) with (run (set_finalized_height h) (db s)).2.
  unfold set_finalized_height. runs. destruct (h <=? _); runs; auto.
Qed.
Lemma aside_finalize h s : aside (db s) (db (set_finalized_height h s).2).
Proof. destruct (finalize_cases h s) as [->| ->]; [reflexivity|now apply aside_put]. Qed.
Lemma add_cases_db t s v : db (add t s v).2 = db s \/ db (add t s v).2 = db (set_finalized_height (vote_height v) s).2.
Proof.
  apply (add_cases t s v (fun out => db out.2 = db s \/ db out.2 = db (set_finalized_height (vote_height v) s).2)); auto.
  - intros addr b _ _ _ _ _. unfold count_vote. destruct (negb _); [auto|]. destruct (_ && _); auto.
  - intros addr. unfold buffer_vote. destruct (negb _); [auto|]. destruct (existsb _ _); auto.
Qed.
Lemma add_aside t s v : aside (db s) (db (add t s v).2).
Proof. destruct (add_cases_db t s v) as [->| ->]; [reflexivity|apply aside_finalize]. Qed.
Lemma replay_ready_aside ready : forall t s final, aside (db s) (db (replay_ready t s ready final).2).
Proof.
  induction ready as [|v ready IH]; intros t s final; [reflexivity|]. cbn [replay_ready]. pose proof (add_aside t s v) as H.
  destruct (add t s v) as [[r t1] s1]. cbn [snd] in H. etransitivity; [exact H|apply IH].
Qed.
Lemma replay_votes_advances h n : advances n (replay_votes h n).
Proof.
  unfold replay_votes, replay_pending. match goal with |- context [replay_ready ?t ?s ?r ?f] => pose proof (replay_ready_aside r t s f) as H end.
  destruct (replay_ready _ _ _ _) as [[out t] s]. now apply advances_db.
Qed.

Lemma checkpoint_aside h s : aside (db s) (db (checkpoint_state h s)).
Proof. unfold checkpoint_state, set_state_checkpoint, raw_put. cbn [db]. now apply aside_put. Qed.

(** ** Blocks *)

Lemma import_advances cpus clock b n : advances n (import_block cpus clock b n).2.
Proof.
  destruct (import_block cpus clock b n) as [[ok|e] n'] eqn:E; cbn [snd].
  2: apply rejected_import in E as ->; reflexivity.
  unfold import_block in E. destruct (halt_reason (n_db n)); [discriminate|].
  destruct (import_block_inner cpus clock b (with_store (begin_block (n_store n)) n)) as [[ok'|e] n1] eqn:E1; [|discriminate].
  injection E as <- <-. transitivity n1; [|apply advances_store; unfold commit_block; etransitivity; [|apply checkpoint_aside]; now rewrite db_commit].
  unfold import_block_inner in E1. destruct (import_checks _ _ _ _ _ _) as [[]|] eqn:Ec; [|injection E1 as _ <-; now apply advances_same|discriminate].
  destruct (execute_block b (n_store (with_store (begin_block (n_store n)) n))) as [[[]|e] s] eqn:Ex; [|discriminate]. injection E1 as _ <-.
  transitivity (with_store s n).
  - split; [reflexivity|]. apply rtc_once, (mv_import _ _ _ _ _ _ _ Ec). change (n_db (with_store s n)) with (db s).
    change (n_db (with_store (begin_block (n_store n)) n)) with (db (begin_block (n_store n))). cbn [n_store with_store] in Ex. unfold run. now rewrite <- run_db, <- run_res, Ex by apply _.
  - transitivity (mark_tip_seen (at_seen clock) (with_store s n)); [now apply advances_same|].
    etransitivity; [apply (replay_votes_advances (b_height b))|]. now apply advances_same.
Qed.

Lemma produce_advances now ts seen best io n : advances n (produce_block now ts seen best io n).2.
Proof.
  unfold produce_block. destruct (may_produce now best n) as [[]|]; [|reflexivity..]. destruct (take_batch _ _) as [batch pool].
  pose proof (mv_seal (n_genesis n) (n_producer n) ts batch (n_store n)) as Hseal. fold (n_db n) in Hseal.
  destruct (seal_batch _ _ _ _ _ _) as [b s]. cbn [fst snd] in *. transitivity (with_store s n); [split; [reflexivity|now apply rtc_once]|].
  match goal with |- advances _ (replay_votes ?h (with_store ?s2 ?m2)) =>
    transitivity m2; [now apply advances_same|]; transitivity (with_store s2 m2); [apply advances_store, checkpoint_aside|apply replay_votes_advances] end.
Qed.

(** ** Starting over *)

(** Whether a line of the genesis file is accepted does not depend on the store. *)
Lemma allocate_answer a d1 d2 : run (allocate a) d1 = (Ok tt, db_after (allocate a) d1) -> (run (allocate a) d2).1 = Ok tt.
Proof.
  unfold allocate at 1. intros E. step_ok E H1 e1. step_ok E H2 e2. step_ok E H3 e3. step_ok E H4 e4. clear E.
  unfold allocate. runs. rewrite H1. runs. rewrite H3. runs.
  destruct (ga_stake a) as [st|]; [|runs; now rewrite run_set_account].
  destruct (parse_inaz st); [|discriminate H4]. cbn [mbind result_bind]. runs. now rewrite run_set_account.
Qed.
Lemma allocations_answer l : forall d1 d2 d1', run (for_each l allocate) d1 = (Ok tt, d1') -> exists d2', run (for_each l allocate) d2 = (Ok tt, d2').
Proof.
  induction l as [|a l IH]; intros d1 d2 d1' E; cbn [for_each] in *; [runs; eauto|]. step_ok E H1 e1.
  assert ((run (allocate a) d2).1 = Ok tt) as H2 by (apply (allocate_answer a d1); injection H1 as H1 <-; unfold run; now rewrite H1).
  rewrite run_bind by (intros; journaled). destruct (run (allocate a) d2) as [r e2]. cbn [fst] in H2. subst r. exact (IH _ _ _ E).
Qed.
Lemma blank_uninitialized d : blank d -> is_initialized d = false.
Proof. intros H. unfold is_initialized, tip_height, meta_u64. now rewrite (blank_none _ _ H). Qed.
Lemma genesis_again g b d0 d d1 : run (init_genesis g) d0 = (Ok b, d) -> blank d1 -> exists b' d', run (init_genesis g) d1 = (Ok b', d').
Proof.
  intros E Hb. apply genesis_ok in E as (e & E & _). apply (allocations_answer _ _ d1) in E as (e1 & E).
  unfold init_genesis. runs. rewrite (blank_uninitialized d1 Hb). runs. rewrite E. runs. cbv zeta. rewrite run_total by apply _. runs. eauto.
Qed.
Lemma tracks_genesis g bs d : chained g bs d -> exists d0 b d', run (init_genesis g) d0 = (Ok b, d').
Proof. revert bs d. apply (chained_blocks_ind g (fun _ _ => exists d0 b d', run (init_genesis g) d0 = (Ok b, d'))); eauto. Qed.

(** What the part of a reset without the lock leaves, on a store without a chain. *)
Lemma regenerate_tracked now n : (exists d0 b d, run (init_genesis (n_genesis n)) d0 = (Ok b, d)) -> blank (n_db n) -> tracks (regenerate now n).2 [].
Proof.
  intros (d0 & b & d & Hg) Hb. destruct (genesis_again _ _ _ _ (n_db n) Hg Hb) as (b' & d2 & H2). unfold regenerate, on_store.
  destruct (init_genesis (n_genesis n) (n_store n)) as [r s] eqn:E.
  assert (r = Ok b' /\ d2 = db s) as [-> ->].
  { pose proof (run_db (init_genesis (n_genesis n)) (n_store n)) as Hdb. pose proof (run_res (init_genesis (n_genesis n)) (n_store n)) as Hres. rewrite E in Hdb, Hres.
    unfold run in H2. fold (n_db n) in Hdb, Hres. cbn [fst snd] in *. apply pair_equal_spec in H2 as [H2 <-]. split; congruence. }
  exact (ch_genesis _ _ _ _ Hb H2).
Qed.
(** On a store with a chain it is refused. *)
Lemma regenerate_refused now n : is_initialized (n_db n) = true -> n_db (regenerate now n).2 = n_db n.
Proof.
  intros Hi. unfold regenerate, on_store.
  pose proof (run_db (init_genesis (n_genesis n)) (n_store n)) as Hdb. pose proof (run_res (init_genesis (n_genesis n)) (n_store n)) as Hres.
  assert (run (init_genesis (n_genesis n)) (n_db n) = (Err "chain already initialized", n_db n)) as H by (unfold init_genesis; runs; rewrite Hi; runs; done).
  unfold run in H. apply pair_equal_spec in H as [H1 H2]. fold (n_db n) in Hres, Hdb. rewrite H1 in Hres. rewrite H2 in Hdb.
  destruct (init_genesis _ _) as [r s]. cbn [fst snd] in *. subst r. exact Hdb.
Qed.
Lemma wipe_genesis h n : n_genesis (wipe_chain h n).2 = n_genesis n.
Proof. unfold wipe_chain. destruct (h <? _); [reflexivity|]. now destruct (check_reorg_depth _ _). Qed.
Lemma regenerate_genesis now n : n_genesis (regenerate now n).2 = n_genesis n.
Proof. unfold regenerate, on_store. now destruct (init_genesis _ _) as [[?|?] s]. Qed.
Lemma wipe_blank h n : (exists e, wipe_chain h n = (Err e, n)) \/ exists n', wipe_chain h n = (Ok tt, n') /\ blank (n_db n').
Proof.
  unfold wipe_chain. destruct (h <? _); [eauto|]. destruct (check_reorg_depth _ _) as [[]|e]; [|eauto].
  right. eexists. split; [reflexivity|]. apply blank_reset.
Qed.
Lemma reset_simulates h now n : simulates n (reset_to_genesis h now n).2.
Proof.
  unfold reset_to_genesis. pose proof (wipe_genesis h n) as Hg.
  destruct (wipe_blank h n) as [[e E]|(n1 & E & Hb)]; rewrite E in *; [reflexivity|]. cbn [snd] in Hg.
  split; [now rewrite regenerate_genesis|]. intros [bs H]. exists []. apply regenerate_tracked; [|exact Hb].
  rewrite Hg. exact (tracks_genesis _ _ _ H).
Qed.

(** ** Every move of the node *)

Lemma prune_one_aside acc h : aside (db acc.2) (db (prune_one acc h).2).
Proof.
  destruct acc as [r s]. unfold prune_one. destruct (db s !! _) as [v|]; [|reflexivity]. cbn [snd].
  etransitivity; [|apply aside_delete; right; reflexivity]. destruct (as_block v) as [b|]; [|reflexivity].
  generalize (b_transactions b). intros txs. clear v b. revert s. induction txs as [|t txs IH]; intros s; [reflexivity|]. cbn [foldl].
  etransitivity; [|apply IH]. unfold raw_del. cbn [db]. etransitivity; apply aside_delete; right; reflexivity.
Qed.
Lemma prune_aside below s : aside (db s) (db (prune_blocks below s).2).
Proof.
  unfold prune_blocks. cbv zeta. destruct (_ <=? 1); [reflexivity|].
  match goal with |- context [foldl prune_one (0, s) ?l] => generalize l end. intros hs.
  assert (forall acc, aside (db acc.2) (db (foldl prune_one acc hs).2)) as Hf.
  { induction hs as [|h hs IH]; intros acc; [reflexivity|]. cbn [foldl]. etransitivity; [apply (prune_one_aside acc h)|apply IH]. }
  match goal with |- context [let '(_, _) := ?r in _] =>
    assert (aside (db s) (db r.2)) as H by exact (Hf (0, s)); destruct r as [removed s'] end.
  cbn [snd] in *. destruct (0 <? removed); [|exact H]. cbn [snd].
  etransitivity; [exact H|]. unfold put. cbn [db]. rewrite db_record. now apply aside_put.
Qed.
Lemma unmarked_aside below s : aside (db s) (db (unmarked (db s) (prune_blocks below s).2)).
Proof.
  etransitivity; [apply (prune_aside below)|]. intros k.
  destruct (decide (k = (T_META, "pruned_below"))) as [->|Hk]; [now right; left|left]. now apply lookup_partial_alter_ne.
Qed.
Lemma halt_aside reason n : aside (n_db n) (n_db (halt reason n)).
Proof. unfold halt, n_db, on_store, set_halt, jput, put. cbn. rewrite db_record. now apply aside_put. Qed.
Lemma resume_aside n : aside (n_db n) (n_db (resume n)).
Proof. unfold resume, n_db, on_store, clear_halt, jdel, del. cbn. rewrite db_record. apply aside_delete. now left. Qed.

Lemma pool_simulates n n' : same_but_pool n n' -> simulates n n'.
Proof. intros ->. now apply simulates_same. Qed.
Lemma call_aside n n' : call_step n n' -> aside (n_db n) (n_db n').
Proof.
  destruct 1 as [n n' ->|reason n|n|below n]; [reflexivity|apply halt_aside|apply resume_aside|apply (prune_aside below (n_store n))].
Qed.
Lemma call_simulates n n' : call_step n n' -> simulates n n'.
Proof. intros H. apply simulates_db; [destruct (unsigning_call n n' H) as [(_ & Hg & _) _]; exact Hg|now apply call_aside]. Qed.

Context {HE : Env}.
Lemma node_step_simulates n n' : node_step n n' -> simulates n n'.
Proof.
  destruct 1 as [clock b n _|v n r t s _ E|n|e n|tx n|h now n].
  - apply advances_simulates, import_advances.
  - apply simulates_db; [reflexivity|]. pose proof (add_aside (n_votes n) (n_store n) v) as H. now rewrite E in H.
  - now apply simulates_same.
  - apply pool_simulates, report_pool.
  - apply pool_simulates, accept_pool.
  - apply reset_simulates.
Qed.
Lemma moved_simulates w w' : moved w w' -> simulates (w_node w) (w_node w').
Proof. unfold moved. induction 1 as [n|n1 n2 n3 H _ IH]; [reflexivity|]. etransitivity; [exact (node_step_simulates _ _ H)|exact IH]. Qed.

Context {HT : JsonText}.
Lemma slot_simulates now ts seen io w : simulates (w_node w) (w_node (slot now ts seen io w).2).
Proof.
  unfold slot. pose proof (advances_simulates _ _ (produce_advances now ts seen (w_best_peer w) io (w_node w))) as H.
  destruct (produce_block now ts seen (w_best_peer w) io (w_node w)) as [r n] eqn:E. cbn [snd] in H |- *.
  apply produce_step in E as (_ & _ & Ht). destruct r as [[b|]|err]; [|exact H..]. etransitivity; [exact H|].
  apply (moved_simulates (announce_block b (with_node n w))), vote_on_moved. now apply Ht.
Qed.
Lemma unjail_simulates w : simulates (w_node w) (w_node (unjail_pass w)).
Proof.
  apply pool_simulates. unfold unjail_pass. cbn [w_node with_node]. unfold try_self_unjail.
  destruct (_ || _); [apply pool_refl|]. destruct (_ && _); [apply pool_refl|].
  match goal with |- context [accept_tx ?t ?n] => pose proof (accept_pool t n) as H; now destruct (accept_tx t n) as [[h|e] n'] end.
Qed.

Lemma act_simulates fuel s a d b d' : env_typed -> act_typed a -> node_typed (d_node d) -> act fuel s a d = Some (b, d') ->
  simulates (d_node d) (d_node d').
Proof.
  intros He Ha Hn. unfold act, d_node. destruct a; cbn [act_typed] in Ha.
  - match goal with |- context [slot ?a ?b ?c ?io ?w] => pose proof (slot_simulates a b c io w) as H; destruct (slot a b c io w) as [r w'] end.
    intros E. injection E as <- <-. exact H.
  - intros E. injection E as <- <-. apply moved_simulates. unfold heartbeat. cbn [d_world on_world].
    destruct (_ && _); [now apply sync_votes_moved|reflexivity].
  - destruct (sync_once _ _ _ _) as [w|] eqn:E; [|discriminate]. intros H. injection H as <- <-. apply moved_simulates. exact (sync_once_moved _ _ _ _ _ He Hn E).
  - intros E. injection E as <- <-. apply moved_simulates. now apply handle_conn_moved.
  - intros E. injection E as <- <-. cbn [d_world]. rewrite announce_all_node. apply call_simulates, request_step.
  - intros E. injection E as <- <-. cbn [d_world]. rewrite announce_all_node.
    apply call_simulates. apply (message_step x text o conn pipe (Build_Shared (w_node (d_world d)) (d_cfg d) (d_bus d) [])).
  - destruct (s_prune s) as [keep|]; intros E; injection E as <- <-; [|apply call_simulates, call_nothing].
    apply call_simulates. apply (cs_prune (sat_sub (finalized_height (n_db (w_node (d_world d)))) keep)).
  - intros E. injection E as <- <-. apply unjail_simulates.
Qed.
Lemma acts_simulate fuel s : env_typed -> forall acts d bs d', Forall act_typed acts -> node_typed (d_node d) ->
  run_acts fuel s acts d = Some (bs, d') -> simulates (d_node d) (d_node d').
Proof.
  intros He. induction acts as [|a acts IH]; intros d bs d' Ha Hn; cbn [run_acts]; [intros H; injection H as _ <-; reflexivity|].
  apply Forall_cons in Ha as [Ha Hacts]. destruct (act fuel s a d) as [[b d1]|] eqn:E; [|discriminate]. cbn [mbind option_bind].
  destruct (run_acts fuel s acts d1) as [[bs1 d2]|] eqn:E1; [|discriminate]. cbn [mbind option_bind]. intros H. injection H as _ <-.
  etransitivity; [exact (act_simulates fuel s a d b d1 He Ha Hn E)|]. destruct (act_step fuel s a d b d1 He Ha Hn E) as [Hp _].
  exact (IH _ _ _ Hacts (proj1 (Hp Hn)) E1).
Qed.

(** ** Starting *)

Lemma startup_aside s : aside (db s) (db (startup_state_root_check s).2).
Proof.
  unfold startup_state_root_check. cbv zeta. destruct (state_checkpoint _) as [[h x]|]; [|apply checkpoint_aside].
  destruct (negb _); [apply checkpoint_aside|]. destruct (negb _); reflexivity.
Qed.
Lemma build_simulates h s n : tracked (with_store s n) -> tracked (with_store (build_merkle_state h s).2 n).
Proof. intros [bs H]. exists bs. exact (ch_rebuild _ h bs s H). Qed.
(** A node that opens its store, fresh or its own, has a chain. *)
Lemma opened_tracked n n' : blank (n_db n) \/ tracked n -> open_chain n = (Ok tt, n') -> tracked n'.
Proof.
  intros Hn E. apply open_cases in E as [(e & n1 & _ & _ & He & _)|(n1 & Hn1 & E)]; [discriminate|].
  assert (tracked n1) as H1.
  { destruct Hn1 as [[Hi ->]|[Hi [b Hg]]].
    - destruct Hn as [Hb|Hn]; [|exact Hn]. rewrite (blank_uninitialized _ Hb) in Hi. discriminate.
    - destruct Hn as [Hb|[bs Hc]]; [|destruct (tracks_genesis _ _ _ Hc) as (d0 & b0 & d1 & H0)].
      + exists []. unfold on_store in Hg. destruct (init_genesis (n_genesis n) (n_store n)) as [r s] eqn:Ei. apply pair_equal_spec in Hg as [-> <-].
        change (chained (n_genesis n) [] (db s)). apply (ch_genesis _ (n_db n) b); [exact Hb|]. unfold run, n_db. now rewrite <- run_db, <- run_res, Ei by apply _.
      + exfalso. apply (chain_initialized _ _ _) in Hc. congruence. }
  pose proof (startup_aside (n_store n1)) as Hs. destruct (startup_state_root_check (n_store n1)) as [[[]|e] s]; cbn [snd] in Hs; destruct E as [Ee ->]; [|discriminate].
  destruct (simulates_store s n1 Hs) as [_ H2]. destruct (merkle_ready (db s)); [now apply H2|].
  apply (build_simulates _ s n1). now apply H2.
Qed.
Lemma started_tracked {HN : GenesisJson} gp data f fresh write now store h st s' h' :
  start gp data f fresh write now store h = (Ok st, s', h') ->
  blank (db store) \/ (exists bs, chained (n_genesis (st_node st)) bs (db store)) -> tracked (st_node st).
Proof.
  unfold start. destruct (load_genesis gp f write h) as [[[g a]|e] h1]; [|discriminate].
  destruct (producer_key f data fresh write h1) as [[k|e] h2]; [|discriminate].
  destruct (from_secret_hex (secret_hex k)) as [id|e]; [|discriminate].
  set (s := settings g f h1). set (n0 := assemble now (s_replica s) (network s) (files h2 !! guard_path data) store g k).
  pose proof (opened_tracked n0) as Ho. pose proof (open_keeps n0) as [_ [Hu _]]. destruct (open_chain n0) as [[[]|e] n]; [|discriminate].
  intros H Hb. apply pair_equal_spec in H as [H _]. apply pair_equal_spec in H as [H _]. injection H as <-. cbn [st_node] in *.
  assert (n_genesis n = n_genesis n0) as Hg by apply Hu. apply Ho; [|reflexivity]. unfold tracked, tracks. rewrite <- Hg.
  replace (n_db n0) with (db store) by (subst n0; unfold assemble; now destruct (s_replica s)). exact Hb.
Qed.

(** ** Between a wipe and the new genesis *)

Lemma blank_put k v d : survives_reset k = true -> blank d -> blank (<[k := v]> d).
Proof. intros Hk H k' [x [[<- _]|[_ E]]%lookup_insert_Some]; [exact Hk|]. apply H. now exists x. Qed.
Lemma blank_finalize h s : blank (db s) -> blank (db (set_finalized_height h s).2).
Proof. intros H. destruct (finalize_cases h s) as [->| ->]; [exact H|now apply blank_put]. Qed.
Lemma blank_prune below s : blank (db s) -> prune_blocks below s = (0, s).
Proof.
  intros Hb. unfold prune_blocks. cbv zeta. destruct (_ <=? 1); [reflexivity|].
  assert (forall hs, foldl prune_one (0, s) hs = (0, s)) as Hf.
  { induction hs as [|h hs IH]; [reflexivity|]. cbn [foldl]. replace (prune_one (0, s) h) with (0, s); [exact IH|].
    unfold prune_one. now rewrite (blank_none _ _ Hb). }
  match goal with |- context [let '(_, _) := ?r in _] => replace r with (0, s) by (symmetry; exact (Hf _)) end. reflexivity.
Qed.
Lemma blank_import cpus clock b n : blank (n_db n) -> (import_block cpus clock b n).2 = n.
Proof.
  intros Hb. assert (tip_height (n_db n) = None) as Ht by (unfold tip_height, meta_u64; now rewrite (blank_none _ _ Hb)).
  destruct (halted n) eqn:Hh.
  - unfold import_block. unfold halted in Hh. now destruct (halt_reason (n_db n)).
  - destruct (blank_rejects cpus clock b n Ht Hh) as [e ->]. reflexivity.
Qed.
Lemma blank_produce now ts seen best io n : blank (n_db n) -> (produce_block now ts seen best io n).2 = n.
Proof.
  intros Hb. unfold produce_block, may_produce. destruct (_ || _); [reflexivity|].
  unfold tip_height, meta_u64. now rewrite (blank_none _ _ Hb).
Qed.

(** A genesis the node accepts, and the execution of a chain from it or, between
    a wipe and the new genesis, a blank store. *)
Definition alive (n : Node) : Prop := (exists d0 b d, run (init_genesis (n_genesis n)) d0 = (Ok b, d)) /\ (tracked n \/ blank (n_db n)).
Lemma alive_tracked n : tracked n -> alive n.
Proof. intros H. split; [|now left]. destruct H as [bs H]. exact (tracks_genesis _ _ _ H). Qed.

Definition keeps_alive (n n' : Node) : Prop := n_genesis n' = n_genesis n -> alive n -> alive n'.
Lemma blank_alive n n' : blank (n_db n') -> keeps_alive n n'.
Proof. intros Hb Hg [H _]. split; [now rewrite Hg|now right]. Qed.
Lemma simulates_alive n n' : simulates n n' -> (blank (n_db n) -> alive n -> alive n') -> keeps_alive n n'.
Proof. intros [Hg Hs] Hb _ [H [Ht|Ht]]; [now apply alive_tracked, Hs|]. apply Hb; [exact Ht|]. split; [exact H|now right]. Qed.
Lemma simulates_blank n n' : simulates n n' -> (blank (n_db n) -> blank (n_db n')) -> keeps_alive n n'.
Proof. intros Hs Hb Hg. apply (simulates_alive n n' Hs); [|exact Hg]. intros Hn. exact (blank_alive n n' (Hb Hn) Hg). Qed.
Lemma wipe_alive h n : keeps_alive n (wipe_chain h n).2.
Proof. destruct (wipe_blank h n) as [[e ->]|(n' & -> & Hb)]; [now intros _|now apply blank_alive]. Qed.
Lemma regenerate_alive now n : keeps_alive n (regenerate now n).2.
Proof.
  intros Hg [H [[bs Hc]|Hb]].
  - pose proof (regenerate_refused now n (chain_initialized _ _ _ Hc)) as E. apply alive_tracked. exists bs. unfold tracks. rewrite E, Hg. exact Hc.
  - apply alive_tracked. exists []. now apply regenerate_tracked.
Qed.
Lemma node_step_alive n n' : node_step n n' -> keeps_alive n n'.
Proof.
  intros H. pose proof (node_step_simulates n n' H) as Hs. apply (simulates_alive n n' Hs).
  destruct H as [clock b n _|v n r t s _ E|n|e n|tx n|h now n]; intros Hb [Hg _].
  - rewrite blank_import by exact Hb. split; [exact Hg|now right].
  - split; [exact Hg|right]. change (blank (db s)). pose proof (add_cases_db (n_votes n) (n_store n) v) as Ha. rewrite E in Ha. cbn [snd] in Ha.
    destruct Ha as [->| ->]; [exact Hb|now apply blank_finalize].
  - split; [exact Hg|now right].
  - split; [rewrite (proj1 Hs); exact Hg|right]. unfold n_db. now rewrite (proj1 (report_store e n)).
  - split; [rewrite (proj1 Hs); exact Hg|right]. unfold n_db. now rewrite (proj1 (accept_store tx n)).
  - destruct (reset_parts h now n) as [E|E]; rewrite E.
    + apply wipe_alive; [apply wipe_genesis|]. split; [exact Hg|now right].
    + apply regenerate_alive; [apply regenerate_genesis|]. apply wipe_alive; [apply wipe_genesis|]. split; [exact Hg|now right].
Qed.
Lemma call_alive n n' : call_step n n' -> keeps_alive n n'.
Proof.
  intros H. apply (simulates_blank n n' (call_simulates n n' H)). destruct H as [n n' ->|reason n|n|below n]; intros Hb.
  - exact Hb.
  - unfold halt, n_db, on_store, set_halt, jput, put. cbn. rewrite db_record. now apply blank_put.
  - unfold resume, n_db, on_store, clear_halt, jdel, del. cbn. rewrite db_record. intros k [v [_ E]%lookup_delete_Some]. apply Hb. now exists v.
  - unfold n_db. cbn [n_store with_store]. now rewrite (blank_prune below (n_store n) Hb).
Qed.
Lemma section_alive b n n' : section b n n' -> keeps_alive n n'.
Proof.
  destruct 1 as [now ts seen best io n r n' E|n n' H|n n' H|h n|now n|v kept n r t s0 s0' _ _|below n].
  - pose proof (advances_simulates _ _ (produce_advances now ts seen best io n)) as Hs. pose proof (blank_produce now ts seen best io n) as Hb. rewrite E in Hs, Hb.
    apply (simulates_blank n n' Hs). intros H. specialize (Hb H). cbn [snd] in Hb. now rewrite Hb.
  - now apply node_step_alive.
  - now apply call_alive.
  - apply wipe_alive.
  - apply regenerate_alive.
  - apply simulates_blank; [|destruct kept; [apply blank_finalize|done]]. apply simulates_db; [reflexivity|].
    destruct kept; [apply (aside_finalize (vote_height v) (n_store n))|reflexivity].
  - apply simulates_blank; [apply simulates_store, unmarked_aside|].
    intros Hb. unfold n_db. cbn [n_store with_store]. rewrite (blank_prune below (n_store n) Hb). cbn [snd].
    intros k [x E]. apply Hb. unfold unmarked in E. cbn [db] in E. destruct (decide (k = (T_META, "pruned_below"))) as [->|Hk].
    + rewrite lookup_partial_alter_eq in E. now exists x.
    + rewrite lookup_partial_alter_ne in E by congruence. now exists x.
Qed.
Lemma interleaved_alive n bs n' : interleaved n bs n' -> n_genesis n' = n_genesis n /\ (alive n -> alive n').
Proof.
  induction 1 as [n|b n n1 bs n' H _ [G IH]]; [now split|].
  destruct (section_step _ _ _ H) as [_ [(_ & Hg & _) _]]. split; [congruence|]. intros Ha. apply IH. exact (section_alive _ _ _ H Hg Ha).
Qed.

(** ** The refinement *)

(** A state that is the execution of a chain: the supply follows its length, no
    transaction is in it twice, and nonces count the transactions of a sender. *)
Definition executes (g : Genesis) (d : Db) : Prop := exists bs, chained g bs d /\
  (allocated g + N.of_nat (length bs) * BLOCK_REWARD < 2 ^ 99 -> N.of_nat (length (txs_of_chain bs)) < 2 ^ 64 ->
    coins d <= allocated g + N.of_nat (length bs) * BLOCK_REWARD /\
    NoDup (txs_of_chain bs) /\ forall a, Types.nonce (State.account a d) = N.of_nat (length (sends bs a))).
Lemma tracked_executes n : tracked n -> executes (n_genesis n) (n_db n).
Proof.
  intros [bs Hc]. exists bs. split; [exact Hc|]. intros Hcap Hn.
  destruct (chain_supply _ _ _ Hc Hcap) as (burned & Hsup & _). split; [lia|].
  destruct (chain_unique _ _ _ Hc Hcap Hn) as [Hnd Hnonce]. split; [exact Hnd|]. intros a. now destruct (Hnonce a).
Qed.

(** C4: A node refines its chain.  Start a process on an empty store, or on one a
    chain from its genesis leads to.  Let its threads interleave in any way, at
    the grain of the execution lock, whatever peers and callers send and
    whether or not their connections and catch-ups end: the store is then the
    execution of a list of blocks, each imported under every check or sealed by
    the node, or, between the two halves of a reset, it is blank.  After acts of
    the daemon that ran to their end it is the execution of a chain.  The genesis
    itself is written without the lock; its writes are one step here (see
    [genesis_undone] for an import that fails in the middle of them). *)
Theorem node_refines_chain {HN : GenesisJson} gp data f fresh write now store h st s' h' (g := n_genesis (st_node st))
  (Hstart : start gp data f fresh write now store h = (Ok st, s', h'))
  (Hstore : blank (db store) \/ exists bs, chained g bs (db store)) (Htyped : blocks_typed (db store)) :
  (forall sealed n', interleaved (st_node st) sealed n' -> executes g (n_db n') \/ blank (n_db n')) /\
  (forall fuel acts sealed d', env_typed -> Forall act_typed acts ->
     run_acts fuel (st_settings st) acts (daemon_of st) = Some (sealed, d') -> executes g (n_db (d_node d'))).
Proof.
  pose proof (started_tracked _ _ _ _ _ _ _ _ _ _ _ Hstart Hstore) as Htracked. destruct (started_node _ _ _ _ _ _ _ _ _ _ _ Hstart) as (_ & _ & _ & Ht).
  split.
  - intros sealed n' H. destruct (interleaved_alive _ _ _ H) as [Hg Ha]. destruct (Ha (alive_tracked _ Htracked)) as [_ [Hn|Hn]]; [left|now right].
    unfold g. rewrite <- Hg. now apply tracked_executes.
  - intros fuel acts sealed d' He Hacts Hrun. destruct (acts_simulate fuel (st_settings st) He acts (daemon_of st) sealed d' Hacts (Ht Htyped) Hrun) as [Hg Hs].
    change (d_node (daemon_of st)) with (st_node st) in *. unfold g. rewrite <- Hg. now apply tracked_executes, Hs.
Qed.
End lifetime.

(** A validator starts on an empty disk and seals its first block. *)
Module Lifetime_example.
Import Toy Toy_field Exec_example P2p_example Daemon_example.
#[local] Existing Instance P2p_example.env.
#[local] Existing Instance Rpc_example.toy_serde.
#[local] Existing Instance Http_example.toy_text.
#[local] Existing Instance Daemon_example.toy_genesis.

Lemma node_refines_chain_witness : exists st sealed d', run_acts 3%nat (st_settings st) slots (daemon_of st) = Some (sealed, d') /\
  map b_height sealed = [1] /\ executes (n_genesis (st_node st)) (n_db (d_node d')) /\
  (executes (n_genesis (st_node st)) (n_db (wipe_chain 9 (d_node d')).2) \/ blank (n_db (wipe_chain 9 (d_node d')).2)).
Proof.
  destruct (lived empty_store None 1) as (st & s' & h' & sealed & d' & Hb & Hr & Hh & _); [auto|].
  destruct (started_node _ _ _ _ _ _ _ _ _ _ _ Hb) as (_ & _ & _ & Ht).
  destruct (node_refines_chain _ _ _ _ _ _ _ _ st s' h' Hb (or_introl blank_empty) empty_typed) as [H1 H2].
  exists st, sealed, d'. split; [exact Hr|]. split; [exact Hh|]. split; [exact (H2 3%nat slots sealed d' answers_typed slots_typed Hr)|].
  apply (H1 (sealed ++ [])). apply (il_app _ _ (d_node d')); [|exact (il_one None _ _ (sec_wipe 9 _))].
  exact (acts_sections 3%nat _ answers_typed slots (daemon_of st) sealed d' slots_typed (Ht empty_typed) Hr).
Defined.
End Lifetime_example.
