(* ===== verification/Roots.v ===== *)
(** The state root over the whole life of a database: whatever brought a node to
    its state (a genesis, blocks, votes, prunings, halts, a reset and either half
    of it, an upgrade or a snapshot over any database), the root it computes is
    that of its tables. *)

From S2P Require Import Prelude Bytes Crypto Types TypesFacts Journal Store Smt SmtFacts Poseidon Shielded State StateFacts Fees Staking Tokens.
From S2P Require Import Slashing Votes VotesFacts Mempool Contracts SignGuard Circuit Exec ExecFacts Chain ChainFacts Mirror Snapshot SnapshotFacts Simulate.
From S2P Require Import Limits Access Rpc RpcFacts Transport Ws Events P2p P2pFacts Text Http HttpFacts Byzantine Cli Daemon DaemonFacts Threads.
From S2P Require Import ShieldFacts NoteTree History Lifetime.
From Stdlib Require String.

Section roots.
Context {HC : Crypto} {HL : CryptoLaws} {HF : Fr} {HK : Compression} {HP : ChainParams} {HJ : EvidenceJson} {HW : Wasm} {HG : Groth16} {HS : Serde}.
Context {HE : Env} {HT : JsonText}.

(** The databases a node comes to hold.  It may start from nothing or from what a
    reset leaves, and a snapshot may be imported or the tree of an older
    version rebuilt over any database; then nodes open it, one after another, and
    their threads take their turns.  An import that stops at an entry that is not
    hex is not among them: it leaves tables without a tree ([torn_at]). *)
Inductive reached : Db -> Prop :=
| rd_blank d : blank d -> reached d
| rd_snapshot snap chain_id s h s' : Snapshot.import snap chain_id s = (Ok h, s') -> reached (db s')
| rd_rebuild height s : reached (db (build_merkle_state height s).2)
| rd_open n r n' : reached (n_db n) -> open_chain n = (r, n') -> reached (n_db n')
| rd_section b n n' : reached (n_db n) -> section b n n' -> reached (n_db n').

Definition rooted (d : Db) : Prop := exists us, history us d.
Lemma mirrors_rooted d d' : mirrors d d' -> rooted d -> rooted d'.
Proof. intros [us' H'] [us H]. exists (us ++ us'). exact (history_follows us us' d d' H H'). Qed.
Lemma steps_rooted {A} (m : M A) `{!Journaled m} `{!Steps mirrors m} s : rooted (db s) -> rooted (db (m s).2).
Proof. rewrite run_db by apply _. apply mirrors_rooted. apply (steps (m := m)). Qed.

(** A database without consensus rows and without tree nodes. *)
Lemma blank_rooted d : blank d -> rooted d.
Proof.
  intros Hb. exists []. assert (same_on mirrored_trees ∅ d) as Hs.
  { intros t k Ht. rewrite lookup_empty. apply blank_none; [exact Hb|]. destruct Ht as [->|[dom Hd]]; [reflexivity|].
    unfold domain_tree in Hd. repeat case_match; simplify_eq; reflexivity. }
  exact (history_follows [] [] ∅ d history_empty (follows_nil _ _ Hs)).
Qed.
Lemma build_rooted h s : rooted (db (build_merkle_state h s).2).
Proof. eexists. apply rebuilt_history. intros t k. apply build_rows. Qed.

(** What happens beside the chain touches neither the tables nor the tree. *)
Lemma aside_mirrors d d' : aside d d' -> mirrors d d'.
Proof.
  intros H. apply mirrors_same. intros t k Ht. destruct (H (t, k)) as [E|[E|[E _]]]; [exact E|exfalso..].
  - unfold side_mark in E. apply bool_decide_eq_true in E as [E _]. cbn in E. now apply (plain_not_mirrored T_META t eq_refl Ht).
  - unfold prunable in E. apply bool_decide_eq_true in E. cbn [fst] in E. rewrite !elem_of_cons, elem_of_nil in E.
    destruct E as [->|[->|[->|[]]]]; [now apply (plain_not_mirrored T_BLOCKS T_BLOCKS eq_refl Ht)|
      now apply (plain_not_mirrored T_TXS T_TXS eq_refl Ht)|now apply (plain_not_mirrored T_RECEIPTS T_RECEIPTS eq_refl Ht)].
Qed.
Lemma aside_rooted d d' : aside d d' -> rooted d -> rooted d'.
Proof. intros H. apply mirrors_rooted, aside_mirrors, H. Qed.

(** ** Nodes *)

Definition keeps_root (n n' : Node) : Prop := rooted (n_db n) -> rooted (n_db n').
Lemma advances_root n n' : advances n n' -> keeps_root n n'.
Proof.
  intros [_ H]. unfold keeps_root. induction H as [d|d1 d2 d3 Hm _ IH]; [done|]. intros Hd. apply IH. clear IH.
  revert Hd. destruct Hm as [cpus now now_w b d d' _ E|k ts batch s|d d' Ha]; intros Hd.
  - injection E as _ <-. apply (mirrors_rooted d); [|exact Hd]. apply (steps (m := execute_block b)).
  - destruct (sealed_extends k ts batch s) as [_ E]. injection E as _ <-. apply (mirrors_rooted (db s)); [|exact Hd]. apply (steps (m := execute_block _)).
  - exact (aside_rooted d d' Ha Hd).
Qed.
Lemma wipe_root h n : keeps_root n (wipe_chain h n).2.
Proof. destruct (wipe_blank h n) as [[e ->]|(n' & -> & Hb)]; [now intros H|]. intros _. now apply blank_rooted. Qed.
Lemma genesis_root g n : rooted (n_db n) -> rooted (db (init_genesis g (n_store n)).2).
Proof. apply steps_rooted; apply _. Qed.
Lemma regenerate_root now n : keeps_root n (regenerate now n).2.
Proof.
  intros H. apply (genesis_root (n_genesis n)) in H. unfold regenerate, on_store.
  destruct (init_genesis (n_genesis n) (n_store n)) as [[b|e] s]; exact H.
Qed.
Lemma node_step_root n n' : node_step n n' -> keeps_root n n'.
Proof.
  destruct 1 as [clock b n _|v n r t s _ E|n|e n|tx n|h now n].
  - apply advances_root, import_advances.
  - change (rooted (n_db n) -> rooted (db s)). apply aside_rooted. pose proof (add_aside (n_votes n) (n_store n) v) as H. now rewrite E in H.
  - now intros H.
  - unfold keeps_root, n_db. now rewrite (proj1 (report_store e n)).
  - unfold keeps_root, n_db. now rewrite (proj1 (accept_store tx n)).
  - destruct (reset_parts h now n) as [->| ->]; intros H; [now apply wipe_root|now apply regenerate_root, wipe_root].
Qed.
Lemma section_root b n n' : section b n n' -> keeps_root n n'.
Proof.
  destruct 1 as [now ts seen best io n r n' E|n n' H|n n' H|h n|now n|v kept n r t s0 s0' _ _|below n].
  - pose proof (advances_root _ _ (produce_advances now ts seen best io n)) as H. now rewrite E in H.
  - now apply node_step_root.
  - intros Hn. apply (aside_rooted (n_db n)); [now apply call_aside|exact Hn].
  - apply wipe_root.
  - apply regenerate_root.
  - intros Hn. destruct kept; [|exact Hn]. apply (aside_rooted (n_db n)); [apply aside_finalize|exact Hn].
  - intros Hn. apply (aside_rooted (n_db n)); [apply (unmarked_aside below (n_store n))|exact Hn].
Qed.
Lemma open_root n r n' : open_chain n = (r, n') -> keeps_root n n'.
Proof.
  intros E Hn. apply open_cases in E as [(e & n1 & _ & Hg & _ & ->)|(n1 & Hn1 & E)].
  - apply (genesis_root (n_genesis n)) in Hn. unfold on_store in Hg. destruct (init_genesis _ _) as [x s]. injection Hg as _ <-. exact Hn.
  - assert (rooted (n_db n1)) as H1.
    { destruct Hn1 as [[_ ->]|[_ [b Hg]]]; [exact Hn|]. apply (genesis_root (n_genesis n)) in Hn. unfold on_store in Hg.
      destruct (init_genesis _ _) as [x s]. injection Hg as _ <-. exact Hn. }
    apply (aside_rooted _ _ (startup_aside (n_store n1))) in H1. destruct (startup_state_root_check (n_store n1)) as [[[]|e] s]; cbn [snd] in H1; destruct E as [_ ->].
    + destruct (merkle_ready (db s)); [exact H1|]. apply build_rooted.
    + apply (aside_rooted (db s)); [|exact H1]. exact (halt_aside "state divergence detected at startup" (with_store s n1)).
Qed.

(** ** Snapshots *)

#[local] Hint Extern 1 (Steps mirrors (jput _ _ _)) => apply mirrors_jput; reflexivity : typeclass_instances.
#[local] Instance mirrors_file_block b : Steps mirrors (put_block b).
Proof. unfold put_block. steps. Qed.
#[local] Instance mirrors_finalize h : Steps mirrors (set_finalized_height h).
Proof. intros d. apply aside_mirrors. exact (aside_finalize h (mk d [])). Qed.
#[local] Instance mirrors_mark h : Steps mirrors (mark_pruned_below h).
Proof. unfold mark_pruned_below. steps. Qed.
Lemma import_rooted snap chain_id s h s' : Snapshot.import snap chain_id s = (Ok h, s') -> rooted (db s').
Proof.
  unfold Snapshot.import. destruct (import_header snap chain_id) as [[[[expected fee] pool] vk]|e]; [|discriminate].
  destruct (restore_tables _ _) as [[u|e] s1]; [|discriminate]. cbv zeta. destruct (negb _); [discriminate|]. injection 1 as _ <-.
  unfold adopt, do_. apply (steps_rooted (mark_pruned_below (sn_height snap))).
  apply (aside_rooted (db (set_finalized_height (sn_height snap) (put_block (sn_block snap) (install_meta fee pool (sn_shielded_sealed snap) (sn_height snap) vk s1)).2).2)).
  { unfold set_state_checkpoint, raw_put. cbn [db]. now apply aside_put. }
  apply (steps_rooted (set_finalized_height (sn_height snap))), (steps_rooted (put_block (sn_block snap))). apply build_rooted.
Qed.

Lemma reached_rooted d : reached d -> rooted d.
Proof.
  induction 1 as [d Hb|snap chain_id s h s' E|height s|n r n' _ IH E|b n n' _ IH H].
  - now apply blank_rooted.
  - exact (import_rooted _ _ _ _ _ E).
  - apply build_rooted.
  - exact (open_root n r n' E IH).
  - exact (section_root b n n' H IH).
Qed.

(** C9: The state root commits to the tables.  Take any state a database comes to
    from nothing, a reset, a snapshot imported over any database or a rebuild
    over any database, through any openings and any interleaving of blocks,
    votes, calls, prunings and resets, the store between the two halves of a
    reset included.  Behind it there is a list of leaf updates such that the
    stored root is the root of the perfect Merkle tree over the leaves they
    denote, and every row of the five consensus tables is the last update of its
    key (no row, no leaf).  Two such states with the same rows and pool leaves
    have the same root, as long as no two keys share a 128-bit path. *)
Theorem root_commits_to_tables d (Hreach : reached d) :
  exists us, history us d /\ smt_root d = tree_hash (leaves_of us) DEPTH 0 /\
    forall us' d', history us' d' -> separated (us.*1 ++ us'.*1) ->
      (forall dom key, is_Some (domain_tree dom) -> merkle_leaf_value dom key d = merkle_leaf_value dom key d') ->
      (forall dom key, domain_tree dom = None -> value_after us (dom, key) None = value_after us' (dom, key) None) ->
      smt_root d = smt_root d'.
Proof.
  apply reached_rooted in Hreach as [us H1]. exists us. split; [exact H1|split; [exact (history_root us d H1)|]].
  intros us' d' H2. exact (same_rows_same_root us d us' d' H1 H2).
Qed.
End roots.

(** A node opens an empty disk, and a claim of height 9 wipes it while the thread
    of the reset has still to write its genesis; then it does. *)
Module Roots_example.
Import Toy Toy_field Exec_example P2p_example Daemon_example.
#[local] Existing Instance P2p_example.env.
#[local] Existing Instance Rpc_example.toy_serde.
#[local] Existing Instance Http_example.toy_text.

Definition born : Node := (open_chain (node_new empty_store (default_devnet alice) key 0)).2.
Definition wiped_node : Node := (wipe_chain 9 born).2.
Definition reborn : Node := (regenerate 1 wiped_node).2.
Lemma reborn_reached : reached (n_db reborn).
Proof.
  apply (rd_section None wiped_node); [|apply sec_regenerate]. apply (rd_section None born); [|apply sec_wipe].
  apply (rd_open (node_new empty_store (default_devnet alice) key 0) (open_chain (node_new empty_store (default_devnet alice) key 0)).1); [|apply surjective_pairing].
  apply rd_blank, blank_empty.
Qed.
Lemma root_commits_to_tables_witness :
  exists us, history us (n_db reborn) /\ smt_root (n_db reborn) = tree_hash (leaves_of us) DEPTH 0.
Proof.
  destruct (root_commits_to_tables (n_db reborn) reborn_reached) as (us & H & Hr & _). exists us. split; [exact H|exact Hr].
Defined.
End Roots_example.
