(* ===== verification/Spender.v ===== *)
(** main.rs, the shielded wallet: how the command line builds a spend of shielded
    notes from what a node serves, and the round trip of `shielded-demo`.

    The random field elements, the recipient's key and the seeds of the prover
    are arguments.  The prover of [ark_groth16] is the class [Prover]; timings
    and progress lines are left out. *)

From S2P Require Import Prelude Bytes Crypto Types Journal Store Smt Poseidon Shielded State Fees Staking Tokens Slashing Votes.
From S2P Require Import Mempool Contracts SignGuard Circuit Exec Chain Simulate Limits Access Rpc Events P2p Text Http Cli Client.
From Stdlib Require Import Ascii.
From Stdlib Require String.

(** [create_random_proof_with_reduction] with the proving key of the devnet
    parameters and a seed, and [serialize_compressed]. *)
Class Prover `{HG : Groth16} := { create_proof : N -> SpendCircuit -> result gProof; proof_serialize : gProof -> string }.
(** The proof system is complete: an assignment that satisfies the constraints
    has a proof, and it verifies against its public inputs; a proof survives its
    encoding, and is short. *)
Class ProverLaws {HF : Fr} {HK : Compression} {HG : Groth16} {HV : Prover} : Prop := {
  prover_complete seed c : generate_constraints (publics_of c) (witness_of c) = true ->
    exists p, create_proof seed c = Ok p /\ verify_proof (parameters_of dummy_circuit) p (public_inputs c) = true;
  proof_round_trip p : proof_deserialize (proof_serialize p) = Some p;
  proof_len p : (0 < slen (proof_serialize p) <= 256)%nat
}.

Section notes.
Context {HC : Crypto} {HF : Fr} {HK : Compression} {HG : Groth16} {HV : Prover}.

(* [src/src/shielded_circuit.rs 228-233 prove] *)
Definition prove (seed : N) (c : SpendCircuit) : result gProof :=
  match create_proof seed c with Ok p => Ok p | Err e => Err ("prove: " +:+ e) end.
(* [src/src/shielded_circuit.rs 256-260 proof_to_hex] *)
Definition proof_to_hex (p : gProof) : string := hex_encode (proof_serialize p).

(** A note the wallet can spend. *)
(* [src/src/main.rs 139-143! run] *)
Record OwnNote := { nt_sk : F; nt_value : N; nt_rho : F }.
(* [src/src/main.rs 148-150! run] *)
Definition note_cm (n : OwnNote) : string := fr_to_hex (note_commitment (owner_tag (nt_sk n)) (nt_value n) (nt_rho n)).

(** A spent slot, with its path. *)
Definition spend_note (n : OwnNote) (pos : N) (path : list F) : SpendNote := {|
  sn_spend_key := nt_sk n; sn_value := nt_value n; sn_rho := nt_rho n; sn_position := pos; sn_path := path |}.
(* [src/src/main.rs 261-274! run] *)
Definition spend_circuit (anchor : F) (s1 s2 : SpendNote) (o1 o2 : OutputNote) (unshield : N) : SpendCircuit := {|
  sc_anchor := anchor;
  sc_nullifiers := (nullifier (sn_spend_key s1) (sn_position s1), nullifier (sn_spend_key s2) (sn_position s2));
  sc_out_commitments := (note_commitment (on_owner o1) (on_value o1) (on_rho o1), note_commitment (on_owner o2) (on_value o2) (on_rho o2));
  sc_public_unshield := unshield; sc_inputs := (s1, s2); sc_outputs := (o1, o2) |}.
(* [src/src/main.rs 278-288! run] *)
Definition spend_data (c : SpendCircuit) (p : gProof) : ShieldedData := {|
  anchor := fr_to_hex (sc_anchor c);
  nullifiers := [fr_to_hex (sc_nullifiers c).1; fr_to_hex (sc_nullifiers c).2];
  commitments := [fr_to_hex (sc_out_commitments c).1; fr_to_hex (sc_out_commitments c).2];
  sh_proof := proof_to_hex p;
  public_unshield := if 0 <? sc_public_unshield c then dec (sc_public_unshield c) else "" |}.
(** A shielded transaction of the wallet. *)
Definition shielded_tx (k : Keypair) (kind : TxKind) (to : string) (amount nonce : N) (data : ShieldedData) : Transaction :=
  signed_by k (Build_Transaction kind (pubkey_hex k) to amount MIN_FEE nonce CHAIN_ID None (Some data) "").

Context {HT : JsonText} {HX : TxJson} {Srv : Type} (post : string -> JValue -> Io Srv JValue).

(** The path of an input: the node's, or that of an empty tree for a dummy. *)
(* [src/src/main.rs 235-252! run] *)
Definition input_path (url : string) (info : JValue) (n : OwnNote) (pos : N) : Io Srv (list F) :=
  if nt_value n =? 0 then mret (map zero_subtree_root (seq 0 TREE_DEPTH))
  else
    p ← rpc_call post url "inaz_shieldedPath" (JObj [("position", jn pos)]);
    if negb (bool_decide (str_param "root" p = str_param "treeRoot" info)) then io (Err "tree moved while building proof; retry")
    else
      path ← io (ok_or (arr_param "path" p) "no path");
      io (ok_or (mapM (fun h => fr_from_hex (default "" (as_str h))) path) "bad path element").

(* [src/src/main.rs 223-303! run] *)
Definition build_spend (url : string) (k : Keypair) (seed : N) (kind : TxKind) (i1 i2 : OwnNote * N) (o1 o2 : OutputNote)
    (unshield : N) (to : string) (nonce : N) : Io Srv Transaction :=
  info ← rpc_call post url "inaz_shieldedInfo" (JObj []);
  tree ← io (ok_or (str_param "treeRoot" info) "no treeRoot");
  root ← io (ok_or (fr_from_hex tree) "bad treeRoot");
  path1 ← input_path url info i1.1 i1.2;
  path2 ← input_path url info i2.1 i2.2;
  let c := spend_circuit root (spend_note i1.1 i1.2 path1) (spend_note i2.1 i2.2 path2) o1 o2 unshield in
  p ← io (prove seed c);
  mret (shielded_tx k kind to 0 nonce (spend_data c p)).

(* [src/src/main.rs 180-189! run] *)
Fixpoint wait_notes (tries : nat) (url : string) (want : N) : Io Srv unit :=
  match tries with
  | O => io (Err ("timed out waiting for note count " +:+ dec want))
  | S tries =>
    i ← rpc_call post url "inaz_shieldedInfo" (JObj []);
    if want <=? default 0 (u64_param "noteCount" i) then mret tt else wait_notes tries url want
  end.
(* [src/src/main.rs 191-194! run] *)
Definition submit_tx (url : string) (tx : Transaction) : Io Srv unit :=
  _ ← rpc_call post url "inaz_sendTransaction" (JObj [("tx", tx_to_json tx)]); mret tt.

(** The random choices of a run. *)
Record Choices := { ch_a : F * F; ch_b : F * F; ch_bob : F * F; ch_change : F * F; ch_dummy : F * F;
  ch_out1 : F * F; ch_out2 : F * F; ch_recipient : Keypair; ch_seed1 : N; ch_seed2 : N }.
Definition own (r : F * F) (value : N) : OwnNote := {| nt_sk := r.1; nt_value := value; nt_rho := r.2 |}.
Definition paid_to (r : F * F) (value : N) : OutputNote := {| on_owner := owner_tag r.1; on_value := value; on_rho := r.2 |}.
Definition shield_tx (k : Keypair) (nonce : N) (n : OwnNote) : Transaction :=
  shielded_tx k Shield (address k) (nt_value n) nonce {| anchor := ""; nullifiers := []; commitments := [note_cm n]; sh_proof := ""; public_unshield := "" |}.
Definition shown (k : string) (v : JValue) : string := json_text (default JNull (get k v)).
Definition amount_of (k : string) (v : JValue) : N := default 0 (parse_u128 (default "0" (str_param k v))).

(** Shield two notes, pay one privately, withdraw it. *)
(* [src/src/main.rs 114-362! run] *)
Definition shielded_demo (f : Flags) (r : Choices) : Io Srv unit :=
  let url := default "127.0.0.1:19331" (f !! "rpc") in
  k ← io (s ← need "key" "--key required" f; from_secret_hex s);
  let amount := default 2 (s ← f !! "amount"; parse_u128 s) *! RAI_PER_INAZ in
  info ← rpc_call post url "inaz_shieldedInfo" (JObj []);
  if negb (match get "active" info with Some (JBool b) => b | _ => false end) then
    io (Err ("shielded pool not active yet (tip " +:+ shown "height" info +:+ ", activation " +:+ shown "activationHeight" info +:+ ")"))
  else
    acct ← rpc_call post url "inaz_getAccount" (JObj [("address", JStr (address k))]);
    let nonce := nonce_of_account acct in
    let base := default 0 (u64_param "noteCount" info) in
    let note_a := own (ch_a r) amount in let note_b := own (ch_b r) amount in
    submit_tx url (shield_tx k nonce note_a) ;;
    submit_tx url (shield_tx k (nonce +!! 1) note_b) ;;
    wait_notes 120 url (base +!! 2) ;;
    tx ← build_spend url k (ch_seed1 r) PrivateTransfer (note_a, base) (note_b, base +!! 1)
      (paid_to (ch_bob r) amount) (paid_to (ch_change r) amount) 0 "" (nonce +!! 2);
    submit_tx url tx ;;
    wait_notes 120 url (base +!! 4) ;;
    let recipient := address (ch_recipient r) in
    tx ← build_spend url k (ch_seed2 r) Unshield (own (ch_bob r) amount, base +!! 2) (own (ch_dummy r) 0, 0)
      (paid_to (ch_out1 r) 0) (paid_to (ch_out2 r) 0) amount recipient (nonce +!! 3);
    submit_tx url tx ;;
    wait_notes 120 url (base +!! 6) ;;
    bal ← rpc_call post url "inaz_getBalance" (JObj [("address", JStr recipient)]);
    let got := amount_of "balance" bal in
    if negb (got =? amount) then
      io (Err ("unshield verification failed: recipient has " +:+ dec got +:+ " rai, expected " +:+ dec amount))
    else
      fin ← rpc_call post url "inaz_shieldedInfo" (JObj []);
      let pool := amount_of "poolBalance" fin in
      if negb (pool =? amount) then
        io (Err ("pool balance " +:+ dec pool +:+ " rai, expected " +:+ dec amount +:+ " (the change note)"))
      else mret tt.
End notes.
