(* ===== verification/SpenderFacts.v ===== *)
(** A shielded note can be spent: what the wallet builds from what a node serves
    is what the node settles. *)

From S2P Require Import Prelude Bytes Crypto Types TypesFacts Journal Store Smt SmtFacts Poseidon Shielded State StateFacts Fees Staking Tokens Slashing Votes.
From S2P Require Import Mempool Contracts SignGuard Circuit CircuitFacts Exec ExecFacts Chain ChainFacts Mirror Simulate Limits Access Rpc RpcFacts Events P2p Text Http Cli.
From S2P Require Import Client ClientFacts ShieldFacts NoteTree Spender.
From Stdlib Require Import Ascii.
From Stdlib Require String.

Section facts.
Context {HC : Crypto} {HF : Fr} {HK : Compression} {HP : ChainParams} {HJ : EvidenceJson} {HW : Wasm} {HG : Groth16} {HS : Serde}.
Context {HV : Prover} {HX : TxJson} {HL : CryptoLaws} {HFL : FrLaws} {HVL : ProverLaws}.

(** ** What the node answers *)

Ltac not_listed := apply (bool_decide_eq_true_1 _); vm_compute; reflexivity.

Lemma ok_inj {A : Type} (a b : A) : Ok a = Ok b -> a = b.
Proof. now injection 1. Qed.
Lemma info_answer x ip credential url p n c v n' c' :
  rpc_call (node_post x ip credential) url "inaz_shieldedInfo" p (n, c) = (Ok v, (n', c')) -> n' = n /\ v = shielded_info (n_db n).
Proof.
  intros H. apply call_served in H as (c1 & r & c2 & Hd & Ha & <- & _); [|not_listed].
  apply read_served in Hd as [H1 H2]; [|not_listed|now rewrite Ha]. rewrite H2. rewrite Ha in H1.
  change (Ok v = Ok (shielded_info (n_db n))) in H1. injection H1 as ->. split; reflexivity.
Qed.
Lemma path_answer x ip credential url p n c v n' c' :
  rpc_call (node_post x ip credential) url "inaz_shieldedPath" p (n, c) = (Ok v, (n', c')) -> n' = n /\ shielded_path p (n_db n) = Ok v.
Proof.
  intros H. apply call_served in H as (c1 & r & c2 & Hd & Ha & <- & _); [|not_listed].
  apply read_served in Hd as [H1 H2]; [|not_listed|now rewrite Ha]. rewrite H2. rewrite Ha in H1.
  change (Ok v = shielded_path p (n_db n)) in H1. now rewrite <- H1.
Qed.
Lemma tree_root_served d : str_param "treeRoot" (shielded_info d) = Some (fr_to_hex (root_from_leaves (pool_leaves d))).
Proof. reflexivity. Qed.
Lemma position_param pos : pos <= U64_MAX -> u64_param "position" (JObj [("position", jn pos)]) = Some pos.
Proof. exact (jn_reads pos). Qed.
Lemma path_decodes (l : list F) : mapM (fun h => fr_from_hex (default "" (as_str h))) (map (fun f => JStr (fr_to_hex f)) l) = Some l.
Proof.
  induction l as [|f l IH]; [done|]. cbn [map mapM]. change (default "" (as_str (JStr (fr_to_hex f)))) with (fr_to_hex f).
  now rewrite fr_hex_round_trip, IH.
Qed.

(** ** What the wallet holds *)

(** A note the wallet can open, at its position in the tree; or a dummy. *)
Record owned (leaves : list F) (n : OwnNote) (pos : N) : Prop := {
  ow_value : nt_value n < 2 ^ 64;
  ow_position : pos < 2 ^ N.of_nat TREE_DEPTH;
  ow_leaf : nt_value n = 0 \/ nth (N.to_nat pos) leaves (f_of 0) = note_commitment (owner_tag (nt_sk n)) (nt_value n) (nt_rho n)
}.

Lemma input_honest x ip credential url nt pos n c path n' c' (leaves := pool_leaves (n_db n)) :
  N.of_nat (length leaves) <= 2 ^ N.of_nat TREE_DEPTH -> owned leaves nt pos ->
  input_path (node_post x ip credential) url (shielded_info (n_db n)) nt pos (n, c) = (Ok path, (n', c')) ->
  n' = n /\ honest_input (root_from_leaves leaves) (nullifier (nt_sk nt) pos) (spend_note nt pos path).
Proof.
  intros Hl [Hv Hp Ho]. unfold input_path. destruct (N.eqb_spec (nt_value nt) 0) as [Hz|Hz].
  - intros H. apply io_inv in H as [H Hs]. apply pair_equal_spec in Hs as [-> _]. split; [reflexivity|].
    split; [exact Hv|exact Hp|now left| |reflexivity]. unfold spend_note. cbn [sn_path].
    now rewrite <- (ok_inj _ _ H), length_map, length_seq.
  - intros H. apply io_bind_inv in H as (p & [n1 c1] & H1 & H). apply path_answer in H1 as [-> H1].
    unfold shielded_path in H1. rewrite position_param in H1
      by (apply N.lt_le_incl, (N.lt_le_trans _ _ _ Hp); vm_compute; discriminate).
    cbn [ok_or mbind result_bind] in H1. fold leaves in H1.
    destruct (Nat.ltb_spec (N.to_nat pos) (length leaves)) as [Hin|Hout].
    2: unfold merkle_path in H1; rewrite (proj2 (Nat.leb_le _ _)) in H1 by lia; discriminate H1.
    rewrite merkle_path_siblings in H1 by done. cbn [mbind result_bind] in H1. apply ok_inj in H1 as <-.
    match type of H with (if negb (bool_decide ?P) then _ else _) _ = _ => destruct (bool_decide P) end; [|discriminate H]. cbn [negb] in H.
    match type of H with context [arr_param "path" ?v] => change (arr_param "path" v) with (Some (map (fun f => JStr (fr_to_hex f)) (siblings leaves 0 TREE_DEPTH (N.to_nat pos)))) in H end.
    apply io_bind_inv in H as (l & s1 & H1 & H). apply io_inv in H1 as [H1 ->]. apply ok_inj in H1 as <-.
    rewrite path_decodes in H. apply io_inv in H as [H Hs]. apply ok_inj in H as <-. apply pair_equal_spec in Hs as [-> _]. split; [reflexivity|].
    destruct Ho as [|Ho]; [contradiction|].
    split; [exact Hv|exact Hp| |unfold spend_note, siblings; cbn [sn_path]; now rewrite length_map, length_seq|reflexivity].
    right. cbn [spend_note sn_spend_key sn_value sn_rho sn_position sn_path]. rewrite <- Ho.
    pose proof (verify_path_siblings leaves (N.to_nat pos)) as Hvp. rewrite N2Nat.id in Hvp. apply Hvp. lia.
Qed.

(** ** What the wallet builds *)

(** The transaction proves the spend of two nullifiers from an anchor. *)
Definition commitment_of (o : OutputNote) : F := note_commitment (on_owner o) (on_value o) (on_rho o).
Record built (anchor nf1 nf2 : F) (o1 o2 : OutputNote) (unshield : N) (c : SpendCircuit) (p : gProof) : Prop := {
  bt_anchor : sc_anchor c = anchor;
  bt_nullifiers : sc_nullifiers c = (nf1, nf2);
  bt_commitments : sc_out_commitments c = (commitment_of o1, commitment_of o2);
  bt_unshield : sc_public_unshield c = unshield;
  bt_proof : spend_verify devnet_setup p (public_inputs c) = true
}.

Lemma build_spend_spec x ip credential url k seed kind i1 i2 o1 o2 unshield to nonce n c tx n' c' (leaves := pool_leaves (n_db n)) :
  N.of_nat (length leaves) <= 2 ^ N.of_nat TREE_DEPTH -> owned leaves i1.1 i1.2 -> owned leaves i2.1 i2.2 ->
  on_value o1 < 2 ^ 64 -> on_value o2 < 2 ^ 64 -> unshield < 2 ^ 64 ->
  nt_value i1.1 + nt_value i2.1 = unshield + on_value o1 + on_value o2 ->
  build_spend (node_post x ip credential) url k seed kind i1 i2 o1 o2 unshield to nonce (n, c) = (Ok tx, (n', c')) ->
  n' = n /\ exists cir p, tx = shielded_tx k kind to 0 nonce (spend_data cir p) /\
    built (root_from_leaves leaves) (nullifier (nt_sk i1.1) i1.2) (nullifier (nt_sk i2.1) i2.2) o1 o2 unshield cir p.
Proof.
  intros Hl Hi1 Hi2 Ho1 Ho2 Hu Hsum H. unfold build_spend in H.
  apply io_bind_inv in H as (info & [n1 c1] & H1 & H). apply info_answer in H1 as [-> ->].
  rewrite tree_root_served in H. fold leaves in H. cbn [ok_or] in H.
  apply (io_step _ _ _ _ _ _ eq_refl) in H. cbv beta in H. rewrite fr_hex_round_trip in H. cbn [ok_or] in H. apply (io_step _ _ _ _ _ _ eq_refl) in H.
  apply io_bind_inv in H as (path1 & [n2 c2] & H1 & H). apply (input_honest _ _ _ _ _ _ _ _ _ _ _ Hl Hi1) in H1 as [-> H1].
  apply io_bind_inv in H as (path2 & [n3 c3] & H2 & H). apply (input_honest _ _ _ _ _ _ _ _ _ _ _ Hl Hi2) in H2 as [-> H2].
  cbv zeta in H. set (cir := spend_circuit _ _ _ _ _ _) in *.
  destruct (prover_complete seed cir) as (p & Hp & Hv).
  { apply honest_spend_satisfies; [exact H1|exact H2|split; [exact Ho1|reflexivity]|split; [exact Ho2|reflexivity]|exact Hu|exact Hsum]. }
  unfold prove in H. rewrite Hp in H. apply (io_step _ _ _ _ _ _ eq_refl) in H.
  apply pair_equal_spec in H as [H Hs]. apply pair_equal_spec in Hs as [<- _]. apply ok_inj in H as <-.
  split; [reflexivity|]. exists cir, p. split; [reflexivity|]. split; [reflexivity..|exact Hv].
Qed.

(** ** What the node reads *)

Lemma fr_hex_nonempty f : String.eqb (fr_to_hex f) "" = false.
Proof.
  apply String.eqb_neq. intros E. apply (f_equal slen) in E. unfold fr_to_hex in E. rewrite hex_len, slen_be in E. discriminate E.
Qed.
Lemma fr_hex_inj f g : fr_to_hex f = fr_to_hex g -> f = g.
Proof. intros E. apply (f_equal fr_from_hex) in E. rewrite !fr_hex_round_trip in E. now injection E. Qed.
Lemma proof_hex_round_trip p : proof_from_hex (proof_to_hex p) = Some p.
Proof.
  unfold proof_from_hex, proof_to_hex. rewrite (Toy.trim_no_space is_hex) by (apply Toy.hex_not_space || apply hex_chars).
  rewrite hex_round_trip. cbn [mbind option_bind]. apply proof_round_trip.
Qed.
Lemma spend_inputs_read c p : spend_inputs (spend_data c p) (sc_public_unshield c) = Ok (public_inputs c).
Proof.
  unfold spend_inputs, spend_data. cbn [anchor nullifiers commitments nth]. rewrite !fr_hex_round_trip. reflexivity.
Qed.
Lemma public_amount_read u : u < 2 ^ 64 -> public_amount (if 0 <? u then dec u else "") = Ok u.
Proof.
  intros Hu. unfold public_amount. destruct (N.ltb_spec 0 u); [|replace u with 0 by lia; reflexivity].
  rewrite (proj2 (String.eqb_neq _ _)) by apply dec_nonempty. unfold parse_u128. rewrite parse_uint_dec; [reflexivity|].
  assert (2 ^ 64 <= U128_MAX) by (vm_compute; discriminate). lia.
Qed.

(** A kind of spend, what it pays out and to whom. *)
Definition fits (kind : TxKind) (unshield : N) (to : string) : Prop :=
  kind = PrivateTransfer /\ unshield = 0 \/ kind = Unshield /\ 0 < unshield /\ is_valid_address to = true.

Lemma built_shaped k kind to nonce c p nf1 nf2 o1 o2 u a : built a nf1 nf2 o1 o2 u c p -> fits kind u to -> u < 2 ^ 64 -> nf1 <> nf2 ->
  check_shielded_shape (shielded_tx k kind to 0 nonce (spend_data c p)) = Ok tt.
Proof.
  intros [Ha Hn _ Hu _] Hf Hb Hne. unfold check_shielded_shape. cbn [shielded_tx signed_by with_signature tx_shielded tx_kind tx_amount ok_or mbind result_bind].
  pose proof (proof_len p) as Hp.
  destruct (Nat.ltb_spec 512 (slen (sh_proof (spend_data c p)))) as [Hlong|_].
  { cbn [sh_proof spend_data] in Hlong. unfold proof_to_hex in Hlong. rewrite hex_len in Hlong. lia. }
  assert (forall f, negb (bool_decide (is_Some (fr_from_hex (fr_to_hex f)))) = false) as Hf1 by (intros f; now rewrite fr_hex_round_trip).
  cbn [spend_data commitments nullifiers anchor app existsb]. rewrite !Hf1, !andb_false_r. cbn [orb].
  change (public_unshield (spend_data c p)) with (if 0 <? sc_public_unshield c then dec (sc_public_unshield c) else "").
  rewrite Hu, public_amount_read by exact Hb. cbn [mbind result_bind].
  assert (two_in_two_out (spend_data c p) = true) as H2.
  { unfold two_in_two_out. cbn [spend_data nullifiers commitments sh_proof length Nat.eqb andb]. apply negb_true_iff, String.eqb_neq. intros E.
    apply (f_equal slen) in E. unfold proof_to_hex in E. rewrite hex_len in E. cbn in E. lia. }
  assert (same_nullifiers (spend_data c p) = false) as Hs.
  { unfold same_nullifiers. cbn [spend_data nullifiers nth]. apply String.eqb_neq. rewrite Hn. cbn [fst snd]. intros E. now apply fr_hex_inj in E. }
  rewrite fr_hex_nonempty.
  destruct Hf as [[-> ->]|(-> & Hpos & _)]; [|rewrite (proj2 (N.eqb_neq u 0)) by lia]; rewrite H2, Hs; reflexivity.
Qed.

(** ** What the node settles *)

(** The store is ready for the spend: the pool is active, it sealed the anchor,
    its verifying key is that of the devnet parameters the wallet proves under
    (the stored one, or none stored yet: no key of another ceremony), it holds
    what is paid out, has room for two notes and has seen neither nullifier. *)
Record ready (anchor nf1 nf2 : F) (unshield h : N) (d : Db) : Prop := {
  rd_active : shielded_activation <= h;
  rd_anchor : shielded_root_known (fr_to_hex anchor) d = true;
  rd_key : installed_key d = Some devnet_setup;
  rd_pool : unshield <= shielded_pool_balance d;
  rd_fresh : shielded_nullifier_seen (fr_to_hex nf1) d = false /\ shielded_nullifier_seen (fr_to_hex nf2) d = false;
  rd_notes : exists cs, note_table cs d /\ N.of_nat (length cs + 2) <= 2 ^ N.of_nat TREE_DEPTH
}.

(** Whoever holds the key of an output note can spend it at its position. *)
Definition receives (leaves : list F) (o : OutputNote) (pos : N) : Prop :=
  forall sk, on_owner o = owner_tag sk -> owned leaves {| nt_sk := sk; nt_value := on_value o; nt_rho := on_rho o |} pos.
Lemma receives_at leaves o (l1 l2 : list F) : leaves = l1 ++ commitment_of o :: l2 -> on_value o < 2 ^ 64 -> N.of_nat (length l1) < 2 ^ N.of_nat TREE_DEPTH ->
  receives leaves o (N.of_nat (length l1)).
Proof.
  intros -> Hv Hl sk Hsk. split; [exact Hv|exact Hl|]. right. rewrite Nat2N.id, app_nth2, Nat.sub_diag by lia.
  unfold commitment_of. rewrite Hsk. reflexivity.
Qed.

Lemma omap_short {A B : Type} (f : A -> option B) l : (length (omap f l) <= length l)%nat.
Proof. induction l as [|x l IH]; [done|]. cbn. destruct (f x); cbn; lia. Qed.

(** What is built is settled. *)
Lemma built_settles k kind to nonce a nf1 nf2 o1 o2 u c p h d (tx := shielded_tx k kind to 0 nonce (spend_data c p)) (pos := N.of_nat (length (pool_leaves d))) :
  built a nf1 nf2 o1 o2 u c p -> fits kind u to -> u < 2 ^ 64 -> on_value o1 < 2 ^ 64 -> on_value o2 < 2 ^ 64 -> nf1 <> nf2 -> ready a nf1 nf2 u h d ->
  exists d', run (apply_shielded tx h) d = (Ok tt, d') /\ settled tx (spend_data c p) u d d' /\
    receives (pool_leaves d') o1 pos /\ receives (pool_leaves d') o2 (pos + 1).
Proof.
  intros Hb Hf Hu Ho1 Ho2 Hne [Ra Rr Rk Rp [Rn1 Rn2] (cs & Rt & Rl)]. pose proof (built_shaped k kind to nonce c p _ _ _ _ _ _ Hb Hf Hu Hne) as Hshape. fold tx in Hshape.
  destruct Hb as [Ba Bn Bc Bu Bp].
  destruct (spendable_runs tx (spend_data c p) u h d (fr_to_hex nf1) (fr_to_hex nf2)) as (d' & E & Hs).
  - destruct Hf as [[-> ->]|(-> & Hpos & _)]; [right|left]; (split; [reflexivity|]); [reflexivity|]. split; [|exact Hpos].
    change (public_unshield (spend_data c p)) with (if 0 <? sc_public_unshield c then dec (sc_public_unshield c) else "").
    rewrite Bu, (proj2 (N.ltb_lt _ _) Hpos). unfold parse_u128. apply parse_uint_dec. assert (2 ^ 64 <= U128_MAX) by (vm_compute; discriminate). lia.
  - split; [destruct Hf as [[_ ->]|(_ & _ & Hto)]; [now left|now right]|exact Rp|cbn [anchor spend_data]; now rewrite Ba|].
    exists p, devnet_setup, (public_inputs c). rewrite <- Bu. split; [apply proof_hex_round_trip|]. split; [exact Rk|]. split; [apply spend_inputs_read|exact Bp].
  - cbn [nullifiers spend_data]. now rewrite Bn.
  - intros E. now apply fr_hex_inj in E.
  - exact Rn1.
  - exact Rn2.
  - exists d'. split; [|split; [exact Hs|]].
    + unfold apply_shielded. rewrite (proj2 (N.ltb_ge _ _) Ra). change (tx_shielded tx) with (Some (spend_data c p)). cbn [ok_or]. runs. rewrite Hshape. runs.
      change (tx_kind tx) with kind in *. destruct Hf as [[-> _]|[-> _]]; exact E.
    + pose proof (st_notes _ _ _ _ _ Hs cs Rt) as Hnotes. assert (2 ^ N.of_nat TREE_DEPTH <= 2 ^ 64) by (vm_compute; discriminate).
      specialize (Hnotes ltac:(cbn [length commitments spend_data]; lia)). assert (pool_leaves d' = pool_leaves d ++ [commitment_of o1; commitment_of o2]) as Hl.
      { unfold pool_leaves. rewrite (note_leaves _ _ Hnotes), (note_leaves _ _ Rt), omap_app. f_equal. cbn [commitments spend_data omap list_omap].
        rewrite Bc, !fr_hex_round_trip. reflexivity. }
      assert (length (pool_leaves d) <= length cs)%nat by (unfold pool_leaves; rewrite (note_leaves _ _ Rt); apply omap_short).
      split; [apply (receives_at _ o1 (pool_leaves d) [commitment_of o2]); [exact Hl|exact Ho1|lia]|].
      replace (pos + 1) with (N.of_nat (length (pool_leaves d ++ [commitment_of o1]))) by (rewrite length_app; cbn [length]; lia).
      apply (receives_at _ o2 (pool_leaves d ++ [commitment_of o1]) []); [now rewrite Hl, <- app_assoc|exact Ho2|]. rewrite length_app. cbn [length]. lia.
Qed.

(** ** The whole transaction *)

(** The state once the sender has paid the fee. *)
Definition charged (tx : Transaction) (addr : string) (d : Db) : Db := db_after (set_account addr (debited tx (account addr d))) d.
Lemma charged_rows tx addr d t k : t <> T_SMT -> t <> T_ACCOUNTS -> t <> T_STAKERS -> charged tx addr d !! (t, k) = d !! (t, k).
Proof. intros H1 H2 H3. unfold charged. rewrite set_account_rows by exact H1. now rewrite !decide_False by congruence. Qed.
Lemma charged_ready tx addr a nf1 nf2 u h d : ready a nf1 nf2 u h d -> ready a nf1 nf2 u h (charged tx addr d).
Proof.
  intros [H1 H2 H3 H4 [H5 H6] (cs & H7 & H8)]. split; [exact H1| | | | |].
  - unfold shielded_root_known in *. now rewrite charged_rows by discriminate.
  - unfold installed_key, shielded_verifying_key in *. now rewrite charged_rows by discriminate.
  - unfold charged. now rewrite pool_set_account.
  - unfold shielded_nullifier_seen in *. now rewrite !charged_rows by discriminate.
  - exists cs. split; [|exact H8]. apply (note_table_ext cs d); [|exact H7]. intros k. now apply charged_rows.
Qed.
Lemma charged_leaves tx addr d : pool_leaves (charged tx addr d) = pool_leaves d.
Proof.
  unfold pool_leaves, shielded_leaves. rewrite (rows_ext _ _ d); [reflexivity|]. intros k. now apply charged_rows.
Qed.

(** A sender that pays the fee at the right nonce gets its transaction executed. *)
Lemma spend_executes k kind to nonce a nf1 nf2 o1 o2 u c p h d
  (tx := shielded_tx k kind to 0 nonce (spend_data c p)) (pos := N.of_nat (length (pool_leaves d))) :
  built a nf1 nf2 o1 o2 u c p -> fits kind u to -> u < 2 ^ 64 -> on_value o1 < 2 ^ 64 -> on_value o2 < 2 ^ 64 -> nf1 <> nf2 -> ready a nf1 nf2 u h d ->
  nonce = Types.nonce (account (address k) d) -> MIN_FEE <= balance (account (address k) d) ->
  exists d', run (apply_tx tx h) d = (Ok MIN_FEE, d') /\ settled tx (spend_data c p) u (charged tx (address k) d) d' /\
    receives (pool_leaves d') o1 pos /\ receives (pool_leaves d') o2 (pos + 1).
Proof.
  intros Hb Hf Hu Ho1 Ho2 Hne Hr Hnonce Hfee.
  destruct (built_settles k kind to nonce a nf1 nf2 o1 o2 u c p h _ Hb Hf Hu Ho1 Ho2 Hne (charged_ready tx (address k) _ _ _ _ _ _ Hr)) as (d' & E & H).
  rewrite charged_leaves in H. exists d'. split; [|exact H]. fold tx in E.
  assert (sender tx = Some (address k)) as Hs by apply signed_sender. assert (tx_kind tx = kind) as Hk by reflexivity.
  assert (precheck_kind d (address k) tx = Ok tt /\ debit_of tx = MIN_FEE /\ collected_of tx = MIN_FEE) as (H1 & H2 & H3)
    by (unfold precheck_kind, debit_of, collected_of; rewrite Hk; destruct Hf as [[-> _]|[-> _]]; repeat split).
  assert (run (apply_kind tx (address k) (debited tx (account (address k) d)) h) d = (Ok tt, d')) as Ekind.
  { unfold apply_kind. rewrite Hk. destruct Hf as [[-> _]|[-> _]]; runs; rewrite run_set_account; exact E. }
  unfold apply_tx. rewrite Hs. cbn [ok_or]. runs. rewrite H1. runs. change (tx_nonce tx) with nonce. rewrite Hnonce, N.eqb_refl. runs. cbn [negb].
  rewrite (proj2 (N.ltb_ge _ _)) by (rewrite H2; exact Hfee). runs. unfold debited in Ekind. rewrite Ekind. runs. now rewrite H3.
Qed.

(** A node refuses what its key does not verify. *)
Lemma spend_checked tx data h d d' : tx_kind tx = PrivateTransfer \/ tx_kind tx = Unshield -> tx_shielded tx = Some data ->
  run (apply_shielded tx h) d = (Ok tt, d') -> exists out p vk inputs, proof_from_hex (sh_proof data) = Some p /\ installed_key d = Some vk /\
    (if bool_decide (tx_kind tx = Unshield) then ok_or (parse_u128 (public_unshield data)) "bad public unshield amount" else Ok 0) = Ok out /\
    spend_inputs data out = Ok inputs /\ spend_verify vk p inputs = true.
Proof.
  intros Hk Hd. unfold apply_shielded. rewrite Hd. cbn [ok_or]. intros E. step_ok E H1 e1. step_ok E H2 e2. step_ok E H3 e3.
  injection H2 as <-.
  assert (run (apply_spend tx data h) d = (Ok tt, d')) as E' by (destruct Hk as [Hk|Hk]; now rewrite Hk in E). clear E. revert E'. unfold apply_spend. intros E.
  step_ok E H4 e4. step_ok E H5 e5. step_ok E H6 d1.
  assert (d1 = d) as -> by (apply run_when_ok in H6; destruct (0 <? _); [|now destruct H6]; step_ok H6 H7 e7; now apply run_fail_ok in H6 as [_ ->]).
  step_ok E H7 e7. step_ok E H8 e8. step_ok E H9 e9. step_ok E H10 d2.
  step_ok E H11 e11. step_ok E H12 e12. apply negb_false_iff in H12. destruct (proof_from_hex (sh_proof data)) as [proof|]; [|discriminate H9]. injection H9 as ->.
  exists a, a0, a1, a2. split; [reflexivity|]. split; [|split; [exact H4|split; [exact H11|exact H12]]].
  unfold installed_key. unfold spend_key in H10. step_ok H10 H13 e13. destruct (shielded_verifying_key d) as [bytes|].
  - apply run_lift_ok in H10 as [H10 _]. destruct (vk_from_hex _); [|discriminate H10]. now injection H10 as ->.
  - step_ok H10 H14 e14. apply run_ret_ok in H10 as [-> _]. reflexivity.
Qed.
Lemma unverified_refused k kind to nonce u c p h d vk fee d' : sc_public_unshield c = u -> fits kind u to -> u < 2 ^ 64 ->
  installed_key d = Some vk -> spend_verify vk p (public_inputs c) = false ->
  run (apply_tx (shielded_tx k kind to 0 nonce (spend_data c p)) h) d <> (Ok fee, d').
Proof.
  intros Hu Hf Hb Hk Hv E. apply run_apply_tx in E as (addr & _ & _ & _ & _ & _ & E).
  set (tx := shielded_tx k kind to 0 nonce (spend_data c p)) in *. assert (tx_kind tx = kind) as Hkind by reflexivity.
  assert (run (apply_shielded tx h) (charged tx addr d) = (Ok tt, d')) as Es.
  { unfold apply_kind in E. rewrite Hkind in E. destruct Hf as [[-> _]|[-> _]]; rewrite run_bind, run_set_account in E by (intros; journaled); exact E. }
  apply (spend_checked tx (spend_data c p)) in Es as (out & p' & vk' & inputs & H1 & H2 & H3 & H4 & H5);
    [|rewrite Hkind; destruct Hf as [[-> _]|[-> _]]; auto|reflexivity].
  cbn [sh_proof spend_data] in H1. rewrite proof_hex_round_trip in H1. injection H1 as <-.
  assert (vk' = vk) as ->.
  { unfold installed_key, shielded_verifying_key in H2, Hk. rewrite charged_rows in H2 by discriminate. congruence. }
  assert (out = u) as ->.
  { change (public_unshield (spend_data c p)) with (if 0 <? sc_public_unshield c then dec (sc_public_unshield c) else "") in H3. rewrite Hkind, Hu in H3.
    destruct Hf as [[-> ->]|(-> & Hpos & _)]; [rewrite bool_decide_false in H3 by discriminate; congruence|].
    rewrite bool_decide_true, (proj2 (N.ltb_lt _ _) Hpos) in H3 by reflexivity. unfold parse_u128 in H3. rewrite parse_uint_dec in H3;
      [now injection H3|]. assert (2 ^ 64 <= U128_MAX) by (vm_compute; discriminate). lia. }
  rewrite <- Hu, spend_inputs_read in H4. injection H4 as <-. congruence.
Qed.

(** After a block past the activation, the tree's own root is such an anchor. *)
Lemma ready_after_block b d d' cs nf1 nf2 unshield h : pool_sealed cs d -> N.of_nat (length (cs ++ block_notes b) + 2) <= 2 ^ N.of_nat TREE_DEPTH ->
  run (execute_block b) d = (Ok tt, d') -> shielded_activation <= b_height b <= h -> installed_key d' = Some devnet_setup ->
  unshield <= shielded_pool_balance d' -> shielded_nullifier_seen (fr_to_hex nf1) d' = false -> shielded_nullifier_seen (fr_to_hex nf2) d' = false ->
  ready (root_from_leaves (pool_leaves d')) nf1 nf2 unshield h d'.
Proof.
  intros Hd Hl Hrun Hh Hk Hp H1 H2. assert (2 ^ N.of_nat TREE_DEPTH < 2 ^ 64) by reflexivity.
  destruct (block_appends b d d' cs Hd ltac:(lia) Hrun) as (Hs & _ & Hroot).
  split; [lia|apply Hroot; lia|exact Hk|exact Hp|now split|]. exists (cs ++ block_notes b). split; [apply Hs|exact Hl].
Qed.
End facts.

Section wallet.
Context {HC : Crypto} {HF : Fr} {HK : Compression} {HP : ChainParams} {HJ : EvidenceJson} {HW : Wasm} {HG : Groth16} {HS : Serde}.
Context {HV : Prover} {HX : TxJson} {HL : CryptoLaws} {HFL : FrLaws} {HVL : ProverLaws}.

(** C25: Notes can be spent.  Let a wallet build a spend from the root and the
    paths a node serves, for notes it owns in the node's tree, with a balanced
    sum, two distinct nullifiers and the kind that fits.  The node is left as it
    was, and the transaction carries the operator's valid signature.  It executes
    on any store where the pool is active, holds what is paid out, has room for
    two notes, sealed this root, has seen neither nullifier and verifies with the
    devnet key the wallet proves under, and where the operator stands at the
    nonce used and can pay the fee: the fee is paid, the pool pays out exactly
    the public amount, to the recipient and nobody else, both nullifiers are
    burned, the two new notes follow those of the tree, and whoever holds their
    keys owns them there, so that they can be spent in turn.  A store with
    another key, such as a ceremony's, that does not verify the proof refuses it. *)
Theorem wallet_spend_settles x ip credential url k seed kind i1 i2 o1 o2 unshield to nonce n c tx n' c' h
  (leaves := pool_leaves (n_db n)) (nf1 := nullifier (nt_sk i1.1) i1.2) (nf2 := nullifier (nt_sk i2.1) i2.2)
  (Hroom : N.of_nat (length leaves) <= 2 ^ N.of_nat TREE_DEPTH) (Hin1 : owned leaves i1.1 i1.2) (Hin2 : owned leaves i2.1 i2.2)
  (Hout1 : on_value o1 < 2 ^ 64) (Hout2 : on_value o2 < 2 ^ 64) (Hpublic : unshield < 2 ^ 64)
  (Hsum : nt_value i1.1 + nt_value i2.1 = unshield + on_value o1 + on_value o2) (Hfits : fits kind unshield to) (Hdistinct : nf1 <> nf2)
  (Hrun : build_spend (node_post x ip credential) url k seed kind i1 i2 o1 o2 unshield to nonce (n, c) = (Ok tx, (n', c'))) :
  n' = n /\ verify_signature tx = true /\ sender tx = Some (address k) /\ tx_to tx = to /\
  exists data p inputs, tx_shielded tx = Some data /\ nullifiers data = [fr_to_hex nf1; fr_to_hex nf2] /\
    proof_from_hex (sh_proof data) = Some p /\ spend_inputs data unshield = Ok inputs /\
    (forall d (pos := N.of_nat (length (pool_leaves d))), ready (root_from_leaves leaves) nf1 nf2 unshield h d ->
       nonce = Types.nonce (account (address k) d) -> MIN_FEE <= balance (account (address k) d) ->
       exists d', run (apply_tx tx h) d = (Ok MIN_FEE, d') /\ settled tx data unshield (charged tx (address k) d) d' /\
         receives (pool_leaves d') o1 pos /\ receives (pool_leaves d') o2 (pos + 1)) /\
    (forall d vk fee d', installed_key d = Some vk -> spend_verify vk p inputs = false -> run (apply_tx tx h) d <> (Ok fee, d')).
Proof.
  apply (build_spend_spec _ _ _ _ _ _ _ _ _ _ _ _ _ _ _ _ _ _ _ Hroom Hin1 Hin2 Hout1 Hout2 Hpublic Hsum) in Hrun as (-> & cir & p & -> & Hb).
  split; [reflexivity|]. split; [apply signed_verifies|]. split; [apply signed_sender|]. split; [reflexivity|].
  exists (spend_data cir p), p, (public_inputs cir). split; [reflexivity|]. split; [cbn [nullifiers spend_data]; now rewrite (bt_nullifiers _ _ _ _ _ _ _ _ Hb)|].
  split; [apply proof_hex_round_trip|]. split; [rewrite <- (bt_unshield _ _ _ _ _ _ _ _ Hb); apply spend_inputs_read|]. split.
  - intros d pos Hready Hnonce Hfee. exact (spend_executes k kind to nonce _ _ _ _ _ _ _ _ h d Hb Hfits Hpublic Hout1 Hout2 Hdistinct Hready Hnonce Hfee).
  - intros d vk fee d'. exact (unverified_refused k kind to nonce unshield cir p h d vk fee d' (bt_unshield _ _ _ _ _ _ _ _ Hb) Hfits Hpublic).
Qed.
End wallet.

(** A pool with one note of five: two are withdrawn, three stay in a note. *)
Module Spender_example.
Import Toy Toy_field Exec_example Client_example.
(** A proof is a tag of the key and the public inputs, and the prover gives one
    only for an assignment that satisfies the constraints. *)
Definition tag_of (vk : N) (inputs : list F) : F := f_of (foldl (fun acc f => 31 * acc + f_to f) vk inputs).
#[local] Instance tag_groth : Groth16 := {|
  gProof := F; gKey := N; proof_deserialize := fr_from_hex; key_deserialize s := Some (from_be_bytes s); key_serialize := to_be_bytes 8;
  parameters_of _ := 1; verify_proof vk p inputs := bool_decide (p = tag_of vk inputs) |}.
#[local] Instance tag_prover : Prover := {|
  create_proof seed c := if generate_constraints (publics_of c) (witness_of c) then Ok (tag_of 1 (public_inputs c)) else Err "unsatisfied";
  proof_serialize := fr_to_hex |}.
#[local] Instance tag_laws : ProverLaws.
Proof.
  split.
  - intros seed c H. exists (tag_of 1 (public_inputs c)). cbn [create_proof tag_prover]. rewrite H. split; [reflexivity|].
    cbn [verify_proof tag_groth]. now apply bool_decide_eq_true.
  - intros p. exact (fr_hex_round_trip p).
  - intros p. unfold proof_serialize. cbn [tag_prover]. unfold fr_to_hex. rewrite hex_len, slen_be. split; apply (bool_decide_eq_true_1 _); vm_compute; reflexivity.
Qed.

#[local] Existing Instance Client_example.toy_serde.
Definition mine_note : OwnNote := {| nt_sk := f_of 7; nt_value := 5; nt_rho := f_of 11 |}.
Definition dummy : OwnNote := {| nt_sk := f_of 8; nt_value := 0; nt_rho := f_of 12 |}.
Definition leaf : F := note_commitment (owner_tag (f_of 7)) 5 (f_of 11).
Definition kept : OutputNote := {| on_owner := owner_tag (f_of 9); on_value := 3; on_rho := f_of 13 |}.
Definition none : OutputNote := {| on_owner := f_of 9; on_value := 0; on_rho := f_of 14 |}.
Definition root : string := fr_to_hex (root_from_leaves [leaf]).
Definition d : Db := <[ (T_SHIELDED_ROOTS, root) := VBytes "" ]> (<[ (T_META, "shielded_pool") := text_row 5 ]>
  (<[ (T_ACCOUNTS, address key) := VAccount (with_balance MIN_FEE default_account) ]> {[ (T_SHIELDED_LEAVES, to_be_bytes 8 0) := VBytes (fr_to_hex leaf) ]})).
(** The same pool after the key of a ceremony was installed. *)
Definition ceremony : Db := <[ (T_META, "shielded_vk") := VBytes (hex_encode (to_be_bytes 8 2)) ]> d.
Definition at_d : Node := node_new (mk d []) (default_devnet mine) key 0.
Definition built_tx : result Transaction * (Node * RpcConfig) :=
  build_spend (node_post proc (V4 1) None) "" key 0 Unshield (mine_note, 0) (dummy, 0) kept none 2 mine 0 (at_d, config_public).

Lemma d_notes : note_table [fr_to_hex leaf] d.
Proof.
  unfold note_table. transitivity (rows T_SHIELDED_LEAVES ({[ (T_SHIELDED_LEAVES, to_be_bytes 8 0) := VBytes (fr_to_hex leaf) ]} : Db)).
  - apply rows_ext. intros k. unfold d. now rewrite !lookup_insert_ne by discriminate.
  - unfold rows. rewrite map_to_list_singleton. reflexivity.
Qed.
Lemma d_leaves : pool_leaves d = [leaf].
Proof. unfold pool_leaves. rewrite (note_leaves _ _ d_notes). cbn [omap list_omap]. now rewrite fr_hex_round_trip. Qed.
Lemma d_built : is_ok built_tx.1 = true.
Proof. vm_compute. reflexivity. Qed.
Lemma nullifiers_differ : nullifier (f_of 7) 0 <> nullifier (f_of 8) 0.
Proof. intros E. apply (f_equal f_to) in E. vm_compute in E. discriminate E. Qed.
Lemma d_ready : ready (root_from_leaves [leaf]) (nullifier (f_of 7) 0) (nullifier (f_of 8) 0) 2 1000 d.
Proof.
  split.
  - vm_compute. discriminate.
  - unfold shielded_root_known, d. fold root. rewrite lookup_insert_eq. reflexivity.
  - reflexivity.
  - assert (shielded_pool_balance d = 5) as ->; [|lia]. unfold shielded_pool_balance, meta_number, d.
    rewrite lookup_insert_ne, lookup_insert_eq by discriminate. reflexivity.
  - unfold shielded_nullifier_seen, d. rewrite !lookup_insert_ne, !lookup_singleton_ne by discriminate. split; reflexivity.
  - exists [fr_to_hex leaf]. split; [exact d_notes|]. vm_compute. discriminate.
Qed.
Lemma note_owned : owned [leaf] mine_note 0.
Proof. split; [reflexivity..|right; reflexivity]. Qed.
Lemma dummy_owned : owned [leaf] dummy 0.
Proof. split; [reflexivity..|now left]. Qed.

Lemma d_sender : account (address key) d = with_balance MIN_FEE default_account.
Proof. unfold account, d. rewrite !lookup_insert_ne by discriminate. now rewrite lookup_insert_eq. Qed.
(** The proof is none under the key of the ceremony. *)
Lemma ceremony_disagrees : match built_tx.1 with
  | Ok tx => match tx_shielded tx with
    | Some data => match proof_from_hex (sh_proof data), spend_inputs data 2 with
      | Some p, Ok inputs => spend_verify 2 p inputs = false
      | _, _ => False end
    | None => False end
  | Err _ => False end.
Proof. vm_compute. reflexivity. Qed.
Lemma ceremony_key : installed_key ceremony = Some 2.
Proof.
  unfold installed_key, shielded_verifying_key, ceremony. rewrite lookup_insert_eq. cbn [mbind option_bind as_bytes].
  vm_compute. reflexivity.
Qed.

Lemma wallet_spend_settles_witness : exists tx d', built_tx.1 = Ok tx /\ verify_signature tx = true /\
  run (apply_tx tx 1000) d = (Ok MIN_FEE, d') /\ owned (pool_leaves d') {| nt_sk := f_of 9; nt_value := 3; nt_rho := f_of 13 |} 1 /\
  forall fee d2, run (apply_tx tx 1000) ceremony <> (Ok fee, d2).
Proof.
  pose proof d_built as Hok. pose proof ceremony_disagrees as Hcer. destruct built_tx as [[tx|e] [n' c']] eqn:E; [|discriminate Hok]. clear Hok.
  destruct (wallet_spend_settles proc (V4 1) None "" key 0 Unshield (mine_note, 0) (dummy, 0) kept none 2 mine 0 at_d config_public tx n' c' 1000)
    as (_ & H1 & _ & _ & data & p & inputs & Hd & _ & Hp & Hi & H2 & H5).
  - change (n_db at_d) with d. rewrite d_leaves. vm_compute. discriminate.
  - change (n_db at_d) with d. rewrite d_leaves. exact note_owned.
  - change (n_db at_d) with d. rewrite d_leaves. exact dummy_owned.
  - reflexivity.
  - reflexivity.
  - reflexivity.
  - reflexivity.
  - right. split; [reflexivity|]. split; [reflexivity|vm_compute; reflexivity].
  - exact nullifiers_differ.
  - exact E.
  - destruct (H2 d) as (d' & H3 & _ & H4 & _).
    + change (n_db at_d) with d. rewrite d_leaves. exact d_ready.
    + rewrite d_sender. reflexivity.
    + rewrite d_sender. vm_compute. discriminate.
    + exists tx, d'. split; [reflexivity|]. split; [exact H1|]. split; [exact H3|]. split; [rewrite d_leaves in H4; exact (H4 (f_of 9) eq_refl)|].
      cbn [fst] in Hcer. rewrite Hd, Hp, Hi in Hcer. intros fee d2. exact (H5 ceremony 2 fee d2 ceremony_key Hcer).
Defined.
End Spender_example.
