(* ===== verification/Gaps.v ===== *)
(** Places where the code falls short of what it states, each as a theorem about
    the model: a pending transaction whose fee fell below the floor is sealed and
    then refused by every importer; a repeated old block disarms the start-up
    integrity alarm; a spent nullifier written differently spends again; a reset
    to genesis keeps the base fee; the transaction root does not fix the
    transaction list. *)

From S2P Require Import Prelude Bytes Crypto Types Journal Store Smt SmtFacts Poseidon Shielded State StateFacts.
From S2P Require Import Fees Staking Slashing Contracts SignGuard Circuit Exec ExecFacts Chain ChainFacts ShieldFacts NoteTree.
From Stdlib Require Import Ascii.
From Stdlib Require String.

Section gaps.
Context {HC : Crypto} {HF : Fr} {HK : Compression} {HP : ChainParams} {HJ : EvidenceJson} {HW : Wasm} {HG : Groth16}.

(** ** Stale fees *)

Lemma check_all_fees_floor chain_id height floor txs tx :
  tx ∈ txs -> FEE_MARKET_ACTIVATION_HEIGHT <= height -> tx_fee tx < floor ->
  is_ok (check_all_fees chain_id height floor txs) = false.
Proof.
  intros Hin Hh Hf. induction txs as [|t txs IH]; [now apply not_elem_of_nil in Hin|]. cbn [check_all_fees].
  apply elem_of_cons in Hin as [<-|Hin].
  - unfold check_fees. rewrite (proj2 (N.leb_le _ _) Hh), (proj2 (N.ltb_lt _ _) Hf).
    destruct (negb _); [done|]. now destruct (_ <? _).
  - destruct (check_fees _ _ _ t); [|done]. cbn. now apply IH.
Qed.

Lemma import_checks_fees cpus g now1 now2 b d :
  import_checks cpus g now1 now2 b d = Ok true ->
  is_ok (check_all_fees (g_chain_id g) (b_height b) (required_fee (b_height b) (base_fee d)) (b_transactions b)) = true.
Proof.
  unfold import_checks. destruct (tip_height d) as [t|]; [|done]. cbn [ok_or mbind result_bind].
  repeat (match goal with |- (if ?c then _ else _) = _ -> _ => destruct c; [done|] end).
  destruct (check_timestamp _ _ _); [|done]. cbn [mbind result_bind]. cbv zeta.
  match goal with |- (if ?c then _ else _) = _ -> _ => destruct c; [done|] end.
  now destruct (check_all_fees _ _ _ _).
Qed.

(** Execution does not look at the base fee. A transaction admitted when the
    floor was lower still executes, so the producer seals it; the block then
    fails the floor check of every importer, and the producer is alone with it. *)
Theorem stale_fee_sealed_then_rejected k height parent now tx fee d' s
    (Hheight : FEE_MARKET_ACTIVATION_HEIGHT <= height)
    (Hexec : run (apply_tx tx height) (db s) = (Ok fee, d'))
    (Hstale : tx_fee tx < required_fee height (base_fee (db s))) :
  let b := (seal_batch k height parent now [tx] s).1 in
  b_transactions b = [tx] /\
  forall cpus g now1 now2, import_checks cpus g now1 now2 b (db s) <> Ok true.
Proof.
  intros b. assert (b_transactions b = [tx] /\ b_height b = height) as [Htxs Hb].
  { exact (seal_one k height parent now tx fee d' s Hexec). }
  split; [exact Htxs|]. intros cpus g now1 now2 Hok%import_checks_fees. rewrite Htxs, Hb in Hok.
  now rewrite (check_all_fees_floor _ _ _ _ tx) in Hok by (done || apply list_elem_of_singleton; done).
Qed.

(** ** The start-up alarm *)

(** Importing a block the node already has overwrites the checkpoint of the tip
    with one for the old height. The start-up check skips a checkpoint of
    another height, so until the next block it passes on any trees at all. *)
Theorem repeated_block_disarms_alarm cpus clock b n n' (Hh : b_height b <= U64_MAX)
    (Hold : b_height b < tip (n_db n)) (Himport : import_block cpus clock b n = (Ok false, n')) :
  (exists root, state_checkpoint (n_db n') = Some (b_height b, root)) /\
  forall s, state_checkpoint (db s) = state_checkpoint (n_db n') -> tip (db s) = tip (n_db n) ->
    (startup_state_root_check s).1 = Ok tt.
Proof.
  assert (exists root, state_checkpoint (n_db n') = Some (b_height b, root)) as [root Hc].
  { unfold import_block in Himport. destruct (halt_reason _); [done|].
    destruct (import_block_inner _ _ _ _) as [[imported|] n2]; [|done]. injection Himport as _ <-.
    unfold n_db. cbn [n_store with_store]. unfold checkpoint_state. eexists. now apply checkpoint_reads. }
  split; [eauto|]. intros s Hs Ht. unfold startup_state_root_check. rewrite Hs, Hc, Ht.
  now rewrite (proj2 (N.eqb_neq _ _)) by lia.
Qed.

(** ** Reset *)

(** A replay from genesis starts from the base fee of the abandoned chain. *)
Lemma reset_keeps_base_fee s : base_fee (db (reset_chain s)) = base_fee (db s).
Proof.
  unfold base_fee, meta_number, reset_chain, raw_filter. cbn [db].
  destruct (db s !! (T_META, "base_fee")) as [v|] eqn:E.
  - rewrite (map_lookup_filter_Some_2 _ _ _ v); done.
  - rewrite map_lookup_filter_None_2; [done|now left].
Qed.

(** ** The transaction root *)

(** A list of odd length and the list with its last transaction repeated have
    one root, hence one header and one block hash. *)
Theorem txs_root_repeats_last a b c : txs_root [a; b; c] = txs_root [a; b; c; c].
Proof. reflexivity. Qed.

(** ** Nullifiers by name *)

Lemma trim_end_space s : trim_end (s +:+ " ") = trim_end s.
Proof. induction s as [|c s IH]; cbn; [done|]. now rewrite IH. Qed.
Lemma trim_trailing_space s : trim (s +:+ " ") = trim s.
Proof.
  unfold trim. induction s as [|c s IH]; [done|]. cbn [String.append trim_start].
  destruct (is_space c); [exact IH|]. apply (trim_end_space (String c s)).
Qed.

(** The proof's input is the field element, which ignores white space. *)
Lemma fr_from_hex_trailing_space s : fr_from_hex (s +:+ " ") = fr_from_hex s.
Proof. unfold fr_from_hex. now rewrite trim_trailing_space. Qed.

(** The same spend with its nullifiers written with a trailing space. *)
Definition alias (data : ShieldedData) : ShieldedData := {|
  anchor := anchor data; nullifiers := map (fun n => n +:+ " ") (nullifiers data); commitments := commitments data;
  sh_proof := sh_proof data; public_unshield := public_unshield data |}.

Lemma spend_inputs_alias data out : length (nullifiers data) = 2%nat ->
  spend_inputs (alias data) out = spend_inputs data out.
Proof.
  intros Hn. unfold spend_inputs, alias. cbn [anchor nullifiers commitments].
  destruct (nullifiers data) as [|n1 [|n2 [|? ?]]]; try discriminate. cbn [map nth].
  now rewrite !fr_from_hex_trailing_space.
Qed.

(** Nullifiers are burned as strings, proofs check field elements. After an
    unshield has executed, the same note is withdrawn again by the same proof
    with a space after each nullifier, as long as the pool can pay: one note,
    two payments, out of the other depositors' coins. *)
Theorem aliased_nullifiers_spend_twice tx data out h h2 d d1 bytes n1 n2
    (Hout : is_unshield tx data out) (Hnf : nullifiers data = [n1; n2]) (Hne : n1 <> n2)
    (Hkey : shielded_verifying_key d = Some bytes)
    (Hfirst : run (apply_spend tx data h) d = (Ok tt, d1))
    (Hnew1 : shielded_nullifier_seen (n1 +:+ " ") d1 = false) (Hnew2 : shielded_nullifier_seen (n2 +:+ " ") d1 = false)
    (Hpool : out <= shielded_pool_balance d1) :
  exists d2, run (apply_spend tx (alias data) h2) d1 = (Ok tt, d2) /\
    shielded_pool_balance d2 + out = shielded_pool_balance d1.
Proof.
  destruct (spendable_inv tx data out h d bytes d1 Hout Hkey Hfirst) as [Hto _ Hroot Hproof].
  destruct (pool_after_unshield tx data out h d bytes d1 Hout Hkey Hfirst) as [Hroots Hvk].
  destruct (spendable_runs tx (alias data) out h2 d1 (n1 +:+ " ") (n2 +:+ " ")) as (d2 & E & [Hd _ _ _]); try done.
  - now left.
  - split; [exact Hto|exact Hpool| |].
    + unfold shielded_root_known in *. cbn [anchor alias]. now rewrite <- Hroots.
    + destruct Hproof as (proof & vk & inputs & H1 & H2 & H4 & H5). exists proof, vk, inputs.
      repeat split; try done.
      * unfold installed_key, shielded_verifying_key in *. now rewrite <- Hvk.
      * rewrite spend_inputs_alias; [done|now rewrite Hnf].
  - cbn. now rewrite Hnf.
  - intros E. apply Hne. apply (append_inj_len n1 " " n2 " " ) in E; [tauto|].
    apply (f_equal slen) in E. rewrite !slen_append in E. cbn in E. lia.
  - now exists d2.
Qed.
End gaps.
